(* ===== verification/_CoqProject ===== *)
-Q . S2P
Prelude.v
Encoder.v
Decoder.v
ArgumentCoders.v
MessageReceiverMap.v
UnixTransport.v
SessionState.v
BackForwardList.v
SharedStringHash.v
Connection.v
WebStorage.v
CacheStorage.v
PageLoadState.v
WebFrames.v
PageLoads.v
PageMirror.v
FileAccess.v
ProcessSwap.v
Responsiveness.v
InputEvents.v
ProcessThrottler.v
AuxiliaryProcess.v
BackForwardCache.v
WebProcessCache.v
UserMedia.v
OperatingDates.v
ResourceLoadStatistics.v
StatisticsRemoval.v
