(* ===== verification/Prelude.v ===== *)
(** * A verification of the WebKit2 process model

    WebKit2 runs a browser engine in several processes.  The UI process owns the pages of an
    application as the proxies of UIProcess/ ([WebPageProxy], [WebProcessProxy], ...); web
    processes (WebProcess/) run WebCore for them and may be compromised; the network process
    (NetworkProcess/) loads resources and keeps what sites store.  They share the code under
    Platform/ (message passing) and Shared/ (the data that is passed).  This library models
    the part of that system which decides what is sent, kept, shown and shut down, translated
    from the sources under src/, and proves what its clients rely on.

    ** The parts, bottom up

    _Messages_ (Platform/IPC).  A message is written by an encoder, split into bytes and file
    descriptors by the transport, cut out of the stream again, decoded, and handed by the
    connection to the object that the receiver map names.
    - [Encoder]: Encoder.cpp, with the buffer as a memory block; every call appends its padded
      data whatever the block contained.
    - [Decoder]: Decoder.cpp, with addresses as 64-bit integers; what the encoder wrote is
      accepted, and data returned from any buffer lies in it.
    - [ArgumentCoders]: the templates of ArgumentCoders.h as a class with laws.  The clients'
      round trips are proved against [LawfulCoder], the instances discharge it.
    - [UnixTransport]: unix/ConnectionUnix.cpp; whatever the pieces in which the stream is
      read, the receiver delivers the messages that were sent.
    - [MessageReceiverMap]: MessageReceiverMap.cpp with the receivers' counts.
    - [Connection]: Connection.cpp as a machine of a work queue and a main thread with a stack
      of activations: messages are conserved, queued messages have a task that dispatches
      them, a blocked synchronous send is woken and returns its own reply.

    _Data of a page_ (Shared, UIProcess, WebProcess/WebStorage, NetworkProcess/cache).
    - [SessionState]: the coders of SessionState.cpp for frame trees of any depth.
    - [BackForwardList]: WebBackForwardList.cpp; a refinement of a history with a cursor.
    - [SharedStringHash]: the visited-link table and its store; probing ends, and the store
      answers as a set.
    - [WebStorage]: StorageAreaMap.cpp and StorageArea.cpp with the messages between them;
      caches converge, the database mirrors the area.
    - [CacheStorage]: the engine of the DOM Cache API in the network process
      (NetworkProcess/cache/CacheStorageEngine*.cpp), with the work queues, the storage and the
      quota manager as tasks that end in any order: requests are answered once, reference
      counts are exact and nothing hangs when the tasks are done; where requests are lost or
      a null pointer is used is shown on runs.

    _Loads_ (UIProcess).  The handlers of a page change two states by separate statements, the
    public one of the page and the one of its main frame.
    - [PageLoadState]: PageLoadState.cpp, transactions and observers that re-enter it.
    - [WebFrames]: FrameLoadState.cpp, WebFrameProxy.cpp, WebNavigationState.cpp and the URL
      checks of WebProcessProxy.cpp; frames are shared through an index.
    - [PageLoads]: the load handlers of WebPageProxy.cpp and ProvisionalPageProxy.cpp.
    - [PageMirror], [FileAccess], [ProcessSwap]: theorems about runs of these handlers under
      arbitrary messages: page and main frame agree, no file is shown without access, and
      what a navigation in another process does to the page.

    _The life of a web process and what it may use_ (UIProcess).
    - [AuxiliaryProcess]: AuxiliaryProcessProxy.cpp, composed with the throttler: messages wait
      for the launch in order, completion handlers are settled once, and an outstanding reply
      keeps the process awake.
    - [ProcessThrottler]: ProcessThrottler.cpp; a process with activities holds the assertion
      they ask for, one without is suspended in the end.
    - [Responsiveness]: both responsiveness timers and their owner; the lazy timer refines a
      deadline, questions are answered once.
    - [InputEvents]: the queues of input events, from the embedder to the answer of the web
      process; a process that answers is not terminated, and which events are dropped, merged
      or discarded is exactly known.
    - [BackForwardCache]: WebBackForwardCache.cpp and SuspendedPageProxy.cpp; entries, counts
      and pages agree and everything that is cached is settled once.
    - [WebProcessCache]: WebProcessCache.cpp and the end of a web process; entries, flags and
      data stores agree, and an unused process is in the cache or shut down.
    - [UserMedia]: UserMediaPermissionRequestManagerProxy.cpp, the requests of a page for
      cameras and microphones, with the application and the services it waits for as tasks
      that end in any order: what is granted was agreed to while the view stays visible, and
      runs in which it becomes visible in between show how that fails.

    _Tracking prevention_ (NetworkProcess/Classifier).
    - [OperatingDates]: the calendar in memory and in the database, and where they agree.
    - [ResourceLoadStatistics]: the memory store, classification, cookie blocking, access.
    - [StatisticsRemoval]: which website data is removed, pruning, scheduling.

    ** How the code is translated

    A class is a record of its members and a method a function from record to record, whole,
    with its early returns; member names are the source's.  Machine integers are [Z] followed
    by [wrap w] where the source computes at width [w]; [size_t] has 64 bits.  A failed
    [RELEASE_ASSERT], a crash or a loop that does not end is [None] or an error of [outcome];
    [ASSERT]s, which release builds skip, are left out unless a file says otherwise.  Pointers
    to shared objects are keys of one store, so aliases see each other's changes.  What a
    method tells objects outside the model is recorded in order, as the list some records end
    with.  Where calls of several objects interleave there is a type of events with a
    condition under which each can happen ([enabled]), their effect ([exec]) and the runs they
    make; theorems about reachable states hold for every run.

    ** Bounds and fuel

    Loops that are not structural take fuel that is always enough, which is proved where a
    theorem needs the result: the capacity of an encoder doubles at most 64 times; a probe of
    the shared table visits each slot once; a decoded frame tree and the messages in a read
    buffer are no more than the bytes there are; loops that drop entries run at most once per
    entry.  The trace of redirects in [ResourceLoadStatistics] stops at depth 50 as the code
    does.  Observers of [PageLoadState] may re-enter it without end: its theorems about results
    assume observers that settle after a number of calls and show that fuel computed from it
    suffices.

    ** What is assumed of code outside the repository

    Each of these is a parameter or a class, its laws are named, and witnesses instantiate it:
    the allocator ([alloc]); shared memory and sockets ([UnixTransport]); the generated test of
    message names ([isValidMessageName]); WebCore's [StorageMap], URL functions ([WebCore],
    [protocolIs]), [DateMath], script values and statistics ([Platform], whose traversal
    orders of hash tables are arbitrary); [std::sort] ([StdSort]); floating-point addition
    ([FloatArithmetic]); [HashMap::random] ([RandomEntry]); requests, responses and their
    matching in WebCore ([Fetch]); the comparison of origins ([sameOrigin]).

    ** What is not modelled

    Cocoa-only code and the ports' toolkits, the public API bindings, generated code, the GPU
    and plug-in processes, drawing and layer trees, Web Authentication, automation and the
    inspector are wrappers around platform or WebCore objects.  Of WebPageProxy.cpp and
    WebProcessPool.cpp only the parts above are modelled; most of the rest forwards messages.
    Still open are the HTTP disk cache of the network process (NetworkCache*.cpp), its resource
    loader, the coders of WebCore's types (WebCoreArgumentCoders.cpp) and the SQL of the
    database store of tracking prevention.

    ** This file

    Fixed-width integers, byte images, record updates, generic list lemmas, reachability of
    step relations and the project's automation. *)

From stdpp Require Export prelude list gmap strings.
From Stdlib Require Export ZArith Lia.
From Stdlib Require Export Strings.Byte.
From coqutil Require Export Byte Word.LittleEndianList.

#[global] Open Scope Z_scope.

(** ** Machine integers

    A C++ unsigned integer of [w] bits is a [Z] in [0, 2^w); arithmetic that the
    source performs at that width is followed by [wrap w].  [size_t] is 64 bits
    wide, as on every platform the code is built for except 32-bit ARM/x86. *)

Definition wrap (w : Z) (z : Z) : Z := z mod 2 ^ w.
Definition in_width (w : Z) (z : Z) : Prop := 0 <= z < 2 ^ w.
Definition size_t_bits : Z := 64.
Definition size_t_max : Z := 2 ^ 64 - 1.

#[global] Instance in_width_dec w z : Decision (in_width w z).
Proof. unfold in_width. apply _. Defined.

Lemma wrap_small w z : in_width w z -> wrap w z = z.
Proof. unfold wrap, in_width. intros. by apply Z.mod_small. Qed.

Lemma wrap_range w z : 0 <= w -> in_width w (wrap w z).
Proof. intros. unfold wrap, in_width. apply Z.mod_pos_bound, Z.pow_pos_nonneg; lia. Qed.

Lemma wrap_idem w z : 0 <= w -> wrap w (wrap w z) = wrap w z.
Proof. intros. by apply wrap_small, wrap_range. Qed.

(** A wrapped counter can be updated through its wrapped value. *)
Lemma wrap_add_l w z k : 0 <= w -> wrap w (wrap w z + k) = wrap w (z + k).
Proof. intros. unfold wrap. apply Z.add_mod_idemp_l, Z.pow_nonzero; lia. Qed.

Lemma wrap_sub_l w z k : 0 <= w -> wrap w (wrap w z - k) = wrap w (z - k).
Proof. intros. unfold wrap. by rewrite <- Zminus_mod_idemp_l, <- Zminus_mod_idemp_l with (a := z), Z.mod_mod by (apply Z.pow_nonzero; lia). Qed.

(** [unsigned] truncation of a [size_t] count held in a [nat]. *)
Definition unsigned32 (n : nat) : nat := Z.to_nat (wrap 32 (Z.of_nat n)).

Lemma unsigned32_small n : Z.of_nat n < 2 ^ 32 -> unsigned32 n = n.
Proof. intros. unfold unsigned32. rewrite wrap_small by (unfold in_width; lia). lia. Qed.

Create HintDb wk.
#[export] Hint Resolve wrap_small wrap_range : wk.

(** ** Outcomes of code that may abort, loop or touch memory out of bounds *)

Inductive outcome (A : Type) : Type :=
| Done (a : A)            (* normal return *)
| Crash                   (* CRASH() / RELEASE_ASSERT *)
| Diverge                 (* the fuel given to a loop ran out *)
| Undefined.              (* out-of-bounds access or null dereference *)
Arguments Done {A} _.
Arguments Crash {A}.
Arguments Diverge {A}.
Arguments Undefined {A}.

Definition outcome_bind {A B} (m : outcome A) (k : A -> outcome B) : outcome B :=
  match m with
  | Done a => k a
  | Crash => Crash
  | Diverge => Diverge
  | Undefined => Undefined
  end.

Declare Scope outcome_scope.
Delimit Scope outcome_scope with outcome.
Notation "'let!' x ':=' m 'in' k" := (outcome_bind m (fun x => k))
  (at level 10, x pattern, m at level 100, k at level 200) : outcome_scope.

(** ** Functional update of one field of a record

    [r <| field := v |>] needs an [Eta] instance, the record rebuilt from its
    fields; the update of a given field is derived from it. *)

Class Eta (R : Type) := eta : R -> R.
#[global] Hint Mode Eta ! : typeclass_instances.
Class Update {R T : Type} (field : R -> T) := update : T -> R -> R.
Arguments update {R T} field {_} / _ _.
Ltac head_of t := lazymatch t with ?f _ => head_of f | _ => t end.
Ltac derive_update :=
  match goal with
  | |- @Update ?R ?T ?field =>
      let instance := eval cbv beta delta [eta] in (@eta R _) in
      let name := head_of instance in
      let rebuilt := eval cbv beta delta [name] in instance in
      let abstracted := eval pattern field in rebuilt in
      lazymatch abstracted with
      | (fun _ => ?constant) _ => fail "not a field of the record"
      | ?F _ => exact (fun v : T => F (fun _ => v))
      end
  end.
#[export] Hint Extern 0 (Update _) => derive_update : typeclass_instances.
Notation "r <| field := v |>" := (update field v r)
  (at level 1, left associativity, field at level 0, v at level 99, format "r  <| field  :=  v |>").

(** Update of a function at one point. *)
Definition upd {A} (k : nat) (v : A) (f : nat -> A) : nat -> A := fun k' => if decide (k' = k) then v else f k'.
Lemma upd_same {A} k (v : A) f : upd k v f k = v.
Proof. unfold upd. by rewrite decide_True. Qed.
Lemma upd_other {A} k k' (v : A) f : k' <> k -> upd k v f k' = f k'.
Proof. intros. unfold upd. by rewrite decide_False. Qed.

(** ** Byte blocks *)

Abbreviation bytes := (list byte).
#[global] Instance byte_eq_decision : EqDecision byte := Byte.byte_eq_dec.
Definition zeros (n : nat) : bytes := replicate n Byte.x00.
Definition blen (b : bytes) : Z := Z.of_nat (length b).

(** [mem_write off data mem] is [memcpy(mem + off, data, length data)] into the
    block [mem]; a write that leaves the block is undefined behaviour. *)
Definition mem_write (off : Z) (data mem : bytes) : outcome bytes :=
  if decide (0 <= off /\ off + blen data <= blen mem)
  then Done (take (Z.to_nat off) mem ++ data ++ drop (Z.to_nat (off + blen data)) mem)
  else Undefined.

Lemma blen_nonneg b : 0 <= blen b.
Proof. unfold blen. lia. Qed.

Lemma blen_nil : blen [] = 0.
Proof. done. Qed.

Lemma blen_app a b : blen (a ++ b) = blen a + blen b.
Proof. unfold blen. rewrite length_app. lia. Qed.

Lemma blen_zeros n : blen (zeros n) = Z.of_nat n.
Proof. unfold blen, zeros. by rewrite length_replicate. Qed.

(** Writing [data] right after a prefix known up to [off] extends that prefix. *)
Lemma mem_write_extend off data mem :
  0 <= off -> off + blen data <= blen mem ->
  exists mem', mem_write off data mem = Done mem' /\ blen mem' = blen mem /\
    take (Z.to_nat (off + blen data)) mem' = take (Z.to_nat off) mem ++ data.
Proof.
  intros Ho Hl. unfold mem_write. rewrite decide_True by done.
  eexists; split; [done|]. unfold blen in *. split.
  - rewrite !length_app, length_take, length_drop. lia.
  - rewrite app_assoc, take_app_le, take_ge;
      [done | rewrite length_app, length_take; lia ..].
Qed.

(** ** Counting occurrences *)

Section occurrences.
Context {A : Type} `{EqDecision A}.

Fixpoint occ (x : A) (l : list A) : Z :=
  match l with
  | [] => 0
  | y :: l' => (if decide (y = x) then 1 else 0) + occ x l'
  end.

Lemma occ_app x l l' : occ x (l ++ l') = occ x l + occ x l'.
Proof. induction l as [|y l IH]; simpl; [lia|]. rewrite IH. lia. Qed.

Lemma occ_nonneg x l : 0 <= occ x l.
Proof. induction l as [|y l IH]; simpl; [lia|]. case_decide; lia. Qed.

Lemma occ_pos x l : x ∈ l -> 1 <= occ x l.
Proof.
  intros Hin. induction l as [|y l IH]; [by apply elem_of_nil in Hin|]. simpl. pose proof (occ_nonneg x l).
  apply elem_of_cons in Hin as [->|Hin]; [rewrite decide_True by done; lia|]. specialize (IH Hin). case_decide; lia.
Qed.
End occurrences.

(** ** Step relations *)

Section reachability.
Context {S : Type} (step : S -> S -> Prop).

(** An invariant preserved by every step holds in every reachable state. *)
Lemma rtc_invariant (I : S -> Prop) :
  (forall s s', I s -> step s s' -> I s') -> forall s s', rtc step s s' -> I s -> I s'.
Proof. intros Hstep s s'. induction 1; eauto. Qed.
End reachability.

(** ** Automation *)

(** Case analysis on the conditionals of the goal, with their equations kept. *)
Ltac split_ifs :=
  repeat match goal with
  | |- context [if ?b then _ else _] => let E := fresh "Hif" in destruct b eqn:E
  end.

(** Turn boolean comparisons on [Z] into propositions. *)
Ltac zbool :=
  repeat match goal with
  | H : (_ <=? _) = true |- _ => apply Z.leb_le in H
  | H : (_ <=? _) = false |- _ => apply Z.leb_gt in H
  | H : (_ <? _) = true |- _ => apply Z.ltb_lt in H
  | H : (_ <? _) = false |- _ => apply Z.ltb_ge in H
  | H : (_ =? _) = true |- _ => apply Z.eqb_eq in H
  | H : (_ =? _) = false |- _ => apply Z.eqb_neq in H
  | H : andb _ _ = true |- _ => apply andb_true_iff in H; destruct H
  | H : negb _ = true |- _ => apply negb_true_iff in H
  | H : negb _ = false |- _ => apply negb_false_iff in H
  end.
