(* ===== verification/Encoder.v ===== *)
(** * Platform/IPC/Encoder.cpp: the message encoder

    [Encoder] keeps the buffer as the memory block it is: an inline block of 512
    bytes with unspecified contents, later replaced by blocks obtained from
    [allocBuffer], of which only the first [m_bufferSize] bytes are meaningful.
    The abstraction function [contents] is that prefix; the refinement theorem
    says that every encoder call appends its padded data to it, whatever the
    blocks contained before. *)

From S2P Require Import Prelude.

Local Open Scope outcome_scope.

(** A file descriptor carried beside a message, as the Unix ports have it: a socket, or
    shared memory with its size.  A null attachment has the descriptor -1. *)
Inductive AttachmentType := Uninitialized | SocketType | MappedMemoryType.
Record Attachment := mkAttachment {
  attachment_type : AttachmentType;
  fileDescriptor : Z;
  attachment_size : Z
}.
Definition mappedMemory (fd size : Z) : Attachment := mkAttachment MappedMemoryType fd size.
Definition socket (fd : Z) : Attachment := mkAttachment SocketType fd 0.
Definition noAttachment : Attachment := mkAttachment Uninitialized (-1) 0.

Module Encoder.

(** Encoder.cpp: [roundUpToAlignment(size_t, size_t)], in [size_t] arithmetic. *)
Definition roundUpToAlignment (value alignment : Z) : Z :=
  wrap 64 (wrap 64 (value + alignment - 1) / alignment * alignment).

Record Encoder := mkEncoder {
  m_messageName : Z;
  m_destinationID : Z;
  m_usesInlineBuffer : bool;          (* m_buffer == m_inlineBuffer *)
  m_memory : bytes;                   (* the block m_buffer points to *)
  m_bufferSize : Z;
  m_bufferCapacity : Z;
  m_attachments : list Attachment;
  m_heapBlocks : Z                    (* heap blocks allocated and not yet freed *)
}.

(** [alloc n] is [allocBuffer(buffer, n)]: a fresh block with unspecified
    contents, or failure. *)
Section with_allocator.
Context (alloc : Z -> option bytes).

(** The loop [while (newCapacity < size) newCapacity *= 2] of [reserve]. *)
Fixpoint growCapacity (fuel : nat) (newCapacity size : Z) : outcome Z :=
  if newCapacity <? size then
    match fuel with
    | O => Diverge
    | S fuel' => growCapacity fuel' (wrap 64 (newCapacity * 2)) size
    end
  else Done newCapacity.

Definition reserve (size : Z) (e : Encoder) : outcome Encoder :=
  if size <=? m_bufferCapacity e then Done e
  else
    let! newCapacity := growCapacity 64 (roundUpToAlignment (wrap 64 (m_bufferCapacity e * 2)) 4096) size in
    match alloc newCapacity with
    | None => Crash
    | Some newBuffer =>
        let! newBuffer' := mem_write 0 (take (Z.to_nat (m_bufferSize e)) (m_memory e)) newBuffer in
        Done (mkEncoder (m_messageName e) (m_destinationID e) false newBuffer' (m_bufferSize e)
                newCapacity (m_attachments e)
                (m_heapBlocks e + 1 - (if m_usesInlineBuffer e then 0 else 1)))
    end.

Definition set_buffer (mem : bytes) (size : Z) (e : Encoder) : Encoder :=
  mkEncoder (m_messageName e) (m_destinationID e) (m_usesInlineBuffer e) mem size
    (m_bufferCapacity e) (m_attachments e) (m_heapBlocks e).

(** [grow] returns the encoder and the offset of the room it made. *)
Definition grow (alignment size : Z) (e : Encoder) : outcome (Encoder * Z) :=
  let alignedSize := roundUpToAlignment (m_bufferSize e) alignment in
  let! e1 := reserve (wrap 64 (alignedSize + size)) e in
  let! mem := mem_write (m_bufferSize e1) (zeros (Z.to_nat (alignedSize - m_bufferSize e1))) (m_memory e1) in
  Done (set_buffer mem (wrap 64 (alignedSize + size)) e1, alignedSize).

Definition encodeFixedLengthData (data : bytes) (alignment : Z) (e : Encoder) : outcome Encoder :=
  let! p := grow alignment (blen data) e in
  let! mem := mem_write (snd p) data (m_memory (fst p)) in
  Done (set_buffer mem (m_bufferSize (fst p)) (fst p)).

Definition addAttachment (a : Attachment) (e : Encoder) : Encoder :=
  mkEncoder (m_messageName e) (m_destinationID e) (m_usesInlineBuffer e) (m_memory e) (m_bufferSize e)
    (m_bufferCapacity e) (m_attachments e ++ [a]) (m_heapBlocks e).

Definition releaseAttachments (e : Encoder) : list Attachment * Encoder :=
  (m_attachments e,
   mkEncoder (m_messageName e) (m_destinationID e) (m_usesInlineBuffer e) (m_memory e) (m_bufferSize e)
     (m_bufferCapacity e) [] (m_heapBlocks e)).

Definition hasAttachments (e : Encoder) : bool := negb (bool_decide (m_attachments e = [])).

(** [~Encoder]: the number of heap blocks that stay allocated afterwards. *)
Definition destroy (e : Encoder) : Z :=
  if m_usesInlineBuffer e then m_heapBlocks e else m_heapBlocks e - 1.

(** ** Calls made on an encoder

    [encode] functions never read the encoder back, so what one does to it is the
    sequence of calls it makes. *)
Inductive Op :=
| FixedLengthData (data : bytes) (alignment : Z)
| AddAttachment (a : Attachment)
| Reserve (size : Z).

Definition apply_op (op : Op) (e : Encoder) : outcome Encoder :=
  match op with
  | FixedLengthData data alignment => encodeFixedLengthData data alignment e
  | AddAttachment a => Done (addAttachment a e)
  | Reserve n => reserve n e
  end.

Fixpoint run (ops : list Op) (e : Encoder) : outcome Encoder :=
  match ops with
  | [] => Done e
  | op :: ops' => let! e' := apply_op op e in run ops' e'
  end.

(** [operator<<] on an unsigned integer of [n] bytes: [sizeof] and [alignof] agree. *)
Definition put_uint (n : nat) (z : Z) : Op := FixedLengthData (le_split n z) (Z.of_nat n).

Definition defaultMessageFlags : Z := 0.

Definition encodeHeader (messageName destinationID : Z) : list Op :=
  [put_uint 1 defaultMessageFlags; put_uint 2 messageName; put_uint 8 destinationID].

(** The two constructors; [inline] is the unspecified content of [m_inlineBuffer]. *)
Definition withoutHeader (inline : bytes) (messageName destinationID : Z) : Encoder :=
  mkEncoder messageName destinationID true inline 0 512 [] 0.

Definition create (inline : bytes) (messageName destinationID : Z) : outcome Encoder :=
  run (encodeHeader messageName destinationID) (withoutHeader inline messageName destinationID).

End with_allocator.

(** ** Message flags

    [messageFlags()] reinterprets the first byte of the buffer as an
    [OptionSet<MessageFlags>]. *)
Definition DispatchMessageWhenWaitingForSyncReply : Z := 1.
Definition DispatchMessageWhenWaitingForUnboundedSyncReply : Z := 2.
Definition UseFullySynchronousModeForTesting : Z := 4.
Definition MaintainOrderingWithAsyncMessages : Z := 8.

Inductive ShouldDispatchWhenWaitingForSyncReply := No | Yes | YesDuringUnboundedIPC.

(** [OptionSet::contains], [add] and [remove] on a single-bit flag. *)
Definition flags_contains (flags flag : Z) : bool := negb (Z.land flags flag =? 0).
Definition flags_add (flags flag : Z) : Z := Z.lor flags flag.
Definition flags_remove (flags flag : Z) : Z := Z.ldiff flags flag.

Definition shouldDispatch_of_flags (flags : Z) : ShouldDispatchWhenWaitingForSyncReply :=
  if flags_contains flags DispatchMessageWhenWaitingForSyncReply then Yes
  else if flags_contains flags DispatchMessageWhenWaitingForUnboundedSyncReply then YesDuringUnboundedIPC
  else No.

Definition flags_with_shouldDispatch (s : ShouldDispatchWhenWaitingForSyncReply) (flags : Z) : Z :=
  match s with
  | No => flags_remove (flags_remove flags DispatchMessageWhenWaitingForSyncReply)
            DispatchMessageWhenWaitingForUnboundedSyncReply
  | Yes => flags_remove (flags_add flags DispatchMessageWhenWaitingForSyncReply)
             DispatchMessageWhenWaitingForUnboundedSyncReply
  | YesDuringUnboundedIPC => flags_add (flags_remove flags DispatchMessageWhenWaitingForSyncReply)
             DispatchMessageWhenWaitingForUnboundedSyncReply
  end.

(** Reading the flags of an empty block would be undefined; the block has 512 bytes. *)
Definition messageFlags (e : Encoder) : outcome Z :=
  match m_memory e with b :: _ => Done (byte.unsigned b) | [] => Undefined end.

Definition updateMessageFlags (f : Z -> Z) (e : Encoder) : outcome Encoder :=
  let! flags := messageFlags e in
  let! mem := mem_write 0 (le_split 1 (f flags)) (m_memory e) in
  Done (set_buffer mem (m_bufferSize e) e).

Definition shouldDispatchMessageWhenWaitingForSyncReply (e : Encoder) : outcome ShouldDispatchWhenWaitingForSyncReply :=
  let! flags := messageFlags e in Done (shouldDispatch_of_flags flags).

Definition setShouldDispatchMessageWhenWaitingForSyncReply (s : ShouldDispatchWhenWaitingForSyncReply) : Encoder -> outcome Encoder :=
  updateMessageFlags (flags_with_shouldDispatch s).

Definition setFullySynchronousModeForTesting : Encoder -> outcome Encoder :=
  updateMessageFlags (fun flags => flags_add flags UseFullySynchronousModeForTesting).

Definition setShouldMaintainOrderingWithAsyncMessages : Encoder -> outcome Encoder :=
  updateMessageFlags (fun flags => flags_add flags MaintainOrderingWithAsyncMessages).

(** ** The abstract encoder: padded appends *)

Definition padding (off alignment : Z) : bytes :=
  zeros (Z.to_nat (roundUpToAlignment off alignment - off)).

(** The bytes a sequence of calls appends when the buffer already holds [off] bytes. *)
Fixpoint emit (off : Z) (ops : list Op) : bytes :=
  match ops with
  | [] => []
  | FixedLengthData data a :: ops' =>
      let chunk := padding off a ++ data in chunk ++ emit (off + blen chunk) ops'
  | _ :: ops' => emit off ops'
  end.

Fixpoint attachments_of (ops : list Op) : list Attachment :=
  match ops with
  | [] => []
  | AddAttachment a :: ops' => a :: attachments_of ops'
  | _ :: ops' => attachments_of ops'
  end.

Definition contents (e : Encoder) : bytes := take (Z.to_nat (m_bufferSize e)) (m_memory e).

(** Calls whose offsets stay below 2^63 and whose alignments are powers of two. *)
Definition power_of_two (a : Z) : Prop := exists k, 0 <= k <= 62 /\ a = 2 ^ k.

Fixpoint fits (off : Z) (ops : list Op) : Prop :=
  match ops with
  | [] => True
  | FixedLengthData data a :: ops' =>
      power_of_two a /\ off + a + blen data <= 2 ^ 63 /\
      fits (off + blen (padding off a ++ data)) ops'
  | AddAttachment _ :: ops' => fits off ops'
  | Reserve n :: ops' => n <= 2 ^ 63 /\ fits off ops'
  end.

Lemma power_of_two_1 : power_of_two 1. Proof. by exists 0. Qed.
Lemma power_of_two_2 : power_of_two 2. Proof. by exists 1. Qed.
Lemma power_of_two_4 : power_of_two 4. Proof. by exists 2. Qed.
Lemma power_of_two_8 : power_of_two 8. Proof. by exists 3. Qed.
#[export] Hint Resolve power_of_two_1 power_of_two_2 power_of_two_4 power_of_two_8 : wk.

(** Representation invariant. *)
Record wf (e : Encoder) : Prop := {
  wf_memory : blen (m_memory e) = m_bufferCapacity e;
  wf_size : 0 <= m_bufferSize e <= m_bufferCapacity e;
  wf_capacity : exists k, 9 <= k <= 63 /\ m_bufferCapacity e = 2 ^ k;
  wf_blocks : m_heapBlocks e = if m_usesInlineBuffer e then 0 else 1
}.

(** ** Alignment arithmetic *)

Lemma power_of_two_pos a : power_of_two a -> 0 < a <= 2 ^ 62.
Proof.
  intros (k & Hk & ->). split; [apply Z.pow_pos_nonneg; lia|].
  apply Z.pow_le_mono_r; lia.
Qed.

Lemma roundUp_spec v a :
  0 <= v -> 0 < a -> v + a <= 2 ^ 63 ->
  v <= roundUpToAlignment v a < v + a /\ roundUpToAlignment v a mod a = 0.
Proof.
  intros Hv Ha Hb. unfold roundUpToAlignment.
  rewrite (wrap_small 64 (v + a - 1)) by (unfold in_width; lia).
  pose proof (Z.div_mod (v + a - 1) a ltac:(lia)) as Hdm.
  pose proof (Z.mod_pos_bound (v + a - 1) a Ha) as Hm.
  set (q := (v + a - 1) / a) in *.
  assert (v <= q * a < v + a) by nia.
  rewrite wrap_small by (unfold in_width; lia).
  split; [lia | apply Z.mod_mul; lia].
Qed.

Lemma blen_padding off a :
  0 <= off -> 0 < a -> off + a <= 2 ^ 63 ->
  blen (padding off a) = roundUpToAlignment off a - off.
Proof.
  intros. unfold padding. rewrite blen_zeros.
  destruct (roundUp_spec off a); lia.
Qed.

Lemma roundUp_doubled k :
  9 <= k <= 62 -> exists j, 12 <= j <= 63 /\ k < j /\
    roundUpToAlignment (wrap 64 (2 ^ k * 2)) 4096 = 2 ^ j.
Proof.
  intros Hk. assert (2 ^ k * 2 = 2 ^ (k + 1)) as ->
    by (rewrite Z.pow_add_r by lia; lia).
  rewrite wrap_small by (split; [apply Z.pow_nonneg; lia | apply Z.pow_lt_mono_r; lia]).
  destruct (decide (k + 1 <= 12)).
  - exists 12. split; [lia|]. split; [lia|].
    assert (k = 9 \/ k = 10 \/ k = 11) as [-> | [-> | ->]] by lia; reflexivity.
  - exists (k + 1). split; [lia|]. split; [lia|].
    assert (2 ^ (k + 1) = 2 ^ (k + 1 - 12) * 4096) as Hm
      by (change 4096 with (2 ^ 12); rewrite <- Z.pow_add_r by lia; f_equal; lia).
    assert (2 ^ (k + 1) <= 2 ^ 63) by (apply Z.pow_le_mono_r; lia).
    assert (0 < 2 ^ (k + 1)) by (apply Z.pow_pos_nonneg; lia).
    unfold roundUpToAlignment.
    rewrite (wrap_small 64 (2 ^ (k + 1) + 4096 - 1)) by (unfold in_width; lia).
    assert ((2 ^ (k + 1) + 4096 - 1) / 4096 = 2 ^ (k + 1 - 12)) as ->.
    { symmetry. apply (Z.div_unique _ _ _ 4095); lia. }
    rewrite <- Hm. apply wrap_small. unfold in_width; lia.
Qed.

(** ** The capacity loop *)

Lemma growCapacity_done fuel j size :
  0 <= j <= 63 -> 63 - j <= Z.of_nat fuel -> size <= 2 ^ 63 ->
  exists j', j <= j' <= 63 /\ size <= 2 ^ j' /\ growCapacity fuel (2 ^ j) size = Done (2 ^ j').
Proof.
  revert j. induction fuel as [|fuel IH]; intros j Hj Hf Hs; simpl;
    destruct (2 ^ j <? size) eqn:E; zbool; try (exists j; split_and!; done || lia).
  - assert (j = 63) as -> by lia. lia.
  - assert (j < 63). { destruct (decide (j = 63)); [subst|]; lia. }
    replace (2 ^ j * 2) with (2 ^ (j + 1)) by (rewrite Z.pow_add_r by lia; lia).
    rewrite wrap_small by (split; [apply Z.pow_nonneg; lia | apply Z.pow_lt_mono_r; lia]).
    destruct (IH (j + 1)) as (j' & ? & ? & ?); [lia..|]. exists j'. split_and!; done || lia.
Qed.

(** Past 2^63 the doubled capacity wraps to 0 and the loop never ends. *)
Lemma growCapacity_zero fuel size : 0 < size -> growCapacity fuel 0 size = Diverge.
Proof.
  intros. induction fuel; simpl; destruct (0 <? size) eqn:E; zbool; done || lia.
Qed.

Lemma growCapacity_diverge fuel j size :
  0 <= j <= 63 -> 2 ^ 63 < size -> growCapacity fuel (2 ^ j) size = Diverge.
Proof.
  revert j. induction fuel as [|fuel IH]; intros j Hj Hs; simpl;
    assert (2 ^ j <= 2 ^ 63) by (apply Z.pow_le_mono_r; lia);
    destruct (2 ^ j <? size) eqn:E; zbool; try lia; [done|].
  destruct (decide (j = 63)) as [->|].
  - apply growCapacity_zero. lia.
  - replace (2 ^ j * 2) with (2 ^ (j + 1)) by (rewrite Z.pow_add_r by lia; lia).
    rewrite wrap_small by (split; [apply Z.pow_nonneg; lia | apply Z.pow_lt_mono_r; lia]).
    apply IH; lia.
Qed.

Section refinement.
Context (alloc : Z -> option bytes).
(** [mmap] and [fastMalloc] return a block of the size asked for. *)
Context (alloc_size : forall n b, alloc n = Some b -> blen b = n).

(** What an encoder call may do: abort in the allocator, or append [suffix]. *)
Definition appends (e : Encoder) (suffix : bytes) (atts : list Attachment) (r : outcome Encoder) : Prop :=
  match r with
  | Done e' =>
      wf e' /\ contents e' = contents e ++ suffix /\ m_bufferSize e' = m_bufferSize e + blen suffix /\
      m_attachments e' = m_attachments e ++ atts /\
      m_messageName e' = m_messageName e /\ m_destinationID e' = m_destinationID e
  | Crash => exists n, alloc n = None
  | Diverge | Undefined => False
  end.

Lemma wf_create inline name dest : blen inline = 512 -> wf (withoutHeader inline name dest).
Proof. intros. split; simpl; [done | lia | by exists 9 | done]. Qed.

Lemma blen_contents e : wf e -> blen (contents e) = m_bufferSize e.
Proof.
  intros [Hm Hs _ _]. unfold contents, blen in *. rewrite length_take. lia.
Qed.

Lemma reserve_spec size e :
  wf e -> size <= 2 ^ 63 ->
  match reserve alloc size e with
  | Done e' => appends e [] [] (Done e') /\ size <= m_bufferCapacity e'
  | r => appends e [] [] r
  end.
Proof.
  intros Hwf Hs. pose proof Hwf as [Hm Hsz (k & Hk & Hcap) Hb]. unfold reserve.
  destruct (size <=? _) eqn:E; zbool.
  { simpl. rewrite !app_nil_r, blen_nil. split; [split_and!; done || lia | lia]. }
  assert (k <= 62) by (destruct (decide (k = 63)); [subst; lia | lia]).
  rewrite Hcap. destruct (roundUp_doubled k) as (j & ? & ? & ->); [lia|].
  destruct (growCapacity_done 64 j size) as (j' & ? & ? & ->); [lia..|]. simpl.
  destruct (alloc (2 ^ j')) as [nb|] eqn:Ha; [|by exists (2 ^ j')].
  apply alloc_size in Ha. assert (2 ^ k <= 2 ^ j') by (apply Z.pow_le_mono_r; lia).
  pose proof (blen_contents e Hwf) as Hc. unfold contents in Hc.
  destruct (mem_write_extend 0 (take (Z.to_nat (m_bufferSize e)) (m_memory e)) nb)
    as (nb' & -> & Hlen & Htake); [lia.. |].
  rewrite Hc in Htake. simpl. unfold contents; simpl.
  rewrite Z.add_0_l in Htake. rewrite Htake, !app_nil_r, blen_nil. simpl. split; [|lia].
  split_and!; try done; try lia.
  split; simpl; [lia | lia | exists j'; split; [lia|done] | rewrite Hb; by destruct (m_usesInlineBuffer e)].
Qed.

Lemma encodeFixedLengthData_appends data a e :
  wf e -> power_of_two a -> m_bufferSize e + a + blen data <= 2 ^ 63 ->
  appends e (padding (m_bufferSize e) a ++ data) [] (encodeFixedLengthData alloc data a e).
Proof.
  intros Hwf Ha Hfit. pose proof (power_of_two_pos a Ha). pose proof (blen_nonneg data).
  pose proof (wf_size e Hwf).
  destruct (roundUp_spec (m_bufferSize e) a) as [Hr _]; [lia..|].
  pose proof (blen_padding (m_bufferSize e) a) as Hpad. unfold padding in Hpad |- *.
  unfold encodeFixedLengthData, grow. set (al := roundUpToAlignment _ a) in *.
  rewrite (wrap_small 64 (al + blen data)) by (unfold in_width; lia).
  pose proof (reserve_spec (al + blen data) e Hwf ltac:(lia)) as Hres.
  destruct (reserve _ _ e) as [e1| | |]; simpl in *; try done.
  destruct Hres as [(Hwf1 & Hc1 & Hs1 & Ha1 & ? & ?) Hcap].
  rewrite app_nil_r in *. rewrite blen_nil, Z.add_0_r in Hs1.
  rewrite Hs1. pose proof (wf_memory e1 Hwf1).
  destruct (mem_write_extend (m_bufferSize e) (zeros (Z.to_nat (al - m_bufferSize e))) (m_memory e1))
    as (mem1 & -> & Hl1 & Ht1); [lia | rewrite blen_zeros; lia |]. simpl.
  destruct (mem_write_extend al data mem1) as (mem2 & -> & Hl2 & Ht2); [lia..|]. simpl.
  rewrite blen_zeros in Ht1.
  replace (m_bufferSize e + Z.of_nat (Z.to_nat (al - m_bufferSize e))) with al in Ht1 by lia.
  unfold contents in *; simpl. rewrite Hs1 in Hc1. rewrite Ht2, Ht1, Hc1, <- app_assoc.
  rewrite blen_app, Hpad by lia.
  split_and!; try done; try lia; [destruct Hwf1; split; simpl; done || lia | by rewrite app_nil_r, Ha1].
Qed.

Lemma appends_bind e p q atts atts' m k :
  appends e p atts m -> (forall e', m = Done e' -> wf e' -> m_bufferSize e' = m_bufferSize e + blen p ->
    appends e' q atts' (k e')) -> appends e (p ++ q) (atts ++ atts') (outcome_bind m k).
Proof.
  destruct m as [e'| | |]; simpl; try done. intros (Hwf & Hc & Hs & Ha & ? & ?) Hk.
  specialize (Hk e' eq_refl Hwf Hs). destruct (k e') as [e''| | |]; simpl in *; try done.
  destruct Hk as (? & Hc' & Hs' & Ha' & ? & ?). rewrite Hc', Hc, Hs', Hs, Ha', Ha, blen_app, <- !app_assoc.
  split_and!; congruence || lia || done.
Qed.

Lemma run_appends ops : forall e,
  wf e -> fits (m_bufferSize e) ops -> appends e (emit (m_bufferSize e) ops) (attachments_of ops) (run alloc ops e).
Proof.
  induction ops as [|op ops IH]; intros e Hwf Hfit.
  { simpl. rewrite !app_nil_r, blen_nil. split_and!; done || lia. }
  destruct op as [data a|a|n]; cbn [run apply_op emit attachments_of fits] in *.
  - destruct Hfit as (Ha & Hb & Hfit).
    apply (appends_bind _ _ _ []); [by apply encodeFixedLengthData_appends|].
    intros e' _ Hwf' Hs. rewrite <- Hs in *. by apply IH.
  - apply (appends_bind _ [] _ [a]).
    + simpl. rewrite app_nil_r. unfold contents; simpl.
      rewrite blen_nil, Z.add_0_r.
      split_and!; try done. destruct Hwf; by split.
    + intros e' _ Hwf' Hs. rewrite blen_nil, Z.add_0_r in Hs.
      rewrite <- Hs in *. by apply IH.
  - destruct Hfit as [Hn Hfit]. apply (appends_bind _ [] _ []).
    + pose proof (reserve_spec n e Hwf Hn). destruct (reserve _ _ _); tauto.
    + intros e' _ Hwf' Hs. rewrite blen_nil, Z.add_0_r in Hs.
      rewrite <- Hs in *. by apply IH.
Qed.

(** A fresh encoder after the header and [ops]. *)
Definition encodeMessage (inline : bytes) (name dest : Z) (ops : list Op) : outcome Encoder :=
  let! e := create alloc inline name dest in run alloc ops e.

Lemma encodeMessage_run inline name dest ops :
  encodeMessage inline name dest ops =
  run alloc (encodeHeader name dest ++ ops) (withoutHeader inline name dest).
Proof.
  unfold encodeMessage, create. generalize (withoutHeader inline name dest).
  induction (encodeHeader name dest) as [|op h IH]; intros e; [done|].
  simpl. destruct (apply_op alloc op e); simpl; done || apply IH.
Qed.

End refinement.

(** ** Flags *)

(** The flag updates are exact on every one of the 256 possible flag bytes. *)
Lemma forall_byte_values (P : Z -> Prop) `{forall z, Decision (P z)} :
  forallb (fun n => bool_decide (P (Z.of_nat n))) (seq 0 256) = true -> forall z, 0 <= z < 256 -> P z.
Proof.
  intros HP z Hz. rewrite forallb_forall in HP.
  specialize (HP (Z.to_nat z)). rewrite in_seq, bool_decide_eq_true, Z2Nat.id in HP by lia.
  apply HP. lia.
Qed.

#[global] Instance ShouldDispatch_eq_dec : EqDecision ShouldDispatchWhenWaitingForSyncReply.
Proof. solve_decision. Defined.

Lemma flags_with_shouldDispatch_spec s flags :
  0 <= flags < 256 ->
  0 <= flags_with_shouldDispatch s flags < 256 /\
  shouldDispatch_of_flags (flags_with_shouldDispatch s flags) = s /\
  Z.ldiff (flags_with_shouldDispatch s flags) 3 = Z.ldiff flags 3.
Proof.
  destruct s; revert flags;
    apply (forall_byte_values (fun f => 0 <= flags_with_shouldDispatch _ f < 256 /\
      shouldDispatch_of_flags (flags_with_shouldDispatch _ f) = _ /\ Z.ldiff _ 3 = Z.ldiff f 3));
    vm_compute; reflexivity.
Qed.

Lemma updateMessageFlags_spec f e :
  wf e -> 1 <= m_bufferSize e ->
  exists flags rest e', contents e = byte.of_Z flags :: rest /\ 0 <= flags < 256 /\
    messageFlags e = Done flags /\ updateMessageFlags f e = Done e' /\ wf e' /\
    contents e' = byte.of_Z (f flags) :: rest /\ m_attachments e' = m_attachments e /\
    messageFlags e' = Done (byte.unsigned (byte.of_Z (f flags))).
Proof.
  intros Hwf Hsz. pose proof Hwf as [Hm Hs _ _].
  destruct (m_memory e) as [|b mem] eqn:Hmem; [unfold blen in Hm; simpl in Hm; lia|].
  exists (byte.unsigned b), (take (Z.to_nat (m_bufferSize e) - 1) mem).
  unfold updateMessageFlags, messageFlags, contents. rewrite Hmem. simpl.
  unfold mem_write. rewrite decide_True by (unfold blen in *; simpl in *; lia).
  eexists. split; [rewrite byte.of_Z_unsigned|].
  { destruct (Z.to_nat (m_bufferSize e)) eqn:E; [lia|]. simpl. by rewrite Nat.sub_0_r. }
  split; [apply byte.unsigned_range|]. split; [done|]. split; [done|]. simpl.
  rewrite drop_0. split_and!; try done.
  - destruct Hwf as [Hm' ? ? ?]. rewrite Hmem in Hm'. split; done.
  - destruct (Z.to_nat (m_bufferSize e)) eqn:E; [lia|]. simpl. by rewrite Nat.sub_0_r.
Qed.

(** ** Properties *)

(** C1: the encoder refines padded appends. From a fresh encoder, any sequence of
    calls that stays below 2^63 bytes either dies in the allocator or ends with a
    well-formed encoder whose meaningful bytes are exactly the abstract image of
    the header followed by the calls; no call loops forever or writes outside its
    block. *)
Theorem encoder_refines_padded_append alloc inline name dest ops :
  (forall n b, alloc n = Some b -> blen b = n) -> blen inline = 512 ->
  fits 0 (encodeHeader name dest ++ ops) ->
  match encodeMessage alloc inline name dest ops with
  | Done e => wf e /\ contents e = emit 0 (encodeHeader name dest ++ ops) /\
              m_attachments e = attachments_of (encodeHeader name dest ++ ops)
  | Crash => exists n, alloc n = None
  | Diverge | Undefined => False
  end.
Proof.
  intros Halloc Hin Hfit. rewrite encodeMessage_run.
  pose proof (run_appends alloc Halloc (encodeHeader name dest ++ ops)
    (withoutHeader inline name dest) (wf_create _ _ _ Hin) Hfit) as H.
  unfold appends in H. destruct (run _ _ _); simpl in H |- *; try done.
  destruct H as (? & Hc & _ & Ha & _). done.
Qed.

(** Memories whose fresh blocks all hold the same byte. *)
Definition filled_alloc (fill : byte) (n : Z) : option bytes :=
  if decide (0 <= n) then Some (replicate (Z.to_nat n) fill) else None.
Definition sample_ops : list Op := [put_uint 1 7; put_uint 4 258; AddAttachment (socket 3)].

Lemma filled_alloc_size fill n b : filled_alloc fill n = Some b -> blen b = n.
Proof.
  unfold filled_alloc, blen. case_decide; [|done]. intros [= <-]. rewrite length_replicate. lia.
Qed.

Lemma sample_fits : fits 0 (encodeHeader 5 6 ++ sample_ops).
Proof. cbn -[Z.pow Z.add Z.le]. repeat split; auto with wk; vm_compute; discriminate. Qed.

Lemma encoder_refines_padded_append_witness :
  match encodeMessage (filled_alloc Byte.xff) (replicate 512 Byte.xff) 5 6 sample_ops with
  | Done e => wf e /\ contents e = [Byte.x00; Byte.x00; Byte.x05; Byte.x00; Byte.x00; Byte.x00; Byte.x00; Byte.x00;
                Byte.x06; Byte.x00; Byte.x00; Byte.x00; Byte.x00; Byte.x00; Byte.x00; Byte.x00;
                Byte.x07; Byte.x00; Byte.x00; Byte.x00; Byte.x02; Byte.x01; Byte.x00; Byte.x00] /\
              m_attachments e = [socket 3]
  | Crash => exists n, filled_alloc Byte.xff n = None
  | Diverge | Undefined => False
  end.
Proof.
  exact (encoder_refines_padded_append (filled_alloc Byte.xff) (replicate 512 Byte.xff) 5 6 sample_ops
    (filled_alloc_size Byte.xff) eq_refl sample_fits).
Defined.

(** No heap residue reaches the wire. The bytes of a message do not depend on
    what the inline buffer or any allocated block held before: two runs of the same
    calls in different memories yield the same bytes and attachments. *)
Theorem encoder_output_independent_of_memory alloc1 alloc2 inline1 inline2 name dest ops e1 e2 :
  (forall n b, alloc1 n = Some b -> blen b = n) -> (forall n b, alloc2 n = Some b -> blen b = n) ->
  blen inline1 = 512 -> blen inline2 = 512 -> fits 0 (encodeHeader name dest ++ ops) ->
  encodeMessage alloc1 inline1 name dest ops = Done e1 ->
  encodeMessage alloc2 inline2 name dest ops = Done e2 ->
  contents e1 = contents e2 /\ m_attachments e1 = m_attachments e2.
Proof.
  intros Ha1 Ha2 Hi1 Hi2 Hfit. rewrite !encodeMessage_run. intros E1 E2.
  pose proof (run_appends alloc1 Ha1 _ _ (wf_create _ name dest Hi1) Hfit) as H1.
  pose proof (run_appends alloc2 Ha2 _ _ (wf_create _ name dest Hi2) Hfit) as H2.
  rewrite E1 in H1. rewrite E2 in H2.
  destruct H1 as (_ & -> & _ & -> & _), H2 as (_ & -> & _ & -> & _). done.
Qed.

Lemma encoder_output_independent_of_memory_witness :
  exists e1 e2,
  encodeMessage (filled_alloc Byte.xff) (replicate 512 Byte.xff) 5 6 sample_ops = Done e1 /\
  encodeMessage (filled_alloc Byte.x00) (replicate 512 Byte.x41) 5 6 sample_ops = Done e2 /\
  m_memory e1 <> m_memory e2 /\
  contents e1 = contents e2 /\ m_attachments e1 = m_attachments e2.
Proof.
  eexists. eexists. split; [vm_compute; reflexivity|]. split; [vm_compute; reflexivity|].
  split; [discriminate|].
  apply (encoder_output_independent_of_memory (filled_alloc Byte.xff) (filled_alloc Byte.x00)
    (replicate 512 Byte.xff) (replicate 512 Byte.x41) 5 6 sample_ops);
    first [apply filled_alloc_size | apply sample_fits | vm_compute; reflexivity].
Defined.

(** The encoder frees every block it allocated: after any successful sequence
    of calls the destructor leaves no heap block behind. *)
Theorem encoder_frees_its_blocks alloc inline name dest ops e :
  (forall n b, alloc n = Some b -> blen b = n) -> blen inline = 512 ->
  fits 0 (encodeHeader name dest ++ ops) ->
  encodeMessage alloc inline name dest ops = Done e -> destroy e = 0.
Proof.
  intros Halloc Hin Hfit. rewrite encodeMessage_run. intros E.
  pose proof (run_appends alloc Halloc _ _ (wf_create _ name dest Hin) Hfit) as H.
  rewrite E in H. destruct H as ([_ _ _ Hb] & _). unfold destroy. rewrite Hb.
  by destruct (m_usesInlineBuffer e).
Qed.

Lemma encoder_frees_its_blocks_witness :
  exists e, encodeMessage (filled_alloc Byte.xff) (replicate 512 Byte.xff) 5 6 (Reserve 5000 :: sample_ops) = Done e /\
    m_bufferCapacity e = 8192 /\ destroy e = 0.
Proof.
  eexists. split; [vm_compute; reflexivity|]. split; [reflexivity|].
  apply (encoder_frees_its_blocks (filled_alloc Byte.xff) (replicate 512 Byte.xff) 5 6 (Reserve 5000 :: sample_ops));
    [apply filled_alloc_size | reflexivity | | vm_compute; reflexivity].
  cbn -[Z.pow Z.add Z.le]. repeat split; auto with wk; vm_compute; discriminate.
Defined.

(** The capacity loop of [reserve]. From the capacity of a well-formed encoder
    it ends within 64 rounds at a capacity that holds the request exactly when the
    request is at most 2^63 bytes; above that the doubled [size_t] wraps to zero and
    no number of rounds is enough. *)
Theorem reserve_loop_terminates_iff k size fuel :
  9 <= k <= 62 -> 0 < size -> (64 <= fuel)%nat ->
  (size <= 2 ^ 63 <->
   exists c, growCapacity fuel (roundUpToAlignment (wrap 64 (2 ^ k * 2)) 4096) size = Done c /\
     size <= c).
Proof.
  intros Hk Hs Hf. destruct (roundUp_doubled k Hk) as (j & Hj & _ & ->). split.
  - intros Hle. destruct (growCapacity_done fuel j size) as (j' & ? & ? & ->); [lia..|].
    by exists (2 ^ j').
  - intros (c & Hc & ?). apply Z.nlt_ge. intros Hlt.
    rewrite growCapacity_diverge in Hc by lia. done.
Qed.

Lemma reserve_loop_terminates_iff_witness :
  100000 <= 2 ^ 63 <->
  exists c, growCapacity 64 (roundUpToAlignment (wrap 64 (2 ^ 9 * 2)) 4096) 100000 = Done c /\ 100000 <= c.
Proof. apply (reserve_loop_terminates_iff 9 100000 64); lia. Defined.

(** Setting when a message may be dispatched during a synchronous wait is read
    back as set, keeps the other flags, the rest of the message and the attachments. *)
Theorem shouldDispatch_roundtrip s e :
  wf e -> 1 <= m_bufferSize e ->
  exists e', setShouldDispatchMessageWhenWaitingForSyncReply s e = Done e' /\ wf e' /\
    shouldDispatchMessageWhenWaitingForSyncReply e' = Done s /\
    drop 1 (contents e') = drop 1 (contents e) /\ m_attachments e' = m_attachments e /\
    exists f f', messageFlags e = Done f /\ messageFlags e' = Done f' /\ Z.ldiff f' 3 = Z.ldiff f 3.
Proof.
  intros Hwf Hsz.
  destruct (updateMessageFlags_spec (flags_with_shouldDispatch s) e Hwf Hsz)
    as (flags & rest & e' & Hc & Hr & Hf & Hu & Hwf' & Hc' & Ha & Hf').
  destruct (flags_with_shouldDispatch_spec s flags Hr) as (Hr' & Hget & Hother).
  rewrite byte.unsigned_of_Z in Hf'. unfold byte.wrap in Hf'. rewrite Z.mod_small in Hf' by done.
  exists e'. rewrite Hc, Hc'. split_and!; try done.
  - unfold shouldDispatchMessageWhenWaitingForSyncReply. rewrite Hf'. simpl. by rewrite Hget.
  - by exists flags, (flags_with_shouldDispatch s flags).
Qed.

Lemma shouldDispatch_roundtrip_witness :
  exists e', setShouldDispatchMessageWhenWaitingForSyncReply YesDuringUnboundedIPC
      (mkEncoder 5 6 true (replicate 512 Byte.x09) 16 512 [] 0) = Done e' /\
    shouldDispatchMessageWhenWaitingForSyncReply e' = Done YesDuringUnboundedIPC /\ messageFlags e' = Done 10.
Proof.
  destruct (shouldDispatch_roundtrip YesDuringUnboundedIPC
    (mkEncoder 5 6 true (replicate 512 Byte.x09) 16 512 [] 0)) as (e' & He & _ & Hs & _).
  { split; [reflexivity | simpl; lia | exists 9; split; [lia | reflexivity] | reflexivity]. }
  { simpl. lia. }
  exists e'. split; [exact He|]. split; [exact Hs|].
  vm_compute in He. injection He as <-. reflexivity.
Defined.

End Encoder.
