(* ===== verification/Decoder.v ===== *)
(** * Platform/IPC/Decoder.cpp: the message decoder

    The decoder walks a received buffer with raw pointers.  Addresses are 64-bit
    integers: [m_buffer] is the address of the first byte, [m_bytes] the bytes
    there, [m_bufferPos] the read pointer, which [markInvalid] sets to null.
    Pointer comparisons and the rounding mask are the source's. *)

From S2P Require Import Prelude Encoder.

Module Decoder.
Import Encoder.

Record Decoder := mkDecoder {
  m_buffer : Z;
  m_bytes : bytes;
  m_bufferPos : Z;
  m_attachments : list Attachment;
  m_messageFlags : Z;
  m_messageName : Z;
  m_destinationID : Z
}.

Definition m_bufferEnd (d : Decoder) : Z := m_buffer d + blen (m_bytes d).

Definition set_pos (p : Z) (d : Decoder) : Decoder :=
  mkDecoder (m_buffer d) (m_bytes d) p (m_attachments d) (m_messageFlags d) (m_messageName d) (m_destinationID d).

Definition set_attachments (a : list Attachment) (d : Decoder) : Decoder :=
  mkDecoder (m_buffer d) (m_bytes d) (m_bufferPos d) a (m_messageFlags d) (m_messageName d) (m_destinationID d).

Definition isValid (d : Decoder) : bool := negb (m_bufferPos d =? 0).
Definition markInvalid (d : Decoder) : Decoder := set_pos 0 d.

(** A decoding step: an optional result ([nullopt] / [false] on failure) and the
    decoder afterwards. *)
Definition Dec (A : Type) : Type := Decoder -> option A * Decoder.

Definition ret {A} (a : A) : Dec A := fun d => (Some a, d).
Definition fail {A} : Dec A := fun d => (None, d).
(** [decoder.markInvalid(); return nullopt;] *)
Definition invalid {A} : Dec A := fun d => (None, markInvalid d).

(** [if (!decoder.decode(x)) return nullopt; ...] *)
Definition bind {A B} (m : Dec A) (k : A -> Dec B) : Dec B := fun d =>
  match m d with
  | (Some a, d') => k a d'
  | (None, d') => (None, d')
  end.

(** ** Pointer arithmetic *)

(** Decoder.cpp: [roundUpToAlignment(const uint8_t*, size_t)]. *)
Definition roundUpPointer (ptr alignment : Z) : Z :=
  let alignmentMask := alignment - 1 in
  Z.ldiff (wrap 64 (ptr + alignmentMask)) alignmentMask.

Definition alignedBufferIsLargeEnoughToContain (alignedPosition bufferStart bufferEnd size : Z) : bool :=
  (alignedPosition <=? bufferEnd) && (bufferStart <=? alignedPosition) && (size <=? wrap 64 (bufferEnd - alignedPosition)).

Definition alignBufferPosition (alignment size : Z) (d : Decoder) : bool * Decoder :=
  let alignedPosition := roundUpPointer (m_bufferPos d) alignment in
  if alignedBufferIsLargeEnoughToContain alignedPosition (m_buffer d) (m_bufferEnd d) size
  then (true, set_pos alignedPosition d)
  else (false, markInvalid d).

Definition bufferIsLargeEnoughToContain (alignment size : Z) (d : Decoder) : bool :=
  alignedBufferIsLargeEnoughToContain (roundUpPointer (m_bufferPos d) alignment) (m_buffer d) (m_bufferEnd d) size.

(** The template [bufferIsLargeEnoughToContain<T>(numElements)] for an arithmetic
    [T] of [sizeof] = [alignof] = [n]. *)
Definition bufferIsLargeEnoughForElements (n numElements : Z) (d : Decoder) : bool :=
  if size_t_max / n <? numElements then false
  else bufferIsLargeEnoughToContain n (numElements * n) d.

(** The bytes at [m_bufferPos .. m_bufferPos + size); [memcpy] reads them. *)
Definition readBytes (size : Z) (d : Decoder) : bytes :=
  take (Z.to_nat size) (drop (Z.to_nat (m_bufferPos d - m_buffer d)) (m_bytes d)).

Definition decodeFixedLengthData (size alignment : Z) : Dec bytes := fun d =>
  match alignBufferPosition alignment size d with
  | (false, d') => (None, d')
  | (true, d') => (Some (readBytes size d'), set_pos (m_bufferPos d' + size) d')
  end.

(** The returned pointer, not the bytes behind it. *)
Definition decodeFixedLengthReference (size alignment : Z) : Dec Z := fun d =>
  match alignBufferPosition alignment size d with
  | (false, d') => (None, d')
  | (true, d') => (Some (m_bufferPos d'), set_pos (m_bufferPos d' + size) d')
  end.

Definition removeAttachment : Dec Attachment := fun d =>
  match rev (m_attachments d) with
  | [] => (None, d)
  | a :: rest => (Some a, set_attachments (rev rest) d)
  end.

(** [decode] of an unsigned integer of [n] bytes. *)
Definition get_uint (n : nat) : Dec Z := fun d =>
  bind (decodeFixedLengthData (Z.of_nat n) (Z.of_nat n)) (fun data => ret (le_combine data)) d.

(** ** Construction *)

Definition flagsAreValid (flags : Z) : bool := Z.ldiff flags 15 =? 0.

(** Generated code (MessageNames.h): [isValidEnum<MessageName>]. *)
Section with_message_names.
Context (isValidMessageName : Z -> bool).

Definition set_header (flags name dest : Z) (d : Decoder) : Decoder :=
  mkDecoder (m_buffer d) (m_bytes d) (m_bufferPos d) (m_attachments d) flags name dest.

(** The constructor reads the header; every failure ends in [markInvalid]. *)
Definition decodeHeader : Dec (Z * Z * Z) :=
  bind (get_uint 1) (fun flags =>
  if flagsAreValid flags then
    bind (get_uint 2) (fun name =>
    if isValidMessageName name then
      bind (get_uint 8) (fun dest => ret (flags, name, dest))
    else fail)
  else fail).

Definition construct (address : Z) (buffer : bytes) (attachments : list Attachment) : Decoder :=
  let d := mkDecoder address buffer address attachments 0 0 0 in
  if negb (address mod 8 =? 0) then markInvalid d
  else match decodeHeader d with
       | (Some (flags, name, dest), d') => set_header flags name dest d'
       | (None, d') => markInvalid d'
       end.

Definition create (address : Z) (buffer : bytes) (attachments : list Attachment) : option Decoder :=
  let d := construct address buffer attachments in
  if isValid d then Some d else None.

End with_message_names.

Definition withoutHeader (address : Z) (buffer : bytes) : Decoder :=
  let d := mkDecoder address buffer address [] 0 0 0 in
  if negb (address mod 8 =? 0) then markInvalid d else d.

Definition shouldDispatchMessageWhenWaitingForSyncReply (d : Decoder) : ShouldDispatchWhenWaitingForSyncReply :=
  shouldDispatch_of_flags (m_messageFlags d).
Definition shouldUseFullySynchronousModeForTesting (d : Decoder) : bool :=
  flags_contains (m_messageFlags d) UseFullySynchronousModeForTesting.
Definition shouldMaintainOrderingWithAsyncMessages (d : Decoder) : bool :=
  flags_contains (m_messageFlags d) MaintainOrderingWithAsyncMessages.

(** ** Memory safety *)

(** A buffer that lies in the address space. *)
Definition mapped (d : Decoder) : Prop := 0 < m_buffer d /\ m_bufferEnd d < 2 ^ 64.

Lemma aligned_check_sound p b e size :
  0 <= b -> e < 2 ^ 64 -> alignedBufferIsLargeEnoughToContain p b e size = true ->
  b <= p /\ p + size <= e /\ p <= e.
Proof.
  unfold alignedBufferIsLargeEnoughToContain. intros Hb He H. zbool.
  rewrite wrap_small in * by (unfold in_width; lia). lia.
Qed.

Lemma alignBufferPosition_frame alignment size d :
  let d' := snd (alignBufferPosition alignment size d) in
  m_buffer d' = m_buffer d /\ m_bytes d' = m_bytes d /\ m_attachments d' = m_attachments d.
Proof. unfold alignBufferPosition. by destruct (alignedBufferIsLargeEnoughToContain _ _ _ _). Qed.

Lemma invalid_stays d alignment size :
  mapped d -> m_bufferPos d = 0 -> power_of_two alignment ->
  alignBufferPosition alignment size d = (false, markInvalid d).
Proof.
  intros [Hb He] H0 Ha. pose proof (power_of_two_pos _ Ha). unfold alignBufferPosition, roundUpPointer. rewrite H0.
  destruct Ha as (k & Hk & ->). rewrite wrap_small by (unfold in_width; lia).
  rewrite Z.add_0_l, Z.ldiff_diag.
  assert (alignedBufferIsLargeEnoughToContain 0 (m_buffer d) (m_bufferEnd d) size = false) as ->; [|done].
  unfold alignedBufferIsLargeEnoughToContain.
  replace (m_buffer d <=? 0) with false by (symmetry; apply Z.leb_gt; lia).
  by rewrite andb_false_r.
Qed.

(** ** Decoding what was encoded *)

(** [d] stands at offset [off] of a buffer aligned for 64-bit values. *)
Record placed (d : Decoder) (off : Z) : Prop := {
  placed_base : 0 < m_buffer d /\ m_buffer d mod 8 = 0;
  placed_end : m_bufferEnd d + 8 <= 2 ^ 64;
  placed_len : blen (m_bytes d) <= 2 ^ 62;
  placed_pos : m_bufferPos d = m_buffer d + off;
  placed_off : 0 <= off <= blen (m_bytes d)
}.

Definition bytes_from (d : Decoder) (off : Z) : bytes := drop (Z.to_nat off) (m_bytes d).

(** The alignments of the arithmetic types. *)
Definition scalar_alignment (a : Z) : Prop := a = 1 \/ a = 2 \/ a = 4 \/ a = 8.

Lemma scalar_alignment_power a : scalar_alignment a -> exists k, 0 <= k <= 3 /\ a = 2 ^ k.
Proof. intros [->|[->|[->| ->]]]; [by exists 0|by exists 1|by exists 2|by exists 3]. Qed.

Lemma ldiff_low_bits x k : 0 <= k -> Z.ldiff x (2 ^ k - 1) = x / 2 ^ k * 2 ^ k.
Proof.
  intros Hk. rewrite Z.sub_1_r, <- Z.ones_equiv, Z.ldiff_ones_r by done.
  by rewrite Z.shiftl_mul_pow2, Z.shiftr_div_pow2.
Qed.

(** The pointer mask of the decoder and the division of the encoder agree. *)
Lemma roundUpPointer_relative base off a :
  scalar_alignment a -> 0 < base -> base mod 8 = 0 -> 0 <= off <= 2 ^ 62 -> base + off + 8 <= 2 ^ 64 ->
  roundUpPointer (base + off) a = base + roundUpToAlignment off a.
Proof.
  intros Ha Hb Hm Ho He. destruct (scalar_alignment_power a Ha) as (k & Hk & ->).
  assert (2 ^ k <= 2 ^ 3) by (apply Z.pow_le_mono_r; lia).
  assert (0 < 2 ^ k) by (apply Z.pow_pos_nonneg; lia). change (2 ^ 3) with 8 in *.
  unfold roundUpPointer, roundUpToAlignment. rewrite ldiff_low_bits by lia.
  rewrite (wrap_small 64 (base + off + _)) by (unfold in_width; lia).
  rewrite (wrap_small 64 (off + _ - 1)) by (unfold in_width; lia).
  assert (exists q, base = q * 2 ^ k) as [q ->].
  { exists (base / 8 * 2 ^ (3 - k)). rewrite <- Z.mul_assoc, <- Z.pow_add_r by lia.
    replace (3 - k + k) with 3 by lia. change (2 ^ 3) with 8. pose proof (Z.div_mod base 8 ltac:(done)). lia. }
  replace (q * 2 ^ k + off + (2 ^ k - 1)) with (q * 2 ^ k + (off + 2 ^ k - 1)) by lia.
  rewrite Z.div_add_l by lia. set (r := (off + 2 ^ k - 1) / 2 ^ k).
  assert (0 <= r * 2 ^ k <= off + 2 ^ k - 1).
  { unfold r. pose proof (Z.mul_div_le (off + 2 ^ k - 1) (2 ^ k)).
    pose proof (Z.div_pos (off + 2 ^ k - 1) (2 ^ k)). nia. }
  rewrite (wrap_small 64 (r * 2 ^ k)) by (unfold in_width; lia). lia.
Qed.

Definition seek (off : Z) (atts : list Attachment) (d : Decoder) : Decoder :=
  set_attachments atts (set_pos (m_buffer d + off) d).

(** [reads m ops v]: wherever the bytes and attachments produced by [ops] lie in
    front of the decoder, [m] yields [v] and stops right behind them.  Attachments
    are taken from the back, so a receiver stores them reversed. *)
Definition reads {A} (m : Dec A) (ops : list Op) (v : A) : Prop :=
  forall d off suffix atts,
    placed d off -> bytes_from d off = emit off ops ++ suffix ->
    m_attachments d = atts ++ rev (attachments_of ops) ->
    m d = (Some v, seek (off + blen (emit off ops)) atts d).

Lemma attachments_of_app p q : attachments_of (p ++ q) = attachments_of p ++ attachments_of q.
Proof. induction p as [|[] p IH]; simpl; by rewrite ?IH. Qed.

Lemma emit_app off p q : emit off (p ++ q) = emit off p ++ emit (off + blen (emit off p)) q.
Proof.
  revert off. induction p as [|[data a| |] p IH]; intros off; simpl.
  - by rewrite blen_nil, Z.add_0_r.
  - rewrite IH, <- !app_assoc. do 3 f_equal. rewrite !blen_app. f_equal. lia.
  - apply IH.
  - apply IH.
Qed.

Lemma seek_self d off : placed d off -> seek off (m_attachments d) d = d.
Proof. intros [_ _ _ Hp _]. destruct d; unfold seek, set_attachments, set_pos; simpl in *. by rewrite <- Hp. Qed.

Lemma placed_seek d off off' atts :
  placed d off -> 0 <= off' <= blen (m_bytes d) -> placed (seek off' atts d) off'.
Proof. intros [? ? ? ? ?] ?. by split. Qed.

Lemma bytes_from_bound d off p suffix :
  placed d off -> bytes_from d off = p ++ suffix -> off + blen p <= blen (m_bytes d).
Proof.
  intros [_ _ _ _ Ho] H. apply (f_equal length) in H. unfold bytes_from in H.
  rewrite length_drop, length_app in H. unfold blen in *. lia.
Qed.

Lemma bytes_from_next d off p suffix :
  placed d off -> bytes_from d off = p ++ suffix -> bytes_from d (off + blen p) = suffix.
Proof.
  intros [_ _ _ _ Ho] H. unfold bytes_from in *.
  rewrite Z2Nat.inj_add by (lia || apply blen_nonneg).
  rewrite <- drop_drop, H. unfold blen. rewrite Nat2Z.id. by rewrite drop_app_length.
Qed.

Lemma reads_ret {A} (v : A) : reads (ret v) [] v.
Proof.
  intros d off suffix atts Hp _ Ha. simpl in *. rewrite app_nil_r in Ha. subst atts.
  rewrite blen_nil, Z.add_0_r. unfold ret. by rewrite seek_self.
Qed.

Lemma reads_bind {A B} (m : Dec A) (k : A -> Dec B) p q v w :
  reads m p v -> reads (k v) q w -> reads (bind m k) (p ++ q) w.
Proof.
  intros Hm Hk d off suffix atts Hp Hb Ha. rewrite emit_app, <- app_assoc in Hb.
  rewrite attachments_of_app, rev_app_distr, app_assoc in Ha.
  unfold bind. rewrite (Hm d off _ _ Hp Hb Ha). rewrite emit_app, blen_app.
  pose proof (bytes_from_bound _ _ _ _ Hp Hb). pose proof (placed_off _ _ Hp).
  pose proof (blen_nonneg (emit off p)).
  rewrite (Hk _ (off + blen (emit off p)) suffix atts).
  - unfold seek, set_attachments, set_pos; simpl. do 2 f_equal. lia.
  - apply placed_seek with off; [done|lia].
  - apply (bytes_from_next d off (emit off p) _ Hp Hb).
  - done.
Qed.

(** The common cases, with the trailing call list already split. *)
Lemma reads_bind_nil {A B} (m : Dec A) (k : A -> Dec B) p v w :
  reads m p v -> reads (k v) [] w -> reads (bind m k) p w.
Proof. intros. rewrite <- (app_nil_r p). by eapply reads_bind. Qed.

Lemma reads_ext {A} (m m' : Dec A) ops v : (forall d, m d = m' d) -> reads m ops v -> reads m' ops v.
Proof. intros He H d off suffix atts ? ? ?. rewrite <- He. by eapply H. Qed.

Lemma align_in_place d off a data suffix :
  placed d off -> scalar_alignment a -> bytes_from d off = padding off a ++ data ++ suffix ->
  alignBufferPosition a (blen data) d = (true, set_pos (m_buffer d + off + blen (padding off a)) d) /\
  blen (padding off a) = roundUpToAlignment off a - off.
Proof.
  intros Hp Ha Hb. pose proof Hp as [[Hbase Hmod] Hend Hlen Hpos Hoff].
  assert (0 < a <= 8) by (unfold scalar_alignment in Ha; lia).
  pose proof (blen_padding off a ltac:(lia) ltac:(lia) ltac:(lia)) as Hpad.
  destruct (roundUp_spec off a) as [Hr _]; [lia..|].
  pose proof (bytes_from_bound _ _ _ _ Hp Hb) as Hbound.
  rewrite app_assoc in Hb. pose proof (bytes_from_bound _ _ _ _ Hp Hb) as Hbound2. rewrite blen_app in Hbound2.
  pose proof (blen_nonneg data). split; [|done]. unfold m_bufferEnd in *.
  unfold alignBufferPosition, m_bufferEnd. rewrite Hpos, roundUpPointer_relative by (done || lia).
  unfold alignedBufferIsLargeEnoughToContain. rewrite wrap_small by (unfold in_width; lia).
  rewrite !(proj2 (Z.leb_le _ _)) by lia. simpl. by rewrite Hpad, <- Z.add_assoc, Zplus_minus.
Qed.

Lemma reads_fixed data a n :
  n = blen data -> scalar_alignment a -> reads (decodeFixedLengthData n a) [FixedLengthData data a] data.
Proof.
  intros -> Ha d off suffix atts Hp Hb Hatt. simpl in Hb, Hatt |- *.
  rewrite app_nil_r in Hb, Hatt. rewrite <- app_assoc in Hb. subst atts.
  destruct (align_in_place d off a data suffix Hp Ha Hb) as [Hal Hpad].
  unfold decodeFixedLengthData. rewrite Hal. pose proof (placed_off _ _ Hp). pose proof (blen_nonneg (padding off a)).
  f_equal; [f_equal|].
  - unfold readBytes. simpl. rewrite <- Z.add_assoc, Z.add_simpl_l.
    pose proof (bytes_from_next _ _ _ _ Hp Hb) as Hn. unfold bytes_from in Hn. rewrite Hn.
    unfold blen. rewrite Nat2Z.id. by rewrite take_app_length.
  - unfold seek, set_attachments, set_pos; simpl. rewrite app_nil_r, blen_app. f_equal. lia.
Qed.

Lemma reads_uint n z :
  scalar_alignment (Z.of_nat n) -> 0 <= z < 2 ^ (Z.of_nat n * 8) -> reads (get_uint n) [put_uint n z] z.
Proof.
  intros Ha Hz. unfold get_uint, put_uint. eapply reads_bind_nil.
  - apply reads_fixed; [|done]. unfold blen. by rewrite length_le_split.
  - rewrite le_combine_split, Z.mod_small by done. apply reads_ret.
Qed.

Lemma reads_attachment a : reads removeAttachment [AddAttachment a] a.
Proof.
  intros d off suffix atts Hp Hb Ha. simpl in *. unfold removeAttachment.
  rewrite Ha, rev_app_distr. simpl. rewrite rev_involutive, blen_nil, Z.add_0_r.
  f_equal. rewrite <- (seek_self d off Hp) at 1. done.
Qed.

(** The header written by [encodeHeader] is read back by [decodeHeader]. *)
Lemma reads_header ok name dest :
  ok name = true -> in_width 16 name -> in_width 64 dest ->
  reads (decodeHeader ok) (encodeHeader name dest) (0, name, dest).
Proof.
  intros Hok Hn Hd. unfold decodeHeader, encodeHeader.
  apply (reads_bind (get_uint 1) _ [put_uint 1 0] _ 0); [apply reads_uint; [by left | done]|].
  simpl. apply (reads_bind (get_uint 2) _ [put_uint 2 name] _ name);
    [apply reads_uint; [by right; left | done]|].
  rewrite Hok. apply (reads_bind_nil (get_uint 8) _ [put_uint 8 dest] dest);
    [apply reads_uint; [by do 3 right | done] | apply reads_ret].
Qed.

#[export] Hint Resolve reads_ret reads_attachment : wk.
#[export] Hint Extern 1 (scalar_alignment _) => (unfold scalar_alignment; simpl; tauto) : wk.

(** ** Properties *)

(** C3: decoding never reads outside the received buffer. Whatever the read
    position, size and alignment, data returned by [decodeFixedLengthData] is a
    contiguous piece of the buffer of exactly the requested size, and the read
    pointer ends inside the buffer; on failure the decoder is marked invalid. *)
Theorem decodeFixedLengthData_in_bounds d size alignment :
  mapped d -> 0 <= size ->
  match decodeFixedLengthData size alignment d with
  | (Some data, d') =>
      blen data = size /\ m_buffer d + size <= m_bufferPos d' <= m_bufferEnd d /\
      (exists before after, m_bytes d = before ++ data ++ after /\ m_bufferPos d' = m_buffer d + blen (before ++ data))
  | (None, d') => isValid d' = false
  end.
Proof.
  intros [Hb He] Hs. unfold decodeFixedLengthData, alignBufferPosition.
  destruct (alignedBufferIsLargeEnoughToContain _ _ _ _) eqn:E; [|done].
  apply aligned_check_sound in E; [|lia..]. set (p := roundUpPointer _ _) in *. simpl.
  unfold readBytes, m_bufferEnd in *. simpl. unfold blen in *.
  rewrite length_take, length_drop. split; [lia|]. split; [lia|].
  exists (take (Z.to_nat (p - m_buffer d)) (m_bytes d)),
    (drop (Z.to_nat size) (drop (Z.to_nat (p - m_buffer d)) (m_bytes d))).
  rewrite !take_drop. split; [done|]. rewrite length_app, !length_take, length_drop. lia.
Qed.

Lemma decodeFixedLengthData_in_bounds_witness :
  match decodeFixedLengthData 2 2 (mkDecoder 4096 (le_split 4 100000) 4097 [] 0 0 0) with
  | (Some data, d') => blen data = 2 /\ 4096 + 2 <= m_bufferPos d' <= 4100 /\
      (exists before after, le_split 4 100000 = before ++ data ++ after /\ m_bufferPos d' = 4096 + blen (before ++ data))
  | (None, d') => isValid d' = false
  end.
Proof.
  apply (decodeFixedLengthData_in_bounds (mkDecoder 4096 (le_split 4 100000) 4097 [] 0 0 0) 2 2);
    [vm_compute; split; reflexivity | lia].
Defined.

(** A decoder that has been marked invalid rejects everything from then on:
    every later read fails and leaves it invalid. *)
Theorem invalid_decoder_rejects d size alignment :
  mapped d -> isValid d = false -> power_of_two alignment ->
  (exists d', decodeFixedLengthData size alignment d = (None, d') /\ isValid d' = false) /\
  (exists d', decodeFixedLengthReference size alignment d = (None, d') /\ isValid d' = false).
Proof.
  intros Hm Hi Ha. unfold isValid in Hi. zbool.
  unfold decodeFixedLengthData, decodeFixedLengthReference.
  rewrite invalid_stays by done. split; by eexists.
Qed.

Lemma invalid_decoder_rejects_witness :
  (exists d', decodeFixedLengthData 0 8 (mkDecoder 4096 (zeros 16) 0 [] 0 0 0) = (None, d') /\ isValid d' = false) /\
  (exists d', decodeFixedLengthReference 0 8 (mkDecoder 4096 (zeros 16) 0 [] 0 0 0) = (None, d') /\ isValid d' = false).
Proof.
  apply (invalid_decoder_rejects (mkDecoder 4096 (zeros 16) 0 [] 0 0 0) 0 8);
    [vm_compute; split; reflexivity | reflexivity | apply power_of_two_8].
Defined.

(** Sender and receiver align alike. On a buffer aligned for 64-bit values the
    decoder's pointer mask lands on the offset the encoder's division computed. *)
Theorem decoder_alignment_matches_encoder base off alignment :
  scalar_alignment alignment -> 0 < base -> base mod 8 = 0 -> 0 <= off <= 2 ^ 62 -> base + off + 8 <= 2 ^ 64 ->
  roundUpPointer (base + off) alignment - base = roundUpToAlignment off alignment.
Proof. intros. rewrite roundUpPointer_relative by done. lia. Qed.

Lemma decoder_alignment_matches_encoder_witness :
  roundUpPointer (4096 + 13) 8 - 4096 = roundUpToAlignment 13 8.
Proof. apply (decoder_alignment_matches_encoder 4096 13 8); [by do 3 right | lia | reflexivity | lia..]. Defined.

(** C2: a message survives the wire. The bytes of an encoder holding a header and
    the calls [ops], placed at an aligned address, are accepted by [Decoder::create];
    the decoder carries the sender's message name and destination, and reading the
    body with any decoder [m] that matches [ops] yields the encoded value and
    consumes the message exactly. *)
Theorem message_roundtrip {A} alloc inline ok name dest ops e address (m : Dec A) v :
  (forall n b, alloc n = Some b -> blen b = n) -> blen inline = 512 ->
  fits 0 (encodeHeader name dest ++ ops) ->
  encodeMessage alloc inline name dest ops = Done e ->
  ok name = true -> in_width 16 name -> in_width 64 dest ->
  0 < address -> address mod 8 = 0 -> address + blen (contents e) + 8 <= 2 ^ 64 -> blen (contents e) <= 2 ^ 62 ->
  reads m ops v ->
  exists d d', create ok address (contents e) (rev (Encoder.m_attachments e)) = Some d /\
    m_messageName d = name /\ m_destinationID d = dest /\ m_messageFlags d = 0 /\
    m d = (Some v, d') /\ m_bufferPos d' = m_bufferEnd d' /\ m_attachments d' = [].
Proof.
  intros Halloc Hin Hfit He Hok Hname Hdest Ha0 Ha8 Hend Hlen Hm.
  rewrite encodeMessage_run in He.
  pose proof (run_appends alloc Halloc _ _ (wf_create _ name dest Hin) Hfit) as H. rewrite He in H.
  destruct H as (_ & Hc & _ & Hatt & _). simpl in Hatt.
  assert (contents e = emit 0 (encodeHeader name dest ++ ops)) as Hc' by done. clear Hc.
  set (d0 := mkDecoder address (contents e) address (rev (Encoder.m_attachments e)) 0 0 0).
  assert (placed d0 0) as Hp0 by (split; simpl; [done | unfold m_bufferEnd; simpl; lia | done | lia |
    pose proof (blen_nonneg (contents e)); lia]).
  rewrite emit_app, Z.add_0_l in Hc'. set (h := emit 0 (encodeHeader name dest)) in *.
  assert (decodeHeader ok d0 = (Some (0, name, dest), seek (blen h) (rev (attachments_of ops)) d0)) as Hh.
  { apply (reads_header ok name dest Hok Hname Hdest d0 0 (emit (blen h) ops)); [done| |].
    - unfold bytes_from. simpl. by rewrite Hc'.
    - simpl. by rewrite Hatt, app_nil_r. }
  set (d := set_header 0 name dest (seek (blen h) (rev (attachments_of ops)) d0)).
  assert (placed d (blen h)) as Hp.
  { destruct Hp0. split; try done. simpl. rewrite Hc', blen_app.
    pose proof (blen_nonneg h). pose proof (blen_nonneg (emit (blen h) ops)). lia. }
  exists d, (seek (blen h + blen (emit (blen h) ops)) [] d).
  split.
  { unfold create, construct. fold d0. rewrite (proj2 (Z.eqb_eq _ _) Ha8). simpl. rewrite Hh. fold d.
    unfold isValid. assert (m_bufferPos d = address + blen h) as -> by done.
    pose proof (blen_nonneg h). by rewrite (proj2 (Z.eqb_neq _ _)) by lia. }
  split_and!; try done.
  - apply (Hm d (blen h) []); [done| |done]. rewrite app_nil_r.
    unfold bytes_from. simpl. rewrite Hc'. unfold blen. rewrite Nat2Z.id. by rewrite drop_app_length.
  - unfold m_bufferEnd. simpl. by rewrite Hc', blen_app.
Qed.

Lemma message_roundtrip_witness :
  exists e d d', encodeMessage (filled_alloc Byte.xff) (replicate 512 Byte.xff) 5 6 [put_uint 4 258] = Done e /\
    create (Z.eqb 5) 4096 (contents e) [] = Some d /\ m_messageName d = 5 /\ m_destinationID d = 6 /\
    get_uint 4 d = (Some 258, d').
Proof.
  eexists.
  destruct (message_roundtrip (filled_alloc Byte.xff) (replicate 512 Byte.xff) (Z.eqb 5) 5 6 [put_uint 4 258]
    _ 4096 (get_uint 4) 258 (filled_alloc_size Byte.xff)
    ltac:(reflexivity)
    ltac:(cbn -[Z.pow Z.add Z.le]; repeat split; auto with wk; vm_compute; discriminate)
    ltac:(vm_compute; reflexivity) ltac:(reflexivity) ltac:(done) ltac:(done) ltac:(lia) ltac:(reflexivity)
    ltac:(vm_compute; discriminate) ltac:(vm_compute; discriminate)
    (reads_uint 4 258 ltac:(by do 2 right; left) ltac:(done))) as (d & d' & Hd & Hn & Hdest & _ & Hg & _).
  exists d, d'. split; [vm_compute; reflexivity|]. split_and!; [exact Hd | exact Hn | exact Hdest | exact Hg].
Defined.

End Decoder.
