(* ===== verification/ArgumentCoders.v ===== *)
(** * Platform/IPC/ArgumentCoders.h and ArgumentCoders.cpp

    [ArgumentCoder T] is the C++ template of the same name: how a value of type
    [T] is written to an encoder and read from a decoder.  [LawfulCoder] is what
    the rest of the system relies on: reading back what was written gives the
    value and stops right behind it.  Instances follow the template
    specialisations; composite laws come from the element laws. *)

From S2P Require Import Prelude Encoder Decoder.
From Stdlib Require Import Zmod Bits.

Import Encoder Decoder.

Declare Scope dec_scope.
Delimit Scope dec_scope with dec.
Notation "'let?' x ':=' m 'in' k" := (bind m (fun x => k))
  (at level 10, x name, m at level 100, k at level 200) : dec_scope.
Local Open Scope dec_scope.

Class ArgumentCoder (T : Type) := {
  encode : T -> list Op;
  decode : Dec T;
  encodable : T -> Prop
}.

#[global] Hint Mode ArgumentCoder ! : typeclass_instances.
#[global] Arguments encode {T _} v : simpl never.
#[global] Arguments decode {T _} d : simpl never.
#[global] Arguments encodable {T _} v : simpl never.

Class LawfulCoder (T : Type) `{ArgumentCoder T} : Prop :=
  decode_encode : forall v : T, encodable v -> reads decode (encode v) v.

(** ** Arithmetic types

    Unsigned integers are residues of their width; a signed integer travels as its
    two's complement residue and a floating point number as its bit pattern. *)

Abbreviation uint8_t := (bits 8).
Abbreviation uint16_t := (bits 16).
Abbreviation uint32_t := (bits 32).
Abbreviation uint64_t := (bits 64).
Record double := mkDouble { double_bits : bits 64 }.
Record float := mkFloat { float_bits : bits 32 }.
Record int32_t := mkInt32 { int32_bits : bits 32 }.
Record int64_t := mkInt64 { int64_bits : bits 64 }.

Definition encode_bits (n : nat) {w} (z : bits w) : list Op := [put_uint n (Zmod.unsigned z)].
Definition decode_bits (n : nat) (w : Z) : Dec (bits w) := let? z := get_uint n in ret (bits.of_Z w z).

#[export] Instance uint8_coder : ArgumentCoder uint8_t :=
  {| encode := encode_bits 1; decode := decode_bits 1 8; encodable _ := True |}.
#[export] Instance uint16_coder : ArgumentCoder uint16_t :=
  {| encode := encode_bits 2; decode := decode_bits 2 16; encodable _ := True |}.
#[export] Instance uint32_coder : ArgumentCoder uint32_t :=
  {| encode := encode_bits 4; decode := decode_bits 4 32; encodable _ := True |}.
#[export] Instance uint64_coder : ArgumentCoder uint64_t :=
  {| encode := encode_bits 8; decode := decode_bits 8 64; encodable _ := True |}.

Lemma reads_bits n w (z : bits w) :
  w = Z.of_nat n * 8 -> scalar_alignment (Z.of_nat n) -> reads (decode_bits n w) (encode_bits n z) z.
Proof.
  intros Hw Ha. unfold decode_bits, encode_bits. eapply reads_bind_nil.
  - apply reads_uint; [done|]. rewrite <- Hw. apply bits.unsigned_range. lia.
  - rewrite Zmod.of_Z_unsigned. apply reads_ret.
Qed.

#[export] Instance uint8_lawful : LawfulCoder uint8_t.
Proof. intros v _. apply (reads_bits 1 8); auto with wk. Qed.
#[export] Instance uint16_lawful : LawfulCoder uint16_t.
Proof. intros v _. apply (reads_bits 2 16); auto with wk. Qed.
#[export] Instance uint32_lawful : LawfulCoder uint32_t.
Proof. intros v _. apply (reads_bits 4 32); auto with wk. Qed.
#[export] Instance uint64_lawful : LawfulCoder uint64_t.
Proof. intros v _. apply (reads_bits 8 64); auto with wk. Qed.

(** A one-byte [bool]; any non-zero byte is read as [true]. *)
#[export] Instance bool_coder : ArgumentCoder bool :=
  {| encode := fun b : bool => [put_uint 1 (if b then 1 else 0)];
     decode := let? z := get_uint 1 in ret (negb (z =? 0));
     encodable _ := True |}.

#[export] Instance bool_lawful : LawfulCoder bool.
Proof.
  intros v _. eapply reads_bind_nil.
  - apply reads_uint; auto with wk. by destruct v.
  - destruct v; apply reads_ret.
Qed.

(** Coders of types that are sent as another type. *)
Definition encode_as {A B} `{ArgumentCoder B} (to : A -> B) (v : A) : list Op := encode (to v).
Definition decode_as {A B} `{ArgumentCoder B} (from : B -> A) : Dec A := let? w := decode in ret (from w).

Lemma reads_as {A B} `{LawfulCoder B} (to : A -> B) (from : B -> A) v :
  encodable (to v) -> from (to v) = v -> reads (decode_as from) (encode_as to v) v.
Proof.
  intros He Hfrom. eapply reads_bind_nil; [by apply decode_encode|]. rewrite Hfrom. apply reads_ret.
Qed.

#[export] Instance double_coder : ArgumentCoder double :=
  {| encode := encode_as double_bits; decode := decode_as mkDouble; encodable _ := True |}.
#[export] Instance float_coder : ArgumentCoder float :=
  {| encode := encode_as float_bits; decode := decode_as mkFloat; encodable _ := True |}.
#[export] Instance int32_coder : ArgumentCoder int32_t :=
  {| encode := encode_as int32_bits; decode := decode_as mkInt32; encodable _ := True |}.
#[export] Instance int64_coder : ArgumentCoder int64_t :=
  {| encode := encode_as int64_bits; decode := decode_as mkInt64; encodable _ := True |}.
#[export] Instance double_lawful : LawfulCoder double.
Proof. intros [] _. by apply reads_as. Qed.
#[export] Instance float_lawful : LawfulCoder float.
Proof. intros [] _. by apply reads_as. Qed.
#[export] Instance int32_lawful : LawfulCoder int32_t.
Proof. intros [] _. by apply reads_as. Qed.
#[export] Instance int64_lawful : LawfulCoder int64_t.
Proof. intros [] _. by apply reads_as. Qed.

(** ** Enumerations and option sets *)

(** An enum with an [EnumTraits] list of values: [fromRaw] is [isValidEnum] and the
    cast together. *)
Class EnumTraits (E : Type) := {
  toRaw : E -> Z;
  fromRaw : Z -> option E
}.
Class LawfulEnum (E : Type) (bytes_wide : nat) `{EnumTraits E} : Prop := {
  fromRaw_toRaw : forall e, fromRaw (toRaw e) = Some e;
  toRaw_range : forall e, 0 <= toRaw e < 2 ^ (Z.of_nat bytes_wide * 8);
  enum_width : scalar_alignment (Z.of_nat bytes_wide)
}.

Definition encode_enum {E} `{EnumTraits E} (n : nat) (e : E) : list Op := [put_uint n (toRaw e)].
Definition decode_enum {E} `{EnumTraits E} (n : nat) : Dec E :=
  let? z := get_uint n in match fromRaw z with Some e => ret e | None => fail end.

Lemma reads_enum {E} n `{LawfulEnum E n} e : reads (decode_enum n) (encode_enum n e) e.
Proof.
  eapply reads_bind_nil.
  - apply reads_uint; [apply enum_width | apply toRaw_range].
  - rewrite fromRaw_toRaw. apply reads_ret.
Qed.

(** [OptionSet<E>] stored in [n] bytes, with [mask] the union of the valid flags. *)
Definition isValidOptionSet (mask raw : Z) : bool := Z.ldiff raw mask =? 0.
Definition encode_optionset (n : nat) (raw : Z) : list Op := [put_uint n raw].
Definition decode_optionset (n : nat) (mask : Z) : Dec Z :=
  let? raw := get_uint n in if isValidOptionSet mask raw then ret raw else fail.

Lemma reads_optionset n mask raw :
  scalar_alignment (Z.of_nat n) -> 0 <= raw < 2 ^ (Z.of_nat n * 8) -> isValidOptionSet mask raw = true ->
  reads (decode_optionset n mask) (encode_optionset n raw) raw.
Proof.
  intros Ha Hr Hv. eapply reads_bind_nil; [by apply reads_uint|]. rewrite Hv. apply reads_ret.
Qed.

(** ** Optional, Box, pair, tuple, key-value pair, Expected, Variant *)

Section composite.
Context {T U : Type} `{ArgumentCoder T, ArgumentCoder U}.

Definition encode_optional (o : option T) : list Op :=
  match o with
  | None => encode false
  | Some v => encode true ++ encode v
  end.
Definition decode_optional : Dec (option T) :=
  let? isEngaged := decode in
  if isEngaged : bool then let? value := decode in ret (Some value) else ret None.

Definition encode_pair (p : T * U) : list Op := encode (fst p) ++ encode (snd p).
Definition decode_pair : Dec (T * U) :=
  let? first := decode in let? second := decode in ret (first, second).

(** [Expected<T, U>]: a value or an error. *)
Definition encode_expected (e : T + U) : list Op :=
  match e with
  | inr error => encode false ++ encode error
  | inl value => encode true ++ encode value
  end.
Definition decode_expected : Dec (T + U) :=
  let? hasValue := decode in
  if hasValue : bool then let? value := decode in ret (inl value)
  else let? error := decode in ret (inr error).

(** [Variant<T, U>]: the index as [unsigned], then the alternative; the decoder
    falls through to alternative 0 for every index but 1. *)
Definition encode_variant (v : T + U) : list Op :=
  match v with
  | inl a => encode (bits.of_Z 32 0) ++ encode a
  | inr b => encode (bits.of_Z 32 1) ++ encode b
  end.
Definition decode_variant : Dec (T + U) :=
  let? i := decode in
  if Zmod.unsigned (i : uint32_t) =? 1 then let? b := decode in ret (inr b)
  else let? a := decode in ret (inl a).

Context `{!LawfulCoder T, !LawfulCoder U}.

Lemma reads_optional o : (match o with Some v => encodable v | None => True end) -> reads decode_optional (encode_optional o) o.
Proof.
  intros Ho. destruct o as [v|].
  - eapply reads_bind; [by apply (decode_encode true)|].
    eapply reads_bind_nil; [by apply decode_encode | apply reads_ret].
  - eapply reads_bind_nil; [by apply (decode_encode false) | apply reads_ret].
Qed.

Lemma reads_pair p : encodable (fst p) /\ encodable (snd p) -> reads decode_pair (encode_pair p) p.
Proof.
  intros [H1 H2]. destruct p. eapply reads_bind; [by apply decode_encode|].
  eapply reads_bind_nil; [by apply decode_encode | apply reads_ret].
Qed.

Lemma reads_expected e : (match e with inl v => encodable v | inr x => encodable x end) ->
  reads decode_expected (encode_expected e) e.
Proof.
  intros He. destruct e;
    (eapply reads_bind; [by apply decode_encode|];
     eapply reads_bind_nil; [by apply decode_encode | apply reads_ret]).
Qed.

Lemma reads_variant e : (match e with inl v => encodable v | inr x => encodable x end) ->
  reads decode_variant (encode_variant e) e.
Proof.
  intros He. destruct e;
    (eapply reads_bind; [by apply decode_encode|];
     eapply reads_bind_nil; [by apply decode_encode | apply reads_ret]).
Qed.

End composite.

#[export] Instance optional_coder {T} `{ArgumentCoder T} : ArgumentCoder (option T) :=
  {| encode := encode_optional; decode := decode_optional;
     encodable o := match o with Some v => encodable v | None => True end |}.
#[export] Instance pair_coder {T U} `{ArgumentCoder T, ArgumentCoder U} : ArgumentCoder (T * U) :=
  {| encode := encode_pair; decode := decode_pair; encodable p := encodable (fst p) /\ encodable (snd p) |}.
#[export] Instance optional_lawful {T} `{LawfulCoder T} : LawfulCoder (option T).
Proof. intros v Hv. by apply reads_optional. Qed.
#[export] Instance pair_lawful {T U} `{LawfulCoder T, LawfulCoder U} : LawfulCoder (T * U).
Proof. intros v Hv. by apply reads_pair. Qed.

(** [std::tuple]: the elements in order; nested pairs ending in [unit]. *)
#[export] Instance unit_coder : ArgumentCoder unit :=
  {| encode _ := []; decode := ret tt; encodable _ := True |}.
#[export] Instance unit_lawful : LawfulCoder unit.
Proof. intros [] _. apply reads_ret. Qed.

(** ** Vector

    Elements one by one, or, for arithmetic element types, as one block. *)

Fixpoint decode_elements {T} (element : Dec T) (n : nat) : Dec (list T) :=
  match n with
  | O => ret []
  | S n' => let? x := element in let? xs := decode_elements element n' in ret (x :: xs)
  end.

Lemma reads_elements {T} (element : Dec T) (enc : T -> list Op) l :
  (forall x, x ∈ l -> reads element (enc x) x) ->
  reads (decode_elements element (length l)) (concat (map enc l)) l.
Proof.
  induction l as [|x l IH]; intros Hl; simpl; [apply reads_ret|].
  eapply reads_bind; [apply Hl; left|]. eapply reads_bind_nil; [|apply reads_ret].
  apply IH. intros y Hy. apply Hl. by right.
Qed.

Definition sizeOf {T} (l : list T) : uint64_t := bits.of_Z 64 (Z.of_nat (length l)).

Lemma sizeOf_spec {T} (l : list T) : Z.of_nat (length l) < 2 ^ 64 -> Zmod.unsigned (sizeOf l) = Z.of_nat (length l).
Proof. intros. unfold sizeOf. rewrite bits.unsigned_of_Z, Z.mod_small; lia. Qed.

Section vector.
Context {T : Type} `{ArgumentCoder T}.

Definition encode_vector (v : list T) : list Op := encode (sizeOf v) ++ concat (map encode v).
Definition decode_vector : Dec (list T) :=
  let? size := decode in decode_elements decode (Z.to_nat (Zmod.unsigned (size : uint64_t))).

Lemma reads_vector `{!LawfulCoder T} v :
  Z.of_nat (length v) < 2 ^ 64 -> Forall encodable v -> reads decode_vector (encode_vector v) v.
Proof.
  intros Hl Hv. eapply reads_bind; [by apply decode_encode|].
  rewrite sizeOf_spec, Nat2Z.id by done. apply reads_elements.
  intros x Hx. rewrite Forall_forall in Hv. by apply decode_encode, Hv.
Qed.
End vector.

#[export] Instance vector_coder {T} `{ArgumentCoder T} : ArgumentCoder (list T) :=
  {| encode := encode_vector; decode := decode_vector;
     encodable v := Z.of_nat (length v) < 2 ^ 64 /\ Forall encodable v |}.
#[export] Instance vector_lawful {T} `{LawfulCoder T} : LawfulCoder (list T).
Proof. intros v [? ?]. by apply reads_vector. Qed.

(** Blocks of [n]-byte integers. *)
Fixpoint split_block (n k : nat) (b : bytes) : list Z :=
  match k with
  | O => []
  | S k' => le_combine (take n b) :: split_block n k' (drop n b)
  end.
Definition block_of (n : nat) (v : list Z) : bytes := concat (map (le_split n) v).

Lemma blen_block_of n v : blen (block_of n v) = Z.of_nat (length v) * Z.of_nat n.
Proof.
  unfold block_of, blen. induction v as [|x v IH]; [done|].
  simpl. rewrite length_app, length_le_split. lia.
Qed.

Lemma split_block_of n v :
  Forall (fun z => 0 <= z < 2 ^ (Z.of_nat n * 8)) v -> split_block n (length v) (block_of n v) = v.
Proof.
  unfold block_of. induction 1 as [|z v Hz Hv IH]; [done|]. simpl.
  rewrite take_app_length', drop_app_length' by (by rewrite length_le_split).
  by rewrite le_combine_split, Z.mod_small, IH.
Qed.

(** [VectorArgumentCoder<true, T>] for an arithmetic [T] of [n] bytes. The count is
    checked against the buffer before the vector is allocated. *)
Definition encode_arithmetic_vector (n : nat) (v : list Z) : list Op :=
  encode (sizeOf v) ++ [FixedLengthData (block_of n v) (Z.of_nat n)].

Definition decode_arithmetic_vector (n : nat) : Dec (list Z) := fun d =>
  match decode d with
  | (None, d1) => (None, markInvalid d1)
  | (Some decodedSize, d1) =>
      let size := Zmod.unsigned (decodedSize : uint64_t) in
      if bufferIsLargeEnoughForElements (Z.of_nat n) size d1 then
        match decodeFixedLengthData (size * Z.of_nat n) (Z.of_nat n) d1 with
        | (None, d2) => (None, markInvalid d2)
        | (Some data, d2) => (Some (split_block n (Z.to_nat size) data), d2)
        end
      else (None, markInvalid d1)
  end.

(** The room check succeeds wherever the block was written. *)
Lemma room_for_block d off n k data suffix :
  placed d off -> scalar_alignment (Z.of_nat n) -> bytes_from d off = padding off (Z.of_nat n) ++ data ++ suffix ->
  blen data = k * Z.of_nat n -> 0 <= k ->
  bufferIsLargeEnoughForElements (Z.of_nat n) k d = true.
Proof.
  intros Hp Ha Hb Hl Hk. destruct (align_in_place d off _ data suffix Hp Ha Hb) as [Hal _].
  unfold bufferIsLargeEnoughForElements, bufferIsLargeEnoughToContain, size_t_max.
  assert (0 < Z.of_nat n) by (unfold scalar_alignment in Ha; lia).
  assert (blen data <= 2 ^ 62) as Hle.
  { rewrite app_assoc in Hb. pose proof (bytes_from_bound _ _ _ _ Hp Hb) as Hx. rewrite blen_app in Hx.
    pose proof (placed_len _ _ Hp). pose proof (placed_off _ _ Hp). pose proof (blen_nonneg (padding off (Z.of_nat n))). lia. }
  assert (k <= (2 ^ 64 - 1) / Z.of_nat n) by (apply Z.div_le_lower_bound; lia).
  rewrite (proj2 (Z.ltb_ge _ _)) by done.
  unfold alignBufferPosition in Hal. rewrite Hl in Hal.
  by destruct (alignedBufferIsLargeEnoughToContain _ _ _ _).
Qed.

(** The guarded block read shared by vectors and strings. *)
Definition decode_block (n : nat) (k : Z) : Dec bytes := fun d =>
  if bufferIsLargeEnoughForElements (Z.of_nat n) k d
  then decodeFixedLengthData (k * Z.of_nat n) (Z.of_nat n) d
  else (None, markInvalid d).

Lemma reads_block n k data :
  scalar_alignment (Z.of_nat n) -> blen data = k * Z.of_nat n -> 0 <= k ->
  reads (decode_block n k) [FixedLengthData data (Z.of_nat n)] data.
Proof.
  intros Ha Hl Hk d off suffix atts Hp Hb Hatt. unfold decode_block.
  rewrite (room_for_block d off n k data suffix) by
    (try done; simpl in Hb; by rewrite app_nil_r, <- app_assoc in Hb).
  by eapply reads_fixed.
Qed.

Lemma reads_arithmetic_vector n v :
  scalar_alignment (Z.of_nat n) -> Z.of_nat (length v) < 2 ^ 64 ->
  Forall (fun z => 0 <= z < 2 ^ (Z.of_nat n * 8)) v ->
  reads (decode_arithmetic_vector n) (encode_arithmetic_vector n v) v.
Proof.
  intros Ha Hl Hv.
  assert (reads (let? size := decode in
    let? data := decode_block n (Zmod.unsigned (size : uint64_t)) in
    ret (split_block n (Z.to_nat (Zmod.unsigned size)) data)) (encode_arithmetic_vector n v) v) as Hr.
  { eapply reads_bind; [by apply decode_encode|]. rewrite sizeOf_spec by done.
    eapply reads_bind_nil; [apply reads_block; [done | apply blen_block_of | lia]|].
    rewrite Nat2Z.id, split_block_of by done. apply reads_ret. }
  intros d off suffix atts Hp Hb Hatt. specialize (Hr d off suffix atts Hp Hb Hatt).
  unfold bind, decode_block, ret in Hr. unfold decode_arithmetic_vector.
  destruct (decode d) as [[size|] d1]; [|done].
  destruct (bufferIsLargeEnoughForElements _ _ _); [|done].
  destruct (decodeFixedLengthData _ _ _) as [[data|] d2]; done.
Qed.

(** ** Strings *)

(** [WTF::String]: null, 8-bit or 16-bit characters. *)
Inductive WTFString :=
| NullString
| String8 (characters : list Z)
| String16 (characters : list Z).

Definition max_uint32 : uint32_t := bits.of_Z 32 (2 ^ 32 - 1).
Definition length32 {A} (l : list A) : uint32_t := bits.of_Z 32 (Z.of_nat (length l)).

Definition encode_string (s : WTFString) : list Op :=
  match s with
  | NullString => encode max_uint32
  | String8 cs => encode (length32 cs) ++ encode true ++ [FixedLengthData (block_of 1 cs) 1]
  | String16 cs => encode (length32 cs) ++ encode false ++ [FixedLengthData (block_of 2 cs) 2]
  end.

(** [decodeStringText<CharacterType>]. *)
Definition decodeStringText (n : nat) (length : Z) : Dec (list Z) :=
  let? data := decode_block n length in ret (split_block n (Z.to_nat length) data).

Definition decode_string : Dec WTFString :=
  let? length := decode in
  if bool_decide (Zmod.unsigned (length : uint32_t) = Zmod.unsigned max_uint32) then ret NullString
  else
    let? is8Bit := decode in
    if is8Bit : bool
    then let? cs := decodeStringText 1 (Zmod.unsigned length) in ret (String8 cs)
    else let? cs := decodeStringText 2 (Zmod.unsigned length) in ret (String16 cs).

(** [StringImpl::MaxLength] is [INT_MAX]. *)
Definition string_ok (s : WTFString) : Prop :=
  match s with
  | NullString => True
  | String8 cs => Z.of_nat (length cs) < 2 ^ 31 /\ Forall (fun c => 0 <= c < 2 ^ 8) cs
  | String16 cs => Z.of_nat (length cs) < 2 ^ 31 /\ Forall (fun c => 0 <= c < 2 ^ 16) cs
  end.

#[export] Instance string_coder : ArgumentCoder WTFString :=
  {| encode := encode_string; decode := decode_string; encodable := string_ok |}.

Lemma reads_string_text n cs :
  scalar_alignment (Z.of_nat n) -> Forall (fun c => 0 <= c < 2 ^ (Z.of_nat n * 8)) cs ->
  reads (decodeStringText n (Z.of_nat (length cs))) [FixedLengthData (block_of n cs) (Z.of_nat n)] cs.
Proof.
  intros Ha Hc. eapply reads_bind_nil; [apply reads_block; [done | apply blen_block_of | lia]|].
  rewrite Nat2Z.id, split_block_of by done. apply reads_ret.
Qed.

Lemma length32_spec {A} (l : list A) :
  Z.of_nat (length l) < 2 ^ 31 -> Zmod.unsigned (length32 l) = Z.of_nat (length l).
Proof. intros. unfold length32. rewrite bits.unsigned_of_Z, Z.mod_small; lia. Qed.

Lemma length32_not_null {A} (l : list A) :
  Z.of_nat (length l) < 2 ^ 31 -> Zmod.unsigned (length32 l) <> Zmod.unsigned max_uint32.
Proof.
  intros. rewrite length32_spec by done.
  replace (Zmod.unsigned max_uint32) with (2 ^ 32 - 1) by reflexivity. lia.
Qed.

Lemma reads_string s : string_ok s -> reads decode_string (encode_string s) s.
Proof.
  intros Hs. destruct s as [|cs|cs]; unfold encode_string.
  - eapply reads_bind_nil; [by apply decode_encode|]. rewrite bool_decide_true by done. apply reads_ret.
  - destruct Hs as [Hl Hc]. eapply reads_bind; [by apply decode_encode|].
    rewrite bool_decide_false by by apply length32_not_null.
    eapply reads_bind; [by apply decode_encode|]. rewrite length32_spec by done.
    eapply reads_bind_nil; [apply (reads_string_text 1); auto with wk | apply reads_ret].
  - destruct Hs as [Hl Hc]. eapply reads_bind; [by apply decode_encode|].
    rewrite bool_decide_false by by apply length32_not_null.
    eapply reads_bind; [by apply decode_encode|]. rewrite length32_spec by done.
    eapply reads_bind_nil; [apply (reads_string_text 2); auto with wk | apply reads_ret].
Qed.

#[export] Instance string_lawful : LawfulCoder WTFString.
Proof. intros s Hs. by apply reads_string. Qed.

(** [CString]: null or bytes, with the length as [uint32_t]. *)
Definition encode_cstring (s : option bytes) : list Op :=
  match s with
  | None => encode max_uint32
  | Some b => encode (length32 b) ++ [FixedLengthData b 1]
  end.
Definition decode_cstring : Dec (option bytes) :=
  let? length := decode in
  if bool_decide (Zmod.unsigned (length : uint32_t) = Zmod.unsigned max_uint32) then ret None
  else let? b := decode_block 1 (Zmod.unsigned length) in ret (Some b).

Lemma reads_cstring s :
  (match s with Some b => blen b < 2 ^ 31 | None => True end) -> reads decode_cstring (encode_cstring s) s.
Proof.
  intros Hs. destruct s as [b|]; unfold encode_cstring.
  - eapply reads_bind; [by apply decode_encode|]. unfold blen in Hs.
    rewrite bool_decide_false by by apply length32_not_null. rewrite length32_spec by done.
    eapply reads_bind_nil; [apply (reads_block 1); [auto with wk | unfold blen; lia | lia] | apply reads_ret].
  - eapply reads_bind_nil; [by apply decode_encode|]. rewrite bool_decide_true by done. apply reads_ret.
Qed.

(** ** Values sent as their representation *)

Record AtomString := mkAtomString { atomString_string : WTFString }.
Record WallTime := mkWallTime { secondsSinceEpoch : double }.

#[export] Instance atomString_coder : ArgumentCoder AtomString :=
  {| encode := encode_as atomString_string; decode := decode_as mkAtomString;
     encodable s := encodable (atomString_string s) |}.
#[export] Instance wallTime_coder : ArgumentCoder WallTime :=
  {| encode := encode_as secondsSinceEpoch; decode := decode_as mkWallTime; encodable _ := True |}.
#[export] Instance atomString_lawful : LawfulCoder AtomString.
Proof. intros [] H. by apply reads_as. Qed.
#[export] Instance wallTime_lawful : LawfulCoder WallTime.
Proof. intros [] _. by apply reads_as. Qed.

(** [SHA1::Digest], 20 raw bytes. *)
Definition encode_digest (digest : bytes) : list Op := [FixedLengthData digest 1].
Definition decode_digest : Dec bytes := decodeFixedLengthData 20 1.
(** [audit_token_t], eight 32-bit words. *)
Definition encode_auditToken (val : list uint32_t) : list Op := concat (map encode val).
Definition decode_auditToken : Dec (list uint32_t) := decode_elements decode 8.
(** [Monostate]: nothing on the wire. *)
Definition encode_monostate (_ : unit) : list Op := [].
Definition decode_monostate : Dec unit := ret tt.

Lemma reads_digest b : blen b = 20 -> reads decode_digest (encode_digest b) b.
Proof. intros Hb. apply reads_fixed; auto with wk. Qed.

Lemma reads_auditToken v : length v = 8%nat -> reads decode_auditToken (encode_auditToken v) v.
Proof.
  intros Hl. unfold decode_auditToken. rewrite <- Hl. apply reads_elements.
  intros x _. by apply decode_encode.
Qed.

(** ** References into the message buffer *)

(** [ArrayReference<T>] for [sizeof(T)] = [alignof(T)] = [n]: a pointer into the
    decoder's buffer and an element count.  The byte size is computed in [size_t]. *)
Definition encode_arrayReference (n : nat) (b : bytes) : list Op :=
  encode (bits.of_Z 64 (blen b / Z.of_nat n) : uint64_t) ++
  (if bool_decide (b = []) then [] else [FixedLengthData b (Z.of_nat n)]).

Definition decode_arrayReference (n : nat) : Dec (Z * Z) :=
  let? size := decode in
  let size := Zmod.unsigned (size : uint64_t) in
  if size =? 0 then ret (0, 0)
  else let? data := decodeFixedLengthReference (wrap 64 (size * Z.of_nat n)) (Z.of_nat n) in ret (data, size).

(** [DataReference] is [ArrayReference<uint8_t>]; the bytes it denotes. *)
Definition encode_dataReference (b : bytes) : list Op := encode_arrayReference 1 b.
Definition dereference (ptr size : Z) (d : Decoder) : bytes :=
  take (Z.to_nat size) (drop (Z.to_nat (ptr - m_buffer d)) (m_bytes d)).
Definition decode_dataReference : Dec bytes :=
  let? r := decode_arrayReference 1 in
  fun d => (Some (if snd r =? 0 then [] else dereference (fst r) (snd r) d), d).

(** The referenced bytes are those [decodeFixedLengthData] would copy. *)
Lemma decode_dataReference_copy d :
  decode_dataReference d =
  (let? size := decode in
   if Zmod.unsigned (size : uint64_t) =? 0 then ret [] else decodeFixedLengthData (Zmod.unsigned size) 1) d.
Proof.
  unfold decode_dataReference, decode_arrayReference, bind, ret.
  destruct (decode d) as [[size|] d1]; [|done]. destruct (_ =? 0) eqn:E; [done|].
  rewrite Z.mul_1_r, wrap_small by (apply bits.unsigned_range; lia).
  unfold decodeFixedLengthReference, decodeFixedLengthData.
  destruct (alignBufferPosition _ _ _) as [[] d2]; [|done]. simpl. by rewrite E.
Qed.

Lemma reads_dataReference b : blen b < 2 ^ 62 -> reads decode_dataReference (encode_dataReference b) b.
Proof.
  intros Hb. pose proof (blen_nonneg b) as Hb0.
  assert (Zmod.unsigned (bits.of_Z 64 (blen b / Z.of_nat 1)) = blen b) as Hu.
  { rewrite Z.div_1_r, bits.unsigned_of_Z, Z.mod_small; lia. }
  eapply reads_ext; [intros d; symmetry; apply decode_dataReference_copy|].
  eapply reads_bind; [by apply decode_encode|]. rewrite Hu. case_bool_decide as Hnil.
  - subst b. apply reads_ret.
  - rewrite (proj2 (Z.eqb_neq (blen b) 0)); [apply reads_fixed; auto with wk|].
    destruct b; [done | unfold blen; simpl; lia].
Qed.

(** [SharedBufferCopy]: the byte size, then the buffer's segments back to back. *)
Definition encode_sharedBufferCopy (segments : option (list bytes)) : list Op :=
  let bufferSize := match segments with Some s => blen (concat s) | None => 0 end in
  [Reserve (wrap 64 (8 + bufferSize))] ++ encode (bits.of_Z 64 bufferSize : uint64_t) ++
  (if bufferSize =? 0 then []
   else match segments with Some s => map (fun seg => FixedLengthData seg 1) s | None => [] end).
Definition decode_sharedBufferCopy : Dec (option bytes) :=
  let? data := decode_dataReference in ret (if blen data =? 0 then None else Some data).

(** Byte-aligned writes need no padding, so segments are sent as one run of bytes. *)
Lemma padding_1 off : 0 <= off -> off < 2 ^ 62 -> padding off 1 = [].
Proof.
  intros. unfold padding. destruct (roundUp_spec off 1); [lia..|].
  replace (roundUpToAlignment off 1) with off by lia. by rewrite Z.sub_diag.
Qed.

Lemma emit_segments segs : forall off, 0 <= off -> off + blen (concat segs) < 2 ^ 62 ->
  emit off (map (fun seg => FixedLengthData seg 1) segs) = concat segs.
Proof.
  induction segs as [|seg segs IH]; intros off Ho Hl; [done|]. simpl in *. rewrite blen_app in Hl.
  pose proof (blen_nonneg seg). pose proof (blen_nonneg (concat segs)).
  rewrite padding_1 by lia. simpl. f_equal. apply IH; lia.
Qed.

(** ** Hash tables

    The iteration order of a WTF hash table is unspecified: an encoding is the size
    followed by the entries in some order. *)

(** [HashTraits]: whether a key is neither the empty nor the deleted value. *)
Class HashTraits (K : Type) := isValidKey : K -> bool.

Section hash_tables.
Context {K V : Type} `{Countable K} `{ArgumentCoder K, ArgumentCoder V, HashTraits K}.

Definition encode_hashMap_entries (entries : list (K * V)) : list Op :=
  encode (length32 entries) ++ concat (map encode entries).

Fixpoint decode_hashMap_loop (n : nat) (hashMap : gmap K V) : Dec (gmap K V) :=
  match n with
  | O => ret hashMap
  | S n' =>
      let? key := decode in
      let? value := decode in
      if isValidKey key then
        match hashMap !! key with
        | None => decode_hashMap_loop n' (<[key := value]> hashMap)
        | Some _ => invalid
        end
      else invalid
  end.

Definition decode_hashMap : Dec (gmap K V) :=
  let? hashMapSize := decode in decode_hashMap_loop (Z.to_nat (Zmod.unsigned (hashMapSize : uint32_t))) ∅.

Definition encode_hashSet_keys (keys : list K) : list Op :=
  encode (sizeOf keys) ++ concat (map encode keys).

Fixpoint decode_hashSet_loop (n : nat) (hashSet : gset K) : Dec (gset K) :=
  match n with
  | O => ret hashSet
  | S n' =>
      let? key := decode in
      if isValidKey key then
        if decide (key ∈ hashSet) then invalid else decode_hashSet_loop n' ({[key]} ∪ hashSet)
      else invalid
  end.

Definition decode_hashSet : Dec (gset K) :=
  let? hashSetSize := decode in decode_hashSet_loop (Z.to_nat (Zmod.unsigned (hashSetSize : uint64_t))) ∅.

Context `{!LawfulCoder K, !LawfulCoder V}.

Lemma reads_hashMap_loop entries : forall m,
  NoDup entries.*1 -> (forall kv, kv ∈ entries -> encodable kv /\ isValidKey kv.1 = true /\ m !! kv.1 = None) ->
  reads (decode_hashMap_loop (length entries) m) (concat (map encode entries)) (list_to_map entries ∪ m).
Proof.
  induction entries as [|[k v] entries IH]; intros m Hnd Hok; simpl.
  { rewrite (left_id_L ∅ (∪)). apply reads_ret. }
  apply NoDup_cons in Hnd as [Hk Hnd].
  destruct (Hok (k, v)) as ([Hek Hev] & Hvalid & Hfresh); [left|]. simpl in *.
  unfold encode at 1. simpl. unfold encode_pair. simpl. rewrite <- app_assoc.
  eapply reads_bind; [by apply decode_encode|]. eapply reads_bind; [by apply decode_encode|].
  rewrite Hvalid, Hfresh. rewrite <- insert_union_l, insert_union_r.
  - apply IH; [done|]. intros kv Hin. destruct (Hok kv) as (? & ? & ?); [by right|].
    split_and!; try done. rewrite lookup_insert_ne; [done|].
    intros ->. apply Hk. by apply list_elem_of_fmap_2.
  - apply not_elem_of_list_to_map_1. done.
Qed.

Lemma reads_hashSet_loop keys : forall s,
  NoDup keys -> (forall k, k ∈ keys -> encodable k /\ isValidKey k = true /\ k ∉ s) ->
  reads (decode_hashSet_loop (length keys) s) (concat (map encode keys)) (list_to_set keys ∪ s).
Proof.
  induction keys as [|k keys IH]; intros s Hnd Hok; simpl.
  { rewrite (left_id_L ∅ (∪)). apply reads_ret. }
  apply NoDup_cons in Hnd as [Hk Hnd]. destruct (Hok k) as (He & Hv & Hn); [left|].
  eapply reads_bind; [by apply decode_encode|]. rewrite Hv, decide_False by done.
  replace ({[k]} ∪ list_to_set keys ∪ s) with (list_to_set keys ∪ ({[k]} ∪ s)) by set_solver.
  apply IH; [done|]. intros k' Hin. destruct (Hok k') as (? & ? & ?); [by right|].
  split_and!; try done. set_solver.
Qed.

End hash_tables.

(** Decoders that refuse what [ops] produced and leave the decoder invalid. *)
Definition rejects {A} (m : Dec A) (ops : list Op) : Prop :=
  forall d off suffix atts,
    placed d off -> bytes_from d off = emit off ops ++ suffix ->
    m_attachments d = atts ++ rev (attachments_of ops) ->
    exists d', m d = (None, d') /\ isValid d' = false.

Lemma rejects_invalid {A} ops : rejects (@invalid A) ops.
Proof. intros d off suffix atts _ _ _. by eexists. Qed.

Lemma rejects_bind {A B} (m : Dec A) (k : A -> Dec B) p q v :
  reads m p v -> rejects (k v) q -> rejects (bind m k) (p ++ q).
Proof.
  intros Hm Hk d off suffix atts Hp Hb Ha. rewrite emit_app, <- app_assoc in Hb.
  rewrite attachments_of_app, rev_app_distr, app_assoc in Ha.
  unfold bind. rewrite (Hm d off _ _ Hp Hb Ha).
  pose proof (bytes_from_bound _ _ _ _ Hp Hb). pose proof (placed_off _ _ Hp).
  pose proof (blen_nonneg (emit off p)).
  apply (Hk _ (off + blen (emit off p)) suffix atts); [|apply (bytes_from_next d off (emit off p) _ Hp Hb)|done].
  apply placed_seek with off; [done|lia].
Qed.

Lemma rejects_hashMap_loop {K V} `{Countable K, ArgumentCoder K, ArgumentCoder V, HashTraits K}
    `{!LawfulCoder K, !LawfulCoder V} (entries : list (K * V)) : forall m : gmap K V,
  (forall kv, kv ∈ entries -> encodable kv) ->
  ~ (NoDup entries.*1 /\ (forall kv, kv ∈ entries -> m !! kv.1 = None)) ->
  rejects (decode_hashMap_loop (length entries) m) (concat (map encode entries)).
Proof.
  induction entries as [|[k v] entries IH]; intros m Hok Hdup; simpl.
  { exfalso. apply Hdup. split; [constructor|]. intros kv Hin. by apply not_elem_of_nil in Hin. }
  destruct (Hok (k, v)) as [Hek Hev]; [left|]. simpl in *.
  unfold encode at 1. simpl. unfold encode_pair. simpl. rewrite <- app_assoc.
  eapply rejects_bind; [by apply decode_encode|]. eapply rejects_bind; [by apply decode_encode|].
  destruct (isValidKey k); [|apply rejects_invalid].
  destruct (m !! k) eqn:Hmk; [apply rejects_invalid|].
  apply IH; [intros kv Hin; apply Hok; by right|].
  intros [Hnd Hfresh]. apply Hdup. split.
  - apply NoDup_cons. split; [|done]. intros Hin. apply list_elem_of_fmap in Hin as (kv & -> & Hin).
    specialize (Hfresh kv Hin). by rewrite lookup_insert_eq in Hfresh.
  - intros kv Hin. apply elem_of_cons in Hin as [->|Hin]; [done|].
    specialize (Hfresh kv Hin). destruct (decide (k = kv.1)) as [->|]; [done|].
    by rewrite lookup_insert_ne in Hfresh.
Qed.

(** ** Testing support: a message wrapped in a message

    [Encoder::wrapForTesting] sends a whole message as the argument of another;
    [Decoder::unwrapForTesting] undoes it.  The attachments travel with the outer
    message and are taken off its back. *)

Definition wrapped_message (original_bytes : bytes) (atts : list Attachment) : list Op :=
  encode_dataReference original_bytes ++ [Reserve (Z.of_nat (length atts))] ++ map AddAttachment atts.

(** The calls [wrapForTesting] makes on the outer encoder, after marking the
    original as dispatchable during a synchronous wait. *)
Definition wrapForTesting (original : Encoder) : outcome (list Op) :=
  outcome_bind (setShouldDispatchMessageWhenWaitingForSyncReply Yes original) (fun original' =>
  Done (wrapped_message (contents original') (fst (releaseAttachments original')))).

(** [while (decoder.removeAttachment(attachment)) attachments.append(attachment)]. *)
Fixpoint takeAttachmentsLoop (fuel : nat) (acc : list Attachment) (d : Decoder) : list Attachment * Decoder :=
  match fuel with
  | O => (acc, d)
  | S fuel' =>
      match removeAttachment d with
      | (Some a, d') => takeAttachmentsLoop fuel' (acc ++ [a]) d'
      | (None, d') => (acc, d')
      end
  end.

(** Each round removes an attachment, so one round more than there are suffices.
    [copyAddress] is where [Decoder::create] copies the wrapped bytes. *)
Definition unwrapForTesting (ok : Z -> bool) (copyAddress : Z) (d : Decoder) : option Decoder :=
  let '(taken, d1) := takeAttachmentsLoop (S (length (m_attachments d))) [] d in
  match decode_dataReference d1 with
  | (None, _) => None
  | (Some wrappedMessage, _) => Decoder.create ok copyAddress wrappedMessage (rev taken)
  end.

Lemma takeAttachmentsLoop_spec fuel acc d :
  (length (m_attachments d) < fuel)%nat ->
  takeAttachmentsLoop fuel acc d = (acc ++ rev (m_attachments d), set_attachments [] d).
Proof.
  revert acc d. induction fuel as [|fuel IH]; intros acc d Hf; [lia|]. simpl.
  unfold removeAttachment. destruct (rev (m_attachments d)) as [|a rest] eqn:E.
  - apply (f_equal (@rev Attachment)) in E. rewrite rev_involutive in E. simpl in E.
    rewrite app_nil_r. destruct d; simpl in *; by subst.
  - pose proof (f_equal length E) as Hl. rewrite length_rev in Hl. simpl in Hl.
    rewrite IH; simpl; rewrite ?length_rev; [|lia].
    by rewrite rev_involutive, <- app_assoc.
Qed.

(** ** Properties *)

(** Strings survive the wire, null, 8-bit and 16-bit alike, at every offset:
    decoding what [ArgumentCoder<String>::encode] wrote returns the same string,
    including its character width, and stops right behind it. *)
Theorem string_roundtrip s d off suffix :
  string_ok s -> placed d off -> m_attachments d = [] ->
  bytes_from d off = emit off (encode_string s) ++ suffix ->
  decode_string d = (Some s, seek (off + blen (emit off (encode_string s))) [] d).
Proof.
  intros Hs Hp Ha Hb. apply (reads_string s Hs d off suffix []); [done..|].
  rewrite Ha. destruct s; unfold encode_string; by rewrite ?attachments_of_app.
Qed.

Lemma placed_example b atts : blen b < 2 ^ 20 -> placed (mkDecoder 4096 b 4096 atts 0 0 0) 0.
Proof.
  intros. pose proof (blen_nonneg b). split; simpl; [done | unfold m_bufferEnd; simpl; lia | lia | lia | lia].
Qed.

Definition sample_string : WTFString := String16 [104; 233; 8364].

Lemma string_roundtrip_witness :
  decode_string (mkDecoder 4096 (emit 0 (encode_string sample_string)) 4096 [] 0 0 0) =
  (Some sample_string, seek (0 + blen (emit 0 (encode_string sample_string))) []
    (mkDecoder 4096 (emit 0 (encode_string sample_string)) 4096 [] 0 0 0)).
Proof.
  apply (string_roundtrip sample_string _ 0 []).
  - split; [simpl; lia | repeat constructor; lia].
  - apply placed_example. reflexivity.
  - reflexivity.
  - vm_compute. reflexivity.
Defined.

(** Vectors of arithmetic values survive the wire for every element width and
    the pre-allocation room check never rejects a genuine message. *)
Theorem arithmetic_vector_roundtrip n v d off suffix :
  scalar_alignment (Z.of_nat n) -> Z.of_nat (length v) < 2 ^ 64 ->
  Forall (fun z => 0 <= z < 2 ^ (Z.of_nat n * 8)) v ->
  placed d off -> m_attachments d = [] ->
  bytes_from d off = emit off (encode_arithmetic_vector n v) ++ suffix ->
  decode_arithmetic_vector n d = (Some v, seek (off + blen (emit off (encode_arithmetic_vector n v))) [] d).
Proof.
  intros Ha Hl Hv Hp Hatt Hb. by apply (reads_arithmetic_vector n v Ha Hl Hv d off suffix []).
Qed.

Lemma arithmetic_vector_roundtrip_witness :
  fst (decode_arithmetic_vector 4 (mkDecoder 4096 (emit 0 (encode_arithmetic_vector 4 [1; 70000; 3])) 4096 [] 0 0 0)) =
  Some [1; 70000; 3].
Proof.
  rewrite (arithmetic_vector_roundtrip 4 [1; 70000; 3] (mkDecoder 4096 (emit 0 (encode_arithmetic_vector 4 [1; 70000; 3])) 4096 [] 0 0 0) 0 []);
    [reflexivity | auto with wk | simpl; lia | repeat constructor; lia | apply placed_example; reflexivity | reflexivity |
     vm_compute; reflexivity].
Defined.

(** A hash map survives the wire whatever order the sender's table was
    iterated in: the entries of [m] in any order decode to [m]. *)
Theorem hashMap_roundtrip_any_order {K V} `{Countable K, ArgumentCoder K, ArgumentCoder V, HashTraits K}
    `{!LawfulCoder K, !LawfulCoder V} (m : gmap K V) entries d off suffix :
  entries ≡ₚ map_to_list m -> Z.of_nat (size m) < 2 ^ 31 ->
  map_Forall (fun k v => encodable (k, v) /\ isValidKey k = true) m ->
  placed d off -> m_attachments d = rev (attachments_of (encode_hashMap_entries entries)) ->
  bytes_from d off = emit off (encode_hashMap_entries entries) ++ suffix ->
  decode_hashMap d = (Some m, seek (off + blen (emit off (encode_hashMap_entries entries))) [] d).
Proof.
  intros Hperm Hsize Hok Hp Hatt Hb.
  assert (reads decode_hashMap (encode_hashMap_entries entries) m) as Hr.
  { assert (length entries = size m) as Hlen by (by rewrite Hperm, length_map_to_list).
    unfold decode_hashMap, encode_hashMap_entries. eapply reads_bind; [by apply decode_encode|].
    rewrite length32_spec, Nat2Z.id by lia.
    assert (NoDup entries.*1) as Hnd by (rewrite Hperm; apply NoDup_fst_map_to_list).
    pose proof (reads_hashMap_loop entries ∅ Hnd) as Hloop.
    rewrite (right_id_L ∅ (∪)), (list_to_map_proper _ _ Hnd Hperm), list_to_map_to_list in Hloop.
    apply Hloop. intros kv Hin. rewrite Hperm in Hin. destruct kv as [k v].
    apply elem_of_map_to_list in Hin. destruct (Hok k v Hin). by rewrite lookup_empty. }
  by apply (Hr d off suffix []).
Qed.

#[export] Instance uint64_hash_traits : HashTraits uint64_t := fun k => negb (Zmod.unsigned k =? 0) && negb (Zmod.unsigned k =? 2 ^ 64 - 1).
#[export] Instance uint64_eq_dec : EqDecision uint64_t.
Proof.
  intros x y. destruct (decide (Zmod.unsigned x = Zmod.unsigned y)) as [E|E];
    [left; by apply Zmod.unsigned_inj | right; by intros ->].
Defined.
#[export] Instance uint64_countable : Countable uint64_t.
Proof.
  apply (inj_countable' (fun x : uint64_t => Zmod.unsigned x) (fun z => bits.of_Z 64 z)). intros x. apply Zmod.of_Z_unsigned.
Defined.

Definition sample_map : gmap uint64_t bool := {[bits.of_Z 64 5 := true; bits.of_Z 64 7 := false]}.

Lemma hashMap_roundtrip_any_order_witness :
  fst (decode_hashMap (mkDecoder 4096 (emit 0 (encode_hashMap_entries (map_to_list sample_map))) 4096 [] 0 0 0)) = Some sample_map.
Proof.
  rewrite (hashMap_roundtrip_any_order sample_map (map_to_list sample_map)
    (mkDecoder 4096 (emit 0 (encode_hashMap_entries (map_to_list sample_map))) 4096 [] 0 0 0) 0 []).
  - reflexivity.
  - reflexivity.
  - vm_compute. reflexivity.
  - apply map_Forall_to_list. repeat constructor.
  - apply placed_example. vm_compute. reflexivity.
  - reflexivity.
  - vm_compute. reflexivity.
Defined.

(** Duplicate keys are refused. A hash map message in which some key occurs
    twice fails to decode and invalidates the decoder, so a peer cannot make the
    two sides disagree about which of the values wins. *)
Theorem hashMap_rejects_duplicate_keys {K V} `{Countable K, ArgumentCoder K, ArgumentCoder V, HashTraits K}
    `{!LawfulCoder K, !LawfulCoder V} (entries : list (K * V)) d off suffix :
  ~ NoDup entries.*1 -> Forall encodable entries -> Z.of_nat (length entries) < 2 ^ 31 ->
  placed d off -> m_attachments d = rev (attachments_of (encode_hashMap_entries entries)) ->
  bytes_from d off = emit off (encode_hashMap_entries entries) ++ suffix ->
  exists d', decode_hashMap (K := K) (V := V) d = (None, d') /\ isValid d' = false.
Proof.
  intros Hdup Hok Hlen Hp Hatt Hb.
  assert (rejects (decode_hashMap (K := K) (V := V)) (encode_hashMap_entries entries)) as Hr.
  { unfold decode_hashMap, encode_hashMap_entries. eapply rejects_bind; [by apply decode_encode|].
    rewrite length32_spec, Nat2Z.id by lia. apply rejects_hashMap_loop.
    - rewrite Forall_forall in Hok. done.
    - tauto. }
  by apply (Hr d off suffix []).
Qed.

Definition duplicate_entries : list (uint64_t * bool) := [(bits.of_Z 64 5, true); (bits.of_Z 64 5, false)].

Lemma hashMap_rejects_duplicate_keys_witness :
  exists d', decode_hashMap (K := uint64_t) (V := bool)
    (mkDecoder 4096 (emit 0 (encode_hashMap_entries duplicate_entries)) 4096 [] 0 0 0) = (None, d') /\ isValid d' = false.
Proof.
  apply (hashMap_rejects_duplicate_keys duplicate_entries _ 0 []).
  - intros Hnd. apply NoDup_cons in Hnd as [Hn _]. apply Hn. left.
  - repeat constructor.
  - reflexivity.
  - apply placed_example. vm_compute. reflexivity.
  - reflexivity.
  - vm_compute. reflexivity.
Defined.

(** The bytes that are checked are those of the buffer, whatever the element. *)
Lemma arrayReference_checked n d ptr count d' :
  mapped d -> decode_arrayReference n d = (Some (ptr, count), d') -> count <> 0 ->
  0 < count < 2 ^ 64 /\ m_buffer d <= ptr /\ ptr + wrap 64 (count * Z.of_nat n) <= m_bufferEnd d.
Proof.
  intros [Hb He]. unfold decode_arrayReference, bind, ret.
  destruct (decode d) as [[sz|] d1] eqn:Hd; [|done].
  assert (m_buffer d1 = m_buffer d /\ m_bufferEnd d1 = m_bufferEnd d) as [Hb1 He1].
  { unfold decode, uint64_coder, decode_bits, get_uint, bind, ret, decodeFixedLengthData in Hd.
    pose proof (alignBufferPosition_frame (Z.of_nat 8) (Z.of_nat 8) d) as (F1 & F2 & _).
    destruct (alignBufferPosition _ _ d) as [[] d2]; simplify_eq/=. unfold m_bufferEnd. simpl. by rewrite F1, F2. }
  destruct (Zmod.unsigned sz =? 0) eqn:E; [intros; by simplify_eq|]. zbool.
  pose proof (bits.unsigned_range sz ltac:(lia)) as Hr.
  unfold decodeFixedLengthReference, alignBufferPosition. rewrite Hb1, He1.
  destruct (alignedBufferIsLargeEnoughToContain _ _ _ _) eqn:Ec; intros; simplify_eq/=.
  apply aligned_check_sound in Ec; lia.
Qed.

(** A byte reference stays inside the message. A non-empty [DataReference]
    decoded from any mapped buffer denotes bytes of that buffer. *)
Theorem dataReference_in_bounds d ptr size d' :
  mapped d -> decode_arrayReference 1 d = (Some (ptr, size), d') -> size <> 0 ->
  m_buffer d <= ptr /\ ptr + size <= m_bufferEnd d.
Proof.
  intros Hm Hd Hz. destruct (arrayReference_checked 1 d ptr size d' Hm Hd Hz) as (Hr & Hb & He).
  rewrite Z.mul_1_r, wrap_small in He by (unfold in_width; lia). done.
Qed.

Lemma dataReference_in_bounds_witness :
  exists ptr size d', decode_arrayReference 1 (mkDecoder 4096 (emit 0 (encode_dataReference (zeros 3))) 4096 [] 0 0 0)
    = (Some (ptr, size), d') /\ 4096 <= ptr /\ ptr + size <= 4107.
Proof.
  eexists _, _, _. split; [vm_compute; reflexivity|].
  apply (dataReference_in_bounds (mkDecoder 4096 (emit 0 (encode_dataReference (zeros 3))) 4096 [] 0 0 0) 4104 3
    (mkDecoder 4096 (emit 0 (encode_dataReference (zeros 3))) 4107 [] 0 0 0));
    [split; reflexivity | vm_compute; reflexivity | discriminate].
Defined.

(** C4: A reference to elements of any width is bounded exactly when its byte size does not
    overflow.  From every mapped buffer, a non-empty [ArrayReference] that is accepted points
    into the buffer, and the bytes that its size in [size_t] arithmetic announces lie there;
    the elements it claims lie in the buffer if and only if the count times the size of an
    element is below 2^64, which the decoder does not check. *)
Theorem arrayReference_bounded_iff_no_overflow n d ptr count d' :
  mapped d -> decode_arrayReference n d = (Some (ptr, count), d') -> count <> 0 ->
  m_buffer d <= ptr /\ ptr + wrap 64 (count * Z.of_nat n) <= m_bufferEnd d /\
  (ptr + count * Z.of_nat n <= m_bufferEnd d <-> count * Z.of_nat n < 2 ^ 64).
Proof.
  intros Hm Hd Hz. destruct (arrayReference_checked n d ptr count d' Hm Hd Hz) as (Hr & Hb & He).
  destruct Hm as [H0 Hend]. split_and!; [done..|]. split; [lia|]. intros Ho. rewrite wrap_small in He by (unfold in_width; lia). lia.
Qed.

(** A 16-byte message with the count 2^62 + 1 for elements of four bytes is accepted; the
    theorem says that it is out of bounds. *)
Definition overflowingReference : Decoder := mkDecoder 4096 (le_split 8 (2 ^ 62 + 1) ++ zeros 8) 4096 [] 0 0 0.
Lemma arrayReference_bounded_iff_no_overflow_witness :
  exists ptr d', decode_arrayReference 4 overflowingReference = (Some (ptr, 2 ^ 62 + 1), d') /\ isValid d' = true /\
    ~ ptr + (2 ^ 62 + 1) * 4 <= m_bufferEnd overflowingReference.
Proof.
  eexists _, _. split; [vm_compute; reflexivity|]. split; [reflexivity|]. intros H.
  destruct (arrayReference_bounded_iff_no_overflow 4 overflowingReference 4104 (2 ^ 62 + 1) (mkDecoder 4096 (le_split 8 (2 ^ 62 + 1) ++ zeros 8) 4108 [] 0 0 0)) as (_ & _ & Hi);
    [split; reflexivity|vm_compute; reflexivity|discriminate|]. apply Hi in H. discriminate H.
Defined.

Lemma unwrap_wrapped_message ok copyAddress inner atts d off suffix :
  blen inner < 2 ^ 62 -> placed d off ->
  bytes_from d off = emit off (wrapped_message inner atts) ++ suffix ->
  m_attachments d = attachments_of (wrapped_message inner atts) ->
  unwrapForTesting ok copyAddress d = Decoder.create ok copyAddress inner atts.
Proof.
  intros Hi Hp Hb Hatt.
  assert (emit off (wrapped_message inner atts) = emit off (encode_dataReference inner)) as Hemit.
  { unfold wrapped_message. rewrite emit_app. simpl.
    assert (forall o, emit o (map AddAttachment atts) = []) as Hnil by (intros o; clear; by induction atts).
    by rewrite Hnil, app_nil_r. }
  assert (attachments_of (encode_dataReference inner) = []) as Hd.
  { unfold encode_dataReference, encode_arrayReference. rewrite attachments_of_app. by case_bool_decide. }
  assert (attachments_of (wrapped_message inner atts) = atts) as Ha.
  { unfold wrapped_message. rewrite attachments_of_app, Hd. simpl. clear. induction atts; simpl; congruence. }
  rewrite Ha in Hatt. rewrite Hemit in Hb.
  unfold unwrapForTesting. rewrite takeAttachmentsLoop_spec by lia. simpl. rewrite rev_involutive, Hatt.
  rewrite (reads_dataReference inner Hi (set_attachments [] d) off suffix []); [done| |done|by rewrite Hd].
  destruct Hp. by split.
Qed.

(** A message wrapped for testing is unwrapped unchanged. Wrapping marks the
    original as dispatchable while waiting for a synchronous reply; unwrapping, from
    a decoder that stands at the wrapped bytes with the attachments in wire order,
    creates the decoder of the marked message with the attachments in their
    original order. *)
Theorem wrap_unwrap_for_testing ok copyAddress original d off suffix ops :
  wf original -> 1 <= m_bufferSize original < 2 ^ 62 -> wrapForTesting original = Done ops ->
  placed d off -> bytes_from d off = emit off ops ++ suffix -> m_attachments d = attachments_of ops ->
  exists marked, setShouldDispatchMessageWhenWaitingForSyncReply Yes original = Done marked /\
    drop 1 (contents marked) = drop 1 (contents original) /\
    unwrapForTesting ok copyAddress d = Decoder.create ok copyAddress (contents marked) (Encoder.m_attachments original).
Proof.
  intros Hwf Hsz. destruct (updateMessageFlags_spec (flags_with_shouldDispatch Yes) original Hwf)
    as (flags & rest & marked & Hc & _ & _ & Hset & Hwf' & Hc' & Hatts & _); [lia|].
  unfold wrapForTesting, setShouldDispatchMessageWhenWaitingForSyncReply. rewrite Hset. simpl.
  intros [= <-] Hp Hb Ha. exists marked. split; [done|]. split; [by rewrite Hc, Hc'|].
  rewrite Hatts in *. apply (unwrap_wrapped_message _ _ _ _ d off suffix); try done.
  rewrite Hc'. pose proof (blen_contents original Hwf) as Hl. rewrite Hc in Hl. unfold blen in *. simpl in *. lia.
Qed.

Definition sample_original : Encoder :=
  mkEncoder 5 6 true (emit 0 (encodeHeader 5 6) ++ zeros 496) 16 512 [socket 1; socket 2] 0.

Lemma wrap_unwrap_for_testing_witness :
  exists ops marked, wrapForTesting sample_original = Done ops /\
    setShouldDispatchMessageWhenWaitingForSyncReply Yes sample_original = Done marked /\
    drop 1 (contents marked) = drop 1 (contents sample_original) /\
    unwrapForTesting (Z.eqb 5) 8192 (mkDecoder 4096 (emit 0 ops) 4096 [socket 1; socket 2] 0 0 0) =
    Decoder.create (Z.eqb 5) 8192 (contents marked) [socket 1; socket 2].
Proof.
  eexists.
  destruct (wrap_unwrap_for_testing (Z.eqb 5) 8192 sample_original
    (mkDecoder 4096 (emit 0 (wrapped_message (Byte.x01 :: drop 1 (emit 0 (encodeHeader 5 6))) [socket 1; socket 2])) 4096 [socket 1; socket 2] 0 0 0)
    0 [] (wrapped_message (Byte.x01 :: drop 1 (emit 0 (encodeHeader 5 6))) [socket 1; socket 2])) as (marked & Hm & Hd & Hu).
  - split; [reflexivity | simpl; lia | exists 9; split; [lia | reflexivity] | reflexivity].
  - simpl. lia.
  - vm_compute. reflexivity.
  - apply placed_example. vm_compute. reflexivity.
  - vm_compute. reflexivity.
  - vm_compute. reflexivity.
  - exists marked. split; [vm_compute; reflexivity|]. split; [exact Hm|]. split; [exact Hd|]. exact Hu.
Defined.
