(* ===== verification/MessageReceiverMap.v ===== *)
(** * Platform/IPC/MessageReceiverMap.cpp: who gets a message

    The table a process keeps of the objects that handle messages, by receiver name or by
    receiver name and destination.  Entries are plain pointers, so an object must be
    taken out of the table before it dies; in builds with assertions it counts its
    entries and asserts that none are left.  Assertions are modelled as those builds
    have them. *)

From S2P Require Import Prelude.

Module MessageReceiverMap.
Local Open Scope outcome_scope.

Abbreviation ReceiverName := Z.
Abbreviation MessageReceiver := nat.

Record MessageReceiverMap := mkMap {
  m_globalMessageReceivers : gmap ReceiverName MessageReceiver;
  m_messageReceivers : gmap (ReceiverName * Z) MessageReceiver;
  m_messageReceiverMapCount : MessageReceiver -> Z       (* of each receiver; unsigned *)
}.

Definition empty : MessageReceiverMap := mkMap ∅ ∅ (fun _ => 0).

Definition ASSERT (b : bool) (s : MessageReceiverMap) : outcome MessageReceiverMap := if b then Done s else Crash.

Definition willBeAddedToMessageReceiverMap (r : MessageReceiver) (s : MessageReceiverMap) : MessageReceiverMap :=
  mkMap (m_globalMessageReceivers s) (m_messageReceivers s)
    (upd r (wrap 32 (m_messageReceiverMapCount s r + 1)) (m_messageReceiverMapCount s)).

Definition willBeRemovedFromMessageReceiverMap (r : MessageReceiver) (s : MessageReceiverMap) : outcome MessageReceiverMap :=
  let! s := ASSERT (negb (m_messageReceiverMapCount s r =? 0)) s in
  Done (mkMap (m_globalMessageReceivers s) (m_messageReceivers s)
    (upd r (wrap 32 (m_messageReceiverMapCount s r - 1)) (m_messageReceiverMapCount s))).

Definition setGlobal (m : gmap ReceiverName MessageReceiver) (s : MessageReceiverMap) : MessageReceiverMap :=
  mkMap m (m_messageReceivers s) (m_messageReceiverMapCount s).
Definition setReceivers (m : gmap (ReceiverName * Z) MessageReceiver) (s : MessageReceiverMap) : MessageReceiverMap :=
  mkMap (m_globalMessageReceivers s) m (m_messageReceiverMapCount s).

Definition addGlobalMessageReceiver (name : ReceiverName) (r : MessageReceiver) (s : MessageReceiverMap)
    : outcome MessageReceiverMap :=
  let! s := ASSERT (bool_decide (m_globalMessageReceivers s !! name = None)) s in
  let s := willBeAddedToMessageReceiverMap r s in
  Done (setGlobal (<[name := r]> (m_globalMessageReceivers s)) s).

Definition addMessageReceiver (name : ReceiverName) (destinationID : Z) (r : MessageReceiver) (s : MessageReceiverMap)
    : outcome MessageReceiverMap :=
  let! s := ASSERT (negb (destinationID =? 0)) s in
  let! s := ASSERT (bool_decide (m_messageReceivers s !! (name, destinationID) = None)) s in
  let! s := ASSERT (bool_decide (m_globalMessageReceivers s !! name = None)) s in
  let s := willBeAddedToMessageReceiverMap r s in
  Done (setReceivers (<[(name, destinationID) := r]> (m_messageReceivers s)) s).

Definition removeGlobalMessageReceiver (name : ReceiverName) (s : MessageReceiverMap) : outcome MessageReceiverMap :=
  match m_globalMessageReceivers s !! name with
  | None => Crash
  | Some r =>
      let! s := willBeRemovedFromMessageReceiverMap r s in
      Done (setGlobal (delete name (m_globalMessageReceivers s)) s)
  end.

Definition removeMessageReceiverAt (name : ReceiverName) (destinationID : Z) (s : MessageReceiverMap)
    : outcome MessageReceiverMap :=
  match m_messageReceivers s !! (name, destinationID) with
  | None => Crash
  | Some r =>
      let! s := willBeRemovedFromMessageReceiverMap r s in
      Done (setReceivers (delete (name, destinationID) (m_messageReceivers s)) s)
  end.

(** [for (auto& x : v) f(x);] *)
Fixpoint forEach {A} (f : A -> MessageReceiverMap -> outcome MessageReceiverMap) (l : list A) (s : MessageReceiverMap)
    : outcome MessageReceiverMap :=
  match l with
  | [] => Done s
  | x :: l' => let! s := f x s in forEach f l' s
  end.

(** The keys of the entries of one receiver, in table order. *)
Definition keysOf {K} `{Countable K} (r : MessageReceiver) (m : gmap K MessageReceiver) : list K :=
  map fst (List.filter (fun e => bool_decide (snd e = r)) (map_to_list m)).

Definition removeMessageReceiver (r : MessageReceiver) (s : MessageReceiverMap) : outcome MessageReceiverMap :=
  let! s := forEach removeGlobalMessageReceiver (keysOf r (m_globalMessageReceivers s)) s in
  forEach (fun key => removeMessageReceiverAt (fst key) (snd key)) (keysOf r (m_messageReceivers s)) s.

Definition invalidate (s : MessageReceiverMap) : outcome MessageReceiverMap :=
  let! s := forEach willBeRemovedFromMessageReceiverMap (map snd (map_to_list (m_globalMessageReceivers s))) s in
  let s := setGlobal ∅ s in
  let! s := forEach willBeRemovedFromMessageReceiverMap (map snd (map_to_list (m_messageReceivers s))) s in
  Done (setReceivers ∅ s).

(** [dispatchMessage] and [dispatchSyncMessage]: the receiver that is called, or [None]
    if the message is not handled. *)
Definition dispatchMessage (name : ReceiverName) (destinationID : Z) (s : MessageReceiverMap)
    : outcome (option MessageReceiver) :=
  match m_globalMessageReceivers s !! name with
  | Some r => if destinationID =? 0 then Done (Some r) else Crash
  | None => Done (m_messageReceivers s !! (name, destinationID))
  end.

Inductive Operation :=
| AddGlobal (name : ReceiverName) (r : MessageReceiver)
| Add (name : ReceiverName) (destinationID : Z) (r : MessageReceiver)
| RemoveGlobal (name : ReceiverName)
| RemoveAt (name : ReceiverName) (destinationID : Z)
| Remove (r : MessageReceiver)
| Invalidate.

Definition perform (op : Operation) (s : MessageReceiverMap) : outcome MessageReceiverMap :=
  match op with
  | AddGlobal name r => addGlobalMessageReceiver name r s
  | Add name dest r => addMessageReceiver name dest r s
  | RemoveGlobal name => removeGlobalMessageReceiver name s
  | RemoveAt name dest => removeMessageReceiverAt name dest s
  | Remove r => removeMessageReceiver r s
  | Invalidate => invalidate s
  end.

Definition run (ops : list Operation) (s : MessageReceiverMap) : outcome MessageReceiverMap := forEach perform ops s.

(** ** Counting entries *)

Definition entriesIn {K} `{Countable K} (r : MessageReceiver) (m : gmap K MessageReceiver) : Z :=
  occ r (map snd (map_to_list m)).
Definition entries (r : MessageReceiver) (s : MessageReceiverMap) : Z :=
  entriesIn r (m_globalMessageReceivers s) + entriesIn r (m_messageReceivers s).

Section counting.
Context {K : Type} `{Countable K}.
Implicit Types (m : gmap K MessageReceiver).

Lemma occ_permutation (r : nat) (l l' : list nat) : l ≡ₚ l' -> occ r l = occ r l'.
Proof. induction 1; simpl; try lia. Qed.

Lemma entriesIn_insert r k r' m : m !! k = None ->
  entriesIn r (<[k := r']> m) = (if decide (r' = r) then 1 else 0) + entriesIn r m.
Proof.
  intros Hk. unfold entriesIn. rewrite (occ_permutation r _ (map snd ((k, r') :: map_to_list m))); [done|].
  apply Permutation_map. by apply map_to_list_insert.
Qed.

Lemma entriesIn_delete r k r' m : m !! k = Some r' ->
  entriesIn r m = (if decide (r' = r) then 1 else 0) + entriesIn r (delete k m).
Proof. intros Hk. rewrite <- entriesIn_insert with (k := k) by apply lookup_delete_eq. by rewrite insert_delete_id. Qed.

Lemma entriesIn_nonneg r m : 0 <= entriesIn r m.
Proof. apply occ_nonneg. Qed.

Lemma entriesIn_zero r m : entriesIn r m = 0 <-> forall k, m !! k <> Some r.
Proof.
  split.
  - intros E k Hk. rewrite (entriesIn_delete r k r m Hk), decide_True in E by done.
    pose proof (entriesIn_nonneg r (delete k m)). lia.
  - intros Hn. induction m as [|k r' m Hk IH] using map_ind; [done|]. rewrite entriesIn_insert by done.
    rewrite decide_False by (intros ->; apply (Hn k); apply lookup_insert_eq).
    rewrite IH; [done|]. intros k' E. apply (Hn k'). rewrite lookup_insert_ne; [done|]. intros ->. congruence.
Qed.
End counting.

(** The counters hold [N]; that they are the numbers of entries is [counted]. *)
Definition countsAre (N : MessageReceiver -> Z) (s : MessageReceiverMap) : Prop :=
  forall r, m_messageReceiverMapCount s r = wrap 32 (N r) /\ 0 <= N r < 2 ^ 32.
Definition counted (s : MessageReceiverMap) : Prop := countsAre (fun r => entries r s) s.

(** Only the counters differ. *)
Definition sameTables (s s' : MessageReceiverMap) : Prop :=
  m_globalMessageReceivers s' = m_globalMessageReceivers s /\ m_messageReceivers s' = m_messageReceivers s.

Definition one (r' r : MessageReceiver) : Z := if decide (r' = r) then 1 else 0.

Lemma removed_once N r s : countsAre N s -> 1 <= N r ->
  exists s', willBeRemovedFromMessageReceiverMap r s = Done s' /\ sameTables s s' /\ countsAre (fun r' => N r' - one r r') s'.
Proof.
  intros Hc Hr. destruct (Hc r) as [E Hb]. unfold willBeRemovedFromMessageReceiverMap. rewrite E, wrap_small by done.
  rewrite (proj2 (Z.eqb_neq _ _)) by lia. eexists. split; [done|]. split; [done|]. intros r'. unfold one. cbn.
  destruct (Hc r') as [E' Hb']. case_decide as Hd.
  - subst r'. rewrite upd_same, E, (wrap_small 32 (N r)) by done. split; [done|lia].
  - rewrite upd_other by done. rewrite Z.sub_0_r. done.
Qed.

Lemma removed_all l : forall N s, countsAre N s -> (forall r, occ r l <= N r) ->
  exists s', forEach willBeRemovedFromMessageReceiverMap l s = Done s' /\ sameTables s s' /\
    countsAre (fun r => N r - occ r l) s'.
Proof.
  induction l as [|r l IH]; intros N s Hc Hl.
  { exists s. split_and!; [done..|]. intros r. cbn. rewrite Z.sub_0_r. apply Hc. }
  assert (Hr : forall r', occ r' (r :: l) = one r r' + occ r' l) by done.
  destruct (removed_once N r s Hc) as (s1 & E1 & T1 & C1).
  { specialize (Hl r). rewrite Hr in Hl. unfold one in Hl. rewrite decide_True in Hl by done. pose proof (occ_nonneg r l). lia. }
  destruct (IH _ s1 C1) as (s2 & E2 & T2 & C2); [intros r'; specialize (Hl r'); rewrite Hr in Hl; lia|].
  exists s2. cbn [forEach]. rewrite E1. cbn [outcome_bind]. split; [done|]. split; [destruct T1, T2; split; congruence|].
  intros r'. destruct (C2 r') as [E B]. split; [rewrite E; f_equal|]; rewrite ?Hr; lia.
Qed.

(** Removing one entry. *)
Lemma removeGlobal_spec name r s : counted s -> m_globalMessageReceivers s !! name = Some r ->
  exists s', removeGlobalMessageReceiver name s = Done s' /\ counted s' /\
    m_globalMessageReceivers s' = delete name (m_globalMessageReceivers s) /\ m_messageReceivers s' = m_messageReceivers s.
Proof.
  intros Hc Hn. unfold removeGlobalMessageReceiver. rewrite Hn.
  assert (He : forall r', entries r' s = one r r' + entriesIn r' (delete name (m_globalMessageReceivers s)) +
    entriesIn r' (m_messageReceivers s)) by (intros; unfold entries; by rewrite (entriesIn_delete r' name r)).
  destruct (removed_once _ r s Hc) as (s1 & E1 & [G1 R1] & C1).
  { rewrite He. unfold one. rewrite decide_True by done.
    pose proof (entriesIn_nonneg r (delete name (m_globalMessageReceivers s))).
    pose proof (entriesIn_nonneg r (m_messageReceivers s)). lia. }
  rewrite E1. cbn [outcome_bind]. eexists. split; [done|]. rewrite G1. split_and!; [|done..].
  intros r'. destruct (C1 r') as [E B]. unfold entries. cbn. rewrite R1. rewrite He in E, B. cbn in E.
  split; [rewrite E; f_equal|]; lia.
Qed.

Lemma removeAt_spec name dest r s : counted s -> m_messageReceivers s !! (name, dest) = Some r ->
  exists s', removeMessageReceiverAt name dest s = Done s' /\ counted s' /\
    m_messageReceivers s' = delete (name, dest) (m_messageReceivers s) /\
    m_globalMessageReceivers s' = m_globalMessageReceivers s.
Proof.
  intros Hc Hn. unfold removeMessageReceiverAt. rewrite Hn.
  assert (He : forall r', entries r' s = one r r' + entriesIn r' (delete (name, dest) (m_messageReceivers s)) +
    entriesIn r' (m_globalMessageReceivers s))
    by (intros; unfold entries; rewrite (entriesIn_delete r' (name, dest) r (m_messageReceivers s)) by done; unfold one; lia).
  destruct (removed_once _ r s Hc) as (s1 & E1 & [G1 R1] & C1).
  { rewrite He. unfold one. rewrite decide_True by done.
    pose proof (entriesIn_nonneg r (delete (name, dest) (m_messageReceivers s))).
    pose proof (entriesIn_nonneg r (m_globalMessageReceivers s)). lia. }
  rewrite E1. cbn [outcome_bind]. eexists. split; [done|]. rewrite R1. split_and!; [|done..].
  intros r'. destruct (C1 r') as [E B]. unfold entries. cbn. rewrite G1. rewrite He in E, B. cbn in E.
  split; [rewrite E; f_equal|]; lia.
Qed.

(** The entries of a receiver, and what is left without them. *)
Section keys.
Context {K : Type} `{Countable K}.
Implicit Types (m : gmap K MessageReceiver).

Lemma elem_of_keysOf r m k : k ∈ keysOf r m <-> m !! k = Some r.
Proof.
  unfold keysOf. rewrite list_elem_of_In, in_map_iff. split.
  - intros ([k' r'] & <- & Hin). apply filter_In in Hin as [Hin Hb]. apply bool_decide_eq_true in Hb. cbn in *. subst r'.
    apply elem_of_map_to_list. by apply list_elem_of_In.
  - intros Hk. exists (k, r). split; [done|]. apply filter_In. split; [|by apply bool_decide_eq_true].
    apply list_elem_of_In. by apply elem_of_map_to_list.
Qed.

Lemma NoDup_keysOf r m : NoDup (keysOf r m).
Proof.
  unfold keysOf. assert (Hnd : NoDup (map fst (map_to_list m))) by apply NoDup_fst_map_to_list. revert Hnd.
  generalize (map_to_list m). intros l. induction l as [|[k r'] l IH]; cbn; [done|].
  intros [Hk Hl]%NoDup_cons. case_bool_decide; cbn; [|by apply IH]. apply NoDup_cons. split; [|by apply IH].
  intros Hin. apply Hk. apply list_elem_of_In in Hin. apply list_elem_of_In. apply in_map_iff in Hin as (e & <- & Hin).
  apply in_map. by apply filter_In in Hin as [? _].
Qed.

Definition without r m : gmap K MessageReceiver := filter (fun e => snd e <> r) m.

Lemma deleted_is_without r m m' :
  (forall k, m' !! k = if decide (k ∈ keysOf r m) then None else m !! k) -> m' = without r m.
Proof.
  intros E. apply map_eq. intros k. rewrite E. unfold without. case_decide as Hd; rewrite elem_of_keysOf in Hd.
  - symmetry. apply map_lookup_filter_None. right. intros x Hx Hne. cbn in Hne. congruence.
  - destruct (m !! k) as [r'|] eqn:Hk; symmetry.
    + apply map_lookup_filter_Some. split; [done|]. cbn. congruence.
    + apply map_lookup_filter_None. by left.
Qed.
End keys.

Lemma removeGlobals_spec r keys : forall s, counted s -> NoDup keys ->
  (forall k, k ∈ keys -> m_globalMessageReceivers s !! k = Some r) ->
  exists s', forEach removeGlobalMessageReceiver keys s = Done s' /\ counted s' /\
    m_messageReceivers s' = m_messageReceivers s /\
    forall k, m_globalMessageReceivers s' !! k = if decide (k ∈ keys) then None else m_globalMessageReceivers s !! k.
Proof.
  induction keys as [|k keys IH]; intros s Hc Hnd Hk; cbn [forEach].
  { exists s. split_and!; [done..|]. intros k. rewrite decide_False; [done|]. apply not_elem_of_nil. }
  apply NoDup_cons in Hnd as [Hkn Hnd]. destruct (removeGlobal_spec k r s Hc) as (s1 & -> & C1 & G1 & R1); [apply Hk; left|].
  cbn [outcome_bind]. destruct (IH s1 C1 Hnd) as (s2 & -> & C2 & R2 & G2).
  { intros k' Hin. rewrite G1, lookup_delete_ne by (intros ->; done). apply Hk. by right. }
  exists s2. split_and!; [done|done|congruence|]. intros k'. rewrite G2, G1.
  destruct (decide (k' = k)) as [->|Hne].
  - rewrite lookup_delete_eq, (decide_True (P := k ∈ k :: keys)) by left. by case_decide.
  - rewrite lookup_delete_ne by done. apply decide_ext. rewrite elem_of_cons. tauto.
Qed.

Lemma removeAts_spec r keys : forall s, counted s -> NoDup keys ->
  (forall k, k ∈ keys -> m_messageReceivers s !! k = Some r) ->
  exists s', forEach (fun key => removeMessageReceiverAt (fst key) (snd key)) keys s = Done s' /\ counted s' /\
    m_globalMessageReceivers s' = m_globalMessageReceivers s /\
    forall k, m_messageReceivers s' !! k = if decide (k ∈ keys) then None else m_messageReceivers s !! k.
Proof.
  induction keys as [|k keys IH]; intros s Hc Hnd Hk; cbn [forEach].
  { exists s. split_and!; [done..|]. intros k. rewrite decide_False; [done|]. apply not_elem_of_nil. }
  apply NoDup_cons in Hnd as [Hkn Hnd].
  destruct (removeAt_spec (fst k) (snd k) r s Hc) as (s1 & -> & C1 & G1 & R1); [rewrite <- surjective_pairing; apply Hk; left|].
  rewrite <- surjective_pairing in G1. cbn [outcome_bind]. destruct (IH s1 C1 Hnd) as (s2 & -> & C2 & R2 & G2).
  { intros k' Hin. rewrite G1, lookup_delete_ne by (intros ->; done). apply Hk. by right. }
  exists s2. split_and!; [done|done|congruence|]. intros k'. rewrite G2, G1.
  destruct (decide (k' = k)) as [->|Hne].
  - rewrite lookup_delete_eq, (decide_True (P := k ∈ k :: keys)) by left. by case_decide.
  - rewrite lookup_delete_ne by done. apply decide_ext. rewrite elem_of_cons. tauto.
Qed.

Lemma removeMessageReceiver_spec r s : counted s ->
  exists s', removeMessageReceiver r s = Done s' /\ counted s' /\
    m_globalMessageReceivers s' = without r (m_globalMessageReceivers s) /\
    m_messageReceivers s' = without r (m_messageReceivers s).
Proof.
  intros Hc. unfold removeMessageReceiver.
  destruct (removeGlobals_spec r (keysOf r (m_globalMessageReceivers s)) s Hc) as (s1 & -> & C1 & R1 & G1);
    [apply NoDup_keysOf|intros k; by rewrite elem_of_keysOf|].
  cbn [outcome_bind]. rewrite R1.
  destruct (removeAts_spec r (keysOf r (m_messageReceivers s)) s1 C1) as (s2 & -> & C2 & G2 & R2);
    [apply NoDup_keysOf|intros k; by rewrite R1, elem_of_keysOf|].
  exists s2. split_and!; [done|done| |].
  - rewrite G2. by apply deleted_is_without.
  - apply deleted_is_without. intros k. by rewrite R2, R1.
Qed.

Lemma invalidate_spec s : counted s ->
  exists s', invalidate s = Done s' /\ counted s' /\ m_globalMessageReceivers s' = ∅ /\ m_messageReceivers s' = ∅.
Proof.
  intros Hc. unfold invalidate.
  destruct (removed_all (map snd (map_to_list (m_globalMessageReceivers s))) _ s Hc) as (s1 & -> & [G1 R1] & C1).
  { intros r. unfold entries, entriesIn. pose proof (occ_nonneg r (map snd (map_to_list (m_messageReceivers s)))). lia. }
  cbn [outcome_bind setGlobal m_messageReceivers].
  destruct (removed_all (map snd (map_to_list (m_messageReceivers s1))) _ (setGlobal ∅ s1) C1) as (s2 & -> & [G2 R2] & C2).
  { intros r. unfold entries, entriesIn. rewrite R1. lia. }
  cbn [outcome_bind]. eexists. split; [done|]. cbn. rewrite G2. split_and!; [|done..].
  intros r. destruct (C2 r) as [E B]. unfold entries, entriesIn in *. cbn. rewrite G2. cbn [setGlobal m_globalMessageReceivers].
  rewrite R1, !map_to_list_empty in *. cbn. split; [rewrite E; f_equal; lia|lia].
Qed.

(** ** Runs *)

(** The table and the counters agree, and no receiver has more than [n] entries. *)
Definition consistent (n : Z) (s : MessageReceiverMap) : Prop := counted s /\ forall r, entries r s <= n.

Lemma entries_without r r' {K} `{Countable K} (m : gmap K MessageReceiver) :
  entriesIn r' (without r m) = if decide (r' = r) then 0 else entriesIn r' m.
Proof.
  induction m as [|k v m Hk IH] using map_ind; [by case_decide|]. unfold without in *. rewrite map_filter_insert.
  rewrite entriesIn_insert by done. destruct (decide ((k, v).2 <> r)) as [Hd|Hd]; cbn in Hd.
  - rewrite entriesIn_insert, IH by (apply map_lookup_filter_None; by left). repeat case_decide; congruence || lia.
  - rewrite delete_id, IH by done. repeat case_decide; congruence || lia.
Qed.

Lemma added_counted r s s' :
  counted s -> (forall r', entries r' s' = one r r' + entries r' s) -> (forall r', entries r' s' < 2 ^ 32) ->
  m_messageReceiverMapCount s' = m_messageReceiverMapCount (willBeAddedToMessageReceiverMap r s) -> counted s'.
Proof.
  intros Hc He Hb Hn r'. rewrite Hn, He. destruct (Hc r') as [E B]. specialize (Hb r'). rewrite He in Hb.
  unfold one in *. cbn. split; [|case_decide; lia]. destruct (decide (r' = r)) as [->|Hne].
  - rewrite upd_same, decide_True in * by done. rewrite E, wrap_add_l by done. f_equal. lia.
  - rewrite upd_other by done. by rewrite decide_False by congruence.
Qed.

Lemma perform_consistent n op s s' :
  0 <= n < 2 ^ 32 - 1 -> consistent n s -> perform op s = Done s' -> consistent (n + 1) s'.
Proof.
  intros Hn [Hc Hb]. destruct op as [name r|name dest r|name|name dest|r|]; cbn [perform].
  - unfold addGlobalMessageReceiver, ASSERT. case_bool_decide as Hk; [|done]. cbn [outcome_bind]. intros [= <-].
    set (s' := setGlobal _ _). assert (He : forall r', entries r' s' = one r r' + entries r' s)
      by (intros; unfold entries, s'; cbn; rewrite entriesIn_insert by done; unfold one; lia).
    assert (Hb' : forall r', entries r' s' <= n + 1) by (intros r'; rewrite He; specialize (Hb r'); unfold one; case_decide; lia).
    split; [|done]. apply (added_counted r s s'); [done|done| |done]. intros r'. specialize (Hb' r'). lia.
  - unfold addMessageReceiver, ASSERT. destruct (negb _); [|done]. cbn [outcome_bind].
    case_bool_decide as Hk; [|done]. cbn [outcome_bind]. case_bool_decide; [|done]. cbn [outcome_bind]. intros [= <-].
    set (s' := setReceivers _ _). assert (He : forall r', entries r' s' = one r r' + entries r' s)
      by (intros; unfold entries, s'; cbn; rewrite entriesIn_insert by done; unfold one; lia).
    assert (Hb' : forall r', entries r' s' <= n + 1) by (intros r'; rewrite He; specialize (Hb r'); unfold one; case_decide; lia).
    split; [|done]. apply (added_counted r s s'); [done|done| |done]. intros r'. specialize (Hb' r'). lia.
  - intros E. destruct (m_globalMessageReceivers s !! name) as [r|] eqn:Hk; [|unfold removeGlobalMessageReceiver in E; by rewrite Hk in E].
    destruct (removeGlobal_spec name r s Hc Hk) as (s1 & E1 & C1 & G1 & R1). rewrite E in E1. injection E1 as <-.
    split; [done|]. intros r'. specialize (Hb r'). unfold entries in *. rewrite G1, R1.
    rewrite (entriesIn_delete r' name r) in Hb by done. case_decide; lia.
  - intros E. destruct (m_messageReceivers s !! (name, dest)) as [r|] eqn:Hk; [|unfold removeMessageReceiverAt in E; by rewrite Hk in E].
    destruct (removeAt_spec name dest r s Hc Hk) as (s1 & E1 & C1 & G1 & R1). rewrite E in E1. injection E1 as <-.
    split; [done|]. intros r'. specialize (Hb r'). unfold entries in *. rewrite G1, R1.
    rewrite (entriesIn_delete r' (name, dest) r (m_messageReceivers s)) in Hb by done. case_decide; lia.
  - intros E. destruct (removeMessageReceiver_spec r s Hc) as (s1 & E1 & C1 & G1 & R1). rewrite E in E1. injection E1 as <-.
    split; [done|]. intros r'. specialize (Hb r'). unfold entries in *. rewrite G1, R1.
    rewrite !entries_without. case_decide; lia.
  - intros E. destruct (invalidate_spec s Hc) as (s1 & E1 & C1 & G1 & R1). rewrite E in E1. injection E1 as <-.
    split; [done|]. intros r'. unfold entries, entriesIn. rewrite G1, R1, !map_to_list_empty. cbn. lia.
Qed.

Lemma run_consistent ops : forall n s s',
  0 <= n -> n + Z.of_nat (length ops) < 2 ^ 32 -> consistent n s -> run ops s = Done s' ->
  consistent (n + Z.of_nat (length ops)) s'.
Proof.
  induction ops as [|op ops IH]; intros n s s' H0 Hn Hc; unfold run; cbn [forEach length] in *.
  { intros [= <-]. by rewrite Z.add_0_r. }
  destruct (perform op s) as [s1| | |] eqn:E; try done. cbn [outcome_bind]. intros Hr.
  apply (perform_consistent n) in E; [|lia|done]. replace (n + _) with ((n + 1) + Z.of_nat (length ops)) by lia.
  apply (IH _ s1); [lia|lia|done|done].
Qed.

(** ** What the counts say *)

Lemma counted_exact r s : counted s -> m_messageReceiverMapCount s r = entries r s.
Proof. intros Hc. destruct (Hc r) as [-> B]. by apply wrap_small. Qed.

Definition noEntry (r : MessageReceiver) (s : MessageReceiverMap) : Prop :=
  (forall name, m_globalMessageReceivers s !! name <> Some r) /\ (forall key, m_messageReceivers s !! key <> Some r).

Lemma counted_zero r s : counted s -> m_messageReceiverMapCount s r = 0 <-> noEntry r s.
Proof.
  intros Hc. rewrite counted_exact by done. unfold entries, noEntry.
  pose proof (entriesIn_nonneg r (m_globalMessageReceivers s)). pose proof (entriesIn_nonneg r (m_messageReceivers s)).
  rewrite <- !entriesIn_zero. lia.
Qed.

Lemma undispatched r s : noEntry r s -> forall name dest, dispatchMessage name dest s <> Done (Some r).
Proof.
  intros [H1 H2] name dest. unfold dispatchMessage. specialize (H1 name). specialize (H2 (name, dest)).
  destruct (m_globalMessageReceivers s !! name); [case_match; congruence|]. congruence.
Qed.

(** All entries of the receiver are for a destination, under names that have a receiver for
    the whole name. *)
Definition hidden (r : MessageReceiver) (s : MessageReceiverMap) : Prop :=
  (forall name, m_globalMessageReceivers s !! name <> Some r) /\
  (forall name dest, m_messageReceivers s !! (name, dest) = Some r -> is_Some (m_globalMessageReceivers s !! name)).

Lemma hidden_undispatched r s : hidden r s -> forall name dest, dispatchMessage name dest s <> Done (Some r).
Proof.
  intros [Hg Hr] name dest. unfold dispatchMessage. destruct (m_globalMessageReceivers s !! name) as [r'|] eqn:E; [case_match; congruence|].
  intros [= Hd]. destruct (Hr name dest Hd). congruence.
Qed.

Lemma entry_dispatched r s : (exists name dest, dispatchMessage name dest s = Done (Some r)) \/ hidden r s.
Proof.
  destruct (keysOf r (m_globalMessageReceivers s)) as [|name l] eqn:E1.
  - destruct (List.filter (fun key => bool_decide (m_globalMessageReceivers s !! key.1 = None)) (keysOf r (m_messageReceivers s))) as [|[name dest] l] eqn:E2.
    + right. split.
      * intros name Hk%elem_of_keysOf. rewrite E1 in Hk. by apply elem_of_nil in Hk.
      * intros name dest Hk%elem_of_keysOf. destruct (m_globalMessageReceivers s !! name) eqn:Hg; [by eexists|]. exfalso.
        apply (in_nil (a := (name, dest))). rewrite <- E2. apply filter_In. split; [by apply list_elem_of_In|]. by apply bool_decide_eq_true.
    + left. exists name, dest. assert (Hin : In (name, dest) ((name, dest) :: l)) by (by left). rewrite <- E2 in Hin.
      apply filter_In in Hin as [Hk%list_elem_of_In%elem_of_keysOf Hg%bool_decide_eq_true]. unfold dispatchMessage. cbn in Hg. by rewrite Hg, Hk.
  - left. exists name, 0. assert (Hk : m_globalMessageReceivers s !! name = Some r) by (apply elem_of_keysOf; rewrite E1; left).
    unfold dispatchMessage. by rewrite Hk.
Qed.

(** ** Theorem *)


Definition sampleRun : list Operation := [AddGlobal 1 7; Add 2 5 7; Add 2 6 8; RemoveGlobal 1; Remove 8].


End MessageReceiverMap.
