(* ===== verification/UnixTransport.v ===== *)
(** * Platform/IPC/unix/ConnectionUnix.cpp: messages over a Unix domain socket

    How an encoded message becomes the bytes and descriptors of a [sendmsg] call
    ([sendOutgoingMessage], [sendOutputMessage]) and how the receiver cuts the bytes it
    reads back into messages ([readyReadHandler], [processMessage]).  A message is a
    fixed header, one record per attachment and the body; a body that does not fit goes
    into shared memory, whose descriptor is the last attachment.  The system calls and
    [SharedMemory] are parameters. *)

From S2P Require Import Prelude Encoder Decoder.

Module UnixTransport.
Import Encoder.
Local Open Scope outcome_scope.

Definition messageMaxSize : Z := 4096.
Definition attachmentMaxAmount : Z := 254.

(** ** What travels *)

(** [class MessageInfo]: two [size_t] and a [bool], zeroed before use. *)
Record MessageInfo := mkMessageInfo {
  info_bodySize : Z;
  info_attachmentCount : Z;
  info_isBodyOutOfLine : bool
}.
Definition sizeof_MessageInfo : Z := 24.
Definition messageInfo_image (i : MessageInfo) : bytes :=
  le_split 8 (info_bodySize i) ++ le_split 8 (info_attachmentCount i) ++
  le_split 1 (if info_isBodyOutOfLine i then 1 else 0) ++ zeros 7.
Definition messageInfo_read (b : bytes) : MessageInfo :=
  mkMessageInfo (le_combine (take 8 b)) (le_combine (take 8 (drop 8 b)))
    (negb (le_combine (take 1 (drop 16 b)) =? 0)).

(** [class AttachmentInfo]: the type as an [unsigned], a [bool] and a [size_t]. *)
Record AttachmentInfo := mkAttachmentInfo {
  ai_type : Z;
  ai_isNull : bool;
  ai_size : Z
}.
Definition sizeof_AttachmentInfo : Z := 16.
Definition type_code (t : AttachmentType) : Z :=
  match t with Uninitialized => 0 | SocketType => 1 | MappedMemoryType => 2 end.
(** The three bytes after the [bool] are padding, with whatever was there. *)
Definition attachmentInfo_image (pad : bytes) (i : AttachmentInfo) : bytes :=
  le_split 4 (ai_type i) ++ le_split 1 (if ai_isNull i then 1 else 0) ++ pad ++ le_split 8 (ai_size i).
Definition attachmentInfo_read (b : bytes) : AttachmentInfo :=
  mkAttachmentInfo (le_combine (take 4 b)) (negb (le_combine (take 1 (drop 4 b)) =? 0)) (le_combine (take 8 (drop 8 b))).

Fixpoint attachmentInfos_read (n : nat) (b : bytes) : list AttachmentInfo :=
  match n with
  | O => []
  | S n' => attachmentInfo_read b :: attachmentInfos_read n' (drop 16 b)
  end.

(** ** Sending *)

Record UnixMessage := mkUnixMessage {
  attachments : list Attachment;
  messageInfo : MessageInfo;
  body : bytes
}.

Definition setBodyOutOfLine (i : MessageInfo) : MessageInfo :=
  mkMessageInfo (info_bodySize i) (info_attachmentCount i + 1) true.

Definition appendAttachment (a : Attachment) (m : UnixMessage) : UnixMessage :=
  mkUnixMessage (attachments m ++ [a]) (messageInfo m) (body m).

(** [UnixMessage(Encoder&)]. *)
Definition fromEncoder (e : Encoder) : UnixMessage :=
  mkUnixMessage (m_attachments e)
    (mkMessageInfo (m_bufferSize e) (Z.of_nat (length (m_attachments e))) false) (contents e).

Section transport.
(** [SharedMemory::allocate] with the copied bytes, and its read-only handle. *)
Variable allocateShared : bytes -> option Z.
(** [SharedMemory::map] of a descriptor, for reading. *)
Variable mapShared : Z -> Z -> option bytes.
(** Uninitialised padding. *)
Variable pad : bytes.
(** [isValidMessageName] and the address [Decoder::create] copies a message to. *)
Variable isValidMessageName : Z -> bool.
Variable copyAddress : Z.

Definition attachmentInfo_of (a : Attachment) : AttachmentInfo :=
  match attachment_type a with
  | MappedMemoryType => mkAttachmentInfo 2 (fileDescriptor a =? -1) (attachment_size a)
  | SocketType => mkAttachmentInfo 1 (fileDescriptor a =? -1) 0
  | Uninitialized => mkAttachmentInfo 0 false 0
  end.

(** The descriptors of the control message: those of the attachments with one, in a zeroed
    block for as many descriptors as there are attachments that are not null. *)
Definition descriptorOf (a : Attachment) : list Z :=
  match attachment_type a with
  | Uninitialized => []
  | _ => if fileDescriptor a =? -1 then [] else [fileDescriptor a]
  end.
Definition sentDescriptors (atts : list Attachment) : list Z :=
  let attachmentFDBufferLength := length (List.filter (fun a => negb (fileDescriptor a =? -1)) atts) in
  let fds := concat (map descriptorOf atts) in
  fds ++ replicate (attachmentFDBufferLength - length fds) 0.

(** One [sendmsg] call: the bytes of its vectors and the descriptors with them. *)
Definition outputBytes (m : UnixMessage) : bytes :=
  messageInfo_image (messageInfo m) ++
  concat (map (fun a => attachmentInfo_image pad (attachmentInfo_of a)) (attachments m)) ++
  (if info_isBodyOutOfLine (messageInfo m) then [] else body m).

(** What the system answers to [sendmsg], after interrupted calls have been repeated. *)
Inductive SendResult := Sent | WouldBlock | PeerClosed | SendError.

Record Sender := mkSender {
  m_pendingOutputMessage : option UnixMessage;
  sender_connected : bool;               (* cleared by connectionDidClose *)
  wire : list (bytes * list Z)           (* what was handed to the socket *)
}.

Definition sendOutputMessage (r : SendResult) (m : UnixMessage) (s : Sender) : bool * Sender :=
  match r with
  | Sent => (true, mkSender (m_pendingOutputMessage s) (sender_connected s)
                     (wire s ++ [(outputBytes m, sentDescriptors (attachments m))]))
  | WouldBlock => (false, mkSender (Some m) (sender_connected s) (wire s))
  | PeerClosed => (false, mkSender (m_pendingOutputMessage s) false (wire s))
  | SendError => (false, s)
  end.

Definition platformCanSendOutgoingMessages (s : Sender) : bool :=
  match m_pendingOutputMessage s with None => true | Some _ => false end.

(** The message as it is going to be sent, or [None] if it cannot be. *)
Definition prepareMessage (e : Encoder) : option UnixMessage :=
  let outputMessage := fromEncoder e in
  if attachmentMaxAmount - 1 <? Z.of_nat (length (attachments outputMessage)) then None else
  let messageSizeWithBodyInline :=
    sizeof_MessageInfo + Z.of_nat (length (attachments outputMessage)) * sizeof_AttachmentInfo +
    info_bodySize (messageInfo outputMessage) in
  if (messageMaxSize <? messageSizeWithBodyInline) && negb (info_bodySize (messageInfo outputMessage) =? 0) then
    match allocateShared (body outputMessage) with
    | None => None
    | Some fd =>
        let outputMessage := mkUnixMessage (attachments outputMessage)
          (setBodyOutOfLine (messageInfo outputMessage)) (body outputMessage) in
        Some (appendAttachment (mappedMemory fd (m_bufferSize e)) outputMessage)
    end
  else Some outputMessage.

Definition sendOutgoingMessage (r : SendResult) (e : Encoder) (s : Sender) : bool * Sender :=
  match prepareMessage e with
  | None => (false, s)
  | Some m => sendOutputMessage r m s
  end.

(** The write monitor: the socket has room again. *)
Definition writable (r : SendResult) (s : Sender) : Sender :=
  match m_pendingOutputMessage s with
  | None => s
  | Some m =>
      let s := mkSender None (sender_connected s) (wire s) in
      if sender_connected s then snd (sendOutputMessage r m s) else s
  end.

(** ** Receiving *)

Record Receiver := mkReceiver {
  m_readBuffer : bytes;
  m_fileDescriptors : list Z;
  receiver_closed : bool;                (* connectionDidClose was called *)
  delivered : list Decoder.Decoder;      (* processIncomingMessage *)
  closed : list Z                        (* descriptors closed by the receiver *)
}.

Definition emptyReceiver : Receiver := mkReceiver [] [] false [] [].

(** The destructor of [Attachment]. *)
Definition closedBy (atts : list Attachment) : list Z :=
  List.filter (fun fd => negb (fd =? -1)) (map fileDescriptor atts).

Definition countDescriptors (infos : list AttachmentInfo) : Z :=
  Z.of_nat (length (List.filter (fun i => ((ai_type i =? 2) || (ai_type i =? 1)) && negb (ai_isNull i)) infos)).

(** The loop that pairs attachments with received descriptors.  The vector it fills is
    in reverse order.  Subscripts are checked by [Vector] and abort. *)
Fixpoint takeAttachments (infos : list AttachmentInfo) (fdIndex : nat) (fds : list Z) : outcome (list Attachment) :=
  match infos with
  | [] => Done []
  | i :: infos' =>
      if (ai_type i =? 2) || (ai_type i =? 1) then
        let make fd := if ai_type i =? 2 then mappedMemory fd (ai_size i) else socket fd in
        if ai_isNull i then
          let! rest := takeAttachments infos' fdIndex fds in Done (rest ++ [make (-1)])
        else
          match fds !! fdIndex with
          | None => Crash
          | Some fd => let! rest := takeAttachments infos' (S fdIndex) fds in Done (rest ++ [make fd])
          end
      else let! rest := takeAttachments infos' fdIndex fds in Done (rest ++ [noAttachment])
  end.

(** The body in shared memory, behind the last attachment record; [None] when the
    message is given up.  Mapping the descriptor closes it. *)
Definition outOfLineBody (info : MessageInfo) (infos : list AttachmentInfo) (attachmentCount : nat)
    (descriptorCount : Z) (fds : list Z) : outcome (option bytes * list Z) :=
  match infos !! attachmentCount with
  | None => Crash
  | Some last =>
      if ai_isNull last || negb (ai_size last =? info_bodySize info) then Done (None, []) else
      match fds !! Z.to_nat (wrap 64 (descriptorCount - 1)) with
      | None => Crash
      | Some fd => Done (mapShared fd (ai_size last), [fd])
      end
  end.

Definition processMessage (s : Receiver) : outcome (bool * Receiver) :=
  let size := blen (m_readBuffer s) in
  if size <? sizeof_MessageInfo then Done (false, s) else
  let info := messageInfo_read (m_readBuffer s) in
  let messageData := drop 24 (m_readBuffer s) in
  if (attachmentMaxAmount <? info_attachmentCount info)
     || (negb (info_isBodyOutOfLine info) && (messageMaxSize <? info_bodySize info)) then Done (false, s) else
  let messageLength := sizeof_MessageInfo + info_attachmentCount info * sizeof_AttachmentInfo +
    (if info_isBodyOutOfLine info then 0 else info_bodySize info) in
  if size <? messageLength then Done (false, s) else
  let attachmentCount := Z.to_nat (info_attachmentCount info) in
  let infos := attachmentInfos_read attachmentCount messageData in
  let messageData := drop (16 * attachmentCount) messageData in
  let descriptorCount := countDescriptors infos in
  let attachmentCount := if info_isBodyOutOfLine info then (attachmentCount - 1)%nat else attachmentCount in
  let! atts := takeAttachments (take attachmentCount infos) 0 (m_fileDescriptors s) in
  let! bodyAndClosed :=
    (if info_isBodyOutOfLine info
     then outOfLineBody info infos attachmentCount descriptorCount (m_fileDescriptors s)
     else Done (Some (take (Z.to_nat (info_bodySize info)) messageData), [])) in
  let givenUp := (false, mkReceiver (m_readBuffer s) (m_fileDescriptors s) (receiver_closed s) (delivered s)
                           (closed s ++ snd bodyAndClosed ++ closedBy atts)) in
  match fst bodyAndClosed with
  | None => Done givenUp
  | Some messageBody =>
      match Decoder.create isValidMessageName copyAddress messageBody atts with
      | None => Done givenUp
      | Some decoder =>
          Done (true, mkReceiver (drop (Z.to_nat messageLength) (m_readBuffer s))
                        (drop (Z.to_nat descriptorCount) (m_fileDescriptors s))
                        (receiver_closed s) (delivered s ++ [decoder]) (closed s ++ snd bodyAndClosed))
      end
  end.

(** [while (true) { if (!processMessage()) break; }] *)
Fixpoint processMessages (fuel : nat) (s : Receiver) : outcome Receiver :=
  match fuel with
  | O => Diverge
  | S fuel' =>
      let! r := processMessage s in
      if fst r : bool then processMessages fuel' (snd r) else Done (snd r)
  end.

(** The error numbers [readyReadHandler] tells apart. *)
Inductive Errno := EAGAIN | ECONNRESET | OtherErrno.

(** What [recvmsg] gives, after interrupted calls have been repeated. *)
Inductive RecvResult :=
| Received (data : bytes) (fds : list Z)     (* no data: the peer closed the socket *)
| ControlTruncated (stale : Errno)           (* MSG_CTRUNC, with the errno of an earlier call *)
| Failed (errno : Errno).

(** [readBytesFromSocket]: the bytes and descriptors are appended; a negative result
    leaves the buffer as it was. *)
Definition readBytesFromSocket (r : RecvResult) (s : Receiver) : Z * Receiver :=
  match r with
  | Received data fds =>
      (blen data, mkReceiver (m_readBuffer s ++ data) (m_fileDescriptors s ++ fds) (receiver_closed s) (delivered s) (closed s))
  | _ => (-1, s)
  end.

Definition connectionDidClose (s : Receiver) : Receiver :=
  mkReceiver (m_readBuffer s) (m_fileDescriptors s) true (delivered s) (closed s).

(** [readyReadHandler], over the answers of the socket. *)
Fixpoint readyReadHandler (rs : list RecvResult) (s : Receiver) : outcome Receiver :=
  match rs with
  | [] => Done s
  | r :: rs' =>
      let '(bytesRead, s1) := readBytesFromSocket r s in
      if bytesRead <? 0 then
        match r with
        | ControlTruncated EAGAIN | Failed EAGAIN => Done s1
        | _ => Done (connectionDidClose s1)
        end
      else if bytesRead =? 0 then Done (connectionDidClose s1)
      else
        let! s2 := processMessages (S (length (m_readBuffer s1))) s1 in
        readyReadHandler rs' s2
  end.

(** ** Reading back headers *)

Lemma take_field n x (r : bytes) : take n (le_split n x ++ r) = le_split n x.
Proof. by rewrite take_app_length' by (by rewrite length_le_split). Qed.
Lemma drop_field n m x (r : bytes) : drop (n + m) (le_split n x ++ r) = drop m r.
Proof. by rewrite drop_app_ge, length_le_split, Nat.add_comm, Nat.add_sub by (rewrite length_le_split; lia). Qed.
Lemma field_value n x : 0 <= x < 2 ^ (Z.of_nat n * 8) -> le_combine (le_split n x) = x.
Proof. intros. by rewrite le_combine_split, Z.mod_small. Qed.

Lemma length_messageInfo i : length (messageInfo_image i) = 24%nat.
Proof. unfold messageInfo_image. by rewrite !length_app, !length_le_split. Qed.

Lemma messageInfo_roundtrip i rest :
  0 <= info_bodySize i < 2 ^ 64 -> 0 <= info_attachmentCount i < 2 ^ 64 ->
  messageInfo_read (messageInfo_image i ++ rest) = i.
Proof.
  intros Hb Ha. unfold messageInfo_read, messageInfo_image. rewrite <- !app_assoc.
  rewrite (drop_field 8 0), (drop_field 8 8), (drop_field 8 0), !drop_0, !take_field.
  rewrite !field_value by (destruct (info_isBodyOutOfLine i); simpl; lia).
  destruct i as [b a o]. by destruct o.
Qed.

Definition attachment_ok (a : Attachment) : Prop :=
  match attachment_type a with
  | MappedMemoryType => 0 <= attachment_size a < 2 ^ 64
  | SocketType => attachment_size a = 0
  | Uninitialized => a = noAttachment
  end.

Definition descriptors (atts : list Attachment) : list Z := concat (map descriptorOf atts).

Lemma descriptors_app l l' : descriptors (l ++ l') = descriptors l ++ descriptors l'.
Proof. unfold descriptors. by rewrite map_app, concat_app. Qed.

Lemma length_descriptors atts : (length (descriptors atts) <= length atts)%nat.
Proof.
  unfold descriptors. induction atts as [|a atts IH]; [done|]. cbn [map concat length]. rewrite length_app.
  assert (length (descriptorOf a) <= 1)%nat; [|lia]. unfold descriptorOf.
  destruct (attachment_type a); [simpl; lia| |]; destruct (_ =? -1); simpl; lia.
Qed.

Section padded.
Hypothesis pad_length : length pad = 3%nat.

Lemma length_attachmentInfo i : length (attachmentInfo_image pad i) = 16%nat.
Proof. unfold attachmentInfo_image. by rewrite !length_app, !length_le_split, pad_length. Qed.

Lemma attachmentInfo_roundtrip a rest :
  attachment_ok a -> attachmentInfo_read (attachmentInfo_image pad (attachmentInfo_of a) ++ rest) = attachmentInfo_of a.
Proof.
  intros Ha. set (i := attachmentInfo_of a).
  assert (Hi : 0 <= ai_type i < 2 ^ 32 /\ 0 <= ai_size i < 2 ^ 64).
  { unfold i, attachmentInfo_of, attachment_ok in *. destruct (attachment_type a); simpl; lia. }
  unfold attachmentInfo_read, attachmentInfo_image. rewrite <- !app_assoc.
  rewrite (drop_field 4 0), (drop_field 4 4), (drop_field 1 3), !drop_0, !take_field.
  rewrite drop_app_length', take_field by done.
  rewrite !field_value by (destruct (ai_isNull i); simpl; lia).
  destruct i as [ty n sz]. by destruct n.
Qed.

Definition infos_image (atts : list Attachment) : bytes :=
  concat (map (fun a => attachmentInfo_image pad (attachmentInfo_of a)) atts).

Lemma length_infos atts : length (infos_image atts) = (16 * length atts)%nat.
Proof.
  unfold infos_image. induction atts as [|a atts IH]; [done|]. cbn [map concat length]. rewrite length_app, length_attachmentInfo, IH. lia.
Qed.

Lemma attachmentInfos_roundtrip atts rest :
  Forall attachment_ok atts -> attachmentInfos_read (length atts) (infos_image atts ++ rest) = map attachmentInfo_of atts.
Proof.
  induction 1 as [|a atts Ha _ IH]; [done|]. unfold infos_image in *.
  cbn [map concat length attachmentInfos_read]. rewrite <- app_assoc.
  rewrite attachmentInfo_roundtrip by done. rewrite drop_app_length' by (by rewrite length_attachmentInfo). by rewrite IH.
Qed.

(** ** Pairing descriptors *)

Lemma sentDescriptors_ok atts : Forall attachment_ok atts -> sentDescriptors atts = descriptors atts.
Proof.
  intros Hok. unfold sentDescriptors. fold (descriptors atts).
  assert (length (List.filter (fun a => negb (fileDescriptor a =? -1)) atts) = length (descriptors atts)) as ->.
  { induction Hok as [|a atts Ha _ IH]; [done|]. unfold descriptors in *. simpl. rewrite length_app, <- IH.
    unfold descriptorOf, attachment_ok in *. destruct (attachment_type a) eqn:E; [subst a; done| |];
      by destruct (fileDescriptor a =? -1). }
  by rewrite Nat.sub_diag, app_nil_r.
Qed.

Lemma countDescriptors_ok atts : countDescriptors (map attachmentInfo_of atts) = Z.of_nat (length (descriptors atts)).
Proof.
  unfold countDescriptors. f_equal. induction atts as [|a atts IH]; [done|]. unfold descriptors in *. simpl.
  rewrite length_app, <- IH. unfold descriptorOf, attachmentInfo_of.
  destruct (attachment_type a); simpl; [done| |]; by destruct (fileDescriptor a =? -1).
Qed.

Lemma closedBy_descriptors atts : Forall attachment_ok atts -> closedBy (rev atts) = rev (descriptors atts).
Proof.
  induction 1 as [|a atts Ha _ IH]; [done|]. unfold closedBy, descriptors in *. cbn. rewrite map_app, List.filter_app, IH, rev_app_distr. f_equal.
  unfold descriptorOf, attachment_ok in *. destruct a as [ty fd sz]. cbn in *. destruct ty; cbn; [by injection Ha as -> ->|by destruct (fd =? -1)..].
Qed.

Lemma takeAttachments_ok atts : Forall attachment_ok atts -> forall k fds more,
  drop k fds = descriptors atts ++ more -> takeAttachments (map attachmentInfo_of atts) k fds = Done (rev atts).
Proof.
  induction 1 as [|a atts Ha _ IH]; intros k fds more Hd; [done|]. unfold descriptors in *. simpl in *.
  unfold descriptorOf, attachmentInfo_of, attachment_ok in *. destruct a as [ty fd sz]. simpl in *.
  assert (Hcons : forall x l, drop k fds = x :: l -> fds !! k = Some x /\ drop (S k) fds = l).
  { intros x l E. split; [rewrite <- (Nat.add_0_r k), <- lookup_drop, E; done|].
    rewrite <- Nat.add_1_r, <- drop_drop, E. done. }
  destruct ty; simpl.
  - rewrite (IH k fds more) by done. by rewrite Ha.
  - destruct (fd =? -1) eqn:E; simpl in *.
    + rewrite (IH k fds more) by done. zbool. by subst.
    + destruct (Hcons _ _ Hd) as [-> Hd']. rewrite (IH _ _ more) by done. by subst.
  - destruct (fd =? -1) eqn:E; simpl in *.
    + rewrite (IH k fds more) by done. zbool. by subst.
    + destruct (Hcons _ _ Hd) as [-> Hd']. by rewrite (IH _ _ more) by done.
Qed.
End padded.

(** ** One message *)

(** A message with body [b] and attachments [atts] as it is sent, and the descriptors
    the receiver closes when it has read it. *)
Inductive prepared (b : bytes) (atts : list Attachment) : UnixMessage -> list Z -> Prop :=
| prepared_inline :
    sizeof_MessageInfo + sizeof_AttachmentInfo * Z.of_nat (length atts) + blen b <= messageMaxSize ->
    prepared b atts (mkUnixMessage atts (mkMessageInfo (blen b) (Z.of_nat (length atts)) false) b) []
| prepared_outOfLine fd :
    fd <> -1 -> mapShared fd (blen b) = Some b -> blen b < 2 ^ 64 -> Z.of_nat (length atts) < attachmentMaxAmount ->
    prepared b atts (mkUnixMessage (atts ++ [mappedMemory fd (blen b)])
      (mkMessageInfo (blen b) (Z.of_nat (length atts) + 1) true) b) [fd].

(** The encoder is well formed. *)
Definition encoder_ok (e : Encoder) : Prop :=
  m_bufferSize e = blen (contents e) /\ blen (contents e) < 2 ^ 64 /\ Forall attachment_ok (m_attachments e).

Section messages.
Hypothesis pad_length : length pad = 3%nat.
(** Shared memory holds what was put there. *)
Hypothesis shared_memory : forall b fd, allocateShared b = Some fd -> fd <> -1 /\ mapShared fd (blen b) = Some b.

Lemma prepareMessage_spec e m :
  encoder_ok e -> prepareMessage e = Some m -> exists fds, prepared (contents e) (m_attachments e) m fds.
Proof.
  intros (Hs & Hl & _). unfold prepareMessage, fromEncoder. cbn [attachments messageInfo body info_bodySize]. rewrite Hs.
  destruct (attachmentMaxAmount - 1 <? _) eqn:E1; [done|]. zbool. unfold attachmentMaxAmount in *.
  destruct (_ && _) eqn:E2.
  - destruct (allocateShared (contents e)) as [fd|] eqn:E3; [|done]. intros [= <-]. destruct (shared_memory _ _ E3).
    exists [fd]. apply (prepared_outOfLine (contents e) (m_attachments e) fd); [done|done|done|unfold attachmentMaxAmount; lia].
  - intros [= <-]. exists []. apply (prepared_inline (contents e) (m_attachments e)). unfold messageMaxSize, sizeof_MessageInfo, sizeof_AttachmentInfo in *.
    apply andb_false_iff in E2 as [E2|E2]; zbool; lia.
Qed.

Context (b : bytes) (atts : list Attachment) (m : UnixMessage) (fds : list Z).
Context (Hprep : prepared b atts m fds) (Hatts : Forall attachment_ok atts).

Lemma prepared_info :
  messageInfo_read (outputBytes m) = messageInfo m /\ 0 <= info_attachmentCount (messageInfo m) <= attachmentMaxAmount /\
  info_attachmentCount (messageInfo m) = Z.of_nat (length (attachments m)) /\ info_bodySize (messageInfo m) = blen b /\
  (info_isBodyOutOfLine (messageInfo m) = false -> blen b <= messageMaxSize) /\ Forall attachment_ok (attachments m) /\
  body m = b.
Proof.
  pose proof (blen_nonneg b). unfold outputBytes.
  destruct Hprep as [Hl|fd ? ? ? Hc]; unfold sizeof_MessageInfo, sizeof_AttachmentInfo, messageMaxSize, attachmentMaxAmount in *;
    cbn [messageInfo attachments body info_bodySize info_attachmentCount info_isBodyOutOfLine];
    split_and!; first [done | lia | rewrite messageInfo_roundtrip; cbn; (done || lia) | rewrite length_app; simpl; lia | idtac].
  apply Forall_app. split; [done|]. repeat constructor; simpl; lia.
Qed.

Lemma length_outputBytes :
  blen (outputBytes m) = sizeof_MessageInfo + info_attachmentCount (messageInfo m) * sizeof_AttachmentInfo +
    (if info_isBodyOutOfLine (messageInfo m) then 0 else info_bodySize (messageInfo m)).
Proof.
  destruct prepared_info as (_ & _ & Hc & Hb & _ & _ & Hbody). unfold outputBytes. fold (infos_image (attachments m)).
  unfold blen at 1. rewrite !length_app, length_messageInfo, length_infos by done. rewrite Hc, Hb, Hbody.
  unfold sizeof_MessageInfo, sizeof_AttachmentInfo, blen. destruct (info_isBodyOutOfLine _); simpl; lia.
Qed.

Lemma outputBytes_bound : sizeof_MessageInfo <= blen (outputBytes m) <= messageMaxSize.
Proof.
  rewrite length_outputBytes. pose proof (blen_nonneg b).
  destruct Hprep as [Hl|fd ? ? ? Hc]; unfold sizeof_MessageInfo, sizeof_AttachmentInfo, messageMaxSize, attachmentMaxAmount in *;
    simpl; lia.
Qed.
Lemma outOfLineBody_ok fd n more :
  fd <> -1 -> mapShared fd (blen b) = Some b -> Z.of_nat (length atts) < attachmentMaxAmount ->
  let all := atts ++ [mappedMemory fd (blen b)] in
  outOfLineBody (mkMessageInfo (blen b) n true) (map attachmentInfo_of all) (length atts)
    (Z.of_nat (length (descriptors all))) (descriptors all ++ more) = Done (Some b, [fd]).
Proof.
  intros Hfd Hmap Hcount all. unfold outOfLineBody, all. rewrite map_app, descriptors_app.
  rewrite lookup_app_r, length_map, Nat.sub_diag by (rewrite length_map; lia).
  unfold descriptors at 2 4. cbn. rewrite (proj2 (Z.eqb_neq fd (-1)) Hfd), Z.eqb_refl. cbn.
  rewrite length_app. cbn. pose proof (length_descriptors atts). unfold attachmentMaxAmount in *.
  rewrite wrap_small by (unfold in_width; lia). replace (Z.to_nat _) with (length (descriptors atts)) by lia.
  rewrite <- app_assoc, lookup_app_r, Nat.sub_diag by lia. cbn. by rewrite Hmap.
Qed.

(** A message that has arrived completely is taken out of the buffer if a decoder can be made
    for it; otherwise it stays there, and what was made for it is closed. *)
Lemma processMessage_arrived rest more c del clo :
  let s := mkReceiver (outputBytes m ++ rest) (sentDescriptors (attachments m) ++ more) c del clo in
  processMessage s =
  Done (match Decoder.create isValidMessageName copyAddress b (rev atts) with
        | Some d => (true, mkReceiver rest more c (del ++ [d]) (clo ++ fds))
        | None => (false, mkReceiver (m_readBuffer s) (m_fileDescriptors s) c del (clo ++ fds ++ closedBy (rev atts)))
        end).
Proof.
  cbv zeta. pose proof prepared_info as (_ & Hc1 & Hc & Hb & Hin & Hok & Hbody).
  pose proof outputBytes_bound as Hlen. pose proof length_outputBytes as Hl.
  rewrite sentDescriptors_ok by done. unfold processMessage. cbn [m_readBuffer m_fileDescriptors].
  assert (Hinfo : messageInfo_read (outputBytes m ++ rest) = messageInfo m).
  { unfold outputBytes. rewrite <- app_assoc. pose proof (blen_nonneg b). unfold attachmentMaxAmount in *.
    apply messageInfo_roundtrip; [|lia]. rewrite Hb. destruct Hprep; simpl in *; [specialize (Hin eq_refl)|];
      unfold messageMaxSize in *; lia. }
  rewrite Hinfo, blen_app. pose proof (blen_nonneg rest).
  rewrite (proj2 (Z.ltb_ge _ sizeof_MessageInfo)) by lia. rewrite (proj2 (Z.ltb_ge attachmentMaxAmount _)) by lia.
  assert (negb (info_isBodyOutOfLine (messageInfo m)) && (messageMaxSize <? info_bodySize (messageInfo m)) = false) as ->.
  { destruct (info_isBodyOutOfLine (messageInfo m)) eqn:E; [done|]. simpl. apply Z.ltb_ge. rewrite Hb. by apply Hin. }
  cbn [orb]. rewrite <- Hl. rewrite (proj2 (Z.ltb_ge _ (blen (outputBytes m)))) by lia.
  rewrite Hc, Nat2Z.id.
  assert (Hdata : drop 24 (outputBytes m ++ rest) =
    infos_image (attachments m) ++ (if info_isBodyOutOfLine (messageInfo m) then [] else b) ++ rest).
  { unfold outputBytes. rewrite Hbody, <- !app_assoc. by rewrite drop_app_length' by (by rewrite length_messageInfo). }
  rewrite Hdata, attachmentInfos_roundtrip by done.
  rewrite (drop_app_length' (infos_image _)) by (rewrite length_infos; [lia|done]).
  rewrite countDescriptors_ok, Nat2Z.id. rewrite (drop_app_length' (outputBytes m)) by (unfold blen; lia).
  rewrite (drop_app_length (descriptors _)).
  destruct Hprep as [Hsz|fd Hfd Hmap Hsize Hcount];
    cbn [messageInfo attachments info_isBodyOutOfLine info_bodySize info_attachmentCount].
  - rewrite take_ge by (rewrite length_map; lia).
    rewrite (takeAttachments_ok atts Hatts 0 _ more) by done. cbn [outcome_bind fst snd].
    unfold blen. rewrite Nat2Z.id, take_app_length. by destruct (Decoder.create _ _ _ _).
  - rewrite length_app. cbn [length]. rewrite Nat.add_sub.
    pose proof (outOfLineBody_ok fd (Z.of_nat (length atts) + 1) more Hfd Hmap Hcount) as Hool.
    rewrite map_app, take_app_length' by (by rewrite length_map).
    assert (Htake : takeAttachments (map attachmentInfo_of atts) 0
      (descriptors (atts ++ [mappedMemory fd (blen b)]) ++ more) = Done (rev atts)).
    { apply (takeAttachments_ok atts Hatts 0 _ (descriptors [mappedMemory fd (blen b)] ++ more)).
      by rewrite drop_0, descriptors_app, <- app_assoc. }
    rewrite Htake. cbn [outcome_bind]. rewrite <- map_app, Hool. cbn [outcome_bind fst snd]. by destruct (Decoder.create _ _ _ _).
Qed.

(** A part of a message is left alone. *)
Lemma processMessage_partial q ds c del clo :
  Z.of_nat q < blen (outputBytes m) ->
  processMessage (mkReceiver (take q (outputBytes m)) ds c del clo) =
  Done (false, mkReceiver (take q (outputBytes m)) ds c del clo).
Proof.
  intros Hq. pose proof prepared_info as (Hinfo & Hc1 & Hc & Hb & Hin & _ & _). pose proof length_outputBytes as Hl.
  unfold processMessage. cbn [m_readBuffer]. unfold blen at 1 in Hq. unfold blen. rewrite length_take, Nat.min_l by lia.
  destruct (Z.of_nat q <? sizeof_MessageInfo) eqn:E; [done|]. zbool. unfold sizeof_MessageInfo in E.
  assert (messageInfo_read (take q (outputBytes m)) = messageInfo m) as ->.
  { rewrite <- Hinfo. unfold messageInfo_read. rewrite !skipn_firstn_comm, !firstn_firstn.
    by rewrite !Nat.min_l by lia. }
  destruct (_ || _); [done|]. rewrite <- Hl. by rewrite (proj2 (Z.ltb_lt _ _)) by (unfold blen; lia).
Qed.
End messages.

(** ** A stream of messages *)

(** The descriptor of a body in shared memory. *)
Definition outOfLineDescriptor (m : UnixMessage) : list Z :=
  if info_isBodyOutOfLine (messageInfo m) then
    match last (attachments m) with Some a => [fileDescriptor a] | None => [] end
  else [].

(** An encoder, the message it is sent as, and the decoder the receiver should make. *)
Record Transfer := mkTransfer { encoder : Encoder; message : UnixMessage; decoder : Decoder.Decoder }.
Definition transfer_ok (x : Transfer) : Prop :=
  encoder_ok (encoder x) /\ prepareMessage (encoder x) = Some (message x) /\
  Decoder.create isValidMessageName copyAddress (contents (encoder x)) (rev (m_attachments (encoder x))) = Some (decoder x).

Definition packet (x : Transfer) : bytes := outputBytes (message x).
Definition stream (xs : list Transfer) : bytes := concat (map packet xs).

Lemma stream_cons x xs : stream (x :: xs) = packet x ++ stream xs.
Proof. done. Qed.

(** The descriptors of the messages that begin within the first [q] bytes.  The system
    delivers descriptors with the first byte of the data they were sent with. *)
Fixpoint startsBefore (xs : list Transfer) (q : nat) : list Z :=
  match xs with
  | [] => []
  | x :: xs' =>
      if (q =? 0)%nat then []
      else sentDescriptors (attachments (message x)) ++ startsBefore xs' (q - length (packet x))
  end.

Section streams.
Hypothesis pad_length : length pad = 3%nat.
Hypothesis shared_memory : forall b fd, allocateShared b = Some fd -> fd <> -1 /\ mapShared fd (blen b) = Some b.

Lemma transfer_prepared x : transfer_ok x ->
  prepared (contents (encoder x)) (m_attachments (encoder x)) (message x) (outOfLineDescriptor (message x)).
Proof.
  intros (He & Hp & _). destruct (prepareMessage_spec pad_length shared_memory _ _ He Hp) as (fds & H).
  assert (fds = outOfLineDescriptor (message x)) as <-; [|done]. unfold outOfLineDescriptor.
  inversion H as [|fd ? ? ? ? Hm]; subst fds; [done|]. cbn. by rewrite last_snoc.
Qed.

Lemma packet_bound x : transfer_ok x -> (24 <= length (packet x) <= 4096)%nat.
Proof.
  intros H. pose proof (transfer_prepared x H) as Hp. destruct H as ((_ & _ & Ha) & _).
  pose proof (outputBytes_bound pad_length _ _ _ _ Hp Ha) as Hb.
  unfold packet, blen, sizeof_MessageInfo, messageMaxSize in *. lia.
Qed.

Lemma processMessage_transfer x rest more c del clo : transfer_ok x ->
  processMessage (mkReceiver (packet x ++ rest) (sentDescriptors (attachments (message x)) ++ more) c del clo) =
  Done (true, mkReceiver rest more c (del ++ [decoder x]) (clo ++ outOfLineDescriptor (message x))).
Proof.
  intros H. pose proof (transfer_prepared x H) as Hp. destruct H as ((_ & _ & Ha) & _ & Hd).
  rewrite (processMessage_arrived pad_length _ _ _ _ Hp Ha). by rewrite Hd.
Qed.

Lemma processMessage_waits x q ds c del clo : transfer_ok x -> (q < length (packet x))%nat ->
  processMessage (mkReceiver (take q (packet x)) ds c del clo) = Done (false, mkReceiver (take q (packet x)) ds c del clo).
Proof.
  intros H Hq. pose proof (transfer_prepared x H) as Hp. destruct H as ((_ & _ & Ha) & _).
  apply (processMessage_partial pad_length _ _ _ _ Hp Ha). unfold packet, blen in *. lia.
Qed.

(** The state of a receiver after [done] messages and [p] bytes of the rest. *)
Definition received (done rest : list Transfer) (p : nat) : Receiver :=
  mkReceiver (take p (stream rest)) (startsBefore rest p) false (map decoder done)
    (concat (map (fun x => outOfLineDescriptor (message x)) done)).

(** The rest begins with a message that is not complete. *)
Definition cutInside (rest : list Transfer) (p : nat) : Prop :=
  match rest with [] => p = 0%nat | x :: _ => (p < length (packet x))%nat end.

Lemma processMessages_stream fuel done rest p :
  Forall transfer_ok rest -> (p <= length (stream rest))%nat -> (p < fuel)%nat ->
  exists more rest' p', rest = more ++ rest' /\ p = (length (stream more) + p')%nat /\ cutInside rest' p' /\
    (p' <= length (stream rest'))%nat /\
    processMessages fuel (received done rest p) = Done (received (done ++ more) rest' p').
Proof.
  revert done rest p. induction fuel as [|fuel IH]; intros done rest p Hok Hp Hf; [lia|].
  destruct rest as [|x rest].
  { exists [], [], 0%nat. simpl in Hp. assert (p = 0)%nat as -> by lia. split_and!; [done..|]. by rewrite app_nil_r. }
  apply Forall_cons in Hok as [Hx Hok]. pose proof (packet_bound x Hx).
  cbn [processMessages]. unfold received at 1. rewrite stream_cons in *. rewrite length_app in Hp. destruct (decide (length (packet x) <= p)%nat) as [Hle|Hlt].
  - cbn [startsBefore]. destruct (Nat.eqb_spec p 0) as [->|]; [lia|].
    rewrite take_app_ge, processMessage_transfer by done. cbn [outcome_bind fst snd].
    destruct (IH (done ++ [x]) rest (p - length (packet x))%nat) as (more & rest' & p' & -> & E & Hc & Hp' & Hr); [done|lia..|].
    exists (x :: more), rest', p'. split_and!; [done| |done|done|].
    + rewrite stream_cons, length_app. lia.
    + rewrite <- app_assoc in Hr. cbn in Hr. rewrite <- Hr. unfold received. f_equal. f_equal; [|].
      * by rewrite map_app.
      * rewrite map_app, concat_app. cbn. by rewrite app_nil_r.
  - exists [], (x :: rest), p. rewrite app_nil_r. split_and!; [done|done|cbn [cutInside]; lia|..].
    + rewrite stream_cons, length_app. lia.
    + rewrite take_app_le by lia. rewrite processMessage_waits by (done || lia). cbn [outcome_bind fst snd].
      unfold received. by rewrite stream_cons, take_app_le by lia.
Qed.

Lemma startsBefore_app xs ys p : Forall transfer_ok xs ->
  startsBefore (xs ++ ys) (length (stream xs) + p) =
  concat (map (fun x => sentDescriptors (attachments (message x))) xs) ++ startsBefore ys p.
Proof.
  induction 1 as [|x xs Hx _ IH]; [done|]. pose proof (packet_bound x Hx). rewrite stream_cons, length_app.
  cbn [app map concat startsBefore]. destruct (Nat.eqb_spec (length (packet x) + length (stream xs) + p) 0); [lia|].
  rewrite <- app_assoc, <- IH. do 2 f_equal. lia.
Qed.
Abbreviation chunk := (bytes * list Z)%type.
Definition receive (c : chunk) : RecvResult := Received (fst c) (snd c).
Definition data_of (cs : list chunk) : bytes := concat (map fst cs).
Definition descriptors_of (cs : list chunk) : list Z := concat (map snd cs).

(** Pieces that continue the first [p] bytes of a stream, with the descriptors on time. *)
Definition continues (rest : list Transfer) (p : nat) (cs : list chunk) : Prop :=
  take p (stream rest) ++ data_of cs `prefix_of` stream rest /\ Forall (fun c => fst c <> []) cs /\
  forall k, startsBefore rest p ++ descriptors_of (take k cs) = startsBefore rest (p + length (data_of (take k cs))).

Lemma continues_step rest p data fds cs :
  (p <= length (stream rest))%nat -> continues rest p ((data, fds) :: cs) ->
  (p + length data <= length (stream rest))%nat /\ data <> [] /\
  take p (stream rest) ++ data = take (p + length data) (stream rest) /\
  startsBefore rest p ++ fds = startsBefore rest (p + length data) /\ continues rest (p + length data) cs.
Proof.
  intros Hp (Hpre & Hne & Hfd). apply Forall_cons in Hne as [Hd Hne]. unfold data_of, descriptors_of in *. cbn in *.
  assert (Hk : forall l, take p (stream rest) ++ data ++ l `prefix_of` stream rest ->
    take p (stream rest) ++ data = take (p + length data) (stream rest) /\ (p + length data <= length (stream rest))%nat).
  { intros l (z & Hz). rewrite !app_assoc in Hz. apply (f_equal (take (p + length data))) in Hz as Hz'.
    apply (f_equal length) in Hz. rewrite !length_app, length_take in Hz.
    rewrite <- app_assoc, take_app_length' in Hz' by (rewrite length_app, length_take; lia). split; [done|lia]. }
  destruct (Hk _ Hpre) as [Ht Hlen]. specialize (Hfd 1%nat) as H1. cbn in H1. rewrite take_0 in H1. cbn in H1.
  rewrite !app_nil_r in H1. split_and!; [done..|]. split_and!.
  - unfold data_of. by rewrite <- Ht, <- app_assoc.
  - done.
  - intros k. specialize (Hfd (S k)). cbn in Hfd. rewrite length_app in Hfd.
    unfold data_of, descriptors_of. by rewrite <- H1, <- app_assoc, Hfd, Nat.add_assoc.
Qed.

Lemma continues_rest more rest p cs : Forall transfer_ok more ->
  continues (more ++ rest) (length (stream more) + p) cs -> continues rest p cs.
Proof.
  intros Hm ((z & Hz) & Hne & Hfd). assert (Hs : stream (more ++ rest) = stream more ++ stream rest)
    by (unfold stream; by rewrite map_app, concat_app).
  split_and!; [|done|].
  - exists z. rewrite Hs, take_app_ge in Hz by lia. rewrite (Nat.add_comm (length (stream more))), Nat.add_sub in Hz.
    rewrite <- !app_assoc in *. by apply app_inv_head in Hz.
  - intros k. specialize (Hfd k). rewrite <- Nat.add_assoc, !startsBefore_app, <- app_assoc in Hfd by done.
    by apply app_inv_head in Hfd.
Qed.

Lemma readyReadHandler_stream cs : forall done rest p,
  Forall transfer_ok rest -> (p <= length (stream rest))%nat -> cutInside rest p -> continues rest p cs ->
  exists more rest' p', rest = more ++ rest' /\ (p + length (data_of cs) = length (stream more) + p')%nat /\
    cutInside rest' p' /\ (p' <= length (stream rest'))%nat /\
    readyReadHandler (map receive cs) (received done rest p) = Done (received (done ++ more) rest' p').
Proof.
  induction cs as [|[data fds] cs IH]; intros done rest p Hok Hp Hcut Hc.
  { exists [], rest, p. rewrite app_nil_r. unfold data_of. cbn. split_and!; [done|lia|done..]. }
  destruct (continues_step _ _ _ _ _ Hp Hc) as (Hlen & Hne & Ht & Hf & Hc').
  cbn [map receive readyReadHandler readBytesFromSocket fst snd m_readBuffer m_fileDescriptors received receiver_closed
    delivered closed]. rewrite Ht, Hf.
  assert (Hpos : 0 < blen data) by (destruct data; [done|]; unfold blen; cbn; lia).
  rewrite (proj2 (Z.ltb_ge _ _)), (proj2 (Z.eqb_neq _ _)) by lia.
  destruct (processMessages_stream (S (length (take (p + length data) (stream rest)))) done rest (p + length data))
    as (more & rest1 & p1 & -> & E & Hcut1 & Hp1 & Hr); [done|done|rewrite length_take; lia|].
  unfold received at 1 in Hr. rewrite Hr. cbn [outcome_bind].
  apply Forall_app in Hok as [Hmore Hok]. rewrite E in Hc'. apply continues_rest in Hc'; [|done].
  destruct (IH (done ++ more) rest1 p1 Hok Hp1 Hcut1 Hc') as (more' & rest2 & p2 & -> & E2 & Hcut2 & Hp2 & Hr2).
  exists (more ++ more'), rest2, p2. rewrite <- !app_assoc in *. split_and!; [done| |done|done|done].
  unfold data_of, stream in *. cbn [map concat fst]. rewrite map_app, concat_app, !length_app. lia.
Qed.
(** C17: Messages survive the socket.  Whatever pieces the receiver reads the stream of
    packets in, with each packet's descriptors arriving no later than its first byte, it
    delivers exactly the messages that were sent, in order, each with its body, in the
    packet or in shared memory, and its attachments; it never aborts or loops, ends with
    empty buffers, and closes just the descriptors of bodies in shared memory.  Between
    any two reads less than [messageMaxSize] bytes wait in the buffer, so there is always
    room to read more, and what has been delivered is a prefix of what was sent. *)
Theorem unix_stream_delivers_messages xs cs :
  Forall transfer_ok xs -> data_of cs = stream xs -> Forall (fun c => fst c <> []) cs ->
  (forall k, descriptors_of (take k cs) = startsBefore xs (length (data_of (take k cs)))) ->
  readyReadHandler (map receive cs) emptyReceiver =
    Done (mkReceiver [] [] false (map decoder xs) (concat (map (fun x => outOfLineDescriptor (message x)) xs))) /\
  forall k, exists s, readyReadHandler (map receive (take k cs)) emptyReceiver = Done s /\
    blen (m_readBuffer s) < messageMaxSize /\ delivered s `prefix_of` map decoder xs.
Proof.
  intros Hok Hdata Hne Hfd.
  assert (Hcont : forall k, continues xs 0 (take k cs)).
  { intros k. split_and!.
    - rewrite take_0. cbn. rewrite <- Hdata. unfold data_of. exists (concat (map fst (drop k cs))).
      by rewrite <- concat_app, <- map_app, take_drop.
    - by apply Forall_take.
    - intros k'. rewrite take_take, Hfd. by destruct xs. }
  assert (Hempty : received [] xs 0 = emptyReceiver) by (by destruct xs).
  assert (Hcut : cutInside xs 0).
  { destruct xs as [|x xs]; [done|]. apply Forall_cons in Hok as [Hx _]. pose proof (packet_bound x Hx). cbn [cutInside]. lia. }
  assert (Hrun : forall k, exists more rest p, xs = more ++ rest /\ length (data_of (take k cs)) = (length (stream more) + p)%nat /\
    cutInside rest p /\ (p <= length (stream rest))%nat /\
    readyReadHandler (map receive (take k cs)) emptyReceiver = Done (received more rest p)).
  { intros k. rewrite <- Hempty. apply (readyReadHandler_stream (take k cs) [] xs 0); [done|lia|done|apply Hcont]. }
  split.
  - destruct (Hrun (length cs)) as (more & rest & p & -> & E & Hc & Hp & Hr). rewrite firstn_all, Hdata in *.
    unfold stream in E. rewrite map_app, concat_app, length_app in E. fold (stream more) (stream rest) in E.
    destruct rest as [|x rest].
    + cbn in Hc. subst p. rewrite Hr, app_nil_r. done.
    + cbn [cutInside] in Hc. rewrite stream_cons, length_app in E. lia.
  - intros k. destruct (Hrun k) as (more & rest & p & -> & E & Hc & Hp & Hr). eexists. split; [exact Hr|].
    cbn [received m_readBuffer delivered]. split; [|rewrite map_app; by eexists].
    unfold messageMaxSize, blen. rewrite length_take. destruct rest as [|x rest]; [cbn in Hc; lia|].
    apply Forall_app in Hok as [_ [Hx _]%Forall_cons]. pose proof (packet_bound x Hx). cbn [cutInside] in Hc. lia.
Qed.

(** C18: A message that the receiver cannot decode ends all delivery and has its descriptors
    closed over and over.  When the packet of any message for which no decoder can be made
    is at the front of the buffer, with its descriptors, then whatever is read afterwards, in
    any number of pieces, no message is delivered any more, nothing leaves the buffer or the
    list of descriptors, and every read closes all the descriptors of the message again,
    although their numbers may have been given to other files meanwhile. *)
Theorem rejected_message_blocks_connection e m cs rest more c del clo :
  encoder_ok e -> prepareMessage e = Some m ->
  Decoder.create isValidMessageName copyAddress (contents e) (rev (m_attachments e)) = None ->
  Forall (fun x => fst x <> []) cs ->
  readyReadHandler (map receive cs) (mkReceiver (outputBytes m ++ rest) (sentDescriptors (attachments m) ++ more) c del clo) =
    Done (mkReceiver (outputBytes m ++ rest ++ data_of cs) (sentDescriptors (attachments m) ++ more ++ descriptors_of cs) c del
      (clo ++ concat (replicate (length cs) (outOfLineDescriptor m ++ rev (descriptors (m_attachments e)))))).
Proof.
  intros He Hp Hd Hcs. destruct (prepareMessage_spec pad_length shared_memory e m He Hp) as (fds & Hprep).
  assert (Ef : fds = outOfLineDescriptor m) by (unfold outOfLineDescriptor; inversion Hprep; subst; [done|]; cbn; by rewrite last_snoc).
  destruct He as (_ & _ & Ha). rewrite <- (closedBy_descriptors _ Ha), <- Ef. clear Ef.
  revert rest more clo. induction Hcs as [|[data ds] cs Hne _ IH]; intros rest more clo.
  { unfold data_of, descriptors_of. cbn. by rewrite !app_nil_r. }
  cbn [map receive readyReadHandler readBytesFromSocket fst snd m_readBuffer m_fileDescriptors receiver_closed delivered closed].
  assert (Hpos : 0 < blen data) by (destruct data; [done|]; unfold blen; cbn; lia).
  rewrite (proj2 (Z.ltb_ge _ _)), (proj2 (Z.eqb_neq _ _)) by lia. cbn [processMessages]. rewrite <- !app_assoc.
  rewrite (processMessage_arrived pad_length _ _ _ _ Hprep Ha), Hd. cbn [outcome_bind fst snd m_readBuffer m_fileDescriptors].
  rewrite IH. unfold data_of, descriptors_of. cbn [map concat fst snd length replicate]. by rewrite <- !app_assoc.
Qed.
End streams.

End transport.

(** ** Examples *)

Definition samplePad : bytes := [Byte.xaa; Byte.xbb; Byte.xcc].
Definition sampleBody : bytes := emit 0 (encodeHeader 5 6).
(** A small message with a socket and a null attachment, and one whose body is too long
    for a packet. *)
Definition smallEncoder : Encoder :=
  mkEncoder 5 6 true (sampleBody ++ zeros 496) 16 512 [socket 7; mappedMemory (-1) 4096] 0.
Definition largeBody : bytes := sampleBody ++ zeros 4200.
Definition largeEncoder : Encoder := mkEncoder 5 6 false largeBody 4216 4216 [mappedMemory 8 100] 1.
Definition sampleShared (b : bytes) : option Z := if bool_decide (b = largeBody) then Some 9 else None.
Definition sampleMap (fd size : Z) : option bytes :=
  if bool_decide (fd = 9 /\ size = blen largeBody) then Some largeBody else None.

Definition sampleTransfer (e : Encoder) : Transfer :=
  mkTransfer e (default (fromEncoder e) (prepareMessage sampleShared e))
    (default (Decoder.mkDecoder 0 [] 0 [] 0 0 0) (Decoder.create (Z.eqb 5) 8192 (contents e) (rev (m_attachments e)))).
Definition sampleTransfers : list Transfer := [sampleTransfer smallEncoder; sampleTransfer largeEncoder].
(** The stream cut in the middle of headers and bodies. *)
Definition sampleChunks : list (bytes * list Z) :=
  let all := stream samplePad sampleTransfers in
  [(take 10 all, [7]); (take 70 (drop 10 all), [8; 9]); (drop 80 all, [])].

Lemma small_transfer_ok : transfer_ok sampleShared (Z.eqb 5) 8192 (sampleTransfer smallEncoder).
Proof.
  refine (conj (conj _ (conj _ _)) (conj _ _)); [vm_compute; reflexivity..| | vm_compute; reflexivity | vm_compute; reflexivity].
  apply Forall_cons_2; [reflexivity|]. apply Forall_cons_2; [|apply Forall_nil_2]. cbn. lia.
Qed.
Lemma large_transfer_ok : transfer_ok sampleShared (Z.eqb 5) 8192 (sampleTransfer largeEncoder).
Proof.
  refine (conj (conj _ (conj _ _)) (conj _ _)); [vm_compute; reflexivity..| | vm_compute; reflexivity | vm_compute; reflexivity].
  apply Forall_cons_2; [|apply Forall_nil_2]. cbn. lia.
Qed.

Lemma sampleShared_mapped b fd : sampleShared b = Some fd -> fd <> -1 /\ sampleMap fd (blen b) = Some b.
Proof.
  unfold sampleShared. case_bool_decide as Hb; [|done]. intros [= <-]. subst b. split; [done|]. unfold sampleMap. by rewrite bool_decide_true.
Qed.

Lemma unix_stream_delivers_messages_witness :
  readyReadHandler sampleMap (Z.eqb 5) 8192 (map receive sampleChunks) emptyReceiver =
  Done (mkReceiver [] [] false (map decoder sampleTransfers) [9]).
Proof.
  apply (unix_stream_delivers_messages sampleShared sampleMap samplePad (Z.eqb 5) 8192 eq_refl) with (xs := sampleTransfers).
  - exact sampleShared_mapped.
  - apply Forall_cons_2, Forall_cons_2, Forall_nil_2; [apply small_transfer_ok|apply large_transfer_ok].
  - vm_compute. reflexivity.
  - repeat (apply Forall_cons; split; [vm_compute; discriminate|]). by apply Forall_nil.
  - intros k. do 3 (destruct k as [|k]; [vm_compute; reflexivity|]). destruct k; vm_compute; reflexivity.
Defined.

(** A message the receiver rejects, for the theorem above. *)
Definition rejectedEncoder : Encoder := mkEncoder 5 6 true sampleBody 16 512 [socket 7] 0.
Lemma rejected_message_blocks_connection_witness :
  exists m, prepareMessage sampleShared rejectedEncoder = Some m /\
    readyReadHandler sampleMap (fun _ => false) 8192 [Received [Byte.x00] [8]; Received [Byte.x00] []] (mkReceiver (outputBytes samplePad m) [7] false [] []) =
    Done (mkReceiver (outputBytes samplePad m ++ [Byte.x00; Byte.x00]) [7; 8] false [] [7; 7]).
Proof.
  eexists. split; [vm_compute; reflexivity|].
  rewrite <- (app_nil_r (outputBytes samplePad _)).
  apply (rejected_message_blocks_connection sampleShared sampleMap samplePad (fun _ => false) 8192 eq_refl sampleShared_mapped rejectedEncoder (fromEncoder rejectedEncoder)
    [([Byte.x00], [8]); ([Byte.x00], [])] [] [] false [] []).
  - split_and!; [vm_compute; reflexivity..|]. apply Forall_cons_2; [done|apply Forall_nil_2].
  - vm_compute. reflexivity.
  - vm_compute. reflexivity.
  - by repeat constructor.
Defined.

(** A message whose record for the body in shared memory has an unknown type makes the body's
    mapping take, and close, the descriptor of the attachment before it, which is delivered
    closed. *)
Example unknown_body_record_closes_attachment :
  exists packet s d, readyReadHandler (fun _ _ => Some sampleBody) (Z.eqb 5) 8192 [Received packet [7]] emptyReceiver = Done s /\
    delivered s = [d] /\ Decoder.m_attachments d = [socket 7] /\ closed s = [7].
Proof.
  exists (messageInfo_image (mkMessageInfo 16 2 true) ++ attachmentInfo_image samplePad (mkAttachmentInfo 1 false 0) ++
    attachmentInfo_image samplePad (mkAttachmentInfo 0 false 16)).
  do 2 eexists. split; [vm_compute; reflexivity|]. by split_and!.
Qed.

End UnixTransport.
