(* ===== verification/SessionState.v ===== *)
(** * Shared/SessionState.cpp: the coders of the session history

    The saved state of the pages in a back/forward list, as it travels between the web
    process and the UI process: a tree of frames per page, with form data and script
    state.  The coders are compositions of those in ArgumentCoders; the frame tree makes
    the decoder recursive, with the nesting controlled by the message. *)

From S2P Require Import Prelude Encoder Decoder ArgumentCoders.
From Stdlib Require Import Zmod Bits.

Import Encoder Decoder.
Local Open Scope dec_scope.

Module SessionState.

(** ** Data *)

(** [Vector<char>] or [Vector<uint8_t>], sent as one block. *)
Record ByteVector := mkByteVector { elements_of : list Z }.

(** An object sent as its representation in memory ([SimpleArgumentCoder]). *)
Record IntPoint := mkIntPoint { representation : bytes }.

Inductive ElementType := TypeData | TypeFile | TypeBlob.

Record Element := mkElement {
  type : ElementType;
  data : ByteVector;
  filePath : WTFString;
  fileStart : int64_t;
  fileLength : option int64_t;
  expectedFileModificationTime : option WallTime;
  blobURLString : WTFString
}.

Record HTTPBody := mkHTTPBody { contentType : WTFString; elements : list Element }.

Inductive FrameState := mkFrameState {
  urlString : WTFString;
  originalURLString : WTFString;
  referrer : WTFString;
  target : WTFString;
  documentState : list WTFString;
  stateObjectData : option ByteVector;
  documentSequenceNumber : int64_t;
  itemSequenceNumber : int64_t;
  scrollPosition : IntPoint;
  shouldRestoreScrollPosition : bool;
  pageScaleFactor : float;
  httpBody : option HTTPBody;
  children : list FrameState
}.

(** WebCore's enum, with the values [isValidEnum] lists. *)
Inductive ShouldOpenExternalURLsPolicy := ShouldAllow | ShouldAllowExternalSchemesButNotAppLinks | ShouldNotAllow.

(** Number of nested levels of frames. *)
Fixpoint height (f : FrameState) : nat := S (foldr (fun c m => max (height c) m) 0%nat (children f)).

(** ** Coders of the leaves *)

#[export] Instance byteVector_coder : ArgumentCoder ByteVector :=
  {| encode v := encode_arithmetic_vector 1 (elements_of v);
     decode := let? v := decode_arithmetic_vector 1 in ret (mkByteVector v);
     encodable v := Z.of_nat (length (elements_of v)) < 2 ^ 64 /\ Forall (fun z => 0 <= z < 2 ^ 8) (elements_of v) |}.
#[export] Instance byteVector_lawful : LawfulCoder ByteVector.
Proof.
  intros [v] [Hl Hv]. eapply reads_bind_nil; [apply reads_arithmetic_vector; auto with wk|apply reads_ret].
Qed.

#[export] Instance ElementType_traits : EnumTraits ElementType :=
  {| toRaw t := match t with TypeData => 0 | TypeFile => 1 | TypeBlob => 2 end;
     fromRaw z := if z =? 0 then Some TypeData else if z =? 1 then Some TypeFile
                  else if z =? 2 then Some TypeBlob else None |}.
#[export] Instance ElementType_lawful : LawfulEnum ElementType 4.
Proof. split; [by intros []|intros []; simpl; lia|auto with wk]. Qed.

Definition isValidEnum_type (t : ElementType) : bool :=
  match t with TypeData | TypeFile | TypeBlob => true end.

Definition isValidEnum_policy (p : ShouldOpenExternalURLsPolicy) : bool :=
  match p with ShouldAllow | ShouldAllowExternalSchemesButNotAppLinks | ShouldNotAllow => true end.

(** ** Decoders only move forward *)

(** The read pointer is in the buffer, which is not at the very end of memory. *)
Definition inside (d : Decoder) : Prop :=
  0 < m_buffer d /\ m_bufferEnd d + 8 <= 2 ^ 64 /\ m_buffer d <= m_bufferPos d <= m_bufferEnd d.

(** [k] bytes or more are consumed by a read that succeeds. *)
Definition consumed (k : Z) (d d' : Decoder) : Prop :=
  m_buffer d' = m_buffer d /\ m_bytes d' = m_bytes d /\ m_bufferPos d + k <= m_bufferPos d' /\ inside d'.

Class Forward {A} (m : Dec A) : Prop :=
  forward : forall d v d', inside d -> m d = (Some v, d') -> consumed 0 d d'.

Lemma consumed_trans k k' d d' d'' : consumed k d d' -> consumed k' d' d'' -> consumed (k + k') d d''.
Proof. intros (? & ? & ? & ?) (? & ? & ? & ?). split_and!; [congruence|congruence|lia|done]. Qed.

Lemma decodeFixedLengthData_consumes n a d v d' :
  0 <= n -> scalar_alignment a -> inside d -> decodeFixedLengthData n a d = (Some v, d') -> consumed n d d'.
Proof.
  intros Hn Ha (Hb & He & Hp). unfold decodeFixedLengthData, alignBufferPosition.
  destruct (alignedBufferIsLargeEnoughToContain _ _ _ _) eqn:Ec; [|done]. intros [= _ <-].
  apply aligned_check_sound in Ec as (H1 & H2 & H3); [|lia..].
  assert (m_bufferPos d <= roundUpPointer (m_bufferPos d) a).
  { destruct (scalar_alignment_power a Ha) as (k & Hk & ->). unfold roundUpPointer.
    assert (0 < 2 ^ k) by (apply Z.pow_pos_nonneg; lia).
    assert (2 ^ k <= 2 ^ 3) by (apply Z.pow_le_mono_r; lia). change (2 ^ 3) with 8 in *.
    rewrite wrap_small by (unfold in_width; lia). rewrite ldiff_low_bits by lia.
    pose proof (Z.mul_succ_div_gt (m_bufferPos d + (2 ^ k - 1)) (2 ^ k) ltac:(lia)) as Hq.
    rewrite Z.mul_succ_r in Hq. lia. }
  split_and!; cbn; [done|done|lia|]. unfold inside, m_bufferEnd in *. cbn. lia.
Qed.

#[export] Instance forward_ret {A} (a : A) : Forward (ret a).
Proof. intros d v d' Hd [= _ <-]. by split_and!; [..|lia|]. Qed.
#[export] Instance forward_fail {A} : Forward (@fail A).
Proof. by intros d v d' Hd ?. Qed.
#[export] Instance forward_bind {A B} (m : Dec A) (k : A -> Dec B) :
  Forward m -> (forall a, Forward (k a)) -> Forward (bind m k).
Proof.
  intros Hm Hk d v d' Hd. unfold bind. destruct (m d) as [[a|] d1] eqn:E; [|done]. intros E'.
  pose proof (Hm _ _ _ Hd E) as Hc. apply (consumed_trans 0 0 d d1); [done|]. apply (Hk a d1 v d'); [apply Hc|done].
Qed.
#[export] Instance forward_if {A} (b : bool) (m m' : Dec A) : Forward m -> Forward m' -> Forward (if b then m else m').
Proof. by destruct b. Qed.
#[export] Instance forward_option {A B} (o : option A) (k : A -> Dec B) (m : Dec B) :
  (forall a, Forward (k a)) -> Forward m -> Forward (match o with Some a => k a | None => m end).
Proof. by destruct o. Qed.

Lemma forward_fixed n a : 0 <= n -> scalar_alignment a -> Forward (decodeFixedLengthData n a).
Proof.
  intros Hn Ha d v d' Hd E. pose proof (decodeFixedLengthData_consumes n a d v d' Hn Ha Hd E) as (? & ? & ? & ?).
  split_and!; [done..|lia|done].
Qed.

#[export] Instance forward_get_uint n : scalar_alignment (Z.of_nat n) -> Forward (get_uint n).
Proof. intros Ha. exact (forward_bind _ _ (forward_fixed (Z.of_nat n) (Z.of_nat n) (Nat2Z.is_nonneg n) Ha) (fun _ => forward_ret _)). Qed.
#[export] Hint Extern 1 (scalar_alignment _) => solve [assumption | unfold scalar_alignment; cbn; lia] : typeclass_instances.

Lemma unsigned_nonneg w (z : bits w) : 0 <= w -> 0 <= Zmod.unsigned z.
Proof. intros. by apply bits.unsigned_range. Qed.

#[export] Instance forward_block n k : scalar_alignment (Z.of_nat n) -> 0 <= k -> Forward (decode_block n k).
Proof.
  intros Ha Hk d v d' Hd. unfold decode_block. destruct (bufferIsLargeEnoughForElements _ _ _) eqn:E; [|done].
  apply forward_fixed; [lia|done|done].
Qed.
#[export] Hint Extern 1 (0 <= Zmod.unsigned _) => apply unsigned_nonneg; lia : typeclass_instances.

(** The coders of ArgumentCoders that frames use. *)
#[export] Instance forward_bits n w : scalar_alignment (Z.of_nat n) -> Forward (decode_bits n w).
Proof. intros. unfold decode_bits. apply _. Qed.
#[export] Instance forward_uint32 : Forward (decode : Dec uint32_t).
Proof. unfold decode; cbn. apply _. Qed.
#[export] Instance forward_uint64 : Forward (decode : Dec uint64_t).
Proof. unfold decode; cbn. apply _. Qed.
#[export] Instance forward_bool : Forward (decode : Dec bool).
Proof. unfold decode; cbn. apply _. Qed.
#[export] Instance forward_int64 : Forward (decode : Dec int64_t).
Proof. unfold decode; cbn. unfold decode_as. apply _. Qed.
#[export] Instance forward_float : Forward (decode : Dec float).
Proof. unfold decode; cbn. unfold decode_as. apply _. Qed.
#[export] Instance forward_double : Forward (decode : Dec double).
Proof. unfold decode; cbn. unfold decode_as. apply _. Qed.
#[export] Instance forward_wallTime : Forward (decode : Dec WallTime).
Proof. unfold decode; cbn. unfold decode_as. apply _. Qed.
#[export] Instance forward_string : Forward (decode : Dec WTFString).
Proof. unfold decode; cbn. unfold decode_string, decodeStringText. apply _. Qed.
#[export] Instance forward_optional {T} `{ArgumentCoder T} :
  Forward (decode : Dec T) -> Forward (decode : Dec (option T)).
Proof. intros Hf. unfold decode; cbn. unfold decode_optional. apply _. Qed.
#[export] Instance forward_elements {T} (m : Dec T) n : Forward m -> Forward (decode_elements m n).
Proof. intros Hf. induction n; cbn [decode_elements]; apply _. Qed.
#[export] Instance forward_vector {T} `{ArgumentCoder T} :
  Forward (decode : Dec T) -> Forward (decode : Dec (list T)).
Proof. intros Hf. unfold decode; cbn. unfold decode_vector. apply _. Qed.
#[export] Instance forward_enum {E} `{EnumTraits E} n : scalar_alignment (Z.of_nat n) -> Forward (decode_enum (E := E) n).
Proof. intros. unfold decode_enum. apply _. Qed.
#[export] Instance forward_arithmetic_vector n : scalar_alignment (Z.of_nat n) -> Forward (decode_arithmetic_vector n).
Proof.
  intros Ha d v d' Hd. unfold decode_arithmetic_vector. destruct (decode d) as [[size|] d1] eqn:E; [|done].
  pose proof (forward_uint64 _ _ _ Hd E) as Hc. destruct (bufferIsLargeEnoughForElements _ _ _); [|done].
  destruct (decodeFixedLengthData _ _ _) as [[data|] d2] eqn:E2; [|done]. intros [= _ <-].
  apply (consumed_trans 0 0 d d1); [done|]. eapply forward_fixed; [| |apply Hc|exact E2]; [|done].
  pose proof (unsigned_nonneg 64 size). lia.
Qed.
#[export] Instance forward_byteVector : Forward (decode : Dec ByteVector).
Proof. unfold decode; cbn. apply _. Qed.

Section coders.
(** The layout of WebCore's [IntPoint]. *)
Context (sizeof_IntPoint alignof_IntPoint : Z).
Context (alignof_ok : scalar_alignment alignof_IntPoint) (sizeof_ok : 0 <= sizeof_IntPoint).
(** The underlying type and values of WebCore's [ShouldOpenExternalURLsPolicy]. *)
Context (policyBytes : nat) `{!EnumTraits ShouldOpenExternalURLsPolicy, !LawfulEnum ShouldOpenExternalURLsPolicy policyBytes}.
(** WebCore's serialized script values and their wire format. *)
Context {SerializedScriptValue : Type} (toWireBytes : SerializedScriptValue -> ByteVector)
  (createFromWireBytes : ByteVector -> SerializedScriptValue).
Context (createFromWireBytes_toWireBytes : forall v, createFromWireBytes (toWireBytes v) = v).
(** WebCore's [BackForwardItemIdentifier], with its coder. *)
Context {BackForwardItemIdentifier : Type} `{!ArgumentCoder BackForwardItemIdentifier, !LawfulCoder BackForwardItemIdentifier}.

(** ** Frames *)

Definition encode_intPoint (p : IntPoint) : list Op := [FixedLengthData (representation p) alignof_IntPoint].
Definition decode_intPoint : Dec IntPoint :=
  let? b := decodeFixedLengthData sizeof_IntPoint alignof_IntPoint in ret (mkIntPoint b).

#[local] Instance intPoint_coder : ArgumentCoder IntPoint :=
  {| encode := encode_intPoint; decode := decode_intPoint;
     encodable p := blen (representation p) = sizeof_IntPoint |}.
#[local] Instance intPoint_lawful : LawfulCoder IntPoint.
Proof. intros [b] Hb. eapply reads_bind_nil; [by apply reads_fixed|apply reads_ret]. Qed.

Definition encode_element (e : Element) : list Op :=
  encode_enum 4 (type e) ++ encode (data e) ++ encode (filePath e) ++ encode (fileStart e) ++
  encode (fileLength e) ++ encode (expectedFileModificationTime e) ++ encode (blobURLString e).

Definition decode_element : Dec Element :=
  let? type := decode_enum 4 in
  if negb (isValidEnum_type type) then fail else
  let? data := decode in
  let? filePath := decode in
  let? fileStart := decode in
  let? fileLength := decode in
  let? expectedFileModificationTime := decode in
  let? blobURLString := decode in
  ret (mkElement type data filePath fileStart fileLength expectedFileModificationTime blobURLString).

#[local] Instance element_coder : ArgumentCoder Element :=
  {| encode := encode_element; decode := decode_element;
     encodable e := encodable (data e) /\ encodable (filePath e) /\ encodable (blobURLString e) |}.

Definition encode_httpBody (b : HTTPBody) : list Op := encode (contentType b) ++ encode (elements b).
Definition decode_httpBody : Dec HTTPBody :=
  let? contentType := decode in
  let? elements := decode in
  ret (mkHTTPBody contentType elements).

#[local] Instance httpBody_coder : ArgumentCoder HTTPBody :=
  {| encode := encode_httpBody; decode := decode_httpBody;
     encodable b := encodable (contentType b) /\ encodable (elements b) |}.

Fixpoint encode_frameState (f : FrameState) : list Op :=
  encode (urlString f) ++ encode (originalURLString f) ++ encode (referrer f) ++ encode (target f) ++
  encode (documentState f) ++ encode (stateObjectData f) ++
  encode (documentSequenceNumber f) ++ encode (itemSequenceNumber f) ++
  encode (scrollPosition f) ++ encode (shouldRestoreScrollPosition f) ++ encode (pageScaleFactor f) ++
  encode (httpBody f) ++
  (encode (sizeOf (children f)) ++ concat (map encode_frameState (children f))).

(** Each level of nesting takes a unit of fuel. *)
Fixpoint decode_frames (fuel : nat) : Dec FrameState :=
  match fuel with
  | O => fail
  | S fuel' =>
      let? urlString := decode in
      let? originalURLString := decode in
      let? referrer := decode in
      let? target := decode in
      let? documentState := decode in
      let? stateObjectData := decode in
      let? documentSequenceNumber := decode in
      let? itemSequenceNumber := decode in
      let? scrollPosition := decode in
      let? shouldRestoreScrollPosition := decode in
      let? pageScaleFactor := decode in
      let? httpBody := decode in
      let? children := (let? size := decode in
                        decode_elements (decode_frames fuel') (Z.to_nat (Zmod.unsigned (size : uint64_t)))) in
      ret (mkFrameState urlString originalURLString referrer target documentState stateObjectData
             documentSequenceNumber itemSequenceNumber scrollPosition shouldRestoreScrollPosition
             pageScaleFactor httpBody children)
  end.

(** The nesting of a message is less than its size in bytes ([decode_frames_enough]). *)
Definition decode_frameState : Dec FrameState := fun d => decode_frames (S (length (m_bytes d))) d.

Definition frame_ok (f : FrameState) : Prop :=
  encodable (urlString f) /\ encodable (originalURLString f) /\ encodable (referrer f) /\ encodable (target f) /\
  encodable (documentState f) /\ encodable (stateObjectData f) /\ encodable (scrollPosition f) /\
  encodable (httpBody f) /\ Z.of_nat (length (children f)) < 2 ^ 64.

(** Every frame of the tree can be sent. *)
Fixpoint frames_ok (f : FrameState) : Prop :=
  frame_ok f /\ foldr (fun c P => frames_ok c /\ P) True (children f).

#[local] Instance frameState_coder : ArgumentCoder FrameState :=
  {| encode := encode_frameState; decode := decode_frameState; encodable := frames_ok |}.

(** ** Pages and lists *)

Record PageState := mkPageState {
  title : WTFString;
  mainFrameState : FrameState;
  shouldOpenExternalURLsPolicy : ShouldOpenExternalURLsPolicy;
  sessionStateObject : option SerializedScriptValue
}.

Definition encode_pageState (p : PageState) : list Op :=
  encode (title p) ++ encode (mainFrameState p) ++
  encode (match sessionStateObject p with Some _ => true | None => false end) ++
  (match sessionStateObject p with Some o => encode (toWireBytes o) | None => [] end) ++
  encode_enum policyBytes (shouldOpenExternalURLsPolicy p).

Definition decode_pageState : Dec PageState :=
  let? title := decode in
  let? mainFrameState := decode in
  let? hasSessionState := decode in
  let? sessionStateObject :=
    (if hasSessionState : bool then let? wireBytes := decode in ret (Some (createFromWireBytes wireBytes))
     else ret None) in
  let? policy := decode_enum policyBytes in
  if negb (isValidEnum_policy policy) then fail else
  ret (mkPageState title mainFrameState policy sessionStateObject).

#[local] Instance pageState_coder : ArgumentCoder PageState :=
  {| encode := encode_pageState; decode := decode_pageState;
     encodable p := encodable (title p) /\ encodable (mainFrameState p) /\
       match sessionStateObject p with Some o => encodable (toWireBytes o) | None => True end |}.

Record BackForwardListItemState := mkItemState {
  identifier : BackForwardItemIdentifier;
  pageState : PageState;
  snapshot : option nat;                     (* a ViewSnapshot of the sending process *)
  hasCachedPage : bool
}.

Definition encode_itemState (i : BackForwardListItemState) : list Op :=
  encode (identifier i) ++ encode (pageState i) ++ encode (hasCachedPage i).

Definition decode_itemState : Dec BackForwardListItemState :=
  let? identifier := decode in
  let? pageState := decode in
  let? hasCachedPage := decode in
  ret (mkItemState identifier pageState None hasCachedPage).

#[local] Instance itemState_coder : ArgumentCoder BackForwardListItemState :=
  {| encode := encode_itemState; decode := decode_itemState;
     encodable i := encodable (identifier i) /\ encodable (pageState i) /\ snapshot i = None |}.

Record BackForwardListState := mkListState {
  items : list BackForwardListItemState;
  currentIndex : option uint32_t
}.

Definition encode_listState (l : BackForwardListState) : list Op := encode (items l) ++ encode (currentIndex l).
Definition decode_listState : Dec BackForwardListState :=
  let? items := decode in
  let? currentIndex := decode in
  ret (mkListState items currentIndex).

(** What arrives: the state without its snapshots. *)
Definition withoutSnapshot (i : BackForwardListItemState) : BackForwardListItemState :=
  mkItemState (identifier i) (pageState i) None (hasCachedPage i).
Definition withoutSnapshots (l : BackForwardListState) : BackForwardListState :=
  mkListState (map withoutSnapshot (items l)) (currentIndex l).

Definition listState_ok (l : BackForwardListState) : Prop :=
  Z.of_nat (length (items l)) < 2 ^ 64 /\
  Forall (fun i => encodable (identifier i) /\ encodable (pageState i)) (items l).

(** ** Reading back *)

Lemma encodable_optional {T} `{ArgumentCoder T} (o : option T) : (forall v : T, encodable v) -> encodable o.
Proof. intros Hall. destruct o; [apply Hall|done]. Qed.

(** A field read with its lawful coder, and the value at the end. *)
Ltac read_field := apply decode_encode; first [done | by apply encodable_optional].
Ltac read_fields := repeat (eapply reads_bind; [read_field|]).
Ltac read_last := eapply reads_bind_nil; [read_field|apply reads_ret].

#[local] Instance element_lawful : LawfulCoder Element.
Proof.
  intros [t d p s l m b] (Hd & Hp & Hb). eapply reads_bind; [apply (reads_enum 4)|].
  replace (negb _) with false by (by destruct t). read_fields. read_last.
Qed.

#[local] Instance httpBody_lawful : LawfulCoder HTTPBody.
Proof. intros [c e] [Hc He]. read_fields. read_last. Qed.

Lemma frames_ok_children f : frames_ok f -> frame_ok f /\ Forall frames_ok (children f).
Proof.
  destruct f. simpl. intros [Hf Hc]. split; [done|]. clear Hf. induction children0; constructor; destruct Hc; auto.
Qed.

Lemma height_child f c : c ∈ children f -> (height c < height f)%nat.
Proof.
  destruct f as [? ? ? ? ? ? ? ? ? ? ? ? cs]. simpl. induction cs as [|c' cs IH]; [by intros ?%elem_of_nil|].
  intros [->|Hin]%elem_of_cons; simpl; [lia|]. specialize (IH Hin). lia.
Qed.

Lemma reads_frames fuel f : (height f <= fuel)%nat -> frames_ok f -> reads (decode_frames fuel) (encode_frameState f) f.
Proof.
  revert f. induction fuel as [|fuel IH]; intros f Hh Hok; [by destruct f; simpl in Hh; lia|].
  apply frames_ok_children in Hok as [(? & ? & ? & ? & ? & ? & ? & ? & Hl) Hc].
  pose proof (height_child f) as Hlt. destruct f. cbn [decode_frames encode_frameState].
  read_fields. rewrite <- (app_nil_r (encode (sizeOf _) ++ _)). eapply reads_bind; [|apply reads_ret].
  eapply reads_bind; [read_field|]. rewrite sizeOf_spec, Nat2Z.id by done. apply reads_elements.
  intros c Hin. apply IH; [specialize (Hlt c Hin); lia|]. rewrite Forall_forall in Hc. by apply Hc.
Qed.

(** A tree is not deeper than its encoding is long. *)
Lemma blen_emit_app off p q :
  blen (emit off (p ++ q)) = blen (emit off p) + blen (emit (off + blen (emit off p)) q).
Proof. by rewrite emit_app, blen_app. Qed.

Lemma blen_emit_element {A} (enc : A -> list Op) (h : Z) l x :
  x ∈ l -> (forall off, h <= blen (emit off (enc x))) -> forall off, h <= blen (emit off (concat (map enc l))).
Proof.
  intros Hin Hh. induction l as [|y l IH]; [by apply elem_of_nil in Hin|]. intros off. simpl. rewrite blen_emit_app.
  apply elem_of_cons in Hin as [->|Hin].
  - specialize (Hh off). pose proof (blen_nonneg (emit (off + blen (emit off (enc y))) (concat (map enc l)))). lia.
  - specialize (IH Hin (off + blen (emit off (enc y)))). pose proof (blen_nonneg (emit off (enc y))). lia.
Qed.

Lemma height_attained f : children f = [] \/ exists c, c ∈ children f /\ height f = S (height c).
Proof.
  destruct f as [? ? ? ? ? ? ? ? ? ? ? ? cs]. simpl. induction cs as [|c cs IH]; [by left|right]. simpl.
  destruct IH as [->|(c' & Hin & E)]; [exists c; split; [left|simpl; lia]|]. injection E as E. rewrite E.
  destruct (Nat.max_spec (height c) (height c')) as [[_ ->]|[_ ->]].
  - exists c'. split; [by right|done].
  - exists c. split; [left|done].
Qed.

Lemma frame_bytes f off : Z.of_nat (height f) <= blen (emit off (encode_frameState f)).
Proof.
  remember (height f) as h eqn:E. revert f off E. induction h as [|h IH]; intros f off E; [apply blen_nonneg|].
  pose proof (height_attained f) as Hat. destruct f as [? ? ? ? ? ? ? ? ? ? ? ? cs]. cbn [encode_frameState children].
  rewrite !app_assoc, blen_emit_app. set (pre := _ ++ encode (sizeOf cs)).
  assert (Hpre : 1 <= blen (emit off pre)).
  { unfold pre. rewrite blen_emit_app. match goal with |- _ <= blen ?b + _ => pose proof (blen_nonneg b) end.
    unfold encode. cbn. unfold blen. rewrite !length_app, length_le_split. lia. }
  destruct Hat as [Hn|(c & Hin & Hh)].
  - simpl in Hn. subst cs. simpl in E. pose proof (blen_nonneg (emit (off + blen (emit off pre))
      (concat (map encode_frameState [])))). lia.
  - assert (Z.of_nat h <= blen (emit (off + blen (emit off pre)) (concat (map encode_frameState cs)))); [|lia].
    eapply blen_emit_element; [exact Hin|]. intros o. apply IH. lia.
Qed.

#[local] Instance frameState_lawful : LawfulCoder FrameState.
Proof.
  intros f Hok d off suffix atts Hp Hb Ha. refine (reads_frames _ f _ Hok d off suffix atts Hp Hb Ha).
  pose proof (bytes_from_bound _ _ _ _ Hp Hb). pose proof (frame_bytes f off). pose proof (placed_off _ _ Hp).
  unfold blen in *. change (encode f) with (encode_frameState f) in *. lia.
Qed.

#[local] Instance pageState_lawful : LawfulCoder PageState.
Proof.
  intros [ti f po so] (Ht & Hf & Hs). unfold decode, encode; cbn [pageState_coder]. unfold decode_pageState, encode_pageState.
  cbn [title mainFrameState sessionStateObject shouldOpenExternalURLsPolicy] in *. read_fields.
  apply (reads_bind _ _ _ _ so).
  - destruct so as [o|]; [|apply reads_ret]. eapply reads_bind_nil; [read_field|].
    rewrite createFromWireBytes_toWireBytes. apply reads_ret.
  - eapply reads_bind_nil; [apply (reads_enum policyBytes)|]. replace (negb _) with false by (by destruct po). apply reads_ret.
Qed.

#[local] Instance itemState_lawful : LawfulCoder BackForwardListItemState.
Proof. intros [i p s h] (Hi & Hp & Hs). cbn in Hs. subst s. read_fields. read_last. Qed.

Lemma encode_withoutSnapshots l : encode_listState (withoutSnapshots l) = encode_listState l.
Proof.
  unfold encode_listState, withoutSnapshots. cbn [items currentIndex]. f_equal. unfold encode. cbn. unfold encode_vector.
  unfold sizeOf. rewrite length_map, map_map. done.
Qed.

Lemma reads_listState l : listState_ok l -> reads decode_listState (encode_listState l) (withoutSnapshots l).
Proof.
  intros [Hl Hi]. rewrite <- encode_withoutSnapshots. eapply reads_bind; [|read_last].
  apply decode_encode. split; [cbn; by rewrite length_map|]. cbn. apply Forall_map. eapply Forall_impl; [exact Hi|].
  intros i [? ?]. by split_and!.
Qed.

(** *** The fuel is enough *)

#[local] Instance forward_intPoint : Forward (decode : Dec IntPoint).
Proof. unfold decode; cbn. unfold decode_intPoint. pose proof (forward_fixed _ _ sizeof_ok alignof_ok). apply _. Qed.
#[local] Instance forward_element : Forward (decode : Dec Element).
Proof. unfold decode; cbn. unfold decode_element. apply _. Qed.
#[local] Instance forward_httpBody : Forward (decode : Dec HTTPBody).
Proof. unfold decode; cbn. unfold decode_httpBody. apply _. Qed.
#[local] Instance forward_frames n : Forward (decode_frames n).
Proof. induction n; cbn [decode_frames]; apply _. Qed.

(** Fewer than [r] bytes are left to read. *)
Definition room (r : Z) (d : Decoder) : Prop := inside d /\ m_bufferEnd d - m_bufferPos d < r.

Lemma room_consumed r k d d' : room r d -> consumed k d d' -> room (r - k) d'.
Proof. intros [Hd Hr] (E1 & E2 & H3 & H4). split; [done|]. unfold m_bufferEnd in *. rewrite E1, E2. lia. Qed.

Lemma bind_agree {A B} r (m : Dec A) (k k' : A -> Dec B) d :
  Forward m -> room r d -> (forall v d', room r d' -> k v d' = k' v d') -> bind m k d = bind m k' d.
Proof.
  intros Hm Hd Hk. unfold bind. destruct (m d) as [[v|] d'] eqn:E; [|done]. apply Hk. rewrite <- (Z.sub_0_r r).
  apply (room_consumed r 0 d); [done|]. apply (Hm _ v); [apply Hd|done].
Qed.

Lemma bind_first {A B} (m m' : Dec A) (k : A -> Dec B) d : m d = m' d -> bind m k d = bind m' k d.
Proof. intros E. unfold bind. by rewrite E. Qed.

Lemma decode_elements_agree {A} r (m m' : Dec A) n d :
  Forward m -> room r d -> (forall d', room r d' -> m d' = m' d') -> decode_elements m n d = decode_elements m' n d.
Proof.
  intros Hf Hd Hm. revert d Hd. induction n as [|n IH]; intros d Hd; [done|]. cbn [decode_elements].
  rewrite <- (bind_first m m') by (by apply Hm). apply (bind_agree r); [done|done|].
  intros v d1 Hd1. by apply bind_first, IH.
Qed.

(** The count of the children takes room of its own. *)
Lemma size_consumes r (size : uint64_t) d d' : room r d -> decode d = (Some size, d') -> room (r - 8) d'.
Proof.
  intros Hd. unfold decode. cbn. unfold decode_bits, get_uint, bind.
  destruct (decodeFixedLengthData _ _ d) as [[b|] d1] eqn:E; [|done]. cbn. intros [= _ <-].
  apply (room_consumed r 8 d); [done|]. eapply decodeFixedLengthData_consumes; [| |apply Hd|exact E]; auto with wk. lia.
Qed.

(** Decoding frames from any buffer gives the same result with any fuel above the
    number of bytes left. *)
Lemma decode_frames_enough n n' d :
  room (Z.of_nat n) d -> room (Z.of_nat n') d -> decode_frames n d = decode_frames n' d.
Proof.
  revert n' d. induction n as [|n IH]; intros n' d Hn Hn'; [destruct Hn as [[]]; lia|].
  destruct n' as [|n']; [destruct Hn' as [[]]; lia|]. cbn [decode_frames].
  assert (Hd : room (Z.of_nat (S n) `min` Z.of_nat (S n')) d) by (destruct Hn, Hn'; split; [done|lia]).
  clear Hn Hn'. set (r := _ `min` _) in *. revert d Hd.
  do 12 (intros d Hd; apply (bind_agree r); [apply _|exact Hd|]; clear d Hd; intros ?).
  intros d Hd. apply bind_first. unfold bind. destruct (decode d) as [[size|] d'] eqn:E; [|done].
  apply (size_consumes r) in E; [|done]. eapply decode_elements_agree; [apply _|exact E|].
  intros d1 [Hi Hr]. apply IH; split; [done|lia|done|lia].
Qed.

(** So [decode_frameState] decodes as the unbounded recursion of the source does. *)
Lemma decode_frameState_fuel n d :
  inside d -> (length (m_bytes d) < n)%nat -> decode_frameState d = decode_frames n d.
Proof.
  intros Hd Hn. unfold decode_frameState. apply decode_frames_enough; (split; [done|]);
    destruct Hd as (_ & _ & ? & ?); unfold m_bufferEnd, blen in *; lia.
Qed.


(** ** The theorem *)

(** C16: The saved state of a session history, with any number of items, frames nested to
    any depth, form data, script state and positions, survives the wire: decoding what
    [BackForwardListState::encode] wrote returns the same state, except for the view
    snapshots, which are not sent, and stops right behind it.  The recursion over
    nested frames ends. *)
Theorem session_history_roundtrip l d off suffix :
  listState_ok l -> placed d off -> m_attachments d = rev (attachments_of (encode_listState l)) ->
  bytes_from d off = emit off (encode_listState l) ++ suffix ->
  decode_listState d = (Some (withoutSnapshots l), seek (off + blen (emit off (encode_listState l))) [] d).
Proof. intros Hok Hp Ha Hb. by apply (reads_listState l Hok d off suffix []). Qed.

End coders.

(** A layout, an enum and a script value to run the coders with. *)
Definition samplePolicies : EnumTraits ShouldOpenExternalURLsPolicy :=
  {| toRaw p := match p with ShouldNotAllow => 0 | ShouldAllowExternalSchemesButNotAppLinks => 1 | ShouldAllow => 2 end;
     fromRaw z := if z =? 0 then Some ShouldNotAllow else if z =? 1 then Some ShouldAllowExternalSchemesButNotAppLinks
                  else if z =? 2 then Some ShouldAllow else None |}.
Lemma samplePolicies_lawful : @LawfulEnum ShouldOpenExternalURLsPolicy 1 samplePolicies.
Proof. split; [by intros []|intros []; simpl; lia|auto with wk]. Qed.

Definition sampleBody : HTTPBody :=
  mkHTTPBody NullString
    [mkElement TypeData (mkByteVector [1; 255]) NullString (mkInt64 (bits.of_Z 64 0)) None None NullString;
     mkElement TypeFile (mkByteVector []) (String8 [47; 97]) (mkInt64 (bits.of_Z 64 (-1))) (Some (mkInt64 (bits.of_Z 64 9)))
       (Some (mkWallTime (mkDouble (bits.of_Z 64 77)))) NullString].
Definition sampleFrame (body : option HTTPBody) (children : list FrameState) : FrameState :=
  mkFrameState (String8 [97; 98]) NullString (String16 [8364]) NullString [String8 []; NullString]
    (Some (mkByteVector [7])) (mkInt64 (bits.of_Z 64 (-5))) (mkInt64 (bits.of_Z 64 6))
    (mkIntPoint (le_split 8 12345)) true (mkFloat (bits.of_Z 32 3)) body children.
Definition sampleState : @BackForwardListState ByteVector uint64_t :=
  mkListState
    [mkItemState (bits.of_Z 64 3) (mkPageState (String8 [116])
       (sampleFrame (Some sampleBody) [sampleFrame None [sampleFrame None []]; sampleFrame None []])
       ShouldAllow (Some (mkByteVector [9; 8]))) (Some 4%nat) true]
    (Some (bits.of_Z 32 0)).

Lemma session_history_roundtrip_witness :
  let ops := @encode_listState 8 4 1 samplePolicies _ id id _ _ sampleState in
  fst (@decode_listState 8 4 1 samplePolicies _ id id _ _ (mkDecoder 4096 (emit 0 ops) 4096 [] 0 0 0)) =
  Some (withoutSnapshots sampleState).
Proof.
  intros ops.
  rewrite (@session_history_roundtrip 8 4 (ltac:(auto with wk)) 1 samplePolicies samplePolicies_lawful _ id id
    (fun _ => eq_refl) _ _ _ sampleState (mkDecoder 4096 (emit 0 ops) 4096 [] 0 0 0) 0 []).
  - reflexivity.
  - split; [simpl; lia|]. repeat first [split | constructor]; cbn; lia.
  - apply placed_example. vm_compute. reflexivity.
  - vm_compute. reflexivity.
  - rewrite app_nil_r. reflexivity.
Defined.

End SessionState.
