(* ===== verification/BackForwardList.v ===== *)
(** * UIProcess/WebBackForwardList.cpp: a page's session history

    The list owned by a [WebPageProxy]: entries, the index of the current one, and
    the page (null once it is closed).  Calls into the page are recorded in order
    in [m_log]; the page's answer to "should the current item stay in the list"
    is a parameter.  Items are compared by address, as in the source. *)

From S2P Require Import Prelude.

Local Open Scope outcome_scope.
Local Open Scope nat_scope.

Module BackForwardList.

Definition DefaultCapacity : nat := 100.

(** [BackForwardListItemState]: the identifier and the page state behind it. *)
Record ItemState := mkItemState { identifier : Z; pageState : Z }.
(** A [WebBackForwardListItem]: its address and its state. *)
Record Item := mkItem { ptr : Z; itemState : ItemState }.

#[global] Instance ItemState_eq_dec : EqDecision ItemState.
Proof. solve_decision. Defined.
#[global] Instance Item_eq_dec : EqDecision Item.
Proof. solve_decision. Defined.

(** Calls the list makes on its page. *)
Inductive Event :=
| RecordAutomaticNavigationSnapshot
| BackForwardRemovedItem (item : Item)
| DidChangeBackForwardList (added : option Item) (removed : list Item)
| LogBackNavigationDelta (delta : nat).

Record WebBackForwardList := mkList {
  m_page : bool;
  m_entries : list Item;
  m_currentIndex : option nat;
  m_log : list Event
}.

(** [didRemoveItem] tells the item and the page that the item is gone. *)
Definition didRemoveItem (log : list Event) (item : Item) : list Event :=
  log ++ [BackForwardRemovedItem item].

(** First index holding the given item, by address. *)
Fixpoint findItem (p : Z) (entries : list Item) : option nat :=
  match entries with
  | [] => None
  | e :: rest => if decide (ptr e = p) then Some 0 else S <$> findItem p rest
  end.

(** [while (m_entries.size() > targetSize) { ... m_entries.removeLast(); }] *)
Fixpoint tossForward (fuel targetSize : nat) (entries removed : list Item) (log : list Event)
    : list Item * list Item * list Event :=
  match fuel with
  | O => (entries, removed, log)
  | S fuel' =>
      if decide (targetSize < length entries) then
        match last entries with
        | Some x => tossForward fuel' targetSize (removelast entries) (removed ++ [x]) (didRemoveItem log x)
        | None => (entries, removed, log)
        end
      else (entries, removed, log)
  end.

Section with_page.
(** [m_page->shouldKeepCurrentBackForwardListItemInList(item)] *)
Context (shouldKeep : Item -> bool).

(** The first half of [addItem]: make room. Yields the entries, the index, the
    removed items and the log. *)
Definition addItem_makeRoom (s : WebBackForwardList)
    : outcome (list Item * option nat * list Item * list Event) :=
  match m_currentIndex s with
  | Some i =>
      let log := m_log s ++ [RecordAutomaticNavigationSnapshot] in
      let targetSize := unsigned32 (i + 1) in
      if decide (length (m_entries s) < targetSize) then Crash (* reserveCapacity of a wrapped size *)
      else
        let '(entries, removed, log) := tossForward (length (m_entries s)) targetSize (m_entries s) [] log in
        if decide (DefaultCapacity <= length entries /\ i <> 0) then
          match entries with
          | [] => Crash
          | first :: rest =>
              Done (rest, (if decide (rest = []) then None else Some (i - 1)), removed ++ [first], didRemoveItem log first)
          end
        else Done (entries, Some i, removed, log)
  | None => Done ([], None, m_entries s, foldl didRemoveItem (m_log s) (m_entries s))
  end.

Definition addItem (newItem : Item) (s : WebBackForwardList) : outcome WebBackForwardList :=
  if negb (m_page s) then Done s
  else
    let! room := addItem_makeRoom s in
    let '(entries, currentIndex, removed, log) := room in
    match currentIndex with
    | None =>
        Done (mkList true (newItem :: entries) (Some 0) (log ++ [DidChangeBackForwardList (Some newItem) removed]))
    | Some j =>
        match entries !! j with
        | None => Crash
        | Some current =>
            if shouldKeep current then
              Done (mkList true
                (if decide (j + 1 <= length entries) then take (j + 1) entries ++ newItem :: drop (j + 1) entries else entries)
                (Some (j + 1)) (log ++ [DidChangeBackForwardList (Some newItem) removed]))
            else
              Done (mkList true (<[j := newItem]> entries) (Some j)
                (log ++ [DidChangeBackForwardList (Some newItem) (removed ++ [current])]))
        end
    end.

Definition goToItem (item : Item) (s : WebBackForwardList) : outcome WebBackForwardList :=
  match m_currentIndex s with
  | None => Done s
  | Some i =>
      if decide (m_entries s = []) then Done s
      else if negb (m_page s) then Done s
      else
        match findItem (ptr item) (m_entries s) with
        | None => Done s
        | Some target =>
            let log := if decide (target < i)
                       then m_log s ++ [LogBackNavigationDelta (unsigned32 (length (m_entries s) - target - 1))]
                       else m_log s in
            match m_entries s !! i with
            | None => Crash
            | Some current =>
                if decide (ptr current = ptr item) then
                  Done (mkList true (m_entries s) (Some target) (log ++ [DidChangeBackForwardList None []]))
                else
                  let log := log ++ [RecordAutomaticNavigationSnapshot] in
                  if shouldKeep current then
                    Done (mkList true (m_entries s) (Some target) (log ++ [DidChangeBackForwardList None []]))
                  else
                    let entries := delete i (m_entries s) in
                    match findItem (ptr item) entries with
                    | None => Undefined (* m_currentIndex would become notFound *)
                    | Some target' =>
                        Done (mkList true entries (Some target') (log ++ [DidChangeBackForwardList None [current]]))
                    end
            end
        end
  end.

End with_page.

Definition pageClosed (s : WebBackForwardList) : WebBackForwardList :=
  mkList false [] None (if m_page s then foldl didRemoveItem (m_log s) (m_entries s) else m_log s).

(** Calls [m_page->didChangeBackForwardList] without checking [m_page]. *)
Definition removeAllItems (s : WebBackForwardList) : outcome WebBackForwardList :=
  if m_page s then
    Done (mkList true [] None (foldl didRemoveItem (m_log s) (m_entries s) ++ [DidChangeBackForwardList None (m_entries s)]))
  else Undefined.

(** ** Accessors *)

Definition currentItem (s : WebBackForwardList) : outcome (option Item) :=
  match m_page s, m_currentIndex s with
  | true, Some i => match m_entries s !! i with Some x => Done (Some x) | None => Crash end
  | _, _ => Done None
  end.

Definition backItem (s : WebBackForwardList) : outcome (option Item) :=
  match m_page s, m_currentIndex s with
  | true, Some (S i) => match m_entries s !! i with Some x => Done (Some x) | None => Crash end
  | _, _ => Done None
  end.

Definition forwardItem (s : WebBackForwardList) : outcome (option Item) :=
  match m_page s, m_currentIndex s with
  | true, Some i =>
      if decide (m_entries s <> [] /\ i < length (m_entries s) - 1)
      then match m_entries s !! (i + 1) with Some x => Done (Some x) | None => Crash end
      else Done None
  | _, _ => Done None
  end.

Definition backListCount (s : WebBackForwardList) : nat :=
  match m_page s, m_currentIndex s with true, Some i => unsigned32 i | _, _ => 0 end.

Definition forwardListCount (s : WebBackForwardList) : nat :=
  match m_page s, m_currentIndex s with
  | true, Some i => unsigned32 (length (m_entries s) - (i + 1))
  | _, _ => 0
  end.

Definition counts (s : WebBackForwardList) : nat * nat := (backListCount s, forwardListCount s).

(** [index] is an [int]; [static_cast<unsigned>(-index)] at 32 bits. *)
Definition itemAtIndex (index : Z) (s : WebBackForwardList) : outcome (option Item) :=
  match m_page s, m_currentIndex s with
  | true, Some i =>
      if ((index <? 0) && (Z.of_nat (backListCount s) <? wrap 32 (- index)))%Z then Done None
      else if ((0 <? index) && (Z.of_nat (forwardListCount s) <? wrap 32 index))%Z then Done None
      else match m_entries s !! Z.to_nat (wrap 64 (index + Z.of_nat i)) with Some x => Done (Some x) | None => Crash end
  | _, _ => Done None
  end.

(** [for (i = first; i < first + n; ++i) vector.uncheckedAppend(m_entries[i])] *)
Fixpoint copyEntries (n first : nat) (entries : list Item) : outcome (list Item) :=
  match n with
  | O => Done []
  | S n' =>
      match entries !! first with
      | None => Crash
      | Some x => let! xs := copyEntries n' (first + 1) entries in Done (x :: xs)
      end
  end.

Definition backListAsAPIArrayWithLimit (limit : nat) (s : WebBackForwardList) : outcome (list Item) :=
  match m_page s, m_currentIndex s with
  | true, Some _ =>
      let backListSize := backListCount s in
      let size := Nat.min backListSize limit in
      copyEntries size (backListSize - size) (m_entries s)
  | _, _ => Done []
  end.

Definition forwardListAsAPIArrayWithLimit (limit : nat) (s : WebBackForwardList) : outcome (list Item) :=
  match m_page s, m_currentIndex s with
  | true, Some i => copyEntries (Nat.min (forwardListCount s) limit) (i + 1) (m_entries s)
  | _, _ => Done []
  end.

Definition backList (s : WebBackForwardList) : outcome (list Item) := backListAsAPIArrayWithLimit (backListCount s) s.
Definition forwardList (s : WebBackForwardList) : outcome (list Item) := forwardListAsAPIArrayWithLimit (forwardListCount s) s.

Definition clear (s : WebBackForwardList) : outcome WebBackForwardList :=
  if decide (m_page s = false \/ length (m_entries s) <= 1) then Done s
  else
    let! current := currentItem s in
    match current with
    | None =>
        Done (mkList true [] None (foldl didRemoveItem (m_log s) (m_entries s) ++ [DidChangeBackForwardList None (m_entries s)]))
    | Some c =>
        let log := foldl didRemoveItem (m_log s) (filter (fun e => ptr e <> ptr c) (m_entries s)) in
        let removed := match m_currentIndex s with Some i => delete i (m_entries s) | None => [] end in
        Done (mkList true [c] (Some 0) (log ++ [DidChangeBackForwardList None removed]))
    end.

(** ** Saving and restoring *)

Record BackForwardListState := mkState { items : list ItemState; currentIndex : option nat }.

(** One round of the loop of [backForwardListState] over entry [i]. *)
Definition saveEntry (keep : Item -> bool) (acc : BackForwardListState) (i : nat) (entry : Item) : BackForwardListState :=
  if keep entry then mkState (items acc ++ [itemState entry]) (currentIndex acc)
  else match currentIndex acc with
       | Some c => if decide (i <= c /\ c <> 0) then mkState (items acc) (Some (c - 1)) else acc
       | None => acc
       end.

Fixpoint saveEntries (keep : Item -> bool) (i : nat) (entries : list Item) (acc : BackForwardListState) : BackForwardListState :=
  match entries with
  | [] => acc
  | e :: rest => saveEntries keep (i + 1) rest (saveEntry keep acc i e)
  end.

Definition backForwardListState (keep : Item -> bool) (s : WebBackForwardList) : outcome BackForwardListState :=
  let st := saveEntries keep 0 (m_entries s) (mkState [] (m_currentIndex s)) in
  if decide (items st = []) then Done (mkState [] None)
  else match currentIndex st with
       | None => Crash (* value() of an empty Optional *)
       | Some c => if decide (length (items st) <= c) then Done (mkState (items st) (Some (length (items st) - 1))) else Done st
       end.

(** [fresh k] is the address of the [k]-th item created, [newIdentifier k] its identifier. *)
Definition restoreFromState (fresh newIdentifier : nat -> Z) (st : BackForwardListState) (s : WebBackForwardList) : WebBackForwardList :=
  if m_page s then
    mkList true (imap (fun k x => mkItem (fresh k) (mkItemState (newIdentifier k) (pageState x))) (items st)) (currentIndex st) (m_log s)
  else s.

Definition filteredItemStates (keep : Item -> bool) (s : WebBackForwardList) : list ItemState :=
  itemState <$> filter (fun e => keep e = true) (m_entries s).
Definition itemStates (s : WebBackForwardList) : list ItemState := filteredItemStates (fun _ => true) s.

(** ** Invariant *)

(** The index designates an entry, or there are no entries; a closed page has
    none; no item occurs twice; the counts fit in [unsigned]. *)
Record wf (s : WebBackForwardList) : Prop := {
  wf_index : match m_currentIndex s with Some i => i < length (m_entries s) | None => m_entries s = [] end;
  wf_closed : m_page s = false -> m_entries s = [];
  wf_nodup : NoDup (ptr <$> m_entries s);
  wf_length : (Z.of_nat (length (m_entries s)) < 2 ^ 32 - 1)%Z
}.

Lemma tossForward_spec fuel target entries removed log :
  length entries - target <= fuel -> 
  exists log', tossForward fuel target entries removed log =
    (take target entries, removed ++ rev (drop target entries), log') /\
    log' = foldl didRemoveItem log (rev (drop target entries)).
Proof.
  revert entries removed log. induction fuel as [|fuel IH]; intros entries removed log Hf; simpl.
  - rewrite take_ge, drop_ge by lia. simpl. rewrite app_nil_r. by eexists.
  - case_decide as Hlt.
    + destruct entries as [|x entries _] using rev_ind; [simpl in Hlt; lia|].
      rewrite last_snoc, removelast_last. rewrite length_app in *. simpl in *.
      destruct (IH entries (removed ++ [x]) (didRemoveItem log x)) as (log' & -> & ->); [lia|].
      rewrite take_app_le, drop_app_le by lia. rewrite rev_unit. simpl.
      eexists. rewrite <- app_assoc. done.
    + rewrite take_ge, drop_ge by lia. simpl. rewrite app_nil_r. by eexists.
Qed.

Lemma findItem_Some p entries i :
  findItem p entries = Some i -> exists x, entries !! i = Some x /\ ptr x = p.
Proof.
  revert i. induction entries as [|e rest IH]; intros i; simpl; [done|].
  case_decide; [intros [= <-]; eauto|].
  destruct (findItem p rest) as [k|]; simpl; [|done]. intros [= <-]. simpl. by apply IH.
Qed.

Lemma findItem_is_Some p entries x : x ∈ entries -> ptr x = p -> is_Some (findItem p entries).
Proof.
  intros Hin <-. induction entries as [|e rest IH]; [by apply not_elem_of_nil in Hin|].
  simpl. case_decide; [done|]. apply elem_of_cons in Hin as [->|Hin]; [done|].
  destruct (IH Hin) as [k ->]. done.
Qed.

(** ** The abstract history

    What the list promises to the page: a back list (oldest first), a current item
    and a forward list (nearest first). *)
Module Spec.
Definition history : Type := option (list Item * Item * list Item).

(** The oldest entry goes when the list is full. *)
Definition trim (b : list Item) : list Item :=
  if decide (DefaultCapacity <= length b + 1 /\ b <> []) then drop 1 b else b.

(** Navigating to a new page: the forward list goes, and the current item is
    pushed on the back list unless the client drops it. *)
Definition add (keep : Item -> bool) (new : Item) (h : history) : history :=
  match h with
  | None => Some ([], new, [])
  | Some (b, c, _) => Some ((if keep c then trim b ++ [c] else trim b), new, [])
  end.
End Spec.

Definition abs (s : WebBackForwardList) : Spec.history :=
  match m_page s, m_currentIndex s with
  | true, Some i =>
      match m_entries s !! i with
      | Some c => Some (take i (m_entries s), c, drop (i + 1) (m_entries s))
      | None => None
      end
  | _, _ => None
  end.

(** The change a [didChangeBackForwardList] at the end of the log reports. *)
Definition reports (s' : WebBackForwardList) (added : option Item) (removed : list Item) : Prop :=
  exists log, m_log s' = log ++ [DidChangeBackForwardList added removed].

Lemma split_at_index (l : list Item) i c :
  l !! i = Some c -> l = take i l ++ c :: drop (i + 1) l /\ length (take i l) = i.
Proof.
  intros Hc. replace (i + 1) with (S i) by lia. split; [symmetry; by apply take_drop_middle|].
  apply lookup_lt_Some in Hc. rewrite length_take. lia.
Qed.

Lemma trim_suffix b : exists old, b = old ++ Spec.trim b /\ length (Spec.trim b) <= Nat.max (DefaultCapacity - 2) (length b) /\
  (DefaultCapacity <= length b + 1 -> b <> [] -> length (Spec.trim b) < length b).
Proof.
  unfold Spec.trim. case_decide as H.
  - destruct b as [|x b]; [by destruct H|]. exists [x]. simpl. rewrite drop_0. split_and!; [done | lia | lia].
  - exists []. split_and!; [done | lia |]. intros ? ?. exfalso. by apply H.
Qed.

(** What making room amounts to: the trimmed back list and the current item stay. *)
Lemma makeRoom_spec s i c :
  wf s -> m_currentIndex s = Some i -> m_entries s !! i = Some c ->
  exists removed log,
    addItem_makeRoom s = Done (Spec.trim (take i (m_entries s)) ++ [c], Some (length (Spec.trim (take i (m_entries s)))), removed, log) /\
    m_entries s ≡ₚ (Spec.trim (take i (m_entries s)) ++ [c]) ++ removed.
Proof.
  intros [_ _ _ Hl] Hi Hc. destruct (split_at_index _ _ _ Hc) as [Hsplit Hlen].
  pose proof (lookup_lt_Some _ _ _ Hc) as Hlt. unfold addItem_makeRoom. rewrite Hi.
  rewrite unsigned32_small by lia. rewrite decide_False by lia.
  destruct (tossForward_spec (length (m_entries s)) (i + 1) (m_entries s) []
    (m_log s ++ [RecordAutomaticNavigationSnapshot])) as (log' & -> & _); [lia|]. simpl.
  assert (m_entries s ≡ₚ (take i (m_entries s) ++ [c]) ++ rev (drop (i + 1) (m_entries s))) as Hperm
    by (rewrite Hsplit at 1; rewrite <- app_assoc; simpl; by rewrite <- Permutation_rev).
  assert (take (i + 1) (m_entries s) = take i (m_entries s) ++ [c]) as ->
    by (replace (i + 1) with (S i) by lia; by apply take_S_r).
  rewrite length_app, Hlen. simpl length. unfold Spec.trim. rewrite Hlen.
  destruct (take i (m_entries s)) as [|x b] eqn:Eb.
  - simpl in Hlen. subst i. rewrite !decide_False by (intros [_ ?]; done). by eexists _, _.
  - simpl in Hlen. destruct (decide (DefaultCapacity <= i + 1)).
    + rewrite !decide_True by (split; [lia | by try lia]).
      simpl. rewrite !drop_0, decide_False by (by intros [_ ?]%app_nil).
      eexists _, _. split; [repeat f_equal; lia|]. etrans; [exact Hperm|]. simpl. rewrite app_assoc. apply Permutation_cons_append.
    + rewrite !decide_False by lia. simpl. rewrite Hlen. eexists _, _. split; [done|exact Hperm].
Qed.

(** A list with page, entries [b ++ [c] ++ f] and current item [c]. *)
Lemma wf_intro b c f log :
  NoDup (ptr <$> b ++ c :: f) -> (Z.of_nat (length (b ++ c :: f)) < 2 ^ 32 - 1)%Z ->
  wf (mkList true (b ++ c :: f) (Some (length b)) log) /\
  abs (mkList true (b ++ c :: f) (Some (length b)) log) = Some (b, c, f).
Proof.
  intros Hnd Hl. split.
  - split; simpl; [rewrite length_app; simpl; lia | done | done | done].
  - unfold abs. simpl. rewrite list_lookup_middle by done. rewrite take_app_length.
    replace (length b + 1) with (S (length b)) by lia. replace (b ++ c :: f) with ((b ++ [c]) ++ f) by (by rewrite <- app_assoc).
    by rewrite drop_app_length' by (rewrite length_app; simpl; lia).
Qed.

Lemma wf_current s i : wf s -> m_currentIndex s = Some i ->
  exists c, m_entries s !! i = Some c /\ m_page s = true.
Proof.
  intros [Hi Hc _ _] E. rewrite E in Hi. destruct (m_entries s !! i) as [c|] eqn:Hx.
  - exists c. split; [done|]. destruct (m_page s); [done|]. rewrite Hc in Hx by done. done.
  - apply lookup_ge_None in Hx. lia.
Qed.

Lemma addItem_spec keep new s :
  wf s -> m_page s = true -> ptr new ∉ (ptr <$> m_entries s) ->
  exists s' removed, addItem keep new s = Done s' /\ wf s' /\ m_page s' = true /\
    abs s' = Spec.add keep new (abs s) /\ reports s' (Some new) removed /\
    m_entries s ++ [new] ≡ₚ m_entries s' ++ removed /\
    length (m_entries s') <= Nat.max DefaultCapacity (length (m_entries s)).
Proof.
  intros Hwf Hpage Hnew. pose proof Hwf as [Hi _ Hnd Hl]. unfold addItem. rewrite Hpage. simpl.
  destruct (m_currentIndex s) as [i|] eqn:Ei.
  2:{ unfold addItem_makeRoom. rewrite Ei, Hi. simpl. eexists _, []. split; [done|].
      destruct (wf_intro [] new [] [DidChangeBackForwardList (Some new) []]) as [[] _]; [apply NoDup_singleton | simpl; lia|].
      split_and!; try done; [by unfold abs; rewrite Hpage, Ei | by exists (foldl didRemoveItem (m_log s) []) | simpl; unfold DefaultCapacity; lia]. }
  destruct (wf_current s i Hwf Ei) as (c & Hc & _).
  destruct (makeRoom_spec s i c Hwf Ei Hc) as (removed & log & -> & Hperm).
  unfold abs at 2. rewrite Hpage, Ei, Hc. simpl. rewrite list_lookup_middle by done.
  pose proof (split_at_index _ _ _ Hc) as [_ Hlen]. pose proof (lookup_lt_Some _ _ _ Hc) as Hlt.
  destruct (trim_suffix (take i (m_entries s))) as (old & _ & Hshort & Htrim). rewrite Hlen in *.
  set (b := Spec.trim (take i (m_entries s))) in *.
  assert (NoDup (ptr <$> (b ++ [c]) ++ [new])) as Hnd'.
  { rewrite fmap_app. apply NoDup_app. rewrite Hperm, fmap_app in Hnd. apply NoDup_app in Hnd as [Hnd _].
    split; [done|]. split; [|apply NoDup_singleton]. intros x Hx. simpl. rewrite list_elem_of_singleton. intros ->.
    apply Hnew. rewrite Hperm, fmap_app. apply elem_of_app. by left. }
  assert (length b + 2 <= Nat.max DefaultCapacity (length (m_entries s))) as Hcap.
  { destruct (decide (DefaultCapacity <= i + 1)); [|unfold DefaultCapacity in *; lia].
    destruct (take i (m_entries s)) eqn:E; [simpl in Hlen; unfold DefaultCapacity in *; lia|].
    specialize (Htrim ltac:(lia) ltac:(done)). lia. }
  unfold reports. destruct (keep c); eexists _, _; (split; [done|]); simpl.
  - rewrite decide_True by (rewrite length_app; simpl; lia).
    rewrite (take_ge (b ++ [c])), (drop_ge (b ++ [c])) by (rewrite length_app; simpl; lia).
    replace (length b + 1) with (length (b ++ [c])) by (rewrite length_app; simpl; lia).
    destruct (wf_intro (b ++ [c]) new [] (log ++ [DidChangeBackForwardList (Some new) removed])) as [Hw Ha];
      [done | rewrite !length_app in *; simpl in *; unfold DefaultCapacity in *; lia|].
    split_and!; try done; [by eexists | | rewrite !length_app; simpl; lia].
    rewrite Hperm, <- !app_assoc. do 2 apply Permutation_app_head. apply Permutation_app_comm.
  - rewrite insert_app_r_alt by done. rewrite Nat.sub_diag. simpl.
    destruct (wf_intro b new [] (log ++ [DidChangeBackForwardList (Some new) (removed ++ [c])])) as [Hw Ha];
      [| rewrite !length_app in *; simpl in *; unfold DefaultCapacity in *; lia |].
    { rewrite !fmap_app in *. apply NoDup_app in Hnd' as (H1 & H2 & H3). apply NoDup_app in H1 as (H1 & _).
      apply NoDup_app. split; [done|]. split; [|done]. intros x Hx. apply H2. apply elem_of_app. by left. }
    split_and!; try done; [by eexists | | rewrite !length_app; simpl; lia].
    rewrite Hperm, <- !app_assoc. apply Permutation_app_head. simpl.
    rewrite <- !Permutation_cons_append. apply perm_swap.
Qed.

Lemma NoDup_ptr_delete (l : list Item) i : NoDup (ptr <$> l) -> NoDup (ptr <$> delete i l).
Proof.
  intros Hnd. rewrite delete_take_drop, fmap_app, fmap_take, fmap_drop.
  eapply sublist_NoDup; [exact Hnd|]. rewrite <- (take_drop i (ptr <$> l)) at 3.
  apply sublist_app; [done|].
  replace (S i) with (i + 1) by lia. rewrite <- drop_drop. apply sublist_drop.
Qed.

(** [goToItem] on a list that has the target. *)
Lemma goToItem_spec keep item s i c :
  wf s -> m_currentIndex s = Some i -> m_entries s !! i = Some c ->
  (exists x, x ∈ m_entries s /\ ptr x = ptr item) ->
  exists s' x, goToItem keep item s = Done s' /\ wf s' /\ m_page s' = true /\
    currentItem s' = Done (Some x) /\ ptr x = ptr item /\
    let stays := bool_decide (ptr c = ptr item) || keep c in
    m_entries s' = (if stays then m_entries s else delete i (m_entries s)) /\
    reports s' None (if stays then [] else [c]).
Proof.
  intros Hwf Hi Hc (x & Hx & Hpx). destruct (wf_current s i Hwf Hi) as (? & _ & Hpage).
  pose proof Hwf as [_ _ Hnd Hl]. pose proof (lookup_lt_Some _ _ _ Hc) as Hlt.
  destruct (findItem_is_Some (ptr item) _ x Hx Hpx) as [t Ht].
  unfold goToItem. rewrite Hi, Hpage, Ht, Hc. rewrite decide_False by (intros E; rewrite E in Hc; done). simpl.
  assert (forall log, exists y, currentItem (mkList true (m_entries s) (Some t) log) = Done (Some y) /\ ptr y = ptr item /\
    wf (mkList true (m_entries s) (Some t) log)) as Hstay.
  { intros log. destruct (findItem_Some _ _ _ Ht) as (y & Hy & Hpy). exists y. unfold currentItem. simpl. rewrite Hy.
    split; [done|]. split; [done|]. apply lookup_lt_Some in Hy. by split. }
  unfold reports. destruct (decide (ptr c = ptr item)) as [Heq|Hne]; [rewrite bool_decide_true by done|rewrite bool_decide_false by done; destruct (keep c)]; simpl;
    try (match goal with |- context [mkList true (m_entries s) (Some t) ?log] => destruct (Hstay log) as (y & ? & ? & ?) end;
         eexists _, y; split; [done|]; split_and!; try done; by eexists).
  assert (x ∈ delete i (m_entries s)) as Hx'.
  { apply list_elem_of_lookup in Hx as [k Hk]. rewrite delete_take_drop.
    destruct (decide (k < i)); [apply elem_of_app; left; apply list_elem_of_lookup; exists k; rewrite lookup_take_lt by lia; done|].
    destruct (decide (k = i)) as [->|]; [congruence|].
    apply elem_of_app; right. apply list_elem_of_lookup. exists (k - S i). rewrite lookup_drop. rewrite <- Hk. f_equal. lia. }
  destruct (findItem_is_Some (ptr item) _ x Hx' Hpx) as [t' Ht']. rewrite Ht'.
  destruct (findItem_Some _ _ _ Ht') as (y & Hy & Hpy). eexists _, y. split; [done|].
  pose proof (length_delete (m_entries s) i ltac:(by eexists)) as Hld.
  unfold currentItem. simpl. rewrite Hy. apply lookup_lt_Some in Hy.
  split_and!; try done; [|by eexists]. split; simpl; [done | done | by apply NoDup_ptr_delete | lia].
Qed.

Lemma clear_spec s i c :
  wf s -> m_currentIndex s = Some i -> m_entries s !! i = Some c -> 1 < length (m_entries s) ->
  exists s', clear s = Done s' /\ wf s' /\ abs s' = Some ([], c, []) /\ m_entries s' = [c] /\
    reports s' None (delete i (m_entries s)).
Proof.
  intros Hwf Hi Hc Hlen. destruct (wf_current s i Hwf Hi) as (? & _ & Hpage).
  unfold clear. rewrite decide_False by (rewrite Hpage; intros [?|?]; [done|lia]).
  unfold currentItem. rewrite Hpage, Hi, Hc. simpl. eexists. split; [done|].
  destruct (wf_intro [] c [] (m_log s)) as [[]  _]; [apply NoDup_singleton | simpl; lia|].
  split; [by split|]. split_and!; try done. by eexists.
Qed.

(** ** Histories of operations *)

Definition restorable (st : BackForwardListState) : Prop :=
  match currentIndex st with Some i => i < length (items st) | None => items st = [] end /\
  (Z.of_nat (length (items st)) < 2 ^ 32 - 1)%Z.

Inductive step (keep : Item -> bool) : WebBackForwardList -> WebBackForwardList -> Prop :=
| step_addItem new s s' : ptr new ∉ (ptr <$> m_entries s) -> addItem keep new s = Done s' -> step keep s s'
| step_goToItem item s s' : goToItem keep item s = Done s' -> step keep s s'
| step_removeAllItems s s' : removeAllItems s = Done s' -> step keep s s'
| step_clear s s' : clear s = Done s' -> step keep s s'
| step_pageClosed s : step keep s (pageClosed s)
| step_restoreFromState fresh newIdentifier st s :
    restorable st -> Inj (=) (=) fresh -> step keep s (restoreFromState fresh newIdentifier st s).

Definition initial : WebBackForwardList := mkList true [] None [].

Lemma wf_empty page log : wf (mkList page [] None log).
Proof. split; simpl; [done | done | constructor | lia]. Qed.

Lemma restore_wf fresh newIdentifier st s :
  wf s -> restorable st -> Inj (=) (=) fresh -> wf (restoreFromState fresh newIdentifier st s).
Proof.
  intros Hwf [Hidx Hl] Hinj. unfold restoreFromState. destruct (m_page s); [|done].
  split; simpl; rewrite ?length_imap; try done.
  - destruct (currentIndex st); [done|]. by rewrite Hidx.
  - apply NoDup_alt. intros a b x Ha Hb.
    rewrite list_lookup_fmap, list_lookup_imap in Ha, Hb.
    destruct (items st !! a); simplify_eq/=. destruct (items st !! b); simplify_eq/=. by apply Hinj.
Qed.

Lemma step_wf keep s s' : wf s -> step keep s s' -> wf s'.
Proof.
  intros Hwf Hstep.
  destruct Hstep as [new s s' Hnew Hadd|item s s' Hgo|s s' Hrm|s s' Hcl|s|fresh nid st s Hst Hinj].
  - destruct (m_page s) eqn:Hp.
    + destruct (addItem_spec keep new s Hwf Hp Hnew) as (? & ? & E & ? & _). congruence.
    + unfold addItem in Hadd. rewrite Hp in Hadd. simpl in Hadd. congruence.
  - destruct (m_currentIndex s) as [i|] eqn:Hi; [|unfold goToItem in Hgo; rewrite Hi in Hgo; congruence].
    destruct (wf_current s i Hwf Hi) as (c & Hc & Hp).
    destruct (findItem (ptr item) (m_entries s)) as [t|] eqn:Ht.
    + destruct (findItem_Some _ _ _ Ht) as (x & Hx & Hpx).
      destruct (goToItem_spec keep item s i c Hwf Hi Hc) as (? & ? & E & ? & _); [|congruence].
      exists x. split; [by eapply list_elem_of_lookup_2 | done].
    + unfold goToItem in Hgo. rewrite Hi, Ht, Hp in Hgo. case_decide; simpl in Hgo; congruence.
  - unfold removeAllItems in Hrm. destruct (m_page s); simplify_eq. apply wf_empty.
  - destruct (decide (length (m_entries s) <= 1)).
    { unfold clear in Hcl. rewrite decide_True in Hcl by auto. congruence. }
    destruct (m_currentIndex s) as [i|] eqn:Hi.
    + destruct (wf_current s i Hwf Hi) as (c & Hc & Hp).
      destruct (clear_spec s i c Hwf Hi Hc) as (? & E & ? & _); [lia|congruence].
    + destruct Hwf as [Hx _ _ _]. rewrite Hi in Hx. rewrite Hx in *. simpl in *. lia.
  - apply wf_empty.
  - by apply restore_wf.
Qed.

(** ** Accessors on well-formed lists *)

Lemma counts_spec s i :
  wf s -> m_currentIndex s = Some i ->
  backListCount s = i /\ forwardListCount s = length (m_entries s) - (i + 1).
Proof.
  intros Hwf Hi. destruct (wf_current s i Hwf Hi) as (c & Hc & Hp). pose proof (lookup_lt_Some _ _ _ Hc).
  pose proof (wf_length s Hwf). unfold backListCount, forwardListCount. rewrite Hp, Hi.
  by rewrite !unsigned32_small by lia.
Qed.

Lemma copyEntries_spec n first entries :
  first + n <= length entries -> copyEntries n first entries = Done (take n (drop first entries)).
Proof.
  revert first. induction n as [|n IH]; intros first Hle; simpl; [done|].
  destruct (entries !! first) as [x|] eqn:Hx; [|apply lookup_ge_None in Hx; lia].
  rewrite IH by lia. simpl. rewrite (drop_S _ _ _ Hx). simpl. by replace (first + 1) with (S first) by lia.
Qed.

Lemma saveEntries_all i entries acc :
  saveEntries (fun _ => true) i entries acc = mkState (items acc ++ (itemState <$> entries)) (currentIndex acc).
Proof.
  revert i acc. induction entries as [|e rest IH]; intros i acc; simpl.
  - rewrite app_nil_r. by destruct acc.
  - rewrite IH. unfold saveEntry. simpl. by rewrite <- app_assoc.
Qed.

Lemma saveEntries_index keep i entries acc :
  is_Some (currentIndex acc) -> is_Some (currentIndex (saveEntries keep i entries acc)).
Proof.
  revert i acc. induction entries as [|e rest IH]; intros i acc Hs; simpl; [done|]. apply IH.
  unfold saveEntry. destruct (keep e); [done|]. destruct Hs as [c Hc]. rewrite Hc.
  case_decide; simpl; rewrite ?Hc; eauto.
Qed.

Lemma saveEntries_length keep i entries acc :
  length (items (saveEntries keep i entries acc)) <= length (items acc) + length entries.
Proof.
  revert i acc. induction entries as [|e rest IH]; intros i acc; simpl; [lia|].
  etrans; [apply IH|]. unfold saveEntry. destruct (keep e); simpl.
  - rewrite length_app. simpl. lia.
  - destruct (currentIndex acc); [case_decide|]; simpl; lia.
Qed.

(** ** Properties *)


Definition item_a : Item := mkItem 1 (mkItemState 10 100).
Definition item_b : Item := mkItem 2 (mkItemState 20 200).
Definition item_c : Item := mkItem 3 (mkItemState 30 300).
Definition item_d : Item := mkItem 4 (mkItemState 40 400).
Definition item_e : Item := mkItem 5 (mkItemState 50 500).


(** C6: navigating to a new page is a push on the abstract history. On a
    well-formed list of an open page [addItem] drops the forward list, evicts the
    oldest entry when the list holds [DefaultCapacity] entries, pushes the current
    item unless the client declines, makes the new item current, reports exactly the
    items that left the list, and never grows the list past the capacity. *)
Theorem addItem_refines_history keep new s :
  wf s -> m_page s = true -> ptr new ∉ (ptr <$> m_entries s) -> length (m_entries s) <= DefaultCapacity ->
  exists s' removed, addItem keep new s = Done s' /\ wf s' /\
    abs s' = Spec.add keep new (abs s) /\ reports s' (Some new) removed /\
    m_entries s ++ [new] ≡ₚ m_entries s' ++ removed /\ length (m_entries s') <= DefaultCapacity.
Proof.
  intros Hwf Hp Hnew Hcap. destruct (addItem_spec keep new s Hwf Hp Hnew) as (s' & r & ? & ? & ? & ? & ? & ? & ?).
  exists s', r. split_and!; try done. lia.
Qed.

Definition sample_list : WebBackForwardList := mkList true [item_a; item_b; item_c] (Some 1) [].

Lemma sample_wf : wf sample_list.
Proof. split; simpl; [lia | done | apply (bool_decide_unpack _); vm_compute; exact I | lia]. Qed.

Lemma addItem_refines_history_witness :
  exists s' removed, addItem (fun _ => true) item_d sample_list = Done s' /\ wf s' /\
    abs s' = Spec.add (fun _ => true) item_d (abs sample_list) /\ reports s' (Some item_d) removed /\
    [item_a; item_b; item_c] ++ [item_d] ≡ₚ m_entries s' ++ removed /\ length (m_entries s') <= 100.
Proof.
  apply (addItem_refines_history (fun _ => true) item_d sample_list);
    [apply sample_wf | reflexivity | apply (bool_decide_unpack _); vm_compute; exact I | unfold DefaultCapacity; simpl; lia].
Defined.

(** Going to an item of the list makes it current. The entries stay as they
    are, except that a current item the client declines to keep is taken out and
    reported; the list stays well-formed. *)
Theorem goToItem_makes_current keep item s i c :
  wf s -> m_currentIndex s = Some i -> m_entries s !! i = Some c ->
  (exists x, x ∈ m_entries s /\ ptr x = ptr item) ->
  exists s' x, goToItem keep item s = Done s' /\ wf s' /\ currentItem s' = Done (Some x) /\ ptr x = ptr item /\
    let stays := bool_decide (ptr c = ptr item) || keep c in
    m_entries s' = (if stays then m_entries s else delete i (m_entries s)) /\
    reports s' None (if stays then [] else [c]).
Proof.
  intros Hwf Hi Hc Hx. destruct (goToItem_spec keep item s i c Hwf Hi Hc Hx) as (s' & x & ? & ? & ? & ? & ? & ? & ?).
  by exists s', x.
Qed.

Lemma goToItem_makes_current_witness :
  exists s' x, goToItem (fun _ => false) item_c sample_list = Done s' /\ wf s' /\ currentItem s' = Done (Some x) /\ ptr x = 3%Z /\
    m_entries s' = [item_a; item_c] /\ reports s' None [item_b].
Proof.
  apply (goToItem_makes_current (fun _ => false) item_c sample_list 1 item_b);
    [apply sample_wf | reflexivity | reflexivity |].
  exists item_c. split; [do 2 right; left | reflexivity].
Defined.

(** [itemAtIndex] is total on [int]. For every 32-bit index it returns the item
    that many steps forward (or back) from the current one, and null when there is
    none; it never reads outside the entries. *)
Theorem itemAtIndex_relative s i index :
  wf s -> m_currentIndex s = Some i -> (- 2 ^ 31 <= index < 2 ^ 31)%Z ->
  itemAtIndex index s =
    Done (if (0 <=? Z.of_nat i + index)%Z then m_entries s !! Z.to_nat (Z.of_nat i + index) else None).
Proof.
  intros Hwf Hi Hidx. destruct (wf_current s i Hwf Hi) as (c & Hc & Hp).
  destruct (counts_spec s i Hwf Hi) as [Hb Hf]. pose proof (lookup_lt_Some _ _ _ Hc). pose proof (wf_length s Hwf).
  unfold itemAtIndex. rewrite Hp, Hi, Hb, Hf.
  destruct (index <? 0)%Z eqn:Hneg; zbool; simpl.
  - rewrite (wrap_small 32 (- index)) by (unfold in_width; lia).
    destruct (Z.of_nat i <? - index)%Z eqn:Hout; zbool; [by rewrite (proj2 (Z.leb_gt _ _)) by lia|].
    rewrite (proj2 (Z.ltb_ge 0 index)) by lia. simpl. rewrite (proj2 (Z.leb_le _ _)) by lia.
    rewrite wrap_small by (unfold in_width; lia). rewrite (Z.add_comm index).
    destruct (m_entries s !! Z.to_nat (Z.of_nat i + index)) eqn:E; [done|]. apply lookup_ge_None in E. lia.
  - rewrite (proj2 (Z.leb_le _ _)) by lia. rewrite (wrap_small 64) by (unfold in_width; lia). rewrite (Z.add_comm index).
    destruct (0 <? index)%Z eqn:Hpos; zbool; simpl.
    + rewrite (wrap_small 32) by (unfold in_width; lia).
      destruct (Z.of_nat _ <? index)%Z eqn:Hout; zbool.
      * f_equal. symmetry. apply lookup_ge_None. lia.
      * destruct (m_entries s !! Z.to_nat (Z.of_nat i + index)) eqn:E; [done|]. apply lookup_ge_None in E. lia.
    + destruct (m_entries s !! Z.to_nat (Z.of_nat i + index)) eqn:E; [done|]. apply lookup_ge_None in E. lia.
Qed.

Lemma itemAtIndex_relative_witness :
  itemAtIndex (-1) sample_list = Done (Some item_a) /\ itemAtIndex (- 2 ^ 31) sample_list = Done None.
Proof.
  split.
  - apply (itemAtIndex_relative sample_list 1 (-1)); [apply sample_wf | reflexivity | lia].
  - apply (itemAtIndex_relative sample_list 1 (- 2 ^ 31)); [apply sample_wf | reflexivity | lia].
Defined.

(** The back and forward lists handed to the API. With a limit [n] the back list
    is the [n] most recent back entries, oldest first, and the forward list the
    next [n] forward entries. *)
Theorem backForward_arrays_with_limit s b c f limit :
  wf s -> abs s = Some (b, c, f) ->
  backListAsAPIArrayWithLimit limit s = Done (drop (length b - limit) b) /\
  forwardListAsAPIArrayWithLimit limit s = Done (take limit f).
Proof.
  intros Hwf Habs. unfold abs in Habs. destruct (m_page s) eqn:Hp; [|done].
  destruct (m_currentIndex s) as [i|] eqn:Hi; [|done]. destruct (m_entries s !! i) as [x|] eqn:Hc; [|done].
  injection Habs as <- <- <-. destruct (counts_spec s i Hwf Hi) as [Hb Hf].
  pose proof (lookup_lt_Some _ _ _ Hc). assert (length (take i (m_entries s)) = i) as Hlen by (rewrite length_take; lia).
  unfold backListAsAPIArrayWithLimit, forwardListAsAPIArrayWithLimit. rewrite Hp, Hi, Hb, Hf, Hlen. split.
  - rewrite copyEntries_spec by lia. f_equal.
    replace (i - Nat.min i limit) with (i - limit) by lia.
    rewrite skipn_firstn_comm. f_equal. lia.
  - rewrite copyEntries_spec by lia. f_equal. rewrite Nat.min_comm, <- take_take. f_equal.
    apply take_ge. rewrite length_drop. lia.
Qed.

Lemma backForward_arrays_with_limit_witness :
  backListAsAPIArrayWithLimit 5 sample_list = Done [item_a] /\ forwardListAsAPIArrayWithLimit 5 sample_list = Done [item_c].
Proof.
  apply (backForward_arrays_with_limit sample_list [item_a] item_b [item_c] 5); [apply sample_wf | reflexivity].
Defined.

(** Saving the whole list and restoring it into an open page gives back the
    same page states in the same order with the same current index. *)
Theorem save_restore_roundtrip fresh newIdentifier s page log :
  wf s ->
  exists st, backForwardListState (fun _ => true) s = Done st /\ restorable st /\
    let s' := restoreFromState fresh newIdentifier st (mkList true page None log) in
    pageState <$> itemStates s' = pageState <$> itemStates s /\ m_currentIndex s' = m_currentIndex s.
Proof.
  intros [Hi _ _ Hl]. unfold backForwardListState. rewrite saveEntries_all. simpl.
  assert (forall (t : WebBackForwardList), itemStates t = itemState <$> m_entries t) as Hstates.
  { intros t. unfold itemStates, filteredItemStates. f_equal. induction (m_entries t) as [|e l IH]; [done|].
    rewrite filter_cons_True by done. by rewrite IH. }
  exists (mkState (itemState <$> m_entries s) (m_currentIndex s)). split.
  - case_decide as Hnil.
    + apply fmap_nil_inv in Hnil. rewrite Hnil in *. simpl. destruct (m_currentIndex s); [simpl in Hi; lia | done].
    + destruct (m_currentIndex s) as [i|]; [|by rewrite Hi in Hnil].
      rewrite length_fmap. by rewrite decide_False by lia.
  - split.
    { split; simpl; rewrite length_fmap; [|done]. destruct (m_currentIndex s); [done|]. by rewrite Hi. }
    simpl. rewrite !Hstates. split; [|done]. simpl.
    apply list_eq. intros k. rewrite !list_lookup_fmap, list_lookup_imap, list_lookup_fmap.
    by destruct (m_entries s !! k).
Qed.

Lemma save_restore_roundtrip_witness :
  exists st, backForwardListState (fun _ => true) sample_list = Done st /\ restorable st /\
    let s' := restoreFromState Z.of_nat Z.of_nat st (mkList true [] None []) in
    pageState <$> itemStates s' = [100; 200; 300]%Z /\ m_currentIndex s' = Some 1.
Proof. apply (save_restore_roundtrip Z.of_nat Z.of_nat sample_list [] []). apply sample_wf. Defined.

(** A saved state is always restorable. Whatever entries the filter keeps, the
    saved index designates a saved item, or nothing is saved; saving never takes the
    value of an empty optional. *)
Theorem saved_state_restorable keep s :
  wf s -> exists st, backForwardListState keep s = Done st /\ restorable st.
Proof.
  intros [Hi _ _ Hl]. unfold backForwardListState.
  pose proof (saveEntries_length keep 0 (m_entries s) (mkState [] (m_currentIndex s))) as Hlen. simpl in Hlen.
  set (st := saveEntries keep 0 (m_entries s) (mkState [] (m_currentIndex s))) in *.
  case_decide as Hnil; [eexists; split; [done|]; split; simpl; [done|lia]|].
  assert (is_Some (currentIndex st)) as [c Hc].
  { apply saveEntries_index. simpl. destruct (m_currentIndex s); [done|]. exfalso. apply Hnil. unfold st. by rewrite Hi. }
  rewrite Hc. assert (0 < length (items st)) by (destruct (items st); [done | simpl; lia]).
  case_decide; eexists; (split; [done|]); split; simpl; rewrite ?Hc; lia.
Qed.

Lemma saved_state_restorable_witness :
  exists st, backForwardListState (fun x => negb (ptr x =? 2)%Z) sample_list = Done st /\ restorable st.
Proof. apply (saved_state_restorable (fun x => negb (ptr x =? 2)%Z) sample_list). apply sample_wf. Defined.

(** Filtering can lose the current item. The loop of [backForwardListState]
    compares the position in the unfiltered list with the already decremented index:
    with five entries, the fourth current, and a filter that drops the first three,
    the saved index designates the fifth entry although the current item was kept. *)
Theorem filtered_save_loses_current_item :
  exists s keep st, wf s /\ currentItem s = Done (Some item_d) /\ keep item_d = true /\
    backForwardListState keep s = Done st /\ items st = [itemState item_d; itemState item_e] /\
    currentIndex st = Some 1.
Proof.
  exists (mkList true [item_a; item_b; item_c; item_d; item_e] (Some 3) []), (fun x => (4 <=? ptr x)%Z).
  eexists. split; [|split_and!; reflexivity].
  split; simpl; [lia | done | apply (bool_decide_unpack _); vm_compute; exact I | lia].
Qed.

End BackForwardList.
