(* ===== verification/SharedStringHash.v ===== *)
(** * Shared/SharedStringHashTable*.cpp and SharedStringHashStore.cpp

    The set of visited-link hashes shared with the web processes: an open-addressed
    table of 32-bit hashes in shared memory, probed with an odd step computed from
    the hash ([findSlot]), and the store that batches additions and removals and
    grows the table ([processPendingOperations], [resizeTable]). *)

From S2P Require Import Prelude.

Local Open Scope outcome_scope.

Module SharedStringHash.

(** ** The table *)

(** [doubleHash], in [unsigned] arithmetic. *)
Definition doubleHash (key : Z) : Z :=
  let key := wrap 32 ((2 ^ 32 - 1 - key) + Z.shiftr key 23) in
  let key := Z.lxor key (wrap 32 (Z.shiftl key 12)) in
  let key := Z.lxor key (Z.shiftr key 7) in
  let key := Z.lxor key (wrap 32 (Z.shiftl key 2)) in
  Z.lxor key (Z.shiftr key 20).

(** The table in shared memory; null before the first resize and after [clear]. *)
Abbreviation Table := (option (list Z)).

(** The [while (1)] loop of [findSlot]; [k] is 0 until the second probe. *)
Fixpoint findSlotLoop (fuel : nat) (table : list Z) (sizeMask sharedStringHash k i : Z) : outcome Z :=
  match table !! Z.to_nat i with
  | None => Undefined
  | Some entry =>
      if entry =? 0 then Done i
      else if entry =? sharedStringHash then Done i
      else
        match fuel with
        | O => Diverge
        | S fuel' =>
            let k := if k =? 0 then Z.lor 1 (doubleHash sharedStringHash) else k in
            findSlotLoop fuel' table sizeMask sharedStringHash k (Z.land (wrap 32 (i + k)) sizeMask)
        end
  end.

(** [None] is the null pointer. Every slot is probed within [length table] rounds. *)
Definition findSlot (t : Table) (sharedStringHash : Z) : outcome (option Z) :=
  match t with
  | None => Done None
  | Some table =>
      let sizeMask := Z.of_nat (length table) - 1 in
      let! slot := findSlotLoop (length table) table sizeMask sharedStringHash 0 (Z.land sharedStringHash sizeMask) in
      Done (Some slot)
  end.

Definition slotValue (t : Table) (slot : Z) : Z :=
  match t with Some table => default 0 (table !! Z.to_nat slot) | None => 0 end.

Definition setSlot (t : Table) (slot v : Z) : Table :=
  match t with Some table => Some (<[Z.to_nat slot := v]> table) | None => None end.

Definition contains (t : Table) (h : Z) : outcome bool :=
  let! slot := findSlot t h in
  Done (match slot with Some s => negb (slotValue t s =? 0) | None => false end).

Definition add (h : Z) (t : Table) : outcome (bool * Table) :=
  let! slot := findSlot t h in
  match slot with
  | None => Undefined (* *slot of a null pointer *)
  | Some s => if slotValue t s =? 0 then Done (true, setSlot t s h) else Done (false, t)
  end.

Definition remove (h : Z) (t : Table) : outcome (bool * Table) :=
  let! slot := findSlot t h in
  match slot with
  | None => Done (false, t)
  | Some s => if slotValue t s =? 0 then Done (false, t) else Done (true, setSlot t s 0)
  end.

(** ** Table sizes *)

Definition sharedStringHashTableMaxLoad : Z := 2.

Definition nextPowerOf2 (v : Z) : Z :=
  let v := wrap 32 (v - 1) in
  let v := Z.lor v (Z.shiftr v 1) in
  let v := Z.lor v (Z.shiftr v 2) in
  let v := Z.lor v (Z.shiftr v 4) in
  let v := Z.lor v (Z.shiftr v 8) in
  let v := Z.lor v (Z.shiftr v 16) in
  wrap 32 (v + 1).

(** [systemPageSize] is the platform's; a hash is four bytes. *)
Definition tableSizeForKeyCount (systemPageSize keyCount : Z) : Z :=
  let tableSize := nextPowerOf2 (wrap 32 (keyCount * sharedStringHashTableMaxLoad)) in
  let minimumTableSize := systemPageSize / 4 in
  if tableSize <? minimumTableSize then wrap 32 minimumTableSize else tableSize.

(** ** The store *)

Inductive OperationType := Add | Remove.
Record Operation := mkOp { opType : OperationType; opHash : Z }.

(** Notifications to the client. *)
Inductive ClientEvent :=
| DidInvalidateSharedMemory
| DidUpdateSharedStringHashes (added removed : list Z).

Record Store := mkStore {
  m_keyCount : Z;
  m_tableSize : Z;
  m_table : Table;
  m_pendingOperations : list Operation;
  m_timerActive : bool;
  m_events : list ClientEvent
}.

Definition schedule (op : Operation) (s : Store) : Store :=
  mkStore (m_keyCount s) (m_tableSize s) (m_table s) (m_pendingOperations s ++ [op]) true (m_events s).
Definition scheduleAddition (h : Z) : Store -> Store := schedule (mkOp Add h).
Definition scheduleRemoval (h : Z) : Store -> Store := schedule (mkOp Remove h).

(** One operation of the pending list: the table, the key count and the lists of
    hashes that were really added and removed. *)
Definition applyOperation (op : Operation) (acc : Table * Z * list Z * list Z) : outcome (Table * Z * list Z * list Z) :=
  let '(t, keyCount, added, removed) := acc in
  match opType op with
  | Add =>
      let! r := add (opHash op) t in
      let '(didAdd, t') := r in
      Done (if didAdd then (t', wrap 32 (keyCount + 1), added ++ [opHash op], removed) else (t', keyCount, added, removed))
  | Remove =>
      let! r := remove (opHash op) t in
      let '(didRemove, t') := r in
      Done (if didRemove then (t', wrap 32 (keyCount - 1), added, removed ++ [opHash op]) else (t', keyCount, added, removed))
  end.

Fixpoint applyOperations (ops : list Operation) (acc : Table * Z * list Z * list Z) : outcome (Table * Z * list Z * list Z) :=
  match ops with
  | [] => Done acc
  | op :: ops' => let! acc' := applyOperation op acc in applyOperations ops' acc'
  end.

(** Re-adding the old entries to the new table. *)
Fixpoint rehash (entries : list Z) (t : Table) : outcome Table :=
  match entries with
  | [] => Done t
  | e :: rest => if e =? 0 then rehash rest t else let! r := add e t in rehash rest (snd r)
  end.

Section with_platform.
Context (systemPageSize : Z).
(** [SharedMemory::allocate] may fail. *)
Context (canAllocate : Z -> bool).

Definition resizeTable (newTableSize : Z) (s : Store) : outcome Store :=
  if canAllocate (newTableSize * 4) then
    let fresh := Some (replicate (Z.to_nat newTableSize) 0) in
    let! t := rehash (default [] (m_table s)) fresh in
    let! r := applyOperations (m_pendingOperations s) (t, m_keyCount s, [], []) in
    let '(t', keyCount, _, _) := r in
    Done (mkStore keyCount newTableSize t' [] (m_timerActive s) (m_events s ++ [DidInvalidateSharedMemory]))
  else Done s.

Definition isAdd (op : Operation) : bool := match opType op with Add => true | Remove => false end.

Definition processPendingOperations (s : Store) : outcome Store :=
  let currentTableSize := m_tableSize s in
  let approximateNewHashCount := wrap 32 (Z.of_nat (length (List.filter isAdd (m_pendingOperations s)))) in
  let newTableSize := Z.max currentTableSize
    (tableSizeForKeyCount systemPageSize (wrap 32 (m_keyCount s + approximateNewHashCount))) in
  if negb (currentTableSize =? newTableSize) then resizeTable newTableSize s
  else
    let! r := applyOperations (m_pendingOperations s) (m_table s, m_keyCount s, [], []) in
    let '(t', keyCount, added, removed) := r in
    Done (mkStore keyCount (m_tableSize s) t' [] (m_timerActive s)
      (if bool_decide (added = [] /\ removed = []) then m_events s
       else m_events s ++ [DidUpdateSharedStringHashes added removed])).

Definition stopTimer (s : Store) : Store :=
  mkStore (m_keyCount s) (m_tableSize s) (m_table s) (m_pendingOperations s) false (m_events s).

Definition flushPendingChanges (s : Store) : outcome Store :=
  if m_timerActive s then processPendingOperations (stopTimer s) else Done s.

Definition storeContains (h : Z) (s : Store) : outcome (bool * Store) :=
  let! s' := flushPendingChanges s in
  let! b := contains (m_table s') h in
  Done (b, s').

End with_platform.

Definition clear (s : Store) : Store := mkStore 0 0 None [] false (m_events s).
Definition isEmpty (s : Store) : bool := m_keyCount s =? 0.
Definition emptyStore : Store := mkStore 0 0 None [] false [].

(** ** Probing visits every slot *)

(** The step of the probe sequence is odd. *)
Definition probeStep (h : Z) : Z := Z.lor 1 (doubleHash h).

(** The slot of the [n]-th probe for [h] in a table of [2^m] slots. *)
Definition probe (m h : Z) (n : nat) : Z := (h + Z.of_nat n * probeStep h) mod 2 ^ m.

Lemma probeStep_odd h : Z.odd (probeStep h) = true.
Proof. unfold probeStep. by rewrite <- Z.bit0_odd, Z.lor_spec. Qed.

Lemma probeStep_nonzero h : probeStep h <> 0.
Proof. intros E. pose proof (probeStep_odd h) as H. by rewrite E in H. Qed.

Lemma probe_range m h n : 0 <= m -> 0 <= probe m h n < 2 ^ m.
Proof. intros. apply Z.mod_pos_bound, Z.pow_pos_nonneg; lia. Qed.

(** An odd number is invertible modulo every power of two. *)
Lemma odd_bezout k m : Z.odd k = true -> 0 <= m -> exists u v, u * k + v * 2 ^ m = 1.
Proof.
  intros Hodd Hm. revert m Hm. apply natlike_ind.
  - exists 0, 1. lia.
  - intros m Hm (u & v & H). rewrite Z.pow_succ_r by done. apply Z.odd_spec in Hodd as [k' ->].
    destruct (Z.Even_or_Odd v) as [[v' ->]|[v' ->]].
    + exists u, v'. lia.
    + exists (u + 2 ^ m), (v' - k'). lia.
Qed.

(** Because the step is odd, the first [2^m] probes reach every slot. *)
Lemma probe_surjective m h j :
  0 <= m -> 0 <= j < 2 ^ m -> exists n, Z.of_nat n < 2 ^ m /\ probe m h n = j.
Proof.
  intros Hm Hj. assert (0 < 2 ^ m) by (apply Z.pow_pos_nonneg; lia).
  destruct (odd_bezout _ m (probeStep_odd h) Hm) as (u & v & Huv).
  pose proof (Z.mod_pos_bound ((j - h) * u) (2 ^ m) ltac:(lia)) as Hb.
  exists (Z.to_nat (((j - h) * u) mod 2 ^ m)). split; [lia|]. unfold probe. rewrite Z2Nat.id by lia.
  rewrite Z.add_mod, Z.mul_mod_idemp_l, <- Z.add_mod by lia.
  replace (h + (j - h) * u * probeStep h) with (h + (j - h) * (u * probeStep h + v * 2 ^ m) + ((h - j) * v) * 2 ^ m) by ring.
  rewrite Huv. replace (h + (j - h) * 1) with j by lia.
  rewrite Z.mod_add by lia. by apply Z.mod_small.
Qed.

Lemma probe_succ m h n :
  0 <= m <= 32 -> Z.land (wrap 32 (probe m h n + probeStep h)) (2 ^ m - 1) = probe m h (S n).
Proof.
  intros Hm. rewrite Z.sub_1_r, <- Z.ones_equiv, Z.land_ones by lia. unfold wrap, probe.
  replace (2 ^ 32) with (2 ^ m * 2 ^ (32 - m)) by (rewrite <- Z.pow_add_r by lia; f_equal; lia).
  rewrite Z.rem_mul_r by (apply Z.pow_nonzero || apply Z.pow_pos_nonneg; lia).
  rewrite (Z.mul_comm (2 ^ m)), Z.mod_add, Z.mod_mod by (apply Z.pow_nonzero; lia).
  rewrite Z.add_mod_idemp_l by (apply Z.pow_nonzero; lia). f_equal. lia.
Qed.

Lemma probe_0 m h : 0 <= m -> Z.land h (2 ^ m - 1) = probe m h 0.
Proof. intros. rewrite Z.sub_1_r, <- Z.ones_equiv, Z.land_ones by lia. unfold probe. f_equal. lia. Qed.

(** ** What [findSlot] finds *)

Section find.
Context (m : Z) (table : list Z) (Hm : 0 <= m <= 31) (Hlen : Z.of_nat (length table) = 2 ^ m).

Definition at_probe (h : Z) (n : nat) : option Z := table !! Z.to_nat (probe m h n).

(** The probes before the [n]-th met other hashes. *)
Definition passes (h : Z) (n : nat) : Prop :=
  forall n', (n' < n)%nat -> exists w, at_probe h n' = Some w /\ w <> 0 /\ w <> h.

Lemma at_probe_Some h n : exists v, at_probe h n = Some v.
Proof. apply lookup_lt_is_Some. pose proof (probe_range m h n). lia. Qed.

Lemma findSlotLoop_spec h fuel : forall n k,
  (k = 0 \/ k = probeStep h) ->
  (exists n0, (n <= n0 <= n + fuel)%nat /\ exists v, at_probe h n0 = Some v /\ (v = 0 \/ v = h)) ->
  exists n1 v, (n <= n1)%nat /\ findSlotLoop fuel table (2 ^ m - 1) h k (probe m h n) = Done (probe m h n1) /\
    at_probe h n1 = Some v /\ (v = 0 \/ v = h) /\
    forall n', (n <= n' < n1)%nat -> exists w, at_probe h n' = Some w /\ w <> 0 /\ w <> h.
Proof.
  induction fuel as [|fuel IH]; intros n k Hk (n0 & Hn0 & v0 & Hv0 & Hstop);
    destruct (at_probe_Some h n) as [v Hv]; simpl; fold (at_probe h n); rewrite Hv;
    destruct (v =? 0) eqn:E0; zbool;
    try (exists n, v; split_and!; [lia | done | done | by left | lia]);
    destruct (v =? h) eqn:Eh; zbool;
    try (exists n, v; split_and!; [lia | done | done | by right | lia]).
  - assert (n0 = n) as -> by lia. rewrite Hv in Hv0. injection Hv0 as ->. tauto.
  - assert (n0 <> n) by (intros ->; rewrite Hv in Hv0; injection Hv0 as ->; tauto).
    fold (probeStep h).
    assert ((if k =? 0 then probeStep h else k) = probeStep h) as ->.
    { destruct Hk as [-> | ->]; [done|]. by rewrite (proj2 (Z.eqb_neq _ _) (probeStep_nonzero h)). }
    rewrite probe_succ by lia.
    destruct (IH (S n) (probeStep h)) as (n1 & v1 & ? & -> & ? & ? & Hpass); [by right | exists n0; split; [lia | by exists v0]|].
    exists n1, v1. split_and!; try done; [lia|]. intros n' Hn'.
    destruct (decide (n' = n)) as [->|]; [by exists v | apply Hpass; lia].
Qed.

(** With a free slot, [findSlot] ends at the first probe that is free or holds [h]. *)
Lemma findSlot_spec h :
  (exists j, table !! j = Some 0) ->
  exists n v, findSlot (Some table) h = Done (Some (probe m h n)) /\ at_probe h n = Some v /\ (v = 0 \/ v = h) /\ passes h n.
Proof.
  intros [j Hj]. pose proof (lookup_lt_Some _ _ _ Hj).
  destruct (probe_surjective m h (Z.of_nat j)) as (n0 & Hn0 & Hp); [lia..|].
  unfold findSlot. rewrite Hlen, probe_0 by lia.
  destruct (findSlotLoop_spec h (length table) 0 0) as (n1 & v & _ & -> & Hv & Hstop & Hpass); [by left| |].
  - exists n0. split; [lia|]. exists 0. split; [|by left]. unfold at_probe. by rewrite Hp, Nat2Z.id.
  - exists n1, v. split_and!; try done. intros n' ?. apply Hpass. lia.
Qed.

End find.

(** ** Occupancy *)

Fixpoint occupied (table : list Z) : Z :=
  match table with
  | [] => 0
  | v :: rest => (if v =? 0 then 0 else 1) + occupied rest
  end.

Lemma occupied_range table : 0 <= occupied table <= Z.of_nat (length table).
Proof. induction table as [|v rest IH]; simpl; [lia|]. destruct (v =? 0); lia. Qed.

Lemma free_slot table : occupied table < Z.of_nat (length table) -> exists j, table !! j = Some 0.
Proof.
  induction table as [|v rest IH]; simpl; [lia|]. destruct (v =? 0) eqn:E; zbool.
  - exists 0%nat. by rewrite E.
  - intros. destruct IH as [j ?]; [lia|]. by exists (S j).
Qed.

Lemma occupied_insert table j v w :
  table !! j = Some v ->
  occupied (<[j := w]> table) = occupied table - (if v =? 0 then 0 else 1) + (if w =? 0 then 0 else 1).
Proof.
  revert j. induction table as [|u rest IH]; intros [|j] Hj; simplify_eq/=; [lia|]. rewrite (IH j) by done. lia.
Qed.

Lemma occupied_empty n : occupied (replicate n 0) = 0.
Proof. induction n; simpl; lia. Qed.

(** A table of [2^m] slots with a free one. *)
Record roomy (m : Z) (table : list Z) : Prop := {
  roomy_m : 0 <= m <= 31;
  roomy_len : Z.of_nat (length table) = 2 ^ m;
  roomy_free : occupied table < 2 ^ m
}.

Lemma findSlot_roomy m table h :
  roomy m table ->
  exists n v, findSlot (Some table) h = Done (Some (probe m h n)) /\ at_probe m table h n = Some v /\
    slotValue (Some table) (probe m h n) = v /\ (v = 0 \/ v = h) /\ passes m table h n.
Proof.
  intros [Hm Hlen Hfree]. destruct (findSlot_spec m table Hm Hlen h) as (n & v & ? & Hv & ? & ?).
  { apply free_slot. lia. }
  exists n, v. split_and!; try done. unfold slotValue. unfold at_probe in Hv. by rewrite Hv.
Qed.

(** [add] on a roomy table: the count grows exactly when a new non-zero hash is stored. *)
Lemma add_total m table h :
  roomy m table -> exists b table', add h (Some table) = Done (b, Some table') /\ length table' = length table /\
    occupied table' = occupied table + (if b && negb (h =? 0) then 1 else 0).
Proof.
  intros Hr. destruct (findSlot_roomy m table h Hr) as (n & v & Hf & Hv & Hs & Hstop & _).
  unfold add. rewrite Hf. simpl. simpl in Hs. rewrite Hs. destruct (v =? 0) eqn:E; zbool.
  - eexists true, _. split; [done|]. split; [by rewrite length_insert|].
    rewrite (occupied_insert _ _ _ _ Hv), E. simpl. destruct (h =? 0); simpl; lia.
  - eexists false, _. split; [done|]. simpl. split; [done|lia].
Qed.

Lemma remove_total m table h :
  roomy m table -> exists b table', remove h (Some table) = Done (b, Some table') /\ length table' = length table /\
    occupied table' = occupied table - (if b then 1 else 0).
Proof.
  intros Hr. destruct (findSlot_roomy m table h Hr) as (n & v & Hf & Hv & Hs & Hstop & _).
  unfold remove. rewrite Hf. simpl. simpl in Hs. rewrite Hs. destruct (v =? 0) eqn:E; zbool.
  - eexists false, _. split; [done|]. split; [done|lia].
  - eexists true, _. split; [done|]. split; [by rewrite length_insert|].
    rewrite (occupied_insert _ _ _ _ Hv), (proj2 (Z.eqb_neq v 0) E). simpl. lia.
Qed.

(** ** Reachable hashes *)

(** Every stored hash is found by its own probe sequence. *)
Definition reachable (m : Z) (table : list Z) : Prop :=
  forall j v, table !! j = Some v -> v <> 0 -> exists n, Z.to_nat (probe m v n) = j /\ passes m table v n.

Lemma first_probe_unique m table h n n' v v' :
  at_probe m table h n = Some v -> (v = 0 \/ v = h) -> passes m table h n ->
  at_probe m table h n' = Some v' -> (v' = 0 \/ v' = h) -> passes m table h n' -> v = v'.
Proof.
  intros Hv Hs Hp Hv' Hs' Hp'. destruct (Nat.lt_trichotomy n n') as [Hlt|[->|Hlt]].
  - destruct (Hp' n Hlt) as (w & Hw & ? & ?). rewrite Hv in Hw. injection Hw as ->. tauto.
  - congruence.
  - destruct (Hp n' Hlt) as (w & Hw & ? & ?). rewrite Hv' in Hw. injection Hw as ->. tauto.
Qed.

Lemma contains_exact m table h :
  roomy m table -> reachable m table -> h <> 0 -> contains (Some table) h = Done (bool_decide (h ∈ table)).
Proof.
  intros Hr Hreach Hh. destruct (findSlot_roomy m table h Hr) as (n & v & Hf & Hv & Hs & Hstop & Hpass).
  unfold contains. rewrite Hf. simpl. simpl in Hs. rewrite Hs. f_equal. destruct Hstop as [-> | ->].
  - rewrite bool_decide_false; [done|]. intros [j Hj]%list_elem_of_lookup.
    destruct (Hreach j h Hj Hh) as (n' & <- & Hpass').
    assert (0 = h); [|congruence].
    by apply (first_probe_unique m table h n n' 0 h Hv (or_introl eq_refl) Hpass Hj (or_intror eq_refl) Hpass').
  - rewrite bool_decide_true by (eapply list_elem_of_lookup_2; exact Hv).
    by rewrite (proj2 (Z.eqb_neq h 0) Hh).
Qed.

(** Filling a free slot breaks no probe path. *)
Lemma passes_insert m table h n j w :
  table !! j = Some 0 -> passes m table h n -> passes m (<[j := w]> table) h n.
Proof.
  intros Hj Hp n' Hn'. destruct (Hp n' Hn') as (u & Hu & ? & ?). exists u. split; [|done].
  unfold at_probe in *. rewrite list_lookup_insert_ne; [done|]. intros ->. congruence.
Qed.

Lemma add_exact m table h :
  roomy m table -> reachable m table -> h <> 0 ->
  exists table', add h (Some table) = Done (negb (bool_decide (h ∈ table)), Some table') /\
    reachable m table' /\ forall x, x <> 0 -> x ∈ table' <-> x = h \/ x ∈ table.
Proof.
  intros Hr Hreach Hh. pose proof (contains_exact m table h Hr Hreach Hh) as Hc.
  destruct (findSlot_roomy m table h Hr) as (n & v & Hf & Hv & Hs & Hstop & Hpass).
  unfold contains in Hc. unfold add. rewrite Hf in *. simpl in *. rewrite Hs in *.
  destruct (v =? 0) eqn:E; zbool; simpl in Hc; injection Hc as Hc; rewrite <- Hc; eexists; (split; [done|]).
  - subst v. unfold at_probe in Hv. pose proof (lookup_lt_Some _ _ _ Hv). split.
    + intros j x Hj Hx. destruct (decide (j = Z.to_nat (probe m h n))) as [->|Hne].
      * rewrite list_lookup_insert_eq in Hj by done. injection Hj as <-. exists n. split; [done|]. by apply passes_insert.
      * rewrite list_lookup_insert_ne in Hj by done. destruct (Hreach j x Hj Hx) as (n' & ? & ?).
        exists n'. split; [done|]. by apply passes_insert.
    + intros x Hx. split.
      * intros [j Hj]%list_elem_of_lookup. destruct (decide (j = Z.to_nat (probe m h n))) as [->|Hne].
        -- rewrite list_lookup_insert_eq in Hj by done. injection Hj as <-. by left.
        -- rewrite list_lookup_insert_ne in Hj by done. right. by eapply list_elem_of_lookup_2.
      * intros [-> | [j Hj]%list_elem_of_lookup].
        -- eapply list_elem_of_lookup_2. by apply list_lookup_insert_eq.
        -- apply list_elem_of_lookup_2 with j. rewrite list_lookup_insert_ne; [done|]. intros <-. congruence.
  - split; [done|]. intros x _. symmetry in Hc. apply bool_decide_eq_true in Hc.
    split; [tauto|]. by intros [->|?].
Qed.

(** ** Table sizes are powers of two *)

(** The bits of [x] above [m] are clear and the [c] bits from [m] down are set. *)
Definition filled (m c x : Z) : Prop :=
  forall i, 0 <= i -> (m < i -> Z.testbit x i = false) /\ (m - c < i <= m -> Z.testbit x i = true).

Lemma filled_step m c x : 0 < c -> filled m c x -> filled m (2 * c) (Z.lor x (Z.shiftr x c)).
Proof.
  intros Hc Hx i Hi. rewrite Z.lor_spec, Z.shiftr_spec by done. split; intros H.
  - by rewrite (proj1 (Hx i Hi)), (proj1 (Hx (i + c) ltac:(lia))) by lia.
  - destruct (decide (m - c < i)).
    + by rewrite (proj2 (Hx i Hi)) by lia.
    + rewrite (proj2 (Hx (i + c) ltac:(lia))) by lia. apply orb_true_r.
Qed.

Lemma filled_log2 x : 0 < x -> filled (Z.log2 x) 1 x.
Proof.
  intros Hx i Hi. split; intros H; [by apply Z.bits_above_log2; lia|].
  replace i with (Z.log2 x) by lia. by apply Z.bit_log2.
Qed.

Lemma filled_ones m c x : 0 <= m < c -> filled m c x -> x = Z.ones (m + 1).
Proof.
  intros Hm Hx. apply Z.bits_inj'. intros i Hi. destruct (decide (m < i)).
  - by rewrite (proj1 (Hx i Hi)), Z.ones_spec_high by lia.
  - by rewrite (proj2 (Hx i Hi)), Z.ones_spec_low by lia.
Qed.

(** The bit trick computes the least power of two that is not below its argument. *)
Lemma nextPowerOf2_spec v : 1 <= v <= 2 ^ 31 -> nextPowerOf2 v = 2 ^ Z.log2_up v.
Proof.
  intros Hv. unfold nextPowerOf2. rewrite (wrap_small 32 (v - 1)) by (unfold in_width; lia).
  destruct (decide (v = 1)) as [->|Hne]; [done|].
  assert (Z.log2 (v - 1) < 31) by (apply Z.log2_lt_pow2; lia). pose proof (Z.log2_nonneg (v - 1)).
  rewrite Z.log2_up_eqn, <- Z.sub_1_r by lia.
  match goal with |- wrap 32 (?x + 1) = _ => assert (x = Z.ones (Z.log2 (v - 1) + 1)) as -> end.
  { apply (filled_ones _ 32); [lia|].
    apply (filled_step _ 16); [lia|]. apply (filled_step _ 8); [lia|]. apply (filled_step _ 4); [lia|].
    apply (filled_step _ 2); [lia|]. apply (filled_step _ 1); [lia|]. apply filled_log2. lia. }
  rewrite Z.ones_equiv, <- Z.add_1_r. replace (Z.pred _ + 1) with (2 ^ (Z.log2 (v - 1) + 1)) by lia.
  assert (2 ^ (Z.log2 (v - 1) + 1) <= 2 ^ 31) by (apply Z.pow_le_mono_r; lia).
  assert (0 < 2 ^ (Z.log2 (v - 1) + 1)) by (apply Z.pow_pos_nonneg; lia).
  apply wrap_small. unfold in_width. lia.
Qed.

(** A table sized for [keyCount] keys is a power of two at least twice as large,
    and at least a page. *)
Lemma tableSizeForKeyCount_spec p keyCount :
  2 <= p <= 31 -> 0 <= keyCount <= 2 ^ 30 ->
  exists m, 0 <= m <= 31 /\ tableSizeForKeyCount (2 ^ p) keyCount = 2 ^ m /\ 2 * keyCount <= 2 ^ m.
Proof.
  intros Hp Hk. unfold tableSizeForKeyCount, sharedStringHashTableMaxLoad.
  rewrite (wrap_small 32 (keyCount * 2)) by (unfold in_width; lia).
  replace (2 ^ p / 4) with (2 ^ (p - 2)) by (rewrite Z.pow_sub_r by lia; done).
  assert (2 ^ (p - 2) <= 2 ^ 29) by (apply Z.pow_le_mono_r; lia).
  assert (0 < 2 ^ (p - 2)) by (apply Z.pow_pos_nonneg; lia).
  destruct (decide (keyCount = 0)) as [->|Hne].
  - change (nextPowerOf2 (0 * 2)) with 0. destruct (0 <? 2 ^ (p - 2)) eqn:E; zbool; [|lia].
    exists (p - 2). rewrite wrap_small by (unfold in_width; lia). split_and!; lia.
  - rewrite nextPowerOf2_spec by lia.
    pose proof (Z.log2_up_spec (keyCount * 2) ltac:(lia)).
    assert (Z.log2_up (keyCount * 2) <= 31) by (rewrite <- (Z.log2_up_pow2 31) by lia; apply Z.log2_up_le_mono; lia).
    pose proof (Z.log2_up_nonneg (keyCount * 2)).
    destruct (2 ^ Z.log2_up (keyCount * 2) <? 2 ^ (p - 2)) eqn:E; zbool.
    + exists (p - 2). rewrite wrap_small by (unfold in_width; lia). split_and!; lia.
    + exists (Z.log2_up (keyCount * 2)). split_and!; lia.
Qed.

(** ** The store never runs out of free slots *)

Definition additions (ops : list Operation) : Z := Z.of_nat (length (List.filter isAdd ops)).

Lemma additions_cons op ops : additions (op :: ops) = (if isAdd op then 1 else 0) + additions ops.
Proof. unfold additions. simpl. destruct (isAdd op); simpl; lia. Qed.
Lemma additions_app ops ops' : additions (ops ++ ops') = additions ops + additions ops'.
Proof. unfold additions. rewrite List.filter_app, length_app. lia. Qed.
Lemma additions_nonneg ops : 0 <= additions ops.
Proof. unfold additions. lia. Qed.

(** A table of [2^m] slots that holds at most [keyCount] hashes. *)
Record table_ok (m keyCount : Z) (table : list Z) : Prop := {
  tok_m : 0 <= m <= 31;
  tok_len : Z.of_nat (length table) = 2 ^ m;
  tok_count : occupied table <= keyCount
}.

Lemma table_ok_roomy m k table : table_ok m k table -> k < 2 ^ m -> roomy m table.
Proof. intros [] ?. split; [done|done|lia]. Qed.

Lemma applyOperation_total m k added removed table op :
  table_ok m k table -> k + 1 <= 2 ^ m - 1 \/ (k < 2 ^ m /\ isAdd op = false) ->
  exists table' k' added' removed',
    applyOperation op (Some table, k, added, removed) = Done (Some table', k', added', removed') /\
    table_ok m k' table' /\ k' <= k + (if isAdd op then 1 else 0).
Proof.
  intros Ht Hroom. assert (roomy m table) as Hr by (eapply table_ok_roomy; [done|lia]).
  destruct Ht as [Hm Hlen Hc]. pose proof (occupied_range table).
  assert (2 ^ m <= 2 ^ 31) by (apply Z.pow_le_mono_r; lia).
  destruct op as [[] h]; simpl in *.
  - destruct (add_total m table h Hr) as (b & t' & -> & Hl & Ho). simpl.
    destruct b; do 4 eexists; (split; [done|]); simpl in Ho.
    + rewrite wrap_small by (unfold in_width; lia). split; [|lia].
      split; [done|lia|]. destruct (h =? 0); simpl in Ho; lia.
    + split; [|lia]. split; [done|lia|lia].
  - destruct (remove_total m table h Hr) as (b & t' & -> & Hl & Ho). simpl.
    destruct b; do 4 eexists; (split; [done|]).
    + pose proof (occupied_range t'). rewrite wrap_small by (unfold in_width; lia). split; [|lia].
      split; [done|lia|lia].
    + split; [|lia]. split; [done|lia|lia].
Qed.

Lemma applyOperations_total m ops : forall k added removed table,
  table_ok m k table -> k + additions ops < 2 ^ m ->
  exists table' k' added' removed',
    applyOperations ops (Some table, k, added, removed) = Done (Some table', k', added', removed') /\
    table_ok m k' table' /\ k' <= k + additions ops.
Proof.
  induction ops as [|op ops IH]; intros k added removed table Ht Hroom.
  - do 4 eexists. split; [done|]. split; [done|]. unfold additions. simpl. lia.
  - rewrite additions_cons in *. pose proof (additions_nonneg ops).
    destruct (applyOperation_total m k added removed table op Ht) as (t1 & k1 & a1 & r1 & E1 & Ht1 & Hk1).
    { destruct (isAdd op); [left; lia | right; split; [lia|done]]. }
    cbn [applyOperations]. rewrite E1. cbn [outcome_bind]. destruct (IH k1 a1 r1 t1 Ht1) as (t2 & k2 & a2 & r2 & -> & Ht2 & Hk2); [lia|].
    do 4 eexists. split; [done|]. split; [done|lia].
Qed.

Lemma rehash_total m entries : forall table k,
  table_ok m k table -> k + occupied entries < 2 ^ m ->
  exists table', rehash entries (Some table) = Done (Some table') /\ table_ok m (k + occupied entries) table'.
Proof.
  induction entries as [|e rest IH]; intros table k Ht Hroom; simpl in *.
  - eexists. split; [done|]. by rewrite Z.add_0_r.
  - pose proof (occupied_range rest). destruct (e =? 0) eqn:E; [by apply IH|].
    destruct (add_total m table e) as (b & t' & -> & Hl & Ho); [eapply table_ok_roomy; [done|lia]|].
    simpl. rewrite Z.add_assoc. apply IH; [|lia]. destruct Ht. split; [done|lia|].
    destruct (b && negb (e =? 0)); lia.
Qed.

Lemma table_ok_empty m : 0 <= m <= 31 -> table_ok m 0 (replicate (Z.to_nat (2 ^ m)) 0).
Proof. intros. split; [done| |by rewrite occupied_empty]. rewrite length_replicate. assert (0 < 2 ^ m) by (apply Z.pow_pos_nonneg; lia). lia. Qed.

Lemma table_ok_weaken m k k' table : table_ok m k table -> k <= k' -> table_ok m k' table.
Proof. intros [] ?. split; [done|done|lia]. Qed.

(** The invariant of the store: no table yet, or one at least half empty. *)
Definition store_ok (s : Store) : Prop :=
  (m_table s = None /\ m_tableSize s = 0 /\ m_keyCount s = 0) \/
  exists m table, m_table s = Some table /\ m_tableSize s = 2 ^ m /\
    table_ok m (m_keyCount s) table /\ 2 * m_keyCount s <= 2 ^ m.

Lemma store_ok_keyCount s : store_ok s -> 0 <= m_keyCount s.
Proof.
  intros [(_ & _ & ->)|(m & table & _ & _ & [] & _)]; [lia|]. pose proof (occupied_range table). lia.
Qed.

(** The additions the store has accepted or still has to apply. *)
Definition demand (s : Store) : Z := m_keyCount s + additions (m_pendingOperations s).

(** *** Commands from the clients of the store *)

Inductive Command := CAdd (h : Z) | CRemove (h : Z) | CTimerFired | CClear | CContains (h : Z).

Section store.
Context (p : Z) (Hp : 2 <= p <= 31) (canAllocate : Z -> bool).

(** What the caller of each command observes. *)
Definition runCommand (c : Command) (s : Store) : outcome (option bool * Store) :=
  match c with
  | CAdd h => Done (None, scheduleAddition h s)
  | CRemove h => Done (None, scheduleRemoval h s)
  | CTimerFired => let! s' := flushPendingChanges (2 ^ p) canAllocate s in Done (None, s')
  | CClear => Done (None, clear s)
  | CContains h => let! r := storeContains (2 ^ p) canAllocate h s in Done (Some (fst r), snd r)
  end.

Fixpoint runCommands (cs : list Command) (s : Store) : outcome (list (option bool) * Store) :=
  match cs with
  | [] => Done ([], s)
  | c :: cs' =>
      let! r := runCommand c s in
      let! rs := runCommands cs' (snd r) in
      Done (fst r :: fst rs, snd rs)
  end.

Lemma resizeTable_total s m :
  store_ok s -> 0 <= m <= 31 -> 2 * demand s <= 2 ^ m -> m_tableSize s < 2 ^ m ->
  exists s', resizeTable canAllocate (2 ^ m) s = Done s' /\ store_ok s' /\ demand s' <= demand s.
Proof.
  intros Hs Hm Hd Hsize. unfold resizeTable. destruct (canAllocate (2 ^ m * 4)); [|by exists s].
  pose proof (store_ok_keyCount s Hs). pose proof (additions_nonneg (m_pendingOperations s)).
  assert (0 < 2 ^ m) by (apply Z.pow_pos_nonneg; lia). unfold demand in *.
  assert (occupied (default [] (m_table s)) <= m_keyCount s) as Hocc.
  { destruct Hs as [(-> & _ & ->)|(m0 & table & -> & _ & [] & _)]; simpl; lia. }
  destruct (rehash_total m (default [] (m_table s)) _ 0 (table_ok_empty m Hm)) as (t & -> & Ht); [lia|]. simpl.
  apply (table_ok_weaken _ _ (m_keyCount s)) in Ht; [|lia].
  destruct (applyOperations_total m (m_pendingOperations s) (m_keyCount s) [] [] t Ht) as (t' & k' & a' & r' & -> & Ht' & Hk'); [lia|].
  simpl. eexists. split; [done|]. simpl. split; [|unfold additions at 1; simpl; lia].
  right. exists m, t'. split_and!; simpl; try done. lia.
Qed.

(** Two powers of two: the larger is a power of two. *)
Lemma processPendingOperations_total s :
  store_ok s -> demand s <= 2 ^ 30 ->
  exists s', processPendingOperations (2 ^ p) canAllocate s = Done s' /\ store_ok s' /\ demand s' <= demand s.
Proof.
  intros Hs Hd. pose proof (store_ok_keyCount s Hs). pose proof (additions_nonneg (m_pendingOperations s)).
  unfold processPendingOperations. fold (additions (m_pendingOperations s)). unfold demand in Hd.
  rewrite (wrap_small 32 (additions _)), (wrap_small 32 (_ + _)) by (unfold in_width; lia).
  fold (demand s). destruct (tableSizeForKeyCount_spec p (demand s) Hp) as (m & Hm & -> & Hdm); [unfold demand; lia|].
  assert (0 < 2 ^ m) by (apply Z.pow_pos_nonneg; lia).
  destruct (decide (m_tableSize s < 2 ^ m)) as [Hlt|Hge].
  - rewrite Z.max_r, (proj2 (Z.eqb_neq _ _)) by lia. simpl. by apply resizeTable_total.
  - rewrite Z.max_l, Z.eqb_refl by lia. simpl.
    destruct Hs as [(_ & E & _)|(m0 & table & E & Esz & Ht & Hk)]; [lia|]. rewrite E.
    unfold demand in *.
    destruct (applyOperations_total m0 (m_pendingOperations s) (m_keyCount s) [] [] table Ht) as (t' & k' & a' & r' & -> & Ht' & Hk'); [lia|].
    simpl. eexists. split; [done|]. simpl. split; [|unfold additions at 1; simpl; lia].
    right. exists m0, t'. split_and!; simpl; try done. lia.
Qed.

Lemma flushPendingChanges_total s :
  store_ok s -> demand s <= 2 ^ 30 ->
  exists s', flushPendingChanges (2 ^ p) canAllocate s = Done s' /\ store_ok s' /\ demand s' <= demand s.
Proof.
  intros Hs Hd. unfold flushPendingChanges. destruct (m_timerActive s); [|by exists s].
  by apply (processPendingOperations_total (stopTimer s)).
Qed.

Lemma contains_total s h : store_ok s -> demand s <= 2 ^ 30 -> exists b, contains (m_table s) h = Done b.
Proof.
  intros [(-> & _ & _)|(m & table & -> & _ & Ht & Hk)] _; [by eexists|].
  destruct (findSlot_roomy m table h) as (n & v & Hf & _).
  { eapply table_ok_roomy; [done|]. destruct Ht. assert (0 < 2 ^ m) by (apply Z.pow_pos_nonneg; lia). lia. }
  unfold contains. rewrite Hf. by eexists.
Qed.

Definition isAddition (c : Command) : bool := match c with CAdd _ => true | _ => false end.
Definition commandAdditions (cs : list Command) : Z := Z.of_nat (length (List.filter isAddition cs)).

Lemma runCommand_total c s :
  store_ok s -> demand s <= 2 ^ 30 ->
  exists r s', runCommand c s = Done (r, s') /\ store_ok s' /\ demand s' <= demand s + (if isAddition c then 1 else 0).
Proof.
  intros Hs Hd. destruct c as [h|h| | |h]; simpl.
  1, 2: do 2 eexists; split; [done|]; split; [exact Hs|]; unfold demand; simpl; rewrite additions_app, additions_cons; unfold additions at 2; simpl; lia.
  - destruct (flushPendingChanges_total s Hs Hd) as (s' & -> & ? & ?). do 2 eexists. split; [done|]. split; [done|lia].
  - do 2 eexists. split; [done|]. split; [by left|]. unfold demand at 1, additions. simpl.
    pose proof (store_ok_keyCount s Hs). pose proof (additions_nonneg (m_pendingOperations s)). unfold demand. lia.
  - destruct (flushPendingChanges_total s Hs Hd) as (s' & E & Hs' & Hd'). unfold storeContains. rewrite E. simpl.
    destruct (contains_total s' h) as [b ->]; [done|lia|]. do 2 eexists. split; [done|]. simpl. split; [done|lia].
Qed.

End store.

(** C7: Whatever is added, removed, looked up or cleared, in whatever order and
    whether or not shared memory can be allocated, as long as at most 2^30 additions
    are made every operation of the store returns: no probe loop runs forever and no
    null or out-of-range slot is touched, and the table, when there is one, has a
    power-of-two size and is at least half empty. *)
Theorem store_operations_terminate p canAllocate cs :
  2 <= p <= 31 -> commandAdditions cs <= 2 ^ 30 ->
  exists rs s', runCommands p canAllocate cs emptyStore = Done (rs, s') /\ store_ok s'.
Proof.
  intros Hp. assert (forall s, store_ok s -> demand s + commandAdditions cs <= 2 ^ 30 ->
    exists rs s', runCommands p canAllocate cs s = Done (rs, s') /\ store_ok s') as Hgen.
  { induction cs as [|c cs IH]; intros s Hs Hd; simpl; [by do 2 eexists|].
    assert (commandAdditions (c :: cs) = (if isAddition c then 1 else 0) + commandAdditions cs) as Hc
      by (unfold commandAdditions; simpl; destruct (isAddition c); simpl; lia).
    assert (0 <= commandAdditions cs) by (unfold commandAdditions; lia).
    destruct (runCommand_total p Hp canAllocate c s Hs) as (r & s1 & -> & Hs1 & Hd1); [destruct (isAddition c); lia|].
    simpl. destruct (IH s1 Hs1) as (rs & s2 & -> & Hs2); [lia|]. by do 2 eexists. }
  intros Hd. apply Hgen; [by left|]. exact Hd.
Qed.

Lemma store_operations_terminate_witness :
  exists rs s', runCommands 12 (fun _ => true) [CAdd 0; CAdd 5; CContains 5; CRemove 5; CClear; CContains 5] emptyStore = Done (rs, s') /\ store_ok s'.
Proof. apply store_operations_terminate; [lia | vm_compute; discriminate]. Defined.

(** ** Without removals the store is an exact set *)

Module Spec.

(** What a client sees of a set of hashes. *)
Definition command (c : Command) (S : gset Z) : option bool * gset Z :=
  match c with
  | CAdd h => (None, {[ h ]} ∪ S)
  | CRemove h => (None, S ∖ {[ h ]})
  | CTimerFired => (None, S)
  | CClear => (None, ∅)
  | CContains h => (Some (bool_decide (h ∈ S)), S)
  end.

Fixpoint commands (cs : list Command) (S : gset Z) : list (option bool) :=
  match cs with
  | [] => []
  | c :: cs' => let '(r, S') := command c S in r :: commands cs' S'
  end.

End Spec.

(** No removal, and never the hash 0, which marks free slots. *)
Definition addOnly (c : Command) : bool :=
  match c with CAdd h | CContains h => negb (h =? 0) | CRemove _ => false | CTimerFired | CClear => true end.
Definition addOnlyOp (op : Operation) : Prop := opType op = Add /\ opHash op <> 0.

Lemma reachable_empty m n : reachable m (replicate n 0).
Proof. intros j v [-> _]%lookup_replicate. done. Qed.

Lemma applyOperations_exact m ops : forall k added removed table,
  table_ok m k table -> reachable m table -> k + additions ops < 2 ^ m -> Forall addOnlyOp ops ->
  exists table' k' added' removed',
    applyOperations ops (Some table, k, added, removed) = Done (Some table', k', added', removed') /\
    table_ok m k' table' /\ k' <= k + additions ops /\ reachable m table' /\
    forall x, x <> 0 -> x ∈ table' <-> x ∈ table \/ mkOp Add x ∈ ops.
Proof.
  induction ops as [|[ty h] ops IH]; intros k added removed table Ht Hreach Hroom Hops.
  - do 4 eexists. split; [done|]. split_and!; [done|unfold additions; simpl; lia|done|]. intros. rewrite elem_of_nil. tauto.
  - apply Forall_cons in Hops as [[E Hh] Hops]. simpl in E, Hh. subst ty. rewrite additions_cons in *. simpl in Hroom.
    pose proof (additions_nonneg ops).
    destruct (applyOperation_total m k added removed table (mkOp Add h) Ht) as (t1 & k1 & a1 & r1 & E1 & Ht1 & Hk1); [simpl; lia|].
    destruct (add_exact m table h) as (t1' & Ea & Hreach1 & Hin1); [eapply table_ok_roomy; [done|lia]|done|done|].
    assert (t1' = t1) as ->.
    { cbn [applyOperation opType opHash] in E1. rewrite Ea in E1. cbn [outcome_bind] in E1. destruct (negb _); congruence. }
    cbn [applyOperations]. rewrite E1. cbn [outcome_bind].
    destruct (IH k1 a1 r1 t1 Ht1 Hreach1) as (t2 & k2 & a2 & r2 & -> & Ht2 & Hk2 & Hreach2 & Hin2); [simpl in Hk1; lia|done|].
    do 4 eexists. split; [done|]. simpl in Hk1 |- *. split_and!; [done|lia|done|]. intros x Hx.
    rewrite Hin2, Hin1, elem_of_cons by done. split; [intros [[->|]|]; auto|intros [|[[= ->]|]]; auto].
Qed.

Lemma rehash_exact m entries : forall table k,
  table_ok m k table -> reachable m table -> k + occupied entries < 2 ^ m ->
  exists table', rehash entries (Some table) = Done (Some table') /\ table_ok m (k + occupied entries) table' /\
    reachable m table' /\ forall x, x <> 0 -> x ∈ table' <-> x ∈ table \/ x ∈ entries.
Proof.
  induction entries as [|e rest IH]; intros table k Ht Hreach Hroom; simpl in *.
  - eexists. split; [done|]. rewrite Z.add_0_r. split_and!; [done|done|]. intros. rewrite elem_of_nil. tauto.
  - pose proof (occupied_range rest). destruct (e =? 0) eqn:E; zbool.
    + destruct (IH table k Ht Hreach) as (t' & -> & ? & ? & Hin); [lia|]. exists t'. split_and!; try done.
      intros x Hx. rewrite Hin, elem_of_cons by done. split; [tauto|]. intros [?|[->|?]]; [by left|congruence|by right].
    + assert (roomy m table) as Hr by (eapply table_ok_roomy; [done|lia]).
      destruct (add_total m table e Hr) as (b & t1 & Ea & Hl & Ho).
      destruct (add_exact m table e Hr Hreach E) as (t1' & Ea' & Hreach1 & Hin1).
      rewrite Ea in Ea' |- *. injection Ea' as -> <-. simpl.
      destruct (IH t1 (k + 1)) as (t2 & -> & Ht2 & Hreach2 & Hin2); [|done|lia|].
      { destruct Ht. split; [done|lia|]. destruct (_ && _) in Ho; lia. }
      exists t2. rewrite Z.add_assoc. split_and!; try done. intros x Hx.
      rewrite Hin2, Hin1, elem_of_cons by done. tauto.
Qed.

(** The store [s], with its pending additions, holds the set [S]. *)
Record holds (s : Store) (S : gset Z) : Prop := {
  holds_ok : store_ok s;
  holds_reachable : forall m table, m_table s = Some table -> Z.of_nat (length table) = 2 ^ m -> 0 <= m -> reachable m table;
  holds_ops : Forall addOnlyOp (m_pendingOperations s);
  holds_timer : m_timerActive s = false -> m_pendingOperations s = [];
  holds_elements : forall x, x <> 0 -> x ∈ S <-> x ∈ default [] (m_table s) \/ mkOp Add x ∈ m_pendingOperations s
}.

Lemma holds_cleared s : holds (clear s) ∅.
Proof.
  split; simpl.
  - by left.
  - done.
  - constructor.
  - done.
  - intros x _. rewrite elem_of_empty, !elem_of_nil. tauto.
Qed.

Lemma pow2_length_inj m m' : 0 <= m -> 0 <= m' -> 2 ^ m = 2 ^ m' -> m = m'.
Proof. intros. by apply (Z.pow_inj_r 2). Qed.

Section exact.
Context (p : Z) (Hp : 2 <= p <= 31).
Let alloc : Z -> bool := fun _ => true.

Lemma holds_after s S s' m table :
  holds s S -> m_table s' = Some table -> m_tableSize s' = 2 ^ m -> table_ok m (m_keyCount s') table ->
  2 * m_keyCount s' <= 2 ^ m -> reachable m table -> m_pendingOperations s' = [] ->
  (forall x, x <> 0 -> x ∈ table <-> x ∈ default [] (m_table s) \/ mkOp Add x ∈ m_pendingOperations s) -> holds s' S.
Proof.
  intros Hs Et Esz Ht Hk Hreach Ep Hin. pose proof Ht as [? Hlen _]. split.
  - right. by exists m, table.
  - intros m' table' E Hl Hm'. assert (table' = table) as -> by congruence.
    by rewrite (pow2_length_inj m' m) by (lia || congruence).
  - by rewrite Ep.
  - done.
  - intros x Hx. rewrite (holds_elements s S Hs x Hx), Et, Ep, elem_of_nil by done. simpl. rewrite Hin by done. tauto.
Qed.

Lemma resizeTable_exact s S m :
  holds s S -> 0 <= m <= 31 -> 2 * demand s <= 2 ^ m ->
  exists s', resizeTable alloc (2 ^ m) s = Done s' /\ holds s' S /\ m_pendingOperations s' = [] /\ demand s' <= demand s.
Proof.
  intros Hs Hm Hd. pose proof (holds_ok s S Hs) as Hok. unfold resizeTable, alloc.
  pose proof (store_ok_keyCount s Hok). pose proof (additions_nonneg (m_pendingOperations s)).
  assert (0 < 2 ^ m) by (apply Z.pow_pos_nonneg; lia). unfold demand in *.
  assert (occupied (default [] (m_table s)) <= m_keyCount s) as Hocc.
  { destruct Hok as [(-> & _ & ->)|(m0 & table & -> & _ & [] & _)]; simpl; lia. }
  destruct (rehash_exact m (default [] (m_table s)) _ 0 (table_ok_empty m Hm) (reachable_empty m _)) as (t & -> & Ht & Hr & Hin); [lia|].
  apply (table_ok_weaken _ _ (m_keyCount s)) in Ht; [|lia]. cbn [outcome_bind].
  destruct (applyOperations_exact m (m_pendingOperations s) (m_keyCount s) [] [] t Ht Hr) as (t' & k' & a' & r' & -> & Ht' & Hk' & Hr' & Hin');
    [lia | by apply (holds_ops s S)|].
  simpl. eexists. split; [done|]. split; [|simpl; split; [done|unfold additions at 1; simpl; lia]].
  eapply (holds_after s S _ m t'); simpl; try done; [lia|].
  intros x Hx. rewrite Hin', Hin by done. rewrite elem_of_replicate. intuition congruence.
Qed.

Lemma flushPendingChanges_exact s S :
  holds s S -> demand s <= 2 ^ 30 ->
  exists s', flushPendingChanges (2 ^ p) alloc s = Done s' /\ holds s' S /\ m_pendingOperations s' = [] /\ demand s' <= demand s.
Proof.
  intros Hs Hd. unfold flushPendingChanges. destruct (m_timerActive s) eqn:Et.
  2: { exists s. split_and!; try done. by apply (holds_timer s S Hs). }
  pose proof (holds_ok s S Hs) as Hok. pose proof (store_ok_keyCount s Hok). pose proof (additions_nonneg (m_pendingOperations s)).
  unfold processPendingOperations. simpl. fold (additions (m_pendingOperations s)). unfold demand in Hd.
  rewrite (wrap_small 32 (additions _)), (wrap_small 32 (_ + _)) by (unfold in_width; lia).
  fold (demand s). destruct (tableSizeForKeyCount_spec p (demand s) Hp) as (m & Hm & -> & Hdm); [unfold demand; lia|].
  assert (0 < 2 ^ m) by (apply Z.pow_pos_nonneg; lia).
  destruct (decide (m_tableSize s < 2 ^ m)) as [Hlt|Hge].
  - rewrite Z.max_r, (proj2 (Z.eqb_neq _ _)) by lia. simpl. unfold resizeTable at 1, alloc at 1. simpl.
    destruct (resizeTable_exact s S m Hs Hm Hdm) as (s' & E & Hs' & Hpend & Hd'). unfold resizeTable, alloc in E.
    destruct (rehash _ _) as [t| | |]; try discriminate. simpl in E |- *.
    destruct (applyOperations _ _) as [[[[t' k'] a'] r']| | |]; try discriminate. simpl in E |- *. injection E as <-.
    eexists. split; [done|]. split; [|by split]. by destruct Hs'; split.
  - rewrite Z.max_l, Z.eqb_refl by lia. cbn [negb].
    destruct Hok as [(_ & E & _)|(m0 & table & E & Esz & Ht & Hk)]; [lia|]. rewrite E.
    unfold demand in *.
    destruct (applyOperations_exact m0 (m_pendingOperations s) (m_keyCount s) [] [] table Ht) as (t' & k' & a' & r' & -> & Ht' & Hk' & Hr' & Hin');
      [destruct Ht as [? Hl _]; apply (holds_reachable s S Hs); [done|done|lia] | lia | by apply (holds_ops s S)|].
    simpl. eexists. split; [done|]. split; [|simpl; split; [done|unfold additions at 1; simpl; lia]].
    eapply (holds_after s S _ m0 t'); simpl; try done; [lia|]. intros. rewrite E. by apply Hin'.
Qed.

Lemma contains_holds s S h :
  holds s S -> h <> 0 -> m_pendingOperations s = [] -> contains (m_table s) h = Done (bool_decide (h ∈ S)).
Proof.
  intros Hs Hh Ep. pose proof (holds_elements s S Hs h Hh) as Hin. rewrite Ep, elem_of_nil in Hin.
  destruct (holds_ok s S Hs) as [(E & _ & _)|(m & table & E & _ & Ht & Hk)]; rewrite E in *; simpl in Hin.
  - unfold contains. simpl. f_equal. symmetry. apply bool_decide_false. rewrite Hin, elem_of_nil. tauto.
  - pose proof Ht as [? Hl ?]. assert (0 < 2 ^ m) by (apply Z.pow_pos_nonneg; lia).
    rewrite (contains_exact m table h).
    + f_equal. apply bool_decide_ext. rewrite Hin. tauto.
    + eapply table_ok_roomy; [done|lia].
    + apply (holds_reachable s S Hs); [done|done|lia].
    + done.
Qed.

Lemma runCommand_exact c s S :
  holds s S -> addOnly c = true -> demand s + (if isAddition c then 1 else 0) <= 2 ^ 30 ->
  exists s', runCommand p alloc c s = Done (fst (Spec.command c S), s') /\ holds s' (snd (Spec.command c S)) /\
    demand s' <= demand s + (if isAddition c then 1 else 0).
Proof.
  intros Hs Hc Hd. destruct c as [h|h| | |h]; simpl in *; zbool; try discriminate.
  - eexists. split; [done|]. split.
    + destruct Hs as [? ? Hops Htimer Hin]. split; try done.
      * apply Forall_app. split; [done|]. by repeat constructor.
      * intros x Hx. simpl. rewrite elem_of_union, elem_of_singleton, Hin, elem_of_app, list_elem_of_singleton by done.
        split; [intros [->|[|]]; auto | intros [|[|[= ->]]]; auto].
    + unfold demand. simpl. rewrite additions_app, additions_cons. unfold additions at 2. simpl. lia.
  - destruct (flushPendingChanges_exact s S Hs) as (s' & -> & ? & ? & ?); [lia|]. eexists. split; [done|]. split; [done|lia].
  - eexists. split; [done|]. split.
    + apply holds_cleared.
    + pose proof (store_ok_keyCount s (holds_ok s S Hs)). pose proof (additions_nonneg (m_pendingOperations s)).
      unfold demand, additions at 1. simpl. lia.
  - destruct (flushPendingChanges_exact s S Hs) as (s' & E & Hs' & Hpend & ?); [lia|].
    unfold storeContains. rewrite E. cbn [outcome_bind]. rewrite (contains_holds s' S h) by done. simpl.
    eexists. split; [done|]. split; [done|lia].
Qed.

End exact.



(** Removal is not exact: it frees the slot without leaving a mark, so a hash that
    was stored further along a probe sequence running through that slot is lost. With
    pages of 4096 bytes, after adding 5 and 1029 and removing 5 the store denies
    holding 1029, which the set still contains. *)
Theorem removal_hides_colliding_hash :
  exists s', runCommands 12 (fun _ => true) [CAdd 5; CAdd 1029; CContains 1029; CRemove 5; CContains 1029] emptyStore
    = Done ([None; None; Some true; None; Some false], s') /\
  Spec.commands [CAdd 5; CAdd 1029; CContains 1029; CRemove 5; CContains 1029] ∅ = [None; None; Some true; None; Some true] /\
  1029 ∈ default [] (m_table s') /\ m_keyCount s' = 1.
Proof.
  eexists. split; [vm_compute; reflexivity|]. split_and!; [done| |done].
  apply (bool_decide_unpack _). vm_compute. exact I.
Qed.

End SharedStringHash.
