(* ===== verification/Connection.v ===== *)
(** * Platform/IPC/Connection.cpp

    The connection to another process, as a machine with two threads: the
    connection's work queue, which receives messages ([processIncomingMessage]) and
    learns that the connection closed, and the main thread, which runs the tasks of
    its run loop, dispatches messages to the client and blocks in [waitForMessage]
    and [waitForSyncReply]. Client code that runs inside a dispatched message may
    re-enter the connection, so the main thread keeps a stack of activations.

    The model is of the platforms other than Cocoa (where [enqueueIncomingMessage]
    has the additional killing threshold) built without the testing observers. *)

From S2P Require Import Prelude.

Module Connection.

(** ** Messages *)

Inductive MessageName := SyncMessageReply | WrappedAsyncMessageForTesting | OtherMessage (n : Z).
Inductive ReceiverName := ReceiverIPC | ReceiverAsyncReply | OtherReceiver (n : Z).
Inductive ShouldDispatch := No | Yes | YesDuringUnboundedIPC.

#[global] Instance MessageName_eq_dec : EqDecision MessageName.
Proof. solve_decision. Defined.
#[global] Instance ReceiverName_eq_dec : EqDecision ReceiverName.
Proof. solve_decision. Defined.
#[global] Instance ShouldDispatch_eq_dec : EqDecision ShouldDispatch.
Proof. solve_decision. Defined.

(** What the connection looks at in a message. [serial] identifies the decoder or
    encoder object; [firstUInt64] is what decoding a [uint64_t] from the start of the
    body yields: the sync request ID or the async reply's listener ID. *)
Record Message := mkMessage {
  serial : nat;
  messageName : MessageName;
  messageReceiverName : ReceiverName;
  destinationID : Z;
  isSyncMessage : bool;
  shouldDispatchMessageWhenWaitingForSyncReply : ShouldDispatch;
  shouldMaintainOrderingWithAsyncMessages : bool;
  shouldUseFullySynchronousModeForTesting : bool;
  firstUInt64 : option Z
}.
#[global] Instance eta_Message : Eta Message := fun r =>
  mkMessage (serial r) (messageName r) (messageReceiverName r) (destinationID r) (isSyncMessage r)
    (shouldDispatchMessageWhenWaitingForSyncReply r) (shouldMaintainOrderingWithAsyncMessages r)
    (shouldUseFullySynchronousModeForTesting r) (firstUInt64 r).
#[global] Instance Message_eq_dec : EqDecision Message.
Proof. solve_decision. Defined.

(** ** The connection's state *)

Record WaitForMessageState := mkWaiting {
  waitName : MessageName;
  waitDestinationID : Z;
  interruptIfSyncMessageArrives : bool;
  dispatchIncomingSyncMessages : bool;
  messageWaitingInterrupted : bool;
  waitDecoder : option Message;
  (* the condition variable: whether the main thread is blocked on it, and was notified *)
  conditionBlocked : bool;
  conditionNotified : bool
}.
#[global] Instance eta_Waiting : Eta WaitForMessageState := fun r =>
  mkWaiting (waitName r) (waitDestinationID r) (interruptIfSyncMessageArrives r) (dispatchIncomingSyncMessages r)
    (messageWaitingInterrupted r) (waitDecoder r) (conditionBlocked r) (conditionNotified r).

Record PendingSyncReply := mkPending {
  syncRequestID : Z;
  replyDecoder : option Message;
  didReceiveReply : bool
}.

Record Throttler := mkThrottler { m_throttlingLevel : Z; m_dispatchMessagesTimerActive : bool }.

(** [m_pendingSyncReplies] has the last element of the vector first. The handlers of
    asynchronous replies, kept in a global map by connection, are here with it; [None] when the map has no entry for the connection. *)
Record Connection := mkConnection {
  m_isValid : bool;
  m_syncRequestID : Z;
  m_onlySendMarkedWhenProcessingMarked : bool;
  m_shouldExitOnSyncMessageSendFailure : bool;
  m_inSendSyncCount : Z;
  m_inDispatchMessageCount : Z;
  m_inDispatchMarkedCount : Z;
  m_inFullySynchronousCount : Z;
  m_fullySynchronousModeIsAllowed : bool;
  m_didReceiveInvalidMessage : bool;
  m_incomingMessages : list Message;
  m_incomingMessagesThrottler : option Throttler;
  m_outgoingMessages : list Message;
  m_waitingForMessage : option WaitForMessageState;
  m_shouldWaitForSyncReplies : bool;
  m_shouldWaitForMessages : bool;
  m_pendingSyncReplies : list PendingSyncReply;
  m_workQueueMessageReceivers : gset (Z * Z);
  m_threadMessageReceivers : gset (Z * Z);
  m_incomingSyncMessageCallbacks : list Z;
  m_nextIncomingSyncMessageCallbackID : Z;
  asyncReplyHandlers : option (gset Z)
}.
#[global] Instance eta_Connection : Eta Connection := fun r =>
  mkConnection (m_isValid r) (m_syncRequestID r) (m_onlySendMarkedWhenProcessingMarked r)
    (m_shouldExitOnSyncMessageSendFailure r) (m_inSendSyncCount r) (m_inDispatchMessageCount r)
    (m_inDispatchMarkedCount r) (m_inFullySynchronousCount r) (m_fullySynchronousModeIsAllowed r)
    (m_didReceiveInvalidMessage r) (m_incomingMessages r) (m_incomingMessagesThrottler r) (m_outgoingMessages r)
    (m_waitingForMessage r) (m_shouldWaitForSyncReplies r) (m_shouldWaitForMessages r) (m_pendingSyncReplies r)
    (m_workQueueMessageReceivers r) (m_threadMessageReceivers r) (m_incomingSyncMessageCallbacks r)
    (m_nextIncomingSyncMessageCallbackID r) (asyncReplyHandlers r).

Definition createConnection : Connection :=
  mkConnection true 0 false false 0 0 0 0 false false [] None [] None true true [] ∅ ∅ [] 0 None.

(** ** The process: its connections, run loop and activations *)

(** Tasks posted to the main run loop. *)
Inductive Task :=
| DispatchSyncMessagesFor (c : nat)          (* dispatchMessagesAndResetDidSchedule... *)
| DispatchEnqueued (c : nat)                 (* posted by enqueueIncomingMessage *)
| DispatchThrottled (c : nat)                (* posted by scheduleMessagesDispatch *)
| ReportInvalidMessage (c : nat) (name : MessageName)
| ReportDidClose (c : nat).

#[global] Instance Task_eq_dec : EqDecision Task.
Proof. solve_decision. Defined.

(** How far a [dispatchMessage] is. *)
Inductive Phase :=
| InClient (reply : option Z)   (* client code runs; [Some id] for a sync message to answer *)
| AfterClient (reply : option Z).

(** Activations of the main thread, innermost first. *)
Inductive Frame :=
| FDispatch (c : nat) (m : Message) (marked oldInvalid decoderValid : bool) (phase : Phase)
| FDispatchMessages (rest : list (nat * Message))
| FDispatchMessagesFor (c : nat) (rest putBack : list (nat * Message))
| FDispatchIncoming (c : nat) (remaining : nat)
| FWaitReplyHead (c : nat) (id : Z)
| FWaitReplyCheck (c : nat) (id : Z)
| FWaitReplyBlocked (c : nat) (id : Z)
| FWaitMessageHead (c : nat)
| FWaitMessageCheck (c : nat)
| FWaitMessageBlocked (c : nat)
| FRunLoop.                     (* a run loop nested in client code *)

(** What became of a message. *)
Inductive Fate :=
| ToClient | ToReplyHandler (id : Z) | ToWorkQueue | ToThread | ToWaiter | ToSyncSender
| RejectedKey | RejectedFullySynchronous | RejectedSyncRequest | RejectedReply | ConnectionInvalid | UnknownReply
| LostByWaiter | Unwrapped.

Inductive Event :=
| Received (c : nat) (m : Message)
| Handled (c : nat) (m : Message) (fate : Fate)
| SyncReturned (c : nat) (id : Z) (reply : option Message)
| WaitReturned (c : nat) (message : option Message)
| InvalidMessage (c : nat) (name : MessageName)
| HandlerCancelled (c : nat) (id : Z)
| CallbacksCalled (c : nat) (ids : list Z)
| DidClose (c : nat)
| SentMessage (c : nat) (m : Message)
| Exited
| Crashed.

#[global] Instance Fate_eq_dec : EqDecision Fate.
Proof. solve_decision. Defined.
#[global] Instance Event_eq_dec : EqDecision Event.
Proof. solve_decision. Defined.

Record World := mkWorld {
  connections : nat -> Connection;
  m_didScheduleDispatchMessagesWorkSet : gset nat;
  m_messagesToDispatchWhileWaitingForSyncReply : list (nat * Message);
  m_waitForSyncReplySemaphore : bool;
  mainQueue : list Task;
  unboundedSynchronousIPCCount : Z;
  stack : list Frame;
  exited : bool;
  log : list Event
}.
#[global] Instance eta_World : Eta World := fun r =>
  mkWorld (connections r) (m_didScheduleDispatchMessagesWorkSet r) (m_messagesToDispatchWhileWaitingForSyncReply r)
    (m_waitForSyncReplySemaphore r) (mainQueue r) (unboundedSynchronousIPCCount r) (stack r) (exited r) (log r).

Definition initialWorld : World := mkWorld (fun _ => createConnection) ∅ [] false [] 0 [] false [].

Definition post (t : Task) (w : World) : World := w <| mainQueue := mainQueue w ++ [t] |>.
Definition record (e : Event) (w : World) : World := w <| log := log w ++ [e] |>.
Definition push (f : Frame) (w : World) : World := w <| stack := f :: stack w |>.
Definition pop (w : World) : World := w <| stack := tail (stack w) |>.
Definition onConnection (c : nat) (f : Connection -> Connection) (w : World) : World :=
  w <| connections := upd c (f (connections w c)) (connections w) |>.
Definition wakeUpClientRunLoop (w : World) : World := w <| m_waitForSyncReplySemaphore := true |>.
Definition hasOngoingUnboundedSyncIPC (w : World) : bool := 0 <? unboundedSynchronousIPCCount w.

(** ** Pure parts *)

(** [processIncomingSyncReply]: the innermost request with the reply's ID takes it;
    the flag says whether it is the last request of the stack. *)
Fixpoint acceptReply (m : Message) (isLast : bool) (pending : list PendingSyncReply) : option (list PendingSyncReply * bool) :=
  match pending with
  | [] => None
  | p :: outer =>
      if syncRequestID p =? destinationID m then Some (mkPending (syncRequestID p) (Some m) true :: outer, isLast)
      else match acceptReply m false outer with
           | Some (outer', b) => Some (p :: outer', b)
           | None => None
           end
  end.

Definition maxIncomingMessagesDispatchingBatchSize : Z := 600.
Definition maxThrottlingLevel : Z := 9.

(** [MessagesThrottler::numberOfMessagesToProcess]: the batch and the new level. *)
Definition numberOfMessagesToProcess (level totalMessages : Z) : Z * Z :=
  let batchSize := maxIncomingMessagesDispatchingBatchSize / (level + 1) in
  let level' :=
    if maxIncomingMessagesDispatchingBatchSize <? totalMessages then Z.min (level + 1) maxThrottlingLevel
    else if level =? 0 then level else level - 1 in
  (Z.min totalMessages batchSize, level').

(** The loop of [sendOutgoingMessages]: what was handed to the transport and what stays queued. *)
Fixpoint sendLoop (sendOutgoingMessage : Message -> bool) (queue : list Message) : list Message * list Message :=
  match queue with
  | [] => ([], [])
  | m :: rest =>
      if sendOutgoingMessage m then let '(sent, queued) := sendLoop sendOutgoingMessage rest in (m :: sent, queued)
      else ([m], rest)
  end.

(** The search of [waitForMessage] in the incoming queue: the message found with the
    queue without it, or whether a synchronous message is queued. *)
Fixpoint takeMatching (name : MessageName) (destination : Z) (queue : list Message) : option (Message * list Message) :=
  match queue with
  | [] => None
  | m :: rest =>
      if bool_decide (messageName m = name) && (destinationID m =? destination) then Some (m, rest)
      else match takeMatching name destination rest with
           | Some (found, rest') => Some (found, m :: rest')
           | None => None
           end
  end.

Definition hasIncomingSyncMessage (conn : Connection) : bool := existsb isSyncMessage (m_incomingMessages conn).

Definition notify (st : WaitForMessageState) : WaitForMessageState :=
  st <| conditionNotified := conditionNotified st || conditionBlocked st |>.

Section operations.
(** [HashMap::isValidKey] of the receiver and reply maps, the receiver names' numbers,
    and the wrapping of messages in fully synchronous mode. *)
Context (isValidKey : Z * Z -> bool) (isValidReplyKey : Z -> bool) (receiverIndex : ReceiverName -> Z).
Context (wrapForTesting : Message -> Message -> Message) (unwrapForTesting : Message -> option Message).

(** ** Receivers on other threads *)

Definition receiverFor (receivers : gset (Z * Z)) (m : Message) : bool :=
  let name := receiverIndex (messageReceiverName m) in
  bool_decide ((name, 0) ∈ receivers)
  || (negb (destinationID m =? 0) && bool_decide ((name, destinationID m) ∈ receivers)).

Definition addWorkQueueMessageReceiver (name destination : Z) (conn : Connection) : Connection :=
  conn <| m_workQueueMessageReceivers := {[ (name, destination) ]} ∪ m_workQueueMessageReceivers conn |>.
Definition removeWorkQueueMessageReceiver (name destination : Z) (conn : Connection) : Connection :=
  conn <| m_workQueueMessageReceivers := m_workQueueMessageReceivers conn ∖ {[ (name, destination) ]} |>.
Definition addThreadMessageReceiver (name destination : Z) (conn : Connection) : Connection :=
  conn <| m_threadMessageReceivers := {[ (name, destination) ]} ∪ m_threadMessageReceivers conn |>.
Definition removeThreadMessageReceiver (name destination : Z) (conn : Connection) : Connection :=
  conn <| m_threadMessageReceivers := m_threadMessageReceivers conn ∖ {[ (name, destination) ]} |>.

Definition installIncomingSyncMessageCallback (conn : Connection) : Z * Connection :=
  let id := wrap 64 (m_nextIncomingSyncMessageCallbackID conn + 1) in
  (id, conn <| m_nextIncomingSyncMessageCallbackID := id |>
            <| m_incomingSyncMessageCallbacks := m_incomingSyncMessageCallbacks conn ++ [id] |>).
Definition uninstallIncomingSyncMessageCallback (id : Z) (conn : Connection) : Connection :=
  conn <| m_incomingSyncMessageCallbacks := List.filter (fun i => negb (i =? id)) (m_incomingSyncMessageCallbacks conn) |>.

Definition isIncomingMessagesThrottlingEnabled (conn : Connection) : bool :=
  match m_incomingMessagesThrottler conn with Some _ => true | None => false end.
Definition enableIncomingMessagesThrottling (conn : Connection) : Connection :=
  if isIncomingMessagesThrottlingEnabled conn then conn
  else conn <| m_incomingMessagesThrottler := Some (mkThrottler 0 false) |>.

(** ** Receiving, on the connection's work queue *)

Definition enqueueIncomingMessage (c : nat) (m : Message) (w : World) : World :=
  let w := onConnection c (fun conn => conn <| m_incomingMessages := m_incomingMessages conn ++ [m] |>) w in
  let conn := connections w c in
  if isIncomingMessagesThrottlingEnabled conn && negb (bool_decide (length (m_incomingMessages conn) = 1%nat)) then w
  else post (DispatchEnqueued c) w.

(** The message goes, after the queued ones it must not overtake, to the messages
    that a thread waiting for a sync reply dispatches. *)
Definition appendForSyncWaiter (c : nat) (m : Message) (w : World) : World :=
  let shouldDispatch := negb (bool_decide (c ∈ m_didScheduleDispatchMessagesWorkSet w)) in
  let pendingAsync := if shouldMaintainOrderingWithAsyncMessages m then m_incomingMessages (connections w c) else [] in
  let w := w <| m_didScheduleDispatchMessagesWorkSet := {[ c ]} ∪ m_didScheduleDispatchMessagesWorkSet w |> in
  let w := if shouldMaintainOrderingWithAsyncMessages m
           then onConnection c (fun conn => conn <| m_incomingMessages := [] |>) w else w in
  let w := w <| m_messagesToDispatchWhileWaitingForSyncReply :=
                  m_messagesToDispatchWhileWaitingForSyncReply w ++ map (pair c) pendingAsync ++ [(c, m)] |> in
  let w := if shouldDispatch then post (DispatchSyncMessagesFor c) w else w in
  wakeUpClientRunLoop w.

(** [SyncMessageState::processIncomingMessage]; [None] if it returned false. *)
Definition syncStateProcessIncomingMessage (c : nat) (m : Message) (w : World) : option World :=
  match shouldDispatchMessageWhenWaitingForSyncReply m with
  | No => None
  | YesDuringUnboundedIPC => if hasOngoingUnboundedSyncIPC w then Some (appendForSyncWaiter c m w) else None
  | Yes => Some (appendForSyncWaiter c m w)
  end.

Definition processIncomingSyncReply (c : nat) (m : Message) (w : World) : World :=
  match acceptReply m true (m_pendingSyncReplies (connections w c)) with
  | Some (pending, isLast) =>
      let w := onConnection c (fun conn => conn <| m_pendingSyncReplies := pending |>) w in
      let w := if isLast then wakeUpClientRunLoop w else w in
      record (Handled c m ToSyncSender) w
  | None => record (Handled c m UnknownReply) w
  end.

Definition callIncomingSyncMessageCallbacks (c : nat) (m : Message) (w : World) : World :=
  if isSyncMessage m then
    record (CallbacksCalled c (m_incomingSyncMessageCallbacks (connections w c)))
      (onConnection c (fun conn => conn <| m_incomingSyncMessageCallbacks := [] |>) w)
  else w.

Definition deliverToMainThread (c : nat) (m : Message) (w : World) : World :=
  match syncStateProcessIncomingMessage c m w with
  | Some w' => w'
  | None => enqueueIncomingMessage c m w
  end.

Definition setWaiting (c : nat) (st : option WaitForMessageState) : World -> World :=
  onConnection c (fun conn => conn <| m_waitingForMessage := st |>).

(** The part of [processIncomingMessage] under [m_waitForMessageMutex]. *)
Definition deliver (c : nat) (m : Message) (w : World) : World :=
  match m_waitingForMessage (connections w c) with
  | Some st =>
      if bool_decide (waitDecoder st = None) then
        if bool_decide (waitName st = messageName m) && (waitDestinationID st =? destinationID m) then
          setWaiting c (Some (notify (st <| waitDecoder := Some m |>))) w
        else
          match (if dispatchIncomingSyncMessages st && isSyncMessage m then syncStateProcessIncomingMessage c m w else None) with
          | Some w' => setWaiting c (Some (notify st)) w'
          | None =>
              if interruptIfSyncMessageArrives st && isSyncMessage m then
                enqueueIncomingMessage c m (setWaiting c (Some (notify (st <| messageWaitingInterrupted := true |>))) w)
              else deliverToMainThread c m w
          end
      else deliverToMainThread c m w
  | None => deliverToMainThread c m w
  end.

Definition processIncomingMessage (c : nat) (m : Message) (w : World) : World :=
  let w := record (Received c m) w in
  if bool_decide (messageName m = SyncMessageReply) then processIncomingSyncReply c m w
  else if negb (isValidKey (receiverIndex (messageReceiverName m), destinationID m)) then
    record (Handled c m RejectedKey) (post (ReportInvalidMessage c (messageName m)) w)
  else if receiverFor (m_workQueueMessageReceivers (connections w c)) m then record (Handled c m ToWorkQueue) w
  else if receiverFor (m_threadMessageReceivers (connections w c)) m then record (Handled c m ToThread) w
  else deliver c m (callIncomingSyncMessageCallbacks c m w).

(** [connectionDidClose]. *)
Definition connectionDidClose (c : nat) (w : World) : World :=
  let hadPending := negb (bool_decide (length (m_pendingSyncReplies (connections w c)) = 0%nat)) in
  let w := onConnection c (fun conn => conn <| m_shouldWaitForSyncReplies := false |>) w in
  let w := if hadPending then wakeUpClientRunLoop w else w in
  let w := onConnection c (fun conn => conn <| m_shouldWaitForMessages := false |>) w in
  let w := match m_waitingForMessage (connections w c) with
           | Some st => setWaiting c (Some (notify (st <| messageWaitingInterrupted := true |>))) w
           | None => w
           end in
  post (ReportDidClose c) w.

(** [sendOutgoingMessages]; the transport may be unable to send at all. *)
Definition sendOutgoingMessages (c : nat) (canSendOutgoingMessages : bool) (sendOutgoingMessage : Message -> bool) (w : World) : World :=
  if canSendOutgoingMessages then
    let '(sent, queued) := sendLoop sendOutgoingMessage (m_outgoingMessages (connections w c)) in
    let w := onConnection c (fun conn => conn <| m_outgoingMessages := queued |>) w in
    w <| log := log w ++ map (SentMessage c) sent |>
  else w.

(** ** Sending, on the main thread *)

Record SendOptions := mkSendOptions {
  DispatchMessageEvenWhenWaitingForSyncReply : bool;
  DispatchMessageEvenWhenWaitingForUnboundedSyncReply : bool;
  IgnoreFullySynchronousMode : bool
}.
Definition noSendOptions : SendOptions := mkSendOptions false false false.

Record SendSyncOptions := mkSendSyncOptions {
  ForceDispatchWhenDestinationIsWaitingForUnboundedSyncReply : bool;
  MaintainOrderingWithAsyncMessages : bool
}.

(** The end of [sendMessage]: the flag and the queue. *)
Definition appendOutgoing (c : nat) (m : Message) (options : SendOptions) (w : World) : World :=
  let conn := connections w c in
  let m :=
    if DispatchMessageEvenWhenWaitingForSyncReply options
       && (negb (m_onlySendMarkedWhenProcessingMarked conn) || negb (m_inDispatchMarkedCount conn =? 0))
    then m <| shouldDispatchMessageWhenWaitingForSyncReply := Yes |>
    else if DispatchMessageEvenWhenWaitingForUnboundedSyncReply options
    then m <| shouldDispatchMessageWhenWaitingForSyncReply := YesDuringUnboundedIPC |>
    else m in
  onConnection c (fun conn => conn <| m_outgoingMessages := m_outgoingMessages conn ++ [m] |>) w.

Definition didFailToSendSyncMessage (c : nat) (w : World) : World :=
  if m_shouldExitOnSyncMessageSendFailure (connections w c) then record Exited (w <| exited := true |>) else w.

(** [createSyncMessageEncoder]: a fresh request ID, encoded at the start of the body. *)
Definition createSyncMessageEncoder (c : nat) (m : Message) (w : World) : Z * Message * World :=
  let id := wrap 64 (m_syncRequestID (connections w c) + 1) in
  (id, m <| firstUInt64 := Some id |>, onConnection c (fun conn => conn <| m_syncRequestID := id |>) w).

(** [sendSyncMessage] up to the wait for the reply. A sync message is not wrapped, and
    the connection was just found valid, so [sendMessage] queues it. *)
Definition sendSyncMessage (c : nat) (id : Z) (m : Message) (options : SendSyncOptions) (w : World) : World :=
  let conn := connections w c in
  if negb (m_isValid conn) || negb (m_shouldWaitForSyncReplies conn) then
    record (SyncReturned c id None) (didFailToSendSyncMessage c w)
  else
    let w := onConnection c (fun conn => conn <| m_pendingSyncReplies := mkPending id None false :: m_pendingSyncReplies conn |>
                                              <| m_inSendSyncCount := wrap 32 (m_inSendSyncCount conn + 1) |>) w in
    let m := if MaintainOrderingWithAsyncMessages options then m <| shouldMaintainOrderingWithAsyncMessages := true |> else m in
    let w := appendOutgoing c m (mkSendOptions true (ForceDispatchWhenDestinationIsWaitingForUnboundedSyncReply options) false) w in
    push (FWaitReplyHead c id) w.

Definition wrappedMessage (m : Message) : Message :=
  mkMessage (serial m) WrappedAsyncMessageForTesting ReceiverIPC (destinationID m) true No false true None.

Definition sendMessage (c : nat) (m : Message) (options : SendOptions) (w : World) : World :=
  let conn := connections w c in
  if negb (m_isValid conn) then w
  else if negb (m_inFullySynchronousCount conn =? 0) && negb (isSyncMessage m)
          && negb (bool_decide (messageReceiverName m = ReceiverIPC)) && negb (IgnoreFullySynchronousMode options) then
    let '(id, encoder, w) := createSyncMessageEncoder c (wrappedMessage m) w in
    sendSyncMessage c id (wrapForTesting encoder m) (mkSendSyncOptions false false) w
  else appendOutgoing c m options w.

(** The reply to sync request [id]. *)
Definition replyMessage (m : Message) (id : Z) : Message :=
  mkMessage (serial m) SyncMessageReply ReceiverIPC id false No false false None.
Definition sendSyncReply (c : nat) (reply : Message) (w : World) : World := sendMessage c reply noSendOptions w.

(** ** Handlers of asynchronous replies *)

Definition addAsyncReplyHandler (id : Z) (conn : Connection) : Connection :=
  conn <| asyncReplyHandlers := Some ({[ id ]} ∪ default ∅ (asyncReplyHandlers conn)) |>.

(** Whether a handler was found, and the connection without it. *)
Definition takeAsyncReplyHandler (id : Z) (conn : Connection) : bool * Connection :=
  match asyncReplyHandlers conn with
  | None => (false, conn)
  | Some handlers =>
      if isValidReplyKey id then (bool_decide (id ∈ handlers), conn <| asyncReplyHandlers := Some (handlers ∖ {[ id ]}) |>)
      else (false, conn <| m_didReceiveInvalidMessage := true |>)
  end.

Definition clearAsyncReplyHandlers (c : nat) (w : World) : World :=
  let handlers := default ∅ (asyncReplyHandlers (connections w c)) in
  let w := onConnection c (fun conn => conn <| asyncReplyHandlers := None |>) w in
  w <| log := log w ++ map (HandlerCancelled c) (elements handlers) |>.

(** ** Dispatching, on the main thread *)

(** [SyncMessageState::dispatchMessages]: the messages to dispatch are swapped out. *)
Definition dispatchMessages (w : World) : World :=
  push (FDispatchMessages (m_messagesToDispatchWhileWaitingForSyncReply w))
    (w <| m_messagesToDispatchWhileWaitingForSyncReply := [] |>).

Definition isDispatchingWhileWaiting (m : Message) (w : World) : bool :=
  match shouldDispatchMessageWhenWaitingForSyncReply m with
  | Yes => true
  | YesDuringUnboundedIPC => hasOngoingUnboundedSyncIPC w
  | No => false
  end.

(** [dispatchSyncMessage] up to the client's handler. *)
Definition dispatchSyncMessage (c : nat) (m : Message) (marked old : bool) (w : World) : World :=
  match firstUInt64 m with
  | None | Some 0 => record (Handled c m RejectedSyncRequest) (push (FDispatch c m marked old false (AfterClient None)) w)
  | Some id =>
      if bool_decide (messageName m = WrappedAsyncMessageForTesting) then
        if negb (m_fullySynchronousModeIsAllowed (connections w c)) then
          record (Handled c m RejectedFullySynchronous) (push (FDispatch c m marked old false (AfterClient None)) w)
        else
          match unwrapForTesting m with
          | None =>
              record Crashed ((record (Handled c m Unwrapped) (push (FDispatch c m marked old true (AfterClient (Some id))) w)) <| exited := true |>)
          | Some unwrapped =>
              dispatchMessages (processIncomingMessage c unwrapped
                (record (Handled c m Unwrapped) (push (FDispatch c m marked old true (AfterClient (Some id))) w)))
          end
      else record (Handled c m ToClient) (push (FDispatch c m marked old true (InClient (Some id))) w)
  end.

(** [dispatchMessage(Decoder&)]. *)
Definition dispatchAsyncMessage (c : nat) (m : Message) (marked old : bool) (w : World) : World :=
  if bool_decide (messageReceiverName m = ReceiverAsyncReply) then
    match firstUInt64 m with
    | None => record (Handled c m RejectedReply) (push (FDispatch c m marked old false (AfterClient None)) w)
    | Some id =>
        let '(found, conn') := takeAsyncReplyHandler id (connections w c) in
        let w := onConnection c (fun _ => conn') w in
        if found then record (Handled c m (ToReplyHandler id)) (push (FDispatch c m marked old true (InClient None)) w)
        else record (Handled c m RejectedReply) (push (FDispatch c m marked old true (AfterClient None)) w)
    end
  else record (Handled c m ToClient) (push (FDispatch c m marked old true (InClient None)) w).

(** [dispatchMessage(std::unique_ptr<Decoder>)] up to the client's handler. *)
Definition dispatchMessage (c : nat) (m : Message) (w : World) : World :=
  let conn := connections w c in
  if negb (m_isValid conn) then record (Handled c m ConnectionInvalid) w
  else if receiverFor (m_workQueueMessageReceivers conn) m then record (Handled c m ToWorkQueue) w
  else if shouldUseFullySynchronousModeForTesting m && negb (m_fullySynchronousModeIsAllowed conn) then
    record (Handled c m RejectedFullySynchronous) (record (InvalidMessage c (messageName m)) w)
  else
    let marked := isDispatchingWhileWaiting m w in
    let old := m_didReceiveInvalidMessage conn in
    let w := onConnection c (fun conn =>
      conn <| m_inFullySynchronousCount := wrap 32 (m_inFullySynchronousCount conn + (if shouldUseFullySynchronousModeForTesting m then 1 else 0)) |>
           <| m_inDispatchMessageCount := wrap 32 (m_inDispatchMessageCount conn + 1) |>
           <| m_inDispatchMarkedCount := wrap 32 (m_inDispatchMarkedCount conn + (if marked then 1 else 0)) |>
           <| m_didReceiveInvalidMessage := false |>) w in
    if isSyncMessage m then dispatchSyncMessage c m marked old w else dispatchAsyncMessage c m marked old w.

(** The rest of [dispatchMessage], after the client's handler: the reply that was not
    taken away by the client, the counters and the report of an invalid message. *)
Definition finishDispatch (c : nat) (m : Message) (marked old decoderValid : bool) (reply : option Z) (w : World) : World :=
  let w := pop w in
  let w := match reply with Some id => sendSyncReply c (replyMessage m id) w | None => w end in
  let invalid := m_didReceiveInvalidMessage (connections w c) || negb decoderValid in
  let w := onConnection c (fun conn =>
    conn <| m_inDispatchMessageCount := wrap 32 (m_inDispatchMessageCount conn - 1) |>
         <| m_inDispatchMarkedCount := wrap 32 (m_inDispatchMarkedCount conn - (if marked then 1 else 0)) |>
         <| m_inFullySynchronousCount := wrap 32 (m_inFullySynchronousCount conn - (if shouldUseFullySynchronousModeForTesting m then 1 else 0)) |>) w in
  let w := if invalid && m_isValid (connections w c) then record (InvalidMessage c (messageName m)) w else w in
  onConnection c (fun conn => conn <| m_didReceiveInvalidMessage := old |>) w.

Definition dispatchOneIncomingMessage (c : nat) (w : World) : World :=
  match m_incomingMessages (connections w c) with
  | [] => w
  | m :: rest => dispatchMessage c m (onConnection c (fun conn => conn <| m_incomingMessages := rest |>) w)
  end.

Definition scheduleMessagesDispatch (c : nat) (w : World) : World :=
  match m_incomingMessagesThrottler (connections w c) with
  | Some t =>
      if negb (m_throttlingLevel t =? 0)
      then onConnection c (fun conn => conn <| m_incomingMessagesThrottler := Some (mkThrottler (m_throttlingLevel t) true) |>) w
      else post (DispatchThrottled c) w
  | None => w
  end.

(** [dispatchIncomingMessages]: the first message, with the loop over the others as an
    activation below it. *)
Definition dispatchIncomingMessages (c : nat) (w : World) : World :=
  match m_incomingMessages (connections w c), m_incomingMessagesThrottler (connections w c) with
  | m :: rest, Some t =>
      let '(messagesToProcess, level) := numberOfMessagesToProcess (m_throttlingLevel t) (Z.of_nat (length rest)) in
      let w := onConnection c (fun conn =>
        conn <| m_incomingMessages := rest |>
             <| m_incomingMessagesThrottler := Some (mkThrottler level (m_dispatchMessagesTimerActive t)) |>) w in
      let w := match rest with [] => w | _ => scheduleMessagesDispatch c w end in
      dispatchMessage c m (push (FDispatchIncoming c (Nat.pred (Z.to_nat messagesToProcess))) w)
  | _, _ => w
  end.

Definition runTask (t : Task) (w : World) : World :=
  match t with
  | DispatchSyncMessagesFor c =>
      push (FDispatchMessagesFor c (m_messagesToDispatchWhileWaitingForSyncReply w) [])
        (w <| m_didScheduleDispatchMessagesWorkSet := m_didScheduleDispatchMessagesWorkSet w ∖ {[ c ]} |>
           <| m_messagesToDispatchWhileWaitingForSyncReply := [] |>)
  | DispatchEnqueued c =>
      if isIncomingMessagesThrottlingEnabled (connections w c) then dispatchIncomingMessages c w
      else dispatchOneIncomingMessage c w
  | DispatchThrottled c => dispatchIncomingMessages c w
  | ReportInvalidMessage c name => if m_isValid (connections w c) then record (InvalidMessage c name) w else w
  | ReportDidClose c =>
      if m_isValid (connections w c) then
        clearAsyncReplyHandlers c (record (DidClose c) (onConnection c (fun conn => conn <| m_isValid := false |>) w))
      else w
  end.

(** ** Waiting *)

(** [waitForMessage] up to its loop. *)
Definition waitForMessage (c : nat) (name : MessageName) (destination : Z) (interrupt dispatchSync : bool) (w : World) : World :=
  let conn := connections w c in
  match m_waitingForMessage conn with
  | Some _ => record (WaitReturned c None) w
  | None =>
      if negb (m_shouldWaitForMessages conn) then record (WaitReturned c None) w
      else
        match takeMatching name destination (m_incomingMessages conn) with
        | Some (m, rest) =>
            record (WaitReturned c (Some m)) (record (Handled c m ToWaiter)
              (onConnection c (fun conn => conn <| m_incomingMessages := rest |>) w))
        | None =>
            if hasIncomingSyncMessage conn && interrupt then record (WaitReturned c None) w
            else push (FWaitMessageHead c)
                   (setWaiting c (Some (mkWaiting name destination interrupt dispatchSync false None false false)) w)
        end
  end.

(** Leaving the loop of [waitForMessage] without a message: the state on the stack of
    the waiting function goes, with whatever it holds. *)
Definition abandonWait (c : nat) (w : World) : World :=
  let lost := match m_waitingForMessage (connections w c) with Some st => waitDecoder st | None => None end in
  let w := setWaiting c None (pop w) in
  let w := match lost with Some m => record (Handled c m LostByWaiter) w | None => w end in
  record (WaitReturned c None) w.

(** The end of [sendSyncMessage], after [waitForSyncReply]. *)
Definition finishSendSync (c : nat) (id : Z) (reply : option Message) (w : World) : World :=
  let w := onConnection c (fun conn => conn <| m_inSendSyncCount := wrap 32 (m_inSendSyncCount conn - 1) |>
                                            <| m_pendingSyncReplies := tail (m_pendingSyncReplies conn) |>) (pop w) in
  let w := match reply with Some _ => w | None => didFailToSendSyncMessage c w end in
  record (SyncReturned c id reply) w.

(** ** The machine *)

(** One step of main-thread code that is neither the client's nor blocked. *)
Definition continue (w : World) : option World :=
  match stack w with
  | FDispatchMessages [] :: _ => Some (pop w)
  | FDispatchMessages ((c, m) :: rest) :: below => Some (dispatchMessage c m (w <| stack := FDispatchMessages rest :: below |>))
  | FDispatchMessagesFor c [] putBack :: _ =>
      Some (pop w <| m_messagesToDispatchWhileWaitingForSyncReply := putBack ++ m_messagesToDispatchWhileWaitingForSyncReply w |>)
  | FDispatchMessagesFor c ((c', m) :: rest) putBack :: below =>
      Some (if bool_decide (c = c')
            then dispatchMessage c m (w <| stack := FDispatchMessagesFor c rest putBack :: below |>)
            else w <| stack := FDispatchMessagesFor c rest (putBack ++ [(c', m)]) :: below |>)
  | FDispatchIncoming c 0 :: _ => Some (pop w)
  | FDispatchIncoming c (S remaining) :: below =>
      Some (match m_incomingMessages (connections w c) with
            | [] => pop w
            | m :: rest =>
                dispatchMessage c m (onConnection c (fun conn => conn <| m_incomingMessages := rest |>)
                  (w <| stack := FDispatchIncoming c remaining :: below |>))
            end)
  | FDispatch c m marked old valid (AfterClient reply) :: _ => Some (finishDispatch c m marked old valid reply w)
  | FWaitReplyHead c id :: below => Some (dispatchMessages (w <| stack := FWaitReplyCheck c id :: below |>))
  | FWaitReplyCheck c id :: below =>
      Some (match m_pendingSyncReplies (connections w c) with
            | [] => record Crashed (w <| exited := true |>)
            | p :: _ =>
                if didReceiveReply p || negb (m_shouldWaitForSyncReplies (connections w c)) then finishSendSync c id (replyDecoder p) w
                else if negb (m_isValid (connections w c)) then finishSendSync c id None w
                else w <| stack := FWaitReplyBlocked c id :: below |>
            end)
  | FWaitMessageHead c :: below => Some (dispatchMessages (w <| stack := FWaitMessageCheck c :: below |>))
  | FWaitMessageCheck c :: below =>
      Some (match m_waitingForMessage (connections w c) with
            | None => record Crashed (w <| exited := true |>)
            | Some st =>
                match waitDecoder st with
                | Some m => record (WaitReturned c (Some m)) (record (Handled c m ToWaiter) (setWaiting c None (pop w)))
                | None => setWaiting c (Some (st <| conditionBlocked := true |> <| conditionNotified := false |>))
                            (w <| stack := FWaitMessageBlocked c :: below |>)
                end
            end)
  | _ => None
  end.

(** A blocked main thread is woken by the semaphore or the condition. *)
Definition wake (w : World) : option World :=
  match stack w with
  | FWaitReplyBlocked c id :: below =>
      if m_waitForSyncReplySemaphore w
      then Some (w <| m_waitForSyncReplySemaphore := false |> <| stack := FWaitReplyHead c id :: below |>) else None
  | FWaitMessageBlocked c :: below =>
      match m_waitingForMessage (connections w c) with
      | Some st =>
          if conditionNotified st then
            Some (if messageWaitingInterrupted st then abandonWait c w
                  else setWaiting c (Some (st <| conditionBlocked := false |> <| conditionNotified := false |>))
                         (w <| stack := FWaitMessageHead c :: below |>))
          else None
      | None => None
      end
  | _ => None
  end.

(** A blocked main thread reaches its deadline. *)
Definition timeout (w : World) : option World :=
  match stack w with
  | FWaitReplyBlocked c id :: _ => Some (finishSendSync c id None w)
  | FWaitMessageBlocked c :: _ => Some (abandonWait c w)
  | _ => None
  end.

Inductive Setting :=
| AddWorkQueueMessageReceiver (name destination : Z) | RemoveWorkQueueMessageReceiver (name destination : Z)
| AddThreadMessageReceiver (name destination : Z) | RemoveThreadMessageReceiver (name destination : Z)
| InstallIncomingSyncMessageCallback | UninstallIncomingSyncMessageCallback (id : Z)
| EnableIncomingMessagesThrottling | AllowFullySynchronousMode | AddAsyncReplyHandler (id : Z)
| SetOnlySendMarkedWhenProcessingMarked (b : bool) | SetShouldExitOnSyncMessageSendFailure (b : bool)
| Invalidate | MarkCurrentlyDispatchedMessageAsInvalid.

Definition configure (s : Setting) (conn : Connection) : Connection :=
  match s with
  | AddWorkQueueMessageReceiver n d => addWorkQueueMessageReceiver n d conn
  | RemoveWorkQueueMessageReceiver n d => removeWorkQueueMessageReceiver n d conn
  | AddThreadMessageReceiver n d => addThreadMessageReceiver n d conn
  | RemoveThreadMessageReceiver n d => removeThreadMessageReceiver n d conn
  | InstallIncomingSyncMessageCallback => snd (installIncomingSyncMessageCallback conn)
  | UninstallIncomingSyncMessageCallback id => uninstallIncomingSyncMessageCallback id conn
  | EnableIncomingMessagesThrottling => enableIncomingMessagesThrottling conn
  | AllowFullySynchronousMode => conn <| m_fullySynchronousModeIsAllowed := true |>
  | AddAsyncReplyHandler id => addAsyncReplyHandler id conn
  | SetOnlySendMarkedWhenProcessingMarked b => conn <| m_onlySendMarkedWhenProcessingMarked := b |>
  | SetShouldExitOnSyncMessageSendFailure b => conn <| m_shouldExitOnSyncMessageSendFailure := b |>
  | Invalidate => conn <| m_isValid := false |>
  | MarkCurrentlyDispatchedMessageAsInvalid => conn <| m_didReceiveInvalidMessage := true |>
  end.

Inductive Action :=
(* the connection's work queue *)
| Receive (c : nat) (m : Message) | Close (c : nat) | Transmit (c : nat) (can : bool) (sendOutgoingMessage : Message -> bool)
(* the main run loop *)
| RunTask | FireTimer (c : nat)
(* main-thread code of the connection *)
| Continue | Wake | Timeout
(* client code on the main thread *)
| ClientReturn (decoderValid keepsReply : bool)
| ClientSend (c : nat) (m : Message) (options : SendOptions)
| ClientSendSync (c : nat) (m : Message) (options : SendSyncOptions)
| ClientWaitForMessage (c : nat) (name : MessageName) (destination : Z) (interrupt dispatchSync : bool)
| ClientConfigure (c : nat) (s : Setting)
| ClientUnboundedScope (enter : bool)
| ClientNestRunLoop | ClientQuitRunLoop.

Definition inRunLoop (w : World) : bool := match stack w with [] | FRunLoop :: _ => true | _ => false end.
Definition clientRunning (w : World) : bool :=
  match stack w with [] | FRunLoop :: _ | FDispatch _ _ _ _ _ (InClient _) :: _ => true | _ => false end.

Definition when (b : bool) (w : World) : option World := if b then Some w else None.

(** The actions enabled in a world, and their effect. *)
Definition perform (a : Action) (w : World) : option World :=
  match a with
  | Receive c m => Some (processIncomingMessage c m w)
  | Close c => Some (connectionDidClose c w)
  | Transmit c can f => Some (sendOutgoingMessages c can f w)
  | RunTask =>
      match mainQueue w with
      | t :: rest => when (inRunLoop w) (runTask t (w <| mainQueue := rest |>))
      | [] => None
      end
  | FireTimer c =>
      match m_incomingMessagesThrottler (connections w c) with
      | Some t =>
          when (inRunLoop w && m_dispatchMessagesTimerActive t)
            (dispatchIncomingMessages c (onConnection c (fun conn =>
               conn <| m_incomingMessagesThrottler := Some (mkThrottler (m_throttlingLevel t) false) |>) w))
      | None => None
      end
  | Continue => continue w
  | Wake => wake w
  | Timeout => timeout w
  | ClientReturn valid keeps =>
      match stack w with
      | FDispatch c m marked old _ (InClient reply) :: below =>
          Some (w <| stack := FDispatch c m marked old valid (AfterClient (if keeps then None else reply)) :: below |>)
      | _ => None
      end
  | ClientSend c m options => when (clientRunning w) (sendMessage c m options w)
  | ClientSendSync c m options =>
      let '(id, encoder, w') := createSyncMessageEncoder c m w in when (clientRunning w) (sendSyncMessage c id encoder options w')
  | ClientWaitForMessage c name destination interrupt dispatchSync =>
      when (clientRunning w) (waitForMessage c name destination interrupt dispatchSync w)
  | ClientConfigure c s => when (clientRunning w) (onConnection c (configure s) w)
  | ClientUnboundedScope enter =>
      when (clientRunning w) (w <| unboundedSynchronousIPCCount := unboundedSynchronousIPCCount w + (if enter then 1 else -1) |>)
  | ClientNestRunLoop => when (clientRunning w) (push FRunLoop w)
  | ClientQuitRunLoop => match stack w with FRunLoop :: _ => Some (pop w) | _ => None end
  end.

Definition step (w w' : World) : Prop := exited w = false /\ exists a, perform a w = Some w'.

Fixpoint run (actions : list Action) (w : World) : option World :=
  match actions with
  | [] => Some w
  | a :: rest => if exited w then None else match perform a w with Some w' => run rest w' | None => None end
  end.

(** ** Reasoning rules

    The handlers with many branches are verified through the few updates they are made
    of: [P] holds of the world with the message in hand, [Q] once it has been placed. *)

Lemma connections_onConnection c f w c' :
  connections (onConnection c f w) c' = if decide (c' = c) then f (connections w c) else connections w c'.
Proof. done. Qed.

Lemma syncState_append c m w w' : syncStateProcessIncomingMessage c m w = Some w' -> w' = appendForSyncWaiter c m w.
Proof. unfold syncStateProcessIncomingMessage. intros. repeat case_match; by simplify_eq. Qed.

Lemma waiting_append c m w c' :
  m_waitingForMessage (connections (appendForSyncWaiter c m w) c') = m_waitingForMessage (connections w c').
Proof.
  unfold appendForSyncWaiter. cbv zeta. destruct (shouldMaintainOrderingWithAsyncMessages m), (bool_decide _); simpl; try done;
    unfold upd; by destruct (decide _) as [->|].
Qed.

(** [P] holds after an action, if the action is enabled. *)
Definition after (P : World -> Prop) (o : option World) : Prop := match o with Some w => P w | None => True end.

Lemma after_step P w w' : (forall a, after P (perform a w)) -> step w w' -> P w'.
Proof. intros H [_ [a E]]. specialize (H a). by rewrite E in H. Qed.

Section rules.
Context (c : nat) (m : Message) (P Q : World -> Prop).

(** Placing a message for the main thread. *)
Record placing_rules : Prop := {
  place_enqueue : forall w, P w -> Q (enqueueIncomingMessage c m w);
  place_append : forall w, P w -> Q (appendForSyncWaiter c m w);
  place_waiter : forall w st, P w -> m_waitingForMessage (connections w c) = Some st -> waitDecoder st = None ->
    Q (setWaiting c (Some (notify (st <| waitDecoder := Some m |>))) w);
  flag_before : forall w st st', P w -> m_waitingForMessage (connections w c) = Some st -> waitDecoder st' = waitDecoder st ->
    P (setWaiting c (Some st') w);
  flag_after : forall w st st', Q w -> m_waitingForMessage (connections w c) = Some st -> waitDecoder st' = waitDecoder st ->
    Q (setWaiting c (Some st') w)
}.

Lemma deliver_rule w : placing_rules -> P w -> Q (deliver c m w).
Proof.
  intros [Henq Happ Hwait Hflag Hflag'] Hw.
  assert (Q (deliverToMainThread c m w)) as Hmain.
  { unfold deliverToMainThread. destruct (syncStateProcessIncomingMessage c m w) as [w'|] eqn:E; [|by apply Henq].
    rewrite (syncState_append _ _ _ _ E). by apply Happ. }
  unfold deliver. destruct (m_waitingForMessage (connections w c)) as [st|] eqn:Ew; [|done].
  destruct (bool_decide (waitDecoder st = None)) eqn:Ed; [|done]. apply bool_decide_eq_true in Ed.
  destruct (bool_decide _ && _); [by apply Hwait|].
  match goal with |- context [match ?x with Some _ => _ | None => _ end] => destruct x as [w'|] eqn:E end.
  - destruct (dispatchIncomingSyncMessages st && isSyncMessage m); [|done]. rewrite (syncState_append _ _ _ _ E).
    apply (Hflag' _ st); [by apply Happ | by rewrite waiting_append | done].
  - clear E. destruct (interruptIfSyncMessageArrives st && isSyncMessage m); [|done].
    by apply Henq, (Hflag _ st).
Qed.

Lemma processIncomingMessage_rule w :
  placing_rules ->
  P (record (Received c m) w) ->
  (forall w, P w -> messageName m = SyncMessageReply -> Q (processIncomingSyncReply c m w)) ->
  (forall w, P w -> P (post (ReportInvalidMessage c (messageName m)) w)) ->
  (forall w f, P w -> Q (record (Handled c m f) w)) ->
  (forall w, P w -> P (callIncomingSyncMessageCallbacks c m w)) ->
  Q (processIncomingMessage c m w).
Proof.
  intros Hp Hw Hreply Hpost Hhandled Hcall. unfold processIncomingMessage. cbv zeta.
  destruct (bool_decide (messageName m = SyncMessageReply)) eqn:E; [apply bool_decide_eq_true in E; by apply Hreply|].
  destruct (negb _); [by apply Hhandled, Hpost|].
  destruct (receiverFor _ _); [by apply Hhandled|]. destruct (receiverFor _ _); [by apply Hhandled|].
  by apply deliver_rule, Hcall.
Qed.

(** The counters of a message that starts to be dispatched. *)
Definition enterDispatch (marked : bool) (w : World) : World :=
  onConnection c (fun conn =>
      conn <| m_inFullySynchronousCount := wrap 32 (m_inFullySynchronousCount conn + (if shouldUseFullySynchronousModeForTesting m then 1 else 0)) |>
           <| m_inDispatchMessageCount := wrap 32 (m_inDispatchMessageCount conn + 1) |>
           <| m_inDispatchMarkedCount := wrap 32 (m_inDispatchMarkedCount conn + (if marked then 1 else 0)) |>
           <| m_didReceiveInvalidMessage := false |>) w.

(** [P] is indexed by the parameters of the activation that the dispatch pushes. *)
Lemma dispatchMessage_rule (R : bool -> bool -> World -> Prop) w :
  P w ->
  (forall f, P w -> Q (record (Handled c m f) w)) ->
  (P w -> Q (record (Handled c m RejectedFullySynchronous) (record (InvalidMessage c (messageName m)) w))) ->
  (forall marked old, P w -> m_isValid (connections w c) = true -> old = m_didReceiveInvalidMessage (connections w c) ->
    R marked old (enterDispatch marked w)) ->
  (forall marked old w f valid phase, R marked old w -> Q (record (Handled c m f) (push (FDispatch c m marked old valid phase) w))) ->
  (forall marked old w conn', R marked old w -> forall id, firstUInt64 m = Some id -> conn' = snd (takeAsyncReplyHandler id (connections w c)) ->
    R marked old (onConnection c (fun _ => conn') w)) ->
  (forall w, Q w -> Q (record Crashed (w <| exited := true |>))) ->
  (forall w m', Q w -> Q (processIncomingMessage c m' w)) ->
  (forall w, Q w -> Q (dispatchMessages w)) ->
  Q (dispatchMessage c m w).
Proof.
  intros Hw Hhandled Hrej Henter Hpush Htake Hcrash Hproc Hdisp. unfold dispatchMessage. cbv zeta.
  destruct (m_isValid (connections w c)) eqn:Ev; cbn [negb]; [|by apply Hhandled].
  destruct (receiverFor _ _); [by apply Hhandled|]. destruct (_ && _); [by apply Hrej|].
  fold (enterDispatch (isDispatchingWhileWaiting m w) w).
  pose proof (Henter (isDispatchingWhileWaiting m w) _ Hw eq_refl eq_refl) as H1. revert H1.
  generalize (isDispatchingWhileWaiting m w), (m_didReceiveInvalidMessage (connections w c)). intros marked old.
  generalize (enterDispatch marked w). intros w1 H1. destruct (isSyncMessage m).
  - unfold dispatchSyncMessage. destruct (firstUInt64 m) as [[|id|id]|]; try (by apply Hpush);
      (destruct (bool_decide _); [|by apply Hpush]); (destruct (negb _); [by apply Hpush|]);
      (destruct (unwrapForTesting m) as [u|] eqn:Eu; [by apply Hdisp, Hproc, Hpush | by apply Hcrash, Hpush]).
  - unfold dispatchAsyncMessage. destruct (bool_decide _); [|by apply Hpush].
    destruct (firstUInt64 m) as [id|] eqn:Ei; [|by apply Hpush].
    destruct (takeAsyncReplyHandler id (connections w1 c)) as [found conn'] eqn:Et.
    assert (R marked old (onConnection c (fun _ => conn') w1)) by (apply (Htake _ _ _ _ H1 id eq_refl); by rewrite Et).
    destruct found; by apply Hpush.
Qed.

End rules.

(** ** No queued message is forgotten *)

(** A queued message has a task or a timer that will dispatch it: one task per message
    without throttling, some task or the timer with it. *)
Definition scheduled (conn : Connection) (c : nat) (queue : list Task) : Prop :=
  match m_incomingMessagesThrottler conn with
  | None => (length (m_incomingMessages conn) <= length (List.filter (fun t => bool_decide (t = DispatchEnqueued c)) queue))%nat
  | Some t => m_incomingMessages conn = [] \/ DispatchEnqueued c ∈ queue \/ DispatchThrottled c ∈ queue \/ m_dispatchMessagesTimerActive t = true
  end.
Definition allScheduled (w : World) : Prop := forall c, scheduled (connections w c) c (mainQueue w).

(** Shorter queues and longer task lists keep it. *)
Lemma scheduled_mono conn conn' c queue queue' :
  m_incomingMessagesThrottler conn' = m_incomingMessagesThrottler conn ->
  (length (m_incomingMessages conn') <= length (m_incomingMessages conn))%nat ->
  scheduled conn c queue -> scheduled conn' c (queue ++ queue').
Proof.
  unfold scheduled. intros -> Hl. destruct (m_incomingMessagesThrottler conn).
  - intros [E|[|[|]]]; [left; rewrite E in Hl; simpl in Hl; by destruct (m_incomingMessages conn'); simpl in *; [|lia]|..];
      rewrite ?elem_of_app; auto.
  - rewrite List.filter_app, length_app. lia.
Qed.

(** What [scheduled] does not depend on. *)
Definition calm (w w' : World) : Prop :=
  (exists ts, mainQueue w' = mainQueue w ++ ts) /\
  forall c, m_incomingMessagesThrottler (connections w' c) = m_incomingMessagesThrottler (connections w c) /\
    (length (m_incomingMessages (connections w' c)) <= length (m_incomingMessages (connections w c)))%nat.

Lemma calm_scheduled w w' : calm w w' -> allScheduled w -> allScheduled w'.
Proof. intros [[ts E] Hc] Hw c. rewrite E. destruct (Hc c). by eapply scheduled_mono. Qed.

Lemma calm_refl w : calm w w.
Proof. split; [exists []; by rewrite app_nil_r|]. done. Qed.

Lemma calm_trans w w' w'' : calm w w' -> calm w' w'' -> calm w w''.
Proof.
  intros [[ts E] H] [[ts' E'] H']. split; [exists (ts ++ ts'); by rewrite E', E, app_assoc|].
  intros c. destruct (H c) as [Et ?], (H' c) as [Et' ?]. split; [congruence|lia].
Qed.

Lemma calm_same w w' w'' : connections w'' = connections w' -> mainQueue w'' = mainQueue w' -> calm w w' -> calm w w''.
Proof.
  intros E E' H. eapply calm_trans; [exact H|]. split; [exists []; by rewrite app_nil_r|]. by rewrite E.
Qed.

Lemma calm_post w t w' : calm w w' -> calm w (post t w').
Proof. intros. eapply calm_trans; [done|]. split; [by exists [t]|]. done. Qed.

Lemma calm_onConnection w c f w' :
  m_incomingMessagesThrottler (f (connections w' c)) = m_incomingMessagesThrottler (connections w' c) ->
  (length (m_incomingMessages (f (connections w' c))) <= length (m_incomingMessages (connections w' c)))%nat ->
  calm w w' -> calm w (onConnection c f w').
Proof.
  intros. eapply calm_trans; [done|]. split; [exists []; by rewrite app_nil_r|]. intros c'.
  rewrite connections_onConnection. destruct (decide (c' = c)) as [->|]; done.
Qed.

(** Peel the primitive updates off a goal [calm w (...)]. *)
Ltac calm_step :=
  first
  [ assumption | apply calm_refl | apply calm_post
  | apply calm_onConnection; [reflexivity | first [reflexivity | simpl; lia] |]
  | match goal with |- calm _ (match ?x with _ => _ end) => destruct x eqn:? end
  | match goal with |- calm ?w ?w'' =>
      match w'' with
      | record _ ?w' => apply (calm_same w w'); [reflexivity | reflexivity |]
      | push _ ?w' => apply (calm_same w w'); [reflexivity | reflexivity |]
      | pop ?w' => apply (calm_same w w'); [reflexivity | reflexivity |]
      | wakeUpClientRunLoop ?w' => apply (calm_same w w'); [reflexivity | reflexivity |]
      | update _ _ ?w' => apply (calm_same w w'); [reflexivity | reflexivity |]
      end
    end ].
Ltac calm := cbv zeta; repeat (calm_step; cbv zeta).

Lemma calm_appendOutgoing w0 c m o w : calm w0 w -> calm w0 (appendOutgoing c m o w).
Proof. intros. unfold appendOutgoing. calm. Qed.
Lemma calm_didFail w0 c w : calm w0 w -> calm w0 (didFailToSendSyncMessage c w).
Proof. intros. unfold didFailToSendSyncMessage. calm. Qed.
Lemma calm_sendSyncMessage w0 c id m o w : calm w0 w -> calm w0 (sendSyncMessage c id m o w).
Proof.
  intros. unfold sendSyncMessage. calm; by apply calm_didFail.
Qed.
Lemma calm_sendMessage w0 c m o w : calm w0 w -> calm w0 (sendMessage c m o w).
Proof.
  intros. unfold sendMessage, createSyncMessageEncoder. calm; first [apply calm_sendSyncMessage | apply calm_appendOutgoing]; calm.
Qed.
Lemma calm_appendForSyncWaiter w0 c m w : calm w0 w -> calm w0 (appendForSyncWaiter c m w).
Proof. intros. unfold appendForSyncWaiter. calm. Qed.
Lemma calm_syncReply w0 c m w : calm w0 w -> calm w0 (processIncomingSyncReply c m w).
Proof. intros. unfold processIncomingSyncReply. calm. Qed.
Lemma calm_close w0 c w : calm w0 w -> calm w0 (connectionDidClose c w).
Proof. intros. unfold connectionDidClose, setWaiting. calm. Qed.
Lemma calm_finishDispatch w0 c m k o v r w : calm w0 w -> calm w0 (finishDispatch c m k o v r w).
Proof. intros. unfold finishDispatch, sendSyncReply. cbv zeta. calm; apply calm_sendMessage; calm. Qed.
Lemma calm_finishSendSync w0 c id r w : calm w0 w -> calm w0 (finishSendSync c id r w).
Proof. intros. unfold finishSendSync. calm. apply calm_didFail. calm. Qed.
Lemma calm_abandonWait w0 c w : calm w0 w -> calm w0 (abandonWait c w).
Proof. intros. unfold abandonWait, setWaiting. calm. Qed.

(** Every connection but [c]. *)
Definition othersScheduled (c : nat) (w : World) : Prop :=
  forall c', c' <> c -> scheduled (connections w c') c' (mainQueue w).

Lemma scheduled_enqueue c m w : allScheduled w -> allScheduled (enqueueIncomingMessage c m w).
Proof.
  intros Hw c'. specialize (Hw c'). unfold enqueueIncomingMessage, isIncomingMessagesThrottlingEnabled.
  rewrite connections_onConnection, decide_True by done. cbn [m_incomingMessagesThrottler m_incomingMessages update].
  destruct (decide (c' = c)) as [->|Hne].
  - unfold scheduled in *.
    destruct (m_incomingMessagesThrottler (connections w c)) as [t|] eqn:Et.
    + destruct (bool_decide _) eqn:El; simpl.
      * rewrite upd_same. simpl. rewrite Et. right; left. apply elem_of_app. right. by apply list_elem_of_singleton.
      * rewrite upd_same. simpl. rewrite Et. apply bool_decide_eq_false in El. right.
        destruct Hw as [E|Hw]; [|exact Hw]. rewrite E in El. by contradiction El.
    + simpl. rewrite upd_same. simpl. rewrite Et, List.filter_app, !length_app. simpl.
      rewrite bool_decide_true by done. simpl. lia.
  - assert (scheduled (connections (onConnection c (fun conn => conn <| m_incomingMessages := m_incomingMessages conn ++ [m] |>) w) c') c' (mainQueue w)) as H.
    { by rewrite connections_onConnection, decide_False by done. }
    case_match; [exact H|]. by apply (scheduled_mono _ _ c' (mainQueue w) [DispatchEnqueued c] eq_refl (le_n _)).
Qed.

Lemma scheduled_processIncomingMessage c m w : allScheduled w -> allScheduled (processIncomingMessage c m w).
Proof.
  intros Hw. apply (processIncomingMessage_rule c m allScheduled).
  - split; intros; try (by apply scheduled_enqueue); (eapply calm_scheduled; [|eassumption]); unfold setWaiting; calm; apply calm_appendForSyncWaiter; calm.
  - eapply calm_scheduled; [|eassumption]. calm.
  - intros. eapply calm_scheduled; [|eassumption]. apply calm_syncReply, calm_refl.
  - intros. eapply calm_scheduled; [|eassumption]. calm.
  - intros. eapply calm_scheduled; [|eassumption]. calm.
  - intros. eapply calm_scheduled; [|eassumption]. unfold callIncomingSyncMessageCallbacks. calm.
Qed.

Lemma scheduled_dispatchMessage c m w : allScheduled w -> allScheduled (dispatchMessage c m w).
Proof.
  intros Hw. apply (dispatchMessage_rule c m allScheduled allScheduled (fun _ _ => allScheduled)); intros.
  8: by apply scheduled_processIncomingMessage.
  6: { eapply calm_scheduled; [|eassumption]. subst. apply calm_onConnection; [..|apply calm_refl];
       unfold takeAsyncReplyHandler; by repeat case_match. }
  all: eapply calm_scheduled; [|eassumption]; unfold enterDispatch, dispatchMessages; calm.
Qed.

(** Taking the first task away affects only the connection it was for. *)
Lemma scheduled_cons_inv conn c t rest :
  t <> DispatchEnqueued c -> t <> DispatchThrottled c -> scheduled conn c (t :: rest) -> scheduled conn c rest.
Proof.
  intros He Ht. unfold scheduled. destruct (m_incomingMessagesThrottler conn).
  - rewrite !elem_of_cons. intuition congruence.
  - simpl. by rewrite bool_decide_false.
Qed.

Lemma othersScheduled_pop t rest c w :
  (forall c', c' <> c -> t <> DispatchEnqueued c' /\ t <> DispatchThrottled c') ->
  mainQueue w = t :: rest -> allScheduled w -> othersScheduled c (w <| mainQueue := rest |>).
Proof.
  intros Ht E Hw c' Hc'. specialize (Hw c'). rewrite E in Hw. destruct (Ht c' Hc'). by apply scheduled_cons_inv in Hw.
Qed.

(** Whatever was pending for [c] before, [dispatchIncomingMessages] reschedules itself. *)
Lemma scheduled_dispatchIncomingMessages c w :
  othersScheduled c w -> m_incomingMessagesThrottler (connections w c) <> None -> allScheduled (dispatchIncomingMessages c w).
Proof.
  intros Hothers Hthr. unfold dispatchIncomingMessages.
  destruct (m_incomingMessages (connections w c)) as [|m rest] eqn:Ei.
  { intros c'. destruct (decide (c' = c)) as [->|]; [|by apply Hothers]. unfold scheduled.
    destruct (m_incomingMessagesThrottler (connections w c)); [by left | done]. }
  destruct (m_incomingMessagesThrottler (connections w c)) as [t|] eqn:Et; [|done].
  destruct (numberOfMessagesToProcess _ _) as [n level]. apply scheduled_dispatchMessage.
  match goal with |- allScheduled (push _ ?w1) => apply (calm_scheduled w1); [calm|] end.
  destruct rest as [|m' rest].
  - intros c'. rewrite connections_onConnection. destruct (decide (c' = c)) as [->|]; [by left | by apply Hothers].
  - unfold scheduleMessagesDispatch. rewrite connections_onConnection, decide_True by done. cbn [m_incomingMessagesThrottler update].
    destruct (negb _); intros c'.
    + rewrite connections_onConnection. destruct (decide (c' = c)) as [->|Hne]; [by right; right; right|].
      rewrite connections_onConnection, decide_False by done. by apply Hothers.
    + unfold post. simpl. unfold upd. destruct (decide (c' = c)) as [->|Hne].
      * right; right; left. apply elem_of_app. right. by apply list_elem_of_singleton.
      * apply (scheduled_mono _ _ c' (mainQueue w) _ eq_refl (le_n _)). by apply Hothers.
Qed.

Lemma scheduled_runTask t rest w :
  mainQueue w = t :: rest -> allScheduled w -> allScheduled (runTask t (w <| mainQueue := rest |>)).
Proof.
  intros E Hw.
  assert ((forall c, t <> DispatchEnqueued c /\ t <> DispatchThrottled c) -> allScheduled (w <| mainQueue := rest |>)) as Hnone.
  { intros Ht c. specialize (Hw c). rewrite E in Hw. destruct (Ht c). by apply scheduled_cons_inv in Hw. }
  destruct t as [c|c|c|c name|c]; cbn [runTask].
  - apply (calm_scheduled (w <| mainQueue := rest |>)); [calm | by apply Hnone].
  - assert (othersScheduled c (w <| mainQueue := rest |>)) as Ho
      by (apply (othersScheduled_pop (DispatchEnqueued c)); [split; congruence | done | done]).
    unfold isIncomingMessagesThrottlingEnabled. cbn [connections update].
    destruct (m_incomingMessagesThrottler (connections w c)) as [t|] eqn:Et.
    + apply scheduled_dispatchIncomingMessages; [done|]. simpl. by rewrite Et.
    + specialize (Hw c). unfold scheduled in Hw. rewrite Et, E in Hw. simpl in Hw. rewrite bool_decide_true in Hw by done. simpl in Hw.
      unfold dispatchOneIncomingMessage. cbn [connections update]. destruct (m_incomingMessages (connections w c)) as [|m ms] eqn:Ei.
      * intros c'. destruct (decide (c' = c)) as [->|]; [|by apply Ho]. unfold scheduled. simpl. rewrite Et, Ei. simpl. lia.
      * apply scheduled_dispatchMessage. intros c'. rewrite connections_onConnection.
        destruct (decide (c' = c)) as [->|]; [|by apply Ho]. unfold scheduled. simpl. rewrite Et. simpl in Hw. lia.
  - destruct (m_incomingMessagesThrottler (connections w c)) as [t|] eqn:Et.
    + apply scheduled_dispatchIncomingMessages; [|simpl; by rewrite Et].
      apply (othersScheduled_pop (DispatchThrottled c)); [split; congruence | done | done].
    + unfold dispatchIncomingMessages. simpl. rewrite Et. intros c'. specialize (Hw c'). rewrite E in Hw.
      assert (scheduled (connections w c') c' rest).
      { destruct (decide (c' = c)) as [->|]; [|by eapply scheduled_cons_inv; [| |exact Hw]; congruence].
        unfold scheduled in *. rewrite Et in *. exact Hw. }
      by destruct (m_incomingMessages (connections w c)).
  - apply (calm_scheduled (w <| mainQueue := rest |>)); [calm | by apply Hnone].
  - apply (calm_scheduled (w <| mainQueue := rest |>)); [unfold clearAsyncReplyHandlers; calm | by apply Hnone].
Qed.

Lemma scheduled_enableThrottling c w : allScheduled w -> allScheduled (onConnection c enableIncomingMessagesThrottling w).
Proof.
  intros Hw c'. rewrite connections_onConnection. destruct (decide (c' = c)) as [->|]; [|by apply Hw]. simpl. specialize (Hw c).
  unfold enableIncomingMessagesThrottling, isIncomingMessagesThrottlingEnabled, scheduled in *.
  destruct (m_incomingMessagesThrottler (connections w c)) as [t|] eqn:Et; [by rewrite Et|]. simpl.
  destruct (m_incomingMessages (connections w c)); [by left|]. right; left.
  destruct (List.filter _ _) as [|t ts] eqn:Ef; simpl in Hw; [lia|].
  assert (In t (List.filter (fun t => bool_decide (t = DispatchEnqueued c)) (mainQueue w))) as Hin by (rewrite Ef; by left).
  apply List.filter_In in Hin as [Hin ->%bool_decide_eq_true]. by apply list_elem_of_In.
Qed.

Lemma takeMatching_length name d q m rest : takeMatching name d q = Some (m, rest) -> length q = S (length rest).
Proof.
  revert m rest. induction q as [|m0 q IH]; intros m rest; simpl; [done|]. destruct (_ && _); [congruence|].
  destruct (takeMatching name d q) as [[found rest']|] eqn:E; [|done]. intros [= <- <-]. simpl. by rewrite (IH found rest').
Qed.

Lemma calm_configure c st w : st <> EnableIncomingMessagesThrottling -> calm w (onConnection c (configure st) w).
Proof. intros. apply calm_onConnection; [by destruct st..|apply calm_refl]. Qed.

Lemma scheduled_continue w : allScheduled w -> after allScheduled (continue w).
Proof.
  intros Hw. unfold continue. destruct (stack w) as [|f below]; [done|].
  destruct f as [c m k o v [r|r]|[|[c m] rest]|c [|[c' m] rest] pb|c [|n]|c id|c id|c id|c|c|c|]; cbn [after]; try done;
    try (eapply calm_scheduled; [|eassumption]; unfold dispatchMessages; calm; fail).
  - eapply calm_scheduled; [apply calm_finishDispatch, calm_refl | done].
  - apply scheduled_dispatchMessage. eapply calm_scheduled; [|eassumption]. calm.
  - destruct (bool_decide (c = c')); [apply scheduled_dispatchMessage|]; (eapply calm_scheduled; [|eassumption]; calm).
  - destruct (m_incomingMessages (connections w c)) as [|m rest] eqn:E; [eapply calm_scheduled; [|eassumption]; calm|].
    apply scheduled_dispatchMessage. eapply calm_scheduled; [|eassumption].
    apply calm_onConnection; [done| |calm]. cbn. rewrite E. simpl. lia.
  - destruct (m_pendingSyncReplies _) as [|p ps]; [eapply calm_scheduled; [|eassumption]; calm|].
    destruct (_ || _); [eapply calm_scheduled; [apply calm_finishSendSync, calm_refl | done]|].
    destruct (negb _); (eapply calm_scheduled; [|eassumption]); [apply calm_finishSendSync, calm_refl | calm].
Qed.

Lemma scheduled_waits a w : a = Wake \/ a = Timeout -> allScheduled w -> after allScheduled (perform a w).
Proof.
  intros Ha Hw. destruct Ha as [-> | ->]; simpl; unfold wake, timeout; destruct (stack w) as [|[] below]; cbn [after]; try done.
  - destruct (m_waitForSyncReplySemaphore w); [|done]. eapply calm_scheduled; [|eassumption]. calm.
  - destruct (m_waitingForMessage _) as [st|]; [|done]. destruct (conditionNotified st); [|done]. cbn [after].
    destruct (messageWaitingInterrupted st); (eapply calm_scheduled; [|eassumption]);
      [apply calm_abandonWait, calm_refl | unfold setWaiting; calm].
  - eapply calm_scheduled; [apply calm_finishSendSync, calm_refl | done].
  - eapply calm_scheduled; [apply calm_abandonWait, calm_refl | done].
Qed.

Lemma scheduled_perform a w : allScheduled w -> after allScheduled (perform a w).
Proof.
  intros Hw. destruct a as [c m|c|c can f| |c| | | |v k|c m o|c m o|c name d i ds|c st|e| |]; cbn [perform];
    try exact (scheduled_waits Wake w (or_introl eq_refl) Hw); try exact (scheduled_waits Timeout w (or_intror eq_refl) Hw).
  - by apply scheduled_processIncomingMessage.
  - eapply calm_scheduled; [apply calm_close, calm_refl | done].
  - eapply calm_scheduled; [|eassumption]. unfold sendOutgoingMessages. destruct can; [|calm]. destruct (sendLoop _ _). calm.
  - destruct (mainQueue w) as [|t rest] eqn:E; [done|]. unfold when. destruct (inRunLoop w); [|done]. by apply scheduled_runTask.
  - destruct (m_incomingMessagesThrottler _) as [t|]; [|done]. unfold when. destruct (_ && _); [|done].
    apply scheduled_dispatchIncomingMessages; [|by rewrite connections_onConnection, decide_True by done].
    intros c' Hc'. rewrite connections_onConnection, decide_False by done. apply Hw.
  - by apply scheduled_continue.
  - destruct (stack w) as [|[] below]; try exact I. destruct phase; [|exact I]. cbn [after]. eapply calm_scheduled; [|eassumption]. calm.
  - unfold when. destruct (clientRunning w); [|done]. eapply calm_scheduled; [apply calm_sendMessage, calm_refl | done].
  - unfold createSyncMessageEncoder, when. destruct (clientRunning w); [|done].
    eapply calm_scheduled; [apply calm_sendSyncMessage|]; [|exact Hw]. calm.
  - unfold when. destruct (clientRunning w); [|done]. cbn [after]. eapply calm_scheduled; [|eassumption]. unfold waitForMessage.
    destruct (m_waitingForMessage _); [calm|]. destruct (negb _); [calm|].
    destruct (takeMatching _ _ _) as [[m rest]|] eqn:E; [|unfold setWaiting; calm].
    apply takeMatching_length in E. cbv zeta. do 2 (eapply calm_same; [reflexivity | reflexivity|]).
    apply calm_onConnection; [done | cbn; lia | calm].
  - unfold when. destruct (clientRunning w); [|done]. cbn [after].
    destruct st; try (by eapply calm_scheduled; [apply calm_configure | exact Hw]). by apply scheduled_enableThrottling.
  - unfold when. destruct (clientRunning w); [|done]. eapply calm_scheduled; [|eassumption]. calm.
  - unfold when. destruct (clientRunning w); [|done]. eapply calm_scheduled; [|eassumption]. calm.
  - destruct (stack w) as [|[] below]; try exact I. eapply calm_scheduled; [|eassumption]. calm.
Qed.

Lemma run_reachable actions w w' : run actions w = Some w' -> rtc step w w'.
Proof.
  revert w. induction actions as [|a actions IH]; intros w; simpl; [intros [= ->]; apply rtc_refl|].
  destruct (exited w) eqn:E; [done|]. destruct (perform a w) as [w1|] eqn:Ep; [|done].
  intros H. eapply rtc_l; [|by apply IH]. split; [done|]. by exists a.
Qed.

(** C10: In every reachable state of the process, a connection with queued messages has
    a task in the main run loop, or an armed timer, that will dispatch them: whatever
    the interleaving of arrivals, sync messages that empty the queue, waits that take
    messages out of it, nested dispatches and throttling, no message is left behind. *)
Theorem queued_messages_scheduled w c :
  rtc step initialWorld w -> m_incomingMessages (connections w c) <> [] ->
  DispatchEnqueued c ∈ mainQueue w \/ DispatchThrottled c ∈ mainQueue w \/
  exists t, m_incomingMessagesThrottler (connections w c) = Some t /\ m_dispatchMessagesTimerActive t = true.
Proof.
  intros Hr Hq. assert (allScheduled w) as Hw.
  { eapply rtc_invariant; [|exact Hr|]; [intros ? ? ? ?; eapply after_step; [|done]; intros; by apply scheduled_perform|].
    intros c'. unfold scheduled. simpl. lia. }
  specialize (Hw c). unfold scheduled in Hw. destruct (m_incomingMessagesThrottler (connections w c)) as [t|].
  - destruct Hw as [|[|[|]]]; [done|auto|auto|]. right; right. by exists t.
  - left. destruct (m_incomingMessages (connections w c)); [done|]. simpl in Hw.
    destruct (List.filter _ _) as [|t ts] eqn:Ef; simpl in Hw; [lia|].
    assert (In t (List.filter (fun t => bool_decide (t = DispatchEnqueued c)) (mainQueue w))) as Hin by (rewrite Ef; by left).
    apply List.filter_In in Hin as [Hin ->%bool_decide_eq_true]. by apply list_elem_of_In.
Qed.

(** ** Activations, counters and pending replies agree *)

(** The sync requests of [c] that the main thread waits for, innermost first. *)
Definition waitsFor (c : nat) (f : Frame) : list Z :=
  match f with
  | FWaitReplyHead c' id | FWaitReplyCheck c' id | FWaitReplyBlocked c' id => if decide (c = c') then [id] else []
  | _ => []
  end.
Definition waitIds (c : nat) (frames : list Frame) : list Z := concat (map (waitsFor c) frames).

(** What an activation contributes to the counters of [c]. *)
Definition dispatches (c : nat) (f : Frame) : Z * Z * Z :=
  match f with
  | FDispatch c' m marked _ _ _ =>
      if decide (c = c') then (1, if marked then 1 else 0, if shouldUseFullySynchronousModeForTesting m then 1 else 0) else (0, 0, 0)
  | _ => (0, 0, 0)
  end.
Definition sumFrames (weight : Frame -> Z) (frames : list Frame) : Z := foldr (fun f n => weight f + n) 0 frames.
Definition dispatchCount c := sumFrames (fun f => fst (fst (dispatches c f))).
Definition markedCount c := sumFrames (fun f => snd (fst (dispatches c f))).
Definition fullySynchronousCount c := sumFrames (fun f => snd (dispatches c f)).
Definition messageWaits (c : nat) : list Frame -> Z :=
  sumFrames (fun f => match f with
    | FWaitMessageHead c' | FWaitMessageCheck c' | FWaitMessageBlocked c' => if decide (c = c') then 1 else 0
    | _ => 0
    end).

(** A pending reply has its decoder exactly when it was received, and it is the reply
    to its request. *)
Definition pendingOk (p : PendingSyncReply) : Prop :=
  match replyDecoder p with
  | Some m => didReceiveReply p = true /\ messageName m = SyncMessageReply /\ destinationID m = syncRequestID p
  | None => didReceiveReply p = false
  end.

(** Events that return a reply return the right one. *)
Definition eventOk (e : Event) : Prop :=
  match e with
  | SyncReturned _ id (Some m) => messageName m = SyncMessageReply /\ destinationID m = id
  | _ => True
  end.

Record agrees (c : nat) (conn : Connection) (frames : list Frame) : Prop := {
  agrees_pending : map syncRequestID (m_pendingSyncReplies conn) = waitIds c frames;
  agrees_replies : Forall pendingOk (m_pendingSyncReplies conn);
  agrees_sendSync : m_inSendSyncCount conn = wrap 32 (Z.of_nat (length (m_pendingSyncReplies conn)));
  agrees_dispatch : m_inDispatchMessageCount conn = wrap 32 (dispatchCount c frames);
  agrees_marked : m_inDispatchMarkedCount conn = wrap 32 (markedCount c frames);
  agrees_fully : m_inFullySynchronousCount conn = wrap 32 (fullySynchronousCount c frames);
  agrees_waiting : (match m_waitingForMessage conn with Some _ => 1 | None => 0 end) = messageWaits c frames
}.

Record balanced (w : World) : Prop := {
  balanced_connections : forall c, agrees c (connections w c) (stack w);
  balanced_log : Forall eventOk (log w)
}.

(** The fields [agrees] reads. *)
Definition core (conn : Connection) :=
  (m_pendingSyncReplies conn, m_inSendSyncCount conn, m_inDispatchMessageCount conn, m_inDispatchMarkedCount conn,
   m_inFullySynchronousCount conn, match m_waitingForMessage conn with Some _ => true | None => false end).

Lemma agrees_core c conn conn' frames : core conn' = core conn -> agrees c conn frames -> agrees c conn' frames.
Proof.
  intros E [H1 H2 H3 H4 H5 H6 H7]. unfold core in E. injection E as E1 E2 E3 E4 E5 E6.
  split; rewrite ?E1, ?E2, ?E3, ?E4, ?E5; try done.
  rewrite <- H7. destruct (m_waitingForMessage conn), (m_waitingForMessage conn'); done.
Qed.

(** Updates that neither the activations nor the counted fields see. *)
Lemma balanced_same w w' :
  connections w' = connections w -> stack w' = stack w -> log w' = log w -> balanced w -> balanced w'.
Proof. intros E1 E2 E3 [H1 H2]. split; [intros c; rewrite E1, E2; apply H1 | by rewrite E3]. Qed.

Lemma balanced_record e w : eventOk e -> balanced w -> balanced (record e w).
Proof. intros He [H1 H2]. split; [exact H1|]. apply Forall_app. split; [done|]. by apply Forall_singleton. Qed.

Lemma balanced_onConnection c f w : core (f (connections w c)) = core (connections w c) -> balanced w -> balanced (onConnection c f w).
Proof.
  intros E [H1 H2]. split; [|done]. intros c'. rewrite connections_onConnection.
  destruct (decide (c' = c)) as [->|]; [by eapply agrees_core | apply H1].
Qed.

Lemma balanced_post t w : balanced w -> balanced (post t w).
Proof. by apply balanced_same. Qed.

(** Peel the updates off a goal [balanced (...)]. *)
Ltac balanced_step :=
  first
  [ assumption | apply balanced_post
  | apply balanced_record; [exact I |]
  | apply balanced_onConnection; [reflexivity |]
  | match goal with |- balanced (match ?x with _ => _ end) => destruct x eqn:? end
  | match goal with |- balanced ?w'' =>
      match w'' with
      | wakeUpClientRunLoop ?w' => apply (balanced_same w'); [reflexivity | reflexivity | reflexivity |]
      | update _ _ ?w' => apply (balanced_same w'); [reflexivity | reflexivity | reflexivity |]
      end
    end ].
Ltac balance := cbv zeta; repeat (balanced_step; cbv zeta).

Lemma acceptReply_ok m b ps ps' l :
  acceptReply m b ps = Some (ps', l) -> messageName m = SyncMessageReply -> Forall pendingOk ps ->
  map syncRequestID ps' = map syncRequestID ps /\ length ps' = length ps /\ Forall pendingOk ps'.
Proof.
  revert b ps' l. induction ps as [|p ps IH]; intros b ps' l; simpl; [done|]. intros E Hm [Hp Hps]%Forall_cons.
  destruct (syncRequestID p =? destinationID m) eqn:Ei; zbool.
  - injection E as <- <-. simpl. split_and!; [done|done|]. constructor; [|done]. unfold pendingOk. simpl. done.
  - destruct (acceptReply m false ps) as [[ps1 l1]|] eqn:E1; [|done]. injection E as <- <-.
    destruct (IH _ _ _ E1 Hm Hps) as (Ei1 & El1 & ?). simpl. rewrite Ei1, El1. split_and!; [done|done|by constructor].
Qed.

Lemma balanced_processIncomingSyncReply c m w :
  messageName m = SyncMessageReply -> balanced w -> balanced (processIncomingSyncReply c m w).
Proof.
  intros Hm Hw. unfold processIncomingSyncReply.
  destruct (acceptReply m true _) as [[ps l]|] eqn:E; [|by balance].
  apply balanced_record; [done|].
  assert (balanced (onConnection c (fun conn => conn <| m_pendingSyncReplies := ps |>) w)) as H; [|by destruct l; balance].
  split; [|apply Hw]. intros c'. rewrite connections_onConnection. destruct (decide (c' = c)) as [->|]; [|apply Hw].
  destruct (balanced_connections w Hw c) as [H1 H2 H3 H4 H5 H6 H7].
  destruct (acceptReply_ok m true _ ps l E Hm H2) as (E1 & E2 & H2').
  split; simpl; rewrite ?E1, ?E2; done.
Qed.

Lemma core_waiting c st st' w w' :
  m_waitingForMessage (connections w c) = Some st -> balanced w -> w' = setWaiting c (Some st') w -> balanced w'.
Proof. intros E Hw ->. apply balanced_onConnection; [|done]. unfold core. simpl. by rewrite E. Qed.

Lemma balanced_processIncomingMessage c m w : balanced w -> balanced (processIncomingMessage c m w).
Proof.
  intros Hw. apply (processIncomingMessage_rule c m balanced balanced).
  - split; intros.
    + unfold enqueueIncomingMessage. by balance.
    + unfold appendForSyncWaiter. by balance.
    + by eapply core_waiting.
    + by eapply core_waiting.
    + by eapply core_waiting.
  - by balance.
  - intros. by apply balanced_processIncomingSyncReply.
  - intros. by balance.
  - intros. by balance.
  - intros. unfold callIncomingSyncMessageCallbacks. by balance.
Qed.

(** Activations that weigh the same. *)
Definition sameWeight (frames frames' : list Frame) : Prop :=
  forall c, waitIds c frames' = waitIds c frames /\ dispatchCount c frames' = dispatchCount c frames /\
    markedCount c frames' = markedCount c frames /\ fullySynchronousCount c frames' = fullySynchronousCount c frames /\
    messageWaits c frames' = messageWaits c frames.

Lemma balanced_stack w frames : sameWeight (stack w) frames -> balanced w -> balanced (w <| stack := frames |>).
Proof.
  intros Hf [H1 H2]. split; [|done]. intros c. destruct (Hf c) as (E1 & E2 & E3 & E4 & E5), (H1 c) as [].
  split; simpl; rewrite ?E1, ?E2, ?E3, ?E4, ?E5; done.
Qed.

Lemma balanced_frames w frames frames' : stack w = frames -> sameWeight frames frames' -> balanced w -> balanced (w <| stack := frames' |>).
Proof. intros <-. apply balanced_stack. Qed.

(** [w] lacks exactly the activation of the dispatch of [m]. *)
Definition owed (c : nat) (m : Message) (marked : bool) (w : World) : Prop :=
  forall old valid phase, balanced (push (FDispatch c m marked old valid phase) w).

Lemma owed_onConnection c m marked c' f w :
  core (f (connections w c')) = core (connections w c') -> owed c m marked w -> owed c m marked (onConnection c' f w).
Proof. intros E H old valid phase. exact (balanced_onConnection c' f (push (FDispatch c m marked old valid phase) w) E (H old valid phase)). Qed.

Lemma owed_record c m marked e w : eventOk e -> owed c m marked w -> owed c m marked (record e w).
Proof. intros E H old valid phase. exact (balanced_record e (push (FDispatch c m marked old valid phase) w) E (H old valid phase)). Qed.

Lemma owed_enterDispatch c m marked w : balanced w -> owed c m marked (enterDispatch c m marked w).
Proof.
  intros [H1 H2] old valid phase. split; [|done]. intros c'. simpl. specialize (H1 c').
  unfold enterDispatch. simpl. unfold upd. destruct H1. destruct (decide (c' = c)) as [->|Hne].
  - split; simpl; try done; unfold dispatchCount, markedCount, fullySynchronousCount; simpl; rewrite decide_True by done; simpl.
    + rewrite agrees_dispatch0, wrap_add_l by lia. f_equal. unfold dispatchCount. lia.
    + rewrite agrees_marked0, wrap_add_l by lia. f_equal. unfold markedCount. lia.
    + rewrite agrees_fully0, wrap_add_l by lia. f_equal. unfold fullySynchronousCount. lia.
  - split; simpl; try done; unfold dispatchCount, markedCount, fullySynchronousCount; simpl; rewrite decide_False by done; done.
Qed.

Lemma balanced_leaveDispatch c m marked w :
  owed c m marked w ->
  balanced (onConnection c (fun conn =>
    conn <| m_inDispatchMessageCount := wrap 32 (m_inDispatchMessageCount conn - 1) |>
         <| m_inDispatchMarkedCount := wrap 32 (m_inDispatchMarkedCount conn - (if marked then 1 else 0)) |>
         <| m_inFullySynchronousCount := wrap 32 (m_inFullySynchronousCount conn - (if shouldUseFullySynchronousModeForTesting m then 1 else 0)) |>) w).
Proof.
  intros H. destruct (H true true (InClient None)) as [H1 H2]. split; [|done]. intros c'. specialize (H1 c'). simpl in *. unfold upd.
  unfold waitIds, dispatchCount, markedCount, fullySynchronousCount, messageWaits in H1. destruct H1. simpl in *.
  unfold dispatchCount, markedCount, fullySynchronousCount, messageWaits in *. simpl in *.
  repeat case_decide; try congruence; subst; split; simpl in *; try done.
  - rewrite agrees_dispatch0, wrap_sub_l by lia. f_equal. unfold dispatchCount. lia.
  - rewrite agrees_marked0, wrap_sub_l by lia. f_equal. unfold markedCount. lia.
  - rewrite agrees_fully0, wrap_sub_l by lia. f_equal. unfold fullySynchronousCount. lia.
Qed.

Lemma balanced_dispatchMessages w : balanced w -> balanced (dispatchMessages w).
Proof. intros Hw. unfold dispatchMessages. apply balanced_stack; [done|]. by balance. Qed.

Lemma balanced_dispatchMessage c m w : balanced w -> balanced (dispatchMessage c m w).
Proof.
  intros Hw. apply (dispatchMessage_rule c m balanced balanced (fun marked _ => owed c m marked)); intros.
  - done.
  - by balance.
  - by balance.
  - by apply owed_enterDispatch.
  - apply balanced_record; [done|]. auto.
  - subst. apply owed_onConnection; [|done]. unfold takeAsyncReplyHandler. by repeat case_match.
  - by balance.
  - by apply balanced_processIncomingMessage.
  - by apply balanced_dispatchMessages.
Qed.

Lemma balanced_didFail c w : balanced w -> balanced (didFailToSendSyncMessage c w).
Proof. intros. unfold didFailToSendSyncMessage. by balance. Qed.

Lemma balanced_sendSyncMessage c id m o w : balanced w -> balanced (sendSyncMessage c id m o w).
Proof.
  intros Hw. unfold sendSyncMessage. cbv zeta. destruct (_ || _); [apply balanced_record; [done|]; by apply balanced_didFail|].
  unfold push, appendOutgoing. cbv zeta. destruct Hw as [H1 H2]. split; [|done]. intros c'. specialize (H1 c').
  simpl. unfold upd. destruct (decide (c' = c)) as [->|Hne].
  - rewrite decide_True by done. destruct H1. split; simpl; try done.
    + unfold waitIds. simpl. rewrite decide_True by done. simpl. by rewrite agrees_pending0.
    + constructor; [|done]. unfold pendingOk. done.
    + rewrite agrees_sendSync0, wrap_add_l by lia. f_equal. lia.
  - destruct H1. split; simpl; try done. unfold waitIds. simpl. by rewrite decide_False.
Qed.

Lemma balanced_sendMessage c m o w : balanced w -> balanced (sendMessage c m o w).
Proof.
  intros Hw. unfold sendMessage, createSyncMessageEncoder. cbv zeta. destruct (negb _); [done|]. destruct (_ && _).
  - apply balanced_sendSyncMessage. by balance.
  - unfold appendOutgoing. by balance.
Qed.

Lemma owed_sendSyncReply c m marked r w : owed c m marked w -> owed c m marked (sendSyncReply c (replyMessage m r) w).
Proof.
  intros Hw. unfold sendSyncReply, sendMessage, appendOutgoing. cbv zeta. destruct (negb _); [done|]. simpl.
  rewrite andb_false_r. simpl. by apply owed_onConnection.
Qed.

Lemma balanced_finishDispatch c m marked old valid phase below reply w :
  stack w = FDispatch c m marked old valid phase :: below -> balanced w -> balanced (finishDispatch c m marked old valid reply w).
Proof.
  intros Es Hw. unfold finishDispatch. cbv zeta.
  assert (owed c m marked (pop w)) as H.
  { intros old' valid' phase'. apply (balanced_frames w (FDispatch c m marked old valid phase :: below)); [done| |done].
    intros c'. cbn [pop stack update]. by rewrite Es. }
  assert (owed c m marked (match reply with Some id => sendSyncReply c (replyMessage m id) (pop w) | None => pop w end)) as H1
    by (destruct reply; [by apply owed_sendSyncReply | done]).
  revert H1. generalize (match reply with Some id => sendSyncReply c (replyMessage m id) (pop w) | None => pop w end). intros w1 H1.
  apply balanced_leaveDispatch in H1. revert H1.
  match goal with |- balanced ?x -> _ => generalize x end. intros w2 H2. by balance.
Qed.

Lemma balanced_finishSendSync c id reply f below w :
  stack w = f :: below -> (forall c', waitsFor c' f = if decide (c' = c) then [id] else []) ->
  (forall c', dispatches c' f = (0, 0, 0)) -> (forall c' fs, messageWaits c' (f :: fs) = messageWaits c' fs) ->
  (forall m, reply = Some m -> messageName m = SyncMessageReply /\ destinationID m = id) ->
  balanced w -> balanced (finishSendSync c id reply w).
Proof.
  intros Es Hf Hd Hm Hreply Hw. unfold finishSendSync. cbv zeta. apply balanced_record.
  { destruct reply; [simpl; by apply Hreply | done]. }
  match goal with |- balanced (match _ with Some _ => ?w1 | None => _ end) => assert (balanced w1) as H end.
  2: by destruct reply; [|apply balanced_didFail].
  destruct Hw as [H1 H2]. split; [|done]. intros c'. specialize (H1 c'). simpl. rewrite Es in *. simpl. unfold upd.
  destruct H1. unfold waitIds, dispatchCount, markedCount, fullySynchronousCount in *. simpl in *. rewrite Hf, Hd in *. rewrite Hm in *.
  simpl in *. destruct (decide (c' = c)) as [->|]; split; simpl; try done.
  - by destruct (m_pendingSyncReplies (connections w c)); simplify_eq/=.
  - by destruct (m_pendingSyncReplies (connections w c)); simplify_eq/=; inv agrees_replies0.
  - destruct (m_pendingSyncReplies (connections w c)); simplify_eq/=. rewrite agrees_sendSync0, wrap_sub_l by lia. f_equal. lia.
Qed.

Lemma balanced_waitForMessage c name d i ds w : balanced w -> balanced (waitForMessage c name d i ds w).
Proof.
  intros Hw. unfold waitForMessage. cbv zeta. destruct (m_waitingForMessage _) eqn:Ew; [by balance|].
  destruct (negb _); [by balance|]. destruct (takeMatching _ _ _) as [[m rest]|]; [by balance|].
  destruct (_ && _); [by balance|]. destruct Hw as [H1 H2]. split; [|done]. intros c'. specialize (H1 c'). simpl. unfold upd.
  destruct H1. destruct (decide (c' = c)) as [->|]; split; simpl; try done; unfold messageWaits; simpl.
  - rewrite Ew in agrees_waiting0. unfold messageWaits in agrees_waiting0. rewrite decide_True, <- agrees_waiting0 by done. lia.
  - by rewrite decide_False.
Qed.

(** The innermost activation waits for a message of [c]. *)
Definition waitingFrame (c : nat) (f : Frame) : Prop :=
  f = FWaitMessageHead c \/ f = FWaitMessageCheck c \/ f = FWaitMessageBlocked c.

Lemma balanced_stopWaiting c f below w :
  stack w = f :: below -> waitingFrame c f -> balanced w -> balanced (setWaiting c None (pop w)).
Proof.
  intros Es Hf [H1 H2]. split; [|done]. intros c'. specialize (H1 c'). simpl. rewrite Es in *. simpl. unfold upd.
  destruct H1. unfold messageWaits, waitIds, dispatchCount, markedCount, fullySynchronousCount in *. simpl in *.
  destruct Hf as [-> | [-> | ->]]; simpl in *; destruct (decide (c' = c)) as [->|]; split; simpl in *; try done.
  all: assert (0 <= messageWaits c below) by (clear; unfold messageWaits; induction below as [|[] ? ?]; simpl; try case_decide; lia);
    unfold messageWaits in *; destruct (m_waitingForMessage (connections w c)); lia.
Qed.

Lemma balanced_abandonWait c f below w :
  stack w = f :: below -> waitingFrame c f -> balanced w -> balanced (abandonWait c w).
Proof.
  intros Es Hf Hw. unfold abandonWait. cbv zeta. pose proof (balanced_stopWaiting c f below w Es Hf Hw).
  apply balanced_record; [done|].
  generalize (match m_waitingForMessage (connections w c) with Some st => waitDecoder st | None => None end). intros [m|]; by balance.
Qed.

Lemma balanced_dispatchIncomingMessages c w : balanced w -> balanced (dispatchIncomingMessages c w).
Proof.
  intros Hw. unfold dispatchIncomingMessages. destruct (m_incomingMessages _) as [|m rest]; [done|].
  destruct (m_incomingMessagesThrottler _) as [t|]; [|done]. destruct (numberOfMessagesToProcess _ _) as [n level].
  apply balanced_dispatchMessage, balanced_stack; [done|].
  destruct rest; [by balance|]. unfold scheduleMessagesDispatch. by balance.
Qed.

Lemma balanced_runTask t w : balanced w -> balanced (runTask t w).
Proof.
  intros Hw. destruct t as [c|c|c|c name|c]; cbn [runTask].
  - apply balanced_stack; [done|]. by balance.
  - destruct (isIncomingMessagesThrottlingEnabled _); [by apply balanced_dispatchIncomingMessages|].
    unfold dispatchOneIncomingMessage. destruct (m_incomingMessages _); [done|]. apply balanced_dispatchMessage. by balance.
  - by apply balanced_dispatchIncomingMessages.
  - by balance.
  - destruct (m_isValid _); [|done]. unfold clearAsyncReplyHandlers. cbv zeta.
    match goal with |- balanced (?w1 <| log := _ ++ map _ ?l |>) => assert (balanced w1) as [H1 H2] by balance; split; [exact H1|] end.
    apply Forall_app. split; [exact H2|]. apply Forall_map, Forall_true. done.
Qed.

(** Replacing the innermost activation by one of the same weight. *)
Lemma balanced_swap f f' below w :
  stack w = f :: below -> sameWeight [f] [f'] -> balanced w -> balanced (w <| stack := f' :: below |>).
Proof.
  intros Es Hf. apply (balanced_frames w (f :: below) _ Es). intros c. destruct (Hf c) as (E1 & E2 & E3 & E4 & E5).
  unfold waitIds, dispatchCount, markedCount, fullySynchronousCount, messageWaits in *. simpl in *.
  rewrite !app_nil_r in E1. rewrite E1. split_and!; [done|lia..].
Qed.

Lemma balanced_drop f below w : stack w = f :: below -> sameWeight [f] [] -> balanced w -> balanced (pop w).
Proof.
  intros Es Hf. apply (balanced_frames w (f :: below) _ Es). rewrite Es. simpl. intros c. destruct (Hf c) as (E1 & E2 & E3 & E4 & E5).
  unfold waitIds, dispatchCount, markedCount, fullySynchronousCount, messageWaits in *. simpl in *.
  rewrite app_nil_r in E1. rewrite <- E1. split_and!; [done|lia..].
Qed.

Lemma balanced_checkReply c id below w :
  stack w = FWaitReplyCheck c id :: below -> balanced w ->
  exists p ps, m_pendingSyncReplies (connections w c) = p :: ps /\ syncRequestID p = id /\ pendingOk p.
Proof.
  intros Es Hw. destruct (balanced_connections w Hw c) as [H1 H2 _ _ _ _ _]. rewrite Es in H1. unfold waitIds in H1. simpl in H1.
  rewrite decide_True in H1 by done. destruct (m_pendingSyncReplies (connections w c)) as [|p ps]; [done|].
  injection H1 as E _. apply Forall_cons in H2 as [H2 _]. by exists p, ps.
Qed.

Lemma balanced_continue w : balanced w -> after balanced (continue w).
Proof.
  intros Hw. unfold continue. destruct (stack w) as [|f below] eqn:Es; [done|].
  destruct f as [c m k o v [r|r]|[|[c m] rest]|c [|[c' m] rest] pb|c [|n]|c id|c id|c id|c|c|c|]; cbn [after]; try done.
  - by eapply balanced_finishDispatch.
  - by eapply balanced_drop.
  - apply balanced_dispatchMessage. by eapply balanced_swap.
  - apply (balanced_same (pop w)); [done..|]. by eapply balanced_drop.
  - destruct (bool_decide (c = c')); [apply balanced_dispatchMessage|]; by eapply balanced_swap.
  - by eapply balanced_drop.
  - destruct (m_incomingMessages (connections w c)); [by eapply balanced_drop|]. apply balanced_dispatchMessage.
    apply balanced_onConnection; [done|]. by eapply balanced_swap.
  - apply balanced_dispatchMessages. by eapply balanced_swap.
  - destruct (balanced_checkReply c id below w Es Hw) as (p & ps & Ep & Eid & Hp). rewrite Ep.
    destruct (_ || _); [|destruct (negb _)].
    + eapply balanced_finishSendSync; try done. intros m Em. unfold pendingOk in Hp. rewrite Em, Eid in Hp. tauto.
    + by eapply balanced_finishSendSync.
    + by eapply balanced_swap.
  - apply balanced_dispatchMessages. by eapply balanced_swap.
  - destruct (m_waitingForMessage (connections w c)) as [st|] eqn:Ew; [|by balance].
    destruct (waitDecoder st).
    + do 2 (apply balanced_record; [done|]). eapply balanced_stopWaiting; [done | unfold waitingFrame; auto | done].
    + apply (core_waiting c st (st <| conditionBlocked := true |> <| conditionNotified := false |>) (w <| stack := FWaitMessageBlocked c :: below |>)); [done| |done].
      by eapply balanced_swap.
Qed.

Lemma balanced_waits a w : a = Wake \/ a = Timeout -> balanced w -> after balanced (perform a w).
Proof.
  intros Ha Hw. destruct Ha as [-> | ->]; simpl; unfold wake, timeout; destruct (stack w) as [|[] below] eqn:Es; cbn [after]; try done.
  - destruct (m_waitForSyncReplySemaphore w); [|done]. cbn [after].
    apply (balanced_swap (FWaitReplyBlocked c id) (FWaitReplyHead c id) below); [done|done|]. by balance.
  - destruct (m_waitingForMessage _) as [st|] eqn:Ew; [|done]. destruct (conditionNotified st); [|done]. cbn [after].
    destruct (messageWaitingInterrupted st); [eapply balanced_abandonWait; [done | unfold waitingFrame; auto | done]|].
    apply (core_waiting c st (st <| conditionBlocked := false |> <| conditionNotified := false |>) (w <| stack := FWaitMessageHead c :: below |>)); [done| |done].
    by eapply balanced_swap.
  - by eapply balanced_finishSendSync.
  - eapply balanced_abandonWait; [done | unfold waitingFrame; auto | done].
Qed.

Lemma balanced_close c w : balanced w -> balanced (connectionDidClose c w).
Proof.
  intros Hw. unfold connectionDidClose. cbv zeta. apply balanced_post.
  match goal with |- balanced (match m_waitingForMessage (connections ?x c) with _ => _ end) => assert (balanced x) as H1 by balance; revert H1; generalize x end.
  intros w1 H1. destruct (m_waitingForMessage (connections w1 c)) as [st|] eqn:Ew; [by eapply core_waiting | done].
Qed.

Lemma balanced_perform a w : balanced w -> after balanced (perform a w).
Proof.
  intros Hw. destruct a as [c m|c|c can f| |c| | | |v k|c m o|c m o|c name d i ds|c st|e| |]; cbn [perform];
    try exact (balanced_waits Wake w (or_introl eq_refl) Hw); try exact (balanced_waits Timeout w (or_intror eq_refl) Hw);
    unfold when.
  - by apply balanced_processIncomingMessage.
  - by apply balanced_close.
  - unfold sendOutgoingMessages. cbn [after]. destruct can; [|done]. destruct (sendLoop _ _) as [sent queued].
    match goal with |- balanced (?w1 <| log := _ ++ map _ ?l |>) => assert (balanced w1) as [H1 H2] by balance; split; [exact H1|] end.
    apply Forall_app. split; [exact H2|]. apply Forall_map, Forall_true. done.
  - destruct (mainQueue w) as [|t rest]; [done|]. destruct (inRunLoop w); [|done]. apply balanced_runTask. by balance.
  - destruct (m_incomingMessagesThrottler _) as [t|]; [|done]. destruct (_ && _); [|done].
    apply balanced_dispatchIncomingMessages. by balance.
  - by apply balanced_continue.
  - destruct (stack w) as [|[] below] eqn:Es; try exact I. destruct phase; [|exact I]. by eapply balanced_swap.
  - destruct (clientRunning w); [|done]. by apply balanced_sendMessage.
  - unfold createSyncMessageEncoder. destruct (clientRunning w); [|done]. apply balanced_sendSyncMessage. by balance.
  - destruct (clientRunning w); [|done]. by apply balanced_waitForMessage.
  - destruct (clientRunning w); [|done]. apply balanced_onConnection; [|done].
    destruct st; try done. unfold core; simpl. unfold enableIncomingMessagesThrottling. by destruct (isIncomingMessagesThrottlingEnabled _).
  - destruct (clientRunning w); [|done]. by cbn [after]; balance.
  - destruct (clientRunning w); [|done]. by apply balanced_stack.
  - destruct (stack w) as [|[] below] eqn:Es; try done. by eapply balanced_drop.
Qed.

Lemma reachable_balanced w : rtc step initialWorld w -> balanced w.
Proof.
  intros Hr. eapply rtc_invariant; [|exact Hr|]; [intros ? ? ? ?; eapply after_step; [|done]; intros; by apply balanced_perform|].
  split; [|constructor]. intros c. by split.
Qed.

(** C12: A synchronous send returns the reply to its own request: in every reachable
    state each returned reply is a [SyncMessageReply] addressed to the request it was
    returned for, however many sync messages were sent from inside one another. *)
Theorem sync_send_returns_its_reply w c id reply :
  rtc step initialWorld w -> SyncReturned c id (Some reply) ∈ log w ->
  messageName reply = SyncMessageReply /\ destinationID reply = id.
Proof.
  intros Hr Hin. destruct (reachable_balanced w Hr) as [_ H]. rewrite Forall_forall in H. exact (H _ Hin).
Qed.

(** In every reachable state the vector of pending replies lists exactly the sync
    sends that are still waiting, innermost last, so the one the waiting loop inspects
    is its own; and when the main thread is back in its outermost run loop, no reply
    and no message is waited for and every counter of nested sends and dispatches is
    back to zero. *)
Theorem pending_replies_match_waits w c :
  rtc step initialWorld w ->
  (forall id below, stack w = FWaitReplyCheck c id :: below ->
     exists p ps, m_pendingSyncReplies (connections w c) = p :: ps /\ syncRequestID p = id) /\
  (stack w = [] ->
     m_pendingSyncReplies (connections w c) = [] /\ m_waitingForMessage (connections w c) = None /\
     m_inSendSyncCount (connections w c) = 0 /\ m_inDispatchMessageCount (connections w c) = 0 /\
     m_inDispatchMarkedCount (connections w c) = 0 /\ m_inFullySynchronousCount (connections w c) = 0).
Proof.
  intros Hr. apply reachable_balanced in Hr as Hw. split.
  - intros id below Es. destruct (balanced_checkReply c id below w Es Hw) as (p & ps & ? & ? & _). by exists p, ps.
  - intros Es. destruct (balanced_connections w Hw c) as [H1 H2 H3 H4 H5 H6 H7]. rewrite Es in *.
    apply map_eq_nil in H1. rewrite H1 in H3. destruct (m_waitingForMessage (connections w c)); [done|]. done.
Qed.

(** ** Every received message is handled exactly once *)

Definition receivedIn : list Event -> list (nat * Message) :=
  omap (fun e => match e with Received c m => Some (c, m) | _ => None end).
Definition handledIn : list Event -> list (nat * Message) :=
  omap (fun e => match e with Handled c m _ => Some (c, m) | _ => None end).

(** The messages an activation holds aside. *)
Definition heldBy (f : Frame) : list (nat * Message) :=
  match f with
  | FDispatchMessages rest => rest
  | FDispatchMessagesFor _ rest putBack => putBack ++ rest
  | _ => []
  end.

Definition waiterHolds (conn : Connection) : list Message :=
  match m_waitingForMessage conn with
  | Some st => match waitDecoder st with Some m => [m] | None => [] end
  | None => []
  end.

(** How often message [m] of connection [c] is waiting somewhere. *)
Definition held (c : nat) (m : Message) (w : World) : Z :=
  occ m (m_incomingMessages (connections w c)) + occ (c, m) (m_messagesToDispatchWhileWaitingForSyncReply w)
  + occ (c, m) (concat (map heldBy (stack w))) + occ m (waiterHolds (connections w c)).

(** Received is handled, held, or one of the messages in hand. *)
Definition conserved (inHand : list (nat * Message)) (w : World) : Prop :=
  forall c m, occ (c, m) (receivedIn (log w)) = occ (c, m) (handledIn (log w)) + held c m w + occ (c, m) inHand.

Definition places (conn : Connection) := (m_incomingMessages conn, waiterHolds conn).

Lemma conserved_same h w w' :
  connections w' = connections w -> m_messagesToDispatchWhileWaitingForSyncReply w' = m_messagesToDispatchWhileWaitingForSyncReply w ->
  concat (map heldBy (stack w')) = concat (map heldBy (stack w)) ->
  receivedIn (log w') = receivedIn (log w) -> handledIn (log w') = handledIn (log w) -> conserved h w -> conserved h w'.
Proof. intros E1 E2 E3 E4 E5 H c m. unfold held. rewrite E1, E2, E3, E4, E5. apply H. Qed.

Lemma conserved_onConnection h c f w :
  places (f (connections w c)) = places (connections w c) -> conserved h w -> conserved h (onConnection c f w).
Proof.
  intros E H c' m. specialize (H c' m). unfold held in *. rewrite connections_onConnection. unfold places in E. injection E as E1 E2.
  destruct (decide (c' = c)) as [->|]; [rewrite E1, E2|]; exact H.
Qed.

(** An event that is neither the reception nor the end of a message. *)
Definition neutral (e : Event) : Prop := match e with Received _ _ | Handled _ _ _ => False | _ => True end.

Lemma omap_app_last {A B} (f : A -> option B) l x : omap f (l ++ [x]) = omap f l ++ match f x with Some y => [y] | None => [] end.
Proof. rewrite omap_app. simpl. by destruct (f x). Qed.

Lemma conserved_record h e w : neutral e -> conserved h w -> conserved h (record e w).
Proof.
  intros He. apply conserved_same; try done; simpl; unfold receivedIn, handledIn; rewrite omap_app_last; destruct e; try done; by rewrite app_nil_r.
Qed.

Lemma conserved_received c m h w : conserved h w -> conserved ((c, m) :: h) (record (Received c m) w).
Proof.
  intros H c' m'. specialize (H c' m'). unfold held in *. simpl. unfold receivedIn, handledIn in *. rewrite !omap_app_last, !occ_app. simpl. lia.
Qed.

Lemma conserved_handled c m f h w : conserved ((c, m) :: h) w -> conserved h (record (Handled c m f) w).
Proof.
  intros H c' m'. specialize (H c' m'). unfold held in *. simpl in *. unfold receivedIn, handledIn in *. rewrite !omap_app_last, !occ_app. simpl. lia.
Qed.

Lemma occ_pair (c c' : nat) (m : Message) l : occ (c, m) (map (pair c') l) = if decide (c = c') then occ m l else 0.
Proof.
  induction l as [|y l IH]; simpl; [by case_decide|]. rewrite IH. repeat case_decide; simplify_eq; try done; congruence.
Qed.

(** Peel the updates off a goal [conserved h (...)]. *)
Ltac conserved_step :=
  first
  [ assumption
  | apply conserved_record; [exact I |]
  | apply conserved_onConnection; [reflexivity |]
  | match goal with |- conserved _ (match ?x with _ => _ end) => destruct x eqn:? end
  | match goal with |- conserved ?h ?w'' =>
      match w'' with
      | wakeUpClientRunLoop ?w' => apply (conserved_same h w'); [reflexivity | reflexivity | reflexivity | reflexivity | reflexivity |]
      | post _ ?w' => apply (conserved_same h w'); [reflexivity | reflexivity | reflexivity | reflexivity | reflexivity |]
      | push _ ?w' => apply (conserved_same h w'); [reflexivity | reflexivity | reflexivity | reflexivity | reflexivity |]
      | update _ _ ?w' => apply (conserved_same h w'); [reflexivity | reflexivity | reflexivity | reflexivity | reflexivity |]
      end
    end ].
Ltac conserve := cbv zeta; repeat (conserved_step; cbv zeta).

Lemma conserved_enqueue c m w : conserved [(c, m)] w -> conserved [] (enqueueIncomingMessage c m w).
Proof.
  intros H. unfold enqueueIncomingMessage. cbv zeta.
  assert (conserved [] (onConnection c (fun conn => conn <| m_incomingMessages := m_incomingMessages conn ++ [m] |>) w)) as H1; [|by conserve].
  intros c' m'. specialize (H c' m'). unfold held in *. rewrite connections_onConnection. simpl in *.
  destruct (decide (c' = c)) as [->|Hne]; simpl.
  - rewrite occ_app. simpl. unfold waiterHolds in *. simpl. repeat case_decide; simplify_eq; try lia; congruence.
  - rewrite decide_False in H by congruence. lia.
Qed.

Lemma conserved_append c m w : conserved [(c, m)] w -> conserved [] (appendForSyncWaiter c m w).
Proof.
  intros H. unfold appendForSyncWaiter. cbv zeta.
  match goal with |- conserved [] (wakeUpClientRunLoop (if _ then post _ ?w1 else _)) => assert (conserved [] w1) as H1 end.
  2: { by conserve. }
  intros c' m'. specialize (H c' m'). unfold held in *. destruct (shouldMaintainOrderingWithAsyncMessages m); simpl in *; rewrite !occ_app; simpl.
  - rewrite occ_pair. unfold upd. destruct (decide (c' = c)) as [->|Hne]; simpl; unfold waiterHolds in *; simpl; lia.
  - lia.
Qed.

Lemma conserved_setWaiting_same c st st' h w :
  m_waitingForMessage (connections w c) = Some st -> waitDecoder st' = waitDecoder st -> conserved h w -> conserved h (setWaiting c (Some st') w).
Proof. intros E1 E2. apply conserved_onConnection. unfold places, waiterHolds. simpl. by rewrite E1, E2. Qed.

Lemma conserved_processIncomingMessage c m w : conserved [] w -> conserved [] (processIncomingMessage c m w).
Proof.
  intros Hw. apply (processIncomingMessage_rule c m (conserved [(c, m)]) (conserved [])).
  - split.
    + apply conserved_enqueue.
    + apply conserved_append.
    + intros w' st H Ew Ed c' m'. specialize (H c' m'). unfold held, setWaiting in *. rewrite connections_onConnection. simpl in *.
      destruct (decide (c' = c)) as [->|Hne]; simpl.
      * unfold waiterHolds in *. simpl. rewrite Ew, Ed in H. simpl in *. repeat case_decide; simplify_eq; try lia; congruence.
      * rewrite decide_False in H by congruence. lia.
    + intros. by eapply conserved_setWaiting_same.
    + intros. by eapply conserved_setWaiting_same.
  - by apply conserved_received.
  - intros w' H _. unfold processIncomingSyncReply. destruct (acceptReply _ _ _) as [[ps l]|]; apply conserved_handled; by conserve.
  - intros. by conserve.
  - intros. by apply conserved_handled.
  - intros. unfold callIncomingSyncMessageCallbacks. by conserve.
Qed.

Lemma conserved_dispatchMessages w : conserved [] w -> conserved [] (dispatchMessages w).
Proof.
  intros H c m. specialize (H c m). unfold held in *. simpl in *. rewrite occ_app. lia.
Qed.

Lemma conserved_dispatchMessage c m w : conserved [(c, m)] w -> conserved [] (dispatchMessage c m w).
Proof.
  intros Hw. apply (dispatchMessage_rule c m (conserved [(c, m)]) (conserved []) (fun _ _ => conserved [(c, m)])); intros.
  - done.
  - by apply conserved_handled.
  - apply conserved_handled. by conserve.
  - unfold enterDispatch. by conserve.
  - apply conserved_handled. by conserve.
  - subst. apply conserved_onConnection; [|done]. unfold takeAsyncReplyHandler.
    destruct (asyncReplyHandlers _); [by destruct (isValidReplyKey id) | done].
  - by conserve.
  - by apply conserved_processIncomingMessage.
  - by apply conserved_dispatchMessages.
Qed.

(** Taking the first queued message in hand. *)
Lemma conserved_takeFirst c m rest f w :
  m_incomingMessages (connections w c) = m :: rest -> m_incomingMessages (f (connections w c)) = rest ->
  waiterHolds (f (connections w c)) = waiterHolds (connections w c) ->
  conserved [] w -> conserved [(c, m)] (onConnection c f w).
Proof.
  intros E E1 E2 H c' m'. specialize (H c' m'). unfold held in *. rewrite connections_onConnection. simpl in *.
  destruct (decide (c' = c)) as [->|Hne].
  - rewrite E1, E2. rewrite E in H. simpl in H. repeat case_decide; simplify_eq; try lia; congruence.
  - rewrite decide_False by congruence. lia.
Qed.

(** Replacing the innermost activation by one that holds all but the messages in hand. *)
Lemma conserved_frame h f f' below w :
  stack w = f :: below -> (forall p, occ p (heldBy f) = occ p (heldBy f') + occ p h) -> conserved [] w -> conserved h (w <| stack := f' :: below |>).
Proof.
  intros Es Hf H c m. specialize (H c m). unfold held in *. simpl. rewrite Es in H. simpl in *. rewrite occ_app in *.
  specialize (Hf (c, m)). lia.
Qed.

Lemma conserved_drop f below w : stack w = f :: below -> heldBy f = [] -> conserved [] w -> conserved [] (pop w).
Proof. intros Es Hf. apply conserved_same; try done. simpl. rewrite Es. simpl. by rewrite Hf. Qed.

Lemma conserved_didFail c w : conserved [] w -> conserved [] (didFailToSendSyncMessage c w).
Proof. intros. unfold didFailToSendSyncMessage. by conserve. Qed.

Lemma conserved_sendSyncMessage c id m o w : conserved [] w -> conserved [] (sendSyncMessage c id m o w).
Proof.
  intros Hw. unfold sendSyncMessage. cbv zeta. destruct (_ || _); [apply conserved_record; [done|]; by apply conserved_didFail|].
  unfold appendOutgoing. cbv zeta. by conserve.
Qed.

Lemma conserved_sendMessage c m o w : conserved [] w -> conserved [] (sendMessage c m o w).
Proof.
  intros Hw. unfold sendMessage, createSyncMessageEncoder. cbv zeta. destruct (negb _); [done|]. destruct (_ && _).
  - apply conserved_sendSyncMessage. by conserve.
  - unfold appendOutgoing. by conserve.
Qed.

Lemma conserved_finishDispatch c m marked old valid phase below reply w :
  stack w = FDispatch c m marked old valid phase :: below -> conserved [] w -> conserved [] (finishDispatch c m marked old valid reply w).
Proof.
  intros Es Hw. unfold finishDispatch. cbv zeta.
  assert (conserved [] (match reply with Some id => sendSyncReply c (replyMessage m id) (pop w) | None => pop w end)) as H1.
  { pose proof (conserved_drop _ _ _ Es eq_refl Hw). destruct reply; [by apply conserved_sendMessage | done]. }
  revert H1. generalize (match reply with Some id => sendSyncReply c (replyMessage m id) (pop w) | None => pop w end). intros w1 H1.
  by conserve.
Qed.

Lemma conserved_finishSendSync c id reply f below w :
  stack w = f :: below -> heldBy f = [] -> conserved [] w -> conserved [] (finishSendSync c id reply w).
Proof.
  intros Es Hf Hw. unfold finishSendSync. cbv zeta. apply conserved_record; [done|].
  pose proof (conserved_drop _ _ _ Es Hf Hw). destruct reply; [by conserve|]. apply conserved_didFail. by conserve.
Qed.

(** The waiter's message is in hand when its state goes. *)
Lemma conserved_stopWaiting c f below w :
  stack w = f :: below -> heldBy f = [] -> conserved [] w ->
  conserved (map (pair c) (waiterHolds (connections w c))) (setWaiting c None (pop w)).
Proof.
  intros Es Hf H c' m. specialize (H c' m). unfold held, setWaiting in *. rewrite connections_onConnection. simpl in *.
  rewrite Es in *. simpl in *. rewrite Hf in H. simpl in H. rewrite occ_pair.
  destruct (decide (c' = c)) as [->|]; simpl; lia.
Qed.

Lemma conserved_abandonWait c f below w :
  stack w = f :: below -> heldBy f = [] -> conserved [] w -> conserved [] (abandonWait c w).
Proof.
  intros Es Hf Hw. unfold abandonWait. cbv zeta. pose proof (conserved_stopWaiting c f below w Es Hf Hw) as H.
  apply conserved_record; [done|]. unfold waiterHolds in H.
  destruct (m_waitingForMessage (connections w c)) as [st|]; [destruct (waitDecoder st)|]; simpl in H; [by apply conserved_handled|done|done].
Qed.

Lemma takeMatching_occ name d q m rest : takeMatching name d q = Some (m, rest) -> forall x, occ x q = occ x rest + occ x [m].
Proof.
  revert m rest. induction q as [|m0 q IH]; intros m rest; simpl; [done|]. destruct (_ && _); [intros [= <- <-] x; simpl; lia|].
  destruct (takeMatching name d q) as [[found rest']|] eqn:E; [|done]. intros [= <- <-] x. rewrite (IH found rest' eq_refl). simpl. lia.
Qed.

Lemma conserved_waitForMessage c name d i ds w : conserved [] w -> conserved [] (waitForMessage c name d i ds w).
Proof.
  intros Hw. unfold waitForMessage. cbv zeta. destruct (m_waitingForMessage _) eqn:Ew; [by conserve|].
  destruct (negb _); [by conserve|]. destruct (takeMatching _ _ _) as [[m rest]|] eqn:Et.
  - apply conserved_record; [done|]. apply conserved_handled. intros c' m'. specialize (Hw c' m'). unfold held in *.
    rewrite connections_onConnection. simpl in *. destruct (decide (c' = c)) as [->|].
    + rewrite (takeMatching_occ _ _ _ _ _ Et) in Hw. simpl in *. unfold waiterHolds in *. simpl. repeat case_decide; simplify_eq; try lia; congruence.
    + rewrite decide_False by congruence. lia.
  - destruct (_ && _); [by conserve|]. apply (conserved_same _ (setWaiting c (Some (mkWaiting name d i ds false None false false)) w)); [done..|].
    apply conserved_onConnection; [|done]. unfold places, waiterHolds. simpl. by rewrite Ew.
Qed.

Lemma conserved_dispatchIncomingMessages c w : conserved [] w -> conserved [] (dispatchIncomingMessages c w).
Proof.
  intros Hw. unfold dispatchIncomingMessages. destruct (m_incomingMessages _) as [|m rest] eqn:Ei; [done|].
  destruct (m_incomingMessagesThrottler _) as [t|]; [|done]. destruct (numberOfMessagesToProcess _ _) as [n level].
  apply conserved_dispatchMessage. cbv zeta.
  match goal with |- context [onConnection c ?f w] => assert (conserved [(c, m)] (onConnection c f w)) as H by (by apply (conserved_takeFirst _ _ rest)) end.
  destruct rest; [by conserve|]. unfold scheduleMessagesDispatch. by conserve.
Qed.

Lemma conserved_log h w es :
  Forall neutral es -> conserved h w -> conserved h (w <| log := log w ++ es |>).
Proof.
  intros He. assert (receivedIn es = [] /\ handledIn es = []) as [E1 E2].
  { induction He as [|e es He _ [IH1 IH2]]; [done|]. unfold receivedIn, handledIn in *. simpl. by destruct e. }
  apply conserved_same; try done; simpl; unfold receivedIn, handledIn in *; rewrite omap_app; [by rewrite E1, app_nil_r | by rewrite E2, app_nil_r].
Qed.

Lemma conserved_runTask t w : conserved [] w -> conserved [] (runTask t w).
Proof.
  intros Hw. destruct t as [c|c|c|c name|c]; cbn [runTask].
  - intros c' m. specialize (Hw c' m). unfold held in *. simpl in *. rewrite occ_app. lia.
  - destruct (isIncomingMessagesThrottlingEnabled _); [by apply conserved_dispatchIncomingMessages|].
    unfold dispatchOneIncomingMessage. destruct (m_incomingMessages _) as [|m rest] eqn:Ei; [done|].
    apply conserved_dispatchMessage. by apply (conserved_takeFirst _ _ rest).
  - by apply conserved_dispatchIncomingMessages.
  - by conserve.
  - destruct (m_isValid _); [|done]. unfold clearAsyncReplyHandlers. cbv zeta. apply conserved_log; [|by conserve].
    apply Forall_map, Forall_true. done.
Qed.

Lemma conserved_continue w : conserved [] w -> after (conserved []) (continue w).
Proof.
  intros Hw. unfold continue. destruct (stack w) as [|f below] eqn:Es; [done|].
  destruct f as [c m k o v [r|r]|[|[c m] rest]|c [|[c' m] rest] pb|c [|n]|c id|c id|c id|c|c|c|]; cbn [after]; try done.
  - by eapply conserved_finishDispatch.
  - by eapply conserved_drop.
  - apply conserved_dispatchMessage. eapply conserved_frame; [done | intros; simpl; lia | done].
  - intros c' m. specialize (Hw c' m). unfold held in *. simpl in *. rewrite Es in *. simpl in *. rewrite !occ_app in *. simpl in *. lia.
  - destruct (bool_decide (c = c')) eqn:Ec.
    + apply bool_decide_eq_true in Ec as <-. apply conserved_dispatchMessage.
      eapply conserved_frame; [done | intros; simpl; rewrite !occ_app; simpl; lia | done].
    + eapply conserved_frame; [done | intros; simpl; rewrite !occ_app; simpl; lia | done].
  - by eapply conserved_drop.
  - destruct (m_incomingMessages (connections w c)) as [|m rest] eqn:Ei; [by eapply conserved_drop|].
    apply conserved_dispatchMessage. apply (conserved_takeFirst _ _ rest); [done..|]. by eapply conserved_frame.
  - apply conserved_dispatchMessages. by eapply conserved_frame.
  - destruct (m_pendingSyncReplies _); [by conserve|]. destruct (_ || _); [|destruct (negb _)].
    + by eapply conserved_finishSendSync.
    + by eapply conserved_finishSendSync.
    + by eapply conserved_frame.
  - apply conserved_dispatchMessages. by eapply conserved_frame.
  - pose proof (conserved_stopWaiting c _ below w Es eq_refl Hw) as H. unfold waiterHolds in H.
    destruct (m_waitingForMessage (connections w c)) as [st|] eqn:Ew; [|by conserve].
    destruct (waitDecoder st) as [m|] eqn:Ed; simpl in H.
    + apply conserved_record; [done|]. by apply conserved_handled.
    + apply (conserved_setWaiting_same c st); [done | done|]. by eapply conserved_frame.
Qed.

Lemma conserved_waits a w : a = Wake \/ a = Timeout -> conserved [] w -> after (conserved []) (perform a w).
Proof.
  intros Ha Hw. destruct Ha as [-> | ->]; simpl; unfold wake, timeout; destruct (stack w) as [|[] below] eqn:Es; cbn [after]; try done.
  - destruct (m_waitForSyncReplySemaphore w); [|done]. cbn [after]. eapply conserved_frame; [done|done|]. by conserve.
  - destruct (m_waitingForMessage _) as [st|] eqn:Ew; [|done]. destruct (conditionNotified st); [|done]. cbn [after].
    destruct (messageWaitingInterrupted st); [by eapply conserved_abandonWait|].
    apply (conserved_setWaiting_same c st); [done|done|]. by eapply conserved_frame.
  - by eapply conserved_finishSendSync.
  - by eapply conserved_abandonWait.
Qed.

Lemma conserved_close c w : conserved [] w -> conserved [] (connectionDidClose c w).
Proof.
  intros Hw. unfold connectionDidClose. cbv zeta.
  match goal with |- conserved [] (post _ (match m_waitingForMessage (connections ?x c) with _ => _ end)) =>
    assert (conserved [] x) as H1 by conserve; revert H1; generalize x end.
  intros w1 H1. destruct (m_waitingForMessage (connections w1 c)) as [st|] eqn:Ew; [|by conserve].
  apply (conserved_same _ (setWaiting c (Some (notify (st <| messageWaitingInterrupted := true |>))) w1)); [done..|].
  by apply (conserved_setWaiting_same c st).
Qed.

Lemma conserved_perform a w : conserved [] w -> after (conserved []) (perform a w).
Proof.
  intros Hw. destruct a as [c m|c|c can f| |c| | | |v k|c m o|c m o|c name d i ds|c st|e| |]; cbn [perform];
    try exact (conserved_waits Wake w (or_introl eq_refl) Hw); try exact (conserved_waits Timeout w (or_intror eq_refl) Hw);
    unfold when.
  - by apply conserved_processIncomingMessage.
  - by apply conserved_close.
  - unfold sendOutgoingMessages. cbn [after]. destruct can; [|done]. destruct (sendLoop _ _) as [sent queued].
    apply conserved_log; [|by conserve]. apply Forall_map, Forall_true. done.
  - destruct (mainQueue w) as [|t rest]; [done|]. destruct (inRunLoop w); [|done]. apply conserved_runTask. by conserve.
  - destruct (m_incomingMessagesThrottler _) as [t|]; [|done]. destruct (_ && _); [|done].
    apply conserved_dispatchIncomingMessages. by conserve.
  - by apply conserved_continue.
  - destruct (stack w) as [|[] below] eqn:Es; try exact I. destruct phase; [|exact I]. by eapply conserved_frame.
  - destruct (clientRunning w); [|done]. by apply conserved_sendMessage.
  - unfold createSyncMessageEncoder. destruct (clientRunning w); [|done]. apply conserved_sendSyncMessage. by conserve.
  - destruct (clientRunning w); [|done]. by apply conserved_waitForMessage.
  - destruct (clientRunning w); [|done]. apply conserved_onConnection; [|done].
    destruct st; try done. simpl. unfold enableIncomingMessagesThrottling. by destruct (isIncomingMessagesThrottlingEnabled _).
  - destruct (clientRunning w); [|done]. by cbn [after]; conserve.
  - destruct (clientRunning w); [|done]. by cbn [after]; conserve.
  - destruct (stack w) as [|[] below] eqn:Es; try done. by eapply conserved_drop.
Qed.

(** C9: No message is lost or duplicated by the connection: in every reachable state,
    for every message of every connection, the number of times it was received is the
    number of times it met its fate (delivered to the client, a work queue, a thread, a
    waiter, a reply handler or the sync sender, rejected as invalid, dropped by an
    invalid connection, or discarded by an abandoned wait) plus the number of times it
    is still held in a queue, by an activation or by a waiter. *)
Theorem received_messages_conserved w c m :
  rtc step initialWorld w ->
  occ (c, m) (receivedIn (log w)) = occ (c, m) (handledIn (log w)) + held c m w.
Proof.
  intros Hr. assert (conserved [] w) as Hw.
  { eapply rtc_invariant; [|exact Hr|]; [intros ? ? ? ?; eapply after_step; [|done]; intros; by apply conserved_perform|]. done. }
  specialize (Hw c m). simpl in Hw. lia.
Qed.

(** ** A thread that waits for a reply is always woken *)

(** Activations that are not the innermost step of a wait for a reply. *)
Definition dormant (f : Frame) : Prop :=
  match f with FWaitReplyHead _ _ | FWaitReplyBlocked _ _ | FRunLoop => False | _ => True end.
Definition awaitsReply (f : Frame) : Prop :=
  match f with FWaitReplyHead _ _ | FWaitReplyCheck _ _ | FWaitReplyBlocked _ _ => True | _ => False end.

(** Without nested run loops: a wait blocks only as the innermost activation, and the
    task that puts messages back runs from the outermost run loop. *)
Fixpoint shaped (frames : list Frame) : Prop :=
  match frames with
  | [] => True
  | f :: below =>
      f <> FRunLoop /\ (match f with FDispatchMessagesFor _ _ _ => below = [] | _ => True end) /\ Forall dormant below /\ shaped below
  end.

(** Messages to dispatch signal the semaphore, unless nobody waits for a reply or the
    waiting thread is about to look for them. *)
Definition signalled (w : World) : Prop :=
  m_messagesToDispatchWhileWaitingForSyncReply w = [] \/ m_waitForSyncReplySemaphore w = true \/ Forall (fun f => ~ awaitsReply f) (stack w).

(** The innermost request of [c] is answered, or never will be. *)
Definition answered (c : nat) (w : World) : bool :=
  match m_pendingSyncReplies (connections w c) with
  | p :: _ => didReceiveReply p || negb (m_shouldWaitForSyncReplies (connections w c))
  | [] => false
  end.

(** The thread is running its own or client code. *)
Record active (w : World) : Prop := {
  active_shaped : shaped (stack w);
  active_dormant : Forall dormant (stack w);
  active_signalled : signalled w
}.

Definition attentive (w : World) : Prop :=
  active w \/
  (exists c id below, stack w = FWaitReplyHead c id :: below /\ shaped (stack w)) \/
  (exists c id below, stack w = FWaitReplyBlocked c id :: below /\ shaped (stack w) /\ signalled w /\
     (answered c w = true -> m_waitForSyncReplySemaphore w = true)).

(** What the arrival of messages does to this. *)
Definition arrives (w w' : World) : Prop :=
  stack w' = stack w /\
  (m_messagesToDispatchWhileWaitingForSyncReply w' = m_messagesToDispatchWhileWaitingForSyncReply w \/ m_waitForSyncReplySemaphore w' = true) /\
  (m_waitForSyncReplySemaphore w = true -> m_waitForSyncReplySemaphore w' = true) /\
  forall c, answered c w' = true -> answered c w = true \/ m_waitForSyncReplySemaphore w' = true.

Lemma arrives_refl w : arrives w w.
Proof. split_and!; auto. Qed.

Lemma arrives_trans w w' w'' : arrives w w' -> arrives w' w'' -> arrives w w''.
Proof.
  intros (E1 & L1 & S1 & A1) (E2 & L2 & S2 & A2). split_and!; [congruence| |auto|].
  - destruct L2 as [->|]; [|auto]. destruct L1; auto.
  - intros c H. destruct (A2 c H) as [H'|]; [|auto]. destruct (A1 c H'); auto.
Qed.

Lemma arrives_signalled w w' : arrives w w' -> signalled w -> signalled w'.
Proof.
  intros (E & L & S & _) H. unfold signalled in *. rewrite E. destruct L as [->|]; [|auto]. destruct H as [|[|]]; auto.
Qed.

Lemma arrives_active w w' : arrives w w' -> active w -> active w'.
Proof. intros H [H1 H2 H3]. pose proof H as (E & _). split; rewrite ?E; [done|done|by eapply arrives_signalled]. Qed.

Lemma arrives_attentive w w' : arrives w w' -> attentive w -> attentive w'.
Proof.
  intros H [Ha|[(c & id & below & Es & Hs)|(c & id & below & Es & Hs & Hsig & Hans)]].
  - left. by eapply arrives_active.
  - right; left. exists c, id, below. destruct H as (E & _). by rewrite E.
  - right; right. exists c, id, below. pose proof H as (E & L & S & A). rewrite E. split_and!; [done|done|by eapply arrives_signalled|].
    intros Hc. destruct (A c Hc); auto.
Qed.

Lemma arrives_same w w' w'' :
  stack w'' = stack w' -> m_messagesToDispatchWhileWaitingForSyncReply w'' = m_messagesToDispatchWhileWaitingForSyncReply w' ->
  m_waitForSyncReplySemaphore w'' = m_waitForSyncReplySemaphore w' -> connections w'' = connections w' -> arrives w w' -> arrives w w''.
Proof.
  intros E1 E2 E3 E4 H. eapply arrives_trans; [exact H|]. unfold arrives, answered. rewrite E1, E2, E3, E4. split_and!; auto.
Qed.

(** The fields [answered] reads. *)
Definition replyState (conn : Connection) := (m_pendingSyncReplies conn, m_shouldWaitForSyncReplies conn).

Lemma arrives_onConnection w c f w' :
  replyState (f (connections w' c)) = replyState (connections w' c) -> arrives w w' -> arrives w (onConnection c f w').
Proof.
  intros E H. eapply arrives_trans; [exact H|]. split_and!; [done|by left|done|]. intros c' Ha. left. revert Ha. unfold answered.
  rewrite connections_onConnection. destruct (decide (c' = c)) as [->|]; [|done]. unfold replyState in E. injection E as -> ->. done.
Qed.

Lemma arrives_wakeUp w w' : arrives w w' -> arrives w (wakeUpClientRunLoop w').
Proof. intros H. eapply arrives_trans; [exact H|]. split_and!; auto. Qed.

Ltac arrives_step :=
  first
  [ assumption | apply arrives_refl | apply arrives_wakeUp
  | apply arrives_onConnection; [reflexivity |]
  | match goal with |- arrives _ (match ?x with _ => _ end) => destruct x eqn:? end
  | match goal with |- arrives ?w ?w'' =>
      match w'' with
      | record _ ?w' => apply (arrives_same w w'); [reflexivity | reflexivity | reflexivity | reflexivity |]
      | post _ ?w' => apply (arrives_same w w'); [reflexivity | reflexivity | reflexivity | reflexivity |]
      | update _ _ ?w' => apply (arrives_same w w'); [reflexivity | reflexivity | reflexivity | reflexivity |]
      end
    end ].
Ltac arrive := cbv zeta; repeat (arrives_step; cbv zeta).

Lemma acceptReply_head m b ps ps' l :
  acceptReply m b ps = Some (ps', l) ->
  l = b \/ match ps', ps with p' :: _, p :: _ => p' = p | _, _ => False end.
Proof.
  destruct ps as [|p ps]; simpl; [done|]. destruct (_ =? _); [intros [= <- <-]; by left|].
  destruct (acceptReply m false ps) as [[ps1 l1]|]; [|done]. intros [= <- <-]. by right.
Qed.

Lemma arrives_syncReply w0 c m w : arrives w0 w -> arrives w0 (processIncomingSyncReply c m w).
Proof.
  intros H. unfold processIncomingSyncReply. destruct (acceptReply m true _) as [[ps l]|] eqn:E; [|by arrive].
  eapply arrives_trans; [exact H|]. apply acceptReply_head in E. destruct l.
  - cbv zeta. eapply arrives_same; [done..|]. split_and!; auto.
  - destruct E as [|E]; [done|]. cbv zeta. eapply arrives_same; [done..|]. split_and!; auto. intros c' Ha. left.
    revert Ha. unfold answered. simpl. unfold upd. destruct (decide (c' = c)) as [->|]; [|done]. simpl.
    destruct ps, (m_pendingSyncReplies (connections w c)); try done. by rewrite E.
Qed.

Lemma arrives_append w0 c m w : arrives w0 w -> arrives w0 (appendForSyncWaiter c m w).
Proof.
  intros H. eapply arrives_trans; [exact H|]. unfold appendForSyncWaiter. cbv zeta.
  split_and!; [by destruct (shouldMaintainOrderingWithAsyncMessages m), (bool_decide _) | by right | done|]. intros c' Ha. by right.
Qed.

Lemma arrives_processIncomingMessage w0 c m w : arrives w0 w -> arrives w0 (processIncomingMessage c m w).
Proof.
  intros Hw. apply (processIncomingMessage_rule c m (arrives w0) (arrives w0)).
  - split; intros; unfold enqueueIncomingMessage, setWaiting; [|by apply arrives_append|..]; by arrive.
  - by arrive.
  - intros. by apply arrives_syncReply.
  - intros. by arrive.
  - intros. by arrive.
  - intros. unfold callIncomingSyncMessageCallbacks. by arrive.
Qed.

Lemma arrives_close w0 c w : arrives w0 w -> arrives w0 (connectionDidClose c w).
Proof.
  intros H. eapply arrives_trans; [exact H|]. unfold connectionDidClose, setWaiting. cbv zeta.
  match goal with |- arrives w (post _ ?x) => cut (arrives w x); [intros; by arrive|] end.
  match goal with |- arrives w (match m_waitingForMessage (connections ?x c) with _ => _ end) => cut (arrives w x); [intros; by arrive|] end.
  apply arrives_onConnection; [done|].
  destruct (bool_decide (length (m_pendingSyncReplies (connections w c)) = 0%nat)) eqn:E; simpl; split_and!; auto.
  intros c' Ha. left. revert Ha. unfold answered. simpl. unfold upd. destruct (decide (c' = c)) as [->|]; [|done]. simpl.
  apply bool_decide_eq_true, nil_length_inv in E. by rewrite E.
Qed.

Lemma signalled_same w w' :
  m_messagesToDispatchWhileWaitingForSyncReply w' = m_messagesToDispatchWhileWaitingForSyncReply w ->
  m_waitForSyncReplySemaphore w' = m_waitForSyncReplySemaphore w ->
  (Forall (fun f => ~ awaitsReply f) (stack w) -> Forall (fun f => ~ awaitsReply f) (stack w')) -> signalled w -> signalled w'.
Proof. intros E1 E2 H [|[|]]; unfold signalled; rewrite E1, E2; auto. Qed.

(** Pushing an activation that does not wait for a reply. *)
Lemma active_push f w :
  dormant f -> ~ awaitsReply f -> (match f with FDispatchMessagesFor _ _ _ => stack w = [] | _ => True end) ->
  active w -> active (push f w).
Proof.
  intros Hd Ha Hf [H1 H2 H3]. split; simpl.
  - split_and!; try done. by intros ->.
  - by constructor.
  - apply (signalled_same w); [done|done| |exact H3]. intros. by constructor.
Qed.

(** Replacing or dropping the innermost activation. *)
Lemma active_replace f below f' w :
  stack w = f :: below -> dormant f' -> (awaitsReply f' -> awaitsReply f) ->
  (match f' with FDispatchMessagesFor _ _ _ => below = [] | _ => True end) ->
  shaped (stack w) -> signalled w -> active (w <| stack := f' :: below |>).
Proof.
  intros Es Hd Ha Hf Hs Hsig. rewrite Es in Hs. destruct Hs as (_ & _ & Hb & Hs). split; simpl.
  - split_and!; try done. by intros ->.
  - by constructor.
  - apply (signalled_same w); [done|done| |exact Hsig]. rewrite Es. simpl. intros [Hn ?]%Forall_cons. constructor; [|done]. tauto.
Qed.

Lemma active_drop f below w : stack w = f :: below -> shaped (stack w) -> signalled w -> active (pop w).
Proof.
  intros Es Hs Hsig. rewrite Es in Hs. destruct Hs as (_ & _ & Hb & Hs). split; simpl; rewrite ?Es; simpl; [done|done|].
  apply (signalled_same w); [done|done| |exact Hsig]. simpl. rewrite Es. simpl. by intros [_ ?]%Forall_cons.
Qed.

Lemma active_dispatchMessages w : shaped (stack w) -> Forall dormant (stack w) -> active (dispatchMessages w).
Proof. intros Hs Hd. split; simpl; [by split_and! | by constructor | by left]. Qed.

Lemma active_dispatchMessage c m w : active w -> active (dispatchMessage c m w).
Proof.
  intros Hw. apply (dispatchMessage_rule c m active active (fun _ _ => active)); intros.
  - done.
  - eapply arrives_active; [|exact Hw]. arrive.
  - eapply arrives_active; [|exact Hw]. arrive.
  - eapply arrives_active; [|exact Hw]. unfold enterDispatch. arrive.
  - eapply (arrives_active (push (FDispatch c m marked old valid phase) w0)); [arrive|]. by apply active_push; auto.
  - subst. eapply arrives_active; [|eassumption]. apply arrives_onConnection; [|apply arrives_refl].
    unfold takeAsyncReplyHandler. destruct (asyncReplyHandlers _); [by destruct (isValidReplyKey id) | done].
  - eapply arrives_active; [|eassumption]. arrive.
  - eapply arrives_active; [|eassumption]. apply arrives_processIncomingMessage, arrives_refl.
  - destruct H. by apply active_dispatchMessages.
Qed.

Lemma arrives_appendOutgoing w0 c m o w : arrives w0 w -> arrives w0 (appendOutgoing c m o w).
Proof. intros. unfold appendOutgoing. by arrive. Qed.

Lemma attentive_sendSyncMessage c id m o w : active w -> attentive (sendSyncMessage c id m o w).
Proof.
  intros Hw. unfold sendSyncMessage. cbv zeta. destruct (_ || _).
  - left. eapply arrives_active; [|exact Hw]. unfold didFailToSendSyncMessage. arrive.
  - right; left. exists c, id, (stack w). destruct Hw. split; [done|]. simpl. by split_and!.
Qed.

Lemma attentive_sendMessage c m o w : active w -> attentive (sendMessage c m o w).
Proof.
  intros Hw. unfold sendMessage, createSyncMessageEncoder. cbv zeta. destruct (negb _); [by left|]. destruct (_ && _).
  - apply attentive_sendSyncMessage. eapply arrives_active; [|exact Hw]. arrive.
  - left. eapply arrives_active; [|exact Hw]. apply arrives_appendOutgoing, arrives_refl.
Qed.

Lemma active_sendSyncReply c m r w : active w -> active (sendSyncReply c (replyMessage m r) w).
Proof.
  intros Hw. unfold sendSyncReply, sendMessage. cbv zeta. destruct (negb _); [done|]. cbn [isSyncMessage messageReceiverName replyMessage].
  rewrite bool_decide_true by done. rewrite andb_false_r. cbn [andb].
  eapply arrives_active; [apply arrives_appendOutgoing, arrives_refl | done].
Qed.

Lemma active_finishDispatch c m k o v r f below w : stack w = f :: below -> active w -> active (finishDispatch c m k o v r w).
Proof.
  intros Es [Hs _ Hsig]. unfold finishDispatch. cbv zeta. pose proof (active_drop f below w Es Hs Hsig) as H.
  assert (active (match r with Some id => sendSyncReply c (replyMessage m id) (pop w) | None => pop w end)) as H1
    by (destruct r; [by apply active_sendSyncReply | done]).
  revert H1. generalize (match r with Some id => sendSyncReply c (replyMessage m id) (pop w) | None => pop w end). intros w1 H1.
  eapply arrives_active; [|exact H1]. arrive.
Qed.

(** The pending reply goes with its wait. *)
Lemma active_finishSendSync c id r f below w :
  stack w = f :: below -> shaped (stack w) -> signalled w -> active (finishSendSync c id r w).
Proof.
  intros Es Hs Hsig. unfold finishSendSync. cbv zeta. pose proof (active_drop f below w Es Hs Hsig) as [H1 H2 H3].
  match goal with |- active (record _ (match r with Some _ => ?w1 | None => _ end)) => assert (active w1) as H by (by split) end.
  eapply arrives_active; [|exact H]. unfold didFailToSendSyncMessage. arrive.
Qed.

Lemma active_abandonWait c f below w : stack w = f :: below -> shaped (stack w) -> signalled w -> active (abandonWait c w).
Proof.
  intros Es Hs Hsig. unfold abandonWait, setWaiting. cbv zeta. pose proof (active_drop f below w Es Hs Hsig) as H.
  generalize (match m_waitingForMessage (connections w c) with Some st => waitDecoder st | None => None end). intros lost.
  eapply arrives_active; [|exact H]. arrive.
Qed.

Lemma active_dispatchIncomingMessages c w : active w -> active (dispatchIncomingMessages c w).
Proof.
  intros Hw. unfold dispatchIncomingMessages. destruct (m_incomingMessages _) as [|m rest]; [done|].
  destruct (m_incomingMessagesThrottler _) as [t|]; [|done]. destruct (numberOfMessagesToProcess _ _) as [n level].
  apply active_dispatchMessage, active_push; [done|by intros []|done|].
  eapply arrives_active; [|exact Hw]. cbv zeta. destruct rest; [arrive|]. unfold scheduleMessagesDispatch. arrive.
Qed.

Lemma active_runTask t w : stack w = [] -> active w -> active (runTask t w).
Proof.
  intros Es Hw. destruct t as [c|c|c|c name|c]; cbn [runTask].
  - apply active_push; [done|by intros []|done|]. destruct Hw. split; [done|done|by left].
  - destruct (isIncomingMessagesThrottlingEnabled _); [by apply active_dispatchIncomingMessages|].
    unfold dispatchOneIncomingMessage. destruct (m_incomingMessages _); [done|]. apply active_dispatchMessage.
    eapply arrives_active; [|exact Hw]. arrive.
  - by apply active_dispatchIncomingMessages.
  - eapply arrives_active; [|exact Hw]. arrive.
  - eapply arrives_active; [|exact Hw]. unfold clearAsyncReplyHandlers. arrive.
Qed.

(** Unless the innermost activation waits for a reply, the thread is active. *)
Lemma attentive_active w : attentive w -> match stack w with f :: _ => dormant f | [] => True end -> active w.
Proof.
  intros [H|[(c & id & below & Es & _)|(c & id & below & Es & _)]] Hd; [done|..]; rewrite Es in Hd; done.
Qed.

Lemma attentive_continue w : attentive w -> after attentive (continue w).
Proof.
  intros Hat. unfold continue. destruct (stack w) as [|f below] eqn:Es; [done|].
  assert (dormant f -> active w) as Hact by (intros; apply attentive_active; [done|by rewrite Es]).
  destruct f as [c m k o v [r|r]|[|[c m] rest]|c [|[c' m] rest] pb|c [|n]|c id|c id|c id|c|c|c|]; cbn [after]; try done;
    try (destruct (Hact I) as [Hs Hd Hsig]).
  - left. by eapply active_finishDispatch.
  - left. by eapply active_drop.
  - left. apply active_dispatchMessage. eapply active_replace; first [done | by intros []].
  - left. rewrite Es in *. destruct Hs as (_ & -> & _ & _). split; simpl; rewrite ?Es; simpl; [done|by constructor|right; right; by constructor].
  - left. rewrite Es in Hs. destruct Hs as (_ & -> & _ & _).
    destruct (bool_decide (c = c')); [apply active_dispatchMessage|]; eapply active_replace; try done; try (by intros []); rewrite Es; split_and!; done.
  - left. by eapply active_drop.
  - left. destruct (m_incomingMessages (connections w c)); [by eapply active_drop|]. apply active_dispatchMessage.
    eapply (arrives_active (w <| stack := FDispatchIncoming c n :: below |>)); [arrive|]. eapply active_replace; first [done | by intros []].
  - left. destruct Hat as [[_ Hd _]|[(? & ? & ? & Es' & Hs)|(? & ? & ? & Es' & _)]].
    + rewrite Es in Hd. by apply Forall_cons in Hd as [[] _].
    + rewrite Es in Hs. destruct Hs as (_ & _ & Hb & Hs). apply active_dispatchMessages; simpl; [split_and!; done | by constructor].
    + congruence.
  - destruct (m_pendingSyncReplies _) as [|p ps] eqn:Ep; [left; eapply arrives_active; [|by apply Hact]; arrive|].
    destruct (_ || _) eqn:Eo; [left; by eapply active_finishSendSync|].
    destruct (negb (m_isValid _)); [left; by eapply active_finishSendSync|].
    right; right. exists c, id, below. split; [done|]. simpl. rewrite Es in Hs. destruct Hs as (_ & _ & Hb & Hs). split_and!; try done.
    + apply (signalled_same w); [done|done| |exact Hsig]. rewrite Es. simpl. intros [Hn ?]%Forall_cons. by constructor.
    + unfold answered. simpl. rewrite Ep, Eo. done.
  - left. rewrite Es in Hs. destruct Hs as (_ & _ & Hb & Hs). apply active_dispatchMessages; simpl; [split_and!; done | by constructor].
  - left. unfold setWaiting. destruct (m_waitingForMessage (connections w c)) as [st|]; [|eapply arrives_active; [|by apply Hact]; arrive].
    destruct (waitDecoder st).
    + eapply arrives_active; [|by eapply active_drop]. arrive.
    + eapply (arrives_active (w <| stack := FWaitMessageBlocked c :: below |>)); [arrive|]. eapply active_replace; first [done | by intros []].
Qed.

Lemma attentive_waits a w : a = Wake \/ a = Timeout -> attentive w -> after attentive (perform a w).
Proof.
  intros Ha Hat. destruct Ha as [-> | ->]; simpl; unfold wake, timeout; destruct (stack w) as [|f below] eqn:Es; try done;
    destruct f; cbn [after]; try done.
  - destruct (m_waitForSyncReplySemaphore w); [|done]. right; left. exists c, id, below. split; [done|]. simpl.
    destruct Hat as [[Hs _ _]|[(? & ? & ? & Es' & Hs)|(? & ? & ? & Es' & Hs & _)]]; rewrite Es in Hs; destruct Hs as (_ & _ & Hb & Hs); split_and!; done.
  - destruct (m_waitingForMessage _) as [st|] eqn:Ew; [|done]. destruct (conditionNotified st); [|done]. cbn [after]. left.
    destruct (attentive_active w Hat) as [Hs Hd Hsig]; [by rewrite Es|].
    destruct (messageWaitingInterrupted st); [by eapply active_abandonWait|]. unfold setWaiting.
    eapply (arrives_active (w <| stack := FWaitMessageHead c :: below |>)); [arrive|]. eapply active_replace; first [done | by intros []].
  - left. destruct Hat as [[Hs Hd Hsig]|[(? & ? & ? & Es' & Hs)|(? & ? & ? & Es' & Hs & Hsig & _)]]; [|congruence|];
      by eapply active_finishSendSync.
  - left. destruct (attentive_active w Hat) as [Hs Hd Hsig]; [by rewrite Es|]. by eapply active_abandonWait.
Qed.

Lemma clientRunning_active w : attentive w -> clientRunning w = true -> active w.
Proof.
  intros Hat Hc. apply attentive_active; [done|]. unfold clientRunning in Hc. destruct (stack w) as [|[] ?] eqn:Es; try done.
  destruct Hat as [[_ Hd _]|[(? & ? & ? & Es' & _)|(? & ? & ? & Es' & _)]]; [|congruence|congruence].
  rewrite Es in Hd. by apply Forall_cons in Hd as [? _].
Qed.

Lemma inRunLoop_empty w : attentive w -> inRunLoop w = true -> stack w = [] /\ active w.
Proof.
  intros Hat Hi. assert (active w) as H by (apply clientRunning_active; [done|]; unfold inRunLoop, clientRunning in *; by destruct (stack w) as [|[] ?]).
  split; [|done]. unfold inRunLoop in Hi. destruct H as [_ Hd _].
  destruct (stack w) as [|[] ?]; try done. by apply Forall_cons in Hd as [[] _].
Qed.

Lemma attentive_perform a w : a <> ClientNestRunLoop -> attentive w -> after attentive (perform a w).
Proof.
  intros Hn Hat. destruct a as [c m|c|c can f| |c| | | |v k|c m o|c m o|c name d i ds|c st|e| |]; cbn [perform];
    try exact (attentive_waits Wake w (or_introl eq_refl) Hat); try exact (attentive_waits Timeout w (or_intror eq_refl) Hat);
    unfold when.
  - eapply arrives_attentive; [apply arrives_processIncomingMessage, arrives_refl | done].
  - eapply arrives_attentive; [apply arrives_close, arrives_refl | done].
  - unfold sendOutgoingMessages. cbn [after]. destruct can; [|done]. destruct (sendLoop _ _) as [sent queued].
    eapply arrives_attentive; [|done]. arrive.
  - destruct (mainQueue w) as [|t rest]; [done|]. destruct (inRunLoop w) eqn:Ei; [|done]. destruct (inRunLoop_empty w Hat Ei) as [Es Hw].
    left. apply active_runTask; [done|]. eapply arrives_active; [|exact Hw]. arrive.
  - destruct (m_incomingMessagesThrottler _) as [t|]; [|done]. destruct (inRunLoop w && _) eqn:Ei; [|done]. apply andb_true_iff in Ei as [Ei _].
    destruct (inRunLoop_empty w Hat Ei) as [Es Hw]. left. apply active_dispatchIncomingMessages. eapply arrives_active; [|exact Hw]. arrive.
  - by apply attentive_continue.
  - destruct (stack w) as [|f below] eqn:Es; try exact I. destruct f; try exact I. destruct phase; [|exact I]. left.
    destruct (attentive_active w Hat) as [Hs Hd Hsig]; [by rewrite Es|]. eapply active_replace; first [done | by intros []].
  - destruct (clientRunning w) eqn:Ec; [|done]. by apply attentive_sendMessage, clientRunning_active.
  - unfold createSyncMessageEncoder. destruct (clientRunning w) eqn:Ec; [|done]. apply attentive_sendSyncMessage.
    eapply arrives_active; [|by apply clientRunning_active]. arrive.
  - destruct (clientRunning w) eqn:Ec; [|done]. left. pose proof (clientRunning_active w Hat Ec) as Hw. unfold waitForMessage, setWaiting. cbv zeta.
    destruct (m_waitingForMessage _); [eapply arrives_active; [|exact Hw]; arrive|]. destruct (negb _); [eapply arrives_active; [|exact Hw]; arrive|].
    destruct (takeMatching _ _ _) as [[m rest]|]; [eapply arrives_active; [|exact Hw]; arrive|].
    destruct (_ && _); [eapply arrives_active; [|exact Hw]; arrive|].
    apply active_push; [done|by intros []|done|]. eapply arrives_active; [|exact Hw]. arrive.
  - destruct (clientRunning w); [|done]. eapply arrives_attentive; [|done]. apply arrives_onConnection; [|apply arrives_refl].
    destruct st; try done. simpl. unfold enableIncomingMessagesThrottling. by destruct (isIncomingMessagesThrottlingEnabled _).
  - destruct (clientRunning w); [|done]. eapply arrives_attentive; [|done]. arrive.
  - done.
  - destruct (stack w) as [|f below] eqn:Es; try done. destruct f; try done.
    destruct Hat as [[_ Hd _]|[(? & ? & ? & Es' & _)|(? & ? & ? & Es' & _)]]; [|congruence|congruence]. rewrite Es in Hd. by apply Forall_cons in Hd as [[] _].
Qed.

(** Runs in which client code starts no nested run loop. *)
Definition stepUnnested (w w' : World) : Prop := exited w = false /\ exists a, a <> ClientNestRunLoop /\ perform a w = Some w'.

(** C11: No deadlock between synchronous senders: in every state reachable without
    nested run loops, if the main thread is blocked waiting for the reply to a sync
    request and its reply has arrived, or the connection closed, or any connection has
    a message that must be dispatched meanwhile, then the semaphore it is blocked on is
    signalled, so it wakes up and looks. *)
Theorem blocked_sync_send_is_woken w c id below :
  rtc stepUnnested initialWorld w -> stack w = FWaitReplyBlocked c id :: below ->
  answered c w = true \/ m_messagesToDispatchWhileWaitingForSyncReply w <> [] ->
  m_waitForSyncReplySemaphore w = true.
Proof.
  intros Hr Es Hwork. assert (attentive w) as Hat.
  { eapply (rtc_invariant stepUnnested); [|exact Hr|].
    - intros w0 w1 H0 (_ & a & Ha & E). pose proof (attentive_perform a w0 Ha H0) as H. by rewrite E in H.
    - left. split; simpl; [done|by constructor|by left]. }
  destruct Hat as [[_ Hd _]|[(? & ? & ? & Es' & _)|(c' & ? & ? & Es' & _ & Hsig & Hans)]].
  - rewrite Es in Hd. by apply Forall_cons in Hd as [[] _].
  - congruence.
  - rewrite Es in Es'. injection Es' as <- <- <-. destruct Hwork as [H|H]; [auto|].
    destruct Hsig as [|[|Hf]]; [done|done|]. rewrite Es in Hf. apply Forall_cons in Hf as [[] _]. exact I.
Qed.

End operations.

(** ** Concrete parameters, for the traces *)

(** Every key is valid but those [HashMap] reserves; nothing is wrapped. *)
Definition exampleReceiverIndex (r : ReceiverName) : Z :=
  match r with ReceiverIPC => 1 | ReceiverAsyncReply => 2 | OtherReceiver n => n end.
Definition exampleValidKey (k : Z * Z) : bool := negb (bool_decide (k = (0, 0))) && negb (fst k =? 255).
Definition exampleValidReplyKey (k : Z) : bool := negb (k =? 0) && negb (k =? 2 ^ 64 - 1).
Definition exampleRun : list Action -> World -> option World :=
  run exampleValidKey exampleValidReplyKey exampleReceiverIndex (fun w _ => w) (fun _ => None).

Definition asyncMessage (serial : nat) (name : Z) : Message :=
  mkMessage serial (OtherMessage name) (OtherReceiver 7) 1 false No false false None.
Definition syncMessage (serial : nat) (maintainOrdering : bool) : Message :=
  mkMessage serial (OtherMessage 100) (OtherReceiver 7) 1 true Yes maintainOrdering false (Some 1).

Definition dispatchOrder (w : World) : list nat :=
  omap (fun e => match e with Handled _ m ToClient => Some (serial m) | _ => None end) (log w).

Definition exampleStep : World -> World -> Prop :=
  step exampleValidKey exampleValidReplyKey exampleReceiverIndex (fun w _ => w) (fun _ => None).

Lemma example_reachable actions w : exampleRun actions initialWorld = Some w -> rtc exampleStep initialWorld w.
Proof. apply run_reachable. Qed.

(** The world after some actions. *)
Definition exampleWorld (actions : list Action) : World := default initialWorld (exampleRun actions initialWorld).

Lemma queued_messages_scheduled_witness :
  let w := exampleWorld [Receive 0 (asyncMessage 1 5)] in
  DispatchEnqueued 0 ∈ mainQueue w \/ DispatchThrottled 0 ∈ mainQueue w \/
  exists t, m_incomingMessagesThrottler (connections w 0%nat) = Some t /\ m_dispatchMessagesTimerActive t = true.
Proof.
  apply (queued_messages_scheduled exampleValidKey exampleValidReplyKey exampleReceiverIndex (fun w _ => w) (fun _ => None)).
  - apply (example_reachable [Receive 0 (asyncMessage 1 5)]). vm_compute. reflexivity.
  - vm_compute. discriminate.
Defined.

(** A sync send answered while it waits, with a sync message dispatched meanwhile. *)
Definition answeredSend : list Action :=
  [ClientSendSync 0 (syncMessage 9 false) (mkSendSyncOptions false false); Continue; Continue; Continue;
   Receive 0 (syncMessage 1 false); Wake; Continue; Continue; ClientReturn true false; Continue; Continue;
   Receive 0 (replyMessage (syncMessage 9 false) 1); Continue].

Lemma sync_send_returns_its_reply_witness :
  messageName (replyMessage (syncMessage 9 false) 1) = SyncMessageReply /\ destinationID (replyMessage (syncMessage 9 false) 1) = 1.
Proof.
  apply (sync_send_returns_its_reply exampleValidKey exampleValidReplyKey exampleReceiverIndex (fun w _ => w) (fun _ => None)
           (exampleWorld answeredSend) 0).
  - apply (example_reachable answeredSend). vm_compute. reflexivity.
  - apply (bool_decide_unpack _). vm_compute. exact I.
Defined.

Lemma pending_replies_match_waits_witness :
  m_pendingSyncReplies (connections (exampleWorld answeredSend) 0%nat) = [] /\
  m_inDispatchMessageCount (connections (exampleWorld answeredSend) 0%nat) = 0.
Proof.
  destruct (pending_replies_match_waits exampleValidKey exampleValidReplyKey exampleReceiverIndex (fun w _ => w) (fun _ => None)
    (exampleWorld answeredSend) 0) as [_ H].
  - apply (example_reachable answeredSend). vm_compute. reflexivity.
  - destruct H as (? & _ & _ & ? & _); [vm_compute; reflexivity|]. split; assumption.
Defined.

Lemma received_messages_conserved_witness :
  let w := exampleWorld answeredSend in
  occ (0%nat, syncMessage 1 false) (receivedIn (log w)) = occ (0%nat, syncMessage 1 false) (handledIn (log w)) + held 0 (syncMessage 1 false) w /\
  occ (0%nat, syncMessage 1 false) (handledIn (log w)) = 1.
Proof.
  split; [|vm_compute; reflexivity].
  apply (received_messages_conserved exampleValidKey exampleValidReplyKey exampleReceiverIndex (fun w _ => w) (fun _ => None)).
  apply (example_reachable answeredSend). vm_compute. reflexivity.
Defined.

Definition blockedSend : list Action :=
  [ClientSendSync 0 (syncMessage 9 false) (mkSendSyncOptions false false); Continue; Continue; Continue; Receive 1 (syncMessage 1 false)].

Lemma blocked_sync_send_is_woken_witness : m_waitForSyncReplySemaphore (exampleWorld blockedSend) = true.
Proof.
  apply (blocked_sync_send_is_woken exampleValidKey exampleValidReplyKey exampleReceiverIndex (fun w _ => w) (fun _ => None) _ 0 1 []).
  - eapply rtc_l; [split; [reflexivity|]; exists (ClientSendSync 0 (syncMessage 9 false) (mkSendSyncOptions false false)); split; [discriminate | vm_compute; reflexivity]|].
    do 3 (eapply rtc_l; [split; [reflexivity|]; exists Continue; split; [discriminate | vm_compute; reflexivity]|]).
    eapply rtc_l; [split; [reflexivity|]; exists (Receive 1 (syncMessage 1 false)); split; [discriminate | vm_compute; reflexivity]|].
    apply rtc_refl.
  - vm_compute. reflexivity.
  - right. vm_compute. discriminate.
Defined.

(** The throttler keeps the run loop responsive: with a throttling level in its
    range 0..9, a batch never exceeds 600 messages nor the queue, is at least 60
    messages when that many are queued, and the level stays in range, rising by at most
    one when more than 600 messages are queued and falling otherwise. *)
Theorem throttled_batch_bounds level total n level' :
  0 <= level <= maxThrottlingLevel -> 0 <= total -> numberOfMessagesToProcess level total = (n, level') ->
  0 <= n <= Z.min total maxIncomingMessagesDispatchingBatchSize /\ Z.min total 60 <= n /\
  0 <= level' <= maxThrottlingLevel /\
  (maxIncomingMessagesDispatchingBatchSize < total -> level <= level' <= level + 1) /\
  (total <= maxIncomingMessagesDispatchingBatchSize -> level' = Z.max 0 (level - 1)).
Proof.
  unfold numberOfMessagesToProcess, maxThrottlingLevel, maxIncomingMessagesDispatchingBatchSize. intros Hl Ht [= <- <-].
  assert (60 <= 600 / (level + 1) <= 600) as Hb.
  { split; [apply Z.div_le_lower_bound; lia | apply Z.div_le_upper_bound; lia]. }
  destruct (600 <? total) eqn:E; zbool; [split_and!; lia|]. destruct (level =? 0) eqn:E0; zbool; split_and!; lia.
Qed.

Lemma throttled_batch_bounds_witness :
  0 <= 120 <= Z.min 1000 600 /\ Z.min 1000 60 <= 120 /\ 0 <= 5 <= 9 /\ (600 < 1000 -> 4 <= 5 <= 4 + 1) /\ (1000 <= 600 -> 5 = Z.max 0 (4 - 1)).
Proof. apply (throttled_batch_bounds 4 1000 120 5); [unfold maxThrottlingLevel; lia | lia | reflexivity]. Defined.

(** Although a sync message that must keep its order first moves the queued
    asynchronous messages ahead of itself, messages can overtake: the task that was
    posted for a moved message stays in the run loop and dispatches a message that
    arrived after the sync message. Messages 1, 2 (sync, keeping order) and 3 arrive in
    this order and the client sees 3, 1, 2. *)
Theorem later_async_message_overtakes :
  exists w, exampleRun [Receive 0 (asyncMessage 1 5); Receive 0 (syncMessage 2 true); Receive 0 (asyncMessage 3 5);
      RunTask; ClientReturn true false; Continue; RunTask; Continue; ClientReturn true false; Continue; Continue] initialWorld = Some w /\
    dispatchOrder w = [3; 1; 2]%nat.
Proof. eexists. split; vm_compute; reflexivity. Qed.

(** [waitForMessage] can swallow the message it waits for: interrupted by a sync
    message, it discards its state although the awaited message arrived before the main
    thread ran again. The caller gets no message and the message reaches nobody. *)
Theorem interrupted_wait_loses_message :
  exists w, exampleRun [ClientWaitForMessage 0 (OtherMessage 5) 1 true false; Continue; Continue; Continue;
      Receive 0 (syncMessage 1 false); Receive 0 (asyncMessage 2 5); Wake] initialWorld = Some w /\
    Handled 0 (asyncMessage 2 5) LostByWaiter ∈ log w /\ WaitReturned 0 None ∈ log w /\
    m_incomingMessages (connections w 0%nat) = [syncMessage 1 false].
Proof.
  eexists. split; [vm_compute; reflexivity|]. split_and!; [..|reflexivity].
  all: rewrite list_elem_of_In; simpl; tauto.
Qed.

(** With [DispatchIncomingSyncMessagesWhileWaiting], a sync message that arrives
    after the waiting thread looked for messages to dispatch and before it blocks on the
    condition notifies nobody: the thread blocks with the message pending and only its
    deadline can wake it, while the sender waits for the reply. *)
Theorem wait_misses_sync_message :
  exists w, exampleRun [ClientWaitForMessage 0 (OtherMessage 5) 1 false true; Continue; Continue;
      Receive 0 (syncMessage 1 false); Continue] initialWorld = Some w /\
    stack w = [FWaitMessageBlocked 0] /\ m_messagesToDispatchWhileWaitingForSyncReply w = [(0%nat, syncMessage 1 false)] /\
    wake w = None.
Proof. eexists. split; [vm_compute; reflexivity|]. done. Qed.

(** Messages of one connection can be stranded by another: while the messages for
    connection 0 are dispatched, those of connection 1 are held aside, and if client code
    runs a nested run loop the task scheduled for connection 1 finds nothing. The
    messages are then put back with no task left to dispatch them. *)
Theorem put_back_messages_stranded :
  exists w, exampleRun [Receive 0 (syncMessage 1 false); Receive 1 (syncMessage 2 false);
      RunTask; Continue; ClientNestRunLoop; RunTask; Continue; ClientQuitRunLoop;
      ClientReturn true false; Continue; Continue; Continue] initialWorld = Some w /\
    stack w = [] /\ mainQueue w = [] /\
    m_messagesToDispatchWhileWaitingForSyncReply w = [(1%nat, syncMessage 2 false)].
Proof. eexists. split; [vm_compute; reflexivity|]. done. Qed.

End Connection.
