(* ===== verification/WebStorage.v ===== *)
(** * WebProcess/WebStorage/StorageAreaMap.cpp and NetworkProcess/WebStorage/StorageArea.cpp

    DOM storage: the area in the network process, which owns the items of an origin
    ([StorageArea]), the cached copies the web processes read and write
    ([StorageAreaMap]), and the messages between them (the handlers of
    [StorageManagerSet]).  WebCore's [StorageMap], which both sides use to hold items,
    is an interface here, with the laws its documentation states. *)

From S2P Require Import Prelude.

(** ** WebCore::StorageMap *)

(** A null [String] is [None]. *)
Class StorageMap (M : Type) := {
  createMap : Z -> M;                                     (* quota in bytes *)
  getItem : string -> M -> option string;
  trySetItem : string -> string -> M -> option string * bool * M;   (* old value, quota exception *)
  dropItem : string -> M -> option string * M;            (* old value *)
  setItemIgnoringQuota : string -> option string -> M -> M;
  importItems : gmap string string -> M -> M;
  items : M -> gmap string string
}.
#[global] Hint Mode StorageMap ! : typeclass_instances.

Class StorageMapLaws (M : Type) `{StorageMap M} := {
  getItem_create q k : getItem k (createMap q : M) = None;
  trySetItem_old k v (m : M) : fst (fst (trySetItem k v m)) = getItem k m;
  trySetItem_done k v (m : M) k' : snd (fst (trySetItem k v m)) = false ->
    getItem k' (snd (trySetItem k v m)) = if decide (k' = k) then Some v else getItem k' m;
  trySetItem_quota k v (m : M) : snd (fst (trySetItem k v m)) = true -> snd (trySetItem k v m) = m;
  dropItem_old k (m : M) : fst (dropItem k m) = getItem k m;
  getItem_drop k (m : M) k' : getItem k' (snd (dropItem k m)) = if decide (k' = k) then None else getItem k' m;
  getItem_setIgnoringQuota k v (m : M) k' :
    getItem k' (setItemIgnoringQuota k v m) = if decide (k' = k) then v else getItem k' m;
  getItem_import l (m : M) k : getItem k (importItems l m) = match l !! k with Some v => Some v | None => getItem k m end;
  items_lookup (m : M) k : items m !! k = getItem k m
}.
#[global] Hint Mode StorageMapLaws ! - : typeclass_instances.

Module WebStorage.

(** ** Messages *)

(** To the network process, with the sending area object and the seed of its cache. *)
Inductive ToServer :=
| SetItem (storageAreaImplID : Z) (seed : Z) (key value : string)
| RemoveItem (storageAreaImplID : Z) (seed : Z) (key : string)
| Clear (storageAreaImplID : Z) (seed : Z)
| DisconnectFromStorageArea.

(** To a web process; in a storage event a null key means clear and a null new value
    means remove. *)
Inductive FromServer :=
| DidSetItem (seed : Z) (key : string) (quotaError : bool)
| DidRemoveItem (seed : Z) (key : string)
| DidClear (seed : Z)
| DispatchStorageEvent (storageAreaImplID : option Z) (key oldValue newValue : option string)
| ClearCache.

Section storage.
Context {M : Type} `{StorageMap M}.

(** ** The cache in a web process *)

Record StorageAreaMap := mkAreaMap {
  m_map : option M;
  m_mapID : option Z;
  m_pendingValueChanges : gmap string nat;   (* HashCountedSet *)
  m_currentSeed : Z;
  m_hasPendingClear : bool;
  m_quotaInBytes : Z;
  m_useCount : Z
}.
#[global] Instance eta_AreaMap : Eta StorageAreaMap := fun r =>
  mkAreaMap (m_map r) (m_mapID r) (m_pendingValueChanges r) (m_currentSeed r) (m_hasPendingClear r) (m_quotaInBytes r) (m_useCount r).

Definition addPending (key : string) (changes : gmap string nat) : gmap string nat :=
  <[key := S (default 0%nat (changes !! key))]> changes.
Definition removePending (key : string) (changes : gmap string nat) : gmap string nat :=
  match changes !! key with
  | Some (S (S n)) => <[key := S n]> changes
  | Some _ => delete key changes
  | None => changes
  end.

Definition resetValues (a : StorageAreaMap) : StorageAreaMap :=
  a <| m_map := None |> <| m_pendingValueChanges := ∅ |> <| m_hasPendingClear := false |>
    <| m_currentSeed := wrap 64 (m_currentSeed a + 1) |>.

(** [connect]; [reply] is the network process' answer to the connection request. *)
Definition connect (reply : option Z) (a : StorageAreaMap) : StorageAreaMap :=
  match m_mapID a with Some _ => a | None => a <| m_mapID := reply |> end.

(** [ensureMap]; [values] is the answer to [GetValues]. *)
Definition ensureMap (reply : option Z) (values : gmap string string) (a : StorageAreaMap) : M * StorageAreaMap :=
  let a := connect reply a in
  match m_map a with
  | Some m => (m, a)
  | None =>
      let m := createMap (m_quotaInBytes a) in
      let m := match m_mapID a with Some _ => importItems values m | None => m end in
      (m, a <| m_map := Some m |>)
  end.

Definition ifConnected (a : StorageAreaMap) (message : ToServer) : list ToServer :=
  match m_mapID a with Some _ => [message] | None => [] end.

Definition item (reply : option Z) (values : gmap string string) (key : string) (a : StorageAreaMap) : option string * StorageAreaMap :=
  let '(m, a) := ensureMap reply values a in (getItem key m, a).

(** [setItem]: the quota exception, the new state and what is sent. *)
Definition setItem (reply : option Z) (values : gmap string string) (sourceArea : Z) (key value : string) (a : StorageAreaMap)
  : bool * StorageAreaMap * list ToServer :=
  let '(m, a) := ensureMap reply values a in
  let '(oldValue, quotaException, m') := trySetItem key value m in
  let a := a <| m_map := Some m' |> in
  if quotaException then (true, a, [])
  else if decide (oldValue = Some value) then (false, a, [])
  else
    let a := a <| m_pendingValueChanges := addPending key (m_pendingValueChanges a) |> in
    (false, a, ifConnected a (SetItem sourceArea (m_currentSeed a) key value)).

Definition removeItem (reply : option Z) (values : gmap string string) (sourceArea : Z) (key : string) (a : StorageAreaMap)
  : StorageAreaMap * list ToServer :=
  let '(m, a) := ensureMap reply values a in
  let '(oldValue, m') := dropItem key m in
  let a := a <| m_map := Some m' |> in
  match oldValue with
  | None => (a, [])
  | Some _ =>
      let a := a <| m_pendingValueChanges := addPending key (m_pendingValueChanges a) |> in
      (a, ifConnected a (RemoveItem sourceArea (m_currentSeed a) key))
  end.

Definition clear (reply : option Z) (sourceArea : Z) (a : StorageAreaMap) : StorageAreaMap * list ToServer :=
  let a := resetValues (connect reply a) in
  let a := a <| m_hasPendingClear := true |> <| m_map := Some (createMap (m_quotaInBytes a)) |> in
  (a, ifConnected a (Clear sourceArea (m_currentSeed a))).

Definition didSetItem (mapSeed : Z) (key : string) (quotaError : bool) (a : StorageAreaMap) : StorageAreaMap :=
  if negb (m_currentSeed a =? mapSeed) then a
  else if quotaError then resetValues a
  else a <| m_pendingValueChanges := removePending key (m_pendingValueChanges a) |>.

Definition didRemoveItem (mapSeed : Z) (key : string) (a : StorageAreaMap) : StorageAreaMap :=
  if negb (m_currentSeed a =? mapSeed) then a
  else a <| m_pendingValueChanges := removePending key (m_pendingValueChanges a) |>.

Definition didClear (mapSeed : Z) (a : StorageAreaMap) : StorageAreaMap :=
  if negb (m_currentSeed a =? mapSeed) then a else a <| m_hasPendingClear := false |>.

Definition shouldApplyChangeForKey (key : string) (a : StorageAreaMap) : bool :=
  match m_map a with
  | None => false
  | Some _ => bool_decide (m_pendingValueChanges a !! key = None)
  end.

(** The copy of the locally changed items after a clear: the loop over the pending
    changes, with the values of the old map. *)
Definition keepPending (m : M) (newMap : M) (changes : list (string * nat)) : M :=
  fold_left (fun newMap change =>
    match getItem (fst change) m with
    | None => newMap
    | Some _ => setItemIgnoringQuota (fst change) None newMap    (* oldValue, not value *)
    end) changes newMap.

(** [applyChange]; [Undefined] where a null map is dereferenced. *)
Definition applyChange (key newValue : option string) (a : StorageAreaMap) : outcome StorageAreaMap :=
  if m_hasPendingClear a then Done a
  else
    match key with
    | None =>
        let newMap := createMap (m_quotaInBytes a) in
        match m_map a, map_to_list (m_pendingValueChanges a) with
        | _, [] => Done (a <| m_map := Some newMap |>)
        | Some m, changes => Done (a <| m_map := Some (keepPending m newMap changes) |>)
        | None, _ => Undefined
        end
    | Some key =>
        if negb (shouldApplyChangeForKey key a) then Done a
        else
          match m_map a with
          | None => Done a
          | Some m =>
              match newValue with
              | None => Done (a <| m_map := Some (snd (dropItem key m)) |>)
              | Some v => Done (a <| m_map := Some (setItemIgnoringQuota key (Some v) m) |>)
              end
          end
    end.

Definition dispatchStorageEvent (storageAreaImplID : option Z) (key newValue : option string) (a : StorageAreaMap) : outcome StorageAreaMap :=
  match storageAreaImplID with None => applyChange key newValue a | Some _ => Done a end.

Definition clearCache : StorageAreaMap -> StorageAreaMap := resetValues.

Definition disconnect (a : StorageAreaMap) : StorageAreaMap * list ToServer :=
  match m_mapID a with
  | None => (a, [])
  | Some _ => ((resetValues a) <| m_mapID := None |>, [DisconnectFromStorageArea])
  end.

Definition incrementUseCount (a : StorageAreaMap) : StorageAreaMap := a <| m_useCount := wrap 32 (m_useCount a + 1) |>.
(** Whether the namespace is to destroy the map. *)
Definition decrementUseCount (a : StorageAreaMap) : bool * StorageAreaMap :=
  let a := a <| m_useCount := wrap 32 (m_useCount a - 1) |> in (m_useCount a =? 0, a).

Definition didReceiveMessage (message : FromServer) (a : StorageAreaMap) : outcome StorageAreaMap :=
  match message with
  | DidSetItem seed key quotaError => Done (didSetItem seed key quotaError a)
  | DidRemoveItem seed key => Done (didRemoveItem seed key a)
  | DidClear seed => Done (didClear seed a)
  | DispatchStorageEvent source key _ newValue => dispatchStorageEvent source key newValue a
  | ClearCache => Done (clearCache a)
  end.

(** ** The area in the network process *)

Inductive DatabaseOperation := DatabaseSet (key value : string) | DatabaseRemove (key : string) | DatabaseClear.

Record StorageArea := mkArea {
  m_isEphemeral : bool;                                 (* no local storage namespace *)
  a_quotaInBytes : Z;
  m_storageMap : M;
  m_localStorageDatabase : option (list DatabaseOperation);  (* open, with the operations handed to it *)
  m_didImportItemsFromDatabase : bool;
  m_eventListeners : list nat;                          (* connections, in the set's iteration order *)
  onMainThread : list (nat * FromServer)                (* sends posted to the main run loop *)
}.
#[global] Instance eta_Area : Eta StorageArea := fun r =>
  mkArea (m_isEphemeral r) (a_quotaInBytes r) (m_storageMap r) (m_localStorageDatabase r) (m_didImportItemsFromDatabase r)
    (m_eventListeners r) (onMainThread r).

Definition createArea (ephemeral : bool) (quota : Z) : StorageArea := mkArea ephemeral quota (createMap quota) None false [] [].

(** [stored] is what the database file holds when it is first opened. *)
Definition openDatabaseAndImportItemsIfNeeded (stored : gmap string string) (s : StorageArea) : StorageArea :=
  if m_isEphemeral s then s
  else
    let s := match m_localStorageDatabase s with Some _ => s | None => s <| m_localStorageDatabase := Some [] |> end in
    if m_didImportItemsFromDatabase s then s
    else s <| m_storageMap := importItems stored (m_storageMap s) |> <| m_didImportItemsFromDatabase := true |>.

Definition addListener (stored : gmap string string) (connection : nat) (s : StorageArea) : StorageArea :=
  let s := if bool_decide (m_eventListeners s = []) && negb (m_isEphemeral s)
           then openDatabaseAndImportItemsIfNeeded stored s else s in
  s <| m_eventListeners := m_eventListeners s ++ [connection] |>.

(** Whether the namespace is to drop the area (and the database to be written out). *)
Definition removeListener (connection : nat) (s : StorageArea) : bool * StorageArea :=
  let s := s <| m_eventListeners := List.filter (fun c => negb (bool_decide (c = connection))) (m_eventListeners s) |> in
  (bool_decide (m_eventListeners s = []) && negb (m_isEphemeral s), s).

Definition hasListener (connection : nat) (s : StorageArea) : bool := bool_decide (connection ∈ m_eventListeners s).

Definition clone (s : StorageArea) : StorageArea := (createArea true (a_quotaInBytes s)) <| m_storageMap := m_storageMap s |>.

Definition dispatchEvents (source : nat) (storageAreaImplID : Z) (key oldValue newValue : option string) (s : StorageArea) : StorageArea :=
  s <| onMainThread := onMainThread s ++ map (fun listener =>
         (listener, DispatchStorageEvent (if bool_decide (listener = source) then Some storageAreaImplID else None) key oldValue newValue))
         (m_eventListeners s) |>.

Definition writeDatabase (op : DatabaseOperation) (s : StorageArea) : StorageArea :=
  match m_localStorageDatabase s with
  | Some ops => s <| m_localStorageDatabase := Some (ops ++ [op]) |>
  | None => s
  end.

Definition areaSetItem (stored : gmap string string) (source : nat) (storageAreaImplID : Z) (key value : string) (s : StorageArea)
  : bool * StorageArea :=
  let s := openDatabaseAndImportItemsIfNeeded stored s in
  let '(oldValue, quotaException, m') := trySetItem key value (m_storageMap s) in
  let s := s <| m_storageMap := m' |> in
  if quotaException then (true, s)
  else (false, dispatchEvents source storageAreaImplID (Some key) oldValue (Some value) (writeDatabase (DatabaseSet key value) s)).

Definition areaRemoveItem (stored : gmap string string) (source : nat) (storageAreaImplID : Z) (key : string) (s : StorageArea) : StorageArea :=
  let s := openDatabaseAndImportItemsIfNeeded stored s in
  let '(oldValue, m') := dropItem key (m_storageMap s) in
  let s := s <| m_storageMap := m' |> in
  match oldValue with
  | None => s
  | Some _ => dispatchEvents source storageAreaImplID (Some key) oldValue None (writeDatabase (DatabaseRemove key) s)
  end.

(** [m_storageMap->length()] is the number of items. *)
Definition areaClear (stored : gmap string string) (source : nat) (storageAreaImplID : Z) (s : StorageArea) : StorageArea :=
  let s := openDatabaseAndImportItemsIfNeeded stored s in
  if decide (items (m_storageMap s) = ∅) then s
  else
    dispatchEvents source storageAreaImplID None None None
      (writeDatabase DatabaseClear (s <| m_storageMap := createMap (a_quotaInBytes s) |>)).

Definition areaItems (stored : gmap string string) (s : StorageArea) : gmap string string * StorageArea :=
  let s := openDatabaseAndImportItemsIfNeeded stored s in (items (m_storageMap s), s).

(** [clear()] without a source: the data is deleted under the pages. *)
Definition areaDelete (s : StorageArea) : StorageArea :=
  s <| m_storageMap := createMap (a_quotaInBytes s) |> <| m_localStorageDatabase := None |>
    <| onMainThread := onMainThread s ++ map (fun listener => (listener, ClearCache)) (m_eventListeners s) |>.

(** [StorageManagerSet]'s handlers: the operation, then the acknowledgement, which is
    sent from the work queue itself. *)
Definition handleSetItem stored source area seed key value (s : StorageArea) : StorageArea * list FromServer :=
  let '(quotaError, s) := areaSetItem stored source area key value s in (s, [DidSetItem seed key quotaError]).
Definition handleRemoveItem stored source area seed key (s : StorageArea) : StorageArea * list FromServer :=
  (areaRemoveItem stored source area key s, [DidRemoveItem seed key]).
Definition handleClear stored source area seed (s : StorageArea) : StorageArea * list FromServer :=
  (areaClear stored source area s, [DidClear seed]).

Definition handleMessage (stored : gmap string string) (source : nat) (message : ToServer) (s : StorageArea) : StorageArea * list FromServer :=
  match message with
  | SetItem area seed key value => handleSetItem stored source area seed key value s
  | RemoveItem area seed key => handleRemoveItem stored source area seed key s
  | Clear area seed => handleClear stored source area seed s
  | DisconnectFromStorageArea => (snd (removeListener source s), [])
  end.

(** ** The processes together *)

(** One area, the caches of the web processes and the messages under way, oldest first. *)
Record System := mkSystem {
  area : StorageArea;
  clients : nat -> StorageAreaMap;
  toServer : nat -> list ToServer;
  toClient : nat -> list FromServer
}.
#[global] Instance eta_System : Eta System := fun r => mkSystem (area r) (clients r) (toServer r) (toClient r).

Definition newClient (quota : Z) : StorageAreaMap := mkAreaMap None None ∅ 0 false quota 0.
Definition initialSystem (ephemeral : bool) (quota : Z) : System :=
  mkSystem (createArea ephemeral quota) (fun _ => newClient quota) (fun _ => []) (fun _ => []).

Context (stored : gmap string string).

(** Storing the client's new state and sending its messages. *)
Definition clientDid (i : nat) (a : StorageAreaMap) (sent : list ToServer) (s : System) : System :=
  s <| clients := upd i a (clients s) |> <| toServer := upd i (toServer s i ++ sent) (toServer s) |>.

(** The network process takes the oldest message of client [i]. *)
Definition serverReceive (i : nat) (s : System) : option System :=
  match toServer s i with
  | [] => None
  | message :: rest =>
      let '(area', acks) := handleMessage stored i message (area s) in
      Some (s <| area := area' |> <| toServer := upd i rest (toServer s) |> <| toClient := upd i (toClient s i ++ acks) (toClient s) |>)
  end.

(** The network process' main thread performs the oldest send posted to it. *)
Definition mainThreadSends (s : System) : option System :=
  match onMainThread (area s) with
  | [] => None
  | (i, message) :: rest =>
      Some (s <| area := (area s) <| onMainThread := rest |> |> <| toClient := upd i (toClient s i ++ [message]) (toClient s) |>)
  end.

(** Client [i] takes the oldest message sent to it; [None] also if it crashes. *)
Definition clientReceive (i : nat) (s : System) : option System :=
  match toClient s i with
  | [] => None
  | message :: rest =>
      match didReceiveMessage message (clients s i) with
      | Done a => Some (s <| clients := upd i a (clients s) |> <| toClient := upd i rest (toClient s) |>)
      | _ => None
      end
  end.

Inductive Action :=
| ConnectClient (i : nat)
| Load (i : nat)                                (* any read: ensureMap *)
| SetLocal (i : nat) (key value : string)
| RemoveLocal (i : nat) (key : string)
| ClearLocal (i : nat)
| ServerReceives (i : nat) | MainThreadSends | ClientReceives (i : nat)
| DeleteData.

(** The values are fetched with a sync message, answered after all the client sent. *)
Definition mayRead (i : nat) (s : System) : bool :=
  match m_mapID (clients s i), m_map (clients s i), toServer s i with
  | Some _, Some _, _ => true
  | Some _, None, [] => true
  | _, _, _ => false
  end.

Definition act (a : Action) (s : System) : option System :=
  let values := items (m_storageMap (area s)) in
  match a with
  | ConnectClient i =>
      match m_mapID (clients s i) with
      | Some _ => None
      | None => Some (s <| area := addListener stored i (area s) |> <| clients := upd i (connect (Some 1) (clients s i)) (clients s) |>)
      end
  | Load i => if mayRead i s then Some (clientDid i (snd (ensureMap None values (clients s i))) [] s) else None
  | SetLocal i key value =>
      if mayRead i s then let '(_, a, sent) := setItem None values (Z.of_nat i) key value (clients s i) in Some (clientDid i a sent s) else None
  | RemoveLocal i key =>
      if mayRead i s then let '(a, sent) := removeItem None values (Z.of_nat i) key (clients s i) in Some (clientDid i a sent s) else None
  | ClearLocal i =>
      match m_mapID (clients s i) with
      | Some _ => let '(a, sent) := clear None (Z.of_nat i) (clients s i) in Some (clientDid i a sent s)
      | None => None
      end
  | ServerReceives i => serverReceive i s
  | MainThreadSends => mainThreadSends s
  | ClientReceives i => clientReceive i s
  | DeleteData => Some (s <| area := areaDelete (area s) |>)
  end.

Fixpoint runActions (actions : list Action) (s : System) : option System :=
  match actions with
  | [] => Some s
  | a :: rest => match act a s with Some s' => runActions rest s' | None => None end
  end.

(** The main thread performs all the sends posted to it. *)
Fixpoint drainFuel (n : nat) (s : System) : System :=
  match n with
  | O => s
  | S n' => match mainThreadSends s with Some s' => drainFuel n' s' | None => s end
  end.
Definition drain (s : System) : System := drainFuel (length (onMainThread (area s))) s.

(** Runs without clears in which the main thread of the network process is prompt: it
    performs the sends of an operation before the next operation is handled. *)
Inductive promptStep (s s' : System) : Prop :=
| PromptClient a : (match a with ConnectClient _ | Load _ | SetLocal _ _ _ | RemoveLocal _ _ | ClientReceives _ => True | _ => False end) ->
    act a s = Some s' -> promptStep s s'
| PromptServer i s1 : act (ServerReceives i) s = Some s1 -> s' = drain s1 -> promptStep s s'.

(** No message is under way. *)
Definition quiescent (s : System) : Prop := (forall i, toServer s i = [] /\ toClient s i = []) /\ onMainThread (area s) = [].

End storage.

(** ** Coherence of the caches *)

Section coherence.
Context {M : Type} `{HM : StorageMap M} {HL : StorageMapLaws M}.
Context (stored : gmap string string).
(** The area has no effective quota, as session storage areas. *)
Context (unlimited : forall k v (m : M), snd (fst (trySetItem k v m)) = false).

Implicit Types (s : System (M := M)).

(** What a queue of messages means for one key. *)
Inductive KeyMessage := Ack | Other (value : option string).

Definition keyMessage (k : string) (message : FromServer) : option KeyMessage :=
  match message with
  | DidSetItem _ k' _ | DidRemoveItem _ k' => if decide (k' = k) then Some Ack else None
  | DispatchStorageEvent None (Some k') _ v => if decide (k' = k) then Some (Other v) else None
  | _ => None
  end.
Definition view (k : string) : list FromServer -> list KeyMessage := omap (keyMessage k).

Definition keyOperation (k : string) (message : ToServer) : option (option string) :=
  match message with
  | SetItem _ _ k' v => if decide (k' = k) then Some (Some v) else None
  | RemoveItem _ _ k' => if decide (k' = k) then Some None else None
  | _ => None
  end.
Definition operations (k : string) : list ToServer -> list (option string) := omap (keyOperation k).

(** Delivering the messages to a cache that holds [v] for the key with [n] pending changes. *)
Fixpoint simulate (n : nat) (v : option string) (l : list KeyMessage) : option string :=
  match l with
  | [] => v
  | Ack :: l' => simulate (pred n) v l'
  | Other x :: l' => simulate n (if decide (n = 0%nat) then x else v) l'
  end.
Fixpoint acks (l : list KeyMessage) : nat :=
  match l with [] => 0 | Ack :: l' => S (acks l') | Other _ :: l' => acks l' end.

Lemma acks_app l l' : acks (l ++ l') = (acks l + acks l')%nat.
Proof. induction l as [|[] l IH]; simpl; [done|by rewrite IH|done]. Qed.

Lemma simulate_app n v l l' : simulate n v (l ++ l') = simulate (n - acks l) (simulate n v l) l'.
Proof.
  revert n v. induction l as [|[|x] l IH]; intros n v; simpl; [by rewrite Nat.sub_0_r|..]; rewrite IH; [|done].
  f_equal. lia.
Qed.

(** More pending changes than acknowledgements mask every event. *)
Lemma simulate_masked n v l : (acks l < n)%nat -> simulate n v l = v.
Proof.
  revert n. induction l as [|[|x] l IH]; intros n Hn; simpl in *; [done|apply IH; lia|]. rewrite decide_False by lia. by apply IH.
Qed.

Lemma simulate_last v v' l : acks l = 0%nat -> l <> [] -> simulate 0 v l = simulate 0 v' l.
Proof. destruct l as [|[|x] l]; simpl; done. Qed.

Definition pendingCount (k : string) (a : StorageAreaMap (M := M)) : nat := default 0%nat (m_pendingValueChanges a !! k).
Definition areaItem (k : string) (s : System (M := M)) : option string := getItem k (m_storageMap (area s)).

(** Messages of runs without clears, for caches whose seed is 0. *)
Definition plainFromServer (m : FromServer) : Prop :=
  match m with
  | DidSetItem seed _ quotaError => seed = 0 /\ quotaError = false
  | DidRemoveItem seed _ => seed = 0
  | DispatchStorageEvent _ (Some _) _ _ => True
  | _ => False
  end.
Definition plainToServer (m : ToServer) : Prop :=
  match m with SetItem _ seed _ _ | RemoveItem _ seed _ => seed = 0 | _ => False end.

(** The cache of client [i] and the messages under way determine the area's item. *)
Definition keyCoherent (i : nat) (s : System) (k : string) : Prop :=
  match m_map (clients s i) with
  | None => operations k (toServer s i) = [] /\ acks (view k (toClient s i)) = 0%nat /\
      simulate 0 (areaItem k s) (view k (toClient s i)) = areaItem k s
  | Some m =>
      pendingCount k (clients s i) = (length (operations k (toServer s i)) + acks (view k (toClient s i)))%nat /\
      match last (operations k (toServer s i)) with
      | Some v => getItem k m = v
      | None => simulate (pendingCount k (clients s i)) (getItem k m) (view k (toClient s i)) = areaItem k s
      end
  end.

Record clientOk (i : nat) (s : System) : Prop := {
  ok_seed : m_currentSeed (clients s i) = 0;
  ok_clear : m_hasPendingClear (clients s i) = false;
  ok_fromServer : Forall plainFromServer (toClient s i);
  ok_toServer : Forall plainToServer (toServer s i);
  ok_counts : forall k, m_pendingValueChanges (clients s i) !! k <> Some 0%nat;
  ok_unloaded : m_map (clients s i) = None -> m_pendingValueChanges (clients s i) = ∅ /\ toServer s i = [];
  ok_unconnected : m_mapID (clients s i) = None -> m_map (clients s i) = None /\ toClient s i = [];
  ok_listener : m_mapID (clients s i) <> None <-> i ∈ m_eventListeners (area s);
  ok_keys : forall k, m_mapID (clients s i) <> None -> keyCoherent i s k
}.

Record systemOk (s : System) : Prop := {
  sys_clients : forall i, clientOk i s;
  sys_main : onMainThread (area s) = [];
  sys_listeners : NoDup (m_eventListeners (area s));
  sys_imported : m_eventListeners (area s) <> [] -> m_isEphemeral (area s) = true \/ m_didImportItemsFromDatabase (area s) = true
}.

Lemma pending_add k k' a changes :
  m_pendingValueChanges a = addPending k changes ->
  pendingCount k' a = (default 0%nat (changes !! k') + if decide (k' = k) then 1 else 0)%nat.
Proof.
  intros E. unfold pendingCount. rewrite E. unfold addPending. destruct (decide (k' = k)) as [->|].
  - rewrite lookup_insert_eq. simpl. lia.
  - rewrite lookup_insert_ne by done. lia.
Qed.

Lemma removePending_lookup k k' changes :
  changes !! k <> Some 0%nat ->
  default 0%nat (removePending k changes !! k') = if decide (k' = k) then pred (default 0%nat (changes !! k)) else default 0%nat (changes !! k').
Proof.
  intros H0. unfold removePending. destruct (changes !! k) as [[|[|n]]|] eqn:E; try done; destruct (decide (k' = k)) as [->|];
    rewrite ?lookup_delete_eq, ?lookup_insert_eq, ?lookup_delete_ne, ?lookup_insert_ne, ?E by done; done.
Qed.

Lemma removePending_nonzero k k' changes : changes !! k' <> Some 0%nat -> removePending k changes !! k' <> Some 0%nat.
Proof.
  intros H0. unfold removePending. destruct (changes !! k) as [[|[|n]]|] eqn:E; try done; destruct (decide (k' = k)) as [->|];
    rewrite ?lookup_delete_eq, ?lookup_insert_eq, ?lookup_delete_ne, ?lookup_insert_ne by done; done.
Qed.

Lemma addPending_nonzero k k' changes : changes !! k' <> Some 0%nat -> addPending k changes !! k' <> Some 0%nat.
Proof.
  intros H0. unfold addPending. destruct (decide (k' = k)) as [->|]; [by rewrite lookup_insert_eq | by rewrite lookup_insert_ne].
Qed.

(** *** Local operations *)

(** A client that only changes its own state and queue leaves the others alone. *)
Lemma clientDid_others i j a sent s : j <> i -> clientOk j s -> clientOk j (clientDid i a sent s).
Proof.
  intros Hj [H1 H2 H3 H4 H5 H6 H7 H8 H9]. split; simpl; rewrite ?upd_other by done; try done.
  intros k Hk. specialize (H9 k Hk). unfold keyCoherent in *. simpl. by rewrite !upd_other.
Qed.

Lemma clientDid_ok i a sent s : (forall j, clientOk j s) -> clientOk i (clientDid i a sent s) -> forall j, clientOk j (clientDid i a sent s).
Proof. intros H Hi j. destruct (decide (j = i)) as [->|]; [done | by apply clientDid_others]. Qed.

Lemma mayRead_connected i s : mayRead i s = true -> m_mapID (clients s i) <> None.
Proof. unfold mayRead. by destruct (m_mapID (clients s i)). Qed.

(** Loading the values makes the cache a coherent copy of the area. *)
Lemma load_ok i s :
  systemOk s -> mayRead i s = true ->
  clientOk i (clientDid i (snd (ensureMap None (items (m_storageMap (area s))) (clients s i))) [] s).
Proof.
  intros Hs Hr. pose proof (mayRead_connected i s Hr) as Hc. destruct (sys_clients s Hs i) as [H1 H2 H3 H4 H5 H6 H7 H8 H9].
  unfold ensureMap, connect. destruct (m_mapID (clients s i)) as [id|] eqn:Eid; [|done].
  destruct (m_map (clients s i)) as [m|] eqn:Em.
  - simpl. split; simpl; rewrite ?upd_same, ?app_nil_r; try done; try congruence.
    intros k _. specialize (H9 k Hc). unfold keyCoherent in *. simpl. by rewrite !upd_same, Em, app_nil_r in *.
  - rewrite Eid. simpl. destruct (H6 eq_refl) as [Ep Eo]. split; simpl; rewrite ?upd_same, ?app_nil_r; simpl; try done; try congruence.
    intros k _. specialize (H9 k Hc). unfold keyCoherent in *. simpl. rewrite !upd_same, app_nil_r. rewrite Em in H9.
    simpl. destruct H9 as (E1 & E2 & E3). rewrite E1. simpl. unfold pendingCount. simpl. rewrite Ep, lookup_empty. simpl. split; [by rewrite E2|].
    rewrite getItem_import, getItem_create, items_lookup. unfold areaItem in *. simpl. destruct (getItem k (m_storageMap (area s))); done.
Qed.

(** A local change of [key] to [v], recorded as pending and sent. *)
Lemma change_ok i s m m' key v message :
  systemOk s -> m_mapID (clients s i) <> None -> m_map (clients s i) = Some m ->
  (forall k, getItem k m' = if decide (k = key) then v else getItem k m) ->
  plainToServer message -> (forall k, keyOperation k message = if decide (key = k) then Some v else None) ->
  clientOk i (clientDid i ((clients s i) <| m_map := Some m' |> <| m_pendingValueChanges := addPending key (m_pendingValueChanges (clients s i)) |>) [message] s).
Proof.
  intros Hs Hc Em Hm' Hplain Hop. destruct (sys_clients s Hs i) as [H1 H2 H3 H4 H5 H6 H7 H8 H9].
  split; simpl; rewrite ?upd_same; simpl; try done.
  - apply Forall_app. split; [done|]. by apply Forall_singleton.
  - intros k. by apply addPending_nonzero.
  - intros k _. specialize (H9 k Hc). unfold keyCoherent in *. simpl. rewrite !upd_same. simpl. rewrite Em in H9.
    unfold operations in *. rewrite omap_app. simpl. match goal with |- context [pendingCount k ?a] => rewrite (pending_add key k a (m_pendingValueChanges (clients s i)) eq_refl) end.
    destruct H9 as [E1 E2]. unfold pendingCount in E1, E2. rewrite Hop. destruct (decide (key = k)) as [<-|Hne].
    + rewrite decide_True by done. simpl. rewrite length_app, last_snoc. simpl. split; [lia|]. by rewrite Hm', decide_True.
    + rewrite decide_False by done. simpl. rewrite app_nil_r, Nat.add_0_r. split; [done|]. rewrite Hm', decide_False by done.
      by destruct (last (omap (keyOperation k) (toServer s i))).
Qed.

(** After loading, an operation sees a loaded and connected client. *)
Lemma loaded_client i s :
  systemOk s -> mayRead i s = true ->
  exists m a id, ensureMap None (items (m_storageMap (area s))) (clients s i) = (m, a) /\ m_map a = Some m /\ m_mapID a = Some id /\
    m_currentSeed a = 0 /\ systemOk (clientDid i a [] s).
Proof.
  intros Hs Hr. pose proof (load_ok i s Hs Hr) as Hi. pose proof (mayRead_connected i s Hr) as Hc.
  assert (systemOk (clientDid i (snd (ensureMap None (items (m_storageMap (area s))) (clients s i))) [] s)) as Hs'.
  { destruct Hs as [Hcl ? ? ?]. split; [|done..]. by apply clientDid_ok. }
  pose proof (ok_seed i s (sys_clients s Hs i)) as Eseed.
  unfold ensureMap, connect in *. destruct (m_mapID (clients s i)) as [id|] eqn:Eid; [|done].
  destruct (m_map (clients s i)) as [m|] eqn:Em; rewrite ?Eid in *; simpl in *; do 3 eexists; (split; [done|]); simpl; split_and!; done.
Qed.

Lemma clientDid_twice i a a' sent s :
  clientOk i (clientDid i a' sent (clientDid i a [] s)) -> clientOk i (clientDid i a' sent s).
Proof.
  intros [H1 H2 H3 H4 H5 H6 H7 H8 H9]. simpl in *. rewrite !upd_same, ?app_nil_r in *.
  split; simpl; rewrite ?upd_same; try done.
  intros k Hk. specialize (H9 k Hk). unfold keyCoherent in *. simpl in *. by rewrite !upd_same, ?app_nil_r in *.
Qed.

(** Replacing the cache by one with the same items. *)
Lemma same_items_ok i s m m' :
  systemOk s -> m_map (clients s i) = Some m -> (forall k, getItem k m' = getItem k m) ->
  clientOk i (clientDid i ((clients s i) <| m_map := Some m' |>) [] s).
Proof.
  intros Hs Em Hm'. destruct (sys_clients s Hs i) as [H1 H2 H3 H4 H5 H6 H7 H8 H9].
  split; simpl; rewrite ?upd_same, ?app_nil_r; simpl; try done.
  - intros E. destruct (H7 E). congruence.
  - intros k Hk. specialize (H9 k Hk). unfold keyCoherent in *. simpl. rewrite !upd_same, app_nil_r. simpl. rewrite Em in H9. rewrite Hm'. exact H9.
Qed.

Lemma systemOk_clientDid i a sent s : systemOk s -> clientOk i (clientDid i a sent s) -> systemOk (clientDid i a sent s).
Proof. intros [Hcl ? ? ?] Hi. split; [|done..]. by apply clientDid_ok. Qed.

Lemma setLocal_ok i key value s s' : systemOk s -> act stored (SetLocal i key value) s = Some s' -> systemOk s'.
Proof.
  intros Hs. simpl. destruct (mayRead i s) eqn:Hr; [|done].
  destruct (loaded_client i s Hs Hr) as (m & a & id & Ee & Em & Eid & Eseed & Hs1). unfold setItem. rewrite Ee.
  pose proof (trySetItem_old key value m) as Eold. pose proof (unlimited key value m) as Equota.
  pose proof (fun k => trySetItem_done key value m k Equota) as Hnew.
  destruct (trySetItem key value m) as [[old quota] m']. simpl in *. subst old quota.
  set (s1 := clientDid i a [] s) in *. assert (clients s1 i = a) as Ea by (subst s1; simpl; by rewrite upd_same).
  destruct (decide (getItem key m = Some value)) as [E|E]; intros [= <-].
  - apply systemOk_clientDid; [done|]. apply (clientDid_twice i a). fold s1.
    pose proof (same_items_ok i s1 m m' Hs1) as H. rewrite Ea in H. apply H; [done|].
    intros k. rewrite Hnew. by destruct (decide (k = key)) as [->|].
  - apply systemOk_clientDid; [done|]. apply (clientDid_twice i a). fold s1. unfold ifConnected. simpl. rewrite Eid, Eseed.
    pose proof (change_ok i s1 m m' key (Some value) (SetItem (Z.of_nat i) 0 key value) Hs1) as H. rewrite Ea in H. simpl in H.
    rewrite Eid, Eseed in H. by apply H.
Qed.

Lemma removeLocal_ok i key s s' : systemOk s -> act stored (RemoveLocal i key) s = Some s' -> systemOk s'.
Proof.
  intros Hs. simpl. destruct (mayRead i s) eqn:Hr; [|done].
  destruct (loaded_client i s Hs Hr) as (m & a & id & Ee & Em & Eid & Eseed & Hs1). unfold removeItem. rewrite Ee.
  pose proof (dropItem_old key m) as Eold. pose proof (getItem_drop key m) as Hnew.
  destruct (dropItem key m) as [old m']. simpl in *. subst old.
  set (s1 := clientDid i a [] s) in *. assert (clients s1 i = a) as Ea by (subst s1; simpl; by rewrite upd_same).
  destruct (getItem key m) eqn:E; intros [= <-].
  - apply systemOk_clientDid; [done|]. apply (clientDid_twice i a). fold s1. unfold ifConnected. simpl. rewrite Eid, Eseed.
    pose proof (change_ok i s1 m m' key None (RemoveItem (Z.of_nat i) 0 key) Hs1) as H. rewrite Ea in H. simpl in H.
    rewrite Eid, Eseed in H. by apply H.
  - apply systemOk_clientDid; [done|]. apply (clientDid_twice i a). fold s1.
    pose proof (same_items_ok i s1 m m' Hs1) as H. rewrite Ea in H. apply H; [done|].
    intros k. rewrite Hnew. by destruct (decide (k = key)) as [->|].
Qed.

(** *** Delivery to a client *)

Lemma view_cons k m q : view k (m :: q) = match keyMessage k m with Some x => x :: view k q | None => view k q end.
Proof. done. Qed.

Lemma view_app k q q' : view k (q ++ q') = view k q ++ view k q'.
Proof. apply omap_app. Qed.

(** Taking message [m]: the cache for key [k] moves as [simulate] says. *)
Definition delivered (m : FromServer) (a a' : StorageAreaMap (M := M)) : Prop :=
  m_currentSeed a' = m_currentSeed a /\ m_hasPendingClear a' = m_hasPendingClear a /\ m_mapID a' = m_mapID a /\
  (forall k, m_pendingValueChanges a' !! k <> Some 0%nat) /\
  match m_map a, m_map a' with
  | None, None => m_pendingValueChanges a' = m_pendingValueChanges a \/ m_pendingValueChanges a <> ∅
  | Some mp, Some mp' => forall k,
      match keyMessage k m with
      | Some Ack => pendingCount k a' = pred (pendingCount k a) /\ getItem k mp' = getItem k mp
      | Some (Other v) => pendingCount k a' = pendingCount k a /\
          getItem k mp' = if decide (pendingCount k a = 0%nat) then v else getItem k mp
      | None => pendingCount k a' = pendingCount k a /\ getItem k mp' = getItem k mp
      end
  | _, _ => False
  end.

Lemma ack_delivered k a m :
  (forall k', m_pendingValueChanges a !! k' <> Some 0%nat) -> (forall k', keyMessage k' m = if decide (k = k') then Some Ack else None) ->
  delivered m a (a <| m_pendingValueChanges := removePending k (m_pendingValueChanges a) |>).
Proof.
  intros H0 Hm. split_and!; try done; simpl.
  - intros k'. by apply removePending_nonzero.
  - destruct (m_map a).
    + intros k'. rewrite Hm. unfold pendingCount. simpl. rewrite removePending_lookup by done.
      destruct (decide (k = k')) as [<-|]; [by rewrite decide_True | by rewrite decide_False].
    + destruct (decide (m_pendingValueChanges a = ∅)) as [E|]; [|by right]. left. rewrite E. unfold removePending. by rewrite lookup_empty.
Qed.

Lemma pendingCount_zero k a : m_pendingValueChanges a !! k <> Some 0%nat -> (pendingCount k a = 0%nat <-> m_pendingValueChanges a !! k = None).
Proof. unfold pendingCount. destruct (m_pendingValueChanges a !! k) as [[|n]|]; simpl; [done|split; [lia|done]|done]. Qed.

Lemma message_delivered m a :
  plainFromServer m -> m_currentSeed a = 0 -> m_hasPendingClear a = false -> (forall k, m_pendingValueChanges a !! k <> Some 0%nat) ->
  exists a', didReceiveMessage m a = Done a' /\ delivered m a a'.
Proof.
  intros Hm Hseed Hclear H0. destruct m as [seed k q|seed k|seed|src [k|] old v|]; simpl in Hm; try done; simpl.
  - destruct Hm as [-> ->]. unfold didSetItem. rewrite Hseed. simpl. eexists. split; [done|]. by apply (ack_delivered k).
  - subst seed. unfold didRemoveItem. rewrite Hseed. simpl. eexists. split; [done|]. by apply (ack_delivered k).
  - destruct src as [src|]; simpl.
    { eexists. split; [done|]. split_and!; try done. destruct (m_map a); [done | by left]. }
    unfold applyChange, shouldApplyChangeForKey. rewrite Hclear. destruct (m_map a) as [mp|] eqn:Em; simpl.
    2: { eexists. split; [done|]. split_and!; try done. rewrite Em. by left. }
    destruct (bool_decide (m_pendingValueChanges a !! k = None)) eqn:Ep; simpl.
    + apply bool_decide_eq_true, (pendingCount_zero k a (H0 k)) in Ep.
      destruct v as [v|]; eexists; (split; [done|]); split_and!; try done; simpl; rewrite Em; intros k'; simpl;
        destruct (decide (k = k')) as [<-|Hne]; (split; [done|]); rewrite ?Ep;
        rewrite ?getItem_setIgnoringQuota, ?getItem_drop; repeat case_decide; congruence.
    + apply bool_decide_eq_false in Ep. rewrite <- (pendingCount_zero k a (H0 k)) in Ep.
      eexists. split; [done|]. split_and!; try done. rewrite Em. intros k'. simpl. destruct (decide (k = k')) as [<-|]; [|done]. by rewrite decide_False.
Qed.

Lemma clientReceive_ok i s s' : systemOk s -> clientReceive i s = Some s' -> systemOk s'.
Proof.
  intros Hs. unfold clientReceive. destruct (toClient s i) as [|m rest] eqn:Eq; [done|].
  destruct (sys_clients s Hs i) as [H1 H2 H3 H4 H5 H6 H7 H8 H9]. rewrite Eq in H3. apply Forall_cons in H3 as [Hm Hrest].
  destruct (message_delivered m (clients s i) Hm H1 H2 H5) as (a & -> & (D1 & D2 & D3 & D4 & D5)). intros [= <-].
  destruct Hs as [Hcl Hmain Hnd Himp]. split; [|done..]. intros j. destruct (decide (j = i)) as [->|Hj].
  2: { destruct (Hcl j). split; simpl; rewrite ?upd_other by done; try done. intros k Hk. specialize (ok_keys0 k Hk).
       unfold keyCoherent in *. simpl. by rewrite !upd_other. }
  split; simpl; rewrite ?upd_same; try done; try congruence.
  - intros E. rewrite E in D5. destruct (m_map (clients s i)) eqn:Em; [done|]. destruct (H6 eq_refl) as [Ep Eo]. split; [|done].
    destruct D5 as [D5|D5]; [congruence | done].
  - rewrite D3. intros E. destruct (H7 E) as [_ E']. congruence.
  - rewrite D3. intros k Hk. specialize (H9 k Hk). unfold keyCoherent in *. simpl. rewrite !upd_same. rewrite Eq, view_cons in H9.
    destruct (m_map (clients s i)) as [mp|] eqn:Em, (m_map a) as [mp'|]; try done.
    + specialize (D5 k). destruct H9 as [E1 E2]. destruct (keyMessage k m) as [[|v]|]; simpl in *.
      * destruct D5 as [E3 E4]. rewrite E3, E4. split; [lia|]. by destruct (last _).
      * destruct D5 as [E3 E4]. rewrite E3, E4. split; [lia|]. destruct (last (operations k (toServer s i))) as [v'|] eqn:El; [|done].
        rewrite decide_False; [done|]. intros E0. rewrite E0 in E1. destruct (operations k (toServer s i)); [done | simpl in E1; lia].
      * destruct D5 as [E3 E4]. rewrite E3, E4. done.
    + destruct H9 as (E1 & E2 & E3). split; [done|]. destruct (keyMessage k m) as [[|v]|]; simpl in *; [done| |done].
      split; [done|]. destruct (view k rest) eqn:Ev; [done|]. rewrite <- Ev in *. rewrite (simulate_last _ v); [done | done | by rewrite Ev].
Qed.

(** *** The area handles an operation and its events are sent *)

Definition sentTo (j : nat) : list (nat * FromServer) -> list FromServer :=
  omap (fun im => if decide (fst im = j) then Some (snd im) else None).

Lemma drain_effect s :
  area (drain s) = (area s) <| onMainThread := [] |> /\ clients (drain s) = clients s /\ toServer (drain s) = toServer s /\
  forall j, toClient (drain s) j = toClient s j ++ sentTo j (onMainThread (area s)).
Proof.
  unfold drain. remember (onMainThread (area s)) as l eqn:E. revert s E. induction l as [|[i m] l IH]; intros s E; simpl.
  - split_and!; try done; [|intros; by rewrite app_nil_r]. destruct (area s); simpl in *; by subst.
  - unfold mainThreadSends. rewrite <- E.
    match goal with |- context [drainFuel _ ?x] => destruct (IH x eq_refl) as (E1 & E2 & E3 & E4) end. rewrite E1, E2, E3. split_and!; try done.
    intros j. rewrite E4. simpl. unfold upd. unfold sentTo. simpl. destruct (decide (j = i)) as [->|].
    + rewrite decide_True by done. by rewrite <- app_assoc.
    + by rewrite decide_False by done.
Qed.

Definition imported (s : StorageArea (M := M)) : Prop := m_isEphemeral s = true \/ m_didImportItemsFromDatabase s = true.

Lemma open_imported (s : StorageArea (M := M)) :
  imported s ->
  let s' := openDatabaseAndImportItemsIfNeeded stored s in
  m_storageMap s' = m_storageMap s /\ m_eventListeners s' = m_eventListeners s /\ onMainThread s' = onMainThread s /\ imported s'.
Proof.
  unfold imported, openDatabaseAndImportItemsIfNeeded. destruct (m_isEphemeral s) eqn:Ee; [auto|]. intros [?|Ei]; [done|].
  destruct (m_localStorageDatabase s); simpl; rewrite Ei; simpl; auto.
Qed.

(** What handling a change of [k] to [v] does. *)
Record handled (i : nat) (k : string) (v : option string) (s s' : StorageArea (M := M)) (ack : FromServer) : Prop := {
  handled_items : forall k', getItem k' (m_storageMap s') = if decide (k' = k) then v else getItem k' (m_storageMap s);
  handled_listeners : m_eventListeners s' = m_eventListeners s;
  handled_imported : imported s';
  handled_ack : plainFromServer ack /\ forall k', keyMessage k' ack = if decide (k = k') then Some Ack else None;
  handled_events :
    (exists old id, onMainThread s' = map (fun l => (l, DispatchStorageEvent (if bool_decide (l = i) then Some id else None) (Some k) old v)) (m_eventListeners s)) \/
    (onMainThread s' = [] /\ getItem k (m_storageMap s) = v)
}.

Lemma writeDatabase_same op (s : StorageArea (M := M)) : m_storageMap (writeDatabase op s) = m_storageMap s /\ m_eventListeners (writeDatabase op s) = m_eventListeners s /\
  onMainThread (writeDatabase op s) = onMainThread s /\ m_isEphemeral (writeDatabase op s) = m_isEphemeral s /\
  m_didImportItemsFromDatabase (writeDatabase op s) = m_didImportItemsFromDatabase s.
Proof. unfold writeDatabase. by destruct (m_localStorageDatabase s). Qed.

Lemma handleMessage_handled i message (s : StorageArea (M := M)) :
  plainToServer message -> imported s -> onMainThread s = [] ->
  exists k v (s' : StorageArea (M := M)) ack, (forall k', keyOperation k' message = if decide (k = k') then Some v else None) /\
    handleMessage stored i message s = (s', [ack]) /\ handled i k v s s' ack.
Proof.
  intros Hp Hi Hmain. pose proof (open_imported s Hi) as (E1 & E2 & E3 & E4). simpl in *.
  destruct message as [id seed k v|id seed k|id seed|]; try done; simpl in Hp; subst seed; simpl.
  - unfold handleSetItem, areaSetItem. cbv zeta. set (s1 := openDatabaseAndImportItemsIfNeeded stored s) in *.
    pose proof (unlimited k v (m_storageMap s1)) as Equota.
    pose proof (fun k' => trySetItem_done k v (m_storageMap s1) k' Equota) as Hnew.
    destruct (trySetItem k v (m_storageMap s1)) as [[old quota] m'] eqn:Et. simpl in *. subst quota.
    exists k, (Some v). do 2 eexists. split; [done|]. split; [done|].
    match goal with |- context [writeDatabase ?op ?x] => destruct (writeDatabase_same op x) as (W1 & W2 & W3 & W4 & W5);
      revert W1 W2 W3 W4 W5; generalize (writeDatabase op x) end. intros s2 W1 W2 W3 W4 W5. simpl in *.
    split; simpl; rewrite ?W1, ?W2, ?W3, ?E2, ?E3, ?Hmain; try done.
    + intros k'. by rewrite Hnew, E1.
    + unfold imported in *. simpl. by rewrite W4, W5.
    + left. by exists old, id.
  - unfold handleRemoveItem, areaRemoveItem. cbv zeta. set (s1 := openDatabaseAndImportItemsIfNeeded stored s) in *.
    pose proof (dropItem_old k (m_storageMap s1)) as Eold. pose proof (getItem_drop k (m_storageMap s1)) as Hnew.
    destruct (dropItem k (m_storageMap s1)) as [old m'] eqn:Et. simpl in *. subst old.
    exists k, None. destruct (getItem k (m_storageMap s1)) as [old|] eqn:Eg; do 2 eexists; (split; [done|]); (split; [done|]).
    + match goal with |- context [writeDatabase ?op ?x] => destruct (writeDatabase_same op x) as (W1 & W2 & W3 & W4 & W5);
      revert W1 W2 W3 W4 W5; generalize (writeDatabase op x) end. intros s2 W1 W2 W3 W4 W5. simpl in *.
      split; simpl; rewrite ?W1, ?W2, ?W3, ?E2, ?E3, ?Hmain; try done.
      * intros k'. by rewrite Hnew, E1.
      * unfold imported in *. simpl. by rewrite W4, W5.
      * left. by exists (Some old), id.
    + split; simpl; rewrite ?E2, ?E3, ?Hmain; try done.
      * intros k'. by rewrite Hnew, E1.
      * right. by rewrite <- E1.
Qed.

Lemma sentTo_cons j i m l : sentTo j ((i, m) :: l) = if decide (i = j) then m :: sentTo j l else sentTo j l.
Proof. unfold sentTo. simpl. by destruct (decide (i = j)). Qed.

(** The events of a change, for the listeners. *)
Lemma sentTo_events (P : nat -> FromServer) j l : NoDup l -> sentTo j (map (fun x => (x, P x)) l) = if decide (j ∈ l) then [P j] else [].
Proof.
  induction 1 as [|x l Hx Hl IH]; [done|]. cbn [map]. rewrite sentTo_cons, IH. destruct (decide (x = j)) as [->|Hne].
  - rewrite decide_False, decide_True by (done || by left). done.
  - destruct (decide (j ∈ l)) as [Hin|Hin].
    + by rewrite decide_True by (by right).
    + rewrite decide_False; [done|]. by intros [->|]%elem_of_cons.
Qed.

Lemma operations_cons k m o : operations k (m :: o) = match keyOperation k m with Some x => x :: operations k o | None => operations k o end.
Proof. done. Qed.

(** One client after an operation [m] of client [i] on [k] was handled. *)
Lemma client_after_handled i j k v m rest s s' ackm evs :
  toServer s i = m :: rest -> (forall k', keyOperation k' m = if decide (k = k') then Some v else None) ->
  clientOk j s -> clients s' = clients s -> toServer s' = upd i rest (toServer s) ->
  (forall k', areaItem k' s' = if decide (k' = k) then v else areaItem k' s) -> m_eventListeners (area s') = m_eventListeners (area s) ->
  toClient s' j = toClient s j ++ (if decide (j = i) then [ackm] else []) ++ evs ->
  Forall plainFromServer ((if decide (j = i) then [ackm] else []) ++ evs) ->
  (m_mapID (clients s j) = None -> (if decide (j = i) then [ackm] else []) ++ evs = []) ->
  (forall k', keyMessage k' ackm = if decide (k = k') then Some Ack else None) ->
  (forall k', view k' evs = [] \/ (j <> i /\ k' = k /\ view k' evs = [Other v])) ->
  (view k evs = [] -> j = i \/ m_mapID (clients s j) = None \/ areaItem k s = v) ->
  clientOk j s'.
Proof.
  intros Eo Hop [H1 H2 H3 H4 H5 H6 H7 H8 H9] Ec Es Ha El Eq Hplain Hnone Hack Hevs Hemit.
  split; rewrite ?Ec, ?Es; try done.
  - rewrite Eq. by apply Forall_app.
  - unfold upd. destruct (decide (j = i)) as [->|]; [|done]. rewrite Eo in H4. by apply Forall_cons in H4 as [_ ?].
  - unfold upd. destruct (decide (j = i)) as [->|]; [|done]. intros E. destruct (H6 E). congruence.
  - intros E. destruct (H7 E) as [E1 E2]. by rewrite Eq, E2, (Hnone E).
  - by rewrite El.
  - intros k' Hk. specialize (H9 k' Hk). unfold keyCoherent in *. rewrite Ec, Es, Eq, !view_app.
    set (q := view k' (toClient s j)) in *. rewrite Ha. unfold upd.
    destruct (decide (j = i)) as [->|Hj].
    + (* the client that made the change *)
      assert (view k' evs = []) as Ev by (destruct (Hevs k') as [|(? & _)]; done). rewrite Ev, app_nil_r, view_cons, Hack.
      rewrite Eo, operations_cons, Hop in H9.
      destruct (m_map (clients s i)) as [mp|] eqn:Em; [|destruct (H6 eq_refl); congruence].
      destruct (decide (k = k')) as [<-|Hne].
      * rewrite decide_True by done. simpl. rewrite acks_app. simpl in *. destruct H9 as [E1 E2]. split; [lia|].
        destruct (operations k rest) as [|x xs] eqn:Er.
        -- simpl in *. rewrite simulate_app, (simulate_masked _ _ q) by lia. simpl. by rewrite E2.
        -- rewrite last_cons in E2. destruct (last (x :: xs)) eqn:E; [done|]. by apply last_None in E.
      * rewrite decide_False by congruence. simpl. rewrite app_nil_r. exact H9.
    + simpl. destruct (Hevs k') as [Ev|(_ & -> & Ev)]; rewrite Ev.
      * rewrite app_nil_r. destruct (decide (k' = k)) as [->|]; [|exact H9].
        destruct (Hemit Ev) as [|[|E]]; [done|done|]. by rewrite <- E.
      * rewrite decide_True by done. rewrite acks_app. simpl. rewrite Nat.add_0_r.
        destruct (m_map (clients s j)) as [mp|].
        -- destruct H9 as [E1 E2]. split; [done|]. destruct (last (operations k (toServer s j))) as [x|] eqn:Ex; [done|].
           apply last_None in Ex. rewrite Ex in E1. simpl in E1. rewrite simulate_app, E1, Nat.sub_diag. simpl. done.
        -- destruct H9 as (E1 & E2 & E3). split_and!; [done|done|]. rewrite simulate_app, E2. simpl. done.
Qed.

Lemma serverReceive_ok i s s1 : systemOk s -> act stored (ServerReceives i) s = Some s1 -> systemOk (drain s1).
Proof.
  intros Hs. simpl. unfold serverReceive. destruct (toServer s i) as [|m rest] eqn:Eo; [done|].
  destruct Hs as [Hcl Hmain Hnd Himp]. pose proof (Hcl i) as [_ _ _ Hto _ Hun Hcon Hlis _]. rewrite Eo in Hto. apply Forall_cons in Hto as [Hm _].
  assert (m_mapID (clients s i) <> None) as Hc by (intros E; destruct (Hcon E) as [E' _]; destruct (Hun E'); congruence).
  assert (imported (area s)) as Hi by (apply Himp; intros E; rewrite E in Hlis; by apply Hlis, elem_of_nil in Hc).
  destruct (handleMessage_handled i m (area s) Hm Hi Hmain) as (k & v & area' & ackm & Hop & Eh & [Hitems Hlisteners Himp' [Hackp Hack] Hev]).
  rewrite Eh. intros [= <-].
  match goal with |- systemOk (drain ?x) => destruct (drain_effect x) as (D1 & D2 & D3 & D4) end. simpl in D1, D2, D3, D4.
  split.
  - intros j.
    assert (Forall (fun ev => plainFromServer ev /\ forall k', keyMessage k' ev = None \/ (j <> i /\ k' = k /\ keyMessage k' ev = Some (Other v))) (sentTo j (onMainThread area')) /\
            (length (sentTo j (onMainThread area')) <= 1)%nat /\
            (j ∉ m_eventListeners (area s) -> sentTo j (onMainThread area') = []) /\
            (view k (sentTo j (onMainThread area')) = [] -> j = i \/ j ∉ m_eventListeners (area s) \/ areaItem k s = v)) as (Hf & Hlen & Hnl & Hemit).
    { destruct Hev as [(old & id & ->)|(-> & E)]; [|split_and!; [by constructor | simpl; lia | done | auto]].
      rewrite (sentTo_events (fun l => DispatchStorageEvent (if bool_decide (l = i) then Some id else None) (Some k) old v)) by done.
      destruct (decide (j ∈ m_eventListeners (area s))) as [Hin|Hin]; [|split_and!; [by constructor | simpl; lia | done | auto]].
      split_and!; [|simpl; lia|done|].
      - apply Forall_singleton. split; [done|]. intros k'. simpl. destruct (bool_decide (j = i)) eqn:E; [by left|]. apply bool_decide_eq_false in E.
        destruct (decide (k = k')) as [<-|]; [by right | by left].
      - unfold view. simpl. destruct (bool_decide (j = i)) eqn:E; [apply bool_decide_eq_true in E; auto|]. by rewrite decide_True. }
    eapply (client_after_handled i j k v m rest s _ ackm (sentTo j (onMainThread area'))); try done.
    + intros k'. unfold areaItem. rewrite D1. simpl. apply Hitems.
    + rewrite D1. done.
    + rewrite D4. unfold upd. destruct (decide (j = i)) as [->|]; [by rewrite <- app_assoc | done].
    + apply Forall_app. split; [by destruct (decide (j = i)); [apply Forall_singleton|constructor]|]. eapply Forall_impl; [exact Hf|]. by intros ? [? _].
    + intros E. rewrite Hnl by (rewrite <- (ok_listener j s (Hcl j)); intros Hx; by apply Hx). rewrite decide_False; [done|]. by intros ->.
    + intros k'. destruct (sentTo j (onMainThread area')) as [|ev [|ev' evs]]; [by left| |simpl in Hlen; lia].
      apply Forall_singleton in Hf as [_ Hf]. unfold view. simpl. destruct (Hf k') as [->|(? & -> & ->)]; [by left | by right].
    + intros E. destruct (Hemit E) as [|[Hl|]]; auto. right; left. rewrite <- (ok_listener j s (Hcl j)) in Hl.
      destruct (m_mapID (clients s j)); [|done]. by contradiction Hl.
  - by rewrite D1.
  - rewrite D1. simpl. by rewrite Hlisteners.
  - rewrite D1. simpl. intros _. exact Himp'.
Qed.

(** Registering a listener imports the stored items only if nobody listened before. *)
Lemma addListener_effect i (s : StorageArea (M := M)) :
  let s' := addListener stored i s in
  m_eventListeners s' = m_eventListeners s ++ [i] /\ onMainThread s' = onMainThread s /\
  (m_eventListeners s <> [] -> m_storageMap s' = m_storageMap s) /\
  ((m_eventListeners s <> [] -> imported s) -> imported s').
Proof.
  unfold addListener, imported. destruct (bool_decide (m_eventListeners s = [])) eqn:E; simpl.
  - apply bool_decide_eq_true in E. unfold openDatabaseAndImportItemsIfNeeded. destruct (m_isEphemeral s) eqn:Ee; simpl; rewrite ?Ee.
    + split_and!; auto.
    + destruct (m_localStorageDatabase s), (m_didImportItemsFromDatabase s) eqn:Ei; simpl; rewrite ?Ei; simpl; split_and!; auto; done.
  - apply bool_decide_eq_false in E. split_and!; auto.
Qed.

Lemma connect_ok i s s' : systemOk s -> act stored (ConnectClient i) s = Some s' -> systemOk s'.
Proof.
  intros Hs. cbn [act]. destruct (m_mapID (clients s i)) eqn:Eid; [done|]. intros E. apply Some_inj in E as <-. destruct Hs as [Hcl Hmain Hnd Himp].
  pose proof (addListener_effect i (area s)) as (A1 & A2 & A3 & A4). revert A1 A2 A3 A4.
  generalize (addListener stored i (area s)). intros area' A1 A2 A3 A4.
  assert (i ∉ m_eventListeners (area s)) as Hni by (rewrite <- (ok_listener i s (Hcl i)); intros Hx; by apply Hx).
  split; simpl; [|congruence| |intros _; by apply A4].
  2: { rewrite A1. apply NoDup_app. split_and!; [done| |apply NoDup_singleton]. intros x Hx ->%list_elem_of_singleton. done. }
  intros j. destruct (Hcl j) as [H1 H2 H3 H4 H5 H6 H7 H8 H9]. unfold connect. rewrite Eid. destruct (decide (j = i)) as [->|Hj].
  - destruct (H7 Eid) as [Em Eq]. destruct (H6 Em) as [Ep Eo].
    split; simpl; rewrite ?upd_same; simpl; try done.
    + rewrite A1, elem_of_app, list_elem_of_singleton. split; [auto | done].
    + intros k _. unfold keyCoherent. simpl. rewrite upd_same. simpl. rewrite Em, Eo, Eq. simpl. done.
  - split; simpl; rewrite ?upd_other by done; try done.
    + rewrite A1, elem_of_app, list_elem_of_singleton, <- H8. split; [auto | intros [Hx|Hx]; [done | congruence]].
    + intros k Hk. specialize (H9 k Hk). unfold keyCoherent, areaItem in *. simpl. rewrite !upd_other by done. rewrite A3; [done|].
      intros E. rewrite E in H8. by apply H8, elem_of_nil in Hk.
Qed.

Lemma promptStep_ok s s' : systemOk s -> promptStep stored s s' -> systemOk s'.
Proof.
  intros Hs [a Ha E | i s1 E ->]; [|by eapply serverReceive_ok]. destruct a; try done.
  - by eapply connect_ok.
  - simpl in E. destruct (mayRead i s) eqn:Hr; [|done]. injection E as <-. apply systemOk_clientDid; [done|]. by apply load_ok.
  - by eapply setLocal_ok.
  - by eapply removeLocal_ok.
  - by eapply clientReceive_ok.
Qed.

Lemma initialSystem_ok ephemeral quota : systemOk (initialSystem ephemeral quota).
Proof.
  split; simpl; try done; [|constructor]. intros i. split; simpl; try done.
  split; [done|]. by intros ?%elem_of_nil.
Qed.

End coherence.

(** C13: The caches converge: after any interleaving of connections, loads, sets and
    removals in any number of web processes, with an area without effective quota whose
    events are sent promptly, once all messages have been delivered every loaded cache
    holds exactly the items of the area. *)
Theorem caches_converge {M : Type} `{HM : StorageMap M} {HL : StorageMapLaws M} (stored : gmap string string) ephemeral quota (s : System (M := M)) i m :
  (forall k v (m : M), snd (fst (trySetItem k v m)) = false) ->
  rtc (promptStep stored) (initialSystem ephemeral quota) s -> quiescent s -> m_map (clients s i) = Some m ->
  forall k, getItem k m = getItem k (m_storageMap (area s)).
Proof.
  intros Hunl Hr [Hq _] Em k. assert (systemOk s) as Hs.
  { eapply rtc_invariant; [|exact Hr|apply initialSystem_ok]. intros ? ? ? ?. by eapply promptStep_ok. }
  destruct (sys_clients s Hs i) as [_ _ _ _ _ _ H7 _ H9]. destruct (Hq i) as [Eo Eq].
  assert (m_mapID (clients s i) <> None) as Hc by (intros E; destruct (H7 E); congruence).
  specialize (H9 k Hc). unfold keyCoherent in H9. rewrite Em, Eo, Eq in H9. by destruct H9 as [_ H9].
Qed.

(** ** The database of a persistent area *)

(** The items the database file holds once the operations handed to it are written. *)
Definition replay (ops : list DatabaseOperation) (stored : gmap string string) : gmap string string :=
  fold_left (fun m op => match op with
    | DatabaseSet k v => <[k := v]> m
    | DatabaseRemove k => delete k m
    | DatabaseClear => ∅
    end) ops stored.

Lemma replay_snoc ops op stored :
  replay (ops ++ [op]) stored = match op with DatabaseSet k v => <[k := v]> (replay ops stored) | DatabaseRemove k => delete k (replay ops stored) | DatabaseClear => ∅ end.
Proof. unfold replay. rewrite fold_left_app. done. Qed.

Section database.
Context {M : Type} `{HM : StorageMap M} {HL : StorageMapLaws M}.
Context (stored : gmap string string).

Fixpoint handleMessages (messages : list (nat * ToServer)) (s : StorageArea (M := M)) : StorageArea (M := M) :=
  match messages with
  | [] => s
  | (i, m) :: rest => handleMessages rest (fst (handleMessage stored i m s))
  end.

(** Open, imported and equal to the database. *)
Definition mirrored (s : StorageArea (M := M)) : Prop :=
  m_isEphemeral s = false /\ m_didImportItemsFromDatabase s = true /\
  exists ops, m_localStorageDatabase s = Some ops /\ forall k, getItem k (m_storageMap s) = replay ops stored !! k.

Lemma open_mirrored s : mirrored s -> openDatabaseAndImportItemsIfNeeded stored s = s.
Proof. intros (E1 & E2 & ops & E3 & _). unfold openDatabaseAndImportItemsIfNeeded. by rewrite E1, E3, E2. Qed.

Lemma mirrored_handle i m s : mirrored s -> mirrored (fst (handleMessage stored i m s)).
Proof.
  intros Hs. pose proof (open_mirrored s Hs) as Eo. pose proof Hs as (E1 & E2 & ops & E3 & Hitems).
  destruct m as [id seed k v|id seed k|id seed|]; simpl; [..|done].
  - unfold handleSetItem, areaSetItem. rewrite Eo. pose proof (trySetItem_quota k v (m_storageMap s)) as Hq. pose proof (trySetItem_done k v (m_storageMap s)) as Hd.
    destruct (trySetItem k v (m_storageMap s)) as [[old quota] m']. simpl in *. destruct quota; simpl.
    + rewrite Hq by done. by destruct s.
    + unfold writeDatabase. simpl. rewrite E3. split_and!; try done. eexists. split; [done|]. simpl. intros k'. rewrite Hd, replay_snoc by done.
      destruct (decide (k' = k)) as [->|]; [by rewrite lookup_insert_eq | by rewrite lookup_insert_ne].
  - unfold areaRemoveItem. rewrite Eo. pose proof (dropItem_old k (m_storageMap s)) as Eold. pose proof (getItem_drop k (m_storageMap s)) as Hd.
    destruct (dropItem k (m_storageMap s)) as [old m']. simpl in *. subst old. destruct (getItem k (m_storageMap s)) eqn:Eg; simpl.
    + unfold writeDatabase. simpl. rewrite E3. split_and!; try done. eexists. split; [done|]. simpl. intros k'. rewrite Hd, replay_snoc.
      destruct (decide (k' = k)) as [->|]; [by rewrite lookup_delete_eq | by rewrite lookup_delete_ne].
    + split_and!; try done. exists ops. split; [done|]. simpl. intros k'. rewrite Hd. destruct (decide (k' = k)) as [->|]; [|done]. by rewrite <- Hitems.
  - unfold areaClear. rewrite Eo. destruct (decide (items (m_storageMap s) = ∅)) as [E|E]; [done|].
    unfold writeDatabase. simpl. rewrite E3. split_and!; try done. eexists. split; [done|]. simpl. intros k'. by rewrite getItem_create, replay_snoc, lookup_empty.
Qed.

End database.

(** C14: The database follows the area: for a persistent area whose file holds [stored],
    after any sequence of messages from the web processes (sets refused by the quota
    included) the items of the area are those of the file with the operations handed to
    the database applied to it, so a restart loses nothing that was accepted. *)
Theorem database_mirrors_area {M : Type} `{HM : StorageMap M} {HL : StorageMapLaws M} (stored : gmap string string) quota i messages :
  exists ops, m_localStorageDatabase (handleMessages stored messages (addListener stored i (createArea (M := M) false quota))) = Some ops /\
    forall k, getItem k (m_storageMap (handleMessages stored messages (addListener stored i (createArea (M := M) false quota)))) = replay ops stored !! k.
Proof.
  assert (forall s : StorageArea (M := M), mirrored stored s -> mirrored stored (handleMessages stored messages s)) as H.
  { induction messages as [|[j m] messages IH]; intros s Hs; [done|]. simpl. by apply IH, mirrored_handle. }
  destruct (H (addListener stored i (createArea (M := M) false quota))) as (_ & _ & ops & E & Hitems); [|by exists ops].
  unfold addListener. simpl. split_and!; try done. exists []. split; [done|]. simpl. intros k.
  rewrite getItem_import, getItem_create. simpl. by destruct (stored !! k).
Qed.

(** ** A concrete storage map, for the traces *)

Local Open Scope string_scope.
Local Open Scope Z_scope.

(** Items with the quota: the total length of keys and values. *)
Record SimpleMap := mkSimple { simpleQuota : Z; simpleItems : gmap string (option string) }.
Definition simpleSize (m : gmap string (option string)) : Z :=
  map_fold (fun k v n => Z.of_nat (String.length k) + Z.of_nat (match v with Some v => String.length v | None => 0 end) + n) 0 m.
#[global] Instance SimpleStorageMap : StorageMap SimpleMap := {
  createMap q := mkSimple q ∅;
  getItem k m := default None (simpleItems m !! k);
  trySetItem k v m :=
    let old := default None (simpleItems m !! k) in
    let m' := <[k := Some v]> (simpleItems m) in
    if simpleQuota m <? simpleSize m' then (old, true, m) else (old, false, mkSimple (simpleQuota m) m');
  dropItem k m := (default None (simpleItems m !! k), mkSimple (simpleQuota m) (delete k (simpleItems m)));
  setItemIgnoringQuota k v m := mkSimple (simpleQuota m) (<[k := v]> (simpleItems m));
  importItems l m := mkSimple (simpleQuota m) ((Some <$> l) ∪ simpleItems m);
  items m := omap id (simpleItems m)
}.
#[global] Instance SimpleStorageMapLaws : StorageMapLaws SimpleMap.
Proof.
  split; simpl.
  - intros. by rewrite lookup_empty.
  - intros. by destruct (_ <? _).
  - intros k v m k'. destruct (_ <? _); [done|]. intros _. simpl. destruct (decide (k' = k)) as [->|]; [by rewrite lookup_insert_eq | by rewrite lookup_insert_ne].
  - intros k v m. by destruct (_ <? _).
  - done.
  - intros k m k'. destruct (decide (k' = k)) as [->|]; [by rewrite lookup_delete_eq | by rewrite lookup_delete_ne].
  - intros k v m k'. destruct (decide (k' = k)) as [->|]; [by rewrite lookup_insert_eq | by rewrite lookup_insert_ne].
  - intros l m k. rewrite lookup_union, lookup_fmap. destruct (l !! k); simpl; [by destruct (simpleItems m !! k) | by destruct (simpleItems m !! k)].
  - intros m k. rewrite lookup_omap. by destruct (simpleItems m !! k) as [[]|].
Qed.

(** Without a quota. *)
Record FreeMap := mkFree { freeItems : gmap string (option string) }.
#[global] Instance FreeStorageMap : StorageMap FreeMap := {
  createMap q := mkFree ∅;
  getItem k m := default None (freeItems m !! k);
  trySetItem k v m := (default None (freeItems m !! k), false, mkFree (<[k := Some v]> (freeItems m)));
  dropItem k m := (default None (freeItems m !! k), mkFree (delete k (freeItems m)));
  setItemIgnoringQuota k v m := mkFree (<[k := v]> (freeItems m));
  importItems l m := mkFree ((Some <$> l) ∪ freeItems m);
  items m := omap id (freeItems m)
}.
#[global] Instance FreeStorageMapLaws : StorageMapLaws FreeMap.
Proof.
  split; simpl; try done.
  - intros k v m k' _. destruct (decide (k' = k)) as [->|]; [by rewrite lookup_insert_eq | by rewrite lookup_insert_ne].
  - intros k m k'. destruct (decide (k' = k)) as [->|]; [by rewrite lookup_delete_eq | by rewrite lookup_delete_ne].
  - intros k v m k'. destruct (decide (k' = k)) as [->|]; [by rewrite lookup_insert_eq | by rewrite lookup_insert_ne].
  - intros l m k. rewrite lookup_union, lookup_fmap. destruct (l !! k); simpl; [by destruct (freeItems m !! k) | by destruct (freeItems m !! k)].
  - intros m k. rewrite lookup_omap. by destruct (freeItems m !! k) as [[]|].
Qed.

Definition itemOf {M} `{StorageMap M} (i : nat) (key : string) (s : System (M := M)) : option string :=
  match m_map (clients s i) with Some m => getItem key m | None => None end.

(** Prompt runs, executably. *)
Fixpoint promptRun {M} `{StorageMap M} (stored : gmap string string) (actions : list Action) (s : System (M := M)) : option System :=
  match actions with
  | [] => Some s
  | a :: rest =>
      match a, act stored a s with
      | ServerReceives _, Some s' => promptRun stored rest (drain s')
      | (ConnectClient _ | Load _ | SetLocal _ _ _ | RemoveLocal _ _ | ClientReceives _), Some s' => promptRun stored rest s'
      | _, _ => None
      end
  end.

Definition succeeds {A} (o : option A) : bool := match o with Some _ => true | None => false end.

Lemma promptRun_reachable {M} `{StorageMap M} stored actions : forall s s' : System (M := M),
  promptRun stored actions s = Some s' -> rtc (promptStep stored) s s'.
Proof.
  induction actions as [|a actions IH]; intros s s'; cbn [promptRun]; [intros E; apply Some_inj in E as ->; apply rtc_refl|].
  destruct a; try done; match goal with |- context [act stored ?a s] => destruct (act stored a s) as [s1|] eqn:E end; try done; intros Er;
    (eapply rtc_l; [|apply IH; exact Er]); first [eapply PromptServer; [exact E | reflexivity] | eapply PromptClient; [|exact E]; exact I].
Qed.

(** Two clients, one change, everything delivered. *)
Definition convergingActions : list Action :=
  [ConnectClient 0; ConnectClient 1; Load 0; Load 1; SetLocal 0 "k" "a"; ServerReceives 0; ClientReceives 0; ClientReceives 0; ClientReceives 1].
Definition convergedSystem : System (M := FreeMap) :=
  default (initialSystem true 0) (promptRun ∅ convergingActions (initialSystem true 0)).

Lemma caches_converge_witness :
  getItem "k" (default (mkFree ∅) (m_map (clients convergedSystem 1%nat))) = getItem "k" (m_storageMap (area convergedSystem)).
Proof.
  apply (caches_converge ∅ true 0 convergedSystem 1).
  - reflexivity.
  - apply (promptRun_reachable ∅ convergingActions). unfold convergedSystem.
    assert (succeeds (promptRun ∅ convergingActions (initialSystem (M := FreeMap) true 0)) = true) as E by (vm_compute; reflexivity).
    destruct (promptRun ∅ convergingActions (initialSystem (M := FreeMap) true 0)); [reflexivity | discriminate E].
  - split; [|vm_compute; reflexivity]. intros [|[|i]]; split; vm_compute; reflexivity.
  - vm_compute. reflexivity.
Defined.

Lemma database_mirrors_area_witness :
  exists ops, m_localStorageDatabase (handleMessages {[ "a" := "1" ]} [(0%nat, SetItem 0 0 "k" "v"); (1%nat, RemoveItem 1 0 "a")] (addListener {[ "a" := "1" ]} 0 (createArea (M := SimpleMap) false 100))) = Some ops /\
    forall k, getItem k (m_storageMap (handleMessages {[ "a" := "1" ]} [(0%nat, SetItem 0 0 "k" "v"); (1%nat, RemoveItem 1 0 "a")] (addListener {[ "a" := "1" ]} 0 (createArea (M := SimpleMap) false 100)))) = replay ops {[ "a" := "1" ]} !! k.
Proof. exact (database_mirrors_area {[ "a" := "1" ]} 100 0 [(0%nat, SetItem 0 0 "k" "v"); (1%nat, RemoveItem 1 0 "a")]). Defined.

Definition exampleStart : System := initialSystem (M := SimpleMap) true 1000.

(** The acknowledgement of a change is sent from the storage queue while the events
    for earlier changes still wait on the main thread, so it can overtake them; the
    event then undoes the acknowledged change. Client 1 sets k to a, client 0 sets k to
    b later; when everything is delivered the area holds b but client 0 reads a. *)
Theorem acknowledgement_overtakes_event :
  exists s, runActions ∅ [ConnectClient 0; ConnectClient 1; Load 0; Load 1; SetLocal 1 "k" "a"; ServerReceives 1; SetLocal 0 "k" "b"; ServerReceives 0;
      ClientReceives 0; MainThreadSends; MainThreadSends; MainThreadSends; MainThreadSends;
      ClientReceives 0; ClientReceives 0; ClientReceives 1; ClientReceives 1; ClientReceives 1] exampleStart = Some s /\
    (forall i, (i < 2)%nat -> toServer s i = [] /\ toClient s i = []) /\ onMainThread (area s) = [] /\
    getItem "k" (m_storageMap (area s)) = Some "b" /\ itemOf 0 "k" s = Some "a" /\ itemOf 1 "k" s = Some "b".
Proof.
  eexists. split; [vm_compute; reflexivity|]. split_and!; [|reflexivity..].
  intros [|[|i]] Hi; [done|done|lia].
Qed.

(** When another process clears the area, the items a web process changed meanwhile
    are meant to survive in its cache, but the copy stores the null [oldValue] instead
    of the item's value: the pending change is lost from the cache, although the area
    keeps it. *)
Theorem remote_clear_loses_pending_change :
  exists s, runActions ∅ [ConnectClient 0; ConnectClient 1; Load 0; SetLocal 0 "x" "1"; ServerReceives 0; ClientReceives 0; MainThreadSends; MainThreadSends;
      ClientReceives 0; ClearLocal 1; SetLocal 0 "k" "v"; ServerReceives 1; MainThreadSends; ServerReceives 0; ClientReceives 0] exampleStart = Some s /\
    getItem "k" (m_storageMap (area s)) = Some "v" /\ itemOf 0 "k" s = None.
Proof. eexists. split; [vm_compute; reflexivity|]. done. Qed.

End WebStorage.
