(* ===== verification/CacheStorage.v ===== *)
(** * NetworkProcess/cache: the engine of the DOM Cache API

    CacheStorageEngine.cpp ([Engine]), CacheStorageEngineCaches.cpp ([Caches], the caches of
    an origin), CacheStorageEngineCache.cpp ([Cache]) and CacheStorageEngineConnection.cpp,
    for one session.  The work queues, the files, the storage and the quota manager are the
    environment: what the engine waits for is a list of tasks, completed in any order with
    any result.  The callbacks of web processes are numbers, answered in [answered]; those
    destroyed without being called are in [dropped].  A use of a null [m_storage] sets
    [crashed].

    The proofs follow what changes hands: [moves l w w'] says which requests and references
    an operation brings in or gives away ([cache_requests_conserved]); [calm] is the
    invariant of a session without files ([ephemeral_requests_answered]); [live], of one with
    files, says which task ends which wait ([idle_engine_has_answered]).  Without files the
    result of storing and retrieving is computed ([put_record_is_retrieved]).  What the code does
    wrong is at the end, on runs with a small instance of the interface to WebCore. *)

From Stdlib Require Import Strings.Ascii.
From stdpp Require Import sorting.
From S2P Require Import Prelude.

(** What the engine uses of WebCore: requests and responses, the names of their header
    fields, and the matching of a request with a record. *)
Class Fetch := {
  Request : Type;
  Response : Type;
  URL : Type;
  Options : Type;
  urlOf : Request -> URL;
  isGET : Request -> bool;
  httpHeaderField : Request -> string -> option string;
  varyOf : Response -> option string;
  (* [removeQueryAndFragmentIdentifier().string()] *)
  withoutQueryAndFragment : URL -> string;
  isNullURL : URL -> bool;
  defaultOptions : Options;
  ignoreMethod : Options -> bool;
  stripLeadingAndTrailingHTTPSpaces : string -> string;
  queryCacheMatch : Request -> URL -> bool -> gmap string (option string) -> Options -> bool }.

Module CacheStorage.
Section with_fetch.
Context `{Fetch}.

Inductive Error := ReadDisk | WriteDisk | QuotaExceeded | Internal.

(** The headers guard, options and referrer of a record belong to its request here. *)
Record Record_ := mkRecord {
  identifier : nat;
  updateResponseCounter : nat;
  request : Request;
  response : option Response;
  responseBody : nat;
  responseBodySize : Z
}.
#[global] Instance eta_Record : Eta Record_ := fun r =>
  mkRecord (identifier r) (updateResponseCounter r) (request r) (response r) (responseBody r) (responseBodySize r).

Record RecordInformation := mkInformation {
  key : nat;
  insertionTime : Z;
  ri_identifier : nat;
  ri_updateResponseCounter : nat;
  size : Z;
  url : URL;
  hasVaryStar : bool;
  varyHeaders : gmap string (option string)
}.
#[global] Instance eta_Information : Eta RecordInformation := fun r =>
  mkInformation (key r) (insertionTime r) (ri_identifier r) (ri_updateResponseCounter r) (size r) (url r) (hasVaryStar r) (varyHeaders r).

(** ** What waits for what *)

Record RetrieveRecordsOptions := mkRetrieve { ro_request : Request; ro_options : Options; shouldProvideResponse : bool }.

(** Continuations of [Engine::readCache]; the number is the callback of the web process. *)
Inductive CacheOp :=
| RetrieveOp (options : RetrieveRecordsOptions) (callback : nat)
| PutOp (records : list Record_) (callback : nat)
| DeleteOp (request : Request) (options : Options) (callback : nat).
(** Continuations of [Engine::readCachesFromDisk]. *)
Inductive CachesOp :=
| OpenOp (name : string) (callback : nat)
| InfosOp (updateCounter : Z) (callback : nat)
| ClearMemoryOp (callback : nat).
(** Callbacks of [Cache::open]. *)
Inductive OpenCallback := OpenedByName (id callback : nat) | OpenedForOp (id : nat) (op : CacheOp).
(** Members of [m_pendingWritingCachesToDiskCallbacks]; [PendingClear] refers to the
    aggregator of a clear task. *)
Inductive PendingWrite :=
| PendingOpen (name : string) (callback : nat)
| PendingRemove (id : nat) (callback : nat)
| PendingInfos (updateCounter : Z) (callback : nat)
| PendingClear (aggregator : nat).

Inductive State := Uninitialized | Opening | Open.
#[global] Instance State_eq_decision : EqDecision State.
Proof. solve_decision. Defined.

Record Cache := mkCache {
  m_state : State;
  m_identifier : nat;
  m_name : string;
  m_uniqueName : nat;
  m_records : gmap string (list RecordInformation);
  m_nextRecordIdentifier : nat;
  m_pendingOpeningCallbacks : list OpenCallback
}.
#[global] Instance eta_Cache : Eta Cache := fun r =>
  mkCache (m_state r) (m_identifier r) (m_name r) (m_uniqueName r) (m_records r) (m_nextRecordIdentifier r) (m_pendingOpeningCallbacks r).

Record Caches := mkCaches {
  m_isInitialized : bool;
  m_updateCounter : Z;
  m_size : Z;
  m_caches : list Cache;
  m_removedCaches : list Cache;
  (* [m_storage] is there *)
  m_storage : bool;
  m_volatileStorage : gmap nat Record_;
  m_pendingInitializationCallbacks : list CachesOp;
  m_isWritingCachesToDisk : bool;
  m_pendingWritingCachesToDiskCallbacks : list PendingWrite
}.
#[global] Instance eta_Caches : Eta Caches := fun r =>
  mkCaches (m_isInitialized r) (m_updateCounter r) (m_size r) (m_caches r) (m_removedCaches r) (m_storage r) (m_volatileStorage r)
    (m_pendingInitializationCallbacks r) (m_isWritingCachesToDisk r) (m_pendingWritingCachesToDiskCallbacks r).

(** What a completed write of the list of caches answers. *)
Inductive WriteCallback := WroteForOpen (id callback : nat) | WroteForRemove (id callback : nat).

(** Tasks of the work queues, the storage and the quota manager; the first number is the
    origin of the [Caches] object. *)
Inductive Task :=
| StoreOrigin (origin : nat)
| ReadCachesList (origin : nat)
| TraverseForSize (origin : nat)
| WriteInitialSize (origin : nat)
| WriteCachesList (origin : nat) (then_ : WriteCallback)
| TraverseRecords (origin id : nat) (then_ : OpenCallback)
| RequestSpace (origin id : nat) (records : list Record_) (callback : nat)
| StoreRecord (origin counter : nat)
| WriteSizeAfterStore (counter : nat)
| ReadForUpdate (origin id recordIdentifier : nat) (record : Record_) (counter : nat)
| ReadForRetrieve (origin id recordIdentifier updateCounter counter : nat)
| WriteSizeAfterRemove (identifiers : list nat) (callback : nat)
| ClearStorage (origin aggregator : nat)
| MakeSalt
| DeleteDirectories (callback : nat).

(** [AsynchronousPutTaskCounter] and [ReadRecordTaskCounter], with their reference counts. *)
Record PutCounter := mkPutCounter { pc_refs : nat; m_error : option Error; m_recordIdentifiers : list nat; pc_callback : nat }.
#[global] Instance eta_PutCounter : Eta PutCounter := fun r => mkPutCounter (pc_refs r) (m_error r) (m_recordIdentifiers r) (pc_callback r).
Record ReadCounter := mkReadCounter {
  rc_refs : nat; rc_records : list Record_; m_failedRecords : list nat; rc_origin : nat; rc_cache : nat; rc_provideResponse : bool; rc_callback : nat }.
#[global] Instance eta_ReadCounter : Eta ReadCounter := fun r =>
  mkReadCounter (rc_refs r) (rc_records r) (m_failedRecords r) (rc_origin r) (rc_cache r) (rc_provideResponse r) (rc_callback r).
(** A [CallbackAggregator] of a clear task. *)
Record Aggregator := mkAggregator { ag_refs : nat; ag_callback : nat }.
#[global] Instance eta_Aggregator : Eta Aggregator := fun r => mkAggregator (ag_refs r) (ag_callback r).

Inductive Reply :=
| CacheIdentifierReply (id : nat) (hadStorageError : bool)
| CacheInfosReply (infos : list (nat * string)) (updateCounter : Z)
| RecordsReply (records : list Record_)
| RecordIdentifiersReply (identifiers : list nat)
| DoneReply
| FailedReply (e : Error).

Record Engine := mkEngine {
  caches : gmap nat Caches;
  m_nextCacheIdentifier : nat;
  m_salt : bool;
  m_cacheLocks : gmap nat Z;
  m_initializationCallbacks : list (nat * CachesOp);
  m_pendingClearCallbacks : list (nat * CachesOp);
  m_clearTaskCounter : nat;
  tasks : list Task;
  putCounters : gmap nat PutCounter;
  readCounters : gmap nat ReadCounter;
  aggregators : gmap nat Aggregator;
  (* unique names, keys of records and numbers of counters *)
  nextUnique : nat;
  storageAttempts : nat;
  now : Z;
  (* the caches each web process refers to: [CacheStorageEngineConnection] *)
  m_cachesLocks : gmap nat (gmap nat nat);
  answered : list (nat * Reply);
  (* callbacks destroyed without being called *)
  dropped : list nat;
  (* a null pointer was used *)
  crashed : bool
}.
#[global] Instance eta_Engine : Eta Engine := fun r =>
  mkEngine (caches r) (m_nextCacheIdentifier r) (m_salt r) (m_cacheLocks r) (m_initializationCallbacks r) (m_pendingClearCallbacks r) (m_clearTaskCounter r)
    (tasks r) (putCounters r) (readCounters r) (aggregators r) (nextUnique r) (storageAttempts r) (now r) (m_cachesLocks r) (answered r) (dropped r) (crashed r).

Implicit Types w : Engine.

(** Whether the session has files, whether the storage can be opened the n-th time, and the
    order [std::sort] gives the records of a traversal. *)
Context (shouldPersist : bool) (opensStorage : nat -> bool) (sortByInsertionTime : list RecordInformation -> list RecordInformation).

Definition onCaches (o : nat) (f : Caches -> Caches) w : Engine := w <| caches := alter f o (caches w) |>.
Definition start (t : Task) w : Engine := w <| tasks := tasks w ++ [t] |>.
Definition answer (callback : nat) (r : Reply) w : Engine := w <| answered := answered w ++ [(callback, r)] |>.
Definition fresh w : nat * Engine := (nextUnique w, w <| nextUnique := S (nextUnique w) |>).
Definition crash w : Engine := w <| crashed := true |>.

(** ** Cache: the records *)

Definition computeKeyURL (u : URL) : string := withoutQueryAndFragment u.

(** [String::split]: the pieces between commas that are not empty. *)
Fixpoint splitAtCommas (piece s : string) : list string :=
  match s with
  | EmptyString => if decide (piece = EmptyString) then [] else [piece]
  | String c s => if Ascii.eqb c ","%char
                  then (if decide (piece = EmptyString) then [] else [piece]) ++ splitAtCommas EmptyString s
                  else splitAtCommas (piece +:+ String c EmptyString) s
  end.

Definition addVaryHeader (request : Request) (m : gmap string (option string)) (name : string) : gmap string (option string) :=
  match m !! name with Some _ => m | None => <[name := httpHeaderField request name]> m end.

Definition updateVaryInformation (i : RecordInformation) (request : Request) (response : option Response) : RecordInformation :=
  match response ≫= varyOf with
  | None => i <| hasVaryStar := false |> <| varyHeaders := ∅ |>
  | Some value =>
      let views := splitAtCommas EmptyString value in
      let star := hasVaryStar i || existsb (fun v => bool_decide (stripLeadingAndTrailingHTTPSpaces v = "*")) views in
      let headers := fold_left (addVaryHeader request) views (varyHeaders i) in
      i <| hasVaryStar := star |> <| varyHeaders := if star then ∅ else headers |>
  end.

Definition queryCache (records : option (list RecordInformation)) (request : Request) (options : Options) : list nat :=
  match records with
  | None => []
  | Some records =>
      if negb (ignoreMethod options) && negb (isGET request) then []
      else map ri_identifier (filter (fun i => queryCacheMatch request (url i) (hasVaryStar i) (varyHeaders i) options = true) records)
  end.

Definition toRecordInformation (r : Record_) w : RecordInformation * Engine :=
  let '(k, w) := fresh w in
  (updateVaryInformation (mkInformation k (now w) (identifier r) 0 (responseBodySize r) (urlOf (request r)) false ∅) (request r) (response r), w).

Definition recordsFromURL (u : URL) (c : Cache) : option (list RecordInformation) := m_records c !! computeKeyURL u.

(** [Caches::find] *)
Definition findIn (id : nat) (l : list Cache) : option Cache := find (fun c => Nat.eqb (m_identifier c) id) l.
Arguments findIn : simpl never.
Definition findById (id : nat) (c : Caches) : option Cache := match findIn id (m_caches c) with Some x => Some x | None => findIn id (m_removedCaches c) end.
Definition findByName (name : string) (c : Caches) : option Cache := find (fun x => bool_decide (m_name x = name)) (m_caches c).

(** A change of the object that [find] returns. *)
Fixpoint modifyIn (id : nat) (f : Cache -> Cache) (l : list Cache) : list Cache :=
  match l with [] => [] | c :: l => if Nat.eqb (m_identifier c) id then f c :: l else c :: modifyIn id f l end.
Definition modifyCache (id : nat) (f : Cache -> Cache) (c : Caches) : Caches :=
  match findIn id (m_caches c) with
  | Some _ => c <| m_caches := modifyIn id f (m_caches c) |>
  | None => c <| m_removedCaches := modifyIn id f (m_removedCaches c) |>
  end.
Definition onCache (o id : nat) (f : Cache -> Cache) w : Engine := onCaches o (modifyCache id f) w.

Definition cacheIn (o id : nat) w : option Cache := caches w !! o ≫= findById id.

(** *** The task counters *)

Definition derefPut (k : nat) w : Engine :=
  match putCounters w !! k with
  | None => w
  | Some c =>
      match pc_refs c with
      | S (S n) => w <| putCounters := <[k := c <| pc_refs := S n |>]> (putCounters w) |>
      | _ => answer (pc_callback c) (match m_error c with Some e => FailedReply e | None => RecordIdentifiersReply (m_recordIdentifiers c) end)
               (w <| putCounters := delete k (putCounters w) |>)
      end
  end.
Definition onPut (k : nat) (f : PutCounter -> PutCounter) w : Engine := w <| putCounters := alter f k (putCounters w) |>.
Definition setError (e : Error) (c : PutCounter) : PutCounter := match m_error c with Some _ => c | None => c <| m_error := Some e |> end.
Definition onRead (k : nat) (f : ReadCounter -> ReadCounter) w : Engine := w <| readCounters := alter f k (readCounters w) |>.

(** *** Reading and writing records *)

Definition hasStorage (o : nat) w : bool := match caches w !! o with Some c => m_storage c | None => false end.
Definition resize (delta : Z) (c : Caches) : Caches := c <| m_size := wrap 64 (m_size c + delta) |>.

Definition writeRecord (o : nat) (i : RecordInformation) (r : Record_) (previousRecordSize : Z) (counter : nat) w : Engine :=
  let w := onCaches o (resize (size i - previousRecordSize)) w in
  if negb shouldPersist then derefPut counter (onCaches o (fun c => c <| m_volatileStorage := <[key i := r]> (m_volatileStorage c) |>) w)
  else if hasStorage o w then start (StoreRecord o counter) w else crash w.

Definition removeCacheEntry (o k : nat) w : Engine :=
  if negb shouldPersist then onCaches o (fun c => c <| m_volatileStorage := delete k (m_volatileStorage c) |>) w
  else if hasStorage o w then w else crash w.
Definition removeRecord (o : nat) (i : RecordInformation) w : Engine := removeCacheEntry o (key i) (onCaches o (resize (- size i)) w).

(** The answer of the volatile storage. *)
Definition volatileRecord (o k : nat) w : option Record_ := match caches w !! o with Some c => m_volatileStorage c !! k | None => None end.

Fixpoint modifyFirst (id : nat) (f : RecordInformation -> RecordInformation) (l : list RecordInformation) : list RecordInformation :=
  match l with [] => [] | i :: l => if Nat.eqb (ri_identifier i) id then f i :: l else i :: modifyFirst id f l end.
Definition modifyRecord (u : URL) (id : nat) (f : RecordInformation -> RecordInformation) (c : Cache) : Cache :=
  c <| m_records := alter (modifyFirst id f) (computeKeyURL u) (m_records c) |>.
Definition findRecord (id : nat) (l : list RecordInformation) : option RecordInformation := find (fun i => Nat.eqb (ri_identifier i) id) l.

(** The rest of [updateRecordToDisk], when the record has been read. *)
Definition continueUpdate (o id recordIdentifier : nat) (r : Record_) (counter : nat) (result : option Record_) w : Engine :=
  match result, cacheIn o id w with
  | Some fromDisk, Some c =>
      let u := urlOf (request fromDisk) in
      match recordsFromURL u c ≫= findRecord recordIdentifier with
      | Some i =>
          let r := r <| request := request fromDisk |> in
          let i' := updateVaryInformation (i <| size := responseBodySize r |>) (request r) (response r) in
          writeRecord o i' r (size i) counter (onCache o id (modifyRecord u recordIdentifier (fun _ => i')) w)
      | None => derefPut counter w
      end
  | _, _ => derefPut counter w
  end.

Definition updateRecordToDisk (o id : nat) (i : RecordInformation) (r : Record_) (counter : nat) w : Engine :=
  let w := onCache o id (modifyRecord (urlOf (request r)) (ri_identifier i) (fun i => i <| ri_updateResponseCounter := S (ri_updateResponseCounter i) |>)) w in
  if negb shouldPersist then continueUpdate o id (ri_identifier i) r counter (volatileRecord o (key i) w) w
  else if hasStorage o w then start (ReadForUpdate o id (ri_identifier i) r counter) w else crash w.

(** The record that a new one replaces: the first that matches its request. *)
Definition existingRecord (r : Record_) (c : Cache) : option RecordInformation :=
  let sameURLRecords := recordsFromURL (urlOf (request r)) c in
  match queryCache sameURLRecords (request r) defaultOptions with
  | first :: _ => sameURLRecords ≫= findRecord first
  | [] => None
  end.

Definition addRecord (i : RecordInformation) (c : Cache) : Cache :=
  let k := computeKeyURL (url i) in
  c <| m_records := <[k := default [] (m_records c !! k) ++ [i]]> (m_records c) |>.

Definition storeRecord (o id counter : nat) w (r : Record_) : Engine :=
  match cacheIn o id w with
  | None => w
  | Some c =>
      let retain := fun n => onPut counter (fun p => p <| m_recordIdentifiers := m_recordIdentifiers p ++ [n] |> <| pc_refs := S (pc_refs p) |>) in
      match existingRecord r c with
      | None =>
          let n := S (m_nextRecordIdentifier c) in
          let r := r <| identifier := n |> in
          let w := onCache o id (fun c => c <| m_nextRecordIdentifier := n |>) (retain n w) in
          let '(i, w) := toRecordInformation r w in
          writeRecord o i r 0 counter (onCache o id (addRecord i) w)
      | Some i => updateRecordToDisk o id i r counter (retain (ri_identifier i) w)
      end
  end.

Definition storeRecords (o id : nat) (records : list Record_) (callback : nat) w : Engine :=
  let '(counter, w) := fresh w in
  let w := w <| putCounters := <[counter := mkPutCounter 1 None [] callback]> (putCounters w) |> in
  derefPut counter (fold_left (storeRecord o id counter) records w).

(** [put]: the space the records need beyond that of those they replace, or an overflow.  A
    record that replaces another after an overflow is still compared in the source; what WTF
    does when an overflowed [CheckedUint64] is compared is outside the repository and is left
    out, so that an overflow always ends in [QuotaExceeded] here. *)
Definition addSpace (c : Cache) (spaceRequired : option Z) (r : Record_) : option Z :=
  s ← spaceRequired;
  let s := s + responseBodySize r in
  if 2 ^ 64 <=? s then None
  else Some (match existingRecord r c with Some i => if size i <=? s then s - size i else s | None => s end).
Definition put (o id : nat) (records : list Record_) (callback : nat) w : Engine :=
  match cacheIn o id w with
  | None => w
  | Some c => match fold_left (addSpace c) records (Some 0) with
              | None => answer callback (FailedReply QuotaExceeded) w
              | Some _ => start (RequestSpace o id records callback) w
              end
  end.
(** The callback of [requestSpace]. *)
Definition spaceAnswered (o id : nat) (records : list Record_) (callback : nat) (granted : bool) w : Engine :=
  if negb granted then answer callback (FailedReply QuotaExceeded) w
  else match cacheIn o id w with
       | None => answer callback (FailedReply Internal) w
       | Some _ => storeRecords o id records callback w
       end.

(** *** Removing records *)

Definition dropRecords (ids : list nat) (c : Cache) : Cache :=
  c <| m_records := (fun l => filter (fun i => (ri_identifier i ∉ ids)) l) <$> m_records c |>.
Definition recordList (c : Cache) : list RecordInformation := concat (map snd (map_to_list (m_records c))).

Definition remove (o id : nat) (req : Request) (options : Options) (callback : nat) w : Engine :=
  match cacheIn o id w with
  | None => w
  | Some c =>
      let records := recordsFromURL (urlOf req) c in
      let ids := queryCache records req options in
      if decide (ids = []) then answer callback (RecordIdentifiersReply []) w
      else
        let w := fold_left (fun w i => removeRecord o i w) (filter (fun i => ri_identifier i ∈ ids) (default [] records)) w in
        let w := onCache o id (fun c => c <| m_records := alter (filter (fun i => (ri_identifier i ∉ ids))) (computeKeyURL (urlOf req)) (m_records c) |>) w in
        if negb shouldPersist then answer callback (RecordIdentifiersReply ids) w else start (WriteSizeAfterRemove ids callback) w
  end.

Definition removeFromRecordList (o id : nat) (ids : list nat) w : Engine :=
  match cacheIn o id w with
  | None => w
  | Some c =>
      let w := fold_left (fun w i => removeRecord o i w) (filter (fun i => ri_identifier i ∈ ids) (recordList c)) w in
      onCache o id (dropRecords ids) w
  end.

(** *** Retrieving records *)

Definition appendRecord (recordIdentifier updateCounter : nat) (result : option Record_) (c : ReadCounter) : ReadCounter :=
  match result with
  | None => c <| m_failedRecords := m_failedRecords c ++ [recordIdentifier] |>
  | Some r => c <| rc_records := rc_records c ++ [r <| identifier := recordIdentifier |> <| updateResponseCounter := updateCounter |>] |>
  end.

Definition byIdentifier (a b : Record_) : Prop := (identifier a <= identifier b)%nat.
#[global] Instance byIdentifier_dec a b : Decision (byIdentifier a b).
Proof. unfold byIdentifier. apply _. Defined.
Definition stripResponse (r : Record_) : Record_ := r <| response := None |> <| responseBody := 0%nat |> <| responseBodySize := 0 |>.

Definition derefRead (k : nat) w : Engine :=
  match readCounters w !! k with
  | None => w
  | Some c =>
      match rc_refs c with
      | S (S n) => w <| readCounters := <[k := c <| rc_refs := S n |>]> (readCounters w) |>
      | _ =>
          let w := w <| readCounters := delete k (readCounters w) |> in
          let w := removeFromRecordList (rc_origin c) (rc_cache c) (m_failedRecords c) w in
          let records := merge_sort byIdentifier (rc_records c) in
          answer (rc_callback c) (RecordsReply (if rc_provideResponse c then records else map stripResponse records)) w
      end
  end.

(** The callback of [retrieveRecord]. *)
Definition recordRead (o id recordIdentifier updateCounter counter : nat) (result : option Record_) w : Engine :=
  derefRead counter (match cacheIn o id w with Some _ => onRead counter (appendRecord recordIdentifier updateCounter result) w | None => w end).

Definition retrieveRecord (o id counter : nat) w (i : RecordInformation) : Engine :=
  let w := onRead counter (fun c => c <| rc_refs := S (rc_refs c) |>) w in
  if negb shouldPersist then recordRead o id (ri_identifier i) (ri_updateResponseCounter i) counter (volatileRecord o (key i) w) w
  else if hasStorage o w then start (ReadForRetrieve o id (ri_identifier i) (ri_updateResponseCounter i) counter) w else crash w.

Definition recordsToRetrieve (options : RetrieveRecordsOptions) (c : Cache) : list RecordInformation :=
  let req := ro_request options in
  if isNullURL (urlOf req) then recordList c
  else if negb (ignoreMethod (ro_options options)) && negb (isGET req) then []
  else filter (fun i => queryCacheMatch req (url i) (hasVaryStar i) (varyHeaders i) (ro_options options) = true) (default [] (recordsFromURL (urlOf req) c)).

Definition retrieveRecords (o id : nat) (options : RetrieveRecordsOptions) (callback : nat) w : Engine :=
  match cacheIn o id w with
  | None => w
  | Some c =>
      let '(counter, w) := fresh w in
      let w := w <| readCounters := <[counter := mkReadCounter 1 [] [] o id (shouldProvideResponse options) callback]> (readCounters w) |> in
      derefRead counter (fold_left (retrieveRecord o id counter) (recordsToRetrieve options c) w)
  end.

Definition runOp (o id : nat) (op : CacheOp) w : Engine :=
  match op with
  | RetrieveOp options callback => retrieveRecords o id options callback w
  | PutOp records callback => put o id records callback w
  | DeleteOp req options callback => remove o id req options callback w
  end.
Definition opCallback (op : CacheOp) : nat := match op with RetrieveOp _ n | PutOp _ n | DeleteOp _ _ n => n end.

(** ** Opening a cache *)

(** [Engine::cache] with the object that owns the result. *)
Definition originOf (id : nat) w : option nat := fst <$> find (fun x => bool_decide (is_Some (findById id (snd x)))) (map_to_list (caches w)).

Definition runOpenCallback (e : option Error) w (callback : OpenCallback) : Engine :=
  match callback, e with
  | OpenedByName id n, None => answer n (CacheIdentifierReply id false) w
  | OpenedByName _ n, Some e => answer n (FailedReply e) w
  | OpenedForOp id op, None => match originOf id w with Some o => runOp o id op w | None => answer (opCallback op) (FailedReply Internal) w end
  | OpenedForOp _ op, Some e => answer (opCallback op) (FailedReply e) w
  end.

(** [Cache::open] *)
Definition openCache (o id : nat) (callback : OpenCallback) w : Engine :=
  match m_state <$> cacheIn o id w with
  | None => w
  | Some Open => runOpenCallback None w callback
  | Some Opening => onCache o id (fun c => c <| m_pendingOpeningCallbacks := m_pendingOpeningCallbacks c ++ [callback] |>) w
  | Some Uninitialized => start (TraverseRecords o id callback) (onCache o id (fun c => c <| m_state := Opening |>) w)
  end.

(** A record the storage holds, with its decoded header. *)
Record StoredRecord := mkStored { st_key : nat; st_insertionTime : Z; st_request : Request; st_response : option Response; st_responseBodySize : Z }.
Definition informationOf (s : StoredRecord) : RecordInformation :=
  updateVaryInformation (mkInformation (st_key s) (st_insertionTime s) 0 0 (st_responseBodySize s) (urlOf (st_request s)) false ∅) (st_request s) (st_response s).

(** The identifiers [finishOpening] gives, by insertion time. *)
Fixpoint numbering (n : nat) (l : list RecordInformation) : gmap nat nat :=
  match l with [] => ∅ | i :: l => <[key i := S n]> (numbering (S n) l) end.
Definition identify (c : Cache) : Cache :=
  let numbers := numbering (m_nextRecordIdentifier c) (sortByInsertionTime (recordList c)) in
  c <| m_records := map (fun i => i <| ri_identifier := default 0%nat (numbers !! key i) |>) <$> m_records c |>
    <| m_nextRecordIdentifier := (m_nextRecordIdentifier c + length (recordList c))%nat |>.

Definition finishOpening (o id : nat) (callback : OpenCallback) w : Engine :=
  let w := onCache o id (fun c => identify c <| m_state := Open |>) w in
  let w := runOpenCallback None w callback in
  match cacheIn o id w with
  | Some c => fold_left (runOpenCallback None) (m_pendingOpeningCallbacks c) (onCache o id (fun c => c <| m_pendingOpeningCallbacks := [] |>) w)
  | None => w
  end.

(** The end of the traversal [Cache::open] started. *)
Definition recordsTraversed (o id : nat) (callback : OpenCallback) (failed : list nat) (stored : list StoredRecord) w : Engine :=
  let w := fold_left (fun w k => removeCacheEntry o k w) failed w in
  match cacheIn o id w with
  | None => runOpenCallback (Some Internal) w callback
  | Some _ => finishOpening o id callback (onCache o id (fun c => fold_left (fun c i => addRecord i c) (map informationOf stored) (c <| m_records := ∅ |>)) w)
  end.

Definition readCache (id : nat) (op : CacheOp) w : Engine :=
  match originOf id w with
  | None => answer (opCallback op) (FailedReply Internal) w
  | Some o => match m_state <$> cacheIn o id w with
              | Some Open => runOp o id op w
              | _ => openCache o id (OpenedForOp id op) w
              end
  end.

(** ** Caches *)

Definition makeDirty (c : Caches) : Caches := c <| m_updateCounter := wrap 64 (m_updateCounter c + 1) |>.

Definition wrote (callback : WriteCallback) (error : bool) w : Engine :=
  match callback with WroteForOpen id n | WroteForRemove id n => answer n (CacheIdentifierReply id error) w end.
Definition writeCachesToDisk (o : nat) (callback : WriteCallback) w : Engine :=
  match caches w !! o with
  | None => w
  | Some c =>
      if negb shouldPersist || bool_decide (m_caches c = []) then wrote callback false w
      else start (WriteCachesList o callback) (onCaches o (fun c => c <| m_isWritingCachesToDisk := true |>) w)
  end.

Definition pend (o : nat) (p : PendingWrite) w : Engine :=
  onCaches o (fun c => c <| m_pendingWritingCachesToDiskCallbacks := m_pendingWritingCachesToDiskCallbacks c ++ [p] |>) w.
Definition isWriting (o : nat) w : bool := match caches w !! o with Some c => m_isWritingCachesToDisk c | None => false end.

Definition openCaches (o : nat) (name : string) (callback : nat) w : Engine :=
  match caches w !! o with
  | None => w
  | Some c =>
      if m_isWritingCachesToDisk c then pend o (PendingOpen name callback) w
      else match findByName name c with
           | Some x => openCache o (m_identifier x) (OpenedByName (m_identifier x) callback) w
           | None =>
               let id := S (m_nextCacheIdentifier w) in
               let '(unique, w) := fresh (w <| m_nextCacheIdentifier := id |>) in
               let w := onCaches o (fun c => makeDirty c <| m_caches := m_caches c ++ [mkCache Open id name unique ∅ 0 []] |>) w in
               writeCachesToDisk o (WroteForOpen id callback) w
           end
  end.

(** [Vector::remove] of the first cache with an identifier. *)
Fixpoint removeCacheFrom (id : nat) (l : list Cache) : list Cache :=
  match l with [] => [] | c :: l => if Nat.eqb (m_identifier c) id then l else c :: removeCacheFrom id l end.

Definition removeCaches (o id callback : nat) w : Engine :=
  match caches w !! o with
  | None => w
  | Some c =>
      if m_isWritingCachesToDisk c then pend o (PendingRemove id callback) w
      else match findIn id (m_caches c) with
           | None => answer callback (CacheIdentifierReply 0 false) w
           | Some x =>
               let w := onCaches o (fun c => makeDirty c <| m_removedCaches := m_removedCaches c ++ [x] |> <| m_caches := removeCacheFrom id (m_caches c) |>) w in
               writeCachesToDisk o (WroteForRemove id callback) w
           end
  end.

Definition cacheInfos (o : nat) (updateCounter : Z) (callback : nat) w : Engine :=
  match caches w !! o with
  | None => w
  | Some c =>
      if m_isWritingCachesToDisk c then pend o (PendingInfos updateCounter callback) w
      else answer callback (CacheInfosReply (if bool_decide (m_updateCounter c = updateCounter) then [] else map (fun x => (m_identifier x, m_name x)) (m_caches c)) (m_updateCounter c)) w
  end.

(** The callbacks that die with a [Cache]. *)
Definition openCallbackOf (c : OpenCallback) : nat := match c with OpenedByName _ n => n | OpenedForOp _ op => opCallback op end.
Definition waiting (c : Cache) : list nat := map openCallbackOf (m_pendingOpeningCallbacks c).
Definition dropWaiting (l : list Cache) w : Engine := w <| dropped := dropped w ++ concat (map waiting l) |>.

Definition clearMemoryRepresentation (o : nat) w : Engine :=
  match caches w !! o with
  | None => w
  | Some c =>
      onCaches o (fun c => makeDirty c <| m_caches := [] |> <| m_isInitialized := false |> <| m_storage := false |> <| m_volatileStorage := ∅ |>) (dropWaiting (m_caches c) w)
  end.

Definition isActive (c : Cache) : bool := bool_decide (m_state c <> Uninitialized).
Definition hasActiveCache (c : Caches) : bool := negb (bool_decide (m_removedCaches c = [])) || existsb isActive (m_caches c).

Definition dispose (o id : nat) w : Engine :=
  match caches w !! o with
  | None => w
  | Some c =>
      match findIn id (m_removedCaches c) with
      | Some x => onCaches o (fun c => c <| m_removedCaches := removeCacheFrom id (m_removedCaches c) |>) (dropWaiting [x] w)
      | None =>
          if negb shouldPersist then w
          else
            let w := onCache o id (fun c => c <| m_records := ∅ |> <| m_nextRecordIdentifier := 0%nat |> <| m_state := Uninitialized |>) w in
            match caches w !! o with
            | Some c => if hasActiveCache c then w else clearMemoryRepresentation o w
            | None => w
            end
      end
  end.

(** *** Initialization *)

Definition opOrigin (op : CachesOp) : nat := match op with OpenOp _ n | InfosOp _ n | ClearMemoryOp n => n end.
Definition runCachesOp (o : nat) w (op : CachesOp) : Engine :=
  match op with
  | OpenOp name n => openCaches o name n w
  | InfosOp updateCounter n => cacheInfos o updateCounter n w
  | ClearMemoryOp n => answer n DoneReply (clearMemoryRepresentation o w)
  end.
Definition failOp (e : Error) w (op : CachesOp) : Engine := answer (opOrigin op) (FailedReply e) w.

(** The pending callbacks are taken out and called. *)
Definition takeInitializationCallbacks (o : nat) (run : Engine -> CachesOp -> Engine) w : Engine :=
  match caches w !! o with
  | None => w
  | Some c => fold_left run (m_pendingInitializationCallbacks c) (onCaches o (fun c => c <| m_pendingInitializationCallbacks := [] |>) w)
  end.

Definition initialize (o : nat) w (op : CachesOp) : Engine :=
  match caches w !! o with
  | None => w
  | Some c =>
      if m_isInitialized c then runCachesOp o w op
      else if negb shouldPersist then runCachesOp o (onCaches o (fun c => makeDirty c <| m_isInitialized := true |>) w) op
      else
        let wait := onCaches o (fun c => c <| m_pendingInitializationCallbacks := m_pendingInitializationCallbacks c ++ [op] |>) in
        if m_storage c then wait w
        else
          let attempt := storageAttempts w in
          let w := w <| storageAttempts := S attempt |> in
          if opensStorage attempt then start (StoreOrigin o) (onCaches o (fun c => c <| m_storage := true |>) (wait w)) else failOp WriteDisk w op
  end.

Definition initializeSize (o : nat) w : Engine :=
  if hasStorage o w then start (TraverseForSize o) w else takeInitializationCallbacks o (failOp Internal) w.

Definition giveUp (o : nat) (e : Error) w : Engine := onCaches o (fun c => c <| m_storage := false |>) (takeInitializationCallbacks o (failOp e) w).

Definition readCache_ (w : Engine) (names : string * nat) : Engine * Cache :=
  let id := S (m_nextCacheIdentifier w) in (w <| m_nextCacheIdentifier := id |>, mkCache Uninitialized id (fst names) (snd names) ∅ 0 []).
Fixpoint readCaches (names : list (string * nat)) w : Engine * list Cache :=
  match names with
  | [] => (w, [])
  | n :: names => let '(w, c) := readCache_ w n in let '(w, l) := readCaches names w in (w, c :: l)
  end.

(** The callback of [readCachesFromDisk] in [initialize]. *)
Definition cachesRead (o : nat) (result : option (list (string * nat))) w : Engine :=
  match result with
  | None => giveUp o ReadDisk (onCaches o makeDirty w)
  | Some names =>
      let '(w, l) := readCaches names w in
      let w := match caches w !! o with Some c => dropWaiting (m_caches c) w | None => w end in
      initializeSize o (onCaches o (fun c => makeDirty c <| m_caches := l |>) w)
  end.
Definition originStored (o : nat) (error fileExists : bool) w : Engine :=
  if error then giveUp o WriteDisk w else if fileExists then start (ReadCachesList o) w else cachesRead o (Some []) w.

Definition sizeTraversed (o : nat) (sizes : list Z) w : Engine :=
  match caches w !! o with
  | None => w
  | Some c =>
      if bool_decide (map opOrigin (m_pendingInitializationCallbacks c) = []) then onCaches o (fun c => c <| m_storage := false |>) w
      else start (WriteInitialSize o) (onCaches o (fun c => c <| m_size := wrap 64 (foldr Z.add 0 sizes) |>) w)
  end.
Definition initialSizeWritten (o : nat) w : Engine :=
  takeInitializationCallbacks o (runCachesOp o) (onCaches o (fun c => c <| m_isInitialized := true |>) w).

(** ** Engine *)

(** The callback of [Engine::initialize] in [Engine::readCachesFromDisk]. *)
Definition proceed w (x : nat * CachesOp) : Engine :=
  let '(o, op) := x in
  let w := match caches w !! o with Some _ => w | None => w <| caches := <[o := mkCaches false 0 0 [] [] false ∅ [] false []]> (caches w) |> end in
  initialize o w op.

Definition initializeEngine w (x : nat * CachesOp) : Engine :=
  if negb (Nat.eqb (m_clearTaskCounter w) 0) || negb (Nat.eqb (length (m_pendingClearCallbacks w)) 0) then w <| m_pendingClearCallbacks := m_pendingClearCallbacks w ++ [x] |>
  else if m_salt w then proceed w x
  else if negb shouldPersist then proceed (w <| m_salt := true |>) x
  else
    let shouldComputeSalt := Nat.eqb (length (m_initializationCallbacks w)) 0 in
    let w := w <| m_initializationCallbacks := m_initializationCallbacks w ++ [x] |> in
    if shouldComputeSalt then start MakeSalt w else w.

Definition saltMade (ok : bool) w : Engine :=
  let callbacks := m_initializationCallbacks w in
  let w := w <| m_salt := ok |> <| m_initializationCallbacks := [] |> in
  if ok then fold_left proceed callbacks w else fold_left (fun w x => failOp WriteDisk w (snd x)) callbacks w.

(** *** Clearing *)

(** The completion handler of [createClearTask]. *)
Definition finishClear (callback : nat) w : Engine :=
  let w := answer callback DoneReply w in
  let w := w <| m_clearTaskCounter := pred (m_clearTaskCounter w) |> in
  if Nat.eqb (m_clearTaskCounter w) 0
  then fold_left initializeEngine (m_pendingClearCallbacks w) (w <| m_pendingClearCallbacks := [] |>) else w.

Definition derefAggregator (a : nat) w : Engine :=
  match aggregators w !! a with
  | None => w
  | Some g =>
      match ag_refs g with
      | S (S n) => w <| aggregators := <[a := g <| ag_refs := S n |>]> (aggregators w) |>
      | _ =>
          let w := w <| aggregators := delete a (aggregators w) |> in
          if negb shouldPersist then finishClear (ag_callback g) w else start (DeleteDirectories (ag_callback g)) w
      end
  end.

(** [Caches::clear]; [last] is what its last lines do to the callbacks that wait for a write. *)
Definition clearCachesWith (last : nat -> Engine -> Engine) (o a : nat) w : Engine :=
  if isWriting o w then pend o (PendingClear a) w
  else
    let w := takeInitializationCallbacks o (failOp Internal) w in
    if hasStorage o w then start (ClearStorage o a) w
    else derefAggregator a (last o (clearMemoryRepresentation o w)).

(** A callback that waits for a write is told of an error.  A clear that waits is done; no
    callback waits behind it, since all were taken out together. *)
Definition failPending (o : nat) w (p : PendingWrite) : Engine :=
  match p with
  | PendingOpen _ n | PendingRemove _ n | PendingInfos _ n => answer n (FailedReply Internal) w
  | PendingClear a => clearCachesWith (fun _ w => w) o a w
  end.
Definition clearPendingWritingCachesToDiskCallbacks (o : nat) w : Engine :=
  match caches w !! o with
  | None => w
  | Some c => fold_left (failPending o) (m_pendingWritingCachesToDiskCallbacks c) (onCaches o (fun c => c <| m_pendingWritingCachesToDiskCallbacks := [] |>) w)
  end.
Definition clearCaches : nat -> nat -> Engine -> Engine := clearCachesWith clearPendingWritingCachesToDiskCallbacks.

Definition storageCleared (o a : nat) w : Engine := derefAggregator a (clearMemoryRepresentation o w).

(** *** The end of a write of the list of caches *)

Definition runPending (o : nat) (p : PendingWrite) w : Engine :=
  match p with
  | PendingOpen name n => openCaches o name n w
  | PendingRemove id n => removeCaches o id n w
  | PendingInfos updateCounter n => cacheInfos o updateCounter n w
  | PendingClear a => clearCaches o a w
  end.
Fixpoint runPendingWrites (fuel o : nat) w : Engine :=
  match fuel, caches w !! o with
  | S fuel, Some c =>
      match m_pendingWritingCachesToDiskCallbacks c with
      | p :: l =>
          if m_isWritingCachesToDisk c then w
          else runPendingWrites fuel o (runPending o p (onCaches o (fun c => c <| m_pendingWritingCachesToDiskCallbacks := l |>) w))
      | [] => w
      end
  | _, _ => w
  end.
Definition pendingCount (o : nat) w : nat := match caches w !! o with Some c => length (m_pendingWritingCachesToDiskCallbacks c) | None => 0 end.
Definition cachesListWritten (o : nat) (callback : WriteCallback) (error : bool) w : Engine :=
  let w := wrote callback error (onCaches o (fun c => c <| m_isWritingCachesToDisk := false |>) w) in
  runPendingWrites (pendingCount o w) o w.

(** *** Requests of web processes *)

Definition removeFromEngine (id callback : nat) w : Engine :=
  match originOf id w with None => answer callback (FailedReply Internal) w | Some o => removeCaches o id callback w end.

(** [clearAllCaches] and [clearCachesForOrigin], for the origins in a list. *)
Definition clearOrigins (concerned : nat -> bool) (callback : nat) w : Engine :=
  let '(a, w) := fresh (w <| m_clearTaskCounter := S (m_clearTaskCounter w) |>) in
  let w := w <| aggregators := <[a := mkAggregator 1 callback]> (aggregators w) |> in
  let retain := fun g => g <| ag_refs := S (ag_refs g) |> in
  let w := fold_left (fun w o => clearCaches o a (w <| aggregators := alter retain a (aggregators w) |>)) (filter (fun o => concerned o = true) (map fst (map_to_list (caches w)))) w in
  derefAggregator a w.

Definition lock (id : nat) w : Engine := w <| m_cacheLocks := <[id := wrap 64 (default 0 (m_cacheLocks w !! id) + 1)]> (m_cacheLocks w) |>.
Definition unlock (id : nat) w : Engine :=
  match m_cacheLocks w !! id with
  | None => w
  | Some n =>
      let n := wrap 64 (n - 1) in
      let w := w <| m_cacheLocks := <[id := n]> (m_cacheLocks w) |> in
      if negb (n =? 0) then w else match originOf id w with Some o => dispose o id w | None => w end
  end.

(** ** CacheStorageEngineConnection *)

Definition locksOf (connection : nat) w : gmap nat nat := default ∅ (m_cachesLocks w !! connection).
Definition setLocks (connection : nat) (m : gmap nat nat) w : Engine := w <| m_cachesLocks := <[connection := m]> (m_cachesLocks w) |>.

(** [HashMap::isValidKey]: neither the empty nor the deleted value. *)
Definition isValidKey (id : nat) : bool := negb (Nat.eqb id 0) && negb (bool_decide (Z.of_nat id = 2 ^ 64 - 1)).

Definition reference (connection id : nat) w : Engine :=
  if negb (isValidKey id) then w else
  let n := default 0%nat (locksOf connection w !! id) in
  let w := setLocks connection (<[id := S n]> (locksOf connection w)) w in
  if Nat.eqb n 0 then lock id w else w.
Definition dereference (connection id : nat) w : Engine :=
  if negb (isValidKey id) then w else
  match locksOf connection w !! id with
  | None => w
  | Some n =>
      if negb (Nat.eqb (pred n) 0) then setLocks connection (<[id := pred n]> (locksOf connection w)) w
      else setLocks connection (delete id (locksOf connection w)) (unlock id w)
  end.
Definition disconnect (connection : nat) w : Engine :=
  fold_left (fun w id => unlock id w) (map fst (map_to_list (locksOf connection w))) (w <| m_cachesLocks := delete connection (m_cachesLocks w) |>).

(** ** Runs *)

(** What the environment answers to a task. *)
Inductive Result :=
| Finished (error fileExists : bool)
| NamesRead (names : option (list (string * nat)))
| SizesTraversed (sizes : list Z)
| RecordsTraversed (failed : list nat) (stored : list StoredRecord)
| RecordRead (r : option Record_).

Definition succeeded (r : Result) : bool := match r with Finished error _ => negb error | _ => true end.

Definition complete (t : Task) (r : Result) w : Engine :=
  match t with
  | StoreOrigin o => originStored o (negb (succeeded r)) (match r with Finished _ e => e | _ => true end) w
  | ReadCachesList o => cachesRead o (match r with NamesRead names => names | _ => None end) w
  | TraverseForSize o => sizeTraversed o (match r with SizesTraversed l => l | _ => [] end) w
  | WriteInitialSize o => initialSizeWritten o w
  | WriteCachesList o callback => cachesListWritten o callback (negb (succeeded r)) w
  | TraverseRecords o id callback => match r with RecordsTraversed failed stored => recordsTraversed o id callback failed stored w | _ => recordsTraversed o id callback [] [] w end
  | RequestSpace o id records callback => spaceAnswered o id records callback (succeeded r) w
  | StoreRecord o counter => if succeeded r then start (WriteSizeAfterStore counter) w else derefPut counter (onPut counter (setError WriteDisk) w)
  | WriteSizeAfterStore counter => derefPut counter w
  | ReadForUpdate o id recordIdentifier record counter => continueUpdate o id recordIdentifier record counter (match r with RecordRead x => x | _ => None end) w
  | ReadForRetrieve o id recordIdentifier updateCounter counter => recordRead o id recordIdentifier updateCounter counter (match r with RecordRead x => x | _ => None end) w
  | WriteSizeAfterRemove ids callback => answer callback (RecordIdentifiersReply ids) w
  | ClearStorage o a => storageCleared o a w
  | MakeSalt => saltMade (succeeded r) w
  | DeleteDirectories callback => finishClear callback w
  end.

Inductive Event :=
| OpenEvent (o : nat) (name : string) (n : nat)
| RemoveEvent (id n : nat)
| InfosEvent (o : nat) (updateCounter : Z) (n : nat)
| ClearMemoryEvent (o n : nat)
| RetrieveEvent (id : nat) (options : RetrieveRecordsOptions) (n : nat)
| PutEvent (id : nat) (records : list Record_) (n : nat)
| DeleteEvent (id : nat) (req : Request) (options : Options) (n : nat)
| ClearEvent (concerned : nat -> bool) (n : nat)
| ReferenceEvent (connection id : nat) | DereferenceEvent (connection id : nat) | DisconnectEvent (connection : nat)
| TimePasses (t : Z)
| TaskDone (i : nat) (r : Result).

Definition exec (e : Event) w : Engine :=
  match e with
  | OpenEvent o name n => initializeEngine w (o, OpenOp name n)
  | RemoveEvent id n => removeFromEngine id n w
  | InfosEvent o u n => initializeEngine w (o, InfosOp u n)
  | ClearMemoryEvent o n => initializeEngine w (o, ClearMemoryOp n)
  | RetrieveEvent id options n => readCache id (RetrieveOp options n) w
  | PutEvent id records n => readCache id (PutOp records n) w
  | DeleteEvent id req options n => readCache id (DeleteOp req options n) w
  | ClearEvent concerned n => clearOrigins concerned n w
  | ReferenceEvent connection id => reference connection id w
  | DereferenceEvent connection id => dereference connection id w
  | DisconnectEvent connection => disconnect connection w
  | TimePasses t => w <| now := t |>
  | TaskDone i r => match tasks w !! i with Some t => complete t r (w <| tasks := delete i (tasks w) |>) | None => w end
  end.

Definition create : Engine := mkEngine ∅ 0 false ∅ [] [] 0 [] ∅ ∅ ∅ 0 0 0 ∅ [] [] false.
Definition runs (h : list Event) : Engine := fold_left (fun w e => exec e w) h create.

(** *** What is held, and by whom *)

(** A request; a reference to a counter or an aggregator; a clear task.  The first are
    conserved, of the others there are as many as the objects count. *)
Inductive Res := Req (n : nat) | PutUse (k : nat) | ReadUse (k : nat) | AggUse (a : nat) | ClearUse.
#[local] Instance Res_eq_decision : EqDecision Res.
Proof. solve_decision. Defined.

Definition amt (r : Res) (l : list (Res * Z)) : Z := foldr (fun x s => (if decide (r = fst x) then snd x else 0) + s) 0 l.
Definition msum {A} (f : nat -> A -> Z) (m : gmap nat A) : Z := foldr (fun x s => f (fst x) (snd x) + s) 0 (map_to_list m).
Definition reqs (l : list nat) : list (Res * Z) := map (fun n => (Req n, 1)) l.
Arguments amt : simpl never.
Arguments msum : simpl never.
Arguments reqs : simpl never.

Definition writeToken (c : WriteCallback) : nat := match c with WroteForOpen _ n | WroteForRemove _ n => n end.
Definition taskRes (t : Task) : list (Res * Z) :=
  match t with
  | WriteCachesList _ c => [(Req (writeToken c), 1)]
  | TraverseRecords _ _ c => [(Req (openCallbackOf c), 1)]
  | RequestSpace _ _ _ n | WriteSizeAfterRemove _ n => [(Req n, 1)]
  | StoreRecord _ k | WriteSizeAfterStore k | ReadForUpdate _ _ _ _ k => [(PutUse k, -1)]
  | ReadForRetrieve _ _ _ _ k => [(ReadUse k, -1)]
  | ClearStorage _ a => [(AggUse a, -1)]
  | DeleteDirectories n => [(Req n, 1); (ClearUse, -1)]
  | _ => []
  end.
Definition pendingRes (p : PendingWrite) : list (Res * Z) :=
  match p with PendingOpen _ n | PendingRemove _ n | PendingInfos _ n => [(Req n, 1)] | PendingClear a => [(AggUse a, -1)] end.
Definition cachesRes (c : Caches) : list (Res * Z) :=
  reqs (map opOrigin (m_pendingInitializationCallbacks c)) ++ concat (map pendingRes (m_pendingWritingCachesToDiskCallbacks c)) ++
  reqs (concat (map waiting (m_caches c))) ++ reqs (concat (map waiting (m_removedCaches c))).
Definition putRes (k : nat) (c : PutCounter) : list (Res * Z) := [(Req (pc_callback c), 1); (PutUse k, Z.of_nat (pc_refs c))].
Definition readRes (k : nat) (c : ReadCounter) : list (Res * Z) := [(Req (rc_callback c), 1); (ReadUse k, Z.of_nat (rc_refs c))].
Definition aggRes (a : nat) (g : Aggregator) : list (Res * Z) := [(Req (ag_callback g), 1); (AggUse a, Z.of_nat (ag_refs g)); (ClearUse, -1)].
Definition opsRes (l : list (nat * CachesOp)) : list (Res * Z) := reqs (map (fun x => opOrigin (snd x)) l).

Arguments opsRes : simpl never.

(** What is held, less what counts it. *)
Definition held (r : Res) w : Z :=
  amt r (opsRes (m_initializationCallbacks w)) + amt r (opsRes (m_pendingClearCallbacks w)) + amt r (concat (map taskRes (tasks w))) +
  msum (fun _ c => amt r (cachesRes c)) (caches w) + msum (fun k c => amt r (putRes k c)) (putCounters w) +
  msum (fun k c => amt r (readRes k c)) (readCounters w) + msum (fun a g => amt r (aggRes a g)) (aggregators w).
Definition bal (r : Res) w : Z :=
  amt r (reqs (map fst (answered w))) + amt r (reqs (dropped w)) + amt r [(ClearUse, Z.of_nat (m_clearTaskCounter w))] + held r w.

Lemma amt_app r l l' : amt r (l ++ l') = amt r l + amt r l'.
Proof. induction l as [|x l IH]; cbn; [done|]. unfold amt in *. cbn. rewrite IH. lia. Qed.
Lemma amt_cons r x q l : amt r ((x, q) :: l) = amt r [(x, q)] + amt r l.
Proof. unfold amt. cbn. lia. Qed.
Lemma amt_nil r : amt r [] = 0.
Proof. done. Qed.
Lemma amt_one r x q : amt r [(x, q)] = if decide (r = x) then q else 0.
Proof. unfold amt. cbn. lia. Qed.
Lemma reqs_app l l' : reqs (l ++ l') = reqs l ++ reqs l'.
Proof. apply map_app. Qed.
Lemma reqs_cons n l : reqs (n :: l) = (Req n, 1) :: reqs l.
Proof. done. Qed.
Lemma reqs_nil : reqs [] = [].
Proof. done. Qed.
Lemma amt_reqs r l : 0 <= amt r (reqs l) /\ ((forall n, r <> Req n) -> amt r (reqs l) = 0).
Proof.
  induction l as [|n l IH]; [done|]. change (reqs (n :: l)) with ((Req n, 1) :: reqs l). rewrite amt_cons, amt_one. destruct IH as [H1 H2]. split; [destruct (decide _); lia|]. intros Hr. rewrite H2 by done.
  rewrite decide_False by auto. lia.
Qed.

Lemma foldr_sum_perm {A} (f : A -> Z) (l l' : list A) : l ≡ₚ l' -> foldr (fun x s => f x + s) 0 l = foldr (fun x s => f x + s) 0 l'.
Proof. induction 1 as [|x l l' _ IH|x y l|l l' l'' _ IH1 _ IH2]; cbn; [done|by rewrite IH|lia|by rewrite IH1]. Qed.
Lemma msum_fresh {A} (f : nat -> A -> Z) (m : gmap nat A) k v : m !! k = None -> msum f (<[k := v]> m) = f k v + msum f m.
Proof. intros Hk. unfold msum. rewrite (foldr_sum_perm (fun x => f (fst x) (snd x)) _ ((k, v) :: map_to_list m)); [done|]. by apply map_to_list_insert. Qed.
Lemma msum_delete {A} (f : nat -> A -> Z) (m : gmap nat A) k v : m !! k = Some v -> msum f (delete k m) = msum f m - f k v.
Proof. intros Hk. rewrite <- (insert_delete_id m k v Hk) at 2. rewrite msum_fresh by apply lookup_delete_eq. lia. Qed.
Lemma msum_insert {A} (f : nat -> A -> Z) (m : gmap nat A) k v v' : m !! k = Some v -> msum f (<[k := v']> m) = msum f m - f k v + f k v'.
Proof. intros Hk. rewrite <- (insert_delete_eq m). rewrite msum_fresh by apply lookup_delete_eq. rewrite (msum_delete f m k v Hk). lia. Qed.
Lemma alter_some {A} (g : A -> A) (m : gmap nat A) k v : m !! k = Some v -> alter g k m = <[k := g v]> m.
Proof. intros Hk. apply map_eq. intros i. destruct (decide (i = k)) as [->|]; [by rewrite lookup_alter_eq, Hk, lookup_insert_eq|by rewrite lookup_alter_ne, lookup_insert_ne]. Qed.
Lemma alter_missing {A} (g : A -> A) (m : gmap nat A) k : m !! k = None -> alter g k m = m.
Proof. intros Hk. apply map_eq. intros i. destruct (decide (i = k)) as [->|]; [by rewrite lookup_alter_eq, Hk|by rewrite lookup_alter_ne]. Qed.
Lemma msum_alter {A} (f : nat -> A -> Z) (g : A -> A) (m : gmap nat A) k : (forall v, f k (g v) = f k v) -> msum f (alter g k m) = msum f m.
Proof.
  intros Hg. destruct (m !! k) as [v|] eqn:Hk; [|by rewrite alter_missing]. rewrite (alter_some g m k v Hk), (msum_insert f m k v (g v) Hk), Hg. lia.
Qed.
Lemma msum_zero {A} (f : nat -> A -> Z) (m : gmap nat A) : (forall k v, f k v = 0) -> msum f m = 0.
Proof. intros Hf. unfold msum. induction (map_to_list m) as [|x l IH]; cbn; [done|]. rewrite Hf, IH. lia. Qed.
Lemma msum_nonpos {A} (f : nat -> A -> Z) (m : gmap nat A) : (forall k v, f k v <= 0) -> msum f m <= 0.
Proof. intros Hf. unfold msum. induction (map_to_list m) as [|x l IH]; cbn; [done|]. specialize (Hf (fst x) (snd x)). lia. Qed.
(** A sum of which only one entry counts. *)
Lemma msum_single {A} (f : nat -> A -> Z) (m : gmap nat A) k : (forall i v, i <> k -> f i v = 0) -> msum f m = match m !! k with Some v => f k v | None => 0 end.
Proof.
  intros Hf. assert (Hno : forall m : gmap nat A, m !! k = None -> msum f m = 0).
  { intros m' Hk. unfold msum. assert (Hl : forall i v, (i, v) ∈ map_to_list m' -> i <> k) by (intros i v Hi; apply elem_of_map_to_list in Hi; congruence). revert Hl.
    induction (map_to_list m') as [|[i v] l IH]; cbn; [done|]. intros Hl. rewrite (Hf i v), IH; [lia| |]; [intros j u Hj; apply (Hl j u); by right|apply (Hl i v); by left]. }
  destruct (m !! k) as [v|] eqn:Hk; [|by apply Hno]. pose proof (msum_delete f m k v Hk) as E. rewrite Hno in E by apply lookup_delete_eq. lia.
Qed.

(** The numbers of counters are not used again. *)
Definition numbered w : Prop := forall k, (nextUnique w <= k)%nat -> putCounters w !! k = None /\ readCounters w !! k = None /\ aggregators w !! k = None.
Definition counted (r : Res) : bool := match r with Req _ => false | _ => true end.
Definition ok w : Prop := numbered w /\ crashed w = false /\ forall r, counted r = true -> 0 <= bal r w.

(** From [w] to [w'] the resources in [l] come in (or go out), and nothing else changes hands. *)
Record moves (l : list (Res * Z)) w w' : Prop := {
  moves_bal : ok w -> crashed w' = false -> (forall r, counted r = true -> 0 <= bal r w + amt r l) -> numbered w' /\ forall r, bal r w' = bal r w + amt r l;
  moves_crashed : crashed w = true -> crashed w' = true;
  moves_objects : forall o, is_Some (caches w !! o) -> is_Some (caches w' !! o) }.

Lemma moves_refl w : moves [] w w.
Proof. split; [|done..]. intros (Hn & _) _ _. split; [done|]. intros r. rewrite amt_nil. lia. Qed.
Lemma moves_trans l l' w w1 w2 : (forall r, counted r = true -> 0 <= amt r l \/ amt r l' <= 0) -> moves l w w1 -> moves l' w1 w2 -> moves (l ++ l') w w2.
Proof.
  intros Hl [A1 A2 A3] [B1 B2 B3]. split; [|auto..]. intros Hok Hc Hpos.
  assert (Hc1 : crashed w1 = false) by (destruct (crashed w1) eqn:E; [by rewrite B2 in Hc|done]).
  assert (Hmid : forall r, counted r = true -> 0 <= bal r w + amt r l).
  { intros r Hr. destruct Hok as (_ & _ & Hp). specialize (Hp r Hr). specialize (Hpos r Hr). rewrite amt_app in Hpos. specialize (Hl r Hr). lia. }
  destruct A1 as [Hn1 E1]; [done..|].
  assert (Hpos1 : forall r, counted r = true -> 0 <= bal r w1 + amt r l') by (intros r Hr; specialize (Hpos r Hr); rewrite amt_app in Hpos; rewrite E1; lia).
  assert (Hok1 : ok w1) by (split_and!; try done; intros r Hr; rewrite E1; by apply Hmid).
  destruct (B1 Hok1 Hc Hpos1) as [Hn2 E2]. split; [done|]. intros r. rewrite E2, E1, amt_app. lia.
Qed.
Lemma moves_perm l l' w w' : (forall r, amt r l = amt r l') -> moves l w w' -> moves l' w w'.
Proof.
  intros Hl [A1 A2 A3]. split; [|done..]. intros Hok Hc Hp. destruct A1 as [Hn E]; [done..| |split; [done|]]; [intros r Hr; rewrite Hl; by apply Hp|intros r; by rewrite E, Hl].
Qed.
Lemma moves_after l w w1 w2 : moves [] w w1 -> moves l w1 w2 -> moves l w w2.
Proof. apply (moves_trans [] l). intros r _. left. by rewrite amt_nil. Qed.
Lemma moves_before l w w1 w2 : moves l w w1 -> moves [] w1 w2 -> moves l w w2.
Proof. intros A B. rewrite <- (app_nil_r l). eapply moves_trans; [|done..]. intros r _. right. by rewrite amt_nil. Qed.

(** Steps that need nothing and never crash. *)
Lemma moves_simple l w w' :
  (numbered w -> numbered w') -> (forall r, bal r w' = bal r w + amt r l) -> (crashed w = true -> crashed w' = true) ->
  (forall o, is_Some (caches w !! o) -> is_Some (caches w' !! o)) -> moves l w w'.
Proof. intros Hn Hb Hc Ho. split; [|done..]. intros (? & _) _ _. auto. Qed.

Definition requests (l : list (Res * Z)) : Prop := forall r, counted r = true -> 0 <= amt r l.
Lemma requests_reqs l : requests (reqs l).
Proof. intros r _. apply amt_reqs. Qed.
Lemma requests_one n : requests [(Req n, 1)].
Proof. apply (requests_reqs [n]). Qed.

Lemma moves_fold {A} (f : Engine -> A -> Engine) (g : A -> list (Res * Z)) (P : Engine -> Prop) xs : forall w,
  (forall x, requests (g x)) -> (forall w x, P w -> moves (g x) w (f w x)) -> (forall w x, P w -> P (f w x)) -> P w -> moves (concat (map g xs)) w (fold_left f xs w).
Proof.
  induction xs as [|x xs IH]; intros w Hg Hf Hp Hw; cbn; [apply moves_refl|]. eapply moves_trans; [intros r Hr; left; by apply Hg|by apply Hf|]. apply IH; auto.
Qed.
Lemma moves_fold0 {A} (f : Engine -> A -> Engine) xs : (forall w x, moves [] w (f w x)) -> forall w, moves [] w (fold_left f xs w).
Proof. intros Hf. induction xs as [|x xs IH]; intros w; cbn; [apply moves_refl|]. eapply moves_after; [apply Hf|apply IH]. Qed.

Definition grows w w' : Prop := (crashed w = true -> crashed w' = true) /\ forall o, is_Some (caches w !! o) -> is_Some (caches w' !! o).
Lemma moves_grows l w w' : moves l w w' -> grows w w'.
Proof. intros [_ ? ?]. done. Qed.
Lemma grows_trans w w1 w2 : grows w w1 -> grows w1 w2 -> grows w w2.
Proof. intros [A1 A2] [B1 B2]. split; auto. Qed.
Lemma grows_fold {A} (f : Engine -> A -> Engine) xs : (forall w x, grows w (f w x)) -> forall w, grows w (fold_left f xs w).
Proof. intros Hf. induction xs as [|x xs IH]; intros w; cbn; [done|]. eapply grows_trans; [apply Hf|apply IH]. Qed.

(** A fold of steps that need a resource. *)
Definition has (r : Res) w : Prop := ok w -> 1 <= bal r w.
Lemma moves_fold_with {A} (f : Engine -> A -> Engine) r0 xs :
  (forall w x, has r0 w -> moves [] w (f w x)) -> (forall w x, grows w (f w x)) -> forall w, has r0 w -> moves [] w (fold_left f xs w).
Proof.
  intros Hf Hg. induction xs as [|x xs IH]; intros w Hw; [apply moves_refl|]. destruct (grows_fold f (x :: xs) Hg w) as [G1 G2]. split; [|done..]. cbn. intros Hok Hcr Hp.
  assert (Hcr1 : crashed (f w x) = false) by (destruct (crashed (f w x)) eqn:E; [by rewrite (proj1 (grows_fold f xs Hg (f w x)) E) in Hcr|done]).
  destruct (moves_bal _ _ _ (Hf w x Hw) Hok Hcr1) as [Hn1 E1]; [done|].
  assert (Hok1 : ok (f w x)) by (split_and!; [done|done|]; intros r Hr; rewrite E1; by apply Hp).
  assert (Hw1 : has r0 (f w x)) by (intros _; rewrite E1, amt_nil; specialize (Hw Hok); lia).
  destruct (moves_bal _ _ _ (IH (f w x) Hw1) Hok1 Hcr) as [Hn2 E2]; [intros r Hr; rewrite E1; specialize (Hp r Hr); rewrite amt_nil in *; lia|].
  split; [done|]. intros r. rewrite E2, E1, !amt_nil. lia.
Qed.

(** *** The simple steps *)

Ltac amounts := unfold bal, held; cbn; rewrite ?map_app, ?reqs_app, ?concat_app, ?amt_app; cbn; rewrite ?reqs_cons, ?reqs_nil, ?app_nil_r, ?amt_nil; try lia.
Ltac same_tokens := apply moves_simple; [done | let r := fresh in intros r; amounts | done..].

Lemma moves_answer callback r w : moves [(Req callback, 1)] w (answer callback r w).
Proof. unfold answer. apply moves_simple; [done| |done..]. intros x. amounts. Qed.
Lemma moves_start t w : moves (taskRes t) w (start t w).
Proof. unfold start. apply moves_simple; [done| |done..]. intros x. amounts. Qed.
Lemma moves_crash l w : moves l w (crash w).
Proof. split; [|done..]. by intros _ ?. Qed.
Lemma moves_fresh w : moves [] w (snd (fresh w)).
Proof. apply moves_simple; [intros Hn k Hk; cbn in *; apply Hn; lia| |done..]. intros x. amounts. Qed.

Lemma onCaches_some o f w c : caches w !! o = Some c -> onCaches o f w = w <| caches := <[o := f c]> (caches w) |>.
Proof. intros Hc. unfold onCaches. by rewrite (alter_some f _ _ c Hc). Qed.
Lemma onCaches_none o f w : caches w !! o = None -> onCaches o f w = w.
Proof. intros Hc. unfold onCaches. rewrite alter_missing by done. by destruct w. Qed.
Lemma onCaches_objects o f w o' : is_Some (caches (onCaches o f w) !! o') <-> is_Some (caches w !! o').
Proof. unfold onCaches. cbn. destruct (decide (o' = o)) as [->|]; [rewrite lookup_alter_eq; by rewrite fmap_is_Some|by rewrite lookup_alter_ne]. Qed.
Lemma lookup_onCaches o f w c : caches w !! o = Some c -> caches (onCaches o f w) !! o = Some (f c).
Proof. intros Hc. unfold onCaches. cbn. by rewrite lookup_alter_eq, Hc. Qed.

Lemma bal_onCaches r o f w c : caches w !! o = Some c -> bal r (onCaches o f w) = bal r w - amt r (cachesRes c) + amt r (cachesRes (f c)).
Proof. intros Hc. rewrite (onCaches_some o f w c Hc). unfold bal, held. cbn. rewrite (msum_insert _ _ _ _ _ Hc). lia. Qed.
Lemma moves_onCaches l o f w c : caches w !! o = Some c -> (forall r, amt r (cachesRes (f c)) = amt r (cachesRes c) + amt r l) -> moves l w (onCaches o f w).
Proof.
  intros Hc Hf. apply moves_simple; [done| |done|intros o'; by rewrite onCaches_objects]. intros r. rewrite (bal_onCaches r o f w c Hc), Hf. lia.
Qed.
Lemma moves_onCaches0 o f w : (forall c r, amt r (cachesRes (f c)) = amt r (cachesRes c)) -> moves [] w (onCaches o f w).
Proof.
  intros Hf. destruct (caches w !! o) as [c|] eqn:Hc; [|rewrite onCaches_none by done; apply moves_refl]. eapply moves_onCaches; [exact Hc|]. intros r. rewrite Hf, amt_nil. lia.
Qed.

Lemma waiting_modifyIn r id f l :
  (forall c, waiting (f c) = waiting c) -> amt r (reqs (concat (map waiting (modifyIn id f l)))) = amt r (reqs (concat (map waiting l))).
Proof. intros Hf. induction l as [|c l IH]; cbn; [done|]. destruct (Nat.eqb _ id); cbn; rewrite !reqs_app, !amt_app; [by rewrite Hf|by rewrite IH]. Qed.
Lemma moves_onCache o id f w : (forall c, waiting (f c) = waiting c) -> moves [] w (onCache o id f w).
Proof.
  intros Hf. apply moves_onCaches0. intros c r. unfold modifyCache. destruct (findIn id (m_caches c)); unfold cachesRes; cbn; rewrite !amt_app, waiting_modifyIn by done; lia.
Qed.

(** *** Counters *)

Lemma numbered_put w m : numbered w -> (forall k, putCounters w !! k = None -> m !! k = None) -> numbered (w <| putCounters := m |>).
Proof. intros Hn Hm k Hk. destruct (Hn k Hk) as (? & ? & ?). split_and!; cbn; auto. Qed.
Lemma numbered_read w m : numbered w -> (forall k, readCounters w !! k = None -> m !! k = None) -> numbered (w <| readCounters := m |>).
Proof. intros Hn Hm k Hk. destruct (Hn k Hk) as (? & ? & ?). split_and!; cbn; auto. Qed.
Lemma numbered_aggregator w m : numbered w -> (forall k, aggregators w !! k = None -> m !! k = None) -> numbered (w <| aggregators := m |>).
Proof. intros Hn Hm k Hk. destruct (Hn k Hk) as (? & ? & ?). split_and!; cbn; auto. Qed.
Lemma delete_none {A} (m : gmap nat A) i k : m !! k = None -> delete i m !! k = None.
Proof. intros. apply lookup_delete_None. auto. Qed.
Lemma replace_none {A} (m : gmap nat A) i v v' k : m !! i = Some v -> m !! k = None -> <[i := v']> m !! k = None.
Proof. intros ? ?. rewrite lookup_insert_ne; [done|congruence]. Qed.
Lemma alter_none {A} (f : A -> A) (m : gmap nat A) i k : m !! k = None -> alter f i m !! k = None.
Proof. intros. apply lookup_alter_None. done. Qed.

(** What is not a request is only counted by tasks and waiting clears. *)
Lemma taskRes_nonpos r l : (forall n, r <> Req n) -> amt r (concat (map taskRes l)) <= 0.
Proof.
  intros Hr. induction l as [|t l IH]; cbn; [by rewrite amt_nil|]. rewrite amt_app. assert (amt r (taskRes t) <= 0); [|lia].
  destruct t; unfold amt; cbn; repeat destruct (decide _); try lia; exfalso; by eapply Hr.
Qed.
Lemma cachesRes_nonpos r c : (forall n, r <> Req n) -> amt r (cachesRes c) <= 0.
Proof.
  intros Hr. unfold cachesRes. rewrite !amt_app, !(proj2 (amt_reqs r _) Hr). assert (amt r (concat (map pendingRes (m_pendingWritingCachesToDiskCallbacks c))) <= 0); [|lia].
  induction (m_pendingWritingCachesToDiskCallbacks c) as [|p l IH]; cbn; [by rewrite amt_nil|]. rewrite amt_app. assert (amt r (pendingRes p) <= 0); [|lia].
  destruct p; cbn; rewrite amt_one; destruct (decide _); try lia; exfalso; by eapply Hr.
Qed.
(** All but the counters of one kind. *)
Lemma bal_rest r w : (forall n, r <> Req n) -> r <> ClearUse ->
  bal r w <= msum (fun k c => amt r (putRes k c)) (putCounters w) + msum (fun k c => amt r (readRes k c)) (readCounters w) + msum (fun a g => amt r (aggRes a g)) (aggregators w).
Proof.
  intros Hr Hc. unfold bal, held, opsRes. rewrite !(proj2 (amt_reqs r _) Hr), amt_one, (decide_False (P := r = ClearUse)) by done.
  pose proof (taskRes_nonpos r (tasks w) Hr). pose proof (msum_nonpos (fun _ c => amt r (cachesRes c)) (caches w) (fun _ c => cachesRes_nonpos r c Hr)). lia.
Qed.
Ltac res_cases := unfold putRes, readRes, aggRes, amt; cbn; repeat destruct (decide _); simplify_eq/=; try lia.
Lemma bal_put k w : bal (PutUse k) w <= match putCounters w !! k with Some c => Z.of_nat (pc_refs c) | None => 0 end.
Proof.
  pose proof (bal_rest (PutUse k) w ltac:(done) ltac:(done)) as E. rewrite (msum_zero (fun k0 c => amt (PutUse k) (readRes k0 c))) in E by (intros; res_cases).
  rewrite (msum_zero (fun k0 c => amt (PutUse k) (aggRes k0 c))) in E by (intros; res_cases). rewrite (msum_single _ (putCounters w) k) in E by (intros; res_cases).
  destruct (putCounters w !! k); [|lia]. revert E. res_cases.
Qed.
Lemma bal_read k w : bal (ReadUse k) w <= match readCounters w !! k with Some c => Z.of_nat (rc_refs c) | None => 0 end.
Proof.
  pose proof (bal_rest (ReadUse k) w ltac:(done) ltac:(done)) as E. rewrite (msum_zero (fun k0 c => amt (ReadUse k) (putRes k0 c))) in E by (intros; res_cases).
  rewrite (msum_zero (fun k0 c => amt (ReadUse k) (aggRes k0 c))) in E by (intros; res_cases). rewrite (msum_single _ (readCounters w) k) in E by (intros; res_cases).
  destruct (readCounters w !! k); [|lia]. revert E. res_cases.
Qed.
Lemma bal_agg k w : bal (AggUse k) w <= match aggregators w !! k with Some c => Z.of_nat (ag_refs c) | None => 0 end.
Proof.
  pose proof (bal_rest (AggUse k) w ltac:(done) ltac:(done)) as E. rewrite (msum_zero (fun k0 c => amt (AggUse k) (putRes k0 c))) in E by (intros; res_cases).
  rewrite (msum_zero (fun k0 c => amt (AggUse k) (readRes k0 c))) in E by (intros; res_cases). rewrite (msum_single _ (aggregators w) k) in E by (intros; res_cases).
  destruct (aggregators w !! k); [|lia]. revert E. res_cases.
Qed.

Create HintDb moves.
Hint Resolve moves_answer moves_crash moves_onCache delete_none replace_none alter_none requests_reqs requests_one : moves.
Hint Extern 1 (moves [] _ (onCaches _ _ _)) => apply moves_onCaches0; done : moves.
Hint Extern 1 (moves _ _ (start ?t ?w)) => exact (moves_start t w) : moves.
(** The outermost step of the goal neither adds nor removes resources. *)
Ltac peel := eapply moves_before; [|solve [eauto with moves]].
(** The outermost step adds those of the goal. *)
Ltac last_step := eapply moves_after; [|solve [eauto with moves]].
Ltac one_res := unfold putRes, readRes, aggRes, amt; cbn; repeat destruct (decide _); simplify_eq/=; lia.

Lemma bal_putCounters r w m : bal r (w <| putCounters := m |>) = bal r w - msum (fun k c => amt r (putRes k c)) (putCounters w) + msum (fun k c => amt r (putRes k c)) m.
Proof. unfold bal, held. cbn. lia. Qed.
Lemma bal_readCounters r w m : bal r (w <| readCounters := m |>) = bal r w - msum (fun k c => amt r (readRes k c)) (readCounters w) + msum (fun k c => amt r (readRes k c)) m.
Proof. unfold bal, held. cbn. lia. Qed.
Lemma bal_aggregators r w m : bal r (w <| aggregators := m |>) = bal r w - msum (fun k c => amt r (aggRes k c)) (aggregators w) + msum (fun k c => amt r (aggRes k c)) m.
Proof. unfold bal, held. cbn. lia. Qed.

(** A reference is needed to use an object. *)
Lemma need_one r w : counted r = true -> (forall x, counted x = true -> 0 <= bal x w + amt x [(r, -1)]) -> 1 <= bal r w.
Proof. intros Hr Hp. specialize (Hp r Hr). rewrite amt_one, decide_True in Hp by done. lia. Qed.

Lemma moves_derefPut k w : moves [(PutUse k, -1)] w (derefPut k w).
Proof.
  unfold derefPut. split; [|destruct (putCounters w !! k) as [c|]; [destruct (pc_refs c) as [|[|m]]|]; done|intros o Ho; destruct (putCounters w !! k) as [c|]; [destruct (pc_refs c) as [|[|m]]|]; done].
  intros (Hn & _) _ Hp. apply need_one in Hp; [|done]. pose proof (bal_put k w) as Hb. destruct (putCounters w !! k) as [c|] eqn:Hc; [|lia].
  destruct (pc_refs c) as [|[|m]] eqn:Hr; [lia| |].
  - split; [apply (numbered_put w); eauto with moves|]. intros r. unfold answer. set (w1 := w <| putCounters := delete k (putCounters w) |>).
    assert (E : bal r (w1 <| answered := answered w1 ++ [(pc_callback c, match m_error c with Some e => FailedReply e | None => RecordIdentifiersReply (m_recordIdentifiers c) end)] |>) = bal r w1 + amt r [(Req (pc_callback c), 1)]) by amounts.
    rewrite E. unfold w1. rewrite bal_putCounters, (msum_delete _ _ _ _ Hc). one_res.
  - split; [apply (numbered_put w); eauto with moves|]. intros r. rewrite bal_putCounters, (msum_insert _ _ _ _ _ Hc). one_res.
Qed.

Lemma moves_onPut k f w : (forall c, pc_callback (f c) = pc_callback c /\ pc_refs (f c) = pc_refs c) -> moves [] w (onPut k f w).
Proof.
  intros Hf. apply moves_simple; [intros Hn; apply (numbered_put w _ Hn); eauto with moves| |done..]. intros r. unfold onPut. rewrite bal_putCounters, msum_alter; [rewrite amt_nil; lia|].
  intros c. destruct (Hf c) as [E1 E2]. unfold putRes. by rewrite E1, E2.
Qed.
Lemma moves_retainPut k f w : has (PutUse k) w -> (forall c, pc_callback (f c) = pc_callback c /\ pc_refs (f c) = S (pc_refs c)) -> moves [(PutUse k, 1)] w (onPut k f w).
Proof.
  intros Hh Hf. split; [|done..]. intros Hok _ _. specialize (Hh Hok). pose proof (bal_put k w) as Hb. destruct (putCounters w !! k) as [c|] eqn:Hc; [|lia].
  split; [apply (numbered_put w); [apply Hok|eauto with moves]|]. intros r. unfold onPut. rewrite (alter_some _ _ _ _ Hc), bal_putCounters, (msum_insert _ _ _ _ _ Hc).
  destruct (Hf c) as [E1 E2]. unfold putRes. rewrite E1, E2. one_res.
Qed.
Lemma moves_onRead k f w : (forall c, rc_callback (f c) = rc_callback c /\ rc_refs (f c) = rc_refs c) -> moves [] w (onRead k f w).
Proof.
  intros Hf. apply moves_simple; [intros Hn; apply (numbered_read w _ Hn); eauto with moves| |done..]. intros r. unfold onRead. rewrite bal_readCounters, msum_alter; [rewrite amt_nil; lia|].
  intros c. destruct (Hf c) as [E1 E2]. unfold readRes. by rewrite E1, E2.
Qed.
Lemma moves_retainRead k f w : has (ReadUse k) w -> (forall c, rc_callback (f c) = rc_callback c /\ rc_refs (f c) = S (rc_refs c)) -> moves [(ReadUse k, 1)] w (onRead k f w).
Proof.
  intros Hh Hf. split; [|done..]. intros Hok _ _. specialize (Hh Hok). pose proof (bal_read k w) as Hb. destruct (readCounters w !! k) as [c|] eqn:Hc; [|lia].
  split; [apply (numbered_read w); [apply Hok|eauto with moves]|]. intros r. unfold onRead. rewrite (alter_some _ _ _ _ Hc), bal_readCounters, (msum_insert _ _ _ _ _ Hc).
  destruct (Hf c) as [E1 E2]. unfold readRes. rewrite E1, E2. one_res.
Qed.
Lemma moves_retainAggregator a w : has (AggUse a) w -> moves [(AggUse a, 1)] w (w <| aggregators := alter (fun g => g <| ag_refs := S (ag_refs g) |>) a (aggregators w) |>).
Proof.
  intros Hh. split; [|done..]. intros Hok _ _. specialize (Hh Hok). pose proof (bal_agg a w) as Hb. destruct (aggregators w !! a) as [c|] eqn:Hc; [|lia].
  split; [apply (numbered_aggregator w); [apply Hok|eauto with moves]|]. intros r. rewrite (alter_some _ _ _ _ Hc), bal_aggregators, (msum_insert _ _ _ _ _ Hc). one_res.
Qed.
Hint Resolve moves_derefPut : moves.

(** A counter with a new number. *)
Lemma moves_newPut n w : moves [(Req n, 1); (PutUse (nextUnique w), 1)] w ((snd (fresh w)) <| putCounters := <[nextUnique w := mkPutCounter 1 None [] n]> (putCounters w) |>).
Proof.
  split; [|done..]. intros (Hn & _) _ _. split; [intros k Hk; destruct (Hn k ltac:(cbn in *; lia)) as (? & ? & ?); cbn in *; rewrite lookup_insert_ne by lia; done|].
  intros r. change (bal r ((snd (fresh w)) <| putCounters := <[nextUnique w := mkPutCounter 1 None [] n]> (putCounters w) |>)) with (bal r (w <| putCounters := <[nextUnique w := mkPutCounter 1 None [] n]> (putCounters w) |>)).
  rewrite bal_putCounters, msum_fresh by (by apply Hn). one_res.
Qed.
Lemma moves_newRead o id b n w :
  moves [(Req n, 1); (ReadUse (nextUnique w), 1)] w ((snd (fresh w)) <| readCounters := <[nextUnique w := mkReadCounter 1 [] [] o id b n]> (readCounters w) |>).
Proof.
  split; [|done..]. intros (Hn & _) _ _. split; [intros k Hk; destruct (Hn k ltac:(cbn in *; lia)) as (? & ? & ?); cbn in *; rewrite lookup_insert_ne by lia; done|].
  intros r. change (bal r ((snd (fresh w)) <| readCounters := <[nextUnique w := mkReadCounter 1 [] [] o id b n]> (readCounters w) |>)) with (bal r (w <| readCounters := <[nextUnique w := mkReadCounter 1 [] [] o id b n]> (readCounters w) |>)).
  rewrite bal_readCounters, msum_fresh by (by apply Hn). one_res.
Qed.

(** A reference is taken and given away again. *)
Lemma moves_cancel x w w1 w2 : moves [(x, 1)] w w1 -> moves [(x, -1)] w1 w2 -> moves [] w w2.
Proof.
  intros A B. eapply moves_perm; [|eapply (moves_trans _ _ w w1 w2); [|exact A|exact B]]; [intros r; rewrite amt_app; one_res|]. intros r _. left. one_res.
Qed.
(** A new object is made with the reference of the function that makes it. *)
Lemma moves_release n x w w1 w2 : moves [(Req n, 1); (x, 1)] w w1 -> moves [(x, -1)] w1 w2 -> moves [(Req n, 1)] w w2.
Proof.
  intros A B. eapply moves_perm; [|eapply (moves_trans _ _ w w1 w2); [|exact A|exact B]]; [intros r; rewrite amt_app; one_res|]. intros r _. left. one_res.
Qed.
(** What an object held is given to the next step. *)
Lemma moves_pass l l' w w1 w2 :
  numbered w1 -> crashed w1 = crashed w -> (forall r, bal r w1 = bal r w + amt r l') -> (forall r, counted r = true -> 0 <= bal r w + amt r l') ->
  moves l w1 w2 -> crashed w = false -> crashed w2 = false -> (forall r, counted r = true -> 0 <= bal r w + amt r (l' ++ l)) ->
  numbered w2 /\ forall r, bal r w2 = bal r w + amt r (l' ++ l).
Proof.
  intros Hn1 Hc1 E1 Hp1 [HB _ _] Hc Hc2 Hp. destruct HB as [Hn2 E2]; [split_and!; [done|congruence|intros r Hr; rewrite E1; by apply Hp1]|done| |].
  - intros r Hr. rewrite E1. specialize (Hp r Hr). rewrite amt_app in Hp. lia.
  - split; [done|]. intros r. rewrite E2, E1, amt_app. lia.
Qed.

Lemma moves_writeRecord o i r p k w : moves [(PutUse k, -1)] w (writeRecord o i r p k w).
Proof. unfold writeRecord. cbv zeta. destruct shouldPersist; cbn [negb]; [destruct (hasStorage _ _)|]; last_step; repeat peel; apply moves_refl. Qed.
Lemma moves_removeCacheEntry o k w : moves [] w (removeCacheEntry o k w).
Proof. unfold removeCacheEntry. destruct shouldPersist; cbn [negb]; [destruct (hasStorage _ _); [apply moves_refl|]|]; auto with moves. Qed.
Lemma moves_removeRecord o i w : moves [] w (removeRecord o i w).
Proof. unfold removeRecord. eapply moves_before; [|apply moves_removeCacheEntry]. auto with moves. Qed.
Hint Resolve moves_writeRecord moves_removeCacheEntry moves_removeRecord : moves.

Lemma moves_continueUpdate o id rid r k result w : moves [(PutUse k, -1)] w (continueUpdate o id rid r k result w).
Proof.
  unfold continueUpdate. destruct result as [fromDisk|]; [|auto with moves]. destruct (cacheIn o id w); [|auto with moves]. cbv zeta.
  destruct (recordsFromURL _ _ ≫= _); [|auto with moves]. last_step. auto with moves.
Qed.
Hint Resolve moves_continueUpdate : moves.
Lemma moves_updateRecordToDisk o id i r k w : moves [(PutUse k, -1)] w (updateRecordToDisk o id i r k w).
Proof. unfold updateRecordToDisk. cbv zeta. destruct shouldPersist; cbn [negb]; [destruct (hasStorage _ _)|]; last_step; auto with moves. Qed.
Hint Resolve moves_updateRecordToDisk : moves.

(** [storeRecord] after the counter has been retained. *)
Lemma storeRecord_rest o id k w r : storeRecord o id k w r = w \/
  exists f, (forall c, pc_callback (f c) = pc_callback c /\ pc_refs (f c) = S (pc_refs c)) /\ moves [(PutUse k, -1)] (onPut k f w) (storeRecord o id k w r).
Proof.
  unfold storeRecord. destruct (cacheIn o id w) as [c|]; [right|by left]. cbv zeta. destruct (existingRecord r c) as [i|]; eexists.
  - split; [|apply moves_updateRecordToDisk]. done.
  - split; cycle 1; [unfold toRecordInformation; cbn [fresh]; last_step; peel; eapply moves_before; [|apply moves_fresh]; by apply moves_onCache|done].
Qed.
Lemma moves_storeRecord o id k w r : has (PutUse k) w -> moves [] w (storeRecord o id k w r).
Proof.
  intros Hh. destruct (storeRecord_rest o id k w r) as [->|(f & Hf & Hm)]; [apply moves_refl|]. eapply moves_cancel; [|exact Hm]. by apply moves_retainPut.
Qed.
Lemma grows_storeRecord o id k w r : grows w (storeRecord o id k w r).
Proof. destruct (storeRecord_rest o id k w r) as [->|(f & Hf & Hm)]; [done|]. eapply grows_trans; [|by eapply moves_grows]. done. Qed.

(** A function makes an object, works with it, and drops its reference. *)
Lemma moves_scope n x w w1 w2 : counted x = true -> moves [(Req n, 1); (x, 1)] w w1 -> (has x w1 -> moves [] w1 w2) -> grows w1 w2 -> moves [(Req n, 1); (x, 1)] w w2.
Proof.
  intros Hx A B [G1 G2]. split; [|intros Hc; by apply G1, A|intros o Ho; by apply G2, A]. intros Hok Hc Hp.
  assert (Hc1 : crashed w1 = false) by (destruct (crashed w1) eqn:E; [by rewrite G1 in Hc|done]). destruct (moves_bal _ _ _ A Hok Hc1 Hp) as [Hn1 E1].
  assert (Hok1 : ok w1) by (split_and!; [done..|]; intros r Hr; rewrite E1; by apply Hp).
  assert (Hb1 : has x w1) by (intros _; rewrite E1; destruct Hok as (_ & _ & H0); specialize (H0 x Hx); revert H0; one_res).
  destruct (moves_bal _ _ _ (B Hb1) Hok1 Hc) as [Hn2 E2]; [intros r Hr; rewrite amt_nil, Z.add_0_r; by apply Hok1|].
  split; [done|]. intros r. rewrite E2, E1, amt_nil. lia.
Qed.

Lemma moves_storeRecords o id rs n w : moves [(Req n, 1)] w (storeRecords o id rs n w).
Proof.
  unfold storeRecords. cbn [fresh]. eapply moves_release; [|apply moves_derefPut]. eapply moves_scope; [done|apply moves_newPut| |].
  - intros Hh. apply (moves_fold_with _ (PutUse (nextUnique w))); auto; intros; [by apply moves_storeRecord|apply grows_storeRecord].
  - apply grows_fold. intros. apply grows_storeRecord.
Qed.
Hint Resolve moves_storeRecords : moves.

Lemma moves_put o id rs n w : is_Some (cacheIn o id w) -> moves [(Req n, 1)] w (put o id rs n w).
Proof. intros [c Hc]. unfold put. rewrite Hc. destruct (fold_left _ _ _); auto with moves. Qed.
Lemma moves_spaceAnswered o id rs n granted w : moves [(Req n, 1)] w (spaceAnswered o id rs n granted w).
Proof. unfold spaceAnswered. destruct granted; cbn [negb]; [destruct (cacheIn o id w)|]; auto with moves. Qed.

Lemma moves_remove o id req options n w : is_Some (cacheIn o id w) -> moves [(Req n, 1)] w (remove o id req options n w).
Proof.
  intros [c Hc]. unfold remove. rewrite Hc. cbv zeta. destruct (decide _); [apply moves_answer|].
  destruct shouldPersist; cbn [negb]; last_step; peel; apply moves_fold0; auto with moves.
Qed.
Lemma moves_removeFromRecordList o id ids w : moves [] w (removeFromRecordList o id ids w).
Proof. unfold removeFromRecordList. destruct (cacheIn o id w); [|apply moves_refl]. peel. apply moves_fold0; auto with moves. Qed.
Hint Resolve moves_removeFromRecordList : moves.

Lemma moves_derefRead k w : moves [(ReadUse k, -1)] w (derefRead k w).
Proof.
  unfold derefRead. cbv zeta.
  assert (Hlast : forall c w1, moves [(Req (rc_callback c), 1)] w1 (answer (rc_callback c) (RecordsReply (if rc_provideResponse c then merge_sort byIdentifier (rc_records c) else map stripResponse (merge_sort byIdentifier (rc_records c))))
    (removeFromRecordList (rc_origin c) (rc_cache c) (m_failedRecords c) w1))) by (intros c w1; last_step; auto with moves).
  split.
  - intros Hok Hcr Hp. pose proof Hp as Hq. apply need_one in Hp; [|done]. pose proof (bal_read k w) as Hb. destruct (readCounters w !! k) as [c|] eqn:Hc; [|lia]. destruct (rc_refs c) as [|[|m]] eqn:Hr; [lia| |].
    + destruct (moves_pass [(Req (rc_callback c), 1)] [(Req (rc_callback c), -1); (ReadUse k, -1)] w (w <| readCounters := delete k (readCounters w) |>) _
        ltac:(apply (numbered_read w); [apply Hok|eauto with moves]) eq_refl
        ltac:(intros r; rewrite bal_readCounters, (msum_delete _ _ _ _ Hc); one_res)
        ltac:(intros r Hcr'; specialize (Hq r Hcr'); revert Hq; destruct r; one_res) (Hlast c _) ltac:(apply Hok) Hcr
        ltac:(intros r Hcr'; specialize (Hq r Hcr'); revert Hq; destruct r; one_res)) as [Hn2 E2].
      split; [done|]. intros r. rewrite E2. one_res.
    + split; [apply (numbered_read w); [apply Hok|eauto with moves]|]. intros r. rewrite bal_readCounters, (msum_insert _ _ _ _ _ Hc). one_res.
  - intros Hc. destruct (readCounters w !! k) as [c|]; [|done]. destruct (rc_refs c) as [|[|m]]; [apply Hlast; done..|done].
  - intros o Ho. destruct (readCounters w !! k) as [c|]; [|done]. destruct (rc_refs c) as [|[|m]]; [apply Hlast; done..|done].
Qed.
Hint Resolve moves_derefRead : moves.

Lemma moves_recordRead o id rid u k result w : moves [(ReadUse k, -1)] w (recordRead o id rid u k result w).
Proof. unfold recordRead. last_step. destruct (cacheIn o id w); [|apply moves_refl]. apply moves_onRead. intros rc. by destruct result. Qed.
Hint Resolve moves_recordRead : moves.
Lemma retrieveRecord_rest o id k w i :
  moves [(ReadUse k, -1)] (onRead k (fun c => c <| rc_refs := S (rc_refs c) |>) w) (retrieveRecord o id k w i).
Proof. unfold retrieveRecord. cbv zeta. destruct shouldPersist; cbn [negb]; [destruct (hasStorage _ _)|]; auto with moves. Qed.
Lemma moves_retrieveRecord o id k w i : has (ReadUse k) w -> moves [] w (retrieveRecord o id k w i).
Proof. intros Hh. eapply moves_cancel; [|apply retrieveRecord_rest]. by apply moves_retainRead. Qed.
Lemma grows_retrieveRecord o id k w i : grows w (retrieveRecord o id k w i).
Proof. eapply grows_trans; [|eapply moves_grows, retrieveRecord_rest]. done. Qed.
Lemma moves_retrieveRecords o id options n w : is_Some (cacheIn o id w) -> moves [(Req n, 1)] w (retrieveRecords o id options n w).
Proof.
  intros [c Hc]. unfold retrieveRecords. rewrite Hc. cbn [fresh]. eapply moves_release; [|apply moves_derefRead]. eapply moves_scope; [done|apply moves_newRead| |].
  - intros Hh. apply (moves_fold_with _ (ReadUse (nextUnique w))); auto; intros; [by apply moves_retrieveRecord|apply grows_retrieveRecord].
  - apply grows_fold. intros. apply grows_retrieveRecord.
Qed.

Lemma moves_runOp o id op w : is_Some (cacheIn o id w) -> moves [(Req (opCallback op), 1)] w (runOp o id op w).
Proof. intros Hc. destruct op; [by apply moves_retrieveRecords|by apply moves_put|by apply moves_remove]. Qed.

Lemma originOf_cache id w o : originOf id w = Some o -> is_Some (cacheIn o id w).
Proof.
  unfold originOf. destruct (find _ _) as [[o' c]|] eqn:Hf; [|done]. cbn. intros [= <-]. apply find_some in Hf as [Hin Hs]. apply bool_decide_eq_true in Hs. cbn in Hs.
  apply list_elem_of_In, elem_of_map_to_list in Hin. unfold cacheIn. by rewrite Hin.
Qed.

Lemma moves_runOpenCallback e w c : moves [(Req (openCallbackOf c), 1)] w (runOpenCallback e w c).
Proof.
  unfold runOpenCallback. destruct c as [id n|id op], e; auto with moves. destruct (originOf id w) as [o|] eqn:Ho; [|apply (moves_answer (opCallback op))]. apply moves_runOp. by apply originOf_cache.
Qed.
Hint Resolve moves_runOpenCallback : moves.

Lemma reqs_concat {A} (g : A -> nat) l : concat (map (fun x => [(Req (g x), 1)]) l) = reqs (map g l).
Proof. induction l as [|x l IH]; [done|]. change (map g (x :: l)) with (g x :: map g l). rewrite reqs_cons, <- IH. done. Qed.
(** Callbacks that are called one after the other. *)
Lemma moves_each {A} (f : Engine -> A -> Engine) (g : A -> nat) (P : Engine -> Prop) l w :
  (forall w x, P w -> moves [(Req (g x), 1)] w (f w x)) -> (forall w w', grows w w' -> P w -> P w') -> P w -> moves (reqs (map g l)) w (fold_left f l w).
Proof.
  intros Hf Hp Hw. rewrite <- reqs_concat. apply (moves_fold f (fun x => [(Req (g x), 1)]) P); auto with moves. intros w0 x Hw0. eapply Hp; [|exact Hw0]. eapply moves_grows. by apply Hf.
Qed.

(** *** Caches *)

Lemma findIn_modify id f l c : (forall c, m_identifier (f c) = m_identifier c) -> findIn id l = Some c -> findIn id (modifyIn id f l) = Some (f c).
Proof.
  intros Hf. unfold findIn. induction l as [|x l IH]; cbn; [done|]. destruct (Nat.eqb (m_identifier x) id) eqn:E; cbn.
  - intros [= <-]. by rewrite Hf, E.
  - rewrite E. exact IH.
Qed.

Lemma waiting_found r id f l c : findIn id l = Some c ->
  amt r (reqs (concat (map waiting (modifyIn id f l)))) = amt r (reqs (concat (map waiting l))) - amt r (reqs (waiting c)) + amt r (reqs (waiting (f c))).
Proof.
  unfold findIn. induction l as [|x l IH]; cbn; [done|]. destruct (Nat.eqb (m_identifier x) id); cbn; rewrite !reqs_app, !amt_app; [intros [= <-]; lia|]. intros Hc. rewrite (IH Hc). lia.
Qed.
(** The object that [find] returns changes. *)
Lemma bal_onCache r o id f w c : cacheIn o id w = Some c -> bal r (onCache o id f w) = bal r w - amt r (reqs (waiting c)) + amt r (reqs (waiting (f c))).
Proof.
  unfold cacheIn. destruct (caches w !! o) as [cs|] eqn:Ho; [|done]. cbn. intros Hc. unfold onCache. rewrite (bal_onCaches r o _ w cs Ho).
  unfold findById in Hc. unfold modifyCache. destruct (findIn id (m_caches cs)) as [x|] eqn:E; unfold cachesRes; cbn; rewrite !amt_app.
  - injection Hc as ->. rewrite (waiting_found r id f (m_caches cs) c E). lia.
  - rewrite (waiting_found r id f (m_removedCaches cs) c Hc). lia.
Qed.
Lemma moves_cache l o id f w c :
  cacheIn o id w = Some c -> (forall r, amt r (reqs (waiting (f c))) = amt r (reqs (waiting c)) + amt r l) -> moves l w (onCache o id f w).
Proof.
  intros Hc Hf. apply moves_simple; [done| |done|intros o'; unfold onCache; by rewrite onCaches_objects]. intros r. rewrite (bal_onCache r o id f w c Hc), Hf. lia.
Qed.

Lemma moves_openCache o id c w : is_Some (cacheIn o id w) -> moves [(Req (openCallbackOf c), 1)] w (openCache o id c w).
Proof.
  intros [x Hx]. unfold openCache. rewrite Hx. cbn [fmap option_fmap option_map]. destruct (m_state x); [| |apply moves_runOpenCallback].
  - last_step. by apply moves_onCache.
  - eapply moves_cache; [exact Hx|]. intros r. unfold waiting. cbn. rewrite map_app, reqs_app, amt_app. done.
Qed.

(** What is taken out of an object is settled by what follows. *)
Lemma moves_take l w w1 w2 :
  (forall r, bal r w1 = bal r w - amt r l) -> (numbered w -> numbered w1) -> crashed w1 = crashed w -> (forall o, is_Some (caches w !! o) -> is_Some (caches w1 !! o)) ->
  (forall r, counted r = true -> amt r l <= 0) -> moves l w1 w2 -> moves [] w w2.
Proof.
  intros E1 Hn Hc Ho Hl [B1 B2 B3]. split; [|intros Hw; apply B2; congruence|auto]. intros Hok Hc2 Hp. destruct B1 as [Hn2 E2].
  - split_and!; [apply Hn, Hok|rewrite Hc; apply Hok|]. intros r Hr. rewrite E1. destruct Hok as (_ & _ & H0). specialize (H0 r Hr). specialize (Hl r Hr). lia.
  - done.
  - intros r Hr. rewrite E1. destruct Hok as (_ & _ & H0). specialize (H0 r Hr). lia.
  - split; [done|]. intros r. rewrite E2, E1, amt_nil. lia.
Qed.
Lemma reqs_uncounted r l : counted r = true -> amt r (reqs l) <= 0.
Proof. intros Hr. rewrite (proj2 (amt_reqs r l)); [done|]. intros n ->. done. Qed.

Lemma moves_finishOpening o id c w : moves [(Req (openCallbackOf c), 1)] w (finishOpening o id c w).
Proof.
  unfold finishOpening. set (w1 := runOpenCallback _ _ c). cbv zeta. assert (H1 : moves [(Req (openCallbackOf c), 1)] w w1) by (unfold w1; last_step; by apply moves_onCache).
  destruct (cacheIn o id w1) as [x|] eqn:Hx; [|exact H1]. eapply moves_before; [exact H1|]. set (f := fun c0 : Cache => _).
  eapply (moves_take (reqs (waiting x)) w1 (onCache o id f w1)); [|done|done|intros o'; unfold onCache; by rewrite onCaches_objects|intros r Hr; by apply reqs_uncounted|].
  - intros r. rewrite (bal_onCache r o id f w1 x Hx). unfold f. cbn. rewrite reqs_nil, amt_nil. lia.
  - apply (moves_each _ openCallbackOf (fun _ => True)); auto with moves.
Qed.
Lemma moves_recordsTraversed o id c failed stored w : moves [(Req (openCallbackOf c), 1)] w (recordsTraversed o id c failed stored w).
Proof.
  unfold recordsTraversed. set (w1 := fold_left _ failed w). assert (H1 : moves [] w w1) by (apply moves_fold0; auto with moves). cbv zeta. eapply moves_after; [exact H1|].
  destruct (cacheIn o id w1); [|auto with moves]. eapply moves_after; [|apply moves_finishOpening]. apply moves_onCache. intros x.
  assert (Hadd : forall l y, waiting (fold_left (fun c0 i => addRecord i c0) l y) = waiting y) by (induction l as [|i l IH]; intros y; cbn; [done|by rewrite IH]).
  by rewrite Hadd.
Qed.
Lemma moves_readCache id op w : moves [(Req (opCallback op), 1)] w (readCache id op w).
Proof.
  unfold readCache. destruct (originOf id w) as [o|] eqn:Ho; [|auto with moves]. apply originOf_cache in Ho. destruct Ho as [x Hx]. rewrite Hx. cbn [fmap option_fmap option_map].
  destruct (m_state x); [apply (moves_openCache o id (OpenedForOp id op)); by eexists..|]. apply moves_runOp. by eexists.
Qed.

Lemma moves_wrote c error w : moves [(Req (writeToken c), 1)] w (wrote c error w).
Proof. unfold wrote. destruct c; apply moves_answer. Qed.
Hint Resolve moves_wrote : moves.
Lemma moves_writeCachesToDisk o c w : is_Some (caches w !! o) -> moves [(Req (writeToken c), 1)] w (writeCachesToDisk o c w).
Proof. intros [x Hx]. unfold writeCachesToDisk. rewrite Hx. destruct (_ || _); [auto with moves|]. last_step. by apply moves_onCaches0. Qed.

Lemma moves_pend o p w : is_Some (caches w !! o) -> moves (pendingRes p) w (pend o p w).
Proof. intros [c Hc]. eapply moves_onCaches; [exact Hc|]. intros r. unfold cachesRes. cbn. rewrite map_app, concat_app, !amt_app. cbn. rewrite app_nil_r. lia. Qed.

Lemma findByName_found name c x o w : caches w !! o = Some c -> findByName name c = Some x -> is_Some (cacheIn o (m_identifier x) w).
Proof.
  intros Hc Hf. unfold cacheIn. rewrite Hc. cbn. unfold findById. destruct (findIn (m_identifier x) (m_caches c)) eqn:E; [done|]. exfalso.
  apply find_some in Hf as [Hin _]. apply (find_none _ _ E) in Hin. by rewrite Nat.eqb_refl in Hin.
Qed.

Lemma moves_openCaches o name n w : is_Some (caches w !! o) -> moves [(Req n, 1)] w (openCaches o name n w).
Proof.
  intros [c Hc]. unfold openCaches. rewrite Hc. destruct (m_isWritingCachesToDisk c); [apply (moves_pend o (PendingOpen name n)); by eexists|].
  destruct (findByName name c) as [x|] eqn:Hx; [apply (moves_openCache o _ (OpenedByName (m_identifier x) n)); by eapply findByName_found|].
  cbn [fresh]. set (id := S (m_nextCacheIdentifier w)). set (w1 := snd (fresh (w <| m_nextCacheIdentifier := id |>))).
  assert (H1 : moves [] w w1) by (eapply moves_before; [|apply moves_fresh]; same_tokens).
  eapply moves_after; [|apply (moves_writeCachesToDisk o (WroteForOpen id n)); rewrite onCaches_objects; by eexists].
  eapply moves_after; [exact H1|]. apply moves_onCaches0. intros c0 r. unfold cachesRes, makeDirty. cbn. by rewrite map_app, concat_app, app_nil_r.
Qed.

Lemma waiting_removed r id l c : findIn id l = Some c -> amt r (reqs (concat (map waiting (removeCacheFrom id l)))) = amt r (reqs (concat (map waiting l))) - amt r (reqs (waiting c)).
Proof.
  unfold findIn. induction l as [|x l IH]; cbn; [done|]. destruct (Nat.eqb (m_identifier x) id); cbn; rewrite ?reqs_app, ?amt_app; [intros [= <-]; lia|]. intros Hc. rewrite (IH Hc). lia.
Qed.

Lemma moves_removeCaches o id n w : is_Some (caches w !! o) -> moves [(Req n, 1)] w (removeCaches o id n w).
Proof.
  intros [c Hc]. unfold removeCaches. rewrite Hc. destruct (m_isWritingCachesToDisk c); [apply (moves_pend o (PendingRemove id n)); by eexists|].
  destruct (findIn id (m_caches c)) as [x|] eqn:Hx; [|apply moves_answer]. cbv zeta.
  eapply moves_after; [|apply (moves_writeCachesToDisk o (WroteForRemove id n)); rewrite onCaches_objects; by eexists].
  eapply moves_onCaches; [exact Hc|]. intros r. unfold cachesRes, makeDirty. cbn. rewrite map_app, concat_app, reqs_app, !amt_app. cbn.
  rewrite app_nil_r, amt_nil, (waiting_removed r id (m_caches c) x Hx). lia.
Qed.

Lemma moves_cacheInfos o u n w : is_Some (caches w !! o) -> moves [(Req n, 1)] w (cacheInfos o u n w).
Proof. intros [c Hc]. unfold cacheInfos. rewrite Hc. destruct (m_isWritingCachesToDisk c); [apply (moves_pend o (PendingInfos u n)); by eexists|apply moves_answer]. Qed.

(** Caches are destroyed with the callbacks that wait for them. *)
Lemma moves_drop o f l w c :
  caches w !! o = Some c -> (forall r, amt r (cachesRes (f c)) = amt r (cachesRes c) - amt r (reqs (concat (map waiting l)))) -> moves [] w (onCaches o f (dropWaiting l w)).
Proof.
  intros Hc Hf. apply moves_simple; [done| |done|intros o'; by rewrite onCaches_objects]. intros r. rewrite (bal_onCaches r o f (dropWaiting l w) c Hc), Hf.
  assert (E : bal r (dropWaiting l w) = bal r w + amt r (reqs (concat (map waiting l)))) by (unfold dropWaiting; amounts). rewrite E, amt_nil. lia.
Qed.

Lemma moves_clearMemory o w : moves [] w (clearMemoryRepresentation o w).
Proof.
  unfold clearMemoryRepresentation. destruct (caches w !! o) as [c|] eqn:Hc; [|apply moves_refl]. eapply moves_drop; [exact Hc|]. intros r. unfold cachesRes, makeDirty. cbn.
  rewrite !amt_app, reqs_nil, amt_nil. lia.
Qed.
Hint Resolve moves_clearMemory : moves.

Lemma moves_dispose o id w : moves [] w (dispose o id w).
Proof.
  unfold dispose. destruct (caches w !! o) as [c|] eqn:Hc; [|apply moves_refl]. destruct (findIn id (m_removedCaches c)) as [x|] eqn:Hx.
  - eapply moves_drop; [exact Hc|]. intros r. unfold cachesRes. cbn. rewrite !amt_app, app_nil_r, (waiting_removed r id (m_removedCaches c) x Hx). lia.
  - destruct shouldPersist; cbn [negb]; [|apply moves_refl]. cbv zeta. set (w1 := onCache o id _ w). assert (H1 : moves [] w w1) by (by apply moves_onCache).
    destruct (caches w1 !! o) as [c1|]; [|exact H1]. destruct (hasActiveCache c1); [exact H1|]. peel. exact H1.
Qed.

Lemma moves_runCachesOp o w op : is_Some (caches w !! o) -> moves [(Req (opOrigin op), 1)] w (runCachesOp o w op).
Proof. intros Ho. destruct op; cbn; [by apply moves_openCaches|by apply moves_cacheInfos|]. last_step. auto with moves. Qed.
Lemma moves_failOp e w op : moves [(Req (opOrigin op), 1)] w (failOp e w op).
Proof. apply moves_answer. Qed.
Hint Resolve moves_failOp : moves.

Lemma moves_takeInitialization o run w :
  (forall w op, is_Some (caches w !! o) -> moves [(Req (opOrigin op), 1)] w (run w op)) -> moves [] w (takeInitializationCallbacks o run w).
Proof.
  intros Hrun. unfold takeInitializationCallbacks. destruct (caches w !! o) as [c|] eqn:Hc; [|apply moves_refl]. set (f := fun c0 : Caches => _).
  eapply (moves_take (reqs (map opOrigin (m_pendingInitializationCallbacks c))) w (onCaches o f w)); [|done|done|intros o'; by rewrite onCaches_objects|intros r Hr; by apply reqs_uncounted|].
  - intros r. rewrite (bal_onCaches r o f w c Hc). unfold cachesRes, f. cbn. rewrite !amt_app, reqs_nil, amt_nil. lia.
  - apply (moves_each run opOrigin (fun w => is_Some (caches w !! o))); [done|intros w1 w2 [_ Hg]; apply Hg|]. rewrite onCaches_objects. by eexists.
Qed.

Lemma moves_initialize o w op : is_Some (caches w !! o) -> moves [(Req (opOrigin op), 1)] w (initialize o w op).
Proof.
  intros [c Hc]. assert (Ho : is_Some (caches w !! o)) by (by eexists). unfold initialize. rewrite Hc. destruct (m_isInitialized c); [by apply moves_runCachesOp|].
  destruct shouldPersist; cbn [negb]; cycle 1.
  { eapply moves_after; [|apply moves_runCachesOp; by rewrite onCaches_objects]. by apply moves_onCaches0. }
  cbv zeta. set (f := fun c0 : Caches => c0 <| m_pendingInitializationCallbacks := _ |>).
  assert (Hf : forall w1, is_Some (caches w1 !! o) -> moves [(Req (opOrigin op), 1)] w1 (onCaches o f w1)).
  { intros w1 [c1 Hc1]. eapply moves_onCaches; [exact Hc1|]. intros r. unfold cachesRes, f. cbn. rewrite map_app, reqs_app, !amt_app. cbn. rewrite reqs_cons, reqs_nil. lia. }
  destruct (m_storage c); [by apply Hf|]. destruct (opensStorage _).
  - eapply moves_before; [|exact (moves_start (StoreOrigin o) _)]. eapply moves_before; [|by apply moves_onCaches0]. eapply moves_after; [|by apply Hf]. same_tokens.
  - eapply moves_after; [|apply moves_failOp]. same_tokens.
Qed.
Lemma moves_initializeSize o w : moves [] w (initializeSize o w).
Proof. unfold initializeSize. destruct (hasStorage o w); [exact (moves_start (TraverseForSize o) w)|]. apply moves_takeInitialization. auto with moves. Qed.
Lemma moves_giveUp o e w : moves [] w (giveUp o e w).
Proof. unfold giveUp. eapply moves_before; [|by apply moves_onCaches0]. apply moves_takeInitialization. auto with moves. Qed.

Lemma readCaches_spec names : forall w, let '(w', l) := readCaches names w in moves [] w w' /\ caches w' = caches w /\ concat (map waiting l) = [].
Proof.
  induction names as [|x names IH]; intros w; cbn [readCaches readCache_]; [split_and!; auto using moves_refl|]. set (w1 := w <| m_nextCacheIdentifier := S (m_nextCacheIdentifier w) |>). specialize (IH w1).
  destruct (readCaches names w1) as [w' l]. destruct IH as (H1 & H2 & H3). split_and!; [|by rewrite H2|done]. eapply moves_after; [|exact H1]. unfold w1. same_tokens.
Qed.
Lemma moves_cachesRead o result w : moves [] w (cachesRead o result w).
Proof.
  unfold cachesRead. destruct result as [names|].
  - pose proof (readCaches_spec names w) as Hr. destruct (readCaches names w) as [w1 l]. destruct Hr as (H1 & H2 & H3). eapply moves_after; [exact H1|]. eapply moves_before; [|apply moves_initializeSize].
    destruct (caches w1 !! o) as [c|] eqn:Hc; [|rewrite onCaches_none by done; apply moves_refl]. eapply moves_drop; [exact Hc|]. intros r. unfold cachesRes, makeDirty. cbn. rewrite H3, !amt_app, reqs_nil, amt_nil. lia.
  - eapply moves_before; [|apply moves_giveUp]. by apply moves_onCaches0.
Qed.
Lemma moves_originStored o error exists_ w : moves [] w (originStored o error exists_ w).
Proof. unfold originStored. destruct error; [apply moves_giveUp|]. destruct exists_; [exact (moves_start (ReadCachesList o) w)|apply moves_cachesRead]. Qed.
Lemma moves_sizeTraversed o sizes w : moves [] w (sizeTraversed o sizes w).
Proof.
  unfold sizeTraversed. destruct (caches w !! o); [|apply moves_refl]. destruct (bool_decide _); [by apply moves_onCaches0|]. peel. by apply moves_onCaches0.
Qed.
Lemma moves_initialSizeWritten o w : moves [] w (initialSizeWritten o w).
Proof. unfold initialSizeWritten. eapply moves_before; [|apply moves_takeInitialization; intros; by apply moves_runCachesOp]. by apply moves_onCaches0. Qed.
Hint Resolve moves_initialSizeWritten : moves.

(** *** Engine *)

Lemma moves_proceed w x : moves [(Req (opOrigin (snd x)), 1)] w (proceed w x).
Proof.
  destruct x as [o op]. unfold proceed. cbn [snd]. destruct (caches w !! o) as [c|] eqn:Hc; [apply moves_initialize; by eexists|].
  eapply moves_after; [|apply moves_initialize; cbn; rewrite lookup_insert_eq; by eexists]. apply moves_simple; [done| |done|]; cbn.
  - intros r. unfold bal, held. cbn. rewrite msum_fresh by done. unfold cachesRes. cbn. rewrite !reqs_nil, !amt_nil. lia.
  - intros o' Ho'. destruct (decide (o' = o)) as [->|]; [rewrite lookup_insert_eq; by eexists|by rewrite lookup_insert_ne].
Qed.
Lemma opsRes_app r l x : amt r (opsRes (l ++ [x])) = amt r (opsRes l) + amt r [(Req (opOrigin (snd x)), 1)].
Proof. unfold opsRes. rewrite map_app, reqs_app, amt_app. done. Qed.
Lemma moves_initializeEngine w x : moves [(Req (opOrigin (snd x)), 1)] w (initializeEngine w x).
Proof.
  unfold initializeEngine. destruct (_ || _).
  { apply moves_simple; [done| |done..]. intros r. unfold bal, held. cbn. rewrite opsRes_app. lia. }
  destruct (m_salt w); [apply moves_proceed|]. destruct shouldPersist; cbn [negb]; cycle 1.
  { eapply moves_after; [|apply moves_proceed]. same_tokens. }
  cbv zeta. assert (H1 : moves [(Req (opOrigin (snd x)), 1)] w (w <| m_initializationCallbacks := m_initializationCallbacks w ++ [x] |>)).
  { apply moves_simple; [done| |done..]. intros r. unfold bal, held. cbn. rewrite opsRes_app. lia. }
  destruct (Nat.eqb _ 0); [peel|]; exact H1.
Qed.

Lemma moves_ops (f : Engine -> nat * CachesOp -> Engine) l w :
  (forall w x, moves [(Req (opOrigin (snd x)), 1)] w (f w x)) -> moves (opsRes l) w (fold_left f l w).
Proof. intros Hf. apply (moves_each f (fun x => opOrigin (snd x)) (fun _ => True)); auto. Qed.
Lemma moves_saltMade ok w : moves [] w (saltMade ok w).
Proof.
  unfold saltMade. cbv zeta. set (w1 := w <| m_salt := ok |> <| m_initializationCallbacks := [] |>).
  apply (moves_take (opsRes (m_initializationCallbacks w)) w w1); [|done..|intros r Hr; by apply reqs_uncounted|].
  - intros r. unfold bal, held, w1, opsRes. cbn. rewrite !reqs_nil, !amt_nil. lia.
  - destruct ok; apply moves_ops; [apply moves_proceed|]. intros w0 x. apply moves_failOp.
Qed.

(** Clear tasks are counted by aggregators and deletions only. *)
Lemma bal_clear w : bal ClearUse w <= Z.of_nat (m_clearTaskCounter w).
Proof.
  unfold bal, held, opsRes. rewrite !(proj2 (amt_reqs ClearUse _)) by done. rewrite amt_one, decide_True by done. pose proof (taskRes_nonpos ClearUse (tasks w) ltac:(done)).
  pose proof (msum_nonpos (fun _ c => amt ClearUse (cachesRes c)) (caches w) (fun _ c => cachesRes_nonpos ClearUse c ltac:(done))).
  rewrite (msum_zero (fun k c => amt ClearUse (putRes k c))) by (intros; res_cases). rewrite (msum_zero (fun k c => amt ClearUse (readRes k c))) by (intros; res_cases).
  pose proof (msum_nonpos (fun a g => amt ClearUse (aggRes a g)) (aggregators w) ltac:(intros; res_cases)). lia.
Qed.
Lemma moves_endClear w : moves [(ClearUse, -1)] w (w <| m_clearTaskCounter := pred (m_clearTaskCounter w) |>).
Proof.
  split; [|done..]. intros (Hn & _) _ Hp. apply need_one in Hp; [|done]. pose proof (bal_clear w). split; [done|]. intros r. unfold bal, held. cbn. rewrite !amt_one. destruct (decide _); lia.
Qed.
Lemma moves_takeClear w : moves [] w (fold_left initializeEngine (m_pendingClearCallbacks w) (w <| m_pendingClearCallbacks := [] |>)).
Proof.
  apply (moves_take (opsRes (m_pendingClearCallbacks w)) w (w <| m_pendingClearCallbacks := [] |>)); [|done..|intros r Hr; by apply reqs_uncounted|apply moves_ops, moves_initializeEngine].
  intros r. unfold bal, held, opsRes. cbn. rewrite !reqs_nil, !amt_nil. lia.
Qed.
Lemma moves_finishClear n w : moves [(Req n, 1); (ClearUse, -1)] w (finishClear n w).
Proof.
  unfold finishClear. cbv zeta. set (w1 := answer n DoneReply w). assert (H1 : moves [(Req n, 1); (ClearUse, -1)] w (w1 <| m_clearTaskCounter := pred (m_clearTaskCounter w1) |>)).
  { apply (moves_trans [(Req n, 1)] [(ClearUse, -1)] w w1); [intros r _; left; one_res|apply moves_answer|apply moves_endClear]. }
  destruct (Nat.eqb _ 0); [|exact H1]. eapply moves_before; [exact H1|apply moves_takeClear].
Qed.

Lemma moves_derefAggregator a w : moves [(AggUse a, -1)] w (derefAggregator a w).
Proof.
  unfold derefAggregator. cbv zeta.
  assert (Hlast : forall g w1, moves [(Req (ag_callback g), 1); (ClearUse, -1)] w1 (if negb shouldPersist then finishClear (ag_callback g) w1 else start (DeleteDirectories (ag_callback g)) w1)).
  { intros g w1. destruct shouldPersist; cbn [negb]; [exact (moves_start (DeleteDirectories (ag_callback g)) w1)|apply moves_finishClear]. }
  split.
  - intros Hok Hcr Hp. pose proof Hp as Hq. apply need_one in Hp; [|done]. pose proof (bal_agg a w) as Hb. destruct (aggregators w !! a) as [g|] eqn:Hg; [|lia]. destruct (ag_refs g) as [|[|m]] eqn:Hr; [lia| |].
    + destruct (moves_pass [(Req (ag_callback g), 1); (ClearUse, -1)] [(Req (ag_callback g), -1); (AggUse a, -1); (ClearUse, 1)] w (w <| aggregators := delete a (aggregators w) |>) _
        ltac:(apply (numbered_aggregator w); [apply Hok|eauto with moves]) eq_refl
        ltac:(intros r; rewrite bal_aggregators, (msum_delete _ _ _ _ Hg); one_res)
        ltac:(intros r Hcr'; specialize (Hq r Hcr'); revert Hq; destruct r; one_res) (Hlast g _) ltac:(apply Hok) Hcr
        ltac:(intros r Hcr'; specialize (Hq r Hcr'); revert Hq; destruct r; one_res)) as [Hn2 E2].
      split; [done|]. intros r. rewrite E2. one_res.
    + split; [apply (numbered_aggregator w); [apply Hok|eauto with moves]|]. intros r. rewrite bal_aggregators, (msum_insert _ _ _ _ _ Hg). one_res.
  - intros Hc. destruct (aggregators w !! a) as [g|]; [|done]. destruct (ag_refs g) as [|[|m]]; [apply Hlast; done..|done].
  - intros o Ho. destruct (aggregators w !! a) as [g|]; [|done]. destruct (ag_refs g) as [|[|m]]; [apply Hlast; done..|done].
Qed.
Hint Resolve moves_derefAggregator : moves.

Lemma isWriting_object o w : isWriting o w = true -> is_Some (caches w !! o).
Proof. unfold isWriting. destruct (caches w !! o); [by eexists|done]. Qed.

Lemma moves_clearWith last o a w : (forall o w, moves [] w (last o w)) -> moves [(AggUse a, -1)] w (clearCachesWith last o a w).
Proof.
  intros Hlast. unfold clearCachesWith. destruct (isWriting o w) eqn:Hw; [apply (moves_pend o (PendingClear a)); by apply isWriting_object|]. cbv zeta.
  set (w1 := takeInitializationCallbacks o (failOp Internal) w). assert (H1 : moves [] w w1) by (apply moves_takeInitialization; auto with moves). eapply moves_after; [exact H1|].
  destruct (hasStorage o w1); [exact (moves_start (ClearStorage o a) w1)|]. last_step. eapply moves_before; [|apply Hlast]. auto with moves.
Qed.
Lemma moves_failPending o w p : moves (pendingRes p) w (failPending o w p).
Proof. destruct p; cbn; auto with moves. apply moves_clearWith. intros. apply moves_refl. Qed.

(** Steps that take references. *)
Lemma pendingRes_uncounted r p : counted r = true -> amt r (pendingRes p) <= 0.
Proof. intros Hr. destruct p; cbn; rewrite amt_one; destruct (decide _) as [->|]; try lia; done. Qed.
Lemma pendings_uncounted r l : counted r = true -> amt r (concat (map pendingRes l)) <= 0.
Proof. intros Hr. induction l as [|p l IH]; cbn; [by rewrite amt_nil|]. rewrite amt_app. pose proof (pendingRes_uncounted r p Hr). lia. Qed.
Lemma moves_failPendings o l : forall w, moves (concat (map pendingRes l)) w (fold_left (failPending o) l w).
Proof.
  induction l as [|p l IH]; intros w; cbn; [apply moves_refl|]. eapply moves_trans; [|apply moves_failPending|apply IH]. intros r Hr. right. by apply pendings_uncounted.
Qed.

(** The waiting callbacks are taken out and run. *)
Lemma moves_takePending o taken rest w w' c :
  caches w !! o = Some c -> m_pendingWritingCachesToDiskCallbacks c = taken ++ rest ->
  moves (concat (map pendingRes taken)) (onCaches o (fun c => c <| m_pendingWritingCachesToDiskCallbacks := rest |>) w) w' -> moves [] w w'.
Proof.
  intros Hc Hp. set (f := fun c0 : Caches => _). apply moves_take; [|done|done|intros o'; by rewrite onCaches_objects|intros r Hr; by apply pendings_uncounted].
  intros r. rewrite (bal_onCaches r o f w c Hc). unfold cachesRes, f. cbn. rewrite Hp, map_app, concat_app, !amt_app. lia.
Qed.
Lemma moves_clearPending o w : moves [] w (clearPendingWritingCachesToDiskCallbacks o w).
Proof.
  unfold clearPendingWritingCachesToDiskCallbacks. destruct (caches w !! o) as [c|] eqn:Hc; [|apply moves_refl].
  eapply (moves_takePending o (m_pendingWritingCachesToDiskCallbacks c) []); [exact Hc|by rewrite app_nil_r|apply moves_failPendings].
Qed.
Lemma moves_clearCaches o a w : moves [(AggUse a, -1)] w (clearCaches o a w).
Proof. apply moves_clearWith, moves_clearPending. Qed.

Lemma moves_runPending o p w : is_Some (caches w !! o) -> moves (pendingRes p) w (runPending o p w).
Proof. intros Ho. destruct p; cbn; [by apply moves_openCaches|by apply moves_removeCaches|by apply moves_cacheInfos|apply moves_clearCaches]. Qed.
Lemma moves_runPendingWrites fuel o : forall w, moves [] w (runPendingWrites fuel o w).
Proof.
  induction fuel as [|fuel IH]; intros w; cbn; [apply moves_refl|]. destruct (caches w !! o) as [c|] eqn:Hc; [|apply moves_refl].
  destruct (m_pendingWritingCachesToDiskCallbacks c) as [|p l] eqn:Hp; [apply moves_refl|]. destruct (m_isWritingCachesToDisk c); [apply moves_refl|].
  eapply moves_before; [|apply IH]. eapply (moves_takePending o [p] l); [exact Hc|exact Hp|]. cbn. rewrite app_nil_r. apply moves_runPending. rewrite onCaches_objects. by eexists.
Qed.
Lemma moves_cachesListWritten o c error w : moves [(Req (writeToken c), 1)] w (cachesListWritten o c error w).
Proof. unfold cachesListWritten. cbv zeta. eapply moves_before; [|apply moves_runPendingWrites]. eapply moves_after; [|apply moves_wrote]. by apply moves_onCaches0. Qed.

Lemma moves_unlock id w : moves [] w (unlock id w).
Proof.
  unfold unlock. destruct (m_cacheLocks w !! id) as [n|]; [|apply moves_refl]. cbv zeta. set (w1 := w <| m_cacheLocks := _ |>). assert (H1 : moves [] w w1) by (unfold w1; same_tokens).
  destruct (negb _); [exact H1|]. destruct (originOf id w1); [|exact H1]. eapply moves_after; [exact H1|]. apply moves_dispose.
Qed.

Lemma moves_complete t r w : moves (taskRes t) w (complete t r w).
Proof.
  destruct t; cbn [complete taskRes].
  - apply moves_originStored.
  - apply moves_cachesRead.
  - apply moves_sizeTraversed.
  - apply moves_initialSizeWritten.
  - apply moves_cachesListWritten.
  - destruct r; apply moves_recordsTraversed.
  - apply moves_spaceAnswered.
  - destruct (succeeded r); [exact (moves_start (WriteSizeAfterStore counter) w)|]. last_step. apply moves_onPut. intros c. unfold setError. by destruct (m_error c).
  - apply moves_derefPut.
  - apply moves_continueUpdate.
  - apply moves_recordRead.
  - apply moves_answer.
  - unfold storageCleared. last_step. auto with moves.
  - apply moves_saltMade.
  - apply moves_finishClear.
Qed.

Definition requested (e : Event) : list nat :=
  match e with
  | OpenEvent _ _ n | RemoveEvent _ n | InfosEvent _ _ n | ClearMemoryEvent _ n | RetrieveEvent _ _ n | PutEvent _ _ n | DeleteEvent _ _ _ n | ClearEvent _ n => [n]
  | _ => []
  end.

(** An aggregator with a new number, for a new clear task. *)
Lemma moves_newAggregator n w :
  moves [(Req n, 1); (AggUse (nextUnique w), 1)] w
    ((snd (fresh (w <| m_clearTaskCounter := S (m_clearTaskCounter w) |>))) <| aggregators := <[nextUnique w := mkAggregator 1 n]> (aggregators w) |>).
Proof.
  split; [|done..]. intros (Hn & _) _ _. split; [intros k Hk; destruct (Hn k ltac:(cbn in *; lia)) as (? & ? & ?); cbn in *; rewrite lookup_insert_ne by lia; done|].
  intros r. unfold bal, held. cbn. rewrite msum_fresh by (by apply Hn). one_res.
Qed.
Lemma moves_clearOne o a w : has (AggUse a) w ->
  moves [] w (clearCaches o a (w <| aggregators := alter (fun g => g <| ag_refs := S (ag_refs g) |>) a (aggregators w) |>)).
Proof. intros Hh. eapply moves_cancel; [by apply moves_retainAggregator|apply moves_clearCaches]. Qed.
Lemma grows_clearOne o a f w : grows w (clearCaches o a (w <| aggregators := f |>)).
Proof. eapply grows_trans; [|eapply moves_grows, moves_clearCaches]. done. Qed.
Lemma moves_clearOrigins f n w : moves [(Req n, 1)] w (clearOrigins f n w).
Proof.
  unfold clearOrigins. cbn [fresh]. eapply moves_release; [|apply moves_derefAggregator]. eapply moves_scope; [done|exact (moves_newAggregator n w)| |].
  - intros Hh. apply (moves_fold_with _ (AggUse (nextUnique w))); auto; intros; [by apply moves_clearOne|apply grows_clearOne].
  - apply grows_fold. intros. apply grows_clearOne.
Qed.

Lemma tokens_delete r t l : forall i, l !! i = Some t -> amt r (concat (map taskRes (delete i l))) + amt r (taskRes t) = amt r (concat (map taskRes l)).
Proof.
  induction l as [|x l IH]; intros [|i] Hi; try done.
  - injection Hi as ->. cbn. rewrite amt_app. lia.
  - change (delete (S i) (x :: l)) with (x :: delete i l). cbn. rewrite !amt_app. specialize (IH i Hi). lia.
Qed.
Lemma taskRes_uncounted r t : counted r = true -> amt r (taskRes t) <= 0.
Proof. intros Hr. pose proof (taskRes_nonpos r [t]) as E. cbn in E. rewrite app_nil_r in E. apply E. intros n ->. done. Qed.

Lemma moves_exec e w : moves (reqs (requested e)) w (exec e w).
Proof.
  destruct e; cbn [exec requested]; rewrite ?reqs_cons, ?reqs_nil.
  - exact (moves_initializeEngine w (o, OpenOp name n)).
  - unfold removeFromEngine. destruct (originOf id w) as [o|] eqn:Ho; [|apply moves_answer]. apply moves_removeCaches. apply originOf_cache in Ho. unfold cacheIn in Ho.
    destruct (caches w !! o); [by eexists|by destruct Ho].
  - exact (moves_initializeEngine w (o, InfosOp updateCounter n)).
  - exact (moves_initializeEngine w (o, ClearMemoryOp n)).
  - apply (moves_readCache id (RetrieveOp options n)).
  - apply (moves_readCache id (PutOp records n)).
  - apply (moves_readCache id (DeleteOp req options n)).
  - apply moves_clearOrigins.
  - unfold reference. destruct (negb _); [apply moves_refl|]. cbv zeta. destruct (Nat.eqb _ 0); same_tokens.
  - unfold dereference. destruct (negb _); [apply moves_refl|]. destruct (_ !! id); [|apply moves_refl]. destruct (negb _); [same_tokens|]. eapply moves_after; [apply (moves_unlock id w)|]. unfold setLocks. same_tokens.
  - unfold disconnect. eapply moves_before; [|apply moves_fold0; intros; apply moves_unlock]. same_tokens.
  - same_tokens.
  - destruct (tasks w !! i) as [t|] eqn:Ht; [|apply moves_refl].
    apply (moves_take (taskRes t) w (w <| tasks := delete i (tasks w) |>)); [|done..|intros x Hx; by apply taskRes_uncounted|apply moves_complete].
    intros x. unfold bal, held. cbn. pose proof (tokens_delete x t (tasks w) i Ht). lia.
Qed.

Lemma moves_runs h : moves (reqs (concat (map requested h))) create (runs h).
Proof.
  assert (E : forall h, reqs (concat (map requested h)) = concat (map (fun e => reqs (requested e)) h)) by (intros l; induction l as [|e l IH]; cbn; [done|]; by rewrite reqs_app, IH).
  rewrite E. apply (moves_fold (fun w e => exec e w) (fun e => reqs (requested e)) (fun _ => True)); auto with moves. intros w e _. apply moves_exec.
Qed.

(** ** Sessions without files *)

Section ephemeral.
Hypothesis Hephemeral : shouldPersist = false.

(** Nothing of an origin waits. *)
Definition calmCache (c : Cache) : Prop := m_state c = Open /\ m_pendingOpeningCallbacks c = [].
Definition calmCaches (c : Caches) : Prop :=
  m_pendingInitializationCallbacks c = [] /\ m_pendingWritingCachesToDiskCallbacks c = [] /\ m_isWritingCachesToDisk c = false /\ m_storage c = false /\
  Forall calmCache (m_caches c) /\ Forall calmCache (m_removedCaches c).
Definition isSpaceRequest (t : Task) : bool := match t with RequestSpace _ _ _ _ => true | _ => false end.
Record calm w : Prop := {
  calm_caches : map_Forall (fun _ => calmCaches) (caches w);
  calm_tasks : Forall (fun t => isSpaceRequest t = true) (tasks w);
  calm_callbacks : m_initializationCallbacks w = [] /\ m_pendingClearCallbacks w = [];
  calm_dropped : dropped w = [];
  calm_running : crashed w = false;
  calm_putCounters : map_Forall (fun _ c => (1 <= pc_refs c)%nat) (putCounters w);
  calm_readCounters : map_Forall (fun _ c => (1 <= rc_refs c)%nat) (readCounters w);
  calm_aggregators : map_Forall (fun _ g => (1 <= ag_refs g)%nat) (aggregators w) }.

Lemma Forall_alter {A} (P : A -> Prop) (f : A -> A) (m : gmap nat A) k : (forall a, P a -> P (f a)) -> map_Forall (fun _ => P) m -> map_Forall (fun _ => P) (alter f k m).
Proof. intros Hf Hm i a Hi. destruct (decide (i = k)) as [->|]; [rewrite lookup_alter_eq in Hi|rewrite lookup_alter_ne in Hi by done; by eapply Hm].
  destruct (m !! k) eqn:E; [|done]. injection Hi as <-. apply Hf. by eapply Hm.
Qed.
Lemma calm_answer n r w : calm w -> calm (answer n r w).
Proof. by intros []. Qed.
Lemma calm_fresh w : calm w -> calm (w <| nextUnique := S (nextUnique w) |>).
Proof. by intros []. Qed.
Lemma calm_onCaches o f w : (forall c, calmCaches c -> calmCaches (f c)) -> calm w -> calm (onCaches o f w).
Proof. intros Hf []. split; try done. by apply Forall_alter. Qed.
Lemma calm_modifyIn id f l : (forall c, calmCache c -> calmCache (f c)) -> Forall calmCache l -> Forall calmCache (modifyIn id f l).
Proof. intros Hf. induction 1 as [|c l Hc Hl IH]; cbn; [done|]. destruct (Nat.eqb _ _); constructor; auto. Qed.
Lemma calm_onCache o id f w : (forall c, calmCache c -> calmCache (f c)) -> calm w -> calm (onCache o id f w).
Proof. intros Hf. apply calm_onCaches. intros c (? & ? & ? & ? & ? & ?). unfold modifyCache. destruct (findIn id (m_caches c)); split_and!; try done; cbn; by apply calm_modifyIn. Qed.
Lemma calm_onPut k f w : (forall c, (1 <= pc_refs c)%nat -> (1 <= pc_refs (f c))%nat) -> calm w -> calm (onPut k f w).
Proof. intros Hf []. split; try done. by apply Forall_alter. Qed.
Lemma calm_onRead k f w : (forall c, (1 <= rc_refs c)%nat -> (1 <= rc_refs (f c))%nat) -> calm w -> calm (onRead k f w).
Proof. intros Hf []. split; try done. by apply Forall_alter. Qed.
Lemma calm_fold {A} (f : Engine -> A -> Engine) l : (forall w x, calm w -> calm (f w x)) -> forall w, calm w -> calm (fold_left f l w).
Proof. intros Hf. induction l as [|x l IH]; cbn; auto. Qed.

Create HintDb calm.
Hint Resolve calm_answer calm_fresh : calm.
Hint Extern 2 (calm (onCache _ _ _ _)) => apply calm_onCache; [by intros ? []|] : calm.
Hint Extern 3 (calm (onCaches _ _ _)) => apply calm_onCaches; [by intros ? (? & ? & ? & ? & ? & ?)|] : calm.
Hint Extern 2 (calm (onPut _ _ _)) => apply calm_onPut; [cbn; lia|] : calm.
Hint Extern 2 (calm (onRead _ _ _)) => apply calm_onRead; [cbn; lia|] : calm.

Lemma calm_derefPut k w : calm w -> calm (derefPut k w).
Proof.
  intros Hw. unfold derefPut. destruct (putCounters w !! k) as [c|]; [|done]. destruct (pc_refs c) as [|[|m]]; [apply calm_answer..|]; destruct Hw; split; try done; cbn; try by apply map_Forall_delete.
  apply map_Forall_insert_2; [cbn; lia|done].
Qed.
Hint Resolve calm_derefPut : calm.
Lemma calm_writeRecord o i r p k w : calm w -> calm (writeRecord o i r p k w).
Proof. intros Hw. unfold writeRecord. cbv zeta. rewrite Hephemeral. cbn [negb]. auto with calm. Qed.
Lemma calm_removeRecord o i w : calm w -> calm (removeRecord o i w).
Proof. intros Hw. unfold removeRecord, removeCacheEntry. rewrite Hephemeral. cbn [negb]. auto with calm. Qed.
Hint Resolve calm_writeRecord calm_removeRecord : calm.
Lemma calm_updateRecordToDisk o id i r k w : calm w -> calm (updateRecordToDisk o id i r k w).
Proof.
  intros Hw. unfold updateRecordToDisk. cbv zeta. rewrite Hephemeral. cbn [negb]. set (w1 := onCache o id _ w). assert (Hw1 : calm w1) by (unfold w1; auto with calm).
  unfold continueUpdate. destruct (volatileRecord _ _ _) as [x|]; [|auto with calm]. destruct (cacheIn o id w1) as [c|]; [|auto with calm]. cbv zeta. destruct (recordsFromURL _ c ≫= _); auto with calm.
Qed.
Lemma calm_storeRecord o id k w r : calm w -> calm (storeRecord o id k w r).
Proof.
  intros Hw. unfold storeRecord. destruct (cacheIn o id w) as [c|]; [|done]. cbv zeta. destruct (existingRecord r c) as [i|]; [apply calm_updateRecordToDisk; auto with calm|].
  unfold toRecordInformation. cbn [fresh]. auto 10 with calm.
Qed.
Lemma calm_storeRecords o id rs n w : calm w -> calm (storeRecords o id rs n w).
Proof.
  intros Hw. unfold storeRecords. cbn [fresh]. apply calm_derefPut, calm_fold; [intros; by apply calm_storeRecord|]. destruct Hw; split; try done. cbn. apply map_Forall_insert_2; [cbn; lia|done].
Qed.
Lemma calm_spaceRequest o id rs n w : calm w -> calm (start (RequestSpace o id rs n) w).
Proof. intros []. split; try done. cbn. apply Forall_app. auto. Qed.
Hint Resolve calm_storeRecords calm_spaceRequest : calm.
Lemma calm_put o id rs n w : calm w -> calm (put o id rs n w).
Proof. intros Hw. unfold put. destruct (cacheIn o id w) as [c|]; [|done]. destruct (fold_left _ _ _); auto with calm. Qed.
Lemma calm_spaceAnswered o id rs n granted w : calm w -> calm (spaceAnswered o id rs n granted w).
Proof. intros Hw. unfold spaceAnswered. destruct granted; cbn [negb]; [destruct (cacheIn o id w)|]; auto with calm. Qed.
Lemma calm_remove o id req options n w : calm w -> calm (remove o id req options n w).
Proof.
  intros Hw. unfold remove. destruct (cacheIn o id w) as [c|]; [|done]. cbv zeta. destruct (decide _); [auto with calm|]. rewrite Hephemeral. cbn [negb].
  apply calm_answer, calm_onCache; [by intros ? []|]. apply calm_fold; auto with calm.
Qed.
Lemma calm_removeFromRecordList o id ids w : calm w -> calm (removeFromRecordList o id ids w).
Proof. intros Hw. unfold removeFromRecordList. destruct (cacheIn o id w) as [c|]; [|done]. cbv zeta. apply calm_onCache; [by intros ? []|]. apply calm_fold; auto with calm. Qed.
Hint Resolve calm_put calm_remove calm_removeFromRecordList : calm.
Lemma calm_derefRead k w : calm w -> calm (derefRead k w).
Proof.
  intros Hw. unfold derefRead. destruct (readCounters w !! k) as [c|]; [|done].
  assert (Hd : calm (w <| readCounters := delete k (readCounters w) |>)) by (destruct Hw; split; try done; by apply map_Forall_delete).
  destruct (rc_refs c) as [|[|m]]; [auto with calm..|]. destruct Hw; split; try done. cbn. apply map_Forall_insert_2; [cbn; lia|done].
Qed.
Hint Resolve calm_derefRead : calm.
Lemma calm_retrieveRecord o id k w i : calm w -> calm (retrieveRecord o id k w i).
Proof.
  intros Hw. unfold retrieveRecord, recordRead. cbv zeta. rewrite Hephemeral. cbn [negb]. apply calm_derefRead. set (w1 := onRead _ _ w). assert (Hw1 : calm w1) by (unfold w1; auto with calm).
  destruct (cacheIn o id w1); [|done]. apply calm_onRead; [|done]. intros rc. unfold appendRecord. by destruct (volatileRecord _ _ _).
Qed.
Lemma calm_retrieveRecords o id options n w : calm w -> calm (retrieveRecords o id options n w).
Proof.
  intros Hw. unfold retrieveRecords. destruct (cacheIn o id w) as [c|]; [|done]. cbn [fresh]. apply calm_derefRead, calm_fold; [intros; by apply calm_retrieveRecord|].
  destruct Hw; split; try done. cbn. apply map_Forall_insert_2; [cbn; lia|done].
Qed.
Lemma calm_runOp o id op w : calm w -> calm (runOp o id op w).
Proof. destruct op; cbn; auto using calm_retrieveRecords with calm. Qed.
Hint Resolve calm_runOp : calm.

Lemma calm_cacheIn o id w c : calm w -> cacheIn o id w = Some c -> calmCache c.
Proof.
  intros Hw Hc. unfold cacheIn in Hc. destruct (caches w !! o) as [cs|] eqn:Ho; [|done]. cbn in Hc. destruct (calm_caches _ Hw o cs Ho) as (_ & _ & _ & _ & H1 & H2).
  rewrite !Forall_forall in *. unfold findById in Hc. destruct (findIn id (m_caches cs)) as [x|] eqn:E; [injection Hc as ->; apply find_some in E as [E _]; apply H1|apply find_some in Hc as [Hc _]; apply H2];
    by apply list_elem_of_In.
Qed.
Lemma calm_openCache o id c w : calm w -> calm (openCache o id c w).
Proof.
  intros Hw. unfold openCache. destruct (cacheIn o id w) as [x|] eqn:Hx; [|done]. cbn [fmap option_fmap option_map]. destruct (calm_cacheIn _ _ _ _ Hw Hx) as [-> _].
  destruct c as [cid n|cid op]; cbn; [auto with calm|]. destruct (originOf cid w); auto with calm.
Qed.
Lemma calm_readCache id op w : calm w -> calm (readCache id op w).
Proof.
  intros Hw. unfold readCache. destruct (originOf id w) as [o|]; [|auto with calm]. destruct (m_state <$> cacheIn o id w) as [[]|]; auto using calm_openCache with calm.
Qed.
Lemma calm_writeCachesToDisk o c w : calm w -> calm (writeCachesToDisk o c w).
Proof. intros Hw. unfold writeCachesToDisk. destruct (caches w !! o); [|done]. rewrite Hephemeral. cbn. destruct c; by apply calm_answer. Qed.
Lemma calm_openCaches o name n w : calm w -> calm (openCaches o name n w).
Proof.
  intros Hw. unfold openCaches. destruct (caches w !! o) as [c|] eqn:Hc; [|done]. destruct (calm_caches _ Hw o c Hc) as (_ & _ & -> & _). destruct (findByName name c) as [x|]; [by apply calm_openCache|].
  cbv zeta. cbn [fresh]. apply calm_writeCachesToDisk, calm_onCaches; [|by destruct Hw]. intros c' (? & ? & ? & ? & ? & ?). split_and!; try done. cbn. apply Forall_app. split; [done|]. by constructor.
Qed.
Lemma calm_removeFrom id l : Forall calmCache l -> Forall calmCache (removeCacheFrom id l).
Proof. induction 1 as [|c l Hc Hl IH]; cbn; [done|]. destruct (Nat.eqb _ _); auto. Qed.
Lemma calm_removeCaches o id n w : calm w -> calm (removeCaches o id n w).
Proof.
  intros Hw. unfold removeCaches. destruct (caches w !! o) as [c|] eqn:Hc; [|done]. destruct (calm_caches _ Hw o c Hc) as (_ & _ & -> & _ & H1 & _). destruct (findIn id (m_caches c)) as [x|] eqn:Hx; [|auto with calm].
  apply calm_writeCachesToDisk, calm_onCaches; [|done]. intros c' (? & ? & ? & ? & ? & ?). split_and!; try done; cbn; [by apply calm_removeFrom|]. apply Forall_app. split; [done|]. constructor; [|done].
  rewrite Forall_forall in H1. apply H1. apply find_some in Hx as [Hx _]. by apply list_elem_of_In.
Qed.
Lemma calm_waiting l : Forall calmCache l -> concat (map waiting l) = [].
Proof. induction 1 as [|c l [_ Hc] Hl IH]; cbn; [done|]. unfold waiting at 1. by rewrite Hc, IH. Qed.
Lemma calm_dropWaiting l w : Forall calmCache l -> calm w -> calm (dropWaiting l w).
Proof. intros Hl []. split; try done. cbn. by rewrite (calm_waiting l Hl), app_nil_r. Qed.
Lemma calm_clearMemory o w : calm w -> calm (clearMemoryRepresentation o w).
Proof.
  intros Hw. unfold clearMemoryRepresentation. destruct (caches w !! o) as [c|] eqn:Hc; [|done]. destruct (calm_caches _ Hw o c Hc) as (_ & _ & _ & _ & H1 & _).
  apply calm_onCaches; [by intros ? (? & ? & ? & ? & ? & ?)|by apply calm_dropWaiting].
Qed.
Lemma calm_dispose o id w : calm w -> calm (dispose o id w).
Proof.
  intros Hw. unfold dispose. destruct (caches w !! o) as [c|] eqn:Hc; [|done]. destruct (calm_caches _ Hw o c Hc) as (_ & _ & _ & _ & _ & H2). rewrite Hephemeral. cbn [negb].
  destruct (findIn id (m_removedCaches c)) as [x|] eqn:Hx; [|done]. apply calm_onCaches; [|apply calm_dropWaiting; [|done]].
  - intros c' (? & ? & ? & ? & ? & ?). split_and!; try done. cbn. by apply calm_removeFrom.
  - constructor; [|done]. rewrite Forall_forall in H2. apply H2. apply find_some in Hx as [Hx _]. by apply list_elem_of_In.
Qed.
Hint Resolve calm_openCaches calm_removeCaches calm_clearMemory calm_dispose calm_readCache : calm.
Lemma calm_runCachesOp o w op : calm w -> calm (runCachesOp o w op).
Proof.
  intros Hw. destruct op; cbn; auto with calm. unfold cacheInfos. destruct (caches w !! o) as [c|] eqn:Hc; [|done]. destruct (calm_caches _ Hw o c Hc) as (_ & _ & -> & _). auto with calm.
Qed.
Lemma calm_proceed w x : calm w -> calm (proceed w x).
Proof.
  intros Hw. destruct x as [o op]. unfold proceed. cbv zeta. set (w1 := match caches w !! o with Some _ => w | None => _ end).
  assert (Hw1 : calm w1). { unfold w1. destruct (caches w !! o); [done|]. destruct Hw. split; try done. cbn. by apply map_Forall_insert_2. }
  unfold initialize. destruct (caches w1 !! o) as [c|]; [|done]. rewrite Hephemeral. cbn [negb]. destruct (m_isInitialized c); apply calm_runCachesOp; auto with calm.
Qed.
Lemma calm_initializeEngine w x : m_clearTaskCounter w = 0%nat -> calm w -> calm (initializeEngine w x).
Proof.
  intros Hz Hw. unfold initializeEngine. rewrite Hz. destruct (calm_callbacks _ Hw) as [_ ->]. cbn. rewrite Hephemeral. cbn [negb]. destruct (m_salt w); apply calm_proceed; [done|]. by destruct Hw.
Qed.

Lemma calm_finishClear n w : calm w -> calm (finishClear n w).
Proof.
  intros Hw. unfold finishClear. cbv zeta. set (w1 := _ <| m_clearTaskCounter := _ |>). assert (Hw1 : calm w1) by (by destruct Hw). destruct (Nat.eqb _ 0); [|done].
  destruct (calm_callbacks _ Hw1) as [_ ->]. cbn. by destruct Hw1 as [? ? [? ?]].
Qed.
Lemma calm_derefAggregator a w : calm w -> calm (derefAggregator a w).
Proof.
  intros Hw. unfold derefAggregator. destruct (aggregators w !! a) as [g|]; [|done]. rewrite Hephemeral. cbn [negb]. cbv zeta.
  destruct (ag_refs g) as [|[|m]]; [apply calm_finishClear..|]; destruct Hw; split; try done; cbn; try by apply map_Forall_delete. apply map_Forall_insert_2; [cbn; lia|done].
Qed.
Lemma calm_clearCaches o a w : calm w -> calm (clearCaches o a w).
Proof.
  intros Hw. assert (Hiw : isWriting o w = false) by (unfold isWriting; destruct (caches w !! o) as [c|] eqn:Hc; [by destruct (calm_caches _ Hw o c Hc) as (_ & _ & ? & _)|done]).
  unfold clearCaches, clearCachesWith. rewrite Hiw. cbv zeta. set (w1 := takeInitializationCallbacks o _ w). assert (Hw1 : calm w1).
  { unfold w1, takeInitializationCallbacks. destruct (caches w !! o) as [c|] eqn:Hc; [|done]. destruct (calm_caches _ Hw o c Hc) as (-> & _). cbn. auto with calm. }
  assert (Hs : hasStorage o w1 = false) by (unfold hasStorage; destruct (caches w1 !! o) as [c|] eqn:Hc; [by destruct (calm_caches _ Hw1 o c Hc) as (_ & _ & _ & ? & _)|done]).
  rewrite Hs. apply calm_derefAggregator. set (w2 := clearMemoryRepresentation o w1). assert (Hw2 : calm w2) by (unfold w2; auto with calm).
  unfold clearPendingWritingCachesToDiskCallbacks. destruct (caches w2 !! o) as [c|] eqn:Hc; [|done]. destruct (calm_caches _ Hw2 o c Hc) as (_ & -> & _). cbn. auto with calm.
Qed.
Lemma calm_clearOrigins f n w : calm w -> calm (clearOrigins f n w).
Proof.
  intros Hw. unfold clearOrigins. cbn [fresh]. cbv zeta. apply calm_derefAggregator, calm_fold.
  - intros w1 o Hw1. apply calm_clearCaches. destruct Hw1. split; try done. apply Forall_alter; [cbn; lia|done].
  - destruct Hw. split; try done. cbn. apply map_Forall_insert_2; [cbn; lia|done].
Qed.
Lemma calm_unlock id w : calm w -> calm (unlock id w).
Proof.
  intros Hw. unfold unlock. destruct (m_cacheLocks w !! id); [|done]. cbv zeta. set (w1 := w <| m_cacheLocks := _ |>). assert (Hw1 : calm w1) by (by destruct Hw).
  destruct (negb _); [done|]. destruct (originOf id w1); auto with calm.
Qed.
Lemma calm_exec e w : m_clearTaskCounter w = 0%nat -> calm w -> calm (exec e w).
Proof.
  intros Hz Hw. destruct e; cbn [exec]; auto using calm_initializeEngine, calm_clearOrigins with calm.
  - unfold removeFromEngine. destruct (originOf id w); auto with calm.
  - unfold reference. destruct (negb _); [done|]. cbv zeta. destruct (Nat.eqb _ 0); by destruct Hw.
  - unfold dereference. destruct (negb _); [done|]. destruct (_ !! id); [|done]. destruct (negb _); [by destruct Hw|]. apply (calm_unlock id) in Hw. by destruct Hw.
  - unfold disconnect. apply calm_fold; [intros; by apply calm_unlock|]. by destruct Hw.
  - by destruct Hw.
  - destruct (tasks w !! i) as [t|] eqn:Ht; [|done]. destruct Hw as [? Hts]. assert (Hw1 : calm (w <| tasks := delete i (tasks w) |>)) by (split; try done; cbn; by apply Forall_delete).
    rewrite Forall_lookup in Hts. specialize (Hts i t Ht). destruct t; try done. by apply calm_spaceAnswered.
Qed.
End ephemeral.

(** ** What holds of every run *)

Definition times (n : nat) (l : list nat) : nat := count_occ Nat.eq_dec l n.
Definition usesPut (k : nat) (t : Task) : bool := match t with StoreRecord _ k' | WriteSizeAfterStore k' | ReadForUpdate _ _ _ _ k' => Nat.eqb k k' | _ => false end.
Definition usesRead (k : nat) (t : Task) : bool := match t with ReadForRetrieve _ _ _ _ k' => Nat.eqb k k' | _ => false end.
Definition deletes (t : Task) : bool := match t with DeleteDirectories _ => true | _ => false end.
Definition number (f : Task -> bool) w : nat := length (List.filter f (tasks w)).

Lemma amt_times n l : amt (Req n) (reqs l) = Z.of_nat (times n l).
Proof. unfold times. induction l as [|m l IH]; [done|]. rewrite reqs_cons, amt_cons, amt_one, IH. cbn. destruct (Nat.eq_dec m n), (decide _); simplify_eq; lia. Qed.
Lemma amt_number r (f : Task -> bool) w : (forall t, amt r (taskRes t) = if f t then -1 else 0) -> amt r (concat (map taskRes (tasks w))) = - Z.of_nat (number f w).
Proof. intros Hf. unfold number. induction (tasks w) as [|t l IH]; cbn; [by rewrite amt_nil|]. rewrite amt_app, IH, Hf. destruct (f t); cbn; lia. Qed.
Lemma amt_cachesRes r c : (forall n, r <> Req n) -> (forall a, r <> AggUse a) -> amt r (cachesRes c) = 0.
Proof.
  intros Hr Ha. unfold cachesRes. rewrite !amt_app, !(proj2 (amt_reqs r _) Hr). induction (m_pendingWritingCachesToDiskCallbacks c) as [|p l IH]; cbn; [by rewrite amt_nil|].
  rewrite amt_app. assert (amt r (pendingRes p) = 0); [|lia]. destruct p; cbn; rewrite amt_one, decide_False; auto.
Qed.
Ltac uses_cases := let t := fresh in intros t; destruct t; cbn; rewrite ?amt_nil, ?amt_one; unfold amt; cbn; repeat destruct (decide _); simplify_eq/=; rewrite ?Nat.eqb_refl; try done;
  match goal with |- context [Nat.eqb ?a ?b] => destruct (Nat.eqb_spec a b); subst; done end.

Lemma put_references k w : bal (PutUse k) w = match putCounters w !! k with Some c => Z.of_nat (pc_refs c) | None => 0 end - Z.of_nat (number (usesPut k) w).
Proof.
  unfold bal, held, opsRes. rewrite !(proj2 (amt_reqs (PutUse k) _)) by done. rewrite amt_one, decide_False by done. rewrite (amt_number (PutUse k) (usesPut k)) by uses_cases.
  rewrite (msum_zero (fun _ c => amt (PutUse k) (cachesRes c))) by (intros; by apply amt_cachesRes). rewrite (msum_zero (fun k0 c => amt (PutUse k) (readRes k0 c))) by (intros; res_cases).
  rewrite (msum_zero (fun k0 c => amt (PutUse k) (aggRes k0 c))) by (intros; res_cases). rewrite (msum_single _ (putCounters w) k) by (intros; res_cases).
  destruct (putCounters w !! k); [|lia]. res_cases.
Qed.
Lemma read_references k w : bal (ReadUse k) w = match readCounters w !! k with Some c => Z.of_nat (rc_refs c) | None => 0 end - Z.of_nat (number (usesRead k) w).
Proof.
  unfold bal, held, opsRes. rewrite !(proj2 (amt_reqs (ReadUse k) _)) by done. rewrite amt_one, decide_False by done. rewrite (amt_number (ReadUse k) (usesRead k)) by uses_cases.
  rewrite (msum_zero (fun _ c => amt (ReadUse k) (cachesRes c))) by (intros; by apply amt_cachesRes). rewrite (msum_zero (fun k0 c => amt (ReadUse k) (putRes k0 c))) by (intros; res_cases).
  rewrite (msum_zero (fun k0 c => amt (ReadUse k) (aggRes k0 c))) by (intros; res_cases). rewrite (msum_single _ (readCounters w) k) by (intros; res_cases).
  destruct (readCounters w !! k); [|lia]. res_cases.
Qed.
Lemma msum_size {A} (f : nat -> A -> Z) (m : gmap nat A) : (forall k v, f k v = -1) -> msum f m = - Z.of_nat (base.size m).
Proof.
  intros Hf. rewrite <- length_map_to_list. unfold msum. induction (map_to_list m) as [|x l IH]; cbn [foldr length]; [done|]. rewrite Hf, IH. lia.
Qed.
Lemma clear_references w : bal ClearUse w = Z.of_nat (m_clearTaskCounter w) - Z.of_nat (base.size (aggregators w)) - Z.of_nat (number deletes w).
Proof.
  unfold bal, held, opsRes. rewrite !(proj2 (amt_reqs ClearUse _)) by done. rewrite amt_one, decide_True by done. rewrite (amt_number ClearUse deletes) by uses_cases.
  rewrite (msum_zero (fun _ c => amt ClearUse (cachesRes c))) by (intros; by apply amt_cachesRes). rewrite (msum_zero (fun k0 c => amt ClearUse (readRes k0 c))) by (intros; res_cases).
  rewrite (msum_zero (fun k0 c => amt ClearUse (putRes k0 c))) by (intros; res_cases). rewrite msum_size by (intros; res_cases). lia.
Qed.

Lemma ok_create : ok create /\ forall r, bal r create = 0.
Proof.
  assert (E : forall r, bal r create = 0) by (intros r; unfold bal, held, opsRes; cbn; rewrite !reqs_nil, !amt_nil, amt_one; unfold msum; rewrite !map_to_list_empty; cbn; destruct (decide _); lia).
  split; [|done]. split_and!; [intros k _; cbn; by rewrite !lookup_empty|done|intros r _; by rewrite E].
Qed.
Lemma runs_bal h : crashed (runs h) = false -> ok (runs h) /\ forall r, bal r (runs h) = amt r (reqs (concat (map requested h))).
Proof.
  intros Hc. destruct ok_create as [Hok E]. destruct (moves_bal _ _ _ (moves_runs h) Hok Hc) as [Hn Hb]; [intros r Hr; rewrite E; apply amt_reqs|].
  assert (Hb' : forall r, bal r (runs h) = amt r (reqs (concat (map requested h)))) by (intros r; rewrite Hb, E; lia).
  split; [|done]. split_and!; [done..|]. intros r Hr. rewrite Hb'. apply amt_reqs.
Qed.
Lemma runs_counted h r : crashed (runs h) = false -> counted r = true -> bal r (runs h) = 0.
Proof. intros Hc Hr. rewrite (proj2 (runs_bal h Hc)). apply amt_reqs. intros n ->. done. Qed.

Lemma amt_pos n l : (forall x q, In (x, q) l -> x = Req n -> 0 <= q) -> 0 <= amt (Req n) l.
Proof.
  induction l as [|[x q] l IH]; intros Hl; [done|]. rewrite amt_cons, amt_one. assert (0 <= amt (Req n) l) by (apply IH; intros y p Hy; apply Hl; by right).
  destruct (decide _) as [<-|]; [|lia]. specialize (Hl (Req n) q (or_introl eq_refl) eq_refl). lia.
Qed.
Lemma msum_pos {A} (f : nat -> A -> Z) (m : gmap nat A) : (forall k v, 0 <= f k v) -> 0 <= msum f m.
Proof. intros Hf. unfold msum. induction (map_to_list m) as [|x l IH]; cbn; [done|]. specialize (Hf (fst x) (snd x)). lia. Qed.
Lemma msum_entries {A} (f : nat -> A -> Z) (m : gmap nat A) : (forall k v, m !! k = Some v -> f k v = 0) -> msum f m = 0.
Proof.
  intros Hf. unfold msum. assert (Hl : forall k v, (k, v) ∈ map_to_list m -> f k v = 0) by (intros k v Hk; apply Hf; by apply elem_of_map_to_list). revert Hl.
  induction (map_to_list m) as [|[k v] l IH]; cbn; [done|]. intros Hl. rewrite (Hl k v), IH; [done| |by left]. intros k' v' Hk'. apply Hl. by right.
Qed.
Lemma held_pos n w : 0 <= held (Req n) w.
Proof.
  assert (Hp : forall l, 0 <= amt (Req n) (concat (map pendingRes l))) by (intros l; induction l as [|p l IH]; cbn; [done|]; rewrite amt_app; destruct p; cbn; rewrite amt_one; destruct (decide _); simplify_eq; lia).
  assert (Ht : 0 <= amt (Req n) (concat (map taskRes (tasks w)))).
  { induction (tasks w) as [|t l IH]; cbn; [done|]. rewrite amt_app. assert (0 <= amt (Req n) (taskRes t)); [|lia]. destruct t; cbn; unfold amt; cbn; repeat destruct (decide _); simplify_eq; lia. }
  pose proof (amt_reqs (Req n)) as Hr. unfold held, opsRes.
  pose proof (msum_pos (fun _ c => amt (Req n) (cachesRes c)) (caches w)) as H1. pose proof (msum_pos (fun k c => amt (Req n) (putRes k c)) (putCounters w)) as H2.
  pose proof (msum_pos (fun k c => amt (Req n) (readRes k c)) (readCounters w)) as H3. pose proof (msum_pos (fun k c => amt (Req n) (aggRes k c)) (aggregators w)) as H4.
  pose proof (proj1 (Hr (map (fun x => opOrigin (snd x)) (m_initializationCallbacks w)))). pose proof (proj1 (Hr (map (fun x => opOrigin (snd x)) (m_pendingClearCallbacks w)))).
  assert (0 <= msum (fun _ c => amt (Req n) (cachesRes c)) (caches w)).
  { apply H1. intros _ c. unfold cachesRes. rewrite !amt_app. pose proof (Hp (m_pendingWritingCachesToDiskCallbacks c)). pose proof (proj1 (Hr (map opOrigin (m_pendingInitializationCallbacks c)))).
    pose proof (proj1 (Hr (concat (map waiting (m_caches c))))). pose proof (proj1 (Hr (concat (map waiting (m_removedCaches c))))). lia. }
  specialize (H2 ltac:(intros; res_cases)). specialize (H3 ltac:(intros; res_cases)). specialize (H4 ltac:(intros; res_cases)). lia.
Qed.

(** C36: While no null pointer is used, every request of a web process is exactly once either
    answered, or lost with a cache that was destroyed, or held by exactly one place that will
    settle it; and the reference counts are exact: a task counter of a put or of a retrieval
    has as many references as there are tasks that use it, so that it is there as long as a
    task needs it and its callback is called when the last one is done, and the number of
    clear tasks is that of the clears that are under way. *)
Theorem cache_requests_conserved h :
  crashed (runs h) = false -> let w := runs h in
  (forall n, Z.of_nat (times n (concat (map requested h))) = Z.of_nat (times n (map fst (answered w))) + Z.of_nat (times n (dropped w)) + held (Req n) w /\ 0 <= held (Req n) w) /\
  (forall k, number (usesPut k) w = match putCounters w !! k with Some c => pc_refs c | None => 0%nat end) /\
  (forall k, number (usesRead k) w = match readCounters w !! k with Some c => rc_refs c | None => 0%nat end) /\
  m_clearTaskCounter w = (base.size (aggregators w) + number deletes w)%nat.
Proof.
  intros Hc w. split_and!.
  - intros n. split; [|apply held_pos]. rewrite <- !amt_times, <- (proj2 (runs_bal h Hc)). unfold bal. rewrite (amt_one (Req n)), decide_False by done. fold w. lia.
  - intros k. pose proof (put_references k w) as E. unfold w in E. rewrite (runs_counted h _ Hc) in E by done. fold w in E. destruct (putCounters w !! k); lia.
  - intros k. pose proof (read_references k w) as E. unfold w in E. rewrite (runs_counted h _ Hc) in E by done. fold w in E. destruct (readCounters w !! k); lia.
  - pose proof (clear_references w) as E. unfold w in E. rewrite (runs_counted h _ Hc) in E by done. fold w in E. lia.
Qed.

(** A request that is lost with a cache that was destroyed is never answered. *)
Theorem dropped_request_is_not_answered h n :
  crashed (runs h) = false -> times n (concat (map requested h)) = 1%nat -> n ∈ dropped (runs h) -> (n ∉ map fst (answered (runs h))).
Proof.
  intros Hc Hn Hd Ha. destruct (runs_bal h Hc) as [_ E]. specialize (E (Req n)). rewrite amt_times, Hn in E. pose proof (held_pos n (runs h)). unfold bal in E.
  rewrite !amt_times, amt_one, decide_False in E by done. apply list_elem_of_In, (count_occ_In Nat.eq_dec) in Hd, Ha. unfold times in E. lia.
Qed.

(** *** Without files *)

(** No task and no pending callback has a reference: there is no object that counts them. *)
Definition positive w : Prop :=
  map_Forall (fun _ c => (1 <= pc_refs c)%nat) (putCounters w) /\ map_Forall (fun _ c => (1 <= rc_refs c)%nat) (readCounters w) /\ map_Forall (fun _ g => (1 <= ag_refs g)%nat) (aggregators w).
Lemma no_references w :
  positive w -> (forall r, counted r = true -> bal r w = 0) -> (forall r, counted r = true -> Forall (fun t => amt r (taskRes t) = 0) (tasks w)) ->
  (forall o c a, caches w !! o = Some c -> amt (AggUse a) (cachesRes c) = 0) ->
  putCounters w = ∅ /\ readCounters w = ∅ /\ aggregators w = ∅ /\ m_clearTaskCounter w = 0%nat.
Proof.
  intros (Hput & Hread & Hagg) Hb Hts Hcs.
  assert (Ht0 : forall r, counted r = true -> amt r (concat (map taskRes (tasks w))) = 0) by (intros r Hr; specialize (Hts r Hr); induction Hts as [|t l Ht Hl IH]; cbn; [done|]; by rewrite amt_app, Ht, IH).
  assert (Hno : forall r (f : Task -> bool), counted r = true -> (forall t, amt r (taskRes t) = if f t then -1 else 0) -> number f w = 0%nat).
  { intros r f Hr Hf. pose proof (amt_number r f w Hf) as E. rewrite (Ht0 r Hr) in E. lia. }
  assert (Hp : putCounters w = ∅).
  { apply map_empty. intros k. pose proof (put_references k w) as E. rewrite Hb, (Hno (PutUse k)) in E by (try done; uses_cases). destruct (putCounters w !! k) as [c|] eqn:Hk; [|done]. specialize (Hput k c Hk). cbn in Hput. lia. }
  assert (Hr : readCounters w = ∅).
  { apply map_empty. intros k. pose proof (read_references k w) as E. rewrite Hb, (Hno (ReadUse k)) in E by (try done; uses_cases). destruct (readCounters w !! k) as [c|] eqn:Hk; [|done]. specialize (Hread k c Hk). cbn in Hread. lia. }
  assert (Ha : aggregators w = ∅).
  { apply map_empty. intros a. destruct (aggregators w !! a) as [g|] eqn:Hg; [|done]. pose proof (Hagg a g Hg) as Hpos. cbn in Hpos. pose proof (Hb (AggUse a) eq_refl) as E. exfalso.
    unfold bal, held, opsRes in E. rewrite !(proj2 (amt_reqs (AggUse a) _)), amt_one, decide_False, Hp, Hr, Ht0 in E by done. rewrite (msum_single _ (aggregators w) a) in E by (intros; res_cases).
    rewrite Hg, (msum_entries (fun _ c => amt (AggUse a) (cachesRes c))) in E by (intros; by eapply Hcs). unfold msum in E. rewrite !map_to_list_empty in E. revert E. unfold aggRes, amt. cbn. repeat destruct (decide _); simplify_eq/=; lia. }
  split_and!; [done..|]. pose proof (clear_references w) as E. rewrite Hb, Ha, (Hno ClearUse) in E by (try done; uses_cases). rewrite map_size_empty in E. lia.
Qed.
(** Then only tasks and waiting callbacks hold requests. *)
Lemma held_no_references n w : putCounters w = ∅ -> readCounters w = ∅ -> aggregators w = ∅ -> (forall o c, caches w !! o = Some c -> cachesRes c = []) ->
  m_initializationCallbacks w = [] -> m_pendingClearCallbacks w = [] -> held (Req n) w = amt (Req n) (concat (map taskRes (tasks w))).
Proof.
  intros Hp Hr Ha Hc E1 E2. unfold held. rewrite Hp, Hr, Ha, E1, E2. rewrite (msum_entries (fun _ c => amt (Req n) (cachesRes c))) by (intros o c Ho; by rewrite (Hc o c Ho)). unfold opsRes, msum. rewrite !map_to_list_empty.
  cbn. rewrite !reqs_nil, !amt_nil. lia.
Qed.
Lemma calm_cachesRes c : calmCaches c -> cachesRes c = [].
Proof. intros (E1 & E2 & _ & _ & H1 & H2). unfold cachesRes. by rewrite E1, E2, (calm_waiting _ H1), (calm_waiting _ H2). Qed.
Lemma calm_counted w : calm w -> (forall r, counted r = true -> bal r w = 0) -> putCounters w = ∅ /\ readCounters w = ∅ /\ aggregators w = ∅ /\ m_clearTaskCounter w = 0%nat.
Proof.
  intros [Hcs Hts _ _ _ Hput Hread Hagg] Hb. apply no_references; [done|done| |].
  - intros r Hr. eapply Forall_impl; [exact Hts|]. intros [] ?; try done. cbn. rewrite amt_one, decide_False; [done|by intros ->].
  - intros o c a Hc. by rewrite (calm_cachesRes c (Hcs o c Hc)).
Qed.
Lemma calm_create : calm create.
Proof. split; cbn; try done; apply map_Forall_empty. Qed.
Lemma calm_runs h : shouldPersist = false -> calm (runs h).
Proof.
  intros He. induction h as [|e h IH] using rev_ind; [apply calm_create|]. unfold runs. rewrite fold_left_app. cbn. change (fold_left _ h create) with (runs h). apply calm_exec; [done| |exact IH].
  apply (calm_counted (runs h) IH). intros r Hr. apply runs_counted; [apply IH|done].
Qed.

Definition spaceRequester (t : Task) : list nat := match t with RequestSpace _ _ _ n => [n] | _ => [] end.

(** In a session without files the engine never uses a null pointer and never loses a
    request: every request has been answered exactly once, but for the puts for which the
    quota manager has not yet decided. *)
Theorem ephemeral_requests_answered h :
  shouldPersist = false -> let w := runs h in
  crashed w = false /\ dropped w = [] /\
  forall n, times n (concat (map requested h)) = (times n (map fst (answered w)) + times n (concat (map spaceRequester (tasks w))))%nat.
Proof.
  intros He w. pose proof (calm_runs h He) as Hw. fold w in Hw. destruct (calm_counted w Hw) as (Hp & Hr & Ha & _); [intros r Hr; apply runs_counted; [apply Hw|done]|].
  split_and!; [apply Hw..|]. intros n. apply Nat2Z.inj. rewrite Nat2Z.inj_add, <- !amt_times, <- (proj2 (runs_bal h (calm_running _ Hw))). fold w.
  unfold bal. rewrite (amt_one (Req n)), decide_False, (calm_dropped _ Hw), held_no_references by (try done; try apply (calm_callbacks _ Hw); intros o c Hc; by apply calm_cachesRes, (calm_caches _ Hw o c)).
  assert (E : amt (Req n) (concat (map taskRes (tasks w))) = amt (Req n) (reqs (concat (map spaceRequester (tasks w))))); [|rewrite E, reqs_nil, amt_nil; lia].
  induction (calm_tasks _ Hw) as [|t l Ht Hl IH]; cbn; [done|]. rewrite reqs_app, !amt_app, IH. by destruct t.
Qed.

(** ** Sessions with files: nothing hangs *)

Section persistent.
Hypothesis Hpersist : shouldPersist = true.

(** What of an origin decides whether something waits, and for what. *)
Definition cacheFace (x : Cache) : nat * State * list OpenCallback := (m_identifier x, m_state x, m_pendingOpeningCallbacks x).
Definition allCaches (c : Caches) : list Cache := m_caches c ++ m_removedCaches c.
Definition face (c : Caches) : bool * bool * list CachesOp * bool * list PendingWrite * list (nat * State * list OpenCallback) :=
  (m_isInitialized c, m_storage c, m_pendingInitializationCallbacks c, m_isWritingCachesToDisk c, m_pendingWritingCachesToDiskCallbacks c, map cacheFace (allCaches c)).

(** Work on records: it may start tasks and changes nothing of what waits. *)
Record still w w' : Prop := {
  still_face : forall o, face <$> caches w' !! o = face <$> caches w !! o;
  still_tasks : forall t, t ∈ tasks w -> t ∈ tasks w';
  still_engine : (m_initializationCallbacks w', m_pendingClearCallbacks w', m_clearTaskCounter w', m_nextCacheIdentifier w') =
                 (m_initializationCallbacks w, m_pendingClearCallbacks w, m_clearTaskCounter w, m_nextCacheIdentifier w);
  still_refs : positive w -> positive w' }.
Lemma still_refl w : still w w.
Proof. done. Qed.
Lemma still_trans w w1 w2 : still w w1 -> still w1 w2 -> still w w2.
Proof. intros [A1 A2 A3 A4] [B1 B2 B3 B4]. split; [intros o; by rewrite B1|auto|congruence|auto]. Qed.
#[local] Instance still_preorder : PreOrder still := Build_PreOrder still still_refl still_trans.
Lemma still_fold {A} (f : Engine -> A -> Engine) l : (forall w x, still w (f w x)) -> forall w, still w (fold_left f l w).
Proof. intros Hf. induction l as [|x l IH]; intros w; cbn; [done|]. etrans; [apply Hf|apply IH]. Qed.

Lemma still_answer n r w : still w (answer n r w).
Proof. done. Qed.
Lemma still_start t w : still w (start t w).
Proof. split; try done. intros t' Ht. cbn. apply elem_of_app. by left. Qed.
Lemma still_crash w : still w (crash w).
Proof. done. Qed.
Lemma still_fresh w : still w (w <| nextUnique := S (nextUnique w) |>).
Proof. done. Qed.
Lemma still_onCaches o f w : (forall c, face (f c) = face c) -> still w (onCaches o f w).
Proof.
  intros Hf. split; try done. intros o'. unfold onCaches. cbn. destruct (decide (o' = o)) as [->|]; [rewrite lookup_alter_eq|by rewrite lookup_alter_ne].
  destruct (caches w !! o); cbn; [by rewrite Hf|done].
Qed.
Lemma face_modifyIn id f l : (forall x, cacheFace (f x) = cacheFace x) -> map cacheFace (modifyIn id f l) = map cacheFace l.
Proof. intros Hf. induction l as [|x l IH]; cbn; [done|]. destruct (Nat.eqb _ _); cbn; [by rewrite Hf|by rewrite IH]. Qed.
Lemma still_onCache o id f w : (forall x, cacheFace (f x) = cacheFace x) -> still w (onCache o id f w).
Proof.
  intros Hf. apply still_onCaches. intros c. unfold modifyCache, face, allCaches. destruct (findIn id (m_caches c)); cbn; by rewrite !map_app, face_modifyIn.
Qed.
Lemma still_onPut k f w : (forall c, (1 <= pc_refs c)%nat -> (1 <= pc_refs (f c))%nat) -> still w (onPut k f w).
Proof. intros Hf. split; try done. intros (H1 & H2 & H3). split_and!; try done. by apply Forall_alter. Qed.
Lemma still_onRead k f w : (forall c, (1 <= rc_refs c)%nat -> (1 <= rc_refs (f c))%nat) -> still w (onRead k f w).
Proof. intros Hf. split; try done. intros (H1 & H2 & H3). split_and!; try done. by apply Forall_alter. Qed.

Create HintDb still.
Hint Resolve still_answer still_start still_crash still_fresh : still.
Hint Extern 2 (still _ (onCache _ _ _ _)) => apply still_onCache; done : still.
Hint Extern 3 (still _ (onCaches _ _ _)) => apply still_onCaches; done : still.
Hint Extern 2 (still _ (onPut _ _ _)) => apply still_onPut; cbn; lia : still.
Hint Extern 2 (still _ (onRead _ _ _)) => apply still_onRead; cbn; lia : still.
(** The last step keeps still. *)
Ltac quiet := etrans; [|solve [auto with still]].

Lemma still_derefPut k w : still w (derefPut k w).
Proof.
  unfold derefPut. destruct (putCounters w !! k) as [c|]; [|done]. destruct (pc_refs c) as [|[|m]]; split; try done; intros (H1 & H2 & H3); split_and!; try done; cbn; try by apply map_Forall_delete.
  apply map_Forall_insert_2; [cbn; lia|done].
Qed.
Hint Resolve still_derefPut : still.
Lemma still_writeRecord o i r p k w : still w (writeRecord o i r p k w).
Proof. unfold writeRecord. cbv zeta. rewrite Hpersist. cbn [negb]. destruct (hasStorage _ _); do 2 quiet; done. Qed.
Lemma still_removeCacheEntry o k w : still w (removeCacheEntry o k w).
Proof. unfold removeCacheEntry. rewrite Hpersist. cbn [negb]. destruct (hasStorage _ _); [done|auto with still]. Qed.
Lemma still_removeRecord o i w : still w (removeRecord o i w).
Proof. unfold removeRecord. etrans; [|apply still_removeCacheEntry]. auto with still. Qed.
Hint Resolve still_writeRecord still_removeCacheEntry still_removeRecord : still.
Lemma still_continueUpdate o id n r k x w : still w (continueUpdate o id n r k x w).
Proof. unfold continueUpdate. destruct x; [|auto with still]. destruct (cacheIn o id w) as [c|]; [|auto with still]. cbv zeta. destruct (recordsFromURL _ c ≫= _); [do 2 quiet; done|auto with still]. Qed.
Lemma still_updateRecordToDisk o id i r k w : still w (updateRecordToDisk o id i r k w).
Proof. unfold updateRecordToDisk. cbv zeta. rewrite Hpersist. cbn [negb]. destruct (hasStorage _ _); do 2 quiet; done. Qed.
Hint Resolve still_continueUpdate still_updateRecordToDisk : still.
Lemma still_storeRecord o id k w r : still w (storeRecord o id k w r).
Proof.
  unfold storeRecord. destruct (cacheIn o id w) as [c|]; [|done]. cbv zeta. destruct (existingRecord r c) as [i|]; [do 2 quiet; done|]. unfold toRecordInformation. cbn [fresh]. do 5 quiet. done.
Qed.
Lemma still_newPut k n w : still w (w <| putCounters := <[k := mkPutCounter 1 None [] n]> (putCounters w) |>).
Proof. split; try done. intros (H1 & H2 & H3). split_and!; try done. cbn. by apply map_Forall_insert_2. Qed.
Lemma still_storeRecords o id rs n w : still w (storeRecords o id rs n w).
Proof. unfold storeRecords. cbn [fresh]. quiet. set (w1 := w <| nextUnique := S (nextUnique w) |>). etrans; [exact (still_fresh w)|]. etrans; [exact (still_newPut (nextUnique w) n w1)|]. apply still_fold. intros. apply still_storeRecord. Qed.
Lemma still_put o id rs n w : still w (put o id rs n w).
Proof. unfold put. destruct (cacheIn o id w) as [c|]; [|done]. destruct (fold_left _ _ _); auto with still. Qed.
Lemma still_spaceAnswered o id rs n granted w : still w (spaceAnswered o id rs n granted w).
Proof. unfold spaceAnswered. destruct granted; cbn [negb]; [destruct (cacheIn o id w)|]; auto using still_storeRecords with still. Qed.
Lemma still_removeRecords o l w : still w (fold_left (fun w i => removeRecord o i w) l w).
Proof. apply still_fold. auto with still. Qed.
Hint Resolve still_removeRecords : still.
Lemma still_remove o id req options n w : still w (remove o id req options n w).
Proof.
  unfold remove. destruct (cacheIn o id w) as [c|]; [|done]. cbv zeta. destruct (decide _); [auto with still|]. rewrite Hpersist. cbn [negb]. do 3 quiet. done.
Qed.
Lemma still_removeFromRecordList o id ids w : still w (removeFromRecordList o id ids w).
Proof. unfold removeFromRecordList. destruct (cacheIn o id w) as [c|]; [|done]. cbv zeta. do 2 quiet. done. Qed.
Hint Resolve still_put still_remove still_removeFromRecordList still_spaceAnswered : still.
Lemma still_derefRead k w : still w (derefRead k w).
Proof.
  unfold derefRead. destruct (readCounters w !! k) as [c|]; [|done].
  assert (Hd : still w (w <| readCounters := delete k (readCounters w) |>)) by (split; try done; intros (H1 & H2 & H3); split_and!; try done; by apply map_Forall_delete).
  destruct (rc_refs c) as [|[|m]]; [do 2 quiet; exact Hd..|]. split; try done. intros (H1 & H2 & H3). split_and!; try done. cbn. apply map_Forall_insert_2; [cbn; lia|done].
Qed.
Hint Resolve still_derefRead : still.
Lemma still_recordRead o id n u k x w : still w (recordRead o id n u k x w).
Proof. unfold recordRead. quiet. destruct (cacheIn o id w); [|done]. apply still_onRead. intros rc. by destruct x. Qed.
Lemma still_retrieveRecord o id k w i : still w (retrieveRecord o id k w i).
Proof. unfold retrieveRecord. cbv zeta. rewrite Hpersist. cbn [negb]. destruct (hasStorage _ _); do 2 quiet; done. Qed.
Lemma still_newRead k b o id n w : still w (w <| readCounters := <[k := mkReadCounter 1 [] [] o id b n]> (readCounters w) |>).
Proof. split; try done. intros (H1 & H2 & H3). split_and!; try done. cbn. by apply map_Forall_insert_2. Qed.
Lemma still_retrieveRecords o id options n w : still w (retrieveRecords o id options n w).
Proof.
  unfold retrieveRecords. destruct (cacheIn o id w) as [c|]; [|done]. cbn [fresh]. quiet. set (w1 := w <| nextUnique := S (nextUnique w) |>).
  etrans; [exact (still_fresh w)|]. etrans; [exact (still_newRead (nextUnique w) (shouldProvideResponse options) o id n w1)|]. apply still_fold. intros. apply still_retrieveRecord.
Qed.
Lemma still_runOp o id op w : still w (runOp o id op w).
Proof. destruct op; cbn; auto using still_retrieveRecords with still. Qed.
Hint Resolve still_runOp still_recordRead : still.
Lemma still_runOpenCallback e w c : still w (runOpenCallback e w c).
Proof. destruct c as [id n|id op], e as [e|]; cbn; auto with still. destruct (originOf id w); auto with still. Qed.
Lemma still_wrote c error w : still w (wrote c error w).
Proof. by destruct c. Qed.
(** The last reference to an aggregator goes away. *)
Lemma still_derefAggregator a w : still w (derefAggregator a w).
Proof.
  unfold derefAggregator. destruct (aggregators w !! a) as [g|]; [|done]. rewrite Hpersist. cbn [negb]. cbv zeta.
  destruct (ag_refs g) as [|[|m]]; [etrans; [|apply still_start]..|]; split; try done; intros (H1 & H2 & H3); split_and!; try done; cbn; try by apply map_Forall_delete.
  apply map_Forall_insert_2; [cbn; lia|done].
Qed.
Hint Resolve still_runOpenCallback still_wrote still_derefAggregator : still.

(** *** What waits, and the task that ends the wait *)

Definition initTask (o : nat) (t : Task) : bool :=
  match t with StoreOrigin o' | ReadCachesList o' | TraverseForSize o' | WriteInitialSize o' => Nat.eqb o o' | _ => false end.
Definition needsTraversal (ts : list Task) (o : nat) (x : nat * State * list OpenCallback) : Prop :=
  let '(id, st, ps) := x in st = Opening \/ ps <> [] -> exists cb, TraverseRecords o id cb ∈ ts.
(** [e]: the callbacks that wait for a write are about to be run. *)
Definition waits (ts : list Task) (e : bool) (next o : nat) (f : bool * bool * list CachesOp * bool * list PendingWrite * list (nat * State * list OpenCallback)) : Prop :=
  let '(initialized, storage, inits, writing, pending, l) := f in
  (inits <> [] \/ (storage = true /\ initialized = false) -> exists t, t ∈ ts /\ initTask o t = true) /\
  (writing = true -> exists cb, WriteCachesList o cb ∈ ts) /\
  (e = false -> pending <> [] -> writing = true) /\
  Forall (needsTraversal ts o) l /\ NoDup (map (fun x => fst (fst x)) l) /\ Forall (fun x => (fst (fst x) <= next)%nat) l.

(** [X]: tasks that have just been completed; [e]: the origin whose callbacks are run. *)
Record live (X : list Task) (e : option nat) w : Prop := {
  live_caches : map_Forall (fun o c => waits (X ++ tasks w) (bool_decide (e = Some o)) (m_nextCacheIdentifier w) o (face c)) (caches w);
  live_salt : m_initializationCallbacks w <> [] -> MakeSalt ∈ X ++ tasks w;
  live_clear : m_pendingClearCallbacks w <> [] -> m_clearTaskCounter w <> 0%nat;
  live_refs : positive w }.

Lemma waits_mono ts ts' e e' next next' o f :
  (forall t, t ∈ ts -> t ∈ ts') -> (e' = false -> e = false) -> (next <= next')%nat -> waits ts e next o f -> waits ts' e' next' o f.
Proof.
  intros Hts He Hn. destruct f as [[[[[i s] inits] wr] pend] l]. intros (A & B & C & D & E & F). split_and!; auto.
  - intros Hi. destruct (A Hi) as (t & ? & ?). eauto.
  - intros Hw. destruct (B Hw) as (cb & ?). eauto.
  - eapply Forall_impl; [exact D|]. intros [[id st] ps] Hx Hy. destruct (Hx Hy) as (cb & ?). eauto.
  - eapply Forall_impl; [exact F|]. cbn. lia.
Qed.
Lemma live_still X e w w' : still w w' -> live X e w -> live X e w'.
Proof.
  intros [A1 A2 A3 A4] [B1 B2 B3 B4]. injection A3 as E1 E2 E3 E4. assert (Hts : forall t, t ∈ X ++ tasks w -> t ∈ X ++ tasks w') by (intros t; rewrite !elem_of_app; intros [?|?]; auto). split.
  - intros o c Hc. specialize (A1 o). rewrite Hc in A1. destruct (caches w !! o) as [c0|] eqn:Hc0; [|done]. apply (inj Some) in A1. rewrite E4, A1. eapply waits_mono; [exact Hts|exact (fun x => x)|done|]. exact (B1 o c0 Hc0).
  - rewrite E1. auto.
  - rewrite E2, E3. auto.
  - auto.
Qed.
Hint Extern 1 (live _ _ (answer _ _ _)) => eapply live_still; [apply still_answer|] : still.

Lemma live_onCaches X e o f w :
  (forall c, caches w !! o = Some c -> waits (X ++ tasks w) (bool_decide (e = Some o)) (m_nextCacheIdentifier w) o (face c) -> waits (X ++ tasks w) (bool_decide (e = Some o)) (m_nextCacheIdentifier w) o (face (f c))) ->
  live X e w -> live X e (onCaches o f w).
Proof.
  intros Hf [B1 B2 B3 B4]. split; try done. intros o' c'. unfold onCaches. cbn. destruct (decide (o' = o)) as [->|]; [rewrite lookup_alter_eq|rewrite lookup_alter_ne by done; apply B1].
  destruct (caches w !! o) as [c|] eqn:Hc; cbn; [|done]. intros [= <-]. apply Hf; [done|]. by apply B1.
Qed.
(** A completed task is no longer needed. *)
Definition unneeded (t : Task) (ts : list Task) (o : nat) (c : Caches) : Prop :=
  (initTask o t = true -> (exists t', t' ∈ ts /\ initTask o t' = true) \/ (m_pendingInitializationCallbacks c = [] /\ ~ (m_storage c = true /\ m_isInitialized c = false))) /\
  (forall cb, t = WriteCachesList o cb -> m_isWritingCachesToDisk c = false) /\
  (forall id cb, t = TraverseRecords o id cb -> Forall (fun x => m_identifier x = id -> m_state x <> Opening /\ m_pendingOpeningCallbacks x = []) (allCaches c)).
Lemma waits_drop t ts e next o c : unneeded t ts o c -> waits (t :: ts) e next o (face c) -> waits ts e next o (face c).
Proof.
  intros (U1 & U2 & U3) (A & B & C & D & E & F). split_and!; auto.
  - intros Hi. destruct (A Hi) as (t' & Ht & Ho). apply elem_of_cons in Ht as [->|Ht]; [|eauto]. destruct (U1 Ho) as [?|[E1 E2]]; [done|]. by destruct Hi.
  - intros Hw. destruct (B Hw) as (cb & Ht). apply elem_of_cons in Ht as [Ht|Ht]; [|eauto]. rewrite (U2 cb) in Hw; done.
  - rewrite Forall_map in *. rewrite Forall_forall in *. intros x Hx Hneed. destruct (D x Hx Hneed) as (cb & Ht). apply elem_of_cons in Ht as [Ht|Ht]; [|eauto].
    specialize (U3 (m_identifier x) cb (eq_sym Ht)). rewrite Forall_forall in U3. destruct (U3 x Hx eq_refl) as [E1 E2]. by destruct Hneed.
Qed.
Lemma live_drop t X e w :
  (forall o c, caches w !! o = Some c -> unneeded t (X ++ tasks w) o c) -> (t = MakeSalt -> m_initializationCallbacks w = []) -> live (t :: X) e w -> live X e w.
Proof.
  intros Hu Hs [B1 B2 B3 B4]. split; auto.
  - intros o c Hc. apply (waits_drop t); [by apply Hu|]. exact (B1 o c Hc).
  - intros Hi. specialize (B2 Hi). apply elem_of_cons in B2 as [<-|?]; [|done]. by rewrite Hs in Hi.
Qed.
(** A task that nothing of the above waits for. *)
Definition plain (t : Task) : bool :=
  match t with StoreOrigin _ | ReadCachesList _ | TraverseForSize _ | WriteInitialSize _ | WriteCachesList _ _ | TraverseRecords _ _ _ | MakeSalt => false | _ => true end.
Lemma live_plain t X e w : plain t = true -> live (t :: X) e w -> live X e w.
Proof. intros Ht. apply live_drop; [|by destruct t]. intros o c _. split_and!; by destruct t. Qed.

Lemma live_fold {A} (f : Engine -> A -> Engine) X e l : (forall w x, live X e w -> live X e (f w x)) -> forall w, live X e w -> live X e (fold_left f l w).
Proof. intros Hf. induction l as [|x l IH]; cbn; auto. Qed.

(** *** Opening a cache *)

Lemma Forall_modifyIn (P : Cache -> Prop) id f l : (forall x, findIn id l = Some x -> P x -> P (f x)) -> Forall P l -> Forall P (modifyIn id f l).
Proof.
  intros Hf Hl. unfold findIn in Hf. induction Hl as [|x l Hx Hl IH]; cbn in *; [done|]. destruct (Nat.eqb (m_identifier x) id); constructor; auto.
Qed.
Lemma Forall_modifyCache (P : Cache -> Prop) id f c : (forall x, findById id c = Some x -> P x -> P (f x)) -> Forall P (allCaches c) -> Forall P (allCaches (modifyCache id f c)).
Proof.
  unfold allCaches, modifyCache, findById. intros Hf [H1 H2]%Forall_app. destruct (findIn id (m_caches c)) eqn:E; apply Forall_app; split; cbn; try done; apply Forall_modifyIn; try done.
  intros x Hx. rewrite E in Hx. injection Hx as <-. by apply Hf.
Qed.
Lemma ids_modifyCache id f c : (forall x, m_identifier (f x) = m_identifier x) -> map m_identifier (allCaches (modifyCache id f c)) = map m_identifier (allCaches c).
Proof.
  intros Hf. assert (E : forall l, map m_identifier (modifyIn id f l) = map m_identifier l) by (intros l; induction l as [|x l IH]; cbn; [done|]; destruct (Nat.eqb _ _); cbn; [by rewrite Hf|by rewrite IH]).
  unfold allCaches, modifyCache. destruct (findIn id (m_caches c)); cbn; by rewrite !map_app, E.
Qed.
Lemma ids_face l : map (fun x => fst (fst x)) (map cacheFace l) = map m_identifier l.
Proof. rewrite map_map. done. Qed.
Lemma face_rest c id f : face (modifyCache id f c) = (m_isInitialized c, m_storage c, m_pendingInitializationCallbacks c, m_isWritingCachesToDisk c, m_pendingWritingCachesToDiskCallbacks c, map cacheFace (allCaches (modifyCache id f c))).
Proof. unfold face, modifyCache. by destruct (findIn id (m_caches c)). Qed.
Lemma live_onCache X e o id f w :
  (forall x, m_identifier (f x) = m_identifier x) -> (forall x, cacheIn o id w = Some x -> needsTraversal (X ++ tasks w) o (cacheFace x) -> needsTraversal (X ++ tasks w) o (cacheFace (f x))) ->
  live X e w -> live X e (onCache o id f w).
Proof.
  intros Hid Hf. apply live_onCaches. intros c Hc. rewrite face_rest. intros (A & B & C & D & E & F). split_and!; auto.
  - rewrite Forall_map in *. apply Forall_modifyCache; [|done]. intros x Hx. apply Hf. unfold cacheIn. by rewrite Hc.
  - rewrite ids_face in *. by rewrite ids_modifyCache.
  - rewrite Forall_map in *. apply Forall_modifyCache; [|done]. intros x _. cbn. by rewrite Hid.
Qed.
Lemma findById_in id c x : findById id c = Some x -> x ∈ allCaches c /\ m_identifier x = id.
Proof.
  unfold findById, allCaches, findIn. rewrite elem_of_app, !list_elem_of_In. destruct (find _ (m_caches c)) as [y|] eqn:E; intros Hx.
  - injection Hx as ->. apply find_some in E as [? ?%Nat.eqb_eq]. auto.
  - apply find_some in Hx as [? ?%Nat.eqb_eq]. auto.
Qed.
Lemma live_openCache X e o id cb w : live X e w -> live X e (openCache o id cb w).
Proof.
  intros Hw. unfold openCache. destruct (cacheIn o id w) as [x|] eqn:Hx; [|done]. cbn [fmap option_fmap option_map]. destruct (m_state x) eqn:Hst; [| |apply (live_still _ _ w); auto with still].
  - set (f := fun c : Cache => c <| m_state := Opening |>). change (live X e (onCache o id f (start (TraverseRecords o id cb) w))). apply live_onCache; [done| |apply (live_still _ _ w); auto with still].
    intros y Hy _ _. assert (Hid : m_identifier y = id) by (unfold cacheIn in Hy; cbn in Hy; destruct (caches w !! o) as [c|]; [by apply findById_in in Hy as [_ ?]|done]).
    exists cb. cbn. rewrite Hid, !elem_of_app, list_elem_of_singleton. auto.
  - apply live_onCache; [done| |done]. rewrite Hx. intros y [= <-] Hy _. apply Hy. by left.
Qed.
Lemma live_readCache X e id op w : live X e w -> live X e (readCache id op w).
Proof.
  intros Hw. unfold readCache. destruct (originOf id w) as [o|]; [|apply (live_still _ _ w); auto with still].
  destruct (m_state <$> cacheIn o id w) as [[]|]; auto using live_openCache. apply (live_still _ _ w); auto with still.
Qed.

(** The end of a traversal: the cache is open, and no callback waits for it. *)
Lemma modifyIn_unique id f l y : NoDup (map m_identifier l) -> (forall x, m_identifier (f x) = m_identifier x) -> y ∈ modifyIn id f l -> m_identifier y = id -> exists x, x ∈ l /\ y = f x.
Proof.
  intros Hn Hf. induction l as [|x l IH]; cbn in *; [by intros ?%elem_of_nil|]. apply NoDup_cons in Hn as [Hx Hn]. destruct (Nat.eqb_spec (m_identifier x) id) as [E|E]; intros [->|Hy]%elem_of_cons Hid.
  - exists x. split; [by left|done].
  - exfalso. apply Hx. rewrite E, <- Hid. apply list_elem_of_fmap. eauto.
  - done.
  - destruct (IH Hn Hy Hid) as (z & ? & ?). exists z. split; [by right|done].
Qed.
Lemma modifyCache_unique id f c y :
  NoDup (map m_identifier (allCaches c)) -> (forall x, m_identifier (f x) = m_identifier x) -> y ∈ allCaches (modifyCache id f c) -> m_identifier y = id -> exists x, x ∈ allCaches c /\ y = f x.
Proof.
  unfold allCaches, modifyCache. rewrite map_app. intros (H1 & H2 & H3)%NoDup_app Hf. destruct (findIn id (m_caches c)) as [x|] eqn:E; cbn; intros [Hy|Hy]%elem_of_app Hid.
  - destruct (modifyIn_unique id f _ y H1 Hf Hy Hid) as (z & ? & ?). exists z. rewrite elem_of_app. auto.
  - exfalso. apply find_some in E as [Hx Hxi%Nat.eqb_eq]. apply (H2 id); apply list_elem_of_fmap; [exists x; rewrite list_elem_of_In; done|eauto].
  - exfalso. apply list_elem_of_In in Hy. pose proof (find_none _ _ E y Hy) as Hne. cbn in Hne. by apply Nat.eqb_neq in Hne.
  - destruct (modifyIn_unique id f _ y H3 Hf Hy Hid) as (z & ? & ?). exists z. rewrite elem_of_app. auto.
Qed.
Definition openIn (o id : nat) w : Prop := forall c x, caches w !! o = Some c -> x ∈ allCaches c -> m_identifier x = id -> m_state x = Open.
Lemma live_ids X e w o c : live X e w -> caches w !! o = Some c -> NoDup (map m_identifier (allCaches c)).
Proof. intros Hw Hc. destruct (live_caches _ _ _ Hw o c Hc) as (_ & _ & _ & _ & Hn & _). by rewrite ids_face in Hn. Qed.
Lemma still_openIn o id w w' : still w w' -> openIn o id w -> openIn o id w'.
Proof.
  intros [Hf _ _ _] Ho c x Hc Hx Hid. specialize (Hf o). rewrite Hc in Hf. destruct (caches w !! o) as [c0|] eqn:Hc0; [|done]. apply (inj Some) in Hf.
  assert (Hl : map cacheFace (allCaches c) = map cacheFace (allCaches c0)) by (unfold face in Hf; congruence).
  assert (Hin : cacheFace x ∈ map cacheFace (allCaches c0)) by (rewrite <- Hl; apply list_elem_of_fmap; eauto). apply list_elem_of_fmap in Hin as (y & Hy & Hyin).
  unfold cacheFace in Hy. injection Hy as E1 E2 E3. rewrite E2. apply (Ho c0 y); [done|done|congruence].
Qed.
Lemma onCache_unique X e o id f w c y : live X e w -> (forall x, m_identifier (f x) = m_identifier x) -> caches (onCache o id f w) !! o = Some c -> y ∈ allCaches c -> m_identifier y = id ->
  exists c0 x, caches w !! o = Some c0 /\ x ∈ allCaches c0 /\ y = f x.
Proof.
  intros Hw Hf Hc Hy Hid. unfold onCache, onCaches in Hc. cbn in Hc. rewrite lookup_alter_eq in Hc. destruct (caches w !! o) as [c0|] eqn:Hc0; [|done]. injection Hc as <-.
  destruct (modifyCache_unique id f c0 y (live_ids _ _ _ _ _ Hw Hc0) Hf Hy Hid) as (x & ? & ?). eauto.
Qed.
Lemma not_found o id w c x : cacheIn o id w = None -> caches w !! o = Some c -> x ∈ allCaches c -> m_identifier x <> id.
Proof.
  unfold cacheIn, findById, allCaches. intros Hn Hc Hx Hid. rewrite Hc in Hn. cbn in Hn. destruct (findIn id (m_caches c)) eqn:E; [done|].
  apply elem_of_app in Hx as [Hx|Hx]; apply list_elem_of_In in Hx; [pose proof (find_none _ _ E x Hx) as F|pose proof (find_none _ _ Hn x Hx) as F]; cbn in F; by apply Nat.eqb_neq in F.
Qed.
Lemma unneeded_traversal o id cb ts w o' c :
  (forall c x, caches w !! o = Some c -> x ∈ allCaches c -> m_identifier x = id -> m_state x <> Opening /\ m_pendingOpeningCallbacks x = []) -> caches w !! o' = Some c -> unneeded (TraverseRecords o id cb) ts o' c.
Proof. intros Hx Hc. split_and!; try done. intros id' cb' [= -> -> ->]. apply Forall_forall. intros x Hin Hid. by eapply Hx. Qed.

Lemma identify_waiting x : m_identifier (identify x <| m_state := Open |>) = m_identifier x /\ m_pendingOpeningCallbacks (identify x <| m_state := Open |>) = m_pendingOpeningCallbacks x.
Proof. done. Qed.
Lemma live_finishOpening X e o id cb w : live (TraverseRecords o id cb :: X) e w -> live X e (finishOpening o id cb w).
Proof.
  intros Hw. unfold finishOpening. cbv zeta. set (w0 := onCache o id (fun c => identify c <| m_state := Open |>) w).
  assert (Hw0 : live (TraverseRecords o id cb :: X) e w0). { apply live_onCache; [done| |done]. intros x _ Hx [Hs|Hp]; [done|]. apply Hx. by right. }
  assert (Ho0 : openIn o id w0). { intros c y Hc Hy Hid. destruct (onCache_unique _ _ _ _ _ _ c y Hw (fun x => proj1 (identify_waiting x)) Hc Hy Hid) as (_ & x & _ & _ & ->). done. }
  set (w1 := runOpenCallback None w0 cb). assert (Hs : still w0 w1) by (unfold w1; auto with still). assert (Hw1 : live (TraverseRecords o id cb :: X) e w1) by (by eapply live_still).
  pose proof (still_openIn o id w0 w1 Hs Ho0) as Ho1. destruct (cacheIn o id w1) as [x|] eqn:Hx.
  - set (f := fun c : Cache => c <| m_pendingOpeningCallbacks := [] |>). eapply live_still; [apply still_fold; intros; apply still_runOpenCallback|]. apply (live_drop (TraverseRecords o id cb)); [|done|].
    + intros o' c. apply unneeded_traversal. intros c' y Hc' Hy Hid. destruct (onCache_unique _ _ o id f _ c' y Hw1 ltac:(done) Hc' Hy Hid) as (c0 & z & Hc0 & Hz & ->). cbn in *. split; [|done].
      by rewrite (Ho1 c0 z Hc0 Hz Hid).
    + apply live_onCache; [done| |done]. intros y Hy Hn [Hst|?]; [|done]. apply Hn. by left.
  - apply (live_drop (TraverseRecords o id cb)); [|done|done]. intros o' c. apply unneeded_traversal. intros c' y Hc' Hy Hid. by destruct (not_found o id w1 c' y Hx Hc' Hy).
Qed.
Lemma live_recordsTraversed X e o id cb failed stored w : live (TraverseRecords o id cb :: X) e w -> live X e (recordsTraversed o id cb failed stored w).
Proof.
  intros Hw. unfold recordsTraversed. cbv zeta. set (w1 := fold_left _ failed w). assert (Hw1 : live (TraverseRecords o id cb :: X) e w1) by (eapply live_still; [apply still_fold; auto with still|done]).
  destruct (cacheIn o id w1) as [x|] eqn:Hx.
  - apply live_finishOpening. eapply live_still; [|exact Hw1]. apply still_onCache. intros y. set (f := fun (c : Cache) i => addRecord i c).
    assert (E : forall l y, cacheFace (fold_left f l y) = cacheFace y) by (intros l; induction l as [|i l IH]; intros z; cbn; [done|]; by rewrite IH). by rewrite E.
  - apply (live_drop (TraverseRecords o id cb)); [|by destruct cb|eapply live_still; [apply still_runOpenCallback|exact Hw1]].
    intros o' c. apply unneeded_traversal. intros c' y Hc' Hy Hid. destruct cb as [i n|i op]; cbn in Hc'; by destruct (not_found o id w1 c' y Hx Hc' Hy).
Qed.

(** *** Writing the list of caches *)

Ltac waiting_cases := let c := fresh "c" in intros c ? (? & ? & ? & ? & ? & ?); split_and!; try done; auto.
Lemma live_writeCachesToDisk X e o cb w : live X e w -> live X e (writeCachesToDisk o cb w).
Proof.
  intros Hw. unfold writeCachesToDisk. destruct (caches w !! o) as [c|]; [|done]. rewrite Hpersist. cbn [negb orb]. destruct (bool_decide _); [apply (live_still _ _ w); auto with still|].
  set (f := fun c : Caches => c <| m_isWritingCachesToDisk := true |>). change (live X e (onCaches o f (start (WriteCachesList o cb) w))). apply live_onCaches; [|apply (live_still _ _ w); auto with still].
  waiting_cases. intros _. exists cb. cbn. rewrite !elem_of_app, list_elem_of_singleton. auto.
Qed.
Lemma live_pend X e o p w : isWriting o w = true -> live X e w -> live X e (pend o p w).
Proof. intros Hi. apply live_onCaches. unfold isWriting in Hi. intros c Hc. rewrite Hc in Hi. intros (? & ? & ? & ? & ? & ?). split_and!; try done. Qed.
Lemma live_openCaches X e o name n w : live X e w -> live X e (openCaches o name n w).
Proof.
  intros Hw. unfold openCaches. destruct (caches w !! o) as [c|] eqn:Hc; [|done]. destruct (m_isWritingCachesToDisk c) eqn:Hi; [apply live_pend; [unfold isWriting; by rewrite Hc|done]|].
  destruct (findByName name c) as [x|]; [by apply live_openCache|]. cbv zeta. cbn [fresh]. apply live_writeCachesToDisk. set (w1 := w <| m_nextCacheIdentifier := _ |> <| nextUnique := _ |>).
  assert (Hw1 : live X e w1). { destruct Hw as [B1 B2 B3 B4]. split; try done. intros o' c' Hc'. eapply waits_mono; [done|exact (fun x => x)| |exact (B1 o' c' Hc')]. cbn. lia. }
  apply live_onCaches; [|done]. intros c1 Hc1. assert (E : c1 = c) by (cbn in Hc1; congruence). subst c1. destruct (live_caches _ _ _ Hw o c Hc) as (_ & _ & _ & _ & _ & Hle).
  intros (A & B & C & D & E & F). set (y := mkCache _ _ _ _ _ _ _). assert (Hp : allCaches (makeDirty c <| m_caches := m_caches c ++ [y] |>) ≡ₚ y :: allCaches c).
  { unfold allCaches. cbn. rewrite <- app_assoc. cbn. by rewrite Permutation_middle. }
  split_and!; try done.
  - rewrite Hp. constructor; [|done]. intros [?|?]; done.
  - rewrite Hp. cbn. constructor; [|done]. rewrite Forall_map, Forall_forall in Hle. rewrite ids_face. intros Hin. apply list_elem_of_fmap in Hin as (z & Hz & Hzin). specialize (Hle z Hzin). cbn in Hle. lia.
  - rewrite Hp. by constructor.
Qed.
(** Caches move or go away. *)
Lemma waits_sub ts e next o c c' :
  allCaches c' ⊆+ allCaches c -> (m_isWritingCachesToDisk c', m_pendingWritingCachesToDiskCallbacks c', m_pendingInitializationCallbacks c') = (m_isWritingCachesToDisk c, m_pendingWritingCachesToDiskCallbacks c, m_pendingInitializationCallbacks c) ->
  (m_storage c' = true /\ m_isInitialized c' = false -> m_storage c = true /\ m_isInitialized c = false) -> waits ts e next o (face c) -> waits ts e next o (face c').
Proof.
  intros Hs E Hi (A & B & C & D & N & F). injection E as E1 E2 E3. apply submseteq_Permutation in Hs as [k Hk]. unfold face. rewrite E1, E2, E3.
  rewrite ids_face in N. rewrite !Forall_map, Hk, Forall_app in *. rewrite map_app, NoDup_app in N. split_and!; [|done|done|apply Forall_map, D|rewrite ids_face; apply N|apply Forall_map, F]. intros [?|?]; apply A; auto.
Qed.
Lemma removeCacheFrom_perm id l x : findIn id l = Some x -> l ≡ₚ x :: removeCacheFrom id l.
Proof.
  unfold findIn. induction l as [|y l IH]; cbn; [done|]. destruct (Nat.eqb (m_identifier y) id); [by intros [= <-]|]. intros Hx. rewrite (IH Hx) at 1. constructor.
Qed.
Lemma live_removeCaches X e o id n w : live X e w -> live X e (removeCaches o id n w).
Proof.
  intros Hw. unfold removeCaches. destruct (caches w !! o) as [c|] eqn:Hc; [|done]. destruct (m_isWritingCachesToDisk c) eqn:Hi; [apply live_pend; [unfold isWriting; by rewrite Hc|done]|].
  destruct (findIn id (m_caches c)) as [x|] eqn:Hx; [|apply (live_still _ _ w); auto with still]. apply live_writeCachesToDisk, live_onCaches; [|done]. intros c1 Hc1. rewrite Hc in Hc1. injection Hc1 as <-.
  apply waits_sub; [|done|done]. unfold allCaches. cbn. rewrite (removeCacheFrom_perm id (m_caches c) x Hx) at 2. by rewrite app_assoc, Permutation_app_comm.
Qed.
Lemma live_cacheInfos X e o u n w : live X e w -> live X e (cacheInfos o u n w).
Proof.
  intros Hw. unfold cacheInfos. destruct (caches w !! o) as [c|] eqn:Hc; [|done]. destruct (m_isWritingCachesToDisk c) eqn:Hi; [apply live_pend; [unfold isWriting; by rewrite Hc|done]|].
  apply (live_still _ _ w); auto with still.
Qed.
Lemma still_dropWaiting l w : still w (dropWaiting l w).
Proof. done. Qed.
Hint Resolve still_dropWaiting : still.
Lemma live_clearMemory X e o w : live X e w -> live X e (clearMemoryRepresentation o w).
Proof.
  intros Hw. unfold clearMemoryRepresentation. destruct (caches w !! o) as [c|]; [|done]. apply live_onCaches; [|apply (live_still _ _ w); auto with still]. intros c1 _. apply waits_sub; [|done|by intros []].
  unfold allCaches. cbn. apply submseteq_inserts_l. done.
Qed.
Lemma live_dispose X e o id w : live X e w -> live X e (dispose o id w).
Proof.
  intros Hw. unfold dispose. destruct (caches w !! o) as [c|] eqn:Hc; [|done]. destruct (findIn id (m_removedCaches c)) as [x|] eqn:Hx.
  - apply live_onCaches; [|apply (live_still _ _ w); auto with still]. intros c1 Hc1. cbn in Hc1. rewrite Hc in Hc1. injection Hc1 as <-. apply waits_sub; [|done|done]. unfold allCaches. cbn.
    rewrite (removeCacheFrom_perm id (m_removedCaches c) x Hx) at 2. apply submseteq_app; [done|]. by apply submseteq_cons.
  - rewrite Hpersist. cbn [negb]. cbv zeta. set (w1 := onCache o id _ w). assert (Hw1 : live X e w1). { apply live_onCache; [done| |done]. intros y _ Hy [?|?]; [done|]. apply Hy. by right. }
    destruct (caches w1 !! o) as [c1|]; [|done]. destruct (hasActiveCache c1); [done|]. by apply live_clearMemory.
Qed.
Lemma live_runCachesOp X e o w op : live X e w -> live X e (runCachesOp o w op).
Proof.
  intros Hw. destruct op; cbn; [by apply live_openCaches|by apply live_cacheInfos|]. eapply live_still; [apply still_answer|]. by apply live_clearMemory.
Qed.

(** *** Initialization *)

Definition noInit (o : nat) w : Prop := forall c, caches w !! o = Some c -> m_pendingInitializationCallbacks c = [].
Lemma failed_caches e l w : caches (fold_left (failOp e) l w) = caches w.
Proof. revert w. induction l as [|op l IH]; intros w; cbn; [done|]. by rewrite IH. Qed.
Lemma live_takeFail X e o err w : live X e w -> live X e (takeInitializationCallbacks o (failOp err) w) /\ noInit o (takeInitializationCallbacks o (failOp err) w).
Proof.
  intros Hw. unfold takeInitializationCallbacks. destruct (caches w !! o) as [c|] eqn:Hc; [|split; [done|intros c; by rewrite Hc]]. split.
  - eapply live_still; [apply still_fold; intros; apply still_answer|]. apply live_onCaches; [|done]. intros c1 _ (A & ? & ? & ? & ? & ?). split_and!; try done. intros [?|?]; [done|]. apply A. auto.
  - intros c1. rewrite failed_caches, (lookup_onCaches _ _ _ _ Hc). by intros [= <-].
Qed.
(** The initialization of an origin goes on, or has ended. *)
Lemma unneeded_init o t ts w o' c :
  initTask o t = true -> (forall c, caches w !! o = Some c -> (exists t', t' ∈ ts /\ initTask o t' = true) \/ (m_pendingInitializationCallbacks c = [] /\ ~ (m_storage c = true /\ m_isInitialized c = false))) ->
  caches w !! o' = Some c -> unneeded t ts o' c.
Proof.
  intros Ht Hx Hc. split_and!; [|by destruct t..]. intros Ht'. assert (o' = o) as -> by (destruct t; cbn in *; try done; apply Nat.eqb_eq in Ht, Ht'; congruence). by apply Hx.
Qed.
Lemma initTask_plain o t : initTask o t = true -> t = MakeSalt -> False.
Proof. by intros ? ->. Qed.
Lemma live_initDone X e o t w : initTask o t = true -> (forall c, caches w !! o = Some c -> m_pendingInitializationCallbacks c = [] /\ ~ (m_storage c = true /\ m_isInitialized c = false)) -> live (t :: X) e w -> live X e w.
Proof. intros Ht Hx. apply live_drop; [|intros E; by destruct (initTask_plain o t Ht E)]. intros o' c Hc. apply (unneeded_init o t _ w); auto. Qed.
Lemma live_initNext X e o t t' w : initTask o t = true -> initTask o t' = true -> live (t :: X) e w -> live X e (start t' w).
Proof.
  intros Ht Ht' Hw. apply (live_drop t); [|intros E; by destruct (initTask_plain o t Ht E)|eapply live_still; [apply still_start|done]]. intros o' c Hc. apply (unneeded_init o t _ (start t' w)); auto.
  intros c' _. left. exists t'. cbn. rewrite !elem_of_app, list_elem_of_singleton. auto.
Qed.
Lemma live_giveUp X e o t err w : initTask o t = true -> live (t :: X) e w -> live X e (giveUp o err w).
Proof.
  intros Ht Hw. unfold giveUp. destruct (live_takeFail _ _ o err w Hw) as [H1 H2]. set (w1 := takeInitializationCallbacks _ _ _) in *. apply (live_initDone X e o t); [done| |].
  - intros c. destruct (caches w1 !! o) as [c1|] eqn:Hc1; [rewrite (lookup_onCaches _ _ _ _ Hc1)|by rewrite onCaches_none, Hc1]. intros [= <-]. cbn. split; [by apply H2|by intros []].
  - apply live_onCaches; [|done]. intros c1 _. apply waits_sub; [done|done|by intros []].
Qed.
Lemma live_initialize X e o w op : live X e w -> live X e (initialize o w op).
Proof.
  intros Hw. unfold initialize. destruct (caches w !! o) as [c|] eqn:Hc; [|done]. destruct (m_isInitialized c) eqn:Hi; [by apply live_runCachesOp|]. rewrite Hpersist. cbn [negb]. cbv zeta.
  set (wait := fun c : Caches => c <| m_pendingInitializationCallbacks := m_pendingInitializationCallbacks c ++ [op] |>). destruct (m_storage c) eqn:Hs.
  - apply live_onCaches; [|done]. intros c1 Hc1. rewrite Hc in Hc1. injection Hc1 as <-. intros (A & ? & ? & ? & ? & ?). split_and!; try done. intros _. apply A. auto.
  - destruct (opensStorage _); [|by apply (live_still _ _ w)].
    set (w1 := w <| storageAttempts := S (storageAttempts w) |>). change (live X e (onCaches o (fun c => c <| m_storage := true |>) (onCaches o wait (start (StoreOrigin o) w1)))).
    assert (Hw1 : live X e (start (StoreOrigin o) w1)) by (eapply live_still; [apply still_start|]; eapply live_still; [|exact Hw]; done).
    assert (Ht : exists t, t ∈ X ++ tasks (start (StoreOrigin o) w1) /\ initTask o t = true) by (exists (StoreOrigin o); cbn; rewrite !elem_of_app, list_elem_of_singleton, Nat.eqb_refl; auto).
    apply live_onCaches; [by intros c1 _ (A & ? & ? & ? & ? & ?)|]. apply live_onCaches; [|done]. by intros c1 _ (A & ? & ? & ? & ? & ?).
Qed.
Lemma live_initializeSize X e o t w : initTask o t = true -> live (t :: X) e w -> live X e (initializeSize o w).
Proof.
  intros Ht Hw. unfold initializeSize. destruct (hasStorage o w) eqn:Hs; [apply (live_initNext X e o t); [done|cbn; by rewrite Nat.eqb_refl|done]|].
  destruct (live_takeFail _ _ o Internal w Hw) as [H1 H2]. apply (live_initDone X e o t); [done| |done]. intros c Hc. split; [by apply H2|]. intros [Hst _].
  unfold hasStorage in Hs. unfold takeInitializationCallbacks in Hc. destruct (caches w !! o) as [c0|] eqn:Hc0; [|by rewrite Hc0 in Hc]. rewrite failed_caches, (lookup_onCaches _ _ _ _ Hc0) in Hc. injection Hc as <-. cbn in Hst. congruence.
Qed.
Lemma readCaches_result names : forall w, exists l, readCaches names w = (w <| m_nextCacheIdentifier := (m_nextCacheIdentifier w + length names)%nat |>, l) /\
  map m_identifier l = seq (S (m_nextCacheIdentifier w)) (length names) /\ Forall (fun x => m_state x = Uninitialized /\ m_pendingOpeningCallbacks x = []) l.
Proof.
  induction names as [|x names IH]; intros w; cbn [readCaches readCache_].
  - exists []. split_and!; [|done|done]. cbn. rewrite Nat.add_0_r. by destruct w.
  - set (w1 := w <| m_nextCacheIdentifier := S (m_nextCacheIdentifier w) |>). destruct (IH w1) as (l & -> & H1 & H2). exists (mkCache Uninitialized (S (m_nextCacheIdentifier w)) (fst x) (snd x) ∅ 0 [] :: l). split; [|split; [|by constructor]].
    + unfold w1. cbn. rewrite Nat.add_succ_r. reflexivity.
    + cbn. f_equal. rewrite H1. done.
Qed.
Lemma live_cachesRead X e o t result w : initTask o t = true -> live (t :: X) e w -> live X e (cachesRead o result w).
Proof.
  intros Ht Hw. unfold cachesRead. destruct result as [names|]; cycle 1.
  { apply (live_giveUp X e o t); [done|]. apply live_onCaches; [|done]. intros c _. by apply waits_sub. }
  destruct (readCaches_result names w) as (l & -> & Hl & Hst). set (w1 := w <| m_nextCacheIdentifier := _ |>). apply (live_initializeSize X e o t); [done|].
  assert (Hw1 : live (t :: X) e w1). { destruct Hw as [B1 B2 B3 B4]. split; try done. intros o' c' Hc'. eapply waits_mono; [done|exact (fun x => x)| |exact (B1 o' c' Hc')]. cbn. lia. }
  assert (Hc1 : caches w1 !! o = caches w !! o) by done. destruct (caches w1 !! o) as [c|] eqn:Hc; [|by rewrite onCaches_none].
  apply live_onCaches; [|by apply (live_still _ _ w1)]. intros c1 Hcc. cbn in Hcc. assert (c1 = c) as -> by congruence. intros (A & B & C & D & N & F).
  destruct (live_caches _ _ _ Hw o c (eq_sym Hc1)) as (_ & _ & _ & _ & _ & Hle). rewrite Forall_map in Hle. unfold allCaches in *. rewrite map_app in *. apply Forall_app in D as [_ D], F as [_ F], Hle as [_ Hle].
  split_and!; try done; unfold allCaches; cbn; rewrite map_app.
  - apply Forall_app. split; [|done]. apply Forall_map. eapply Forall_impl; [exact Hst|]. intros x [E1 E2]. unfold needsTraversal, cacheFace. rewrite E1, E2. by intros [?|?].
  - rewrite map_app in *. rewrite !ids_face in *. apply NoDup_app in N as (_ & _ & N). apply NoDup_app. split_and!; [rewrite Hl; apply NoDup_seq| |done]. intros i Hi Hi'. rewrite Hl, elem_of_seq in Hi.
    apply list_elem_of_fmap in Hi' as (x & -> & Hx). rewrite Forall_forall in Hle. specialize (Hle x Hx). cbn in Hle. lia.
  - apply Forall_app. split; [|done]. apply Forall_map, Forall_forall. intros x Hx. cbn. assert (Hi : m_identifier x ∈ map m_identifier l) by (apply list_elem_of_fmap; eauto). rewrite Hl, elem_of_seq in Hi. lia.
Qed.
Lemma live_originStored X e o error exists_ w : live (StoreOrigin o :: X) e w -> live X e (originStored o error exists_ w).
Proof.
  assert (Ht : initTask o (StoreOrigin o) = true) by (cbn; by rewrite Nat.eqb_refl). intros Hw. unfold originStored. destruct error; [by eapply live_giveUp|].
  destruct exists_; [|by eapply live_cachesRead]. eapply (live_initNext X e o); [exact Ht| |done]. cbn. by rewrite Nat.eqb_refl.
Qed.
Lemma live_sizeTraversed X e o sizes w : live (TraverseForSize o :: X) e w -> live X e (sizeTraversed o sizes w).
Proof.
  assert (Ht : initTask o (TraverseForSize o) = true) by (cbn; by rewrite Nat.eqb_refl). intros Hw. unfold sizeTraversed. destruct (caches w !! o) as [c|] eqn:Hc.
  - destruct (bool_decide _) eqn:Hp.
    + apply bool_decide_eq_true, fmap_nil_inv in Hp. apply (live_initDone X e o (TraverseForSize o)); [done| |].
      * intros c1. rewrite (lookup_onCaches _ _ _ _ Hc). intros [= <-]. cbn. split; [done|by intros []].
      * apply live_onCaches; [|done]. intros c1 _. apply waits_sub; [done|done|by intros []].
    + apply (live_initNext X e o (TraverseForSize o)); [done|cbn; by rewrite Nat.eqb_refl|]. by apply (live_still _ _ w); [apply still_onCaches|].
  - apply (live_initDone X e o (TraverseForSize o)); [done| |done]. intros c. by rewrite Hc.
Qed.
Lemma live_initialSizeWritten X e o w : live (WriteInitialSize o :: X) e w -> live X e (initialSizeWritten o w).
Proof.
  assert (Ht : initTask o (WriteInitialSize o) = true) by (cbn; by rewrite Nat.eqb_refl). intros Hw. unfold initialSizeWritten, takeInitializationCallbacks. set (w1 := onCaches o _ w).
  assert (Hw1 : live (WriteInitialSize o :: X) e w1). { apply live_onCaches; [|done]. intros c _. apply waits_sub; [done|done|by intros []]. }
  destruct (caches w1 !! o) as [c|] eqn:Hc; [|apply (live_initDone X e o (WriteInitialSize o)); [done|intros c; by rewrite Hc|done]].
  apply live_fold; [intros; by apply live_runCachesOp|]. apply (live_initDone X e o (WriteInitialSize o)); [done| |].
  - intros c1. rewrite (lookup_onCaches _ _ _ _ Hc). intros [= <-]. cbn. split; [done|]. unfold w1, onCaches in Hc. cbn in Hc. rewrite lookup_alter_eq in Hc. destruct (caches w !! o); [|done]. injection Hc as <-. cbn. by intros [].
  - apply live_onCaches; [|done]. intros c1 _ (A & ? & ? & ? & ? & ?). split_and!; try done. intros [?|?]; [done|]. apply A. auto.
Qed.

(** *** Engine *)

Lemma live_proceed X e w x : live X e w -> live X e (proceed w x).
Proof.
  intros Hw. destruct x as [o op]. unfold proceed. cbv zeta. apply live_initialize. destruct (caches w !! o) eqn:Hc; [done|]. destruct Hw as [B1 B2 B3 B4]. split; try done. cbn. apply map_Forall_insert_2; [|done].
  split_and!; try done; try constructor. by intros [?|[? ?]].
Qed.
Lemma live_initializeEngine X e w x : live X e w -> live X e (initializeEngine w x).
Proof.
  intros Hw. unfold initializeEngine. rewrite Hpersist. cbn [negb]. destruct (_ || _) eqn:Hor.
  - destruct Hw as [B1 B2 B3 B4]. split; try done. cbn. intros _. apply orb_prop in Hor as [Hz|Hz]; [by destruct (m_clearTaskCounter w)|]. apply B3. by destruct (m_pendingClearCallbacks w).
  - destruct (m_salt w); [by apply live_proceed|]. cbv zeta. set (w1 := w <| m_initializationCallbacks := _ |>). destruct Hw as [B1 B2 B3 B4]. destruct (Nat.eqb (length (m_initializationCallbacks w)) 0) eqn:El.
    + split; try done; [|intros _; cbn; rewrite !elem_of_app, list_elem_of_singleton; auto]. intros o c Hc. eapply waits_mono; [|exact (fun x => x)|done|exact (B1 o c Hc)]. intros t. cbn. rewrite !elem_of_app. tauto.
    + split; try done. cbn. intros _. apply B2. by destruct (m_initializationCallbacks w).
Qed.
Lemma live_saltMade X e ok w : live (MakeSalt :: X) e w -> live X e (saltMade ok w).
Proof.
  intros Hw. unfold saltMade. cbv zeta. set (w1 := w <| m_salt := ok |> <| m_initializationCallbacks := [] |>).
  assert (Hw1 : live X e w1). { apply (live_drop MakeSalt); [|done|by destruct Hw]. intros o c _. by split_and!. }
  destruct ok; apply live_fold; auto using live_proceed. intros w2 x Hw2. by apply (live_still _ _ w2); [apply still_answer|].
Qed.
Lemma live_finishClear X e n w : live X e w -> live X e (finishClear n w).
Proof.
  intros Hw. unfold finishClear. cbv zeta. set (w1 := _ <| m_clearTaskCounter := _ |>). destruct (Nat.eqb (m_clearTaskCounter w1) 0) eqn:Hz.
  - apply live_fold; [intros; by apply live_initializeEngine|]. by destruct Hw.
  - destruct Hw. split; try done. intros _. by apply Nat.eqb_neq.
Qed.

(** *** Clearing *)

Lemma live_clearWith X e last o a w : (forall w, live X e w -> live X e (last o w)) -> live X e w -> live X e (clearCachesWith last o a w).
Proof.
  intros Hlast Hw. unfold clearCachesWith. destruct (isWriting o w) eqn:Hi; [by apply live_pend|]. cbv zeta. destruct (live_takeFail _ _ o Internal w Hw) as [H1 _]. set (w1 := takeInitializationCallbacks _ _ w) in *.
  destruct (hasStorage o w1); [by apply (live_still _ _ w1); [apply still_start|]|]. eapply live_still; [apply still_derefAggregator|]. by apply Hlast, live_clearMemory.
Qed.
Lemma live_failPending X e o w p : live X e w -> live X e (failPending o w p).
Proof. intros Hw. destruct p; cbn; try (apply (live_still _ _ w); [apply still_answer|done]). by apply live_clearWith. Qed.
Lemma live_clearPending X e o w : live X e w -> live X e (clearPendingWritingCachesToDiskCallbacks o w).
Proof.
  intros Hw. unfold clearPendingWritingCachesToDiskCallbacks. destruct (caches w !! o) as [c|]; [|done]. apply live_fold; [intros; by apply live_failPending|]. apply live_onCaches; [|done].
  by intros c1 _ (? & ? & ? & ? & ? & ?).
Qed.
Lemma live_clearCaches X e o a w : live X e w -> live X e (clearCaches o a w).
Proof. apply live_clearWith. intros. by apply live_clearPending. Qed.
Lemma live_clearOrigins X e f n w : live X e w -> live X e (clearOrigins f n w).
Proof.
  intros Hw. unfold clearOrigins. cbn [fresh]. cbv zeta. eapply live_still; [apply still_derefAggregator|]. apply live_fold.
  - intros w1 o Hw1. apply live_clearCaches. destruct Hw1 as [B1 B2 B3 (P1 & P2 & P3)]. split; try done. split_and!; try done. apply Forall_alter; [cbn; lia|done].
  - destruct Hw as [B1 B2 B3 (P1 & P2 & P3)]. split; try done. split_and!; try done. cbn. by apply map_Forall_insert_2.
Qed.
Lemma live_unlock X e id w : live X e w -> live X e (unlock id w).
Proof.
  intros Hw. unfold unlock. destruct (m_cacheLocks w !! id); [|done]. cbv zeta. set (w1 := w <| m_cacheLocks := _ |>). assert (Hw1 : live X e w1) by (by apply (live_still _ _ w)).
  destruct (negb _); [done|]. destruct (originOf id w1); [by apply live_dispose|done].
Qed.

(** *** The end of a write *)

Definition calmer (o : nat) w w' : Prop := isWriting o w = false -> isWriting o w' = false /\ (pendingCount o w' <= pendingCount o w)%nat.
Lemma calmer_trans o w w1 w2 : calmer o w w1 -> calmer o w1 w2 -> calmer o w w2.
Proof. intros A B Hw. destruct (A Hw) as [A1 A2], (B A1) as [B1 B2]. split; [done|lia]. Qed.
Lemma calmer_still o w w' : still w w' -> calmer o w w'.
Proof.
  intros [Hf _ _ _] Hw. specialize (Hf o). unfold isWriting, pendingCount in *. destruct (caches w' !! o) as [c'|], (caches w !! o) as [c|]; try done. apply (inj Some) in Hf. unfold face in Hf. injection Hf as _ _ _ E1 E2 _. by rewrite E1, E2.
Qed.
Lemma calmer_onCaches o f w : (forall c, m_isWritingCachesToDisk (f c) = m_isWritingCachesToDisk c /\ (length (m_pendingWritingCachesToDiskCallbacks (f c)) <= length (m_pendingWritingCachesToDiskCallbacks c))%nat) -> calmer o w (onCaches o f w).
Proof.
  intros Hf Hw. unfold isWriting, pendingCount in *. destruct (caches w !! o) as [c|] eqn:Hc; [rewrite (lookup_onCaches _ _ _ _ Hc)|rewrite onCaches_none by done; by rewrite Hc]. destruct (Hf c) as [-> ?]. done.
Qed.
Lemma calmer_onCache o id f w : calmer o w (onCache o id f w).
Proof. apply calmer_onCaches. intros c. unfold modifyCache. by destruct (findIn id (m_caches c)). Qed.
Lemma calmer_openCache o id cb w : calmer o w (openCache o id cb w).
Proof.
  unfold openCache. destruct (m_state <$> cacheIn o id w) as [[]|]; [|apply calmer_onCache|apply calmer_still; auto with still|done].
  eapply calmer_trans; [apply calmer_onCache|]. apply calmer_still. auto with still.
Qed.
Lemma count_writeCachesToDisk o cb w : pendingCount o (writeCachesToDisk o cb w) = pendingCount o w.
Proof.
  unfold writeCachesToDisk. destruct (caches w !! o) as [c|] eqn:Hc; [|done]. rewrite Hpersist. cbn [negb orb]. destruct (bool_decide _); [by destruct cb|]. unfold pendingCount. cbn. rewrite lookup_alter_eq, Hc. done.
Qed.
Lemma calmer_takeFail o err w : calmer o w (takeInitializationCallbacks o (failOp err) w).
Proof.
  unfold takeInitializationCallbacks. destruct (caches w !! o); [|done]. eapply calmer_trans; [|apply calmer_still, still_fold; intros; apply still_answer]. by apply calmer_onCaches.
Qed.
Lemma calmer_clearMemory o w : calmer o w (clearMemoryRepresentation o w).
Proof. unfold clearMemoryRepresentation. destruct (caches w !! o) as [c|]; [|done]. eapply calmer_trans; [by apply calmer_still, (still_dropWaiting (m_caches c))|]. by apply calmer_onCaches. Qed.
Lemma calmer_clearWith last o a w : (forall w, calmer o w (last o w)) -> calmer o w (clearCachesWith last o a w).
Proof.
  intros Hlast Hw. unfold clearCachesWith. rewrite Hw. cbv zeta. revert Hw. change (calmer o w (if hasStorage o (takeInitializationCallbacks o (failOp Internal) w) then start (ClearStorage o a) (takeInitializationCallbacks o (failOp Internal) w) else
    derefAggregator a (last o (clearMemoryRepresentation o (takeInitializationCallbacks o (failOp Internal) w))))).
  eapply calmer_trans; [apply (calmer_takeFail o Internal)|]. destruct (hasStorage _ _); [apply calmer_still, still_start|].
  eapply calmer_trans; [apply calmer_clearMemory|]. eapply calmer_trans; [apply Hlast|]. apply calmer_still, still_derefAggregator.
Qed.
Lemma calmer_fold {A} o (f : Engine -> A -> Engine) l : (forall w x, calmer o w (f w x)) -> forall w, calmer o w (fold_left f l w).
Proof. intros Hf. induction l as [|x l IH]; intros w; cbn; [done|]. eapply calmer_trans; [apply Hf|apply IH]. Qed.
Lemma calmer_failPending o w p : calmer o w (failPending o w p).
Proof. destruct p; cbn; try (apply calmer_still, still_answer). by apply calmer_clearWith. Qed.
Lemma calmer_clearPending o w : calmer o w (clearPendingWritingCachesToDiskCallbacks o w).
Proof.
  unfold clearPendingWritingCachesToDiskCallbacks. destruct (caches w !! o); [|done]. eapply calmer_trans; [|apply calmer_fold; intros; apply calmer_failPending]. apply calmer_onCaches. cbn. intros. split; [done|lia].
Qed.
(** A callback that runs while nothing is written adds none to those that wait. *)
Lemma count_runPending o p w : isWriting o w = false -> (pendingCount o (runPending o p w) <= pendingCount o w)%nat.
Proof.
  intros Hw. assert (Hwr : forall c, caches w !! o = Some c -> m_isWritingCachesToDisk c = false) by (intros c Hc; unfold isWriting in Hw; by rewrite Hc in Hw). destruct p as [name n|id n|u n|a]; cbn.
  - unfold openCaches. destruct (caches w !! o) as [c|] eqn:Hc; [|done]. rewrite (Hwr c eq_refl). destruct (findByName name c) as [x|]; [by apply calmer_openCache|]. cbv zeta. cbn [fresh].
    rewrite count_writeCachesToDisk. set (w1 := w <| m_nextCacheIdentifier := _ |> <| nextUnique := _ |>). change (pendingCount o w) with (pendingCount o w1). by apply calmer_onCaches.
  - unfold removeCaches. destruct (caches w !! o) as [c|] eqn:Hc; [|done]. rewrite (Hwr c eq_refl). destruct (findIn id (m_caches c)) as [x|]; [|done]. rewrite count_writeCachesToDisk. by apply calmer_onCaches.
  - unfold cacheInfos. destruct (caches w !! o) as [c|] eqn:Hc; [|done]. by rewrite (Hwr c eq_refl).
  - apply (calmer_clearWith clearPendingWritingCachesToDiskCallbacks o a w (calmer_clearPending o) Hw).
Qed.
Lemma live_runPending X e o p w : live X e w -> live X e (runPending o p w).
Proof. intros Hw. destruct p; cbn; [by apply live_openCaches|by apply live_removeCaches|by apply live_cacheInfos|by apply live_clearCaches]. Qed.
Lemma live_exempt X o w : live X (Some o) w -> (pendingCount o w = 0%nat \/ isWriting o w = true) -> live X None w.
Proof.
  intros [B1 B2 B3 B4] Hp. split; try done. intros o' c Hc. pose proof (B1 o' c Hc) as Hx. cbn in *. destruct (decide (o' = o)) as [->|Hne]; [|by rewrite bool_decide_eq_false_2 in Hx by congruence].
  destruct Hx as (A & B & _ & D & E & F). split_and!; try done. intros _ Hn. unfold pendingCount, isWriting in Hp. rewrite Hc in Hp. destruct Hp as [Hp|Hp]; [|done]. by destruct (m_pendingWritingCachesToDiskCallbacks c).
Qed.
Lemma live_runPendingWrites X o : forall fuel w, (pendingCount o w <= fuel)%nat -> live X (Some o) w -> live X None (runPendingWrites fuel o w).
Proof.
  induction fuel as [|fuel IH]; intros w Hf Hw; cbn [runPendingWrites]; [apply (live_exempt X o); [done|left; lia]|]. destruct (caches w !! o) as [c|] eqn:Hc; cycle 1.
  { apply (live_exempt X o); [done|left]. unfold pendingCount. by rewrite Hc. }
  destruct (m_pendingWritingCachesToDiskCallbacks c) as [|p l] eqn:Hp; [apply (live_exempt X o); [done|left]; unfold pendingCount; by rewrite Hc, Hp|].
  destruct (m_isWritingCachesToDisk c) eqn:Hi; [apply (live_exempt X o); [done|right]; unfold isWriting; by rewrite Hc|]. set (w1 := onCaches o _ w).
  assert (Hc1 : caches w1 !! o = Some (c <| m_pendingWritingCachesToDiskCallbacks := l |>)) by (unfold w1; by rewrite (lookup_onCaches _ _ _ _ Hc)). apply IH.
  - unfold pendingCount in Hf. rewrite Hc, Hp in Hf. cbn in Hf. etrans; [apply count_runPending; unfold isWriting; by rewrite Hc1|]. unfold pendingCount. rewrite Hc1. cbn. lia.
  - apply live_runPending, live_onCaches; [|done]. intros c1 _ (A & B & _ & D & E & F). split_and!; try done. intros He. by rewrite bool_decide_eq_true_2 in He.
Qed.
Lemma live_cachesListWritten X o cb error w : live (WriteCachesList o cb :: X) None w -> live X None (cachesListWritten o cb error w).
Proof.
  intros Hw. unfold cachesListWritten. cbv zeta. apply live_runPendingWrites; [done|]. apply (live_still _ _ (onCaches o (fun c => c <| m_isWritingCachesToDisk := false |>) w)); [apply still_wrote|].
  apply (live_drop (WriteCachesList o cb)); [|done|].
  - intros o' c Hc. split_and!; try done. intros cb' [= <- <-]. unfold onCaches in Hc. cbn in Hc. rewrite lookup_alter_eq in Hc. destruct (caches w !! o); [|done]. by injection Hc as <-.
  - apply live_onCaches; [intros c _ (A & B & _ & D & E & F); split_and!; try done; intros He; by rewrite bool_decide_eq_true_2 in He|]. destruct Hw as [B1 B2 B3 B4]. split; try done.
    intros o' c Hc. eapply waits_mono; [done| |done|exact (B1 o' c Hc)]. done.
Qed.

Lemma live_complete t r w : live [t] None w -> live [] None (complete t r w).
Proof.
  intros Hw. destruct t; cbn [complete].
  - by apply live_originStored.
  - eapply live_cachesRead; [|exact Hw]. cbn. by rewrite Nat.eqb_refl.
  - by apply live_sizeTraversed.
  - by apply live_initialSizeWritten.
  - by apply live_cachesListWritten.
  - destruct r; by apply live_recordsTraversed.
  - apply live_plain in Hw; [|done]. eapply live_still; [apply still_spaceAnswered|done].
  - apply live_plain in Hw; [|done]. destruct (succeeded r); [by eapply live_still; [apply still_start|]|]. eapply live_still; [apply still_derefPut|]. eapply live_still; [apply still_onPut|exact Hw].
    intros c. unfold setError. by destruct (m_error c).
  - apply live_plain in Hw; [|done]. eapply live_still; [apply still_derefPut|done].
  - apply live_plain in Hw; [|done]. eapply live_still; [apply still_continueUpdate|done].
  - apply live_plain in Hw; [|done]. eapply live_still; [apply still_recordRead|done].
  - apply live_plain in Hw; [|done]. eapply live_still; [apply still_answer|done].
  - apply live_plain in Hw; [|done]. eapply live_still; [apply still_derefAggregator|]. by apply live_clearMemory.
  - by apply live_saltMade.
  - apply live_plain in Hw; [|done]. by apply live_finishClear.
Qed.
Lemma live_exec ev w : live [] None w -> live [] None (exec ev w).
Proof.
  intros Hw. destruct ev; cbn [exec]; auto using live_initializeEngine, live_clearOrigins, live_readCache.
  - unfold removeFromEngine. destruct (originOf id w); [by apply live_removeCaches|]. eapply live_still; [apply still_answer|done].
  - unfold reference. destruct (negb _); [done|]. cbv zeta. destruct (Nat.eqb _ 0); by apply (live_still _ _ w).
  - unfold dereference. destruct (negb _); [done|]. destruct (_ !! id); [|done]. destruct (negb _); [by apply (live_still _ _ w)|]. apply (live_unlock _ _ id) in Hw. by apply (live_still _ _ (unlock id w)).
  - unfold disconnect. apply live_fold; [intros; by apply live_unlock|]. by apply (live_still _ _ w).
  - by apply (live_still _ _ w).
  - destruct (tasks w !! i) as [t|] eqn:Ht; [|done]. apply live_complete. destruct Hw as [B1 B2 B3 B4].
    assert (Hts : forall t', t' ∈ tasks w -> t' ∈ t :: delete i (tasks w)) by (intros t'; rewrite (delete_Permutation _ _ _ Ht) at 1; done).
    split; try done; [|intros Hi; by apply Hts, B2]. intros o c Hc. eapply waits_mono; [exact Hts|exact (fun x => x)|done|exact (B1 o c Hc)].
Qed.
Lemma live_runs h : live [] None (runs h).
Proof.
  induction h as [|e h IH] using rev_ind; [|unfold runs; rewrite fold_left_app; by apply live_exec]. split; cbn; [apply map_Forall_empty|done|done|split_and!; apply map_Forall_empty].
Qed.
End persistent.

(** When no task is left, nothing of an origin waits. *)
Lemma idle_caches w o c : live [] None w -> tasks w = [] -> caches w !! o = Some c -> cachesRes c = [].
Proof.
  intros [Hcs _ _ _] Ht Ho. pose proof (Hcs o c Ho) as Hx. cbn in Hx. rewrite Ht in Hx. destruct Hx as (A & B & C & D & _).
  assert (E1 : m_pendingInitializationCallbacks c = []) by (destruct (m_pendingInitializationCallbacks c); [done|]; destruct A as (t & []%elem_of_nil & _); by left).
  assert (E2 : m_pendingWritingCachesToDiskCallbacks c = []) by (destruct (m_pendingWritingCachesToDiskCallbacks c); [done|]; destruct B as (cb & []%elem_of_nil); by apply C).
  assert (E3 : concat (map waiting (allCaches c)) = []).
  { rewrite Forall_map in D. clear -D. induction D as [|x l Hx _ IH]; cbn; [done|]. rewrite IH, app_nil_r. unfold waiting. unfold needsTraversal, cacheFace in Hx.
    destruct (m_pendingOpeningCallbacks x); [done|]. destruct Hx as (cb & []%elem_of_nil). by right. }
  unfold allCaches in E3. rewrite map_app, concat_app in E3. apply app_eq_nil in E3 as [E3 E4]. unfold cachesRes. by rewrite E1, E2, E3, E4.
Qed.

(** C37: In a session with files nothing hangs: when the work queues, the storage and the
    quota manager have done all their tasks and no null pointer was used, every request has
    been answered exactly once, but for those lost with a cache that was destroyed; and no
    counter, aggregator or clear task is left. *)
Theorem idle_engine_has_answered h :
  shouldPersist = true -> crashed (runs h) = false -> tasks (runs h) = [] -> let w := runs h in
  (forall n, times n (concat (map requested h)) = (times n (map fst (answered w)) + times n (dropped w))%nat) /\
  putCounters w = ∅ /\ readCounters w = ∅ /\ aggregators w = ∅ /\ m_clearTaskCounter w = 0%nat.
Proof.
  intros Hp Hc Ht w. pose proof (live_runs Hp h) as Hw. fold w in Hc, Ht, Hw. pose proof (fun o c => idle_caches w o c Hw Ht) as Hcs.
  destruct (no_references w (live_refs _ _ _ Hw)) as (E1 & E2 & E3 & E4); [intros; by apply runs_counted|by rewrite Ht|intros o c a Ho; by rewrite (Hcs o c Ho)|]. split_and!; try done.
  assert (E5 : m_initializationCallbacks w = []). { pose proof (live_salt _ _ _ Hw) as Hs. destruct (m_initializationCallbacks w); [done|]. cbn in Hs. rewrite Ht in Hs. by destruct (not_elem_of_nil MakeSalt (Hs ltac:(done))). }
  assert (E6 : m_pendingClearCallbacks w = []). { pose proof (live_clear _ _ _ Hw) as Hs. destruct (m_pendingClearCallbacks w); [done|]. by destruct Hs. }
  intros n. apply Nat2Z.inj. rewrite Nat2Z.inj_add, <- !amt_times, <- (proj2 (runs_bal h Hc)). fold w. unfold bal. rewrite (amt_one (Req n)), decide_False, held_no_references, Ht by done. cbn. rewrite amt_nil. lia.
Qed.

(** *** What is put is retrieved *)

Lemma cacheIn_onCache o id f w c : (forall x, m_identifier (f x) = m_identifier x) -> cacheIn o id w = Some c -> cacheIn o id (onCache o id f w) = Some (f c).
Proof.
  intros Hf Hc. unfold cacheIn in *. destruct (caches w !! o) as [cs|] eqn:Ho; [|done]. cbn in Hc. unfold onCache. rewrite (lookup_onCaches _ _ _ _ Ho). cbn. unfold findById, modifyCache in *.
  destruct (findIn id (m_caches cs)) as [x|] eqn:E; cbn; [injection Hc as ->; by rewrite (findIn_modify id f _ c Hf E)|]. rewrite E. by rewrite (findIn_modify id f _ c Hf Hc).
Qed.
Lemma cacheIn_onCaches o id f w : (forall cs, findById id (f cs) = findById id cs) -> cacheIn o id (onCaches o f w) = cacheIn o id w.
Proof. intros Hf. unfold cacheIn, onCaches. cbn. rewrite lookup_alter_eq. destruct (caches w !! o); cbn; [apply Hf|done]. Qed.

(** The records that can be read, as they are returned. *)
Definition readRecord (o : nat) w (i : RecordInformation) : option Record_ :=
  (fun r => r <| identifier := ri_identifier i |> <| updateResponseCounter := ri_updateResponseCounter i |>) <$> volatileRecord o (key i) w.
Lemma retrieved_fold o id k l : shouldPersist = false -> forall w rc, is_Some (cacheIn o id w) -> (1 <= rc_refs rc)%nat -> readCounters w !! k = Some rc ->
  exists failed, fold_left (retrieveRecord o id k) l w = w <| readCounters := <[k := rc <| rc_records := rc_records rc ++ omap (readRecord o w) l |> <| m_failedRecords := failed |>]> (readCounters w) |>.
Proof.
  intros He. induction l as [|i l IH]; intros w rc Hc Hr Hk; cbn [fold_left omap list_omap].
  - exists (m_failedRecords rc). rewrite app_nil_r. assert (E : rc <| rc_records := rc_records rc |> <| m_failedRecords := m_failedRecords rc |> = rc) by (by destruct rc). rewrite E, insert_id by done. by destruct w.
  - assert (Hstep : exists rc', retrieveRecord o id k w i = w <| readCounters := <[k := rc']> (readCounters w) |> /\ rc_refs rc' = rc_refs rc /\ rc_records rc' = rc_records rc ++ option_list (readRecord o w i) /\
      (rc_origin rc', rc_cache rc', rc_provideResponse rc', rc_callback rc') = (rc_origin rc, rc_cache rc, rc_provideResponse rc, rc_callback rc)).
    { unfold retrieveRecord, recordRead. cbv zeta. rewrite He. cbn [negb]. set (w1 := onRead k _ w). assert (Hc1 : is_Some (cacheIn o id w1)) by done. destruct Hc1 as [c ->].
      assert (Ev : volatileRecord o (key i) w1 = volatileRecord o (key i) w) by done. rewrite Ev. unfold derefRead, onRead, w1. cbn. rewrite !lookup_alter_eq, Hk. cbn.
      rewrite (alter_some _ _ _ _ Hk), (alter_some _ _ k _ (lookup_insert_eq _ _ _)), insert_insert_eq.
      unfold readRecord, appendRecord. destruct (volatileRecord o (key i) w) as [r|]; cbn; destruct (rc_refs rc) as [|m] eqn:Em; try lia; rewrite insert_insert_eq; eexists; (split; [reflexivity|]); cbn; rewrite ?app_nil_r; done. }
    destruct Hstep as (rc' & -> & E1 & E2 & E3). set (w1 := w <| readCounters := <[k := rc']> (readCounters w) |>). destruct (IH w1 rc' Hc ltac:(lia) ltac:(apply lookup_insert_eq)) as [failed ->]. exists failed.
    unfold w1. cbn. rewrite insert_insert_eq. f_equal. f_equal. destruct rc, rc'. cbn in *. simplify_eq. rewrite <- app_assoc. unfold readRecord. cbn. destruct (volatileRecord o (key i) w); done.
Qed.
(** A retrieval is answered at once with the records of the cache that match and can be
    read, in the order of their identifiers. *)
Lemma retrieved_records o id options n w c :
  shouldPersist = false -> cacheIn o id w = Some c ->
  let found := merge_sort byIdentifier (omap (readRecord o w) (recordsToRetrieve options c)) in
  answered (retrieveRecords o id options n w) = answered w ++ [(n, RecordsReply (if shouldProvideResponse options then found else map stripResponse found))].
Proof.
  intros He Hc found. unfold retrieveRecords. rewrite Hc. cbn [fresh]. set (rc := mkReadCounter _ _ _ _ _ _ _). set (w1 := _ <| readCounters := _ |>).
  destruct (retrieved_fold o id (nextUnique w) (recordsToRetrieve options c) He w1 rc ltac:(by eexists) ltac:(done) ltac:(apply lookup_insert_eq)) as [failed ->].
  unfold derefRead. cbn. rewrite lookup_insert_eq. cbn. assert (E : forall o id ids w0, answered (removeFromRecordList o id ids w0) = answered w0).
  { intros o' id' ids w0. unfold removeFromRecordList. destruct (cacheIn o' id' w0) as [x|]; [|done]. cbn. generalize (filter (fun i => ri_identifier i ∈ ids) (recordList x)). intros l. revert w0.
    induction l as [|i l IH]; intros w0; cbn; [done|]. rewrite IH. unfold removeRecord, removeCacheEntry. by rewrite He. }
  rewrite E. done.
Qed.
(** The information of a record that is stored for the first time. *)
Definition newInformation (r : Record_) (c : Cache) w : RecordInformation :=
  let r := r <| identifier := S (m_nextRecordIdentifier c) |> in
  updateVaryInformation (mkInformation (S (nextUnique w)) (now w) (identifier r) 0 (responseBodySize r) (urlOf (request r)) false ∅) (request r) (response r).
Lemma vary_keeps i req resp : let i' := updateVaryInformation i req resp in key i' = key i /\ ri_identifier i' = ri_identifier i /\ ri_updateResponseCounter i' = ri_updateResponseCounter i /\ url i' = url i.
Proof. unfold updateVaryInformation. by destruct (resp ≫= varyOf). Qed.
Lemma derefPut_last k c w : putCounters w !! k = Some c -> pc_refs c = 1%nat -> m_error c = None ->
  answered (derefPut k w) = answered w ++ [(pc_callback c, RecordIdentifiersReply (m_recordIdentifiers c))] /\ caches (derefPut k w) = caches w /\ nextUnique (derefPut k w) = nextUnique w.
Proof. intros Hk Hr He. unfold derefPut. by rewrite Hk, Hr, He. Qed.
Lemma store_new o id r n w c : shouldPersist = false -> cacheIn o id w = Some c -> existingRecord r c = None ->
  let w' := storeRecords o id [r] n w in
  answered w' = answered w ++ [(n, RecordIdentifiersReply [S (m_nextRecordIdentifier c)])] /\
  cacheIn o id w' = Some (addRecord (newInformation r c w) (c <| m_nextRecordIdentifier := S (m_nextRecordIdentifier c) |>)) /\
  (forall k, volatileRecord o k w' = if decide (k = S (nextUnique w)) then Some (r <| identifier := S (m_nextRecordIdentifier c) |>) else volatileRecord o k w) /\
  nextUnique w' = S (S (nextUnique w)).
Proof.
  intros He Hc Hx w'. unfold w', storeRecords. cbn [fresh fold_left]. set (k := nextUnique w). set (w0 := _ <| putCounters := <[k := _]> _ |>). unfold storeRecord. assert (Hc0 : cacheIn o id w0 = Some c) by done. rewrite Hc0, Hx. cbv zeta.
  unfold toRecordInformation. cbn [fresh]. set (w1 := onCache o id _ (onPut k _ w0)). set (w2 := w1 <| nextUnique := S (nextUnique w1) |>).
  change (updateVaryInformation _ _ _) with (newInformation r c w). set (i := newInformation r c w). assert (Hk : key i = S k) by apply vary_keeps.
  assert (Hc2 : cacheIn o id w2 = Some (c <| m_nextRecordIdentifier := S (m_nextRecordIdentifier c) |>)) by (unfold w2, w1; by apply cacheIn_onCache).
  pose proof (cacheIn_onCache o id (addRecord i) w2 _ ltac:(done) Hc2) as Hc3. set (w3 := onCache o id (addRecord i) w2) in *. unfold writeRecord. rewrite He. cbn [negb]. cbv zeta.
  set (w4 := onCaches o (resize _) w3). set (w5 := onCaches o (fun c => c <| m_volatileStorage := _ |>) w4).
  assert (Hp5 : putCounters w5 !! k = Some (mkPutCounter 2 None [S (m_nextRecordIdentifier c)] n)) by (cbn; by rewrite lookup_alter_eq, lookup_insert_eq).
  set (w6 := derefPut k w5). assert (E6 : w6 = w5 <| putCounters := <[k := mkPutCounter 1 None [S (m_nextRecordIdentifier c)] n]> (putCounters w5) |>) by (unfold w6, derefPut; by rewrite Hp5).
  destruct (derefPut_last k (mkPutCounter 1 None [S (m_nextRecordIdentifier c)] n) w6 ltac:(rewrite E6; apply lookup_insert_eq) eq_refl eq_refl) as (Ea & Ec & En).
  assert (Ec6 : caches w6 = caches w5) by (by rewrite E6). split_and!.
  - rewrite Ea, E6. done.
  - unfold cacheIn in *. rewrite Ec, Ec6. fold (cacheIn o id w5). unfold w5, w4. rewrite !cacheIn_onCaches by done. exact Hc3.
  - intros k'. unfold volatileRecord. rewrite Ec, Ec6. unfold cacheIn in Hc. destruct (caches w !! o) as [cs|] eqn:Ho; [|done].
    assert (H3 : exists cs3, caches w3 !! o = Some cs3 /\ m_volatileStorage cs3 = m_volatileStorage cs).
    { eexists. split; [unfold w3, onCache; apply lookup_onCaches; cbn; unfold onCache; apply lookup_onCaches; cbn; exact Ho|]. unfold modifyCache. cbn. by repeat case_match. }
    destruct H3 as (cs3 & H3 & Ev). unfold w5. rewrite (lookup_onCaches o _ w4 (resize (size i - 0) cs3)); [|by apply lookup_onCaches].
    cbn. rewrite Hk, Ev. case_decide as Hd; [subst k'; apply lookup_insert_eq|]. by rewrite lookup_insert_ne by congruence.
  - rewrite En, E6. done.
Qed.

(** A record that a cache holds, with what is stored for it. *)
Definition holds (o id : nat) (i : RecordInformation) (r : Record_) w : Prop :=
  exists c, cacheIn o id w = Some c /\ i ∈ default [] (recordsFromURL (url i) c) /\ volatileRecord o (key i) w = Some r /\ (key i < nextUnique w)%nat.
(** Records that are put one after the other, and that none of them replaces another. *)
Fixpoint putAll (o id : nat) (l : list (Record_ * nat)) w : Engine :=
  match l with [] => w | (r, n) :: l => putAll o id l (spaceAnswered o id [r] n true w) end.
Fixpoint replacesNone (o id : nat) (l : list (Record_ * nat)) w : Prop :=
  match l with [] => True | (r, n) :: l => (forall c, cacheIn o id w = Some c -> existingRecord r c = None) /\ replacesNone o id l (spaceAnswered o id [r] n true w) end.
Lemma put_holds o id r n w c : shouldPersist = false -> cacheIn o id w = Some c -> existingRecord r c = None ->
  holds o id (newInformation r c w) (r <| identifier := S (m_nextRecordIdentifier c) |>) (spaceAnswered o id [r] n true w).
Proof.
  intros He Hc Hx. destruct (store_new o id r n w c He Hc Hx) as (_ & Ec & Ev & En). unfold spaceAnswered. cbn [negb]. rewrite Hc. eexists. split; [exact Ec|].
  destruct (vary_keeps (mkInformation (S (nextUnique w)) (now w) (S (m_nextRecordIdentifier c)) 0 (responseBodySize r) (urlOf (request r)) false ∅) (request r) (response r)) as (Hk & _). cbn in Hk.
  change (key (newInformation r c w) = S (nextUnique w)) in Hk. rewrite Hk, Ev, En, decide_True by done. split_and!; [|done|lia].
  unfold recordsFromURL, addRecord. cbn. rewrite lookup_insert_eq. cbn. apply elem_of_app. right. by left.
Qed.
Lemma put_keeps o id i x r n w : shouldPersist = false -> (forall c, cacheIn o id w = Some c -> existingRecord r c = None) -> holds o id i x w -> holds o id i x (spaceAnswered o id [r] n true w).
Proof.
  intros He Hx (c & Hc & Hi & Hv & Hk). destruct (store_new o id r n w c He Hc (Hx c Hc)) as (_ & Ec & Ev & En). unfold spaceAnswered. cbn [negb]. rewrite Hc. eexists. split; [exact Ec|].
  rewrite Ev, En, decide_False by lia. split_and!; [|done|lia]. unfold recordsFromURL, addRecord in *. cbn in *. set (k := computeKeyURL (url (newInformation r c w))).
  destruct (decide (k = computeKeyURL (url i))) as [E|E]; [rewrite <- E, lookup_insert_eq; cbn; apply elem_of_app; left; by rewrite E|by rewrite lookup_insert_ne].
Qed.
Lemma putAll_keeps o id i x l : shouldPersist = false -> forall w, replacesNone o id l w -> holds o id i x w -> holds o id i x (putAll o id l w).
Proof. intros He. induction l as [|[r n] l IH]; intros w; cbn; [done|]. intros [Hx Hl] Hh. apply IH; [done|]. by apply put_keeps. Qed.

End with_fetch.

(** ** A small instance of WebCore *)

(** A request is the URL of what it asks for, a response the value of its Vary field. *)
#[local] Instance simpleFetch : Fetch := {
  Request := string; Response := option string; URL := string; Options := bool;
  urlOf := fun r => r; isGET := fun _ => true; httpHeaderField := fun r n => if decide (n = "Accept") then Some r else None; varyOf := fun r => r;
  withoutQueryAndFragment := fun u => u; isNullURL := fun u => bool_decide (u = EmptyString); defaultOptions := false; ignoreMethod := fun o => o;
  stripLeadingAndTrailingHTTPSpaces := fun s => s;
  queryCacheMatch := fun r u star _ _ => String.eqb r u && negb star }.

Definition simpleRecord (r : string) : Record_ := mkRecord 0 0 r (Some None) 7 100.
Definition done : Result := Finished false true.

(** A session with files: the salt is made, the origin stored, the empty list of caches read,
    its size computed and written, and the list with the new cache written. *)
#[local] Notation persistent := (runs true (fun _ => true) (fun l => l)).
Definition opened : list Event :=
  [OpenEvent 5 "v1" 1; TaskDone 0 done; TaskDone 0 done; TaskDone 0 (NamesRead (Some [])); TaskDone 0 (SizesTraversed []); TaskDone 0 done; TaskDone 0 done].
(** The web process that used the cache goes away; of two requests that come then, the first
    opens the cache again and the second waits for it. *)
Definition reopened : list Event :=
  opened ++ [OpenEvent 5 "v2" 2; TaskDone 0 done; ReferenceEvent 9 1; DisconnectEvent 9; RetrieveEvent 1 (mkRetrieve "a" false true) 3; RetrieveEvent 1 (mkRetrieve "b" false true) 4].

(** The engine is cleared while request 4 waits. *)
Definition clearedWhileOpening : list Event := reopened ++ [ClearEvent (fun _ => true) 6; TaskDone 1 done; TaskDone 0 done; TaskDone 0 done].
(** The origin is cleared after its size was computed and before the size is written. *)
Definition clearedBeforeSize : list Event :=
  [OpenEvent 5 "v1" 1; TaskDone 0 done; TaskDone 0 done; TaskDone 0 (NamesRead (Some [])); TaskDone 0 (SizesTraversed []);
   ClearEvent (fun _ => true) 2; TaskDone 1 done; TaskDone 1 done; TaskDone 0 done].
(** A record is stored in a cache, and the cache is deleted and disposed of. *)
Definition putAndDeleted : list Event :=
  opened ++ [ReferenceEvent 9 1; OpenEvent 5 "v2" 2; TaskDone 0 done; PutEvent 1 [simpleRecord "a"] 3; TaskDone 0 done; TaskDone 0 done; TaskDone 0 done;
             RemoveEvent 1 4; TaskDone 0 done; DereferenceEvent 9 1].

Definition putUnderWay : list Event := reopened ++ [PutEvent 2 [simpleRecord "a"; simpleRecord "b"] 5; TaskDone 1 done].
Lemma cache_requests_conserved_witness : crashed (persistent putUnderWay) = false /\ number (usesPut 2) (persistent putUnderWay) = 2%nat.
Proof.
  assert (Hc : crashed (persistent putUnderWay) = false) by (by vm_compute). split; [exact Hc|].
  destruct (cache_requests_conserved true (fun _ => true) (fun l => l) putUnderWay Hc) as (_ & E & _). rewrite E. by vm_compute.
Defined.
Lemma idle_engine_has_answered_witness :
  times 3 (map fst (answered (persistent clearedWhileOpening))) = 1%nat /\ times 4 (dropped (persistent clearedWhileOpening)) = 1%nat /\ m_clearTaskCounter (persistent clearedWhileOpening) = 0%nat.
Proof.
  destruct (idle_engine_has_answered true (fun _ => true) (fun l => l) clearedWhileOpening eq_refl ltac:(by vm_compute) ltac:(by vm_compute)) as (_ & _ & _ & _ & E).
  split_and!; [by vm_compute..|exact E].
Defined.
Definition simpleQuestion (r : string) : RetrieveRecordsOptions := mkRetrieve r false true.
Definition privateOpened : Engine := runs false (fun _ => true) (fun l => l) [OpenEvent 5 "v1" 1].
(** Everything is done and request 4 is lost. *)
Lemma dropped_request_is_not_answered_witness :
  tasks (persistent clearedWhileOpening) = [] /\ (4%nat ∉ map fst (answered (persistent clearedWhileOpening))).
Proof.
  split; [by vm_compute|]. apply (dropped_request_is_not_answered true (fun _ => true) (fun l => l) clearedWhileOpening 4); [by vm_compute..|].
  replace (dropped (persistent clearedWhileOpening)) with [4%nat] by (by vm_compute). by left.
Defined.
Lemma ephemeral_requests_answered_witness :
  let h := [OpenEvent 5 "v1" 1; PutEvent 1 [simpleRecord "a"] 2; TaskDone 0 done; RetrieveEvent 1 (mkRetrieve "a" false true) 3; PutEvent 1 [simpleRecord "b"] 4] in
  times 4 (concat (map spaceRequester (tasks (runs false (fun _ => true) (fun l => l) h)))) = 1%nat /\
  times 3 (map fst (answered (runs false (fun _ => true) (fun l => l) h))) = 1%nat.
Proof.
  intros h. destruct (ephemeral_requests_answered false (fun _ => true) (fun l => l) h eq_refl) as (_ & _ & E). split; [by vm_compute|]. specialize (E 3%nat). revert E. by vm_compute.
Defined.

(** An origin that is cleared between the computation of its size and the write of the
    size is then taken to be initialized without a storage: the next put uses the null
    pointer. *)
Theorem clear_before_size_write_crashes :
  let w := persistent clearedBeforeSize in
  crashed w = false /\ tasks w = [] /\ (fun c => (m_isInitialized c, m_storage c)) <$> caches w !! 5%nat = Some (true, false) /\
  crashed (persistent (clearedBeforeSize ++ [OpenEvent 5 "v1" 3; TaskDone 0 done; PutEvent 1 [simpleRecord "a"] 4; TaskDone 0 done])) = true.
Proof. by vm_compute. Qed.

(** The records of a deleted cache are still counted in the size of the origin when the
    cache is gone. *)
Theorem deleted_cache_is_still_counted :
  let w := persistent putAndDeleted in
  crashed w = false /\ tasks w = [] /\ (fun c => (m_size c, map m_identifier (m_caches c), map recordList (m_caches c), m_removedCaches c)) <$> caches w !! 5%nat = Some (100, [2%nat], [[]], []).
Proof. by vm_compute. Qed.

(** The names in a Vary field after the first are kept with the space before them, which
    is not the name of a field of the request: the value of that field is not recorded. *)
Theorem vary_names_are_not_stripped (i : RecordInformation) : varyHeaders i = ∅ -> hasVaryStar i = false ->
  let v := varyHeaders (updateVaryInformation i "x" (Some (Some "Origin, Accept"))) in
  httpHeaderField "x" "Accept" = Some "x" /\ v !! "Accept" = None /\ v !! " Accept" = Some None.
Proof. intros E1 E2. unfold updateVaryInformation. cbn. rewrite E1, E2. by vm_compute. Qed.
End CacheStorage.
