(* ===== verification/PageLoadState.v ===== *)
(** * UIProcess/PageLoadState.cpp: the load state of a page and its observers

    [PageLoadState] keeps two copies of the data of a page load: the one its getters
    read ([m_committedState]) and the one that is modified inside transactions
    ([m_uncommittedState]).  When the last transaction ends, or when [commitChanges] is
    called explicitly, the second copy becomes the first and the observers are told
    which public properties changed.  Observers may re-enter the object from their
    callbacks, so the model is parametric in what they do ([react]) and the recursion
    they cause takes fuel. *)

From S2P Require Import Prelude.
From Stdlib Require Import Floats.SpecFloat.

Module PageLoadState.

(** ** Data *)

(** A [WTF::String]; [None] is the null string. *)
Abbreviation String := (option string).
Definition isNull (s : String) : bool := match s with None => true | Some _ => false end.
Definition isEmpty (s : String) : bool := match s with None => true | Some s => bool_decide (s = EmptyString) end.

(** An IEEE double; [SFeqb] is the comparison [==]. *)
Abbreviation double := spec_float.
Definition double_0 : double := S754_zero false.
Definition double_1 : double := S754_finite false 4503599627370496 (-52).
(** 0.1, rounded to nearest. *)
Definition initialProgressValue : double := S754_finite false 7205759403792794 (-56).

Inductive State := Provisional | Committed | Finished.

Record PendingAPIRequest := mkRequest { navigationID : Z; requestURL : String }.
Definition noRequest : PendingAPIRequest := mkRequest 0 None.

Module Data.
Record Data := mkData {
  state : State;
  hasInsecureContent : bool;
  negotiatedLegacyTLS : bool;
  pendingAPIRequest : PendingAPIRequest;
  provisionalURL : String;
  url : String;
  unreachableURL : String;
  title : String;
  titleFromSafeBrowsingWarning : String;
  resourceDirectoryURL : String;
  canGoBack : bool;
  canGoForward : bool;
  estimatedProgress : double;
  networkRequestsInProgress : bool;
  certificateInfo : option nat                (* the object pointed to *)
}.
#[global] Instance eta_Data : Eta Data := fun r =>
  mkData (state r) (hasInsecureContent r) (negotiatedLegacyTLS r) (pendingAPIRequest r) (provisionalURL r) (url r)
    (unreachableURL r) (title r) (titleFromSafeBrowsingWarning r) (resourceDirectoryURL r) (canGoBack r)
    (canGoForward r) (estimatedProgress r) (networkRequestsInProgress r) (certificateInfo r).
Definition initial : Data :=
  mkData Finished false false noRequest None None None None None None false false double_0 false None.
End Data.
Import Data.

(** The public properties whose changes are announced. *)
Inductive Property :=
| CanGoBack | CanGoForward | Title | IsLoading | ActiveURL | HasOnlySecureContent
| NegotiatedLegacyTLS | EstimatedProgress | NetworkRequestsInProgress | CertificateInfo.
#[global] Instance Property_eq_dec : EqDecision Property.
Proof. solve_decision. Defined.

Inductive Callback :=
| WillChange (p : Property)
| DidChange (p : Property)
| WillChangeWebProcessIsResponsive
| DidChangeWebProcessIsResponsive
| DidSwapWebProcesses.

(** What a getter returns. *)
Inductive Value :=
| Bool (b : bool)
| Str (s : String)
| Double (d : double)
| Pointer (o : option nat).

(** The operations that need a transaction token. *)
Inductive Operation :=
| OpReset
| OpNegotiatedLegacyTLS
| OpSetPendingAPIRequest (request : PendingAPIRequest) (resourceDirectoryURL : String)
| OpClearPendingAPIRequest
| OpDidExplicitOpen (url : String)
| OpDidStartProvisionalLoad (url unreachableURL : String)
| OpDidReceiveServerRedirectForProvisionalLoad (url : String)
| OpDidFailProvisionalLoad
| OpDidCommitLoad (certificateInfo : nat) (hasInsecureContent usedLegacyTLS : bool)
| OpDidFinishLoad
| OpDidFailLoad
| OpDidSameDocumentNavigation (url : String)
| OpDidDisplayOrRunInsecureContent
| OpSetUnreachableURL (url : String)
| OpSetTitle (title : String)
| OpSetTitleFromSafeBrowsingWarning (title : String)
| OpSetCanGoBack (b : bool)
| OpSetCanGoForward (b : bool)
| OpDidStartProgress
| OpDidChangeProgress (value : double)
| OpDidFinishProgress
| OpSetNetworkRequestsInProgress (b : bool).

(** Everything a client, or an observer from its callback, can do. *)
Inductive Request :=
| Begin                                   (* a Transaction is constructed *)
| Mutate (op : Operation)                 (* an operation with a Token of the transaction *)
| End                                     (* a Transaction is destroyed *)
| CommitChanges
| AddObserver (o : nat)
| RemoveObserver (o : nat)
| SwapWebProcesses
| WillChangeResponsive
| DidChangeResponsive.

Inductive Event :=
| Called (o : nat) (c : Callback)         (* the callback of an observer *)
| PageIsLoadingChanged.                   (* m_webPageProxy.isLoadingChanged() *)

Record PageLoadState := mkPageLoadState {
  observers : list nat;
  committedState : Data;
  uncommittedState : Data;
  lastUnreachableURL : String;
  mayHaveUncommittedChanges : bool;
  outstandingTransactionCount : Z;        (* 32 bits *)
  (* what happened outside, for the specification: the calls made, and for each observer
     the value it read last, when it registered or in a "did change" callback *)
  calls : list Event;
  seen : nat -> Property -> Value
}.
#[global] Instance eta_PageLoadState : Eta PageLoadState := fun r =>
  mkPageLoadState (observers r) (committedState r) (uncommittedState r) (lastUnreachableURL r)
    (mayHaveUncommittedChanges r) (outstandingTransactionCount r) (calls r) (seen r).

Definition create : PageLoadState := mkPageLoadState [] initial initial None false 0 [] (fun _ _ => Bool false).

(** ** Operations on the uncommitted data *)

Definition reset (s : PageLoadState) : PageLoadState :=
  let u := uncommittedState s in
  let u := u <| state := Finished |> <| hasInsecureContent := false |> in
  let u := u <| pendingAPIRequest := noRequest |> <| provisionalURL := None |> <| url := None |> in
  let u := u <| unreachableURL := None |> in
  let u := u <| title := None |> <| titleFromSafeBrowsingWarning := None |> in
  let u := u <| estimatedProgress := double_0 |> <| networkRequestsInProgress := false |> in
  s <| lastUnreachableURL := None |> <| uncommittedState := u |>.

Definition negotiatedLegacyTLS (s : PageLoadState) : PageLoadState :=
  s <| uncommittedState := (uncommittedState s) <| Data.negotiatedLegacyTLS := true |> |>.

Definition setPendingAPIRequest (request : PendingAPIRequest) (directory : String) (s : PageLoadState) : PageLoadState :=
  s <| uncommittedState := (uncommittedState s) <| pendingAPIRequest := request |> <| resourceDirectoryURL := directory |> |>.

Definition clearPendingAPIRequest (s : PageLoadState) : PageLoadState :=
  s <| uncommittedState := (uncommittedState s) <| pendingAPIRequest := noRequest |> |>.

Definition didExplicitOpen (u : String) (s : PageLoadState) : PageLoadState :=
  s <| uncommittedState := (uncommittedState s) <| url := u |> <| provisionalURL := None |> |>.

Definition setUnreachableURL (unreachable : String) (s : PageLoadState) : PageLoadState :=
  let s := s <| lastUnreachableURL := unreachableURL (uncommittedState s) |> in
  s <| uncommittedState := (uncommittedState s) <| unreachableURL := unreachable |> |>.

Definition didStartProvisionalLoad (u unreachable : String) (s : PageLoadState) : PageLoadState :=
  let s := s <| uncommittedState := (uncommittedState s) <| state := Provisional |> |> in
  let s := s <| uncommittedState := (uncommittedState s) <| provisionalURL := u |> |> in
  setUnreachableURL unreachable s.

Definition didReceiveServerRedirectForProvisionalLoad (u : String) (s : PageLoadState) : PageLoadState :=
  s <| uncommittedState := (uncommittedState s) <| provisionalURL := u |> |>.

Definition didFailProvisionalLoad (s : PageLoadState) : PageLoadState :=
  let u := uncommittedState s in
  s <| uncommittedState := u <| state := Finished |> <| provisionalURL := None |>
                             <| unreachableURL := lastUnreachableURL s |> |>.

Definition didCommitLoad (certificate : nat) (insecure usedLegacyTLS : bool) (s : PageLoadState) : PageLoadState :=
  let u := uncommittedState s in
  let u := u <| state := Committed |> <| hasInsecureContent := insecure |> <| certificateInfo := Some certificate |> in
  let u := u <| url := provisionalURL u |> <| provisionalURL := None |> <| Data.negotiatedLegacyTLS := usedLegacyTLS |> in
  let u := u <| title := None |> <| titleFromSafeBrowsingWarning := None |> in
  s <| uncommittedState := u |>.

Definition didFinishLoad (s : PageLoadState) : PageLoadState :=
  s <| uncommittedState := (uncommittedState s) <| state := Finished |> |>.

Definition didFailLoad (s : PageLoadState) : PageLoadState :=
  s <| uncommittedState := (uncommittedState s) <| state := Finished |> |>.

Definition didSameDocumentNavigation (u : String) (s : PageLoadState) : PageLoadState :=
  s <| uncommittedState := (uncommittedState s) <| url := u |> |>.

Definition didDisplayOrRunInsecureContent (s : PageLoadState) : PageLoadState :=
  s <| uncommittedState := (uncommittedState s) <| hasInsecureContent := true |> |>.

Definition setTitle (t : String) (s : PageLoadState) : PageLoadState :=
  s <| uncommittedState := (uncommittedState s) <| title := t |> |>.

Definition setTitleFromSafeBrowsingWarning (t : String) (s : PageLoadState) : PageLoadState :=
  s <| uncommittedState := (uncommittedState s) <| titleFromSafeBrowsingWarning := t |> |>.

Definition setCanGoBack (b : bool) (s : PageLoadState) : PageLoadState :=
  s <| uncommittedState := (uncommittedState s) <| canGoBack := b |> |>.

Definition setCanGoForward (b : bool) (s : PageLoadState) : PageLoadState :=
  s <| uncommittedState := (uncommittedState s) <| canGoForward := b |> |>.

Definition didStartProgress (s : PageLoadState) : PageLoadState :=
  s <| uncommittedState := (uncommittedState s) <| estimatedProgress := initialProgressValue |> |>.

Definition didChangeProgress (value : double) (s : PageLoadState) : PageLoadState :=
  s <| uncommittedState := (uncommittedState s) <| estimatedProgress := value |> |>.

Definition didFinishProgress (s : PageLoadState) : PageLoadState :=
  s <| uncommittedState := (uncommittedState s) <| estimatedProgress := double_1 |> |>.

Definition setNetworkRequestsInProgress (b : bool) (s : PageLoadState) : PageLoadState :=
  s <| uncommittedState := (uncommittedState s) <| networkRequestsInProgress := b |> |>.

(** Making the token for the call records that there may be something to commit. *)
Definition Token (s : PageLoadState) : PageLoadState := s <| mayHaveUncommittedChanges := true |>.

Definition mutate (op : Operation) (s : PageLoadState) : PageLoadState :=
  let s := Token s in
  match op with
  | OpReset => reset s
  | OpNegotiatedLegacyTLS => negotiatedLegacyTLS s
  | OpSetPendingAPIRequest r d => setPendingAPIRequest r d s
  | OpClearPendingAPIRequest => clearPendingAPIRequest s
  | OpDidExplicitOpen u => didExplicitOpen u s
  | OpDidStartProvisionalLoad u n => didStartProvisionalLoad u n s
  | OpDidReceiveServerRedirectForProvisionalLoad u => didReceiveServerRedirectForProvisionalLoad u s
  | OpDidFailProvisionalLoad => didFailProvisionalLoad s
  | OpDidCommitLoad c i l => didCommitLoad c i l s
  | OpDidFinishLoad => didFinishLoad s
  | OpDidFailLoad => didFailLoad s
  | OpDidSameDocumentNavigation u => didSameDocumentNavigation u s
  | OpDidDisplayOrRunInsecureContent => didDisplayOrRunInsecureContent s
  | OpSetUnreachableURL u => setUnreachableURL u s
  | OpSetTitle t => setTitle t s
  | OpSetTitleFromSafeBrowsingWarning t => setTitleFromSafeBrowsingWarning t s
  | OpSetCanGoBack b => setCanGoBack b s
  | OpSetCanGoForward b => setCanGoForward b s
  | OpDidStartProgress => didStartProgress s
  | OpDidChangeProgress v => didChangeProgress v s
  | OpDidFinishProgress => didFinishProgress s
  | OpSetNetworkRequestsInProgress b => setNetworkRequestsInProgress b s
  end.

(** ** Getters *)

Section page.
(** [WTF::protocolIs]. *)
Variable protocolIs : String -> string -> bool.
(** What an observer does in a callback.  It may look at the state, which includes all
    calls made so far, so any deterministic behaviour is of this form. *)
Variable react : nat -> Callback -> PageLoadState -> list Request.

Definition isLoading_data (d : Data) : bool :=
  if negb (isNull (requestURL (pendingAPIRequest d))) then true else
  match state d with
  | Provisional | Committed => true
  | Finished => false
  end.

Definition activeURL_data (d : Data) : String :=
  if negb (isNull (requestURL (pendingAPIRequest d))) then requestURL (pendingAPIRequest d) else
  if negb (isEmpty (unreachableURL d)) then unreachableURL d else
  match state d with
  | Provisional => provisionalURL d
  | Committed | Finished => url d
  end.

Definition hasOnlySecureContent_data (d : Data) : bool :=
  if hasInsecureContent d then false else
  match state d with
  | Provisional => protocolIs (provisionalURL d) "https"
  | _ => protocolIs (url d) "https"
  end.

Definition estimatedProgress_data (d : Data) : double :=
  if negb (isNull (requestURL (pendingAPIRequest d))) then initialProgressValue else Data.estimatedProgress d.

Definition isLoading (s : PageLoadState) : bool := isLoading_data (committedState s).
Definition hasUncommittedLoad (s : PageLoadState) : bool := isLoading_data (uncommittedState s).
Definition activeURL (s : PageLoadState) : String := activeURL_data (committedState s).
Definition hasOnlySecureContent (s : PageLoadState) : bool := hasOnlySecureContent_data (committedState s).
Definition hasNegotiatedLegacyTLS (s : PageLoadState) : bool := Data.negotiatedLegacyTLS (committedState s).
Definition estimatedProgress (s : PageLoadState) : double := estimatedProgress_data (committedState s).
Definition pendingAPIRequestURL (s : PageLoadState) : String := requestURL (pendingAPIRequest (committedState s)).
Definition resourceDirectoryURL (s : PageLoadState) : String := Data.resourceDirectoryURL (committedState s).
Definition canGoBack (s : PageLoadState) : bool := Data.canGoBack (committedState s).
Definition canGoForward (s : PageLoadState) : bool := Data.canGoForward (committedState s).

Definition title (s : PageLoadState) : String :=
  let c := committedState s in
  if negb (isNull (titleFromSafeBrowsingWarning c)) then titleFromSafeBrowsingWarning c else Data.title c.

(** What the getter of a property returns. *)
Definition read (p : Property) (s : PageLoadState) : Value :=
  match p with
  | CanGoBack => Bool (canGoBack s)
  | CanGoForward => Bool (canGoForward s)
  | Title => Str (title s)
  | IsLoading => Bool (isLoading s)
  | ActiveURL => Str (activeURL s)
  | HasOnlySecureContent => Bool (hasOnlySecureContent s)
  | NegotiatedLegacyTLS => Bool (hasNegotiatedLegacyTLS s)
  | EstimatedProgress => Double (estimatedProgress s)
  | NetworkRequestsInProgress => Bool (networkRequestsInProgress (committedState s))
  | CertificateInfo => Pointer (certificateInfo (committedState s))
  end.

(** ** Observers *)

Definition addObserver (o : nat) (s : PageLoadState) : PageLoadState :=
  s <| observers := observers s ++ [o] |> <| seen := upd o (fun p => read p s) (seen s) |>.

Fixpoint removeFirst (o : nat) (l : list nat) : list nat :=
  match l with
  | [] => []
  | o' :: l' => if decide (o' = o) then l' else o' :: removeFirst o l'
  end.

Definition removeObserver (o : nat) (s : PageLoadState) : PageLoadState :=
  s <| observers := removeFirst o (observers s) |>.

(** The call itself: in a "did change" callback the observer reads the property again. *)
Definition notify (o : nat) (c : Callback) (s : PageLoadState) : PageLoadState :=
  let s := s <| calls := calls s ++ [Called o c] |> in
  match c with
  | DidChange p => s <| seen := upd o (fun p' => if decide (p' = p) then read p s else seen s o p') (seen s) |>
  | _ => s
  end.

Section commit.
(** Runs the requests an observer makes. *)
Variable handle : list Request -> PageLoadState -> outcome PageLoadState.
Local Open Scope outcome_scope.

Fixpoint callEach (c : Callback) (observerCopy : list nat) (s : PageLoadState) : outcome PageLoadState :=
  match observerCopy with
  | [] => Done s
  | o :: rest =>
      if decide (o ∈ observers s) then
        let s1 := notify o c s in
        let! s2 := handle (react o c s1) s1 in
        callEach c rest s2
      else callEach c rest s
  end.

Definition callObserverCallback (c : Callback) (s : PageLoadState) : outcome PageLoadState :=
  callEach c (observers s) s.

Definition differs (p : Property) (c u : Data) : bool :=
  match p with
  | CanGoBack => negb (Bool.eqb (Data.canGoBack c) (Data.canGoBack u))
  | CanGoForward => negb (Bool.eqb (Data.canGoForward c) (Data.canGoForward u))
  | Title => bool_decide (Data.title c <> Data.title u)
             || bool_decide (titleFromSafeBrowsingWarning c <> titleFromSafeBrowsingWarning u)
  | IsLoading => negb (Bool.eqb (isLoading_data c) (isLoading_data u))
  | ActiveURL => bool_decide (activeURL_data c <> activeURL_data u)
  | HasOnlySecureContent => negb (Bool.eqb (hasOnlySecureContent_data c) (hasOnlySecureContent_data u))
  | NegotiatedLegacyTLS => negb (Bool.eqb (Data.negotiatedLegacyTLS c) (Data.negotiatedLegacyTLS u))
  | EstimatedProgress => negb (SFeqb (estimatedProgress_data c) (estimatedProgress_data u))
  | NetworkRequestsInProgress => negb (Bool.eqb (networkRequestsInProgress c) (networkRequestsInProgress u))
  | CertificateInfo => bool_decide (certificateInfo c <> certificateInfo u)
  end.

(** The order of the "will change" calls in the source, and that of the "did change"
    calls. *)
Definition willOrder : list Property :=
  [CanGoBack; CanGoForward; Title; IsLoading; ActiveURL; HasOnlySecureContent; NegotiatedLegacyTLS;
   EstimatedProgress; NetworkRequestsInProgress; CertificateInfo].
Definition didOrder : list Property :=
  [CertificateInfo; NetworkRequestsInProgress; EstimatedProgress; HasOnlySecureContent; NegotiatedLegacyTLS;
   ActiveURL; IsLoading; Title; CanGoForward; CanGoBack].

Fixpoint callChanged (callback : Property -> Callback) (changed : Property -> bool) (order : list Property)
    (s : PageLoadState) : outcome PageLoadState :=
  match order with
  | [] => Done s
  | p :: rest =>
      let! s := (if changed p then callObserverCallback (callback p) s else Done s) in
      callChanged callback changed rest s
  end.

Definition commitChanges (s : PageLoadState) : outcome PageLoadState :=
  if negb (mayHaveUncommittedChanges s) then Done s else
  let s := s <| mayHaveUncommittedChanges := false |> in
  let changed p := differs p (committedState s) (uncommittedState s) in
  let! s := callChanged WillChange changed willOrder s in
  let s := s <| committedState := uncommittedState s |> in
  let s := s <| calls := calls s ++ [PageIsLoadingChanged] |> in
  callChanged DidChange changed didOrder s.

Definition beginTransaction (s : PageLoadState) : PageLoadState :=
  s <| outstandingTransactionCount := wrap 32 (outstandingTransactionCount s + 1) |>.

Definition endTransaction (s : PageLoadState) : outcome PageLoadState :=
  let s := s <| outstandingTransactionCount := wrap 32 (outstandingTransactionCount s - 1) |> in
  if outstandingTransactionCount s =? 0 then commitChanges s else Done s.

Definition didSwapWebProcesses (s : PageLoadState) : outcome PageLoadState := callObserverCallback DidSwapWebProcesses s.
Definition willChangeProcessIsResponsive (s : PageLoadState) : outcome PageLoadState :=
  callObserverCallback WillChangeWebProcessIsResponsive s.
Definition didChangeProcessIsResponsive (s : PageLoadState) : outcome PageLoadState :=
  callObserverCallback DidChangeWebProcessIsResponsive s.

Definition perform (r : Request) (s : PageLoadState) : outcome PageLoadState :=
  match r with
  | Begin => Done (beginTransaction s)
  | Mutate op => Done (mutate op s)
  | End => endTransaction s
  | CommitChanges => commitChanges s
  | AddObserver o => Done (addObserver o s)
  | RemoveObserver o => Done (removeObserver o s)
  | SwapWebProcesses => didSwapWebProcesses s
  | WillChangeResponsive => willChangeProcessIsResponsive s
  | DidChangeResponsive => didChangeProcessIsResponsive s
  end.

Fixpoint performAll (rs : list Request) (s : PageLoadState) : outcome PageLoadState :=
  match rs with
  | [] => Done s
  | r :: rs' => let! s := perform r s in performAll rs' s
  end.
End commit.

(** [fuel] bounds how deeply observers re-enter from within callbacks. *)
Fixpoint run (fuel : nat) (rs : list Request) (s : PageLoadState) : outcome PageLoadState :=
  match fuel with
  | O => Diverge
  | S n => performAll (run n) rs s
  end.

(** ** What observers see *)

(** Equal, or two doubles that compare equal (the zeros). *)
Definition same (v w : Value) : Prop :=
  v = w \/ exists d e, v = Double d /\ w = Double e /\ SFeqb d e = true.

(** If registered, the observer last read the value the getter returns now. *)
Definition fresh (s : PageLoadState) (o : nat) (p : Property) : Prop :=
  o ∈ observers s -> same (seen s o p) (read p s).

(** Transactions are begun and ended in nested fashion, at most [D] deep, and operations
    happen inside them. *)
Fixpoint lexical (D d : Z) (rs : list Request) : bool :=
  match rs with
  | [] => d =? 0
  | Begin :: rs' => (d <? D) && lexical D (d + 1) rs'
  | End :: rs' => (0 <? d) && lexical D (d - 1) rs'
  | Mutate _ :: rs' => (0 <? d) && lexical D d rs'
  | _ :: rs' => lexical D d rs'
  end.

(** Requests that modify no data. *)
Definition harmless (r : Request) : bool :=
  match r with
  | Mutate _ | SwapWebProcesses | WillChangeResponsive | DidChangeResponsive => false
  | _ => true
  end.

(** Observers use transactions properly, and told that something will change while a
    transaction is outstanding they change nothing themselves. *)
Definition considerate (D : Z) : Prop :=
  forall o c s, lexical D 0 (react o c s) = true /\
    forall p, c = WillChange p -> 0 < outstandingTransactionCount s -> forallb harmless (react o c s) = true.

(** Observers stop making requests after [k] callbacks. *)
Definition settles (k : nat) : Prop := forall o c s, react o c s <> [] -> (length (calls s) < k)%nat.

Lemma read_ext p s s' : committedState s' = committedState s -> read p s' = read p s.
Proof.
  intros E. destruct p; cbn [read]; unfold canGoBack, canGoForward, title, isLoading, activeURL, hasOnlySecureContent,
    hasNegotiatedLegacyTLS, estimatedProgress; by rewrite ?E.
Qed.

Lemma SFeqb_true d e : SFeqb d e = true -> d = e \/ exists a b, d = S754_zero a /\ e = S754_zero b.
Proof.
  unfold SFeqb. destruct d as [a|a| |a m x], e as [b|b| |b n y]; simpl; intros E; try done; eauto;
    destruct a, b; try done; eauto.
  - left. destruct (Z.compare_spec x y) as [->| |]; try done. cbn in E.
    destruct (Pos.compare_cont Eq m n) eqn:C; try done. apply Pos.compare_eq in C as ->. done.
  - left. destruct (Z.compare_spec x y) as [->| |]; try done. cbn in E.
    destruct (Pos.compare_cont Eq m n) eqn:C; try done. apply Pos.compare_eq in C as ->. done.
Qed.

Lemma same_trans u v w : same u v -> same v w -> same u w.
Proof.
  intros [->|(d & e & -> & -> & E)]; [done|]. intros [<-|(d' & e' & [= <-] & -> & E')]; [right; eauto|].
  right. exists d, e'. split_and!; [done..|].
  destruct (SFeqb_true _ _ E) as [->|(a & b & -> & ->)]; [done|].
  destruct (SFeqb_true _ _ E') as [<-|(a' & b' & _ & ->)]; done.
Qed.

(** A property not announced reads the same before and after. *)
Lemma not_differs p s s' :
  differs p (committedState s) (committedState s') = false -> same (read p s) (read p s').
Proof.
  assert (Hb : forall b b', negb (Bool.eqb b b') = false -> same (Bool b) (Bool b')).
  { intros b b' E. left. f_equal. by apply Bool.eqb_prop, negb_false_iff. }
  destruct p; cbn [differs read]; try apply Hb; intros E; try (apply bool_decide_eq_false, dec_stable in E; left; congruence).
  - apply orb_false_iff in E as [E1 E2]. apply bool_decide_eq_false, dec_stable in E1, E2.
    left. unfold title. by rewrite E1, E2.
  - left. unfold activeURL. apply bool_decide_eq_false, dec_stable in E. by rewrite E.
  - right. do 2 eexists. split_and!; [done..|]. by apply negb_false_iff.
Qed.

(** The part of the state callbacks do not touch by themselves. *)
Definition core (s : PageLoadState) : list nat * Data * Data * bool * Z :=
  (observers s, committedState s, uncommittedState s, mayHaveUncommittedChanges s, outstandingTransactionCount s).

Lemma notify_core o c s : core (notify o c s) = core s.
Proof. by destruct c. Qed.

Lemma notify_seen o p s o' p' :
  seen (notify o (DidChange p) s) o' p' = if decide (o' = o /\ p' = p) then read p s else seen s o' p'.
Proof.
  change (upd o (fun p' => if decide (p' = p) then read p (s <| calls := calls s ++ [Called o (DidChange p)] |>)
    else seen s o p') (seen s) o' p' = if decide (o' = o /\ p' = p) then read p s else seen s o' p').
  destruct (decide (o' = o)) as [->|].
  - rewrite upd_same. repeat case_decide; tauto.
  - rewrite upd_other by done. rewrite decide_False by tauto. done.
Qed.

Lemma notify_fresh o c s o' p' : fresh s o' p' -> fresh (notify o c s) o' p'.
Proof.
  unfold fresh. pose proof (notify_core o c s) as E. injection E as Eo Ec _ _ _. rewrite Eo, (read_ext _ _ _ Ec).
  intros Hf Hin. specialize (Hf Hin). destruct c as [p|p| | |]; try exact Hf. rewrite notify_seen.
  case_decide as Hd; [|done]. destruct Hd as [_ ->]. by left.
Qed.

Lemma notify_reads o p s : fresh (notify o (DidChange p) s) o p.
Proof. intros _. left. by rewrite notify_seen, decide_True. Qed.

(** ** Invariants of a run *)

(** Outside transactions nothing is left to commit. *)
Definition idle (s : PageLoadState) : Prop := outstandingTransactionCount s = 0 -> mayHaveUncommittedChanges s = false.

(** Relative to two copies of the data: they have not been touched, or there may be
    something to commit, or the copies agree. *)
Definition accounted (c0 u0 : Data) (s : PageLoadState) : Prop :=
  (committedState s = c0 /\ uncommittedState s = u0) \/ mayHaveUncommittedChanges s = true \/
  committedState s = uncommittedState s.

(** What holds between the states before and after requests that leave as many
    transactions outstanding as they found, up to [k]. *)
Record segment (k : Z) (s s' : PageLoadState) : Prop := mkSegment {
  seg_count : outstandingTransactionCount s' = outstandingTransactionCount s + k;
  seg_idle : idle s -> idle s';
  seg_fresh o p : fresh s o p -> fresh s' o p;
  seg_accounted c0 u0 : idle s -> accounted c0 u0 s -> accounted c0 u0 s'
}.

Lemma segment_refl s : segment 0 s s.
Proof. split; try done. lia. Qed.

Lemma segment_trans k k' s s' s'' : segment k s s' -> segment k' s' s'' -> segment (k + k') s s''.
Proof. intros [] []. split; try lia; eauto. Qed.

Lemma segment_core s s' : core s' = core s -> seen s' = seen s -> segment 0 s s'.
Proof.
  intros E Es. injection E as Eo Ec Eu Em Et. split.
  - lia.
  - unfold idle. by rewrite Em, Et.
  - unfold fresh. intros o p. by rewrite Eo, Es, (read_ext _ _ _ Ec).
  - unfold accounted. intros. by rewrite Ec, Eu, Em.
Qed.

Lemma segment_notify o c s : segment 0 s (notify o c s).
Proof.
  pose proof (notify_core o c s) as E. injection E as Eo Ec Eu Em Et. split.
  - lia.
  - unfold idle. by rewrite Em, Et.
  - apply notify_fresh.
  - unfold accounted. intros. by rewrite Ec, Eu, Em.
Qed.

Section invariants.
Variable D : Z.
Variable considerateObservers : considerate D.

(** What is assumed of the requests observers make, with at most [limit] transactions
    outstanding before them. *)
Definition wellHandled (limit : Z) (handle : list Request -> PageLoadState -> outcome PageLoadState) : Prop :=
  forall rs s s', lexical D 0 rs = true -> 0 <= outstandingTransactionCount s <= limit ->
    handle rs s = Done s' -> segment 0 s s'.

Section callbacks.
Variable limit : Z.
Variable handle : list Request -> PageLoadState -> outcome PageLoadState.
Variable handleOk : wellHandled limit handle.

Lemma callEach_segment c copy s s' :
  0 <= outstandingTransactionCount s <= limit -> callEach handle c copy s = Done s' -> segment 0 s s'.
Proof.
  revert s. induction copy as [|o copy IH]; intros s Hl; cbn [callEach].
  { intros [= <-]. apply segment_refl. }
  case_decide; [|by apply IH]. destruct (handle _ _) as [s2| | |] eqn:E; try done. cbn [outcome_bind]. intros Hr.
  pose proof (segment_notify o c s) as H1. pose proof (seg_count _ _ _ H1).
  assert (H2 : segment 0 (notify o c s) s2).
  { apply handleOk in E; [done| |lia]. apply considerateObservers. }
  pose proof (seg_count _ _ _ H2). apply IH in Hr; [|lia]. apply (segment_trans 0 0 _ s2); [|done].
  by apply (segment_trans 0 0 _ (notify o c s)).
Qed.

(** After the "did change" callback every observer has read the property. *)
Lemma callEach_reads p copy s s' o :
  0 <= outstandingTransactionCount s <= limit -> callEach handle (DidChange p) copy s = Done s' ->
  o ∈ copy \/ fresh s o p -> fresh s' o p.
Proof.
  revert s. induction copy as [|o1 copy IH]; intros s Hl; cbn [callEach].
  { intros [= <-] [Hin|Hf]; [by apply elem_of_nil in Hin|done]. }
  rewrite elem_of_cons. case_decide as Hin.
  - destruct (handle _ _) as [s2| | |] eqn:E; try done. cbn [outcome_bind]. intros Hr Ho.
    pose proof (segment_notify o1 (DidChange p) s) as H1. pose proof (seg_count _ _ _ H1).
    apply handleOk in E; [|apply considerateObservers|lia]. pose proof (seg_count _ _ _ E).
    apply (IH s2); [lia|done|]. destruct Ho as [[->|]|Hf]; [|by left|]; right; apply (seg_fresh _ _ _ E).
    + apply notify_reads.
    + by apply notify_fresh.
  - intros Hr Ho. apply (IH s); [done..|]. destruct Ho as [[->|]|]; [right; by intros ?|by left|by right].
Qed.

Lemma callChanged_segment callback changed order s s' :
  0 <= outstandingTransactionCount s <= limit -> callChanged handle callback changed order s = Done s' -> segment 0 s s'.
Proof.
  revert s. induction order as [|p order IH]; intros s Hl; cbn [callChanged].
  { intros [= <-]. apply segment_refl. }
  destruct (changed p); [|by apply IH]. destruct (callObserverCallback _ _ _) as [s2| | |] eqn:E; try done.
  cbn [outcome_bind]. intros Hr. apply callEach_segment in E; [|done]. pose proof (seg_count _ _ _ E).
  apply (segment_trans 0 0 _ s2); [done|]. apply IH; [lia|done].
Qed.

Lemma callChanged_reads changed order s s' o p :
  0 <= outstandingTransactionCount s <= limit -> callChanged handle DidChange changed order s = Done s' ->
  (p ∈ order /\ changed p = true) \/ fresh s o p -> fresh s' o p.
Proof.
  revert s. induction order as [|p1 order IH]; intros s Hl; cbn [callChanged].
  { intros [= <-] [[Hin _]|Hf]; [by apply elem_of_nil in Hin|done]. }
  rewrite elem_of_cons. destruct (changed p1) eqn:Ep.
  - destruct (callObserverCallback _ _ _) as [s2| | |] eqn:E; try done. cbn [outcome_bind]. intros Hr Ho.
    pose proof (callEach_segment _ _ _ _ Hl E) as Hs. pose proof (seg_count _ _ _ Hs).
    apply (IH s2); [lia|done|]. destruct Ho as [[[->|Hin] Hc]|Hf]; [|by left|].
    + right. apply (callEach_reads _ _ _ _ o Hl E). destruct (decide (o ∈ observers s)); [by left|right; by intros ?].
    + right. by apply (seg_fresh _ _ _ Hs).
  - intros Hr Ho. apply (IH s); [done..|]. destruct Ho as [[[->|Hin] Hc]|Hf]; [congruence|by left|by right].
Qed.
End callbacks.

(** *** Committing *)

(** The copies are untouched and there is nothing to commit. *)
Definition untouched (s s' : PageLoadState) : Prop :=
  committedState s' = committedState s /\ uncommittedState s' = uncommittedState s /\
  mayHaveUncommittedChanges s' = false.

Lemma harmless_performAll h rs s s' :
  forallb harmless rs = true -> mayHaveUncommittedChanges s = false -> performAll h rs s = Done s' -> untouched s s'.
Proof.
  revert s. induction rs as [|r rs IH]; intros s; cbn [forallb performAll].
  { by intros _ Hm [= <-]. }
  intros [Hr Hrs]%andb_true_iff Hm.
  assert (E : exists s1, perform h r s = Done s1 /\ untouched s s1).
  { destruct r; try done; cbn [perform]; try (eexists; split; [reflexivity|by split_and!]).
    - unfold endTransaction. cbn [outstandingTransactionCount]. destruct (_ =? 0); [|by eexists].
      unfold commitChanges. simpl. rewrite Hm. by eexists.
    - unfold commitChanges. rewrite Hm. by eexists. }
  destruct E as (s1 & -> & Hc & Hu & Hm1). cbn [outcome_bind]. intros Hp.
  destruct (IH _ Hrs Hm1 Hp) as (? & ? & ?). split_and!; congruence.
Qed.

(** The two phases agree on what a commit is if observers leave the data alone in the
    first or commit their own changes. *)
Definition phased (s s' : PageLoadState) : Prop :=
  untouched s s' \/ committedState s' = uncommittedState s'.

Section committing.
Variable n : nat.
Variable limit : Z.
Variable handleOk : wellHandled limit (run n).

Lemma callEach_untouched p copy s s' :
  0 < outstandingTransactionCount s <= limit -> mayHaveUncommittedChanges s = false ->
  callEach (run n) (WillChange p) copy s = Done s' -> untouched s s'.
Proof.
  revert s. induction copy as [|o copy IH]; intros s Hl Hm; cbn [callEach].
  { by intros [= <-]. }
  case_decide; [|by apply IH]. destruct (run n _ _) as [s2| | |] eqn:E; try done. cbn [outcome_bind]. intros Hr.
  pose proof (segment_notify o (WillChange p) s) as H1. pose proof (seg_count _ _ _ H1) as Hc1.
  destruct (considerateObservers o (WillChange p) (notify o (WillChange p) s)) as [Hlex Hh].
  assert (Hu : untouched s s2).
  { destruct n; [done|]. refine (harmless_performAll _ _ (notify o (WillChange p) s) _ _ Hm E). apply (Hh p); [done|lia]. }
  apply handleOk in E; [|done|lia]. pose proof (seg_count _ _ _ E). destruct Hu as (? & ? & Hm2).
  destruct (IH s2) as (? & ? & ?); [lia|done|done|]. split_and!; [congruence|congruence|done].
Qed.

Lemma callChanged_untouched changed order s s' :
  0 < outstandingTransactionCount s <= limit -> mayHaveUncommittedChanges s = false ->
  callChanged (run n) WillChange changed order s = Done s' -> untouched s s'.
Proof.
  revert s. induction order as [|p order IH]; intros s Hl Hm; cbn [callChanged].
  { by intros [= <-]. }
  destruct (changed p); [|by apply IH]. destruct (callObserverCallback _ _ _) as [s2| | |] eqn:E; try done.
  cbn [outcome_bind]. intros Hr. pose proof (callEach_untouched _ _ _ _ Hl Hm E) as (? & ? & Hm2).
  apply (callEach_segment limit) in E; [|done|lia]. pose proof (seg_count _ _ _ E).
  destruct (IH s2) as (? & ? & ?); [lia|done|done|]. split_and!; [congruence|congruence|done].
Qed.

Lemma will_phase changed s s' :
  0 <= outstandingTransactionCount s <= limit -> mayHaveUncommittedChanges s = false ->
  callChanged (run n) WillChange changed willOrder s = Done s' -> phased s s'.
Proof.
  intros Hl Hm E. destruct (decide (outstandingTransactionCount s = 0)) as [H0|H0].
  - apply (callChanged_segment limit) in E as [Hc Hi _ Ha]; [|done..].
    assert (Hid : idle s) by (by intros _). specialize (Hi Hid ltac:(lia)).
    destruct (Ha (committedState s) (uncommittedState s) Hid ltac:(by left)) as [[? ?]|[?|?]];
      [left; by split_and!|congruence|by right].
  - left. apply callChanged_untouched in E; [done|lia|done].
Qed.

Lemma commitChanges_post s s' :
  0 <= outstandingTransactionCount s <= limit -> commitChanges (run n) s = Done s' ->
  outstandingTransactionCount s' = outstandingTransactionCount s /\ idle s' /\
  (forall o p, fresh s o p -> fresh s' o p) /\ (forall c0 u0, accounted c0 u0 s -> accounted c0 u0 s').
Proof.
  intros Hl. unfold commitChanges. destruct (mayHaveUncommittedChanges s) eqn:Hm; cbn [negb].
  2:{ intros [= <-]. split_and!; try done; by intros _. }
  set (s0 := s <| mayHaveUncommittedChanges := false |>).
  set (changed := fun p => differs p (committedState s0) (uncommittedState s0)).
  destruct (callChanged _ _ _ _ s0) as [s1| | |] eqn:E1; try done. cbn [outcome_bind].
  set (s2 := s1 <| committedState := uncommittedState s1 |> <| calls := calls (s1 <| committedState := uncommittedState s1 |>) ++ [PageIsLoadingChanged] |>).
  intros E2. assert (H1 : segment 0 s0 s1) by (eapply callChanged_segment; [exact handleOk|done|exact E1]).
  assert (Hp : phased s0 s1) by (eapply will_phase; [done|done|exact E1]).
  assert (Hc : outstandingTransactionCount s2 = outstandingTransactionCount s).
  { change (outstandingTransactionCount s1 = outstandingTransactionCount s).
    rewrite (seg_count _ _ _ H1). change (outstandingTransactionCount s0) with (outstandingTransactionCount s). lia. }
  assert (H2 : segment 0 s2 s') by (eapply callChanged_segment; [exact handleOk|by rewrite Hc|exact E2]).
  assert (Hi2 : idle s2) by (exact (seg_idle _ _ _ H1 (fun _ => eq_refl))).
  split_and!.
  - rewrite (seg_count _ _ _ H2). lia.
  - by apply (seg_idle _ _ _ H2).
  - intros o p Hf. eapply callChanged_reads; [exact handleOk|by rewrite Hc|exact E2|].
    destruct (changed p) eqn:Ep; [left; split; [destruct p; repeat constructor|done]|right].
    intros Hin. pose proof (seg_fresh _ _ _ H1 o p Hf Hin) as Hs1. change (same (seen s1 o p) (read p s2)).
    destruct Hp as [(Hc1 & Hu1 & _)|Heq]; [|rewrite (read_ext p s1 s2); [done|exact (eq_sym Heq)]].
    apply (same_trans _ (read p s1)); [done|]. apply not_differs.
    change (committedState s2) with (uncommittedState s1). by rewrite Hc1, Hu1.
  - intros c0 u0 _. apply (seg_accounted _ _ _ H2); [done|]. right. by right.
Qed.
End committing.

(** *** Requests *)

Lemma mutate_fields op s :
  observers (mutate op s) = observers s /\ committedState (mutate op s) = committedState s /\
  mayHaveUncommittedChanges (mutate op s) = true /\
  outstandingTransactionCount (mutate op s) = outstandingTransactionCount s /\
  seen (mutate op s) = seen s /\ calls (mutate op s) = calls s.
Proof. by destruct op. Qed.

Lemma segment_mutate op s : 0 < outstandingTransactionCount s -> segment 0 s (mutate op s).
Proof.
  destruct (mutate_fields op s) as (Eo & Ec & Em & Et & Es & _). intros Hp. split.
  - lia.
  - intros _ H. lia.
  - unfold fresh. intros o p. by rewrite Eo, Es, (read_ext _ _ _ Ec).
  - intros. right. by left.
Qed.

Lemma removeFirst_subseteq o o' l : o' ∈ removeFirst o l -> o' ∈ l.
Proof.
  induction l as [|x l IH]; simpl; [done|]. case_decide; [intros; by right|].
  rewrite !elem_of_cons. intros [|]; auto.
Qed.

Lemma segment_observers r h s s' :
  (exists o, r = AddObserver o \/ r = RemoveObserver o) -> perform h r s = Done s' -> segment 0 s s'.
Proof.
  intros (o & [->| ->]) [= <-]; (split; [cbn; lia|done| |done]); intros o' p' Hf; unfold fresh in *.
  - intros Hin. change (same (upd o (fun p => read p s) (seen s) o' p') (read p' s)).
    destruct (decide (o' = o)) as [->|]; [rewrite upd_same; by left|rewrite upd_other by done].
    apply Hf. apply elem_of_app in Hin as [?|Hin%list_elem_of_singleton]; done.
  - intros Hin%removeFirst_subseteq. by apply Hf.
Qed.

Lemma segment_begin s :
  outstandingTransactionCount s + 1 < 2 ^ 32 -> 0 <= outstandingTransactionCount s -> segment 1 s (beginTransaction s).
Proof.
  intros Hb Hp. assert (Hc : outstandingTransactionCount (beginTransaction s) = outstandingTransactionCount s + 1)
    by (apply wrap_small; unfold in_width; lia).
  split; [done|intros _ H; lia|by intros|by intros].
Qed.

Lemma segment_end n limit s s' :
  wellHandled limit (run n) -> 0 < outstandingTransactionCount s <= limit + 1 -> outstandingTransactionCount s < 2 ^ 32 ->
  endTransaction (run n) s = Done s' -> segment (-1) s s'.
Proof.
  intros Hok Hl Hb. unfold endTransaction.
  assert (Hw : wrap 32 (outstandingTransactionCount s - 1) = outstandingTransactionCount s - 1)
    by (apply wrap_small; unfold in_width; lia).
  set (s1 := s <| outstandingTransactionCount := _ |>).
  assert (Hc : outstandingTransactionCount s1 = outstandingTransactionCount s - 1) by exact Hw.
  rewrite Hc. destruct (_ =? 0) eqn:E; zbool.
  - intros Hr. destruct (commitChanges_post n limit Hok s1 s' ltac:(lia) Hr) as (C & I & F & A). by split; [lia|..]; auto.
  - intros [= <-]. split; [lia|intros _ H; lia|by intros|by intros].
Qed.

(** A list of requests that starts inside [d] nested transactions and ends them. *)
Lemma performAll_segment n rs d s s' :
  wellHandled (2 ^ 32 - 1 - D * Z.of_nat n) (run n) -> lexical D d rs = true -> 0 <= d <= D ->
  d <= outstandingTransactionCount s -> outstandingTransactionCount s - d + D <= 2 ^ 32 - 1 - D * Z.of_nat n ->
  performAll (run n) rs s = Done s' -> segment (- d) s s'.
Proof.
  intros Hok. revert d s. induction rs as [|r rs IH]; intros d s; cbn [lexical performAll].
  { intros Hd _ _ _ [= <-]. zbool. subst d. apply segment_refl. }
  intros Hlex Hd Hl Hb. destruct (perform (run n) r s) as [s1| | |] eqn:E; try done. cbn [outcome_bind]. intros Hr.
  assert (Step : exists k, segment k s s1 /\ lexical D (d + k) rs = true /\ 0 <= d + k <= D).
  { assert (0 <= Z.of_nat n * D) by nia.
    destruct r; cbn [perform] in E; zbool.
    - injection E as <-. exists 1. split_and!; [apply segment_begin; lia|done|lia..].
    - injection E as <-. exists 0. rewrite Z.add_0_r. split_and!; [apply segment_mutate; lia|done|lia..].
    - exists (-1). split_and!; [|done|lia..]. by apply (segment_end n _ s s1 Hok); [lia..|].
    - exists 0. rewrite Z.add_0_r. split_and!; [|done|lia..].
      destruct (commitChanges_post n _ Hok s s1 ltac:(lia) E) as (C & I & F & A). by split; [lia|..]; auto.
    - exists 0. rewrite Z.add_0_r. split_and!; [|done|lia..]. apply (segment_observers (AddObserver o) (run n)); eauto.
    - exists 0. rewrite Z.add_0_r. split_and!; [|done|lia..]. apply (segment_observers (RemoveObserver o) (run n)); eauto.
    - exists 0. rewrite Z.add_0_r. split_and!; [|done|lia..]. exact (callEach_segment _ _ Hok _ _ s s1 ltac:(lia) E).
    - exists 0. rewrite Z.add_0_r. split_and!; [|done|lia..]. exact (callEach_segment _ _ Hok _ _ s s1 ltac:(lia) E).
    - exists 0. rewrite Z.add_0_r. split_and!; [|done|lia..]. exact (callEach_segment _ _ Hok _ _ s s1 ltac:(lia) E). }
  destruct Step as (k & Hs & Hlex' & Hd'). pose proof (seg_count _ _ _ Hs).
  replace (- d) with (k + - (d + k)) by lia. apply (segment_trans _ _ _ s1); [done|].
  apply IH; [done|lia..|done].
Qed.

Lemma run_wellHandled n : 0 <= D -> wellHandled (2 ^ 32 - 1 - D * Z.of_nat n) (run n).
Proof.
  intros HD. induction n as [|n IH]; intros rs s s' Hlex Hl; [done|]. cbn [run]. intros E.
  change 0 with (- 0). apply (performAll_segment n rs); [done|done|lia|lia|nia|done].
Qed.
End invariants.

(** *** Termination *)

Section termination.
Variable k : nat.
Variable observersSettle : settles k.

(** The run comes back, and no call is forgotten. *)
Definition returns (m : outcome PageLoadState) (s : PageLoadState) : Prop :=
  exists s', m = Done s' /\ (length (calls s) <= length (calls s'))%nat.

Lemma returns_bind m f s :
  returns m s -> (forall s', (length (calls s) <= length (calls s'))%nat -> returns (f s') s') -> returns (outcome_bind m f) s.
Proof. intros (s' & -> & Hl) Hf. destruct (Hf s' Hl) as (s'' & E & Hl'). exists s''. split; [exact E|lia]. Qed.

Lemma returns_same s s' : calls s' = calls s -> returns (Done s') s.
Proof. intros E. exists s'. by rewrite E. Qed.

Section handled.
Variable c : nat.
Variable handle : list Request -> PageLoadState -> outcome PageLoadState.
Variable handleReturns : forall rs s,
  (c < length (calls s))%nat -> (rs <> [] -> (length (calls s) < k)%nat) -> returns (handle rs s) s.

Lemma callEach_returns cb copy s : (c <= length (calls s))%nat -> returns (callEach handle cb copy s) s.
Proof.
  revert s. induction copy as [|o copy IH]; intros s Hc; cbn [callEach]; [by apply returns_same|].
  case_decide; [|by apply IH].
  assert (Hn : length (calls (notify o cb s)) = S (length (calls s))).
  { replace (calls (notify o cb s)) with (calls s ++ [Called o cb]) by (by destruct cb).
    rewrite length_app. simpl. lia. }
  assert (Hr : returns (handle (react o cb (notify o cb s)) (notify o cb s)) s).
  { destruct (handleReturns (react o cb (notify o cb s)) (notify o cb s)) as (s' & E & Hl);
      [lia|apply observersSettle|]. exists s'. split; [exact E|lia]. }
  apply (returns_bind _ _ _ Hr). intros s' Hl. apply IH. lia.
Qed.

Lemma callChanged_returns cb changed order s :
  (c <= length (calls s))%nat -> returns (callChanged handle cb changed order s) s.
Proof.
  revert s. induction order as [|p order IH]; intros s Hc; cbn [callChanged]; [by apply returns_same|].
  apply returns_bind; [destruct (changed p); [by apply callEach_returns|by apply returns_same]|].
  intros s' Hl. apply IH. lia.
Qed.

Lemma commitChanges_returns s : (c <= length (calls s))%nat -> returns (commitChanges handle s) s.
Proof.
  intros Hc. unfold commitChanges. destruct (negb _); [by apply returns_same|].
  set (s0 := s <| mayHaveUncommittedChanges := false |>).
  assert (Hw : returns (callChanged handle WillChange (fun p => differs p (committedState s0) (uncommittedState s0))
    willOrder s0) s) by (exact (callChanged_returns _ _ _ s0 Hc)).
  apply (returns_bind _ _ _ Hw). intros s1 Hl. set (s2 := s1 <| committedState := _ |> <| calls := _ |>).
  assert (H2 : (S (length (calls s1)) = length (calls s2))%nat).
  { change (calls s2) with (calls s1 ++ [PageIsLoadingChanged]). rewrite length_app. simpl. lia. }
  destruct (callChanged_returns DidChange (fun p => differs p (committedState s0) (uncommittedState s0)) didOrder s2)
    as (s3 & E & Hl3); [lia|]. exists s3. split; [exact E|lia].
Qed.

Lemma perform_returns r s : (c <= length (calls s))%nat -> returns (perform handle r s) s.
Proof.
  intros Hc. destruct r; cbn [perform]; try (by apply returns_same); try (by apply callEach_returns).
  - apply returns_same. by apply mutate_fields.
  - unfold endTransaction. set (s1 := s <| outstandingTransactionCount := _ |>).
    destruct (_ =? 0); [|by apply returns_same]. exact (commitChanges_returns s1 Hc).
  - by apply commitChanges_returns.
Qed.

Lemma performAll_returns rs s : (c <= length (calls s))%nat -> returns (performAll handle rs s) s.
Proof.
  revert s. induction rs as [|r rs IH]; intros s Hc; cbn [performAll]; [by apply returns_same|].
  apply returns_bind; [by apply perform_returns|]. intros s' Hl. apply IH. lia.
Qed.
End handled.

Lemma run_returns n rs s : (k - length (calls s) + 2 <= n)%nat -> returns (run n rs s) s.
Proof.
  revert rs s. induction n as [|n IH]; intros rs s Hn; [lia|]. cbn [run].
  apply (performAll_returns (length (calls s))); [|done]. intros rs1 s1 Hc Hk.
  destruct rs1 as [|r rs1]; [|apply IH; specialize (Hk ltac:(done)); lia].
  destruct n; [lia|]. by apply returns_same.
Qed.
End termination.

End page.

(** ** Theorems *)


(** [about:blank] and the like are not secure, everything else is. *)
Definition secureScheme (u : String) (_ : string) : bool := negb (isEmpty u).

(** Sets a title when the first load starts, and enables the back button when told that
    the title changed. *)
Definition busyObserver (o : nat) (c : Callback) (s : PageLoadState) : list Request :=
  if (length (calls s) <? 20)%nat && (outstandingTransactionCount s =? 0) then
    match c with
    | WillChange IsLoading => [Begin; Mutate (OpSetTitle (Some "loading")); End]
    | DidChange Title => [Begin; Mutate (OpSetCanGoBack true); End]
    | _ => []
    end
  else [].


(** Sets a title when told that the back button will change. *)
Definition titleSetter (o : nat) (c : Callback) (s : PageLoadState) : list Request :=
  match c with
  | WillChange CanGoBack => [Begin; Mutate (OpSetTitle (Some "new")); End]
  | _ => []
  end.

(** The restriction is needed.  When [commitChanges] is called explicitly inside a
    transaction, as [WebPageProxy] does in most of its handlers, a change an observer
    makes in its own properly nested transaction during a "will change" callback is
    committed without any observer being told: the flags were computed before it, the
    inner transaction does not commit because the outer one is outstanding, and the
    final commit sees two equal copies.  The observer's title stays stale. *)
Theorem explicit_commit_loses_notification :
  exists s, run secureScheme titleSetter 3
      [AddObserver 1; Begin; Mutate (OpSetCanGoBack true); CommitChanges; End] create = Done s /\
    lexical 1 0 [Begin; Mutate (OpSetTitle (Some "new"%string)); End] = true /\
    outstandingTransactionCount s = 0 /\ mayHaveUncommittedChanges s = false /\
    committedState s = uncommittedState s /\
    observers s = [1%nat] /\ seen s 1%nat Title = Str None /\ read secureScheme Title s = Str (Some "new"%string) /\
    calls s = [Called 1 (WillChange CanGoBack); PageIsLoadingChanged; Called 1 (DidChange CanGoBack);
               PageIsLoadingChanged].
Proof. eexists. split; [vm_compute; reflexivity|]. by split_and!. Qed.

(** Observers that only listen. *)
Definition passive (o : nat) (c : Callback) (s : PageLoadState) : list Request := [].

Lemma callChanged_passive protocolIs n callback changed order s o :
  observers s = [o] ->
  exists s', callChanged protocolIs passive (run protocolIs passive (S n)) callback changed order s = Done s' /\
    core s' = core s /\ calls s' = calls s ++ map (fun p => Called o (callback p)) (List.filter changed order).
Proof.
  revert s. induction order as [|p order IH]; intros s Ho; cbn [callChanged List.filter].
  { exists s. by rewrite app_nil_r. }
  destruct (changed p); [|by apply IH]. unfold callObserverCallback. rewrite Ho. cbn [callEach].
  rewrite decide_True by (rewrite Ho; constructor). cbn [run performAll passive outcome_bind].
  pose proof (notify_core protocolIs o (callback p) s) as Hc.
  assert (Hcalls : calls (notify protocolIs o (callback p) s) = calls s ++ [Called o (callback p)])
    by (by destruct (callback p)).
  assert (Ho1 : observers (notify protocolIs o (callback p) s) = [o]) by (unfold core in Hc; congruence).
  destruct (IH _ Ho1) as (s' & E & Hc' & Hl). exists s'. split_and!; [exact E|congruence|].
  rewrite Hl, Hcalls. cbn [map]. by rewrite <- app_assoc.
Qed.

(** Where the order of the "did" calls agrees with the reverse of the "will" calls. *)
Lemma didOrder_reverses (changed : Property -> bool) :
  List.filter changed didOrder = rev (List.filter changed willOrder) <->
  ~ (changed HasOnlySecureContent = true /\ changed NegotiatedLegacyTLS = true).
Proof.
  set (before := [CanGoBack; CanGoForward; Title; IsLoading; ActiveURL]).
  set (after := [EstimatedProgress; NetworkRequestsInProgress; CertificateInfo]).
  change didOrder with (rev (before ++ [NegotiatedLegacyTLS; HasOnlySecureContent] ++ after)).
  change willOrder with (before ++ [HasOnlySecureContent; NegotiatedLegacyTLS] ++ after).
  rewrite List.filter_rev, !List.filter_app. split.
  - intros E%(f_equal (@rev _)). rewrite !rev_involutive in E. apply app_inv_head, app_inv_tail in E.
    simpl in E. intros [H1 H2]. rewrite H1, H2 in E. done.
  - intros Hn. do 3 f_equal. simpl. destruct (changed HasOnlySecureContent), (changed NegotiatedLegacyTLS); try done.
    exfalso. by apply Hn.
Qed.

(** The order of the notifications of one commit.  An observer gets the "will change"
    calls of exactly the properties whose values differ, then the page is told, then
    the observer gets the "did change" calls of the same properties.  The second list
    is the first one reversed, which the source says Cocoa requires, exactly unless
    both [hasOnlySecureContent] and [negotiatedLegacyTLS] change: those two are
    announced in the same order both times. *)
Theorem did_order_reverses_will protocolIs s o :
  observers s = [o] -> mayHaveUncommittedChanges s = true ->
  let changed p := differs protocolIs p (committedState s) (uncommittedState s) in
  exists s' will did, commitChanges protocolIs passive (run protocolIs passive 1) s = Done s' /\
    committedState s' = uncommittedState s /\ mayHaveUncommittedChanges s' = false /\
    calls s' = calls s ++ map (fun p => Called o (WillChange p)) will ++ [PageIsLoadingChanged] ++
               map (fun p => Called o (DidChange p)) did /\
    (forall p, (p ∈ will <-> changed p = true) /\ (p ∈ did <-> changed p = true)) /\
    (did = rev will <-> ~ (changed HasOnlySecureContent = true /\ changed NegotiatedLegacyTLS = true)).
Proof.
  intros Ho Hm changed. unfold commitChanges. rewrite Hm. cbn [negb].
  set (s0 := s <| mayHaveUncommittedChanges := false |>).
  destruct (callChanged_passive protocolIs 0 WillChange changed willOrder s0 o Ho) as (s1 & E1 & Hc1 & Hl1).
  change (callChanged _ _ _ WillChange _ willOrder s0) with
    (callChanged protocolIs passive (run protocolIs passive 1) WillChange changed willOrder s0).
  rewrite E1. cbn [outcome_bind].
  set (s2 := s1 <| committedState := uncommittedState s1 |> <| calls := _ |>).
  injection Hc1 as Eo Ec Eu Em Et.
  destruct (callChanged_passive protocolIs 0 DidChange changed didOrder s2 o) as (s3 & E3 & Hc3 & Hl3); [by etrans|].
  injection Hc3 as Eo3 Ec3 Eu3 Em3 Et3.
  exists s3, (List.filter changed willOrder), (List.filter changed didOrder). split_and!.
  - exact E3.
  - congruence.
  - congruence.
  - rewrite Hl3. change (calls s2) with (calls s1 ++ [PageIsLoadingChanged]). rewrite Hl1. by rewrite <- !app_assoc.
  - intros p. rewrite !list_elem_of_In, !filter_In. split; (split; [tauto|]); (split; [|done]);
      apply list_elem_of_In; destruct p; repeat constructor.
  - apply didOrder_reverses.
Qed.

Lemma did_order_reverses_will_witness :
  let s := addObserver secureScheme 1 (mutate (OpDidCommitLoad 7 false true)
             (mutate (OpDidStartProvisionalLoad (Some "https:"%string) None) create)) in
  exists s' will did, commitChanges secureScheme passive (run secureScheme passive 1) s = Done s' /\
    calls s' = calls s ++ map (fun p => Called 1 (WillChange p)) will ++ [PageIsLoadingChanged] ++
               map (fun p => Called 1 (DidChange p)) did /\ did <> rev will.
Proof.
  destruct (did_order_reverses_will secureScheme (addObserver secureScheme 1 (mutate (OpDidCommitLoad 7 false true)
    (mutate (OpDidStartProvisionalLoad (Some "https:"%string) None) create))) 1 eq_refl eq_refl)
    as (s' & will & did & E & _ & _ & Hl & _ & Hr).
  exists s', will, did. split_and!; [exact E|exact Hl|]. intros Hd. apply Hr in Hd. apply Hd. by split; vm_compute.
Defined.

End PageLoadState.
