(* ===== verification/WebFrames.v ===== *)
(** * UIProcess: frames, their load state, and what a web process may load

    FrameLoadState.cpp, the load part of WebFrameProxy.cpp, WebNavigationState.cpp, and the
    part of WebProcessProxy.cpp that keeps the frames of a web process and decides which
    file URLs the process may mention.  A [WebFrameProxy*] is an index into the list of all
    frames ever created, so two pointers to one frame see each other's changes. *)

From S2P Require Import Prelude PageLoadState.

Abbreviation String := (option string).
(** A [WTF::URL] is its string; the null URL is [None]. *)
Abbreviation URL := String.

(** What the code asks of WTF and WebCore about URLs and certificates. *)
Class WebCore := {
  protocolIs : String -> string -> bool;
  isLocalFile : URL -> bool;
  protocolIsAbout : URL -> bool;
  fileSystemPath : URL -> string;
  (* [truncatedForUseAsBase().fileSystemPath()]; [None] is the null string *)
  basePath : URL -> option string;
  registrableDomain : URL -> string;
  (* resources of the frameworks, a constant of the platform *)
  platformPathsWithAssumedReadAccess : list string;
  (* a unique (opaque) security origin *)
  isUnique : String -> bool;
  hasQueryOrFragment : URL -> bool;
  containsNonRootSHA1SignedCertificate : nat -> bool;
  (* [SandboxExtension::createHandle] for reading a path *)
  createHandle : string -> bool;
  (* [PrivateClickMeasurement::attributeOnSite().matches] *)
  attributesOn : nat -> URL -> bool
}.

(** ** FrameLoadState.cpp *)
Module FrameLoadState.

Inductive State := Provisional | Committed | Finished.
#[global] Instance State_eq_decision : EqDecision State.
Proof. solve_decision. Defined.

Record FrameLoadState := mkFrameLoadState {
  state : State;
  url : URL;
  provisionalURL : URL;
  unreachableURL : URL;
  lastUnreachableURL : URL;
  observers : list nat;
  (* the [didFinishLoad] calls the observers got, oldest first *)
  finishCalls : list nat
}.
#[global] Instance eta_FrameLoadState : Eta FrameLoadState := fun r =>
  mkFrameLoadState (state r) (url r) (provisionalURL r) (unreachableURL r) (lastUnreachableURL r) (observers r) (finishCalls r).

Definition create : FrameLoadState := mkFrameLoadState Finished None None None None [] [].

(** [WeakHashSet]: adding twice is adding once. *)
Definition addObserver (o : nat) (s : FrameLoadState) : FrameLoadState :=
  if decide (o ∈ observers s) then s else s <| observers := observers s ++ [o] |>.
Definition removeObserver (o : nat) (s : FrameLoadState) : FrameLoadState :=
  s <| observers := List.filter (fun o' => negb (Nat.eqb o' o)) (observers s) |>.

Definition didStartProvisionalLoad (u : URL) (s : FrameLoadState) : FrameLoadState :=
  s <| state := Provisional |> <| provisionalURL := u |>.

Definition didExplicitOpen (u : URL) (s : FrameLoadState) : FrameLoadState :=
  s <| url := u |> <| provisionalURL := None |>.

Definition didReceiveServerRedirectForProvisionalLoad (u : URL) (s : FrameLoadState) : FrameLoadState :=
  s <| provisionalURL := u |>.

Definition didFailProvisionalLoad (s : FrameLoadState) : FrameLoadState :=
  s <| state := Finished |> <| provisionalURL := None |> <| unreachableURL := lastUnreachableURL s |>.

Definition didCommitLoad (s : FrameLoadState) : FrameLoadState :=
  s <| state := Committed |> <| url := provisionalURL s |> <| provisionalURL := None |>.

Definition didFinishLoad (s : FrameLoadState) : FrameLoadState :=
  let s := s <| state := Finished |> in
  s <| finishCalls := finishCalls s ++ observers s |>.

Definition didFailLoad (s : FrameLoadState) : FrameLoadState := s <| state := Finished |>.

Definition didSameDocumentNotification (u : URL) (s : FrameLoadState) : FrameLoadState := s <| url := u |>.

Definition setURL (u : URL) (s : FrameLoadState) : FrameLoadState := s <| url := u |>.

Definition setUnreachableURL (u : URL) (s : FrameLoadState) : FrameLoadState :=
  s <| lastUnreachableURL := unreachableURL s |> <| unreachableURL := u |>.

End FrameLoadState.

(** ** The load part of WebFrameProxy.cpp *)
Module WebFrameProxy.

Record WebFrameProxy := mkWebFrameProxy {
  frameID : Z;
  frameLoadState : FrameLoadState.FrameLoadState;
  MIMEType : String;
  title : String;
  certificateInfo : option nat;
  containsPluginDocument : bool
}.
#[global] Instance eta_WebFrameProxy : Eta WebFrameProxy := fun r =>
  mkWebFrameProxy (frameID r) (frameLoadState r) (MIMEType r) (title r) (certificateInfo r) (containsPluginDocument r).

Definition create (id : Z) : WebFrameProxy := mkWebFrameProxy id FrameLoadState.create None None None false.

Definition onLoadState (f : FrameLoadState.FrameLoadState -> FrameLoadState.FrameLoadState) (w : WebFrameProxy) : WebFrameProxy :=
  w <| frameLoadState := f (frameLoadState w) |>.

Definition didStartProvisionalLoad (u : URL) : WebFrameProxy -> WebFrameProxy :=
  onLoadState (FrameLoadState.didStartProvisionalLoad u).

Definition didExplicitOpen (u : URL) (mimeType : String) (w : WebFrameProxy) : WebFrameProxy :=
  onLoadState (FrameLoadState.didExplicitOpen u) (w <| MIMEType := mimeType |>).

Definition didReceiveServerRedirectForProvisionalLoad (u : URL) : WebFrameProxy -> WebFrameProxy :=
  onLoadState (FrameLoadState.didReceiveServerRedirectForProvisionalLoad u).

Definition didFailProvisionalLoad : WebFrameProxy -> WebFrameProxy :=
  onLoadState FrameLoadState.didFailProvisionalLoad.

Definition didCommitLoad (contentType : String) (certificate : nat) (pluginDocument : bool) (w : WebFrameProxy) : WebFrameProxy :=
  let w := onLoadState FrameLoadState.didCommitLoad w in
  w <| title := None |> <| MIMEType := contentType |> <| certificateInfo := Some certificate |>
    <| containsPluginDocument := pluginDocument |>.

Definition didFinishLoad : WebFrameProxy -> WebFrameProxy := onLoadState FrameLoadState.didFinishLoad.
Definition didFailLoad : WebFrameProxy -> WebFrameProxy := onLoadState FrameLoadState.didFailLoad.

Definition didSameDocumentNavigation (u : URL) : WebFrameProxy -> WebFrameProxy :=
  onLoadState (FrameLoadState.didSameDocumentNotification u).

Definition didChangeTitle (t : String) (w : WebFrameProxy) : WebFrameProxy := w <| title := t |>.

Definition setUnreachableURL (u : URL) : WebFrameProxy -> WebFrameProxy :=
  onLoadState (FrameLoadState.setUnreachableURL u).

End WebFrameProxy.

(** ** Navigations (WebNavigationState.cpp and API/APINavigation.cpp) *)
Module Navigation.

Record Navigation := mkNavigation {
  (* the request the navigation is at, and its referrer *)
  currentRequest : URL;
  httpReferrer : URL;
  currentRequestIsRedirect : bool;
  requesterOrigin : String;
  redirectChain : list URL;
  clientNavigationActivity : bool;
  privateClickMeasurement : option nat;
  (* the back/forward item the navigation starts from, with its URL *)
  fromItem : option (nat * URL);
  (* the URL of the item it goes to *)
  targetItem : option URL;
  (* the base URL of the data it loads *)
  substituteData : option URL
}.
#[global] Instance eta_Navigation : Eta Navigation := fun r =>
  mkNavigation (currentRequest r) (httpReferrer r) (currentRequestIsRedirect r) (requesterOrigin r) (redirectChain r)
    (clientNavigationActivity r) (privateClickMeasurement r) (fromItem r) (targetItem r) (substituteData r).

Definition appendRedirectionURL (u : URL) (n : Navigation) : Navigation :=
  if bool_decide (redirectChain n = []) || bool_decide (last (redirectChain n) <> Some u)
  then n <| redirectChain := redirectChain n ++ [u] |> else n.

(** The constructors; a web process reports the requester later ([setLastNavigationAction]). *)
Definition createLoadRequestNavigation (request : URL) (currentItem : option (nat * URL)) : Navigation :=
  mkNavigation request None false None [request] true None currentItem None None.
Definition createBackForwardNavigation (target : URL) (currentItem : option (nat * URL)) : Navigation :=
  mkNavigation target None false None [] true None currentItem (Some target) None.
Definition createLoadDataNavigation (baseURL : URL) : Navigation :=
  mkNavigation None None false None [] true None None None (Some baseURL).

(** [m_navigations] of a [WebNavigationState]. *)
Abbreviation Navigations := (gmap Z Navigation).
Definition navigation (id : Z) (ns : Navigations) : option Navigation := ns !! id.
Definition hasNavigation (id : Z) (ns : Navigations) : bool := bool_decide (is_Some (ns !! id)).
Definition takeNavigation (id : Z) (ns : Navigations) : option Navigation * Navigations := (ns !! id, delete id ns).
Definition didDestroyNavigation (id : Z) (ns : Navigations) : Navigations := delete id ns.
Definition clearAllNavigations (ns : Navigations) : Navigations := ∅.
Definition addNavigation (id : Z) (n : Navigation) (ns : Navigations) : Navigations := <[id := n]> ns.

End Navigation.

(** ** A web process, as the UI process sees it (WebProcessProxy.cpp) *)
Module WebProcessProxy.

Record WebProcessProxy := mkWebProcessProxy {
  frameMap : gmap Z nat;
  mayHaveUniversalFileReadSandboxExtension : bool;
  localPathsWithAssumedReadAccess : list string;
  hasCommittedAnyProvisionalLoads : bool;
  (* [Some] of the empty string: used for several domains *)
  registrableDomain_ : option string;
  serviceWorkersDisabled : bool
}.
#[global] Instance eta_WebProcessProxy : Eta WebProcessProxy := fun r =>
  mkWebProcessProxy (frameMap r) (mayHaveUniversalFileReadSandboxExtension r) (localPathsWithAssumedReadAccess r)
    (hasCommittedAnyProvisionalLoads r) (registrableDomain_ r) (serviceWorkersDisabled r).

Definition create : WebProcessProxy := mkWebProcessProxy ∅ false [] false None false.

(** The keys 0 and 2^64-1 mark empty and deleted buckets of the hash table. *)
Definition isValidKey (id : Z) : bool := negb (id =? 0) && negb (id =? 2 ^ 64 - 1).

Definition webFrame (id : Z) (p : WebProcessProxy) : option nat :=
  if negb (isValidKey id) then None else frameMap p !! id.

Definition canCreateFrame (id : Z) (p : WebProcessProxy) : bool :=
  isValidKey id && negb (bool_decide (is_Some (frameMap p !! id))).

Definition frameCreated (id : Z) (frame : nat) (p : WebProcessProxy) : WebProcessProxy :=
  p <| frameMap := <[id := frame]> (frameMap p) |>.

Definition didDestroyFrame (id : Z) (p : WebProcessProxy) : WebProcessProxy :=
  p <| frameMap := delete id (frameMap p) |>.

Definition didCommitProvisionalLoad (p : WebProcessProxy) : WebProcessProxy :=
  p <| hasCommittedAnyProvisionalLoads := true |>.

Section process.
Context `{WebCore}.

Definition didStartProvisionalLoadForMainFrame (u : URL) (p : WebProcessProxy) : WebProcessProxy :=
  if bool_decide (registrableDomain_ p = Some EmptyString) then p
  else if protocolIsAbout u then p
  else
    let domain := registrableDomain u in
    match registrableDomain_ p with
    | Some d =>
        if bool_decide (d <> domain) then p <| serviceWorkersDisabled := true |> <| registrableDomain_ := Some EmptyString |>
        else p <| registrableDomain_ := Some domain |>
    | None => p <| registrableDomain_ := Some domain |>
    end.

Definition willAcquireUniversalFileReadSandboxExtension (p : WebProcessProxy) : WebProcessProxy :=
  p <| mayHaveUniversalFileReadSandboxExtension := true |>.

Definition startsWithAny (path : string) (prefixes : list string) : bool :=
  existsb (fun prefix => String.prefix prefix path) prefixes.

Definition hasAssumedReadAccessToURL (u : URL) (p : WebProcessProxy) : bool :=
  if negb (isLocalFile u) then false
  else
    let path := fileSystemPath u in
    if startsWithAny path platformPathsWithAssumedReadAccess then true
    else startsWithAny path (localPathsWithAssumedReadAccess p).

(** [allItems]: the URL and the original URL of every back/forward item.  The check is made
    with the default, [CheckBackForwardList::Yes]. *)
Definition checkURLReceivedFromWebProcess (allItems : list (URL * URL)) (u : URL) (p : WebProcessProxy) : bool :=
  if negb (isLocalFile u) then true
  else if mayHaveUniversalFileReadSandboxExtension p then true
  else if hasAssumedReadAccessToURL u p then true
  else
    let path := fileSystemPath u in
    existsb (fun '(itemURL, itemOriginalURL) =>
      (isLocalFile itemURL && bool_decide (fileSystemPath itemURL = path))
      || (isLocalFile itemOriginalURL && bool_decide (fileSystemPath itemOriginalURL = path))) allItems.

End process.
End WebProcessProxy.
