(* ===== verification/PageLoads.v ===== *)
(** * UIProcess: how a page follows the loads of its web processes

    The load handlers of WebPageProxy.cpp and the whole of what ProvisionalPageProxy.cpp
    does with the load of a navigation that continues in a new web process.  The page keeps
    the public load state of [PageLoadState]; each frame keeps its own ([WebFrames]).

    The messages of web processes are arbitrary: a compromised process may send any message
    at any time.  The embedder's clients and the observers of the load state only listen
    here.  What the handlers tell other objects (clients, processes, diagnostics) is recorded
    in order in [calls].  Handlers are modelled for an open page and without the parts that
    are specific to Cocoa or that only notify the inspector, WebAuthn, pointer lock and
    attachments; [ASSERT]s, which release builds skip, are left out. *)

From S2P Require Import Prelude PageLoadState WebFrames.
Import WebFrames.
Module PLS := PageLoadState.PageLoadState.

Module WebPageProxy.

(** ** Data *)

Inductive ErrorType := NullError | General | AccessControl | Cancellation | Timeout.
Record ResourceError := mkError { errorType : ErrorType; errorCode : Z }.
Inductive CompletionCondition := CancellationCondition | ErrorCondition | SuccessCondition | TimeoutCondition.
Inductive ProcessTerminationReason :=
  ExceededMemoryLimit | ExceededCPULimit | RequestedByClient | Crashed | NavigationSwap
| RequestedByNetworkProcess | RequestedByGPUProcess.
Inductive FrameLoadType := Standard | OtherLoadType.
#[global] Instance ErrorType_eq_decision : EqDecision ErrorType.
Proof. solve_decision. Defined.
#[global] Instance Reason_eq_decision : EqDecision ProcessTerminationReason.
Proof. solve_decision. Defined.
#[global] Instance FrameLoadType_eq_decision : EqDecision FrameLoadType.
Proof. solve_decision. Defined.

(** What a client is told about a load. *)
Inductive LoadEvent :=
  DidStart | DidRedirect | DidFailProvisional (e : ResourceError) | DidCommit | DidFinish | DidFail (e : ResourceError)
| DidSameDocumentNavigate (type : Z).
Inductive DataTransferFlag := DestinationLinkDecoration | ReferrerLinkDecoration.

(** Calls to objects outside the model.  A navigation is named by its identifier. *)
Inductive Call :=
| MarkCurrentlyDispatchedMessageAsInvalid (process : nat)
| LogPageLoad (c : CompletionCondition) (elapsed : Z)
| LoaderClient (e : LoadEvent) (frame : nat) (navigation : option Z)
| NavigationClient (e : LoadEvent) (navigation : option Z)
| NavigationClientForFrame (e : LoadEvent)
| PageClient (e : LoadEvent) (navigation : option Z)
| CloseOverlayedViews
| AutomationNavigationOccurred (frame : nat)
| DidCommitCrossSiteLoadWithDataTransfer (from to : string) (flags : list DataTransferFlag)
| StorePrivateClickMeasurement (m : nat)
| InvalidateLoadDependentCallbacks
| PinnedStateDidChange
| ResetScaleFactors
| SetMouseEventPolicy (policy : Z)
| ResetRecentCrashCountSoon
| NotifyProcessPoolToPrewarm
| ProcessWillSwap
| ProcessDidExit
| ClearAllEditCommands
| ResetState (r : ProcessTerminationReason)
| StopAllURLSchemeTasks (process : nat)
| ProcessTerminated (process : nat)
| ClientProcessDidTerminate (r : ProcessTerminationReason)
| StopResetRecentCrashCountTimer
| Reload
| AutomationTerminate
| AddMessageReceiver (process : nat)
| RemoveMessageReceiver (process : nat)
| SuspendPage (process : nat) (mainFrame : Z)
| RemoveWebPage (process : nat)
| ClosePage (process : nat)
| DidRelaunchProcess
| WillDestroyProvisionalPage
| DidCreateProvisionalPage (process : nat)
| DidCommitProvisionalPage
| GoToBackForwardItem (process : nat) (navigation : Z)
| LoadRequest (process : nat) (navigation : Z) (u : URL)
| LoadData (process : nat) (navigation : Z) (baseURL : URL)
| LoadAlternateHTML (process : nat) (baseURL unreachable : URL)
| AskPolicyClient (frame : nat) (navigation : Z) (u : URL)
| SendPolicyIgnore (process : nat).

Record ProvisionalPageProxy := mkProvisionalPageProxy {
  pp_process : nat;
  pp_mainFrame : option nat;
  pp_navigationID : Z;
  pp_isServerRedirect : bool;
  pp_request : URL;
  pp_provisionalLoadURL : URL;
  pp_wasCommitted : bool
}.
#[global] Instance eta_ProvisionalPageProxy : Eta ProvisionalPageProxy := fun r =>
  mkProvisionalPageProxy (pp_process r) (pp_mainFrame r) (pp_navigationID r) (pp_isServerRedirect r) (pp_request r)
    (pp_provisionalLoadURL r) (pp_wasCommitted r).

Record WebPageProxy := mkWebPageProxy {
  process : nat;
  hasRunningProcess : bool;
  mainFrame : option nat;
  provisionalPage : option ProvisionalPageProxy;
  pageLoadState : PLS.PageLoadState;
  navigations : Navigation.Navigations;
  navigationID : Z;                     (* 64 bits; the last one generated *)
  hasCommittedAnyProvisionalLoads : bool;
  failingProvisionalLoadURL : String;
  isLoadingAlternateHTMLStringForFailingProvisionalLoad : bool;
  pageLoadStart : option Z;
  privateClickMeasurement : option nat;
  mainFrameHasCustomContentProvider : bool;
  mainFrameIsPinned : bool;             (* to all four sides *)
  shouldSuppressNextAutomaticNavigationSnapshot : bool;
  recentCrashCount : Z;
  mayHaveUniversalFileReadSandboxExtension : bool;
  previouslyVisitedPaths : list string;
  (* configuration of the page *)
  loaderClient : bool;
  controlledByAutomation : bool;
  openedByDOM : bool;
  usesBackForwardCache : bool;
  currentItem : option (nat * URL);     (* of the back/forward list, with its URL *)
  (* shared by all pages: the frames ever created, the web processes, the URLs of the
     back/forward items *)
  frames : list WebFrameProxy.WebFrameProxy;
  processes : gmap nat WebProcessProxy.WebProcessProxy;
  allItems : list (URL * URL);
  calls : list Call
}.
#[global] Instance eta_WebPageProxy : Eta WebPageProxy := fun r =>
  mkWebPageProxy (process r) (hasRunningProcess r) (mainFrame r) (provisionalPage r) (pageLoadState r) (navigations r)
    (navigationID r)    (hasCommittedAnyProvisionalLoads r) (failingProvisionalLoadURL r) (isLoadingAlternateHTMLStringForFailingProvisionalLoad r)
    (pageLoadStart r) (privateClickMeasurement r) (mainFrameHasCustomContentProvider r) (mainFrameIsPinned r)
    (shouldSuppressNextAutomaticNavigationSnapshot r) (recentCrashCount r) (mayHaveUniversalFileReadSandboxExtension r)
    (previouslyVisitedPaths r) (loaderClient r) (controlledByAutomation r) (openedByDOM r) (usesBackForwardCache r)
    (currentItem r) (frames r) (processes r) (allItems r) (calls r).

(** A page attached to the running process [p]. *)
Definition create (p : nat) : WebPageProxy :=
  mkWebPageProxy p true None None PLS.create ∅ 0 false None false None None false true false 0 false []
    false false false true None [] {[ p := WebProcessProxy.create ]} [] [].

Definition tell (c : Call) (s : WebPageProxy) : WebPageProxy := s <| calls := calls s ++ [c] |>.
Definition tellAll (cs : list Call) (s : WebPageProxy) : WebPageProxy := s <| calls := calls s ++ cs |>.
Definition onFrame (frame : nat) (f : WebFrameProxy.WebFrameProxy -> WebFrameProxy.WebFrameProxy) (s : WebPageProxy) : WebPageProxy :=
  s <| frames := alter f frame (frames s) |>.
Definition onProcess (p : nat) (f : WebProcessProxy.WebProcessProxy -> WebProcessProxy.WebProcessProxy) (s : WebPageProxy) : WebPageProxy :=
  s <| processes := alter f p (processes s) |>.
Definition onNavigation (id : Z) (f : Navigation.Navigation -> Navigation.Navigation) (s : WebPageProxy) : WebPageProxy :=
  s <| navigations := alter f id (navigations s) |>.
Definition webFrame (p : nat) (id : Z) (s : WebPageProxy) : option nat := processes s !! p ≫= WebProcessProxy.webFrame id.

(** [WebFrameProxy::isMainFrame]. *)
Definition isMainFrame (frame : nat) (s : WebPageProxy) : bool :=
  bool_decide (mainFrame s = Some frame)
  || match provisionalPage s with Some pp => bool_decide (pp_mainFrame pp = Some frame) | None => false end.

(** [WebFrameProxy::create] and [WebProcessProxy::frameCreated]: the pointer is returned. *)
Definition createFrame (p : nat) (id : Z) (s : WebPageProxy) : nat * WebPageProxy :=
  let frame := length (frames s) in
  let s := s <| frames := frames s ++ [WebFrameProxy.create id] |> in
  (frame, onProcess p (WebProcessProxy.frameCreated id frame) s).

(** MESSAGE_CHECK. *)
Definition messageCheck (p : nat) (assertion : bool) (s : WebPageProxy) (k : WebPageProxy) : WebPageProxy :=
  if assertion then k else tell (MarkCurrentlyDispatchedMessageAsInvalid p) s.
Definition withFrame (p : nat) (id : Z) (s : WebPageProxy) (k : nat -> WebPageProxy) : WebPageProxy :=
  match webFrame p id s with
  | Some frame => k frame
  | None => tell (MarkCurrentlyDispatchedMessageAsInvalid p) s
  end.

Definition automationNavigationOccurred (frame : nat) (s : WebPageProxy) : WebPageProxy :=
  if controlledByAutomation s then tell (AutomationNavigationOccurred frame) s else s.

Section page.
Context `{WebCore}.

(** ** The page's load state *)

(** Observers only listen, so that committing returns ([PLS_commitChanges]). *)
Definition settle (m : outcome PLS.PageLoadState) (s : PLS.PageLoadState) : PLS.PageLoadState :=
  match m with Done s' => s' | _ => s end.
Definition onLoadState (f : PLS.PageLoadState -> PLS.PageLoadState) (s : WebPageProxy) : WebPageProxy :=
  s <| pageLoadState := f (pageLoadState s) |>.
Abbreviation listen := (PLS.run protocolIs PLS.passive 1).
Definition beginTransaction : WebPageProxy -> WebPageProxy := onLoadState PLS.beginTransaction.
Definition mutate (op : PLS.Operation) : WebPageProxy -> WebPageProxy := onLoadState (PLS.mutate op).
Definition commitChanges : WebPageProxy -> WebPageProxy :=
  onLoadState (fun l => settle (PLS.commitChanges protocolIs PLS.passive listen l) l).
Definition endTransaction : WebPageProxy -> WebPageProxy :=
  onLoadState (fun l => settle (PLS.endTransaction protocolIs PLS.passive listen l) l).
Definition didSwapWebProcesses : WebPageProxy -> WebPageProxy :=
  onLoadState (fun l => settle (PLS.didSwapWebProcesses protocolIs PLS.passive listen l) l).

(** ** Checks and reports *)

(** [checkURLReceivedFromCurrentOrPreviousWebProcess]. *)
Definition checkURLReceived (p : nat) (u : URL) (s : WebPageProxy) : bool :=
  if negb (isLocalFile u) then true
  else if mayHaveUniversalFileReadSandboxExtension s then true
  else if WebProcessProxy.startsWithAny (fileSystemPath u) (previouslyVisitedPaths s) then true
  else match processes s !! p with
       | Some w => WebProcessProxy.checkURLReceivedFromWebProcess (allItems s) u w
       | None => false
       end.

Definition addPreviouslyVisitedPath (path : string) (s : WebPageProxy) : WebPageProxy :=
  if decide (path ∈ previouslyVisitedPaths s) then s
  else s <| previouslyVisitedPaths := previouslyVisitedPaths s ++ [path] |>.

Definition willAcquireUniversalFileReadSandboxExtension (p : nat) (s : WebPageProxy) : WebPageProxy :=
  onProcess p WebProcessProxy.willAcquireUniversalFileReadSandboxExtension
    (s <| mayHaveUniversalFileReadSandboxExtension := true |>).

(** [WebProcessProxy::assumeReadAccessToBaseURL]. *)
Definition assumeReadAccessToBaseURL (p : nat) (u : URL) (s : WebPageProxy) : WebPageProxy :=
  if negb (isLocalFile u) then s
  else match basePath u with
       | None => s
       | Some path =>
           addPreviouslyVisitedPath path
             (onProcess p (fun w => if decide (path ∈ WebProcessProxy.localPathsWithAssumedReadAccess w) then w else
                w <| WebProcessProxy.localPathsWithAssumedReadAccess := WebProcessProxy.localPathsWithAssumedReadAccess w ++ [path] |>) s)
       end.

(** [now] is the time of the message being handled. *)
Definition reportPageLoadResult (now : Z) (e : ResourceError) (s : WebPageProxy) : WebPageProxy :=
  match pageLoadStart s with
  | None => s
  | Some start =>
      let s := s <| pageLoadStart := None |> in
      let condition :=
        match errorType e with
        | Cancellation => CancellationCondition
        | Timeout => TimeoutCondition
        | NullError => if errorCode e =? 0 then SuccessCondition else ErrorCondition
        | _ => ErrorCondition
        end in
      tell (LogPageLoad condition (now - start)) s
  end.
Definition noError : ResourceError := mkError NullError 0.

(** The navigation a main-frame message names: its identifier, when it is known. *)
Definition knownNavigation (id : Z) (s : WebPageProxy) : option Z :=
  if bool_decide (is_Some (navigations s !! id)) then Some id else None.
Definition navigationOf (n : option Z) (s : WebPageProxy) : option Navigation.Navigation := n ≫= (navigations s !!.).
Definition mainFrameNavigation (frame : nat) (id : Z) (s : WebPageProxy) : option Z :=
  if isMainFrame frame s && negb (id =? 0) then knownNavigation id s else None.
Definition clearClientNavigationActivity (n : option Z) (s : WebPageProxy) : WebPageProxy :=
  match n with Some id => onNavigation id (fun v => v <| Navigation.clientNavigationActivity := false |>) s | None => s end.

(** The calls to the clients at the end of a handler. *)
Definition tellClients (e : LoadEvent) (frame : nat) (n : option Z) (infoIsMainFrame : bool) (s : WebPageProxy) : WebPageProxy :=
  if loaderClient s then tell (LoaderClient e frame n) s
  else tellAll ((if infoIsMainFrame then [NavigationClient e n] else []) ++ [NavigationClientForFrame e]) s.

(** ** Frames and progress *)

Definition didCreateMainFrame (id : Z) (s : WebPageProxy) : WebPageProxy :=
  let known := match mainFrame s ≫= (frames s !!.) with Some w => WebFrameProxy.frameID w =? id | None => false end in
  if known then s
  else messageCheck (process s) (bool_decide (mainFrame s = None)) s
    (messageCheck (process s) (match processes s !! process s with Some w => WebProcessProxy.canCreateFrame id w | None => false end) s
      (let '(frame, s) := createFrame (process s) id s in s <| mainFrame := Some frame |>)).

Definition didCreateSubframe (id : Z) (s : WebPageProxy) : WebPageProxy :=
  messageCheck (process s) (bool_decide (mainFrame s <> None)) s
    (match webFrame (process s) id s with
     | Some _ => s
     | None =>
         messageCheck (process s) (match processes s !! process s with Some w => WebProcessProxy.canCreateFrame id w | None => false end) s
           (snd (createFrame (process s) id s))
     end).

(** A transaction that makes one change, with an explicit commit. *)
Definition changeAndCommit (op : PLS.Operation) (s : WebPageProxy) : WebPageProxy :=
  endTransaction (commitChanges (mutate op (beginTransaction s))).

Definition didStartProgress : WebPageProxy -> WebPageProxy := changeAndCommit PLS.OpDidStartProgress.
Definition didChangeProgress (value : PLS.double) : WebPageProxy -> WebPageProxy := changeAndCommit (PLS.OpDidChangeProgress value).
Definition didFinishProgress : WebPageProxy -> WebPageProxy := changeAndCommit PLS.OpDidFinishProgress.
Definition setNetworkRequestsInProgress (b : bool) (s : WebPageProxy) : WebPageProxy :=
  endTransaction (mutate (PLS.OpSetNetworkRequestsInProgress b) (beginTransaction s)).

Definition didDestroyNavigation (id : Z) (s : WebPageProxy) : WebPageProxy :=
  match provisionalPage s with
  | Some pp => if pp_navigationID pp =? id then s else s <| navigations := Navigation.didDestroyNavigation id (navigations s) |>
  | None => s <| navigations := Navigation.didDestroyNavigation id (navigations s) |>
  end.

(** ** Handlers shared by the page and its provisional page *)

(** [m_provisionalPage = nullptr], with the destructor of [ProvisionalPageProxy]. *)
Definition dropProvisionalPage (s : WebPageProxy) : WebPageProxy :=
  match provisionalPage s with
  | None => s
  | Some pp =>
      let s := s <| provisionalPage := None |> in
      if pp_wasCommitted pp then s
      else tellAll [WillDestroyProvisionalPage; RemoveMessageReceiver (pp_process pp); ClosePage (pp_process pp)] s
  end.

Definition didFailProvisionalLoadForFrameShared (now : Z) (p : nat) (id : Z) (navigationID : Z) (provisionalURL : String)
    (error : ResourceError) (willContinueLoading : bool) (s : WebPageProxy) : WebPageProxy :=
  withFrame p id s (fun frame =>
    let s := automationNavigationOccurred frame s in
    let n := mainFrameNavigation frame navigationID s in
    let s := if isMainFrame frame s && negb (navigationID =? 0)
             then s <| navigations := snd (Navigation.takeNavigation navigationID (navigations s)) |> else s in
    let s := beginTransaction s in
    (* the navigation was taken out of the map: clearing its activity changes nothing there *)
    let s := if isMainFrame frame s
             then tell (PageClient (DidFailProvisional error) None)
                    (mutate PLS.OpDidFailProvisionalLoad (reportPageLoadResult now error s))
             else s in
    let s := onFrame frame WebFrameProxy.didFailProvisionalLoad s in
    let s := commitChanges s in
    let s := s <| failingProvisionalLoadURL := provisionalURL |> in
    let s := if loaderClient s then tell (LoaderClient (DidFailProvisional error) frame n) s
             else tellAll [NavigationClient (DidFailProvisional error) n; NavigationClientForFrame (DidFailProvisional error)] s in
    let s := s <| failingProvisionalLoadURL := None |> in
    let failed := match provisionalPage s with
                  | Some pp => bool_decide (pp_mainFrame pp = Some frame) && negb willContinueLoading
                  | None => false
                  end in
    endTransaction (if failed then dropProvisionalPage s else s)).

(** [ProvisionalPageProxy::validateInput]; a message without a navigation passes 0. *)
Definition validateInput (id : Z) (navigationID : Z) (pp : ProvisionalPageProxy) (s : WebPageProxy) : bool :=
  match pp_mainFrame pp ≫= (frames s !!.) with
  | Some w => (WebFrameProxy.frameID w =? id) && ((navigationID =? 0) || (navigationID =? pp_navigationID pp))
  | None => false
  end.

Definition onMainFrame (f : WebFrameProxy.WebFrameProxy -> WebFrameProxy.WebFrameProxy) (s : WebPageProxy) : WebPageProxy :=
  match mainFrame s with Some frame => onFrame frame f s | None => s end.

(** [ProvisionalPageProxy::didFailProvisionalLoadForFrame]. *)
Definition provisional_didFailProvisionalLoadForFrame (now : Z) (id : Z) (navigationID : Z) (provisionalURL : String)
    (error : ResourceError) (willContinueLoading : bool) (pp : ProvisionalPageProxy) (s : WebPageProxy) : WebPageProxy :=
  if negb (validateInput id navigationID pp s) then s
  else
    let s := s <| provisionalPage := Some (pp <| pp_provisionalLoadURL := None |>) |> in
    let s := onMainFrame WebFrameProxy.didFailProvisionalLoad s in
    didFailProvisionalLoadForFrameShared now (pp_process pp) id navigationID provisionalURL error willContinueLoading s.

(** [API::Error::Network::Cancelled]. *)
Definition cancelledErrorCode : Z := 302.

(** [ProvisionalPageProxy::cancel]. *)
Definition cancel (now : Z) (pp : ProvisionalPageProxy) (s : WebPageProxy) : WebPageProxy :=
  if PLS.isEmpty (pp_provisionalLoadURL pp) then s
  else match pp_mainFrame pp ≫= (frames s !!.) with
       | Some w =>
           provisional_didFailProvisionalLoadForFrame now (WebFrameProxy.frameID w) (pp_navigationID pp)
             (pp_provisionalLoadURL pp) (mkError Cancellation cancelledErrorCode) false pp s
       | None => s  (* a load that started has a main frame *)
       end.

Definition didStartProvisionalLoadForFrameShared (now : Z) (p : nat) (id : Z) (infoIsMainFrame : bool) (navigationID : Z)
    (u unreachable : URL) (s : WebPageProxy) : WebPageProxy :=
  withFrame p id s (fun frame =>
  messageCheck p (checkURLReceived p u s) s (
    let s := match provisionalPage s with
             | Some pp =>
                 if isMainFrame frame s && bool_decide (pp_mainFrame pp <> Some frame)
                 then dropProvisionalPage (cancel now pp s) else s
             | None => s
             end in
    let n := mainFrameNavigation frame navigationID s in
    let s := mutate PLS.OpClearPendingAPIRequest (beginTransaction s) in
    let s := if isMainFrame frame s then
               let s := onProcess p (WebProcessProxy.didStartProvisionalLoadForMainFrame u) s in
               let s := reportPageLoadResult now (mkError Cancellation 0) s in
               let s := s <| pageLoadStart := Some now |> in
               let s := mutate (PLS.OpDidStartProvisionalLoad u unreachable) s in
               tellAll [PageClient DidStart None; CloseOverlayedViews] s
             else s in
    let s := onFrame frame (WebFrameProxy.setUnreachableURL unreachable) s in
    let s := onFrame frame (WebFrameProxy.didStartProvisionalLoad u) s in
    let s := commitChanges s in
    endTransaction (tellClients DidStart frame n infoIsMainFrame s))).

Definition didReceiveServerRedirectForProvisionalLoadForFrameShared (p : nat) (id : Z) (navigationID : Z) (u : URL)
    (s : WebPageProxy) : WebPageProxy :=
  withFrame p id s (fun frame =>
  messageCheck p (checkURLReceived p u s) s (
    let n := if navigationID =? 0 then None else knownNavigation navigationID s in
    let s := match n with Some i => onNavigation i (Navigation.appendRedirectionURL u) s | None => s end in
    let s := beginTransaction s in
    let s := if isMainFrame frame s then mutate (PLS.OpDidReceiveServerRedirectForProvisionalLoad u) s else s in
    let s := onFrame frame (WebFrameProxy.didReceiveServerRedirectForProvisionalLoad u) s in
    let s := commitChanges s in
    let s := if loaderClient s then tell (LoaderClient DidRedirect frame (if isMainFrame frame s then n else None)) s
             else if isMainFrame frame s then tell (NavigationClient DidRedirect n) s else s in
    endTransaction s)).

Definition didChangeProvisionalURLForFrameShared (p : nat) (id : Z) (u : URL) (s : WebPageProxy) : WebPageProxy :=
  withFrame p id s (fun frame =>
  messageCheck p (match frames s !! frame with
                  | Some w => bool_decide (FrameLoadState.state (WebFrameProxy.frameLoadState w) = FrameLoadState.Provisional)
                  | None => false
                  end) s (
  messageCheck p (checkURLReceived p u s) s (
    let s := beginTransaction s in
    let s := if isMainFrame frame s then mutate (PLS.OpDidReceiveServerRedirectForProvisionalLoad u) s else s in
    endTransaction (onFrame frame (WebFrameProxy.didReceiveServerRedirectForProvisionalLoad u) s)))).

(** ** Handlers of messages from the page's own process *)

Definition didFailProvisionalLoadForFrame (now : Z) (id : Z) (navigationID : Z) (provisionalURL : String)
    (error : ResourceError) (willContinueLoading : bool) (s : WebPageProxy) : WebPageProxy :=
  let continues := match provisionalPage s with Some pp => pp_navigationID pp =? navigationID | None => false end in
  if continues then s
  else didFailProvisionalLoadForFrameShared now (process s) id navigationID provisionalURL error willContinueLoading s.

Definition didExplicitOpenForFrame (id : Z) (u : URL) (mimeType : String) (s : WebPageProxy) : WebPageProxy :=
  withFrame (process s) id s (fun frame =>
    if negb (checkURLReceived (process s) u s) then s
    else
      let s := beginTransaction s in
      let s := if isMainFrame frame s then mutate (PLS.OpDidExplicitOpen u) s else s in
      let s := onFrame frame (WebFrameProxy.didExplicitOpen u mimeType) s in
      let s := s <| hasCommittedAnyProvisionalLoads := true |> in
      let s := onProcess (process s) WebProcessProxy.didCommitProvisionalLoad s in
      endTransaction (commitChanges s)).

Definition checkIfNavigationContainsDataTransfer (n : Navigation.Navigation) : list DataTransferFlag :=
  if isUnique (Navigation.requesterOrigin n) then []
  else (if hasQueryOrFragment (Navigation.currentRequest n) then [DestinationLinkDecoration] else []) ++
       (if hasQueryOrFragment (Navigation.httpReferrer n) then [ReferrerLinkDecoration] else []).

(** A navigation that carries data to another site is announced to the network process. *)
Definition announceDataTransfer (n : Navigation.Navigation) (s : WebPageProxy) : WebPageProxy :=
  let flags := checkIfNavigationContainsDataTransfer n in
  let current := registrableDomain (Navigation.currentRequest n) in
  let requester := registrableDomain (Navigation.requesterOrigin n) in
  if bool_decide (flags <> []) && bool_decide (current <> requester)
  then tell (DidCommitCrossSiteLoadWithDataTransfer requester current flags) s else s.

(** What [didCommitLoadForFrame] gets besides the frame and the navigation. *)
Record Commit := mkCommit {
  commit_infoIsMainFrame : bool;
  commit_mimeType : String;
  commit_hasCustomContentProvider : bool;
  commit_loadType : FrameLoadType;
  commit_certificate : nat;
  commit_usedLegacyTLS : bool;
  commit_containsPluginDocument : bool;
  commit_hasInsecureContent : option bool;
  commit_mouseEventPolicy : Z
}.

Definition didCommitLoadForFrame (id : Z) (navigationID : Z) (c : Commit) (s : WebPageProxy) : WebPageProxy :=
  withFrame (process s) id s (fun frame =>
    let n := mainFrameNavigation frame navigationID s in
    let s := match navigationOf n s with Some v => announceDataTransfer v s | None => s end in
    let s := s <| hasCommittedAnyProvisionalLoads := true |> in
    let s := onProcess (process s) WebProcessProxy.didCommitProvisionalLoad s in
    let s := beginTransaction s in
    let markPageInsecure := match commit_hasInsecureContent c with
                            | Some b => b
                            | None => containsNonRootSHA1SignedCertificate (commit_certificate c)
                            end in
    let s := if isMainFrame frame s
             then (mutate (PLS.OpDidCommitLoad (commit_certificate c) markPageInsecure (commit_usedLegacyTLS c)) s)
                    <| shouldSuppressNextAutomaticNavigationSnapshot := false |>
             else if markPageInsecure then mutate PLS.OpDidDisplayOrRunInsecureContent s else s in
    let s := tell InvalidateLoadDependentCallbacks s in
    let s := onFrame frame (WebFrameProxy.didCommitLoad (commit_mimeType c) (commit_certificate c) (commit_containsPluginDocument c)) s in
    let s := if isMainFrame frame s then
               let measurement := match privateClickMeasurement s with
                                  | Some m => Some m
                                  | None => navigationOf n s ≫= Navigation.privateClickMeasurement
                                  end in
               match measurement, frames s !! frame with
               | Some m, Some w =>
                   if attributesOn m (FrameLoadState.url (WebFrameProxy.frameLoadState w))
                   then tell (StorePrivateClickMeasurement m) s else s
               | _, _ => s
               end
             else s in
    let s := s <| privateClickMeasurement := None |> in
    let s := if isMainFrame frame s then
               let s := s <| mainFrameHasCustomContentProvider := commit_hasCustomContentProvider c |> in
               let s := if commit_hasCustomContentProvider c
                        then tell PinnedStateDidChange (s <| mainFrameIsPinned := true |>) else s in
               let s := tell (PageClient DidCommit None) s in
               let s := if decide (commit_loadType c = Standard) then tell ResetScaleFactors s else s in
               tell (SetMouseEventPolicy (commit_mouseEventPolicy c)) s
             else s in
    let s := commitChanges s in
    endTransaction (tellClients DidCommit frame n (commit_infoIsMainFrame c) s)).

Definition didFinishLoadForFrame (now : Z) (id : Z) (infoIsMainFrame : bool) (navigationID : Z) (s : WebPageProxy) : WebPageProxy :=
  withFrame (process s) id s (fun frame =>
    let n := mainFrameNavigation frame navigationID s in
    let s := beginTransaction s in
    let main := isMainFrame frame s in
    let s := if main then mutate PLS.OpDidFinishLoad s else s in
    let s := automationNavigationOccurred frame s in
    let s := onFrame frame WebFrameProxy.didFinishLoad s in
    let s := commitChanges s in
    let s := tellClients DidFinish frame n infoIsMainFrame s in
    let s := if main then
               let s := tell (PageClient DidFinish n) (reportPageLoadResult now noError s) in
               let s := clearClientNavigationActivity n s in
               tellAll [ResetRecentCrashCountSoon; NotifyProcessPoolToPrewarm] s
             else s in
    endTransaction (s <| isLoadingAlternateHTMLStringForFailingProvisionalLoad := false |>)).

Definition didFailLoadForFrame (now : Z) (id : Z) (infoIsMainFrame : bool) (navigationID : Z) (error : ResourceError)
    (s : WebPageProxy) : WebPageProxy :=
  withFrame (process s) id s (fun frame =>
    let n := mainFrameNavigation frame navigationID s in
    let s := tell InvalidateLoadDependentCallbacks s in
    let s := beginTransaction s in
    let main := isMainFrame frame s in
    let s := if main then mutate PLS.OpDidFailLoad s else s in
    let s := automationNavigationOccurred frame s in
    let s := onFrame frame WebFrameProxy.didFailLoad s in
    let s := commitChanges s in
    let s := tellClients (DidFail error) frame n infoIsMainFrame s in
    let s := if main then
               clearClientNavigationActivity n (tell (PageClient (DidFail error) n) (reportPageLoadResult now error s))
             else s in
    endTransaction s).

Definition didSameDocumentNavigationForFrame (id : Z) (navigationID : Z) (type : Z) (u : URL) (s : WebPageProxy) : WebPageProxy :=
  withFrame (process s) id s (fun frame =>
  messageCheck (process s) (checkURLReceived (process s) u s) s (
    let n := mainFrameNavigation frame navigationID s in
    let s := beginTransaction s in
    let main := isMainFrame frame s in
    let s := if main then mutate (PLS.OpDidSameDocumentNavigation u) s else s in
    let s := automationNavigationOccurred frame s in
    let s := mutate PLS.OpClearPendingAPIRequest s in
    let s := onFrame frame (WebFrameProxy.didSameDocumentNavigation u) s in
    let s := commitChanges s in
    endTransaction (if main
                    then tellAll [NavigationClient (DidSameDocumentNavigate type) n; PageClient (DidSameDocumentNavigate type) None] s
                    else s))).

Definition didReceiveTitleForFrame (id : Z) (t : String) (s : WebPageProxy) : WebPageProxy :=
  withFrame (process s) id s (fun frame =>
    let s := beginTransaction s in
    let s := if isMainFrame frame s then mutate (PLS.OpSetTitle t) s else s in
    let s := onFrame frame (WebFrameProxy.didChangeTitle t) s in
    endTransaction (commitChanges s)).

(** ** The end of a web process *)

(** [resetState] clears the main frame; the other members it resets belong to parts of the
    page that are not modelled. *)
Definition resetState (r : ProcessTerminationReason) (s : WebPageProxy) : WebPageProxy :=
  tell (ResetState r) (s <| mainFrame := None |> <| mainFrameIsPinned := true |>).

(** The editor state, the event queues and the activity tokens it also clears belong to parts
    that are not modelled. *)
Definition resetStateAfterProcessExited (r : ProcessTerminationReason) (s : WebPageProxy) : WebPageProxy :=
  if negb (hasRunningProcess s) then s
  else
    let s := s <| hasRunningProcess := false |> in
    let s := tellAll [if decide (r = NavigationSwap) then ProcessWillSwap else ProcessDidExit; ClearAllEditCommands] s in
    let s := resetState r s in
    let s := if decide (r <> NavigationSwap) then endTransaction (mutate PLS.OpReset (beginTransaction s)) else s in
    tell (ProcessTerminated (process s)) s.

Definition resetStateAfterProcessTermination (r : ProcessTerminationReason) (s : WebPageProxy) : WebPageProxy :=
  let s := resetStateAfterProcessExited r s in
  let s := tell (StopAllURLSchemeTasks (process s)) s in
  let s := if decide (r <> NavigationSwap) then s <| navigations := Navigation.clearAllNavigations (navigations s) |> else s in
  if controlledByAutomation s then tell AutomationTerminate s else s.

Definition shouldReloadAfterProcessTermination (r : ProcessTerminationReason) : bool :=
  match r with
  | ExceededMemoryLimit | ExceededCPULimit | RequestedByNetworkProcess | RequestedByGPUProcess | Crashed => true
  | NavigationSwap | RequestedByClient => false
  end.

Definition maximumWebProcessRelaunchAttempts : Z := 1.
Definition tryReloadAfterProcessTermination (s : WebPageProxy) : WebPageProxy :=
  let s := tell StopResetRecentCrashCountTimer s in
  let s := s <| recentCrashCount := wrap 32 (recentCrashCount s + 1) |> in
  if maximumWebProcessRelaunchAttempts <? recentCrashCount s then s <| recentCrashCount := 0 |> else tell Reload s.

(** [handled]: what the client answers. *)
Definition dispatchProcessDidTerminate (handled : bool) (r : ProcessTerminationReason) (s : WebPageProxy) : WebPageProxy :=
  let asked := negb (loaderClient s) || bool_decide (r <> RequestedByClient) in
  let s := if asked then tell (ClientProcessDidTerminate r) s else s in
  if negb (asked && handled) && shouldReloadAfterProcessTermination r then tryReloadAfterProcessTermination s else s.

Definition provisionalProcessDidTerminate (s : WebPageProxy) : WebPageProxy := dropProvisionalPage s.

(** The part of [WebProcessProxy::shutDown] about frames. *)
Definition shutDown (p : nat) (s : WebPageProxy) : WebPageProxy :=
  onProcess p (fun w => w <| WebProcessProxy.frameMap := ∅ |>) s.

Definition usesProcess (p : nat) (s : WebPageProxy) : bool :=
  match provisionalPage s with Some pp => Nat.eqb (pp_process pp) p | None => false end.

(** [WebProcessProxy::processDidTerminateOrFailedToLaunch]: the process [p] crashed.  The
    transaction is open until the client has been told. *)
Definition processDidTerminateOrFailedToLaunch (handled : bool) (p : nat) (s : WebPageProxy) : WebPageProxy :=
  let isPage := Nat.eqb (process s) p && hasRunningProcess s in
  let isProvisional := usesProcess p s in
  let s := shutDown p s in
  let s := if isPage then resetStateAfterProcessTermination Crashed (beginTransaction s) else s in
  let s := if isProvisional then provisionalProcessDidTerminate s else s in
  if isPage then endTransaction (dispatchProcessDidTerminate handled Crashed s) else s.

(** [WebProcessProxy::requestTermination]. *)
Definition requestTermination (handled : bool) (p : nat) (r : ProcessTerminationReason) (s : WebPageProxy) : WebPageProxy :=
  let isPage := Nat.eqb (process s) p && hasRunningProcess s in
  let isProvisional := usesProcess p s in
  let s := shutDown p s in
  let s := if isPage then resetStateAfterProcessTermination r s else s in
  let s := if isProvisional then provisionalProcessDidTerminate s else s in
  if isPage then dispatchProcessDidTerminate handled r s else s.

(** ** Process swap *)

(** [shouldDelayClosingUntilFirstLayerFlush] is [No] but on macOS. *)
Definition suspendCurrentPageIfPossible (n : Navigation.Navigation) (mainFrameID : option Z) (s : WebPageProxy) : bool * WebPageProxy :=
  match mainFrameID with
  | None => (false, s)
  | Some id =>
      if negb (hasCommittedAnyProvisionalLoads s) then (false, s)
      else if openedByDOM s && negb (hasCommittedAnyProvisionalLoads s) then (false, s)
      else match Navigation.fromItem n with
           | Some (item, itemURL) =>
               if bool_decide (fst <$> currentItem s = Some item) then (false, s)
               else if bool_decide (itemURL <> PLS.Data.url (PLS.committedState (pageLoadState s))) then (false, s)
               else if negb (usesBackForwardCache s) then (false, s)
               else (true, tell (SuspendPage (process s) id) s)
           | None => (false, s)
           end
  end.

Definition swapToProvisionalPage (pp : ProvisionalPageProxy) (s : WebPageProxy) : WebPageProxy :=
  let s := s <| process := pp_process pp |> <| hasRunningProcess := true |> <| mainFrame := pp_mainFrame pp |> in
  let s := tellAll [AddMessageReceiver (pp_process pp); DidRelaunchProcess] s in
  didSwapWebProcesses s.

Definition commitProvisionalPage (id : Z) (navigationID : Z) (c : Commit) (pp : ProvisionalPageProxy) (s : WebPageProxy) : WebPageProxy :=
  let previousMainFrameID := WebFrameProxy.frameID <$> (mainFrame s ≫= (frames s !!.)) in
  let s := resetStateAfterProcessTermination NavigationSwap s in
  let s := tell (RemoveMessageReceiver (process s)) s in
  let '(didSuspend, s) := match navigations s !! pp_navigationID pp with
                          | Some n => suspendCurrentPageIfPossible n previousMainFrameID s
                          | None => (false, s)
                          end in
  let s := tell (RemoveWebPage (process s)) s in
  let s := if didSuspend then s else tell (ClosePage (process s)) s in
  let s := swapToProvisionalPage pp (s <| provisionalPage := None |>) in
  let s := didCommitLoadForFrame id navigationID c s in
  tell DidCommitProvisionalPage s.

(** ** Loads asked for by the embedder, and navigations that continue in a new process *)

Definition maybeInitializeSandboxExtensionHandle (p : nat) (u resourceDirectoryURL : URL) (s : WebPageProxy) : WebPageProxy :=
  let assumed u := match processes s !! p with Some w => WebProcessProxy.hasAssumedReadAccessToURL u w | None => false end in
  let forURL s :=
    if assumed u then s
    else if createHandle "/" then willAcquireUniversalFileReadSandboxExtension p s
    else match basePath u with
         | None => s
         | Some path => if createHandle path then assumeReadAccessToBaseURL p u s else s  (* of the base URL: the same path *)
         end in
  if negb (isLocalFile u) then s
  else if PLS.isEmpty resourceDirectoryURL then forURL s
  else if assumed resourceDirectoryURL then s
  else if createHandle (fileSystemPath resourceDirectoryURL) then assumeReadAccessToBaseURL p resourceDirectoryURL s
  else forURL s.

Definition loadRequestWithNavigationShared (p : nat) (id : Z) (request : URL) (continuing : bool) (s : WebPageProxy) : WebPageProxy :=
  let s := beginTransaction s in
  let s := if continuing then s else mutate (PLS.OpSetPendingAPIRequest (PLS.mkRequest id request) None) s in
  let s := maybeInitializeSandboxExtensionHandle p request (PLS.resourceDirectoryURL (pageLoadState s)) s in
  endTransaction (tell (LoadRequest p id request) s).

Definition aboutBlankURL : URL := Some "about:blank"%string.
Definition loadDataWithNavigationShared (p : nat) (id : Z) (baseURL : URL) (s : WebPageProxy) : WebPageProxy :=
  let s := beginTransaction s in
  let s := mutate (PLS.OpSetPendingAPIRequest (PLS.mkRequest id (if PLS.isEmpty baseURL then aboutBlankURL else baseURL)) None) s in
  let s := assumeReadAccessToBaseURL p baseURL s in
  endTransaction (tell (LoadData p id baseURL) s).

(** A navigation gets the next identifier. *)
Definition addNavigation (n : Navigation.Navigation) (s : WebPageProxy) : Z * WebPageProxy :=
  let id := wrap 64 (navigationID s + 1) in
  (id, s <| navigationID := id |> <| navigations := Navigation.addNavigation id n (navigations s) |>).

(** [p] is the process the pool gives. *)
Definition launchProcess (p : nat) (s : WebPageProxy) : WebPageProxy :=
  let s := tellAll [RemoveWebPage (process s); RemoveMessageReceiver (process s)] s in
  let s := s <| process := p |> <| hasRunningProcess := true |>
             <| processes := partial_alter (fun w => Some (default WebProcessProxy.create w)) p (processes s) |> in
  didSwapWebProcesses (tellAll [AddMessageReceiver p; DidRelaunchProcess] s).
Definition ensureRunningProcess (p : nat) (s : WebPageProxy) : WebPageProxy :=
  if hasRunningProcess s then s else launchProcess p s.

(** In the embedder's loads, [p] is the process that is launched when there is none. *)
Definition loadRequest (p : nat) (request : URL) (s : WebPageProxy) : WebPageProxy :=
  let s := ensureRunningProcess p s in
  let '(id, s) := addNavigation (Navigation.createLoadRequestNavigation request (currentItem s)) s in
  loadRequestWithNavigationShared (process s) id request false s.

Definition loadData (p : nat) (baseURL : URL) (s : WebPageProxy) : WebPageProxy :=
  let s := ensureRunningProcess p s in
  let '(id, s) := addNavigation (Navigation.createLoadDataNavigation baseURL) s in
  loadDataWithNavigationShared (process s) id baseURL s.

Definition loadAlternateHTML (p : nat) (baseURL unreachable : URL) (s : WebPageProxy) : WebPageProxy :=
  if isLoadingAlternateHTMLStringForFailingProvisionalLoad s then s
  else
    let s := if PLS.isEmpty (failingProvisionalLoadURL s) then s
             else s <| isLoadingAlternateHTMLStringForFailingProvisionalLoad := true |> in
    let s := ensureRunningProcess p s in
    let s := beginTransaction s in
    let s := mutate (PLS.OpSetPendingAPIRequest (PLS.mkRequest 0 unreachable) None) s in
    let s := mutate (PLS.OpSetUnreachableURL unreachable) s in
    let s := onMainFrame (WebFrameProxy.setUnreachableURL unreachable) s in
    let s := assumeReadAccessToBaseURL (process s) baseURL s in
    let s := assumeReadAccessToBaseURL (process s) unreachable s in
    endTransaction (tell (LoadAlternateHTML (process s) baseURL unreachable) s).

(** What a web process says about a navigation before it asks for a decision. *)
Record NavigationAction := mkNavigationAction {
  action_isRedirect : bool;
  action_requesterOrigin : String;
  action_httpReferrer : URL;
  (* items of the back/forward list, with the URL of the first and the identity of the second *)
  action_targetItem : option URL;
  action_sourceItem : option (nat * URL)
}.

(** [decidePolicyForNavigationAction] up to the question to the client; the answer comes as
    a separate step. *)
Definition decidePolicyForNavigationAction (p : nat) (frame : nat) (id : Z) (action : NavigationAction)
    (originalRequest request : URL) (s : WebPageProxy) : WebPageProxy :=
  let s := beginTransaction s in
  let fromAPI := bool_decide (request = PLS.pendingAPIRequestURL (pageLoadState s)) in
  let s := if negb (id =? 0) && negb fromAPI then mutate PLS.OpClearPendingAPIRequest s else s in
  if negb (checkURLReceived p request s) then endTransaction (tell (SendPolicyIgnore p) s)
  else if negb (checkURLReceived p originalRequest s) then endTransaction (tell (MarkCurrentlyDispatchedMessageAsInvalid p) s)
  else
    let known := if id =? 0 then None else navigations s !! id in
    let isRedirect := action_isRedirect action in
    let requester := match known with
                     | Some n => if isRedirect then Navigation.requesterOrigin n else action_requesterOrigin action
                     | None => action_requesterOrigin action
                     end in
    let '(id, s) := match known with
                    | Some _ => (id, s)
                    | None =>
                        addNavigation (match action_targetItem action with
                                       | Some target =>
                                           Navigation.createBackForwardNavigation target
                                             (match action_sourceItem action with Some i => Some i | None => currentItem s end)
                                       | None => Navigation.createLoadRequestNavigation request (currentItem s)
                                       end) s
                    end in
    let s := match provisionalPage s with
             | Some pp => if Nat.eqb (pp_process pp) p then s <| provisionalPage := Some (pp <| pp_navigationID := id |>) |> else s
             | None => s
             end in
    let s := onNavigation id (fun n => n <| Navigation.currentRequest := request |> <| Navigation.httpReferrer := action_httpReferrer action |>
                                         <| Navigation.currentRequestIsRedirect := isRedirect |>
                                         <| Navigation.requesterOrigin := requester |>) s in
    endTransaction (tell (AskPolicyClient frame id request) s).

(** The client's answer moves the navigation to the process [newProcess]; [suspended] is the
    main frame of the suspended page that is reused. *)
Definition continueNavigationInNewProcess (now : Z) (id : Z) (n : Navigation.Navigation) (newProcess : nat)
    (suspended : option Z) (s : WebPageProxy) : WebPageProxy :=
  let s := match provisionalPage s with
           | Some pp => dropProvisionalPage (if pp_navigationID pp =? id then s else cancel now pp s)
           | None => s
           end in
  let s := s <| processes := partial_alter (fun w => Some (default WebProcessProxy.create w)) newProcess (processes s) |> in
  let '(frame, s) := match suspended with
                     | Some frameID => let '(frame, s) := createFrame newProcess frameID s in (Some frame, s)
                     | None => (None, s)
                     end in
  let pp := mkProvisionalPageProxy newProcess frame id (Navigation.currentRequestIsRedirect n)
              (Navigation.currentRequest n) None false in
  let s := tellAll [AddMessageReceiver newProcess; DidCreateProvisionalPage newProcess] (s <| provisionalPage := Some pp |>) in
  match Navigation.targetItem n, Navigation.substituteData n with
  | Some itemURL, _ =>
      let s := mutate (PLS.OpSetPendingAPIRequest (PLS.mkRequest id itemURL) None) (beginTransaction s) in
      endTransaction (tell (GoToBackForwardItem newProcess id) s)
  | None, Some baseURL => loadDataWithNavigationShared newProcess id baseURL s
  | None, None => loadRequestWithNavigationShared newProcess id (Navigation.currentRequest n) true s
  end.

(** ** ProvisionalPageProxy.cpp *)

Definition provisional_didCreateMainFrame (id : Z) (pp : ProvisionalPageProxy) (s : WebPageProxy) : WebPageProxy :=
  let '(frame, s) := createFrame (pp_process pp) id s in
  let s := s <| provisionalPage := Some (pp <| pp_mainFrame := Some frame |>) |> in
  if negb (Navigation.hasNavigation (pp_navigationID pp) (navigations s)) then s
  else
    let s := match mainFrame s ≫= (frames s !!.) with
             | Some w => onFrame frame (WebFrameProxy.onLoadState
                           (FrameLoadState.setURL (FrameLoadState.url (WebFrameProxy.frameLoadState w)))) s
             | None => s
             end in
    if pp_isServerRedirect pp then
      let s := onFrame frame (WebFrameProxy.onLoadState (FrameLoadState.didStartProvisionalLoad (pp_request pp))) s in
      didReceiveServerRedirectForProvisionalLoadForFrameShared (pp_process pp) id (pp_navigationID pp) (pp_request pp) s
    else s.

Definition provisional_didStartProvisionalLoadForFrame (now : Z) (id : Z) (infoIsMainFrame : bool) (navigationID : Z)
    (u unreachable : URL) (pp : ProvisionalPageProxy) (s : WebPageProxy) : WebPageProxy :=
  if negb (validateInput id navigationID pp s) then s
  else
    let s := s <| provisionalPage := Some (pp <| pp_provisionalLoadURL := u |>) |> in
    if pp_isServerRedirect pp then s
    else
      let s := onMainFrame (WebFrameProxy.didStartProvisionalLoad u) s in
      didStartProvisionalLoadForFrameShared now (pp_process pp) id infoIsMainFrame navigationID u unreachable s.

Definition provisional_didCommitLoadForFrame (id : Z) (navigationID : Z) (c : Commit) (pp : ProvisionalPageProxy) (s : WebPageProxy) : WebPageProxy :=
  if negb (validateInput id navigationID pp s) then s
  else
    let pp := pp <| pp_provisionalLoadURL := None |> <| pp_wasCommitted := true |> in
    let s := tell (RemoveMessageReceiver (pp_process pp)) (s <| provisionalPage := Some pp |>) in
    commitProvisionalPage id navigationID c pp s.

(** ** Steps *)

Inductive Message :=
| DidCreateMainFrame (id : Z)
| DidCreateSubframe (id : Z)
| DidDestroyFrame (id : Z)
| DidStartProgress
| DidChangeProgress (value : PLS.double)
| DidFinishProgress
| SetNetworkRequestsInProgress (b : bool)
| DidDestroyNavigation (navigation : Z)
| DidStartProvisionalLoadForFrame (id : Z) (infoIsMainFrame : bool) (navigation : Z) (u unreachable : URL)
| DidExplicitOpenForFrame (id : Z) (u : URL) (mimeType : String)
| DidReceiveServerRedirectForProvisionalLoadForFrame (id : Z) (navigation : Z) (u : URL)
| DidChangeProvisionalURLForFrame (id : Z) (navigation : Z) (u : URL)
| DidFailProvisionalLoadForFrame (id : Z) (navigation : Z) (provisionalURL : String) (e : ResourceError) (willContinueLoading : bool)
| DidCommitLoadForFrame (id : Z) (navigation : Z) (c : Commit)
| DidFinishLoadForFrame (id : Z) (infoIsMainFrame : bool) (navigation : Z)
| DidFailLoadForFrame (id : Z) (infoIsMainFrame : bool) (navigation : Z) (e : ResourceError)
| DidSameDocumentNavigationForFrame (id : Z) (navigation : Z) (type : Z) (u : URL)
| DidReceiveTitleForFrame (id : Z) (title : String)
| DecidePolicyForNavigationActionAsync (id : Z) (navigation : Z) (action : NavigationAction) (originalRequest request : URL).

(** A message from the page's process. *)
Definition didReceiveMessage (now : Z) (m : Message) (s : WebPageProxy) : WebPageProxy :=
  match m with
  | DidCreateMainFrame id => didCreateMainFrame id s
  | DidCreateSubframe id => didCreateSubframe id s
  | DidDestroyFrame id => onProcess (process s) (WebProcessProxy.didDestroyFrame id) s
  | DidStartProgress => didStartProgress s
  | DidChangeProgress v => didChangeProgress v s
  | DidFinishProgress => didFinishProgress s
  | SetNetworkRequestsInProgress b => setNetworkRequestsInProgress b s
  | DidDestroyNavigation n => didDestroyNavigation n s
  | DidStartProvisionalLoadForFrame id main n u unreachable =>
      didStartProvisionalLoadForFrameShared now (process s) id main n u unreachable s
  | DidExplicitOpenForFrame id u mime => didExplicitOpenForFrame id u mime s
  | DidReceiveServerRedirectForProvisionalLoadForFrame id n u =>
      didReceiveServerRedirectForProvisionalLoadForFrameShared (process s) id n u s
  | DidChangeProvisionalURLForFrame id n u => didChangeProvisionalURLForFrameShared (process s) id u s
  | DidFailProvisionalLoadForFrame id n u e will => didFailProvisionalLoadForFrame now id n u e will s
  | DidCommitLoadForFrame id n c => didCommitLoadForFrame id n c s
  | DidFinishLoadForFrame id main n => didFinishLoadForFrame now id main n s
  | DidFailLoadForFrame id main n e => didFailLoadForFrame now id main n e s
  | DidSameDocumentNavigationForFrame id n type u => didSameDocumentNavigationForFrame id n type u s
  | DidReceiveTitleForFrame id t => didReceiveTitleForFrame id t s
  | DecidePolicyForNavigationActionAsync id n a original request =>
      withFrame (process s) id s (fun frame => decidePolicyForNavigationAction (process s) frame n a original request s)
  end.

(** [ProvisionalPageProxy::didReceiveMessage]: some messages go to the page, the load of the
    main frame is handled, everything else is ignored.  [DidDestroyFrame] is a message to
    the process itself. *)
Definition provisional_didReceiveMessage (now : Z) (m : Message) (pp : ProvisionalPageProxy) (s : WebPageProxy) : WebPageProxy :=
  match m with
  | DidStartProgress | DidChangeProgress _ | DidFinishProgress | SetNetworkRequestsInProgress _ | DidDestroyNavigation _ =>
      didReceiveMessage now m s
  | DidDestroyFrame id => onProcess (pp_process pp) (WebProcessProxy.didDestroyFrame id) s
  | DidCreateMainFrame id => provisional_didCreateMainFrame id pp s
  | DidStartProvisionalLoadForFrame id main n u unreachable =>
      provisional_didStartProvisionalLoadForFrame now id main n u unreachable pp s
  | DidReceiveServerRedirectForProvisionalLoadForFrame id n u =>
      if validateInput id n pp s then didReceiveServerRedirectForProvisionalLoadForFrameShared (pp_process pp) id n u s else s
  | DidChangeProvisionalURLForFrame id n u =>
      if validateInput id n pp s then didChangeProvisionalURLForFrameShared (pp_process pp) id u s else s
  | DidFailProvisionalLoadForFrame id n u e will => provisional_didFailProvisionalLoadForFrame now id n u e will pp s
  | DidCommitLoadForFrame id n c => provisional_didCommitLoadForFrame id n c pp s
  | DecidePolicyForNavigationActionAsync id n a original request =>
      if validateInput id n pp s
      then withFrame (pp_process pp) id s (fun frame => decidePolicyForNavigationAction (pp_process pp) frame n a original request s)
      else s
  | _ => s
  end.

Inductive Step :=
| FromWebProcess (now : Z) (m : Message)
| FromProvisionalProcess (now : Z) (m : Message)
| LoadRequestStep (p : nat) (request : URL)
| LoadDataStep (p : nat) (baseURL : URL)
| LoadAlternateHTMLStep (p : nat) (baseURL unreachable : URL)
| ContinueNavigationInNewProcess (now : Z) (navigation : Z) (p : nat) (suspended : option Z)
| ProcessCrashed (p : nat) (handled : bool)
| RequestTermination (p : nat) (r : ProcessTerminationReason) (handled : bool)
| BackForwardListChanged (current : option (nat * URL)) (items : list (URL * URL))
| SetPrivateClickMeasurement (m : option nat).

Definition step (a : Step) (s : WebPageProxy) : WebPageProxy :=
  match a with
  | FromWebProcess now m => didReceiveMessage now m s
  | FromProvisionalProcess now m =>
      match provisionalPage s with Some pp => provisional_didReceiveMessage now m pp s | None => s end
  | LoadRequestStep p u => loadRequest p u s
  | LoadDataStep p u => loadData p u s
  | LoadAlternateHTMLStep p u v => loadAlternateHTML p u v s
  | ContinueNavigationInNewProcess now id p suspended =>
      match navigations s !! id with Some n => continueNavigationInNewProcess now id n p suspended s | None => s end
  | ProcessCrashed p handled => processDidTerminateOrFailedToLaunch handled p s
  | RequestTermination p r handled => requestTermination handled p r s
  | BackForwardListChanged c items => s <| currentItem := c |> <| allItems := items |>
  | SetPrivateClickMeasurement m => s <| privateClickMeasurement := m |>
  end.

Definition steps (l : list Step) (s : WebPageProxy) : WebPageProxy := foldl (fun s a => step a s) s l.

(** ** Sequential reasoning about handlers *)

(** The load state between transactions ([n] = 0) and inside [n] of them. *)
Definition inTransactions (n : Z) (l : PLS.PageLoadState) : Prop :=
  PLS.outstandingTransactionCount l = n /\ 0 <= n < 2 ^ 32 - 1 /\
  (PLS.mayHaveUncommittedChanges l = false -> PLS.committedState l = PLS.uncommittedState l) /\
  (n = 0 -> PLS.mayHaveUncommittedChanges l = false).

(** What committing leaves alone. *)
Definition pending (l : PLS.PageLoadState) := (PLS.uncommittedState l, PLS.lastUnreachableURL l).

Lemma callEach_listen c copy l :
  exists l', PLS.callEach protocolIs PLS.passive listen c copy l = Done l' /\
    PLS.core l' = PLS.core l /\ pending l' = pending l.
Proof.
  revert l. induction copy as [|o copy IH]; intros l; cbn [PLS.callEach]; [by exists l|].
  case_decide as Ho; [|apply IH]. cbn [PLS.run PLS.performAll PLS.passive outcome_bind].
  destruct (IH (PLS.notify protocolIs o c l)) as (l' & E & Hc & Hp). exists l'. split; [exact E|].
  rewrite Hc, Hp. split; [apply PLS.notify_core|by destruct c].
Qed.

Lemma callChanged_listen callback changed order l :
  exists l', PLS.callChanged protocolIs PLS.passive listen callback changed order l = Done l' /\
    PLS.core l' = PLS.core l /\ pending l' = pending l.
Proof.
  revert l. induction order as [|p order IH]; intros l; cbn [PLS.callChanged]; [by exists l|].
  destruct (changed p); [|by apply IH]. unfold PLS.callObserverCallback.
  destruct (callEach_listen (callback p) (PLS.observers l) l) as (l1 & E1 & Hc1 & Hp1).
  rewrite E1. cbn [outcome_bind]. destruct (IH l1) as (l' & E & Hc & Hp). exists l'. by rewrite E, Hc, Hp.
Qed.

Lemma PLS_commitChanges l :
  exists l', PLS.commitChanges protocolIs PLS.passive listen l = Done l' /\ pending l' = pending l /\
    PLS.outstandingTransactionCount l' = PLS.outstandingTransactionCount l /\ PLS.mayHaveUncommittedChanges l' = false /\
    PLS.committedState l' = if PLS.mayHaveUncommittedChanges l then PLS.uncommittedState l else PLS.committedState l.
Proof.
  unfold PLS.commitChanges. destruct (PLS.mayHaveUncommittedChanges l) eqn:Em; cbn [negb]; [|by exists l].
  match goal with |- context [PLS.callChanged _ _ _ PLS.WillChange ?ch ?o ?s0] =>
    destruct (callChanged_listen PLS.WillChange ch o s0) as (l1 & E1 & Hc1 & Hp1) end.
  rewrite E1. cbn [outcome_bind].
  match goal with |- context [PLS.callChanged _ _ _ PLS.DidChange ?ch ?o ?s0] =>
    destruct (callChanged_listen PLS.DidChange ch o s0) as (l2 & E2 & Hc2 & Hp2) end.
  exists l2. split; [exact E2|]. injection Hc1 as Eo Ec Eu Emm Et. injection Hc2 as Eo2 Ec2 Eu2 Em2 Et2.
  injection Hp1 as _ El. injection Hp2 as _ El2. unfold pending. cbn in *. split_and!; congruence.
Qed.

Lemma inTransactions_begin n l :
  inTransactions n l -> n < 2 ^ 32 - 2 -> inTransactions (n + 1) (PLS.beginTransaction l).
Proof.
  intros (Ec & Hn & Hm & Hz) Hlt. unfold inTransactions, PLS.beginTransaction. cbn.
  rewrite Ec, wrap_small by (unfold in_width; lia). split_and!; [done|lia|lia|exact Hm|lia].
Qed.

Lemma mutate_marks op l : PLS.mayHaveUncommittedChanges (PLS.mutate op l) = true.
Proof. by destruct op. Qed.

Lemma inTransactions_mutate op n l : 0 < n -> inTransactions n l -> inTransactions n (PLS.mutate op l).
Proof.
  intros Hpos (Ec & Hn & Hm & Hz). unfold inTransactions. rewrite mutate_marks. split_and!; [|lia|lia|done|lia].
  rewrite <- Ec. pose proof (PLS.mutate_fields op l) as Hf. unfold PLS.core in Hf. by destruct op.
Qed.

Lemma inTransactions_commit n l :
  inTransactions n l -> inTransactions n (settle (PLS.commitChanges protocolIs PLS.passive listen l) l).
Proof.
  intros (Ec & Hn & Hm & Hz). destruct (PLS_commitChanges l) as (l' & E & Hp & Ec' & Em' & Ecs). rewrite E. cbn [settle].
  injection Hp as Eu _. split_and!; [congruence|lia|lia| |done]. intros _. rewrite Ecs, Eu.
  destruct (PLS.mayHaveUncommittedChanges l); [done|by apply Hm].
Qed.

Lemma pending_commit l : pending (settle (PLS.commitChanges protocolIs PLS.passive listen l) l) = pending l.
Proof. destruct (PLS_commitChanges l) as (l' & E & Hp & _). by rewrite E. Qed.

Lemma inTransactions_end n l :
  inTransactions (n + 1) l -> 0 <= n -> inTransactions n (settle (PLS.endTransaction protocolIs PLS.passive listen l) l).
Proof.
  intros (Ec & Hn & Hm & _) Hpos. unfold PLS.endTransaction. set (l0 := l <| PLS.outstandingTransactionCount := _ |>).
  assert (Ec0 : PLS.outstandingTransactionCount l0 = n).
  { transitivity (wrap 32 (PLS.outstandingTransactionCount l - 1)); [done|].
    rewrite Ec, wrap_small by (unfold in_width; lia). lia. }
  cbv zeta. rewrite Ec0. destruct (Z.eqb_spec n 0) as [->|Hne]; [|by split_and!; [|lia|lia|exact Hm|lia]].
  destruct (PLS_commitChanges l0) as (l' & E & Hp & Ec' & Em' & Ecs). rewrite E. cbn [settle].
  injection Hp as Eu _. split_and!; [congruence|lia|lia| |done]. intros _. rewrite Ecs, Eu.
  destruct (PLS.mayHaveUncommittedChanges l0) eqn:Em0; [done|by apply Hm].
Qed.

Lemma pending_end l : pending (settle (PLS.endTransaction protocolIs PLS.passive listen l) l) = pending l.
Proof.
  unfold PLS.endTransaction. cbv zeta. case_match; [|done].
  match goal with |- context [PLS.commitChanges _ _ _ ?l0] => destruct (PLS_commitChanges l0) as (l' & E & Hp & _) end.
  rewrite E. exact Hp.
Qed.

Lemma swap_listen l :
  PLS.core (settle (PLS.didSwapWebProcesses protocolIs PLS.passive listen l) l) = PLS.core l /\
  pending (settle (PLS.didSwapWebProcesses protocolIs PLS.passive listen l) l) = pending l.
Proof.
  unfold PLS.didSwapWebProcesses, PLS.callObserverCallback.
  destruct (callEach_listen PLS.DidSwapWebProcesses (PLS.observers l) l) as (l' & E & Hc & Hp). by rewrite E.
Qed.

Lemma inTransactions_swap n l :
  inTransactions n l -> inTransactions n (settle (PLS.didSwapWebProcesses protocolIs PLS.passive listen l) l).
Proof.
  intros (Ec & Hn & Hm & Hz). destruct (swap_listen l) as [Hc _]. revert Hc. generalize (settle (PLS.didSwapWebProcesses protocolIs PLS.passive listen l) l).
  intros l' Hc. unfold PLS.core in Hc. injection Hc as Eo Ecs Eu Em Et.
  unfold inTransactions. rewrite Ecs, Eu, Em, Et. done.
Qed.

End page.
End WebPageProxy.

(** A handler binds the state after each statement: prove [P] of what is bound, then go on
    with any state that satisfies it. *)
Lemma let_step {A B : Type} (P : A -> Prop) (Q : B -> Prop) (e : A) (b : A -> B) :
  P e -> (forall x, P x -> Q (b x)) -> Q (b e).
Proof. auto. Qed.

Lemma withFrame_elim (Q : WebPageProxy.WebPageProxy -> Prop) p id s k :
  Q (WebPageProxy.tell (WebPageProxy.MarkCurrentlyDispatchedMessageAsInvalid p) s) ->
  (forall frame, WebPageProxy.webFrame p id s = Some frame -> Q (k frame)) -> Q (WebPageProxy.withFrame p id s k).
Proof. intros. unfold WebPageProxy.withFrame. case_match; auto. Qed.

Lemma messageCheck_elim (Q : WebPageProxy.WebPageProxy -> Prop) p (b : bool) s k :
  Q (WebPageProxy.tell (WebPageProxy.MarkCurrentlyDispatchedMessageAsInvalid p) s) ->
  (b = true -> Q k) -> Q (WebPageProxy.messageCheck p b s k).
Proof. intros. unfold WebPageProxy.messageCheck. destruct b; auto. Qed.

(** Enter a handler without expanding what it binds. *)
Ltac handler_enter H :=
  repeat lazymatch goal with
  | |- ?Q (WebPageProxy.withFrame ?p ?i ?s ?k) =>
      apply (withFrame_elim Q p i s k); [exact H|]; let f := fresh "frame" in let E := fresh "Hframe" in intros f E; cbv beta
  | |- ?Q (WebPageProxy.messageCheck ?p ?b ?s ?k) =>
      apply (messageCheck_elim Q p b s k); [exact H|]; let E := fresh "Hcheck" in intros E
  end.
Ltac handler_step P :=
  lazymatch goal with
  | |- ?Q (let x := ?e in @?b x) => refine (let_step P Q e b _ _); [|let y := fresh "s" in intros y ?; cbv beta]
  end.
(** A statement that does not bind the state. *)
Ltac handler_skip :=
  lazymatch goal with
  | |- ?Q (let x := ?e in @?b x) => let y := fresh "v" in refine (let_step (fun _ => True) Q e b I _); intros y _; cbv beta
  end.
