(* ===== verification/PageMirror.v ===== *)
(** * The load state of a page and the load state of its main frame

    The page's public load state and the state its main frame keeps are updated by separate
    statements of every handler in [PageLoads].  As long as navigations stay in one web
    process and error pages are loaded only into an existing main frame, the two agree after
    every message, whatever the process sends; otherwise they may part, in ways the last
    theorems show. *)

From S2P Require Import Prelude PageLoadState WebFrames PageLoads.
Import WebFrames PageLoads WebPageProxy.

Section mirror.
Context `{WebCore}.

(** ** What the two keep *)

Definition asPageState (s : FrameLoadState.State) : PLS.State :=
  match s with
  | FrameLoadState.Provisional => PLS.Provisional
  | FrameLoadState.Committed => PLS.Committed
  | FrameLoadState.Finished => PLS.Finished
  end.

Definition frameView (f : FrameLoadState.FrameLoadState) : PLS.State * URL * URL * URL * URL :=
  (asPageState (FrameLoadState.state f), FrameLoadState.url f, FrameLoadState.provisionalURL f,
   FrameLoadState.unreachableURL f, FrameLoadState.lastUnreachableURL f).

Definition pageView (l : PLS.PageLoadState) : PLS.State * URL * URL * URL * URL :=
  let u := PLS.uncommittedState l in
  (PLS.Data.state u, PLS.Data.url u, PLS.Data.provisionalURL u, PLS.Data.unreachableURL u, PLS.lastUnreachableURL l).

(** The load state of the main frame, that of a new frame when there is none yet. *)
Definition mainLoadState (s : WebPageProxy) : FrameLoadState.FrameLoadState :=
  match mainFrame s ≫= (frames s !!.) with Some w => WebFrameProxy.frameLoadState w | None => FrameLoadState.create end.

(** In [n] transactions and with the main frame [m], the page is ahead of the main frame by
    [g]: applying it to the frame's state makes the two agree. *)
Definition mirror (g : FrameLoadState.FrameLoadState -> FrameLoadState.FrameLoadState) (n : Z) (m : option nat)
    (s : WebPageProxy) : Prop :=
  mainFrame s = m /\ provisionalPage s = None /\ inTransactions n (pageLoadState s) /\
  match m with Some frame => is_Some (frames s !! frame) | None => True end /\
  frameView (g (mainLoadState s)) = pageView (pageLoadState s).

(** An operation on the page's state and one on the frame's that correspond. *)
Definition corresponds (op : PLS.Operation) (g : FrameLoadState.FrameLoadState -> FrameLoadState.FrameLoadState) : Prop :=
  forall f l, frameView f = pageView l -> frameView (g f) = pageView (PLS.mutate op l).

Ltac corresponds_tac :=
  let f := fresh "f" in let l := fresh "l" in let E := fresh "E" in
  intros f l E; destruct f, l as [? ? [] ? ? ? ?]; unfold frameView, pageView in *; cbn in *; congruence.

Lemma corr_start u un :
  corresponds (PLS.OpDidStartProvisionalLoad u un)
    (fun f => FrameLoadState.didStartProvisionalLoad u (FrameLoadState.setUnreachableURL un f)).
Proof. corresponds_tac. Qed.
Lemma corr_open u : corresponds (PLS.OpDidExplicitOpen u) (FrameLoadState.didExplicitOpen u).
Proof. corresponds_tac. Qed.
Lemma corr_redirect u :
  corresponds (PLS.OpDidReceiveServerRedirectForProvisionalLoad u) (FrameLoadState.didReceiveServerRedirectForProvisionalLoad u).
Proof. corresponds_tac. Qed.
Lemma corr_fail : corresponds PLS.OpDidFailProvisionalLoad FrameLoadState.didFailProvisionalLoad.
Proof. corresponds_tac. Qed.
Lemma corr_commit c i l : corresponds (PLS.OpDidCommitLoad c i l) FrameLoadState.didCommitLoad.
Proof. corresponds_tac. Qed.
Lemma corr_finish : corresponds PLS.OpDidFinishLoad FrameLoadState.didFinishLoad.
Proof. corresponds_tac. Qed.
Lemma corr_failLoad : corresponds PLS.OpDidFailLoad FrameLoadState.didFailLoad.
Proof. corresponds_tac. Qed.
Lemma corr_sameDocument u : corresponds (PLS.OpDidSameDocumentNavigation u) (FrameLoadState.didSameDocumentNotification u).
Proof. corresponds_tac. Qed.
Lemma corr_unreachable u : corresponds (PLS.OpSetUnreachableURL u) (FrameLoadState.setUnreachableURL u).
Proof. corresponds_tac. Qed.
Lemma corr_none op :
  match op with
  | PLS.OpClearPendingAPIRequest | PLS.OpSetPendingAPIRequest _ _ | PLS.OpDidDisplayOrRunInsecureContent
  | PLS.OpSetTitle _ | PLS.OpDidStartProgress | PLS.OpDidChangeProgress _ | PLS.OpDidFinishProgress
  | PLS.OpSetNetworkRequestsInProgress _ => True
  | _ => False
  end -> corresponds op id.
Proof. destruct op; intros []; corresponds_tac. Qed.

(** ** The statements of a handler *)

Lemma mirror_isMainFrame g n m s frame : mirror g n m s -> isMainFrame frame s = bool_decide (m = Some frame).
Proof. intros (<- & Hp & _). unfold isMainFrame. rewrite Hp. apply orb_false_r. Qed.

Lemma mirror_load g n n' m s (f : PLS.PageLoadState -> PLS.PageLoadState) :
  mirror g n m s -> inTransactions n' (f (pageLoadState s)) -> pageView (f (pageLoadState s)) = pageView (pageLoadState s) ->
  mirror g n' m (onLoadState f s).
Proof. intros (? & ? & ? & ? & E) Hn Ev. split_and!; [done..|]. by rewrite <- Ev in E. Qed.

Lemma pageView_pending l l' : pending l' = pending l -> pageView l' = pageView l.
Proof. unfold pending, pageView. by intros [= -> ->]. Qed.

Lemma mirror_begin g n m s : mirror g n m s -> n < 2 ^ 32 - 2 -> mirror g (n + 1) m (beginTransaction s).
Proof. intros Hs Hn. eapply mirror_load; [exact Hs| |done]. apply inTransactions_begin; [apply Hs|done]. Qed.

Lemma mirror_commitChanges g n m s : mirror g n m s -> mirror g n m (commitChanges s).
Proof.
  intros Hs. eapply mirror_load; [exact Hs|apply inTransactions_commit; apply Hs|].
  apply pageView_pending, pending_commit.
Qed.

Lemma mirror_end g n m s : mirror g (n + 1) m s -> 0 <= n -> mirror g n m (endTransaction s).
Proof.
  intros Hs Hn. eapply mirror_load; [exact Hs|apply inTransactions_end; [apply Hs|done]|].
  apply pageView_pending, pending_end.
Qed.

Lemma mirror_swap g n m s : mirror g n m s -> mirror g n m (didSwapWebProcesses s).
Proof.
  intros Hs. eapply mirror_load; [exact Hs|apply inTransactions_swap; apply Hs|].
  apply pageView_pending, swap_listen.
Qed.

Lemma mirror_mutate op g n m s : corresponds op g -> 0 < n -> mirror id n m s -> mirror g n m (mutate op s).
Proof.
  intros Hop Hn (? & ? & ? & ? & E). split_and!; [done..|by apply inTransactions_mutate|done|]. by apply Hop.
Qed.

(** The same while the frame [frame] is handled: the page is ahead if it is the main one. *)
Definition ahead (g : FrameLoadState.FrameLoadState -> FrameLoadState.FrameLoadState) (n : Z) (m : option nat) (frame : nat)
    (s : WebPageProxy) : Prop :=
  if bool_decide (m = Some frame) then mirror g n m s else mirror id n m s.

Lemma ahead_id n m frame s : ahead id n m frame s <-> mirror id n m s.
Proof. unfold ahead. by case_bool_decide. Qed.

(** The frame catches up. *)
Lemma ahead_onFrame g h n m frame f s :
  (forall w, WebFrameProxy.frameLoadState (f w) = h (WebFrameProxy.frameLoadState w)) ->
  ahead (fun l => g (h l)) n m frame s -> ahead g n m frame (onFrame frame f s).
Proof.
  intros Hf Hs. unfold ahead in *. case_bool_decide as Hm.
  - subst m. destruct Hs as (Em & ? & ? & [w Ew] & E). split_and!; [done..|exists (f w)|].
    + cbn. by rewrite list_lookup_alter, decide_True, Ew.
    + unfold mainLoadState in *. cbn. rewrite Em in E |- *. cbn in E |- *. rewrite list_lookup_alter, decide_True, Ew by done.
      rewrite Ew in E. cbn. by rewrite Hf.
  - destruct Hs as (Em & ? & ? & Hv & E). split_and!; [done..| |].
    + destruct m as [frame'|]; [|done]. cbn. rewrite list_lookup_alter, decide_False by congruence. done.
    + revert E. unfold mainLoadState. cbn. rewrite Em. destruct m as [frame'|]; [|done]. cbn.
      by rewrite list_lookup_alter, decide_False by congruence.
Qed.

Lemma mirror_onFrame g n m frame f s :
  (forall w, WebFrameProxy.frameLoadState (f w) = g (WebFrameProxy.frameLoadState w)) ->
  ahead g n m frame s -> mirror id n m (onFrame frame f s).
Proof. intros Hf Hs. apply (ahead_id n m frame). by apply (ahead_onFrame id g). Qed.

(** "If it is the main frame, tell the page." *)
Lemma ahead_if g n m s frame (s1 s2 : WebPageProxy) :
  mirror id n m s -> mirror g n m s1 -> mirror id n m s2 -> ahead g n m frame (if isMainFrame frame s then s1 else s2).
Proof. intros Hs H1 H2. unfold ahead. rewrite (mirror_isMainFrame _ _ _ _ _ Hs). by case_bool_decide. Qed.

Lemma ahead_mutate op g n m frame s :
  corresponds op g -> 0 < n -> mirror id n m s -> ahead g n m frame (if isMainFrame frame s then mutate op s else s).
Proof. intros. apply ahead_if; [done|by apply mirror_mutate|done]. Qed.

(** ** The handlers *)

(** Statements that touch neither state. *)
Ltac unconcerned := cbv zeta; repeat case_match; assumption.

Lemma mirror_report g n m now e s : mirror g n m s -> mirror g n m (reportPageLoadResult now e s).
Proof. intros Hs. unfold reportPageLoadResult. unconcerned. Qed.
Lemma mirror_tellClients g n m e frame nav info s : mirror g n m s -> mirror g n m (tellClients e frame nav info s).
Proof. intros Hs. unfold tellClients. unconcerned. Qed.
Lemma mirror_automation g n m frame s : mirror g n m s -> mirror g n m (automationNavigationOccurred frame s).
Proof. intros Hs. unfold automationNavigationOccurred. unconcerned. Qed.
Lemma ahead_automation g n m frame s : ahead g n m frame s -> ahead g n m frame (automationNavigationOccurred frame s).
Proof. unfold ahead. case_bool_decide; apply mirror_automation. Qed.
Lemma mirror_clearActivity g n m nav s : mirror g n m s -> mirror g n m (clearClientNavigationActivity nav s).
Proof. intros Hs. unfold clearClientNavigationActivity. unconcerned. Qed.
Lemma mirror_open m s : mirror id 0 m s -> mirror id 1 m (beginTransaction s).
Proof. intros Hs. by apply (mirror_begin id 0). Qed.
Lemma mirror_close m s : mirror id 1 m s -> mirror id 0 m (endTransaction s).
Proof. intros Hs. by apply (mirror_end id 0). Qed.
Lemma mirror_neutral op n m s :
  match op with
  | PLS.OpClearPendingAPIRequest | PLS.OpSetPendingAPIRequest _ _ | PLS.OpDidDisplayOrRunInsecureContent
  | PLS.OpSetTitle _ | PLS.OpDidStartProgress | PLS.OpDidChangeProgress _ | PLS.OpDidFinishProgress
  | PLS.OpSetNetworkRequestsInProgress _ => True
  | _ => False
  end -> 0 < n -> mirror id n m s -> mirror id n m (mutate op s).
Proof. intros Hop. apply mirror_mutate. by apply corr_none. Qed.

Create HintDb mirror.
#[local] Hint Resolve mirror_report mirror_tellClients mirror_automation mirror_clearActivity mirror_open mirror_close
  mirror_commitChanges mirror_neutral ahead_automation ahead_mutate mirror_swap : mirror.
#[local] Hint Resolve corr_start corr_open corr_redirect corr_fail corr_commit corr_finish corr_failLoad corr_sameDocument
  corr_unreachable : mirror.
#[local] Hint Extern 1 (_ < _) => lia : mirror.
#[local] Hint Extern 1 True => exact I : mirror.

Lemma mirror_didStart now p id' info nav u un m s :
  mirror id 0 m s -> mirror id 0 m (didStartProvisionalLoadForFrameShared now p id' info nav u un s).
Proof.
  intros Hs. cbv beta delta [didStartProvisionalLoadForFrameShared]. handler_enter Hs.
  handler_step (mirror id 0 m); [by rewrite (proj1 (proj2 Hs))|]. handler_skip.
  handler_step (mirror id 1 m); [by auto with mirror|].
  handler_step (ahead (fun f => FrameLoadState.didStartProvisionalLoad u (FrameLoadState.setUnreachableURL un f)) 1 m frame).
  { apply ahead_if; [done| |done]. apply (mirror_mutate (PLS.OpDidStartProvisionalLoad u un)); [apply corr_start|done|].
    by apply (mirror_report id 1 m now _ (onProcess p _ _)). }
  handler_step (ahead (FrameLoadState.didStartProvisionalLoad u) 1 m frame);
    [by apply (ahead_onFrame _ (FrameLoadState.setUnreachableURL un))|].
  handler_step (mirror id 1 m); [by apply (mirror_onFrame (FrameLoadState.didStartProvisionalLoad u))|].
  auto with mirror.
Qed.

Lemma mirror_redirect p id' nav u m s :
  mirror id 0 m s -> mirror id 0 m (didReceiveServerRedirectForProvisionalLoadForFrameShared p id' nav u s).
Proof.
  intros Hs. cbv beta delta [didReceiveServerRedirectForProvisionalLoadForFrameShared]. handler_enter Hs. handler_skip.
  handler_step (mirror id 0 m); [unconcerned|]. handler_step (mirror id 1 m); [by auto with mirror|].
  handler_step (ahead (FrameLoadState.didReceiveServerRedirectForProvisionalLoad u) 1 m frame); [by auto with mirror|].
  handler_step (mirror id 1 m); [by apply (mirror_onFrame (FrameLoadState.didReceiveServerRedirectForProvisionalLoad u))|].
  handler_step (mirror id 1 m); [by auto with mirror|]. handler_step (mirror id 1 m); [unconcerned|]. auto with mirror.
Qed.

Lemma mirror_changeURL p id' u m s : mirror id 0 m s -> mirror id 0 m (didChangeProvisionalURLForFrameShared p id' u s).
Proof.
  intros Hs. cbv beta delta [didChangeProvisionalURLForFrameShared]. handler_enter Hs.
  handler_step (mirror id 1 m); [by auto with mirror|].
  handler_step (ahead (FrameLoadState.didReceiveServerRedirectForProvisionalLoad u) 1 m frame); [by auto with mirror|].
  apply mirror_close. by apply (mirror_onFrame (FrameLoadState.didReceiveServerRedirectForProvisionalLoad u)).
Qed.

Lemma mirror_failProvisional now p id' nav u e will m s :
  mirror id 0 m s -> mirror id 0 m (didFailProvisionalLoadForFrameShared now p id' nav u e will s).
Proof.
  intros Hs. cbv beta delta [didFailProvisionalLoadForFrameShared]. handler_enter Hs.
  handler_step (mirror id 0 m); [by auto with mirror|]. handler_skip. handler_step (mirror id 0 m); [unconcerned|].
  handler_step (mirror id 1 m); [by auto with mirror|].
  handler_step (ahead FrameLoadState.didFailProvisionalLoad 1 m frame).
  { apply ahead_if; [done| |done]. apply (mirror_mutate PLS.OpDidFailProvisionalLoad); [apply corr_fail|done|by apply mirror_report]. }
  handler_step (mirror id 1 m); [by apply (mirror_onFrame FrameLoadState.didFailProvisionalLoad)|].
  handler_step (mirror id 1 m); [by auto with mirror|]. do 3 (handler_step (mirror id 1 m); [unconcerned|]).
  match goal with Hm : mirror id 1 m ?s' |- _ => rewrite (proj1 (proj2 Hm)) end. auto with mirror.
Qed.

Lemma mirror_explicitOpen id' u mime m s : mirror id 0 m s -> mirror id 0 m (didExplicitOpenForFrame id' u mime s).
Proof.
  intros Hs. cbv beta delta [didExplicitOpenForFrame]. handler_enter Hs. destruct (negb _); [done|].
  handler_step (mirror id 1 m); [by auto with mirror|].
  handler_step (ahead (FrameLoadState.didExplicitOpen u) 1 m frame); [by auto with mirror|].
  handler_step (mirror id 1 m); [by apply (mirror_onFrame (FrameLoadState.didExplicitOpen u))|].
  do 2 (handler_step (mirror id 1 m); [assumption|]). auto with mirror.
Qed.

Lemma mirror_commitLoad id' nav c m s : mirror id 0 m s -> mirror id 0 m (didCommitLoadForFrame id' nav c s).
Proof.
  intros Hs. cbv beta delta [didCommitLoadForFrame]. handler_enter Hs. handler_skip.
  handler_step (mirror id 0 m); [unfold announceDataTransfer; unconcerned|].
  do 2 (handler_step (mirror id 0 m); [assumption|]). handler_step (mirror id 1 m); [by auto with mirror|]. handler_skip.
  handler_step (ahead FrameLoadState.didCommitLoad 1 m frame).
  { apply ahead_if; [done|apply (mirror_mutate (PLS.OpDidCommitLoad _ _ _)); [apply corr_commit|done..]|].
    case_match; [by auto with mirror|done]. }
  handler_step (ahead FrameLoadState.didCommitLoad 1 m frame); [assumption|].
  handler_step (mirror id 1 m); [by apply (mirror_onFrame FrameLoadState.didCommitLoad)|].
  do 3 (handler_step (mirror id 1 m); [unconcerned|]). handler_step (mirror id 1 m); [by auto with mirror|]. auto with mirror.
Qed.

Lemma mirror_finishLoad now id' info nav m s : mirror id 0 m s -> mirror id 0 m (didFinishLoadForFrame now id' info nav s).
Proof.
  intros Hs. cbv beta delta [didFinishLoadForFrame]. handler_enter Hs. handler_skip.
  handler_step (mirror id 1 m); [by auto with mirror|].
  lazymatch goal with |- ?Q (let b := isMainFrame frame ?s1 in @?k b) =>
    refine (let_step (fun b => b = isMainFrame frame s1) Q _ k eq_refl _); intros main ->; cbv beta end.
  handler_step (ahead FrameLoadState.didFinishLoad 1 m frame); [by auto with mirror|].
  handler_step (ahead FrameLoadState.didFinishLoad 1 m frame); [by auto with mirror|].
  handler_step (mirror id 1 m); [by apply (mirror_onFrame FrameLoadState.didFinishLoad)|].
  do 2 (handler_step (mirror id 1 m); [by auto with mirror|]).
  handler_step (mirror id 1 m); [|by apply (mirror_close m (_ <| isLoadingAlternateHTMLStringForFailingProvisionalLoad := false |>))].
  case_match; [|done]. apply mirror_clearActivity. by apply (mirror_report id 1 m now noError).
Qed.

Lemma mirror_failLoad now id' info nav e m s : mirror id 0 m s -> mirror id 0 m (didFailLoadForFrame now id' info nav e s).
Proof.
  intros Hs. cbv beta delta [didFailLoadForFrame]. handler_enter Hs. handler_skip.
  handler_step (mirror id 0 m); [assumption|]. handler_step (mirror id 1 m); [by auto with mirror|].
  lazymatch goal with |- ?Q (let b := isMainFrame frame ?s1 in @?k b) =>
    refine (let_step (fun b => b = isMainFrame frame s1) Q _ k eq_refl _); intros main ->; cbv beta end.
  do 2 (handler_step (ahead FrameLoadState.didFailLoad 1 m frame); [by auto with mirror|]).
  handler_step (mirror id 1 m); [by apply (mirror_onFrame FrameLoadState.didFailLoad)|].
  do 2 (handler_step (mirror id 1 m); [by auto with mirror|]). handler_step (mirror id 1 m); [|by apply mirror_close].
  case_match; [|done]. apply mirror_clearActivity. by apply (mirror_report id 1 m now e).
Qed.

Lemma mirror_sameDocument id' nav type u m s :
  mirror id 0 m s -> mirror id 0 m (didSameDocumentNavigationForFrame id' nav type u s).
Proof.
  intros Hs. cbv beta delta [didSameDocumentNavigationForFrame]. handler_enter Hs. handler_skip.
  handler_step (mirror id 1 m); [by auto with mirror|].
  lazymatch goal with |- ?Q (let b := isMainFrame frame ?s1 in @?k b) =>
    refine (let_step (fun b => b = isMainFrame frame s1) Q _ k eq_refl _); intros main ->; cbv beta end.
  do 2 (handler_step (ahead (FrameLoadState.didSameDocumentNotification u) 1 m frame); [by auto with mirror|]).
  handler_step (ahead (FrameLoadState.didSameDocumentNotification u) 1 m frame).
  { unfold ahead in *. case_bool_decide; [|by auto with mirror].
    match goal with Hm : mirror ?g 1 m ?s' |- _ => apply (mirror_load g 1 1 m s' (PLS.mutate _)); [done| |done] end.
    apply inTransactions_mutate; [done|]. match goal with Hm : mirror _ 1 m _ |- _ => apply Hm end. }
  handler_step (mirror id 1 m); [by apply (mirror_onFrame (FrameLoadState.didSameDocumentNotification u))|].
  handler_step (mirror id 1 m); [by auto with mirror|]. apply mirror_close. unconcerned.
Qed.

Lemma mirror_title id' t m s : mirror id 0 m s -> mirror id 0 m (didReceiveTitleForFrame id' t s).
Proof.
  intros Hs. cbv beta delta [didReceiveTitleForFrame]. handler_enter Hs. handler_step (mirror id 1 m); [by auto with mirror|].
  handler_step (ahead id 1 m frame); [apply ahead_id; case_match; by auto with mirror|].
  handler_step (mirror id 1 m); [by apply (mirror_onFrame id)|]. auto with mirror.
Qed.

Lemma mirror_addNavigation nav n m s : mirror id n m s -> mirror id n m (snd (addNavigation nav s)).
Proof. done. Qed.

Lemma mirror_policy p frame nav a u u' m s :
  mirror id 0 m s -> mirror id 0 m (decidePolicyForNavigationAction p frame nav a u u' s).
Proof.
  intros Hs. cbv beta delta [decidePolicyForNavigationAction]. handler_step (mirror id 1 m); [by auto with mirror|].
  handler_skip. handler_step (mirror id 1 m); [case_match; by auto with mirror|].
  destruct (negb _); [by apply mirror_close|]. destruct (negb _); [by apply mirror_close|]. do 3 handler_skip.
  lazymatch goal with |- ?Q (match ?e with pair _ _ => _ end) => assert (Hs2 : mirror id 1 m (snd e)) by unconcerned; destruct e as [i s2]; cbn [snd] in Hs2 end.
  handler_step (mirror id 1 m); [by rewrite (proj1 (proj2 Hs2))|].
  handler_step (mirror id 1 m); [assumption|]. by apply mirror_close.
Qed.

Lemma mirror_change op m s :
  match op with
  | PLS.OpDidStartProgress | PLS.OpDidChangeProgress _ | PLS.OpDidFinishProgress => True
  | _ => False
  end -> mirror id 0 m s -> mirror id 0 m (changeAndCommit op s).
Proof.
  intros Hop Hs. unfold changeAndCommit. apply mirror_close, mirror_commitChanges, mirror_neutral; [by destruct op|done|].
  by apply mirror_open.
Qed.

(** *** Frames are created and the process ends: the main frame changes *)

Definition mirrored (s : WebPageProxy) : Prop := mirror id 0 (mainFrame s) s.

Lemma mirror_mirrored m s : mirror id 0 m s -> mirrored s.
Proof. intros Hs. unfold mirrored. by rewrite (proj1 Hs). Qed.

Lemma mirrored_didCreateMainFrame id' s : mirrored s -> mirrored (didCreateMainFrame id' s).
Proof.
  intros Hs. cbv beta delta [didCreateMainFrame]. handler_skip. case_match; [done|].
  apply messageCheck_elim; [exact Hs|]. intros Hm. apply bool_decide_eq_true in Hm.
  apply messageCheck_elim; [exact Hs|]. intros _. destruct Hs as (_ & Hp & Hn & _ & E).
  unfold mirrored, mirror. cbn. rewrite list_lookup_middle by done. split_and!; [done|done|exact Hn|by eexists|].
  unfold mainLoadState in *. cbn. rewrite list_lookup_middle by done. by rewrite Hm in E.
Qed.

Lemma mirror_createFrame p id' n m s : mirror id n m s -> mirror id n m (snd (createFrame p id' s)).
Proof.
  intros (Em & Hp & Hn & Hv & E). unfold mirror, mainLoadState in *. cbn. rewrite Em in *.
  destruct m as [frame|]; [|done]. destruct Hv as [w Ew]. cbn in *. rewrite (lookup_app_l_Some _ _ _ _ Ew).
  rewrite Ew in E. by split_and!.
Qed.

Lemma mirror_didCreateSubframe id' m s : mirror id 0 m s -> mirror id 0 m (didCreateSubframe id' s).
Proof.
  intros Hs. unfold didCreateSubframe. apply messageCheck_elim; [done|]. intros _. case_match; [done|].
  apply messageCheck_elim; [done|]. intros _. by apply mirror_createFrame.
Qed.

(** The page's state as it is when the main frame is forgotten. *)
Lemma mirror_resetState n m s :
  0 <= n < 2 ^ 32 - 2 -> mirror id n m s ->
  mirror id n None (endTransaction (mutate PLS.OpReset (beginTransaction (s <| mainFrame := None |>)))).
Proof.
  intros Hn (Em & Hp & Ht & Hv & E). apply mirror_end; [|lia]. split_and!; [done|done| |done|done].
  apply inTransactions_mutate; [lia|]. apply inTransactions_begin; [exact Ht|lia].
Qed.

Lemma mirror_reset r n m s :
  r <> NavigationSwap -> 0 <= n < 2 ^ 32 - 2 -> mirror id n m s -> hasRunningProcess s = true ->
  mirror id n None (resetStateAfterProcessTermination r s).
Proof.
  intros Hr Hn Hs Hrun. cbv beta delta [resetStateAfterProcessTermination].
  handler_step (mirror id n None).
  - cbv beta delta [resetStateAfterProcessExited]. rewrite Hrun. cbv beta iota delta [negb].
    handler_step (mirror id n m); [assumption|]. handler_step (mirror id n m); [unconcerned|].
    handler_step (fun s => exists s0, mirror id n m s0 /\ s = s0 <| mainFrame := None |>).
    { match goal with Hm : mirror id n m ?s1 |- context [resetState r ?s1] =>
        exists (tell (ResetState r) (s1 <| mainFrameIsPinned := true |>)) end. by split. }
    match goal with Hm : exists _, _ |- _ => destruct Hm as (s0' & Hs0 & ->) end. rewrite decide_True by done.
    handler_step (mirror id n None); [|assumption]. exact (mirror_resetState n m s0' Hn Hs0).
  - do 2 (handler_step (mirror id n None); [unconcerned|]). unconcerned.
Qed.

Lemma mirror_dispatch n m handled r s : mirror id n m s -> mirror id n m (dispatchProcessDidTerminate handled r s).
Proof.
  intros Hs. cbv beta delta [dispatchProcessDidTerminate]. handler_skip. handler_step (mirror id n m); [unconcerned|].
  unfold tryReloadAfterProcessTermination. unconcerned.
Qed.

Lemma mirrored_crash handled p s : mirrored s -> mirrored (processDidTerminateOrFailedToLaunch handled p s).
Proof.
  intros Hs. cbv beta delta [processDidTerminateOrFailedToLaunch usesProcess]. rewrite (proj1 (proj2 Hs)).
  destruct (hasRunningProcess s) eqn:Hr; [|by rewrite andb_false_r].
  rewrite andb_true_r. destruct (Nat.eqb _ _); [|done]. cbv iota.
  apply (mirror_mirrored None), mirror_close, mirror_dispatch.
  apply (mirror_reset Crashed 1 (mainFrame s)); [done|lia|by apply mirror_open|exact Hr].
Qed.

Lemma mirrored_requestTermination handled p r s :
  r <> NavigationSwap -> mirrored s -> mirrored (requestTermination handled p r s).
Proof.
  intros Hn Hs. cbv beta delta [requestTermination usesProcess]. rewrite (proj1 (proj2 Hs)).
  destruct (hasRunningProcess s) eqn:Hr; [|by rewrite andb_false_r].
  rewrite andb_true_r. destruct (Nat.eqb _ _); [|done]. cbv iota.
  apply (mirror_mirrored None), mirror_dispatch. apply (mirror_reset r 0 (mainFrame s)); [done|lia|exact Hs|exact Hr].
Qed.

(** *** Loads asked for by the embedder *)

Lemma mirror_ensure p n m s : mirror id n m s -> mirror id n m (ensureRunningProcess p s).
Proof. intros Hs. unfold ensureRunningProcess. case_match; [done|]. by apply mirror_swap. Qed.

Lemma mirror_assume p u g n m s : mirror g n m s -> mirror g n m (assumeReadAccessToBaseURL p u s).
Proof. intros Hs. unfold assumeReadAccessToBaseURL, addPreviouslyVisitedPath. unconcerned. Qed.

Lemma mirror_sandbox p u d n m s : mirror id n m s -> mirror id n m (maybeInitializeSandboxExtensionHandle p u d s).
Proof. intros Hs. unfold maybeInitializeSandboxExtensionHandle. repeat case_match; try assumption; by apply mirror_assume. Qed.

Lemma mirror_loadRequestShared p i u c m s : mirror id 0 m s -> mirror id 0 m (loadRequestWithNavigationShared p i u c s).
Proof.
  intros Hs. cbv beta delta [loadRequestWithNavigationShared]. handler_step (mirror id 1 m); [by auto with mirror|].
  handler_step (mirror id 1 m); [case_match; by auto with mirror|].
  handler_step (mirror id 1 m); [by apply mirror_sandbox|]. by apply mirror_close.
Qed.

Lemma mirror_loadDataShared p i u m s : mirror id 0 m s -> mirror id 0 m (loadDataWithNavigationShared p i u s).
Proof.
  intros Hs. cbv beta delta [loadDataWithNavigationShared]. handler_step (mirror id 1 m); [by auto with mirror|].
  handler_step (mirror id 1 m); [by auto with mirror|]. handler_step (mirror id 1 m); [by apply mirror_assume|]. by apply mirror_close.
Qed.

Lemma mirror_loadRequest p u m s : mirror id 0 m s -> mirror id 0 m (loadRequest p u s).
Proof.
  intros Hs. cbv beta delta [loadRequest]. handler_step (mirror id 0 m); [by apply mirror_ensure|].
  unfold addNavigation. by apply mirror_loadRequestShared.
Qed.

Lemma mirror_loadData p u m s : mirror id 0 m s -> mirror id 0 m (loadData p u s).
Proof.
  intros Hs. cbv beta delta [loadData]. handler_step (mirror id 0 m); [by apply mirror_ensure|].
  unfold addNavigation. by apply mirror_loadDataShared.
Qed.

Lemma mirror_loadAlternateHTML p u v frame s :
  mirror id 0 (Some frame) s -> mirror id 0 (Some frame) (loadAlternateHTML p u v s).
Proof.
  intros Hs. cbv beta delta [loadAlternateHTML]. destruct (isLoadingAlternateHTMLStringForFailingProvisionalLoad s); [done|].
  handler_step (mirror id 0 (Some frame)); [unconcerned|]. handler_step (mirror id 0 (Some frame)); [by apply mirror_ensure|].
  do 2 (handler_step (mirror id 1 (Some frame)); [by auto with mirror|]).
  handler_step (mirror (FrameLoadState.setUnreachableURL v) 1 (Some frame)); [by apply mirror_mutate; [apply corr_unreachable| |]|].
  handler_step (mirror id 1 (Some frame)).
  { match goal with Hm : mirror _ 1 _ ?s' |- _ => unfold onMainFrame; rewrite (proj1 Hm) end.
    apply (mirror_onFrame (FrameLoadState.setUnreachableURL v)); [done|]. unfold ahead. by rewrite bool_decide_eq_true_2. }
  do 2 (handler_step (mirror id 1 (Some frame)); [by apply mirror_assume|]). by apply mirror_close.
Qed.

(** ** One web process *)

(** No navigation moves to another process, and [loadAlternateHTML] is called only when there
    is a main frame: without one it sets the unreachable URL of the page alone
    ([alternate_html_without_frame]). *)
Definition stays (a : Step) (s : WebPageProxy) : bool :=
  match a with
  | ContinueNavigationInNewProcess _ _ _ _ => false
  | LoadAlternateHTMLStep _ _ _ => bool_decide (mainFrame s <> None)
  | RequestTermination _ r _ => bool_decide (r <> NavigationSwap)
  | _ => true
  end.
Fixpoint allStay (l : list Step) (s : WebPageProxy) : bool :=
  match l with [] => true | a :: l' => stays a s && allStay l' (step a s) end.

Lemma mirrored_message now msg s : mirrored s -> mirrored (didReceiveMessage now msg s).
Proof.
  intros Hs. destruct msg; cbn [didReceiveMessage];
    lazymatch goal with |- mirrored (didCreateMainFrame _ _) => idtac | _ => apply (mirror_mirrored (mainFrame s)) end.
  - by apply mirrored_didCreateMainFrame.
  - by apply mirror_didCreateSubframe.
  - exact Hs.
  - by apply mirror_change.
  - by apply mirror_change.
  - by apply mirror_change.
  - unfold setNetworkRequestsInProgress. by auto with mirror.
  - unfold didDestroyNavigation. unconcerned.
  - by apply mirror_didStart.
  - by apply mirror_explicitOpen.
  - by apply mirror_redirect.
  - by apply mirror_changeURL.
  - unfold didFailProvisionalLoadForFrame. cbv zeta. case_match; [done|]. by apply mirror_failProvisional.
  - by apply mirror_commitLoad.
  - by apply mirror_finishLoad.
  - by apply mirror_failLoad.
  - by apply mirror_sameDocument.
  - by apply mirror_title.
  - apply withFrame_elim; [exact Hs|]. intros. by apply mirror_policy.
Qed.

Lemma mirrored_step a s : stays a s = true -> mirrored s -> mirrored (step a s).
Proof.
  intros Ha Hs. destruct a; cbn [step stays] in *; try exact Hs.
  - by apply mirrored_message.
  - by rewrite (proj1 (proj2 Hs)).
  - by apply (mirror_mirrored (mainFrame s)), mirror_loadRequest.
  - by apply (mirror_mirrored (mainFrame s)), mirror_loadData.
  - apply bool_decide_eq_true in Ha. unfold mirrored in Hs. destruct (mainFrame s) as [frame|] eqn:E; [|done].
    by apply (mirror_mirrored (Some frame)), mirror_loadAlternateHTML.
  - done.
  - by apply mirrored_crash.
  - apply mirrored_requestTermination; [by apply bool_decide_eq_true in Ha|done].
Qed.

Lemma mirrored_steps l s : allStay l s = true -> mirrored s -> mirrored (steps l s).
Proof.
  revert s. induction l as [|a l IH]; intros s Hl Hs; [done|]. cbn [allStay steps foldl] in *. apply andb_true_iff in Hl as [Ha Hl].
  apply IH; [done|]. by apply mirrored_step.
Qed.

Lemma mirrored_create p : mirrored (create p).
Proof. by split_and!. Qed.

End mirror.

(** ** Theorems *)

(** C23: The page and its main frame, after any messages from the page's web process, loads of the
    embedder and crashes, under two conditions ([allStay]): no navigation moves to another
    process, and the embedder loads an error page with [loadAlternateHTML] only when the page
    has a main frame.  Then the state that the page publishes is the state the main frame
    keeps: whether a load is provisional, committed or finished, the URL, the provisional URL,
    the unreachable URL and the one a failed load goes back to.  No change is left unpublished
    and no transaction open. *)
Theorem page_mirrors_main_frame `{WebCore} p l :
  allStay l (create p) = true ->
  let s := steps l (create p) in
  PLS.committedState (pageLoadState s) = PLS.uncommittedState (pageLoadState s) /\
  PLS.outstandingTransactionCount (pageLoadState s) = 0 /\
  frameView (mainLoadState s) = pageView (pageLoadState s) /\
  (forall frame, mainFrame s = Some frame -> is_Some (frames s !! frame)).
Proof.
  intros Hl. destruct (mirrored_steps l _ Hl (mirrored_create p)) as (_ & _ & (Ec & _ & Hm & Hz) & Hv & E).
  cbv zeta. split_and!; [by apply Hm, Hz|done|done|]. intros frame Ef. by rewrite Ef in Hv.
Qed.

(** Concrete URLs: a file URL starts with "file:". *)
Definition someWebCore : WebCore := {|
  protocolIs u scheme := match u with Some u => String.prefix scheme u | None => false end;
  isLocalFile u := match u with Some u => String.prefix "file:" u | None => false end;
  protocolIsAbout u := match u with Some u => String.prefix "about:" u | None => false end;
  fileSystemPath u := match u with Some u => String.substring 7 (String.length u) u | None => EmptyString end;
  basePath u := match u with Some u => Some (String.substring 7 (String.length u) u) | None => None end;
  registrableDomain u := default EmptyString u;
  platformPathsWithAssumedReadAccess := ["/usr/share/WebKit/"%string];
  isUnique u := false;
  hasQueryOrFragment u := false;
  containsNonRootSHA1SignedCertificate c := Nat.eqb c 1;
  createHandle path := true;
  attributesOn m u := true
|}.

Definition someCommit : Commit := mkCommit true (Some "text/html"%string) false Standard 7 false false None 0.

(** The main frame 1 shows an error page for an unreachable URL. *)
Definition errorPageShown : list Step :=
  [FromWebProcess 0 (DidCreateMainFrame 1);
   FromWebProcess 1 (DidStartProvisionalLoadForFrame 1 true 0 (Some "about:error"%string) (Some "http://bad/"%string));
   FromWebProcess 2 (DidCommitLoadForFrame 1 0 someCommit);
   FromWebProcess 3 (DidFinishLoadForFrame 1 true 0)].

Lemma page_mirrors_main_frame_witness :
  let l := errorPageShown ++
    [LoadRequestStep 1 (Some "http://a/"%string);
     FromWebProcess 4 (DidCreateSubframe 5);
     FromWebProcess 5 (DidStartProvisionalLoadForFrame 1 true 1 (Some "http://a/"%string) None);
     FromWebProcess 6 (DidReceiveServerRedirectForProvisionalLoadForFrame 1 1 (Some "http://b/"%string));
     FromWebProcess 7 (DidStartProvisionalLoadForFrame 5 false 0 (Some "http://c/"%string) None)] in
  let s := steps (H := someWebCore) l (create 1) in
  frameView (mainLoadState s) = pageView (pageLoadState s) /\
  PLS.Data.provisionalURL (PLS.committedState (pageLoadState s)) = Some "http://b/"%string.
Proof.
  cbv zeta. split; [|by vm_compute].
  apply (@page_mirrors_main_frame someWebCore 1 (errorPageShown ++
    [LoadRequestStep 1 (Some "http://a/"%string);
     FromWebProcess 4 (DidCreateSubframe 5);
     FromWebProcess 5 (DidStartProvisionalLoadForFrame 1 true 1 (Some "http://a/"%string) None);
     FromWebProcess 6 (DidReceiveServerRedirectForProvisionalLoadForFrame 1 1 (Some "http://b/"%string));
     FromWebProcess 7 (DidStartProvisionalLoadForFrame 5 false 0 (Some "http://c/"%string) None)])).
  by vm_compute.
Defined.

(** The second condition is needed.  An error page is loaded before the web process has made
    the main frame, and that load fails: the page goes back to the unreachable URL it was
    given, its main frame to none. *)
Theorem alternate_html_without_frame :
  let s := steps (H := someWebCore)
    [LoadAlternateHTMLStep 1 (Some "about:blank"%string) (Some "http://bad/"%string); FromWebProcess 0 (DidCreateMainFrame 1);
     FromWebProcess 1 (DidStartProvisionalLoadForFrame 1 true 0 (Some "about:blank"%string) (Some "http://bad/"%string));
     FromWebProcess 2 (DidFailProvisionalLoadForFrame 1 0 (Some "about:blank"%string) (mkError General 1) false)] (create 1) in
  PLS.Data.unreachableURL (PLS.committedState (pageLoadState s)) = Some "http://bad/"%string /\
  FrameLoadState.unreachableURL (mainLoadState s) = None.
Proof. cbv zeta. split; vm_compute; reflexivity. Qed.

(** A web process that takes over a navigation dies.  The provisional page is dropped and its
    receiver removed, and that is all: the load state of the page is not touched and no client
    is told, so that a page whose provisional load had started stays in that state, with the
    URL that no process loads any more. *)
Theorem crash_of_provisional_process_is_silent `{WebCore} s pp handled :
  provisionalPage s = Some pp -> pp_wasCommitted pp = false -> pp_process pp <> process s ->
  let s' := step (ProcessCrashed (pp_process pp) handled) s in
  provisionalPage s' = None /\ pageLoadState s' = pageLoadState s /\ frames s' = frames s /\ mainFrame s' = mainFrame s /\
  pageLoadStart s' = pageLoadStart s /\
  calls s' = calls s ++ [WillDestroyProvisionalPage; RemoveMessageReceiver (pp_process pp); ClosePage (pp_process pp)].
Proof.
  intros Hp Hw Hne. cbn [step]. unfold processDidTerminateOrFailedToLaunch, usesProcess. rewrite Hp, Nat.eqb_refl.
  rewrite (proj2 (Nat.eqb_neq _ _)) by done. cbn [andb]. unfold provisionalProcessDidTerminate, dropProvisionalPage, shutDown, onProcess.
  cbn. rewrite Hp. cbn. by rewrite Hw.
Qed.

(** A navigation to a second process whose provisional load has started there. *)
Definition swapStarted : list Step := errorPageShown ++
  [LoadRequestStep 1 (Some "http://a/"%string);
   ContinueNavigationInNewProcess 4 1 2 None;
   FromProvisionalProcess 5 (DidCreateMainFrame 9);
   FromProvisionalProcess 6 (DidStartProvisionalLoadForFrame 9 true 1 (Some "http://a/"%string) None)].

Lemma crash_of_provisional_process_is_silent_witness :
  let s := steps (H := someWebCore) swapStarted (create 1) in
  let s' := step (H := someWebCore) (ProcessCrashed 2 false) s in
  pageLoadState s' = pageLoadState s /\
  PLS.Data.state (PLS.committedState (pageLoadState s')) = PLS.Provisional /\
  PLS.isLoading (pageLoadState s') = true /\ provisionalPage s' = None.
Proof.
  cbv zeta. destruct (provisionalPage (steps (H := someWebCore) swapStarted (create 1))) as [pp|] eqn:E; [|by vm_compute in E].
  assert (Ep : pp_process pp = 2%nat) by (vm_compute in E; by apply (inj Some) in E; subst pp).
  assert (Ew : pp_wasCommitted pp = false) by (vm_compute in E; by apply (inj Some) in E; subst pp).
  destruct (@crash_of_provisional_process_is_silent someWebCore _ pp false E Ew) as (H1 & H2 & _); [by rewrite Ep|].
  rewrite Ep in H1, H2. split_and!; [exact H2|by vm_compute..|exact H1].
Defined.

(** The error page is shown, a navigation to another process starts there and fails.  The
    page goes back to the unreachable URL of the error page; its main frame, which was not
    told about the new unreachable URL when the load started, goes back to the one before it. *)
Theorem failed_swap_loses_unreachable_url :
  let s0 := steps (H := someWebCore) errorPageShown (create 1) in
  let s := steps (H := someWebCore) (swapStarted ++
             [FromProvisionalProcess 7 (DidFailProvisionalLoadForFrame 9 1 (Some "http://a/"%string) (mkError General 1) false)]) (create 1) in
  mainFrame s = mainFrame s0 /\ process s = process s0 /\ provisionalPage s = None /\
  PLS.Data.url (PLS.committedState (pageLoadState s)) = Some "about:error"%string /\
  PLS.Data.unreachableURL (PLS.committedState (pageLoadState s)) = Some "http://bad/"%string /\
  FrameLoadState.unreachableURL (mainLoadState s0) = Some "http://bad/"%string /\
  FrameLoadState.unreachableURL (mainLoadState s) = None.
Proof. cbv zeta. split_and!; vm_compute; reflexivity. Qed.

(** While a navigation is loading in another process, the end of the old document's load is
    still applied to the page: its state becomes [Finished] with the provisional URL kept,
    and it no longer counts as loading. *)
Theorem late_message_ends_provisional_load :
  let l := swapStarted ++ [FromWebProcess 7 (DidFailLoadForFrame 1 true 0 (mkError Cancellation 302))] in
  let s := steps (H := someWebCore) l (create 1) in
  provisionalPage s <> None /\ PLS.isLoading (pageLoadState s) = false /\
  PLS.Data.state (PLS.committedState (pageLoadState s)) = PLS.Finished /\
  PLS.Data.provisionalURL (PLS.committedState (pageLoadState s)) = Some "http://a/"%string /\
  PLS.activeURL (pageLoadState s) = Some "about:error"%string.
Proof. cbv zeta. split_and!; vm_compute; done. Qed.
