(* ===== verification/FileAccess.v ===== *)
(** * File URLs and web processes without file access

    The URLs that a web process reports about its loads pass the checks of WebPageProxy.cpp
    and WebProcessProxy.cpp before they become part of the load state of the page.  As long as
    neither the embedder nor the back/forward list gave the web processes access to files, no
    message of any process, in any order, makes the page start or show a file outside the
    resources of the platform.  The main frame's own state is not protected in the same way
    when a navigation moves to another process. *)

From S2P Require Import Prelude PageLoadState WebFrames PageLoads PageMirror.
Import WebFrames PageLoads WebPageProxy.

Section access.
Context `{WebCore}.

(** A URL without file access: not a file, or a resource of the platform. *)
Definition harmlessURL (u : URL) : bool :=
  negb (isLocalFile u) || WebProcessProxy.startsWithAny (fileSystemPath u) platformPathsWithAssumedReadAccess.

(** The null URL is not a file. *)
Hypothesis null_is_not_local : isLocalFile None = false.

Lemma harmless_null : harmlessURL None = true.
Proof. unfold harmlessURL. by rewrite null_is_not_local. Qed.
Lemma harmless_notLocal u : isLocalFile u = false -> harmlessURL u = true.
Proof. unfold harmlessURL. by intros ->. Qed.

(** ** The invariant *)

Definition cleanData (d : PLS.Data.Data) : Prop :=
  harmlessURL (PLS.Data.url d) = true /\ harmlessURL (PLS.Data.provisionalURL d) = true /\ PLS.Data.resourceDirectoryURL d = None.
Definition cleanLoad (l : PLS.PageLoadState) : Prop := cleanData (PLS.committedState l) /\ cleanData (PLS.uncommittedState l).
Definition cleanProcess (w : WebProcessProxy.WebProcessProxy) : Prop :=
  WebProcessProxy.mayHaveUniversalFileReadSandboxExtension w = false /\ WebProcessProxy.localPathsWithAssumedReadAccess w = [].
Definition cleanNavigation (n : Navigation.Navigation) : Prop :=
  harmlessURL (Navigation.currentRequest n) = true /\
  match Navigation.substituteData n with Some u => isLocalFile u = false | None => True end.

Record clean (s : WebPageProxy) : Prop := mkClean {
  clean_page : mayHaveUniversalFileReadSandboxExtension s = false /\ previouslyVisitedPaths s = [];
  clean_processes : map_Forall (fun _ => cleanProcess) (processes s);
  clean_items : Forall (fun '(u, v) => harmlessURL u = true /\ harmlessURL v = true) (allItems s);
  clean_navigations : map_Forall (fun _ => cleanNavigation) (navigations s);
  clean_load : cleanLoad (pageLoadState s);
  clean_provisional : match provisionalPage s with Some pp => harmlessURL (pp_request pp) = true | None => True end
}.

(** The check lets harmless URLs through and nothing else. *)
Lemma check_harmless p u s : clean s -> checkURLReceived p u s = true -> harmlessURL u = true.
Proof.
  intros [[Hu Hv] Hps Hit _ _ _] Hc. unfold checkURLReceived in Hc. unfold harmlessURL.
  destruct (isLocalFile u) eqn:El; [|done]. rewrite Hu, Hv in Hc. cbn in *.
  destruct (processes s !! p) as [w|] eqn:Ew; [|done]. destruct (Hps p w Ew) as [Hw1 Hw2].
  unfold WebProcessProxy.checkURLReceivedFromWebProcess, WebProcessProxy.hasAssumedReadAccessToURL in Hc.
  rewrite El, Hw1, Hw2 in Hc. cbn in Hc. destruct (WebProcessProxy.startsWithAny _ _) eqn:Es; [done|].
  apply existsb_exists in Hc as ((u1 & u2) & Hin & Hor). rewrite Forall_forall in Hit.
  apply list_elem_of_In in Hin. specialize (Hit _ Hin) as [H1 H2]. unfold harmlessURL in H1, H2.
  apply orb_true_iff in Hor as [[Hl Hp]%andb_true_iff|[Hl Hp]%andb_true_iff]; apply bool_decide_eq_true in Hp.
  - rewrite Hl, Hp in H1. cbn in H1. congruence.
  - rewrite Hl, Hp in H2. cbn in H2. congruence.
Qed.

(** ** The statements of a handler *)

Definition cleanOp (op : PLS.Operation) : Prop :=
  match op with
  | PLS.OpSetPendingAPIRequest _ d => d = None
  | PLS.OpDidExplicitOpen u | PLS.OpDidStartProvisionalLoad u _ | PLS.OpDidReceiveServerRedirectForProvisionalLoad u
  | PLS.OpDidSameDocumentNavigation u => harmlessURL u = true
  | _ => True
  end.

Lemma clean_onLoadState f s : cleanLoad (f (pageLoadState s)) -> clean s -> clean (onLoadState f s).
Proof. intros Hl []. by split. Qed.

Lemma clean_begin s : clean s -> clean (beginTransaction s).
Proof. intros Hs. apply clean_onLoadState; [apply Hs|done]. Qed.

Lemma clean_mutate op s : cleanOp op -> clean s -> clean (mutate op s).
Proof.
  intros Hop Hs. apply clean_onLoadState; [|done]. destruct (clean_load s Hs) as [Hc Hu]. clear Hs.
  destruct (pageLoadState s) as [? ? [] ? ? ? ? ?]. unfold cleanLoad, cleanData in *. pose proof harmless_null.
  destruct op; cbn in *; subst; tauto.
Qed.

Lemma cleanLoad_commit l : cleanLoad l -> cleanLoad (settle (PLS.commitChanges protocolIs PLS.passive (PLS.run protocolIs PLS.passive 1) l) l).
Proof.
  intros [Hc Hu]. destruct (PLS_commitChanges l) as (l' & E & Hp & _ & _ & Ecs). rewrite E. cbn [settle].
  injection Hp as Eu _. split; [rewrite Ecs; by case_match|by rewrite Eu].
Qed.

Lemma clean_commitChanges s : clean s -> clean (commitChanges s).
Proof. intros Hs. apply clean_onLoadState; [apply cleanLoad_commit; apply Hs|done]. Qed.

Lemma clean_end s : clean s -> clean (endTransaction s).
Proof.
  intros Hs. apply clean_onLoadState; [|done]. unfold PLS.endTransaction. cbv zeta. case_match; [|apply Hs].
  match goal with |- context [PLS.commitChanges _ _ _ ?l0] => pose proof (cleanLoad_commit l0) as Hl;
    destruct (PLS_commitChanges l0) as (l' & E & _); rewrite E in Hl |- *; apply Hl, Hs end.
Qed.

Lemma clean_swap s : clean s -> clean (didSwapWebProcesses s).
Proof.
  intros Hs. apply clean_onLoadState; [|done]. destruct (swap_listen (pageLoadState s)) as [Hc _]. revert Hc.
  generalize (settle (PLS.didSwapWebProcesses protocolIs PLS.passive (PLS.run protocolIs PLS.passive 1) (pageLoadState s)) (pageLoadState s)).
  intros l' Hc. unfold PLS.core in Hc. injection Hc as _ Ec Eu _ _. unfold cleanLoad. rewrite Ec, Eu. apply Hs.
Qed.

Lemma clean_onFrame frame f s : clean s -> clean (onFrame frame f s).
Proof. intros []. by split. Qed.

Lemma clean_onProcess p f s : (forall w, cleanProcess w -> cleanProcess (f w)) -> clean s -> clean (onProcess p f s).
Proof.
  intros Hf Hs. destruct Hs as [H1 Hps H3 H4 H6 H7]. split; try assumption. intros q w Hq. cbn in Hq.
  destruct (decide (q = p)) as [->|Hne].
  - rewrite lookup_alter_eq in Hq. destruct (processes s !! p) as [w0|] eqn:E; [|done]. apply (inj Some) in Hq. subst w.
    apply Hf. by apply (Hps p).
  - rewrite lookup_alter_ne in Hq by done. by apply (Hps q).
Qed.

Lemma clean_onNavigation id f s :
  (forall n, cleanNavigation n -> cleanNavigation (f n)) -> clean s -> clean (onNavigation id f s).
Proof.
  intros Hf Hs. destruct Hs as [H1 H2 H3 Hns H6 H7]. split; try assumption. intros i n Hi. cbn in Hi.
  destruct (decide (i = id)) as [->|Hne].
  - rewrite lookup_alter_eq in Hi. destruct (navigations s !! id) as [n0|] eqn:E; [|done]. apply (inj Some) in Hi. subst n.
    apply Hf. by apply (Hns id).
  - rewrite lookup_alter_ne in Hi by done. by apply (Hns i).
Qed.

Lemma clean_tell c s : clean s -> clean (tell c s).
Proof. intros []. by split. Qed.
Lemma clean_tellAll c s : clean s -> clean (tellAll c s).
Proof. intros []. by split. Qed.
Lemma clean_report now e s : clean s -> clean (reportPageLoadResult now e s).
Proof. intros Hs. unfold reportPageLoadResult. case_match; [|done]. apply clean_tell. destruct Hs. by split. Qed.
Lemma clean_tellClients e frame nav info s : clean s -> clean (tellClients e frame nav info s).
Proof. intros Hs. unfold tellClients. case_match; [by apply clean_tell|by apply clean_tellAll]. Qed.
Lemma clean_automation frame s : clean s -> clean (automationNavigationOccurred frame s).
Proof. intros Hs. unfold automationNavigationOccurred. case_match; [by apply clean_tell|done]. Qed.
Lemma clean_clearActivity nav s : clean s -> clean (clearClientNavigationActivity nav s).
Proof. intros Hs. unfold clearClientNavigationActivity. case_match; [by apply clean_onNavigation|done]. Qed.
Lemma clean_drop s : clean s -> clean (dropProvisionalPage s).
Proof. intros Hs. unfold dropProvisionalPage. repeat case_match; [| |done]; destruct Hs; by split. Qed.
Lemma clean_takeNavigation i s : clean s -> clean (s <| navigations := snd (Navigation.takeNavigation i (navigations s)) |>).
Proof. intros []. split; try done. by apply map_Forall_delete. Qed.
Lemma clean_onMainFrame f s : clean s -> clean (onMainFrame f s).
Proof. intros Hs. unfold onMainFrame. case_match; [by apply clean_onFrame|done]. Qed.
Lemma clean_keepProvisional s pp f :
  provisionalPage s = Some pp -> pp_request (f pp) = pp_request pp -> clean s -> clean (s <| provisionalPage := Some (f pp) |>).
Proof. intros Ep Er []. rewrite Ep in *. split; try done. cbn. by rewrite Er. Qed.

(** Statements whose effect is outside the invariant. *)
Ltac outside := match goal with Hs : clean ?s |- clean _ => destruct Hs; by split end.

Create HintDb clean.
#[local] Hint Resolve clean_begin clean_mutate clean_commitChanges clean_end clean_swap clean_onFrame clean_onMainFrame clean_tell
  clean_tellAll clean_report clean_tellClients clean_automation clean_clearActivity clean_drop clean_takeNavigation
  check_harmless : clean.
#[local] Hint Extern 2 (cleanOp _) => cbn : clean.
#[local] Hint Extern 3 (clean _) => outside : clean.
#[local] Hint Extern 3 (clean (onProcess _ _ _)) => apply clean_onProcess; [by intros ? []; repeat case_match; split|] : clean.
#[local] Hint Extern 3 (clean (onNavigation _ _ _)) => apply clean_onNavigation; [by intros ? []; split|] : clean.

(** Every bound state is clean. *)
Ltac clean_statement := cbv zeta; repeat case_match; eauto 10 with clean.
Ltac clean_handler :=
  repeat lazymatch goal with
  | |- _ (let x : WebPageProxy := _ in _) => handler_step clean; [solve [clean_statement]|]
  | |- _ (let x := _ in _) => handler_skip
  end; clean_statement.

Ltac clean_enter Hs :=
  match goal with |- clean (withFrame ?p _ ?s _) => handler_enter (clean_tell (MarkCurrentlyDispatchedMessageAsInvalid p) s Hs) end;
  repeat match goal with Hc : checkURLReceived _ _ _ = true |- _ => apply check_harmless in Hc; [|exact Hs] end.

Lemma clean_failProvisional now p i nav u e will s :
  clean s -> clean (didFailProvisionalLoadForFrameShared now p i nav u e will s).
Proof. intros Hs. cbv beta delta [didFailProvisionalLoadForFrameShared]. clean_enter Hs. clean_handler. Qed.

Lemma clean_provisionalFail now i nav u e will pp s :
  provisionalPage s = Some pp -> clean s -> clean (provisional_didFailProvisionalLoadForFrame now i nav u e will pp s).
Proof.
  intros Ep Hs. unfold provisional_didFailProvisionalLoadForFrame. case_match; [done|]. cbv zeta. apply clean_failProvisional.
  apply clean_onMainFrame. by apply (clean_keepProvisional s pp (fun pp => pp <| pp_provisionalLoadURL := None |>)).
Qed.

Lemma clean_cancel now pp s : provisionalPage s = Some pp -> clean s -> clean (cancel now pp s).
Proof. intros Ep Hs. unfold cancel. repeat case_match; [done| |done]. by apply clean_provisionalFail. Qed.

Lemma clean_start now p i info nav u un s :
  clean s -> clean (didStartProvisionalLoadForFrameShared now p i info nav u un s).
Proof.
  intros Hs. cbv beta delta [didStartProvisionalLoadForFrameShared]. clean_enter Hs.
  handler_step clean.
  { destruct (provisionalPage s) eqn:Ep; [|done]. case_match; [|done]. by apply clean_drop, clean_cancel. }
  handler_skip. handler_step clean; [by eauto with clean|]. handler_step clean.
  { case_match; [|done]. apply clean_tellAll, clean_mutate; [done|].
    enough (Hr : clean (reportPageLoadResult now (mkError Cancellation 0) (onProcess p (WebProcessProxy.didStartProvisionalLoadForMainFrame u) s1)))
      by (destruct Hr; by split).
    apply clean_report, clean_onProcess; [|done]. intros w Hw. unfold WebProcessProxy.didStartProvisionalLoadForMainFrame.
    cbv zeta. by repeat case_match. }
  clean_handler.
Qed.

Lemma clean_redirect p i nav u s : clean s -> clean (didReceiveServerRedirectForProvisionalLoadForFrameShared p i nav u s).
Proof.
  intros Hs. cbv beta delta [didReceiveServerRedirectForProvisionalLoadForFrameShared]. clean_enter Hs. handler_skip.
  handler_step clean.
  { case_match; [|done]. apply clean_onNavigation; [|done]. intros n Hn. unfold Navigation.appendRedirectionURL. by destruct (_ || _). }
  clean_handler.
Qed.

Lemma clean_changeURL p i u s : clean s -> clean (didChangeProvisionalURLForFrameShared p i u s).
Proof. intros Hs. cbv beta delta [didChangeProvisionalURLForFrameShared]. clean_enter Hs. clean_handler. Qed.

Lemma clean_open i u mime s : clean s -> clean (didExplicitOpenForFrame i u mime s).
Proof.
  intros Hs. cbv beta delta [didExplicitOpenForFrame]. clean_enter Hs.
  destruct (checkURLReceived (process s) u s) eqn:Hc; [|done]. apply check_harmless in Hc; [|done]. cbv beta iota delta [negb].
  clean_handler.
Qed.

Lemma clean_commitLoad i nav c s : clean s -> clean (didCommitLoadForFrame i nav c s).
Proof.
  intros Hs. cbv beta delta [didCommitLoadForFrame announceDataTransfer]. clean_enter Hs. handler_skip.
  do 4 (handler_step clean; [solve [clean_statement]|]). handler_skip. handler_step clean.
  { case_match; [|by clean_statement].
    match goal with |- clean ((mutate ?op ?s') <| _ := _ |>) => assert (Hm : clean (mutate op s')) by eauto with clean end.
    destruct Hm. by split. }
  do 4 (handler_step clean; [solve [clean_statement]|]). handler_step clean; [|clean_handler].
  case_match; [|done]. do 2 (handler_step clean; [clean_statement|]). clean_handler.
Qed.

Lemma clean_finishLoad now i info nav s : clean s -> clean (didFinishLoadForFrame now i info nav s).
Proof. intros Hs. cbv beta delta [didFinishLoadForFrame]. clean_enter Hs. clean_handler. Qed.

Lemma clean_failLoad now i info nav e s : clean s -> clean (didFailLoadForFrame now i info nav e s).
Proof. intros Hs. cbv beta delta [didFailLoadForFrame]. clean_enter Hs. clean_handler. Qed.

Lemma clean_sameDocument i nav type u s : clean s -> clean (didSameDocumentNavigationForFrame i nav type u s).
Proof. intros Hs. cbv beta delta [didSameDocumentNavigationForFrame]. clean_enter Hs. clean_handler. Qed.

Lemma clean_title i t s : clean s -> clean (didReceiveTitleForFrame i t s).
Proof. intros Hs. cbv beta delta [didReceiveTitleForFrame]. clean_enter Hs. clean_handler. Qed.

(** *** Frames, processes and navigations come into being *)

Lemma clean_createFrame p i s : clean s -> clean (snd (createFrame p i s)).
Proof.
  intros Hs. unfold createFrame. cbn [snd]. apply clean_onProcess; [by intros ? []; split|].
  by outside.
Qed.

Lemma clean_addProcess p s :
  clean s -> clean (s <| processes := partial_alter (fun w => Some (default WebProcessProxy.create w)) p (processes s) |>).
Proof.
  intros [H1 Hps H3 H4 H6 H7]. split; try done. intros q w Hq. cbn in Hq. destruct (decide (q = p)) as [->|Hne].
  - rewrite lookup_partial_alter_eq in Hq. apply (inj Some) in Hq. subst w.
    destruct (processes s !! p) eqn:E; cbn; [by apply (Hps p)|done].
  - rewrite lookup_partial_alter_ne in Hq by done. by apply (Hps q).
Qed.

Lemma clean_addNavigation n s : cleanNavigation n -> clean s -> clean (snd (addNavigation n s)).
Proof. intros Hn []. split; try done. by apply map_Forall_insert_2. Qed.

Lemma clean_didCreateMainFrame i s : clean s -> clean (didCreateMainFrame i s).
Proof.
  intros Hs. cbv beta delta [didCreateMainFrame]. handler_skip. case_match; [done|].
  apply messageCheck_elim; [by apply clean_tell|]. intros _. apply messageCheck_elim; [by apply clean_tell|]. intros _.
  pose proof (clean_createFrame (process s) i s Hs) as Hc. destruct (createFrame (process s) i s) as [frame s']. cbn in Hc.
  destruct Hc. by split.
Qed.

Lemma clean_didCreateSubframe i s : clean s -> clean (didCreateSubframe i s).
Proof.
  intros Hs. unfold didCreateSubframe. apply messageCheck_elim; [by apply clean_tell|]. intros _. case_match; [done|].
  apply messageCheck_elim; [by apply clean_tell|]. intros _. by apply clean_createFrame.
Qed.

(** What the steps outside the web processes may bring: no files. *)
Definition withoutFiles (a : NavigationAction) : bool :=
  match action_targetItem a with Some u => negb (isLocalFile u) | None => true end.

Lemma clean_policy p frame nav a u u' s :
  withoutFiles a = true -> clean s -> clean (decidePolicyForNavigationAction p frame nav a u u' s).
Proof.
  intros Ha Hs. cbv beta delta [decidePolicyForNavigationAction]. handler_step clean; [by eauto with clean|]. handler_skip.
  handler_step clean; [by clean_statement|].
  match goal with |- clean (if negb (checkURLReceived p u' ?s1) then _ else _) =>
    destruct (checkURLReceived p u' s1) eqn:Hc; [apply check_harmless in Hc; [|done]|by apply clean_end, clean_tell] end.
  cbv beta iota delta [negb]. case_match; [by apply clean_end, clean_tell|]. do 3 handler_skip.
  lazymatch goal with |- ?Q (match ?e with pair _ _ => _ end) => assert (Hs2 : clean (snd e)); [|destruct e as [i s2]; cbn [snd] in Hs2] end.
  { repeat case_match; try done; apply clean_addNavigation; try done; split; try done;
      (apply harmless_notLocal; unfold withoutFiles in Ha; case_match; simplify_eq; by apply negb_true_iff). }
  handler_step clean.
  { destruct (provisionalPage s2) eqn:Ep; [|done]. destruct (_ =? p)%nat; [|done].
    by apply (clean_keepProvisional s2 _ (fun pp => pp <| pp_navigationID := i |>)). }
  handler_step clean; [apply clean_onNavigation; [by intros ? []; split|done]|]. by apply clean_end, clean_tell.
Qed.

(** *** The end of a process *)

Lemma clean_reset r s : clean s -> clean (resetStateAfterProcessTermination r s).
Proof.
  intros Hs. cbv beta delta [resetStateAfterProcessTermination]. handler_step clean.
  - cbv beta delta [resetStateAfterProcessExited]. case_match; [done|]. handler_step clean; [by outside|].
    handler_step clean; [by clean_statement|]. handler_step clean; [unfold resetState; apply clean_tell; by outside|].
    handler_step clean; [|by apply clean_tell]. case_match; [by eauto 10 with clean|done].
  - handler_step clean; [by apply clean_tell|]. handler_step clean; [|by clean_statement]. case_match; [|done].
    match goal with Hs : clean ?s |- clean _ => destruct Hs; split; try done end.
Qed.

Lemma clean_dispatch handled r s : clean s -> clean (dispatchProcessDidTerminate handled r s).
Proof.
  intros Hs. cbv beta delta [dispatchProcessDidTerminate]. handler_skip. handler_step clean; [by clean_statement|].
  case_match; [|done]. cbv beta delta [tryReloadAfterProcessTermination].
  do 2 (handler_step clean; [by outside|]). clean_statement.
Qed.

Lemma clean_shutDown p s : clean s -> clean (shutDown p s).
Proof. intros Hs. apply clean_onProcess; [by intros ? []; split|done]. Qed.

Lemma clean_crash handled p s : clean s -> clean (processDidTerminateOrFailedToLaunch handled p s).
Proof.
  intros Hs. cbv beta delta [processDidTerminateOrFailedToLaunch provisionalProcessDidTerminate]. do 2 handler_skip.
  handler_step clean; [by apply clean_shutDown|]. handler_step clean; [case_match; [by apply clean_reset, clean_begin|done]|].
  handler_step clean; [by clean_statement|]. case_match; [by apply clean_end, clean_dispatch|done].
Qed.

Lemma clean_requestTermination handled p r s : clean s -> clean (requestTermination handled p r s).
Proof.
  intros Hs. cbv beta delta [requestTermination provisionalProcessDidTerminate]. do 2 handler_skip.
  handler_step clean; [by apply clean_shutDown|]. handler_step clean; [case_match; [by apply clean_reset|done]|].
  handler_step clean; [by clean_statement|]. case_match; [by apply clean_dispatch|done].
Qed.

(** *** Loads of the embedder and process swaps *)

Lemma clean_ensure p s : clean s -> clean (ensureRunningProcess p s).
Proof.
  intros Hs. unfold ensureRunningProcess. case_match; [done|]. cbv beta delta [launchProcess].
  handler_step clean; [by apply clean_tellAll|]. handler_step clean; [|by apply clean_swap, clean_tellAll].
  match goal with Hs : clean ?s' |- _ => apply (clean_addProcess p) in Hs; destruct Hs; by split end.
Qed.

Lemma assume_notLocal p u s : isLocalFile u = false -> assumeReadAccessToBaseURL p u s = s.
Proof. intros Hu. unfold assumeReadAccessToBaseURL. by rewrite Hu. Qed.

(** A process is not given access for the sake of a resource of the platform. *)
Lemma clean_sandbox p u s :
  harmlessURL u = true -> (isLocalFile u = true -> is_Some (processes s !! p)) -> clean s ->
  clean (maybeInitializeSandboxExtensionHandle p u None s).
Proof.
  intros Hu Hp Hs. unfold maybeInitializeSandboxExtensionHandle, WebProcessProxy.hasAssumedReadAccessToURL.
  unfold harmlessURL in Hu. destruct (isLocalFile u) eqn:El; cbn in *; [|done]. destruct (Hp eq_refl) as [w ->]. by rewrite Hu.
Qed.

Lemma clean_directory s : clean s -> PLS.resourceDirectoryURL (pageLoadState s) = None.
Proof. intros Hs. apply Hs. Qed.

(** [setPendingAPIRequest] and the transactions leave the processes alone. *)
Lemma clean_loadRequestShared p i u c s :
  harmlessURL u = true -> (isLocalFile u = true -> is_Some (processes s !! p)) -> clean s ->
  clean (loadRequestWithNavigationShared p i u c s).
Proof.
  intros Hu Hp Hs. cbv beta delta [loadRequestWithNavigationShared].
  handler_step (fun s => clean s /\ (isLocalFile u = true -> is_Some (processes s !! p))); [by split; [apply clean_begin|]|].
  handler_step (fun s => clean s /\ (isLocalFile u = true -> is_Some (processes s !! p))).
  { match goal with Hb : _ /\ _ |- _ => destruct Hb end. destruct c; [done|]. split; [by apply clean_mutate|done]. }
  match goal with Hb : _ /\ _ |- clean (let s := maybeInitializeSandboxExtensionHandle _ _ _ ?s1 in _) =>
    destruct Hb as [Hc Hp1] end.
  handler_step clean; [rewrite clean_directory by done; by apply clean_sandbox|]. by apply clean_end, clean_tell.
Qed.

Lemma clean_loadDataShared p i u s : isLocalFile u = false -> clean s -> clean (loadDataWithNavigationShared p i u s).
Proof.
  intros Hu Hs. cbv beta delta [loadDataWithNavigationShared]. do 2 (handler_step clean; [by eauto with clean|]).
  handler_step clean; [by rewrite assume_notLocal|]. by apply clean_end, clean_tell.
Qed.

Lemma clean_loadRequest p u s : isLocalFile u = false -> clean s -> clean (loadRequest p u s).
Proof.
  intros Hu Hs. cbv beta delta [loadRequest]. handler_step clean; [by apply clean_ensure|].
  lazymatch goal with |- ?Q (match addNavigation ?n ?s' with pair _ _ => _ end) =>
    assert (Hs2 : clean (snd (addNavigation n s'))); [|destruct (addNavigation n s') as [i s2]; cbn [snd] in Hs2] end.
  - apply clean_addNavigation; [|done]. split; [by apply harmless_notLocal|done].
  - apply clean_loadRequestShared; [by apply harmless_notLocal|congruence|done].
Qed.

Lemma clean_loadData p u s : isLocalFile u = false -> clean s -> clean (loadData p u s).
Proof.
  intros Hu Hs. cbv beta delta [loadData]. handler_step clean; [by apply clean_ensure|].
  lazymatch goal with |- ?Q (match addNavigation ?n ?s' with pair _ _ => _ end) =>
    assert (Hs2 : clean (snd (addNavigation n s'))); [|destruct (addNavigation n s') as [i s2]; cbn [snd] in Hs2] end.
  - apply clean_addNavigation; [|done]. split; [by apply harmless_null|done].
  - by apply clean_loadDataShared.
Qed.

Lemma clean_loadAlternateHTML p u v s :
  isLocalFile u = false -> isLocalFile v = false -> clean s -> clean (loadAlternateHTML p u v s).
Proof.
  intros Hu Hv Hs. cbv beta delta [loadAlternateHTML]. case_match; [done|]. handler_step clean; [case_match; [done|by outside]|].
  handler_step clean; [by apply clean_ensure|]. do 3 (handler_step clean; [by eauto with clean|]).
  handler_step clean; [by apply clean_onMainFrame|].
  do 2 (handler_step clean; [by rewrite assume_notLocal|]). by apply clean_end, clean_tell.
Qed.

Lemma clean_continue now i n p suspended s :
  cleanNavigation n -> clean s -> clean (continueNavigationInNewProcess now i n p suspended s).
Proof.
  intros [Hn Hd] Hs. cbv beta delta [continueNavigationInNewProcess]. handler_step clean.
  { destruct (provisionalPage s) eqn:Ep; [|done]. apply clean_drop. destruct (_ =? i); [done|by apply clean_cancel]. }
  handler_step (fun s => clean s /\ is_Some (processes s !! p)).
  { split; [by apply clean_addProcess|]. cbn. rewrite lookup_partial_alter_eq. by eexists. }
  lazymatch goal with Hb : clean ?s1 /\ _ |- ?Q (match ?e with pair _ _ => _ end) => destruct Hb as [Hc Hp];
    assert (Hs2 : clean (snd e) /\ is_Some (processes (snd e) !! p)) end.
  { destruct suspended; [|done]. split; [by apply clean_createFrame|]. cbn. rewrite lookup_alter_eq. by apply fmap_is_Some. }
  lazymatch goal with |- ?Q (match ?e with pair _ _ => _ end) => destruct e as [frame s2]; cbn [snd] in Hs2 end.
  destruct Hs2 as [Hs2 Hp2].
  lazymatch goal with |- ?Q (let x := ?e in @?b x) =>
    refine (let_step (fun pp => pp_request pp = Navigation.currentRequest n) Q e b eq_refl _); intros pp Hpp; cbv beta end.
  handler_step (fun s => clean s /\ is_Some (processes s !! p)).
  { split; [|done]. apply clean_tellAll. destruct Hs2. split; try done. cbn. by rewrite Hpp. }
  match goal with Hb : clean ?s1 /\ _ |- _ => destruct Hb as [Hc3 Hp3] end.
  destruct (Navigation.targetItem n); [by cbv zeta; eauto 10 with clean|].
  destruct (Navigation.substituteData n); [by apply clean_loadDataShared|by apply clean_loadRequestShared].
Qed.

(** The navigation's own process takes over. *)
Lemma clean_commitProvisionalPage i nav c pp s : clean s -> clean (commitProvisionalPage i nav c pp s).
Proof.
  intros Hs. cbv beta delta [commitProvisionalPage]. handler_skip. handler_step clean; [by apply clean_reset|].
  handler_step clean; [by apply clean_tell|].
  lazymatch goal with |- ?Q (match ?e with pair _ _ => _ end) => assert (Hs2 : clean (snd e)); [|destruct e as [b s2]; cbn [snd] in Hs2] end.
  { unfold suspendCurrentPageIfPossible. repeat case_match; try done. by apply clean_tell. }
  handler_step clean; [by apply clean_tell|]. handler_step clean; [by clean_statement|].
  handler_step clean; [|handler_step clean; [by apply clean_commitLoad|by apply clean_tell]].
  unfold swapToProvisionalPage. apply clean_swap, clean_tellAll.
  match goal with Hs : clean ?s' |- clean _ => destruct Hs; by split end.
Qed.

Lemma clean_provisionalCreate i pp s :
  provisionalPage s = Some pp -> clean s -> clean (provisional_didCreateMainFrame i pp s).
Proof.
  intros Ep Hs. pose proof (clean_provisional s Hs) as Hr. rewrite Ep in Hr. cbv beta delta [provisional_didCreateMainFrame].
  pose proof (clean_createFrame (pp_process pp) i s Hs) as Hc.
  assert (Ep' : provisionalPage (snd (createFrame (pp_process pp) i s)) = Some pp) by exact Ep.
  destruct (createFrame (pp_process pp) i s) as [frame s1]. cbn [snd] in Hc, Ep'.
  handler_step clean; [by apply (clean_keepProvisional s1 pp (fun pp => pp <| pp_mainFrame := Some frame |>))|].
  case_match; [done|]. handler_step clean; [by clean_statement|].
  case_match; [|done]. handler_step clean; [by apply clean_onFrame|]. by apply clean_redirect.
Qed.

Lemma clean_provisionalStart now i info nav u un pp s :
  provisionalPage s = Some pp -> clean s -> clean (provisional_didStartProvisionalLoadForFrame now i info nav u un pp s).
Proof.
  intros Ep Hs. unfold provisional_didStartProvisionalLoadForFrame. case_match; [done|]. cbv zeta.
  assert (Hk : clean (s <| provisionalPage := Some (pp <| pp_provisionalLoadURL := u |>) |>))
    by (by apply (clean_keepProvisional s pp (fun pp => pp <| pp_provisionalLoadURL := u |>))).
  case_match; [done|]. by apply clean_start, clean_onMainFrame.
Qed.

(** ** All steps *)

(** The embedder and the back/forward list bring no file URLs. *)
Definition withoutFileAccess (a : Step) : bool :=
  match a with
  | FromWebProcess _ (DecidePolicyForNavigationActionAsync _ _ a _ _)
  | FromProvisionalProcess _ (DecidePolicyForNavigationActionAsync _ _ a _ _) => withoutFiles a
  | LoadRequestStep _ u | LoadDataStep _ u => negb (isLocalFile u)
  | LoadAlternateHTMLStep _ u v => negb (isLocalFile u) && negb (isLocalFile v)
  | BackForwardListChanged _ items => forallb (fun '(u, v) => negb (isLocalFile u) && negb (isLocalFile v)) items
  | _ => true
  end.

Lemma clean_message now msg s : withoutFileAccess (FromWebProcess now msg) = true -> clean s -> clean (didReceiveMessage now msg s).
Proof.
  intros Ha Hs. destruct msg; cbn [didReceiveMessage].
  - by apply clean_didCreateMainFrame.
  - by apply clean_didCreateSubframe.
  - apply clean_onProcess; [by intros ? []; split|done].
  - unfold didStartProgress, changeAndCommit. eauto 10 with clean.
  - unfold didChangeProgress, changeAndCommit. eauto 10 with clean.
  - unfold didFinishProgress, changeAndCommit. eauto 10 with clean.
  - unfold setNetworkRequestsInProgress. eauto 10 with clean.
  - pose proof (clean_takeNavigation navigation s Hs). unfold didDestroyNavigation. by repeat case_match.
  - by apply clean_start.
  - by apply clean_open.
  - by apply clean_redirect.
  - by apply clean_changeURL.
  - unfold didFailProvisionalLoadForFrame. cbv zeta. case_match; [done|]. by apply clean_failProvisional.
  - by apply clean_commitLoad.
  - by apply clean_finishLoad.
  - by apply clean_failLoad.
  - by apply clean_sameDocument.
  - by apply clean_title.
  - apply withFrame_elim; [by apply clean_tell|]. intros. by apply clean_policy.
Qed.

Lemma clean_provisionalMessage now msg pp s :
  withoutFileAccess (FromProvisionalProcess now msg) = true -> provisionalPage s = Some pp -> clean s ->
  clean (provisional_didReceiveMessage now msg pp s).
Proof.
  intros Ha Ep Hs. destruct msg; cbn [provisional_didReceiveMessage]; try (by apply clean_message); try done.
  - by apply clean_provisionalCreate.
  - apply clean_onProcess; [by intros ? []; split|done].
  - by apply clean_provisionalStart.
  - case_match; [by apply clean_redirect|done].
  - case_match; [by apply clean_changeURL|done].
  - by apply clean_provisionalFail.
  - unfold provisional_didCommitLoadForFrame. case_match; [done|]. cbv zeta. apply clean_commitProvisionalPage, clean_tell.
    by apply (clean_keepProvisional s pp (fun pp => pp <| pp_provisionalLoadURL := None |> <| pp_wasCommitted := true |>)).
  - case_match; [|done]. apply withFrame_elim; [by apply clean_tell|]. intros. by apply clean_policy.
Qed.

Lemma clean_step a s : withoutFileAccess a = true -> clean s -> clean (step a s).
Proof.
  intros Ha Hs. destruct a; cbn [step].
  - by apply clean_message.
  - case_match; [by apply clean_provisionalMessage|done].
  - apply clean_loadRequest; [|done]. by apply negb_true_iff in Ha.
  - apply clean_loadData; [|done]. by apply negb_true_iff in Ha.
  - apply andb_true_iff in Ha as [Hu%negb_true_iff Hv%negb_true_iff]. by apply clean_loadAlternateHTML.
  - case_match; [|done]. apply clean_continue; [|done]. by eapply (clean_navigations s Hs).
  - by apply clean_crash.
  - by apply clean_requestTermination.
  - destruct Hs. split; try done. cbn in *. apply Forall_forall. intros [u v] Hin. rewrite forallb_forall in Ha.
    apply list_elem_of_In, Ha in Hin. apply andb_true_iff in Hin as [Hu%negb_true_iff Hv%negb_true_iff].
    split; by apply harmless_notLocal.
  - by outside.
Qed.

Lemma clean_steps l s : forallb withoutFileAccess l = true -> clean s -> clean (steps l s).
Proof.
  revert s. induction l as [|a l IH]; intros s Hl Hs; [done|]. cbn [forallb steps foldl] in *. apply andb_true_iff in Hl as [Ha Hl].
  apply IH; [done|]. by apply clean_step.
Qed.

Lemma clean_create p : clean (create p).
Proof.
  pose proof harmless_null. split; try done; cbn. by apply map_Forall_singleton.
Qed.

End access.

(** ** Theorems *)

(** C25: No file URLs without file access.  The embedder loads no files and no item of the
    back/forward list is one.  Then whatever the web processes send, in any order and through
    any number of process swaps and crashes, neither the URL nor the provisional URL that the
    page publishes is a file outside the resources of the platform. *)
Theorem page_shows_no_file_without_access `{WebCore} p l :
  isLocalFile None = false -> forallb withoutFileAccess l = true ->
  let d := PLS.committedState (pageLoadState (steps l (create p))) in
  harmlessURL (PLS.Data.url d) = true /\ harmlessURL (PLS.Data.provisionalURL d) = true.
Proof.
  intros Hnull Hl. destruct (clean_load _ (clean_steps Hnull l _ Hl (clean_create Hnull p))) as [(Hu & Hp & _) _]. by split.
Qed.

Lemma page_shows_no_file_without_access_witness :
  let l := swapStarted ++
    [FromProvisionalProcess 7 (DidReceiveServerRedirectForProvisionalLoadForFrame 9 1 (Some "file:///etc/passwd"%string));
     FromProvisionalProcess 8 (DidCommitLoadForFrame 9 1 someCommit);
     FromWebProcess 9 (DidSameDocumentNavigationForFrame 9 0 0 (Some "file:///etc/passwd"%string));
     FromWebProcess 10 (DidExplicitOpenForFrame 9 (Some "file:///etc/passwd"%string) None)] in
  let s := steps (H := someWebCore) l (create 1) in
  harmlessURL (H := someWebCore) (PLS.Data.url (PLS.committedState (pageLoadState s))) = true /\
  process s = 2%nat /\ PLS.Data.url (PLS.committedState (pageLoadState s)) = Some "http://a/"%string.
Proof.
  cbv zeta. split; [|by vm_compute].
  apply (@page_shows_no_file_without_access someWebCore 1 (swapStarted ++
    [FromProvisionalProcess 7 (DidReceiveServerRedirectForProvisionalLoadForFrame 9 1 (Some "file:///etc/passwd"%string));
     FromProvisionalProcess 8 (DidCommitLoadForFrame 9 1 someCommit);
     FromWebProcess 9 (DidSameDocumentNavigationForFrame 9 0 0 (Some "file:///etc/passwd"%string));
     FromWebProcess 10 (DidExplicitOpenForFrame 9 (Some "file:///etc/passwd"%string) None)])); by vm_compute.
Defined.

(** The main frame is not covered.  A process that takes over a navigation reports a
    provisional load of a file it may not read.  The message is recognised as invalid, but
    only after the URL became the provisional URL of the page's main frame, and when the old
    process then commits a load the file becomes the URL of the main frame; the page itself
    publishes neither. *)
Theorem unchecked_url_reaches_main_frame :
  let l := errorPageShown ++
    [LoadRequestStep 1 (Some "http://a/"%string);
     ContinueNavigationInNewProcess 4 1 2 None;
     FromProvisionalProcess 5 (DidCreateMainFrame 9);
     FromProvisionalProcess 6 (DidStartProvisionalLoadForFrame 9 true 1 (Some "file:///etc/passwd"%string) None)] in
  let s := steps (H := someWebCore) l (create 1) in
  let s' := step (H := someWebCore) (FromWebProcess 7 (DidCommitLoadForFrame 1 0 someCommit)) s in
  forallb (withoutFileAccess (H := someWebCore)) l = true /\
  last (calls s) = Some (MarkCurrentlyDispatchedMessageAsInvalid 2) /\
  FrameLoadState.provisionalURL (mainLoadState s) = Some "file:///etc/passwd"%string /\
  PLS.Data.provisionalURL (PLS.committedState (pageLoadState s)) = None /\
  FrameLoadState.url (mainLoadState s') = Some "file:///etc/passwd"%string /\
  harmlessURL (H := someWebCore) (FrameLoadState.url (mainLoadState s')) = false.
Proof. cbv zeta. split_and!; vm_compute; reflexivity. Qed.
