(* ===== verification/ProcessSwap.v ===== *)
(** * A navigation that continues in another web process

    From the moment a provisional page exists to the moment its load commits or fails
    (ProvisionalPageProxy.cpp and the handlers of WebPageProxy.cpp it calls): what the page
    publishes meanwhile, that a failure brings back what it published before, and that a commit
    makes the new process and its frame those of the page. *)

From S2P Require Import Prelude PageLoadState WebFrames PageLoads PageMirror.
Import WebFrames PageLoads WebPageProxy.

Section swap.
Context `{WebCore}.

(** The frame [f] that the process [q] knows as [i]. *)
Variables (q : nat) (i : Z) (f : nat).

(** Who is in charge of the page: the main frame, the process and the provisional page. *)
Abbreviation Charge := (option nat * nat * option ProvisionalPageProxy)%type.
Definition charge (s : WebPageProxy) : Charge := (mainFrame s, process s, provisionalPage s).
(** [f] counts as a main frame. *)
Definition leads (c : Charge) : bool :=
  bool_decide (fst (fst c) = Some f) || match snd c with Some pp => bool_decide (pp_mainFrame pp = Some f) | None => false end.

Abbreviation View := (PLS.State * URL * URL * URL * URL)%type.

(** In [n] transactions the page's load state is [v], and the provisional URL of [f] and its
    URL are [fu] and [fc]. *)
Definition at_ (c : Charge) (n : Z) (v : View) (fu fc : URL) (s : WebPageProxy) : Prop :=
  charge s = c /\ inTransactions n (pageLoadState s) /\ pageView (pageLoadState s) = v /\
  (exists w, frames s !! f = Some w /\ WebFrameProxy.frameID w = i /\
     FrameLoadState.provisionalURL (WebFrameProxy.frameLoadState w) = fu /\ FrameLoadState.url (WebFrameProxy.frameLoadState w) = fc) /\
  webFrame q i s = Some f.

(** The effect of an operation on what the page publishes. *)
Definition opView (op : PLS.Operation) (v : View) : View :=
  let '(st, u, prov, un, lastUn) := v in
  match op with
  | PLS.OpDidStartProvisionalLoad u' un' => (PLS.Provisional, u, u', un', un)
  | PLS.OpDidReceiveServerRedirectForProvisionalLoad u' => (st, u, u', un, lastUn)
  | PLS.OpDidFailProvisionalLoad => (PLS.Finished, u, None, lastUn, lastUn)
  | PLS.OpDidCommitLoad _ _ _ => (PLS.Committed, prov, None, un, lastUn)
  | _ => v
  end.

Definition loadOp (op : PLS.Operation) : bool :=
  match op with
  | PLS.OpDidStartProvisionalLoad _ _ | PLS.OpDidReceiveServerRedirectForProvisionalLoad _ | PLS.OpDidFailProvisionalLoad
  | PLS.OpDidCommitLoad _ _ _ | PLS.OpClearPendingAPIRequest => true
  | _ => false
  end.

Lemma pageView_mutate op l : loadOp op = true -> pageView (PLS.mutate op l) = opView op (pageView l).
Proof. destruct l as [? ? [] ? ? ? ? ?]. by destruct op. Qed.

(** ** The statements of a handler *)

Section statements.
Variables (c : Charge) (v : View) (fu fc : URL).

Lemma at_load n n' v' g s :
  at_ c n v fu fc s -> inTransactions n' (g (pageLoadState s)) -> pageView (g (pageLoadState s)) = v' ->
  at_ c n' v' fu fc (onLoadState g s).
Proof. by intros (? & ? & ? & ? & ?) ? ?. Qed.

Lemma at_begin s : at_ c 0 v fu fc s -> at_ c 1 v fu fc (beginTransaction s).
Proof. intros Hs. eapply at_load; [exact Hs| |apply Hs]. apply (inTransactions_begin 0); [apply Hs|lia]. Qed.

Lemma at_mutate op n s : loadOp op = true -> 0 < n -> at_ c n v fu fc s -> at_ c n (opView op v) fu fc (mutate op s).
Proof.
  intros Hop Hn Hs. eapply at_load; [exact Hs|apply inTransactions_mutate; [done|apply Hs]|].
  rewrite pageView_mutate by done. f_equal. apply Hs.
Qed.

Lemma at_commitChanges n s : at_ c n v fu fc s -> at_ c n v fu fc (commitChanges s).
Proof.
  intros Hs. eapply at_load; [exact Hs|apply inTransactions_commit; apply Hs|].
  etransitivity; [apply pageView_pending, pending_commit|apply Hs].
Qed.

Lemma at_end s : at_ c 1 v fu fc s -> at_ c 0 v fu fc (endTransaction s).
Proof.
  intros Hs. eapply at_load; [exact Hs|apply (inTransactions_end 0); [apply Hs|lia]|].
  etransitivity; [apply pageView_pending, pending_end|apply Hs].
Qed.

Lemma at_swap n s : at_ c n v fu fc s -> at_ c n v fu fc (didSwapWebProcesses s).
Proof.
  intros Hs. eapply at_load; [exact Hs|apply inTransactions_swap; apply Hs|].
  etransitivity; [apply pageView_pending, swap_listen|apply Hs].
Qed.

Lemma at_onFrame fu' fc' n g s :
  (forall w, WebFrameProxy.frameID (g w) = WebFrameProxy.frameID w /\
     (FrameLoadState.provisionalURL (WebFrameProxy.frameLoadState w) = fu -> FrameLoadState.url (WebFrameProxy.frameLoadState w) = fc ->
      FrameLoadState.provisionalURL (WebFrameProxy.frameLoadState (g w)) = fu' /\
      FrameLoadState.url (WebFrameProxy.frameLoadState (g w)) = fc')) ->
  at_ c n v fu fc s -> at_ c n v fu' fc' (onFrame f g s).
Proof.
  intros Hg (? & ? & ? & (w & Ew & Ei & Eu & Ec) & ?). split_and!; try done. exists (g w). destruct (Hg w) as [E1 E2].
  destruct (E2 Eu Ec). cbn. rewrite list_lookup_alter, decide_True, Ew by done. by rewrite E1.
Qed.

Lemma at_onOther m n g s : m <> f -> at_ c n v fu fc s -> at_ c n v fu fc (onFrame m g s).
Proof.
  intros Hm (? & ? & ? & (w & Ew & Hw) & ?). split_and!; try done. exists w. split; [|done]. cbn.
  by rewrite list_lookup_alter, decide_False.
Qed.

Lemma at_onProcess p g n s :
  (forall w, WebProcessProxy.frameMap (g w) = WebProcessProxy.frameMap w) -> at_ c n v fu fc s -> at_ c n v fu fc (onProcess p g s).
Proof.
  intros Hg (? & ? & ? & ? & Hw). split_and!; try done. unfold webFrame in *. cbn. destruct (decide (q = p)) as [->|Hne].
  - rewrite lookup_alter_eq. destruct (processes s !! p) as [w|]; [|done]. cbn in *. unfold WebProcessProxy.webFrame in *.
    by rewrite Hg.
  - by rewrite lookup_alter_ne.
Qed.

Lemma at_isMainFrame n s : at_ c n v fu fc s -> isMainFrame f s = leads c.
Proof. intros (Ec & _). subst c. reflexivity. Qed.

Ltac unconcerned := cbv zeta; repeat case_match; assumption.
Lemma at_report n now e s : at_ c n v fu fc s -> at_ c n v fu fc (reportPageLoadResult now e s).
Proof. intros Hs. unfold reportPageLoadResult. unconcerned. Qed.
Lemma at_tellClients n e nav info s : at_ c n v fu fc s -> at_ c n v fu fc (tellClients e f nav info s).
Proof. intros Hs. unfold tellClients. unconcerned. Qed.
Lemma at_automation n s : at_ c n v fu fc s -> at_ c n v fu fc (automationNavigationOccurred f s).
Proof. intros Hs. unfold automationNavigationOccurred. unconcerned. Qed.
End statements.

Lemma check_notLocal p u s : isLocalFile u = false -> checkURLReceived p u s = true.
Proof. intros Hu. unfold checkURLReceived. by rewrite Hu. Qed.

Lemma withFrame_known (Q : WebPageProxy -> Prop) p id s k frame :
  webFrame p id s = Some frame -> Q (k frame) -> Q (withFrame p id s k).
Proof. intros E. unfold withFrame. by rewrite E. Qed.
Lemma messageCheck_passed (Q : WebPageProxy -> Prop) p (b : bool) s k : b = true -> Q k -> Q (messageCheck p b s k).
Proof. by intros ->. Qed.

Ltac enter Hs :=
  lazymatch goal with |- ?Q (withFrame ?p ?id ?s ?k) => apply (withFrame_known Q p id s k f); [apply Hs|cbv beta] end;
  repeat lazymatch goal with |- ?Q (messageCheck ?p ?b ?s ?k) => apply (messageCheck_passed Q p b s k); [by apply check_notLocal|] end.
Ltac unconcerned := cbv zeta; repeat case_match; assumption.

(** ** The handlers *)

Lemma at_redirect c v fu fc nav u s :
  leads c = true -> isLocalFile u = false -> at_ c 0 v fu fc s ->
  at_ c 0 (opView (PLS.OpDidReceiveServerRedirectForProvisionalLoad u) v) u fc
    (didReceiveServerRedirectForProvisionalLoadForFrameShared q i nav u s).
Proof.
  intros Hl Hu Hs. cbv beta delta [didReceiveServerRedirectForProvisionalLoadForFrameShared]. enter Hs. handler_skip.
  handler_step (at_ c 0 v fu fc); [unconcerned|]. handler_step (at_ c 1 v fu fc); [by apply at_begin|].
  set (v' := opView _ v). handler_step (at_ c 1 v' fu fc).
  { match goal with Hb : at_ c 1 _ _ _ ?s' |- _ => rewrite (at_isMainFrame _ _ _ _ _ _ Hb), Hl end. by apply at_mutate. }
  handler_step (at_ c 1 v' u fc); [by eapply at_onFrame; [|done]|].
  handler_step (at_ c 1 v' u fc); [by apply at_commitChanges|]. handler_step (at_ c 1 v' u fc); [unconcerned|]. by apply at_end.
Qed.

Lemma at_start m p pp v fu fc now info nav u un s :
  pp_mainFrame pp = Some f -> isLocalFile u = false -> at_ (m, p, Some pp) 0 v fu fc s ->
  at_ (m, p, Some pp) 0 (opView (PLS.OpDidStartProvisionalLoad u un) v) u fc
    (didStartProvisionalLoadForFrameShared now q i info nav u un s).
Proof.
  intros Hf Hu Hs. set (c := (m, p, Some pp)) in *.
  assert (Hl : leads c = true) by (unfold leads; cbn; rewrite Hf, (bool_decide_eq_true_2 (Some f = Some f)) by done; apply orb_true_r).
  cbv beta delta [didStartProvisionalLoadForFrameShared]. enter Hs.
  handler_step (at_ c 0 v fu fc).
  { assert (Ep : provisionalPage s = Some pp) by (destruct Hs as [Ec _]; by injection Ec). rewrite Ep.
    rewrite Hf, bool_decide_eq_false_2 by auto. by rewrite andb_false_r. }
  handler_skip. handler_step (at_ c 1 v fu fc).
  { pose proof (at_mutate c v fu fc PLS.OpClearPendingAPIRequest 1) as Hm. destruct v as [[[[? ?] ?] ?] ?].
    apply Hm; [done|done|by apply at_begin]. }
  set (v' := opView _ v). handler_step (at_ c 1 v' fu fc).
  { match goal with Hb : at_ c 1 _ _ _ ?s' |- _ => rewrite (at_isMainFrame _ _ _ _ _ _ Hb), Hl end.
    handler_step (at_ c 1 v fu fc).
    { apply at_onProcess; [|done]. intros w. unfold WebProcessProxy.didStartProvisionalLoadForMainFrame. cbv zeta. by repeat case_match. }
    handler_step (at_ c 1 v fu fc); [by apply at_report|]. handler_step (at_ c 1 v fu fc); [assumption|].
    handler_step (at_ c 1 v' fu fc); [by apply at_mutate|assumption]. }
  handler_step (at_ c 1 v' fu fc); [by eapply at_onFrame; [|done]|].
  handler_step (at_ c 1 v' u fc); [by eapply at_onFrame; [|done]|].
  handler_step (at_ c 1 v' u fc); [by apply at_commitChanges|]. by apply at_end, at_tellClients.
Qed.

(** The failed load takes the provisional page with it, unless the process goes on loading. *)
Lemma at_fail m p pp v fu fc now nav u e (willContinueLoading : bool) s :
  pp_mainFrame pp = Some f -> pp_wasCommitted pp = false -> at_ (m, p, Some pp) 0 v fu fc s ->
  at_ (m, p, if willContinueLoading then Some pp else None) 0 (opView PLS.OpDidFailProvisionalLoad v) None fc
    (didFailProvisionalLoadForFrameShared now q i nav u e willContinueLoading s).
Proof.
  intros Hf Hw Hs. set (c := (m, p, Some pp)) in *.
  assert (Hl : leads c = true) by (unfold leads; cbn; rewrite Hf, (bool_decide_eq_true_2 (Some f = Some f)) by done; apply orb_true_r).
  cbv beta delta [didFailProvisionalLoadForFrameShared]. enter Hs.
  handler_step (at_ c 0 v fu fc); [by apply at_automation|]. handler_skip. handler_step (at_ c 0 v fu fc); [unconcerned|].
  handler_step (at_ c 1 v fu fc); [by apply at_begin|]. set (v' := opView _ v). handler_step (at_ c 1 v' fu fc).
  { match goal with Hb : at_ c 1 _ _ _ ?s' |- _ => rewrite (at_isMainFrame _ _ _ _ _ _ Hb), Hl end.
    match goal with |- _ (tell _ (mutate ?op ?s')) => enough (Hm : at_ c 1 v' fu fc (mutate op s')) by exact Hm end.
    apply at_mutate; [done|done|by apply at_report]. }
  handler_step (at_ c 1 v' None fc); [by eapply at_onFrame; [|done]|].
  handler_step (at_ c 1 v' None fc); [by apply at_commitChanges|].
  do 3 (handler_step (at_ c 1 v' None fc); [unconcerned|]).
  match goal with Hb : at_ c 1 _ _ _ ?s' |- at_ _ _ _ _ _ (let b := _ in endTransaction (if b then dropProvisionalPage ?s' else _)) =>
    destruct Hb as (Ec & Ht & Hv & Hfr & Hwf); assert (Ep : provisionalPage s' = Some pp) by (by injection Ec) end.
  rewrite Ep, Hf, bool_decide_eq_true_2 by done. destruct willContinueLoading; cbv beta iota zeta delta [negb andb]; apply at_end; [done|].
  unfold dropProvisionalPage. rewrite Ep. cbv zeta. rewrite Hw. split_and!; try done.
  unfold charge in *. subst c. injection Ec as Em Epr _. cbn. by rewrite Em, Epr.
Qed.

Lemma at_commitLoad v fu fc nav k s :
  at_ (Some f, q, None) 0 v fu fc s ->
  at_ (Some f, q, None) 0 (opView (PLS.OpDidCommitLoad 0 false false) v) None fu (didCommitLoadForFrame i nav k s).
Proof.
  set (c := (Some f, q, None)). intros Hs. assert (Hl : leads c = true) by (unfold leads; cbn; by rewrite bool_decide_eq_true_2).
  assert (Eq : process s = q) by (destruct Hs as [Ec _]; by injection Ec).
  cbv beta delta [didCommitLoadForFrame announceDataTransfer]. rewrite Eq. enter Hs. handler_skip.
  do 2 (handler_step (at_ c 0 v fu fc); [unconcerned|]).
  handler_step (at_ c 0 v fu fc); [by apply at_onProcess|].
  handler_step (at_ c 1 v fu fc); [by apply at_begin|]. handler_skip. set (v' := opView _ v). handler_step (at_ c 1 v' fu fc).
  { match goal with Hb : at_ c 1 _ _ _ ?s' |- _ => rewrite (at_isMainFrame _ _ _ _ _ _ Hb), Hl end.
    match goal with |- _ ((mutate ?op ?s') <| _ := _ |>) => enough (Hm : at_ c 1 v' fu fc (mutate op s')) by exact Hm end.
    match goal with |- _ (mutate ?op _) => assert (Ev : v' = opView op v) by (by destruct v as [[[[? ?] ?] ?] ?]) end.
    rewrite Ev. by apply at_mutate. }
  handler_step (at_ c 1 v' fu fc); [assumption|].
  handler_step (at_ c 1 v' None fu); [by eapply at_onFrame; [|done]|].
  do 3 (handler_step (at_ c 1 v' None fu); [unconcerned|]).
  handler_step (at_ c 1 v' None fu); [by apply at_commitChanges|]. by apply at_end, at_tellClients.
Qed.

(** The old process is left: the load state stays what it is. *)
Lemma at_leave m p pp v fu fc s :
  at_ (m, p, Some pp) 0 v fu fc s ->
  exists m', at_ (m', p, Some pp) 0 v fu fc (resetStateAfterProcessTermination NavigationSwap s).
Proof.
  intros Hs. cbv beta delta [resetStateAfterProcessTermination resetStateAfterProcessExited]. 
  destruct (hasRunningProcess s); [exists None|exists m]; cbv iota delta [negb].
  all: repeat (case_decide; try done). all: cbv zeta; case_match; try exact Hs.
  all: destruct Hs as (Ec & Ht & Hv & Hfr & Hwf); split_and!; try done; unfold charge in *; injection Ec as _ Ep Epp; cbn;
    by rewrite Ep, Epp.
Qed.

Lemma at_commitProvisionalPage m p pp v fu fc nav k s :
  pp_mainFrame pp = Some f -> pp_process pp = q -> at_ (m, p, Some pp) 0 v fu fc s ->
  at_ (Some f, q, None) 0 (opView (PLS.OpDidCommitLoad 0 false false) v) None fu (commitProvisionalPage i nav k pp s).
Proof.
  intros Hf Hq Hs. cbv beta delta [commitProvisionalPage]. handler_skip.
  handler_step (fun s => exists m', at_ (m', p, Some pp) 0 v fu fc s); [by apply (at_leave m)|].
  handler_step (fun s => exists m', at_ (m', p, Some pp) 0 v fu fc s); [assumption|].
  lazymatch goal with |- ?Q (match ?e with pair _ _ => _ end) =>
    assert (Hs2 : exists m', at_ (m', p, Some pp) 0 v fu fc (snd e)); [|destruct e as [b s2]; cbn [snd] in Hs2] end.
  { unfold suspendCurrentPageIfPossible. repeat case_match; assumption. }
  do 2 (handler_step (fun s => exists m', at_ (m', p, Some pp) 0 v fu fc s); [unconcerned|]).
  match goal with Hb : exists m', at_ _ _ _ _ _ _ |- at_ _ _ _ _ _ (let s := swapToProvisionalPage pp (_ <| _ := _ |>) in _) =>
    destruct Hb as (m' & Ec & Hrest) end.
  handler_step (at_ (Some f, q, None) 0 v fu fc).
  { unfold swapToProvisionalPage. apply at_swap. split; [|exact Hrest]. unfold charge. cbn. by rewrite Hf, Hq. }
  handler_step (at_ (Some f, q, None) 0 (opView (PLS.OpDidCommitLoad 0 false false) v) None fu); [by eapply at_commitLoad|assumption].
Qed.

(** ** What the provisional page does with the messages of its process *)

Section provisional.
Variables (m : option nat) (p : nat) (pp : ProvisionalPageProxy).
Hypotheses (Hframe : pp_mainFrame pp = Some f) (Hprocess : pp_process pp = q) (Hother : m <> Some f)
  (Hredirect : pp_isServerRedirect pp = false) (Hcommitted : pp_wasCommitted pp = false).
Definition withURL (u : URL) : ProvisionalPageProxy := pp <| pp_provisionalLoadURL := u |>.

Lemma validateInput_at pp' v fu fc s :
  pp_mainFrame pp' = Some f -> at_ (m, p, Some pp') 0 v fu fc s -> validateInput i (pp_navigationID pp') pp' s = true.
Proof.
  intros Hf (_ & _ & _ & (w & Ew & Ei & _) & _). unfold validateInput. rewrite Hf. cbn. rewrite Ew. cbn.
  by rewrite Ei, !Z.eqb_refl, orb_true_r.
Qed.

Lemma validateInput_with u v fu fc s :
  at_ (m, p, Some (withURL u)) 0 v fu fc s -> validateInput i (pp_navigationID pp) (withURL u) s = true.
Proof. exact (validateInput_at (withURL u) v fu fc s Hframe). Qed.

Lemma at_onMain v fu fc pp' g s : at_ (m, p, Some pp') 0 v fu fc s -> at_ (m, p, Some pp') 0 v fu fc (onMainFrame g s).
Proof.
  intros Hs. assert (Em : mainFrame s = m) by (destruct Hs as [Ec _]; by injection Ec). unfold onMainFrame. rewrite Em.
  destruct m as [m'|]; [|done]. apply at_onOther; [congruence|done].
Qed.

Lemma at_setURL v fu fc pp' u s :
  at_ (m, p, Some pp') 0 v fu fc s ->
  at_ (m, p, Some (pp' <| pp_provisionalLoadURL := u |>)) 0 v fu fc (s <| provisionalPage := Some (pp' <| pp_provisionalLoadURL := u |>) |>).
Proof. intros (Ec & Hr). split; [|exact Hr]. unfold charge in *. injection Ec as Em Ep _. cbn. by rewrite Em, Ep. Qed.

Lemma provisional_starts now u un v fu fc s :
  isLocalFile u = false -> at_ (m, p, Some pp) 0 v fu fc s ->
  at_ (m, p, Some (withURL u)) 0 (opView (PLS.OpDidStartProvisionalLoad u un) v) u fc
    (step (FromProvisionalProcess now (DidStartProvisionalLoadForFrame i true (pp_navigationID pp) u un)) s).
Proof.
  intros Hu Hs. assert (Ep : provisionalPage s = Some pp) by (destruct Hs as [Ec _]; by injection Ec). cbn [step].
  rewrite Ep. cbn [provisional_didReceiveMessage]. unfold provisional_didStartProvisionalLoadForFrame.
  rewrite (validateInput_at pp v fu fc) by done. cbn [negb]. cbv zeta. rewrite Hredirect, Hprocess.
  eapply at_start; [done|done|]. apply at_onMain. by apply at_setURL.
Qed.

Lemma provisional_redirects now u' u v fu fc s :
  isLocalFile u = false -> at_ (m, p, Some (withURL u')) 0 v fu fc s ->
  at_ (m, p, Some (withURL u')) 0 (opView (PLS.OpDidReceiveServerRedirectForProvisionalLoad u) v) u fc
    (step (FromProvisionalProcess now (DidReceiveServerRedirectForProvisionalLoadForFrame i (pp_navigationID pp) u)) s).
Proof.
  intros Hu Hs. assert (Ep : provisionalPage s = Some (withURL u')) by (destruct Hs as [Ec _]; by injection Ec). cbn [step].
  rewrite Ep. cbn [provisional_didReceiveMessage].
  rewrite (validateInput_with u' v fu fc s Hs).
  change (pp_process (withURL u')) with (pp_process pp). rewrite Hprocess. apply (at_redirect _ _ fu); [|done|done].
  unfold leads. cbn. rewrite Hframe, (bool_decide_eq_true_2 (Some f = Some f)) by done. apply orb_true_r.
Qed.

Lemma provisional_fails now u' u e (willContinueLoading : bool) v fu fc s :
  at_ (m, p, Some (withURL u')) 0 v fu fc s ->
  at_ (m, p, if willContinueLoading then Some (withURL None) else None) 0 (opView PLS.OpDidFailProvisionalLoad v) None fc
    (step (FromProvisionalProcess now (DidFailProvisionalLoadForFrame i (pp_navigationID pp) u e willContinueLoading)) s).
Proof.
  intros Hs. assert (Ep : provisionalPage s = Some (withURL u')) by (destruct Hs as [Ec _]; by injection Ec). cbn [step].
  rewrite Ep. cbn [provisional_didReceiveMessage]. unfold provisional_didFailProvisionalLoadForFrame.
  rewrite (validateInput_with u' v fu fc s Hs). cbn [negb]. cbv zeta.
  change (pp_process (withURL u')) with (pp_process pp). rewrite Hprocess.
  eapply (at_fail _ _ (withURL None)); [done|done|]. apply at_onMain.
  exact (at_setURL v fu fc (withURL u') None s Hs).
Qed.

Lemma provisional_commits now u' k v fu fc s :
  at_ (m, p, Some (withURL u')) 0 v fu fc s ->
  at_ (Some f, q, None) 0 (opView (PLS.OpDidCommitLoad 0 false false) v) None fu
    (step (FromProvisionalProcess now (DidCommitLoadForFrame i (pp_navigationID pp) k)) s).
Proof.
  intros Hs. assert (Ep : provisionalPage s = Some (withURL u')) by (destruct Hs as [Ec _]; by injection Ec). cbn [step].
  rewrite Ep. cbn [provisional_didReceiveMessage]. unfold provisional_didCommitLoadForFrame.
  rewrite (validateInput_with u' v fu fc s Hs). cbn [negb]. cbv zeta.
  apply (at_commitProvisionalPage m p _ v fu fc); [done|done|]. destruct Hs as (Ec & Hr). split; [|exact Hr].
  unfold charge in *. injection Ec as Em Epr _. cbn. by rewrite Em, Epr.
Qed.
End provisional.

End swap.

(** ** Theorems *)

(** What the page publishes about its load. *)
Definition published (s : WebPageProxy) : PLS.State * URL * URL * URL :=
  let d := PLS.committedState (pageLoadState s) in
  (PLS.Data.state d, PLS.Data.url d, PLS.Data.provisionalURL d, PLS.Data.unreachableURL d).

Lemma settled l : inTransactions 0 l -> PLS.committedState l = PLS.uncommittedState l.
Proof. intros (_ & _ & Hm & Hz). by apply Hm, Hz. Qed.

Lemma published_view s st u pv un l :
  inTransactions 0 (pageLoadState s) -> pageView (pageLoadState s) = (st, u, pv, un, l) -> published s = (st, u, pv, un).
Proof. intros Ht Ev. unfold published. rewrite settled by done. unfold pageView in Ev. by injection Ev as -> -> -> -> _. Qed.

Section outcome.
Context `{WebCore}.

(** The frame of the new process is created. *)
Lemma provisional_creates now i pp s :
  provisionalPage s = Some pp -> pp_isServerRedirect pp = false -> is_Some (navigations s !! pp_navigationID pp) ->
  is_Some (processes s !! pp_process pp) -> WebProcessProxy.isValidKey i = true -> inTransactions 0 (pageLoadState s) ->
  exists fc, at_ (pp_process pp) i (length (frames s)) (mainFrame s, process s, Some (pp <| pp_mainFrame := Some (length (frames s)) |>))
    0 (pageView (pageLoadState s)) None fc (step (FromProvisionalProcess now (DidCreateMainFrame i)) s).
Proof.
  intros Ep Hr Hn [w Hw] Hi Ht. cbn [step]. rewrite Ep. cbn [provisional_didReceiveMessage].
  unfold provisional_didCreateMainFrame, createFrame. cbv zeta beta iota. unfold Navigation.hasNavigation.
  rewrite bool_decide_eq_true_2 by done. cbn [negb]. rewrite Hr.
  assert (Hwf : forall frames', webFrame (pp_process pp) i (onProcess (pp_process pp) (WebProcessProxy.frameCreated i (length (frames s)))
    (s <| frames := frames' |>)) = Some (length (frames s))).
  { intros frames'. unfold webFrame. cbn. rewrite lookup_alter_eq, Hw. cbn. unfold WebProcessProxy.webFrame. rewrite Hi. cbn.
    by rewrite lookup_insert_eq. }
  case_match.
  - eexists. split_and!; [done|done|done| |apply Hwf]. eexists.
    split_and!; [cbn; rewrite list_lookup_alter, decide_True by done; by rewrite list_lookup_middle|done..].
  - eexists. split_and!; [done|done|done| |apply Hwf]. eexists.
    split_and!; [cbn; by rewrite list_lookup_middle|done..].
Qed.

Lemma last_cons {A} (x d : A) (l : list A) : List.last (x :: l) d = List.last l x.
Proof. revert x d. induction l as [|y l IH]; intros x d; [done|]. exact (eq_trans (IH y d) (eq_sym (IH y x))). Qed.

(** The redirects of a load. *)
Lemma provisional_redirected q i f m p pp u' us now v u0 fc s :
  pp_mainFrame pp = Some f -> pp_process pp = q -> Forall (fun u => isLocalFile u = false) us ->
  at_ q i f (m, p, Some (withURL pp u')) 0 (PLS.Provisional, v.1.1, u0, v.1.2, v.2) u0 fc s ->
  at_ q i f (m, p, Some (withURL pp u')) 0 (PLS.Provisional, v.1.1, List.last us u0, v.1.2, v.2) (List.last us u0) fc
    (steps (map (fun u => FromProvisionalProcess now (DidReceiveServerRedirectForProvisionalLoadForFrame i (pp_navigationID pp) u)) us) s).
Proof.
  intros Hf Hq Hus. revert u0 s. induction Hus as [|u us Hu Hus IH]; intros u0 s Hs; [done|].
  rewrite last_cons.
  cbn [map steps foldl]. apply IH.
  exact (provisional_redirects q i f m p pp Hf Hq now u' u (PLS.Provisional, v.1.1, u0, v.1.2, v.2) u0 fc s Hu Hs).
Qed.

End outcome.

(** C24: A navigation in another process, from its first message to its end, when the swap is
    not made for a server redirect, the page still knows the navigation, the identifier of
    the new frame is valid and its process reports no file URL: the new process creates its
    frame, starts the load, follows redirects, and fails or commits, with no other
    message or event in between.  While it loads, the page publishes the old URL and the last
    URL of the redirects as the provisional one; the main frame and the process are the old
    ones.  If the load fails, the page publishes the finished state with the URL and the
    unreachable URL it published before, main frame and process are the old ones, and the
    provisional page is gone unless the process goes on loading (what the main frame itself
    keeps may differ, see [failed_swap_loses_unreachable_url]).  If it commits, the new process
    is the page's process, the frame it created is the main frame, and both show the last URL. *)
Theorem process_swap_outcome `{WebCore} s pp i u un us now :
  provisionalPage s = Some pp -> pp_isServerRedirect pp = false -> pp_wasCommitted pp = false ->
  is_Some (navigations s !! pp_navigationID pp) -> is_Some (processes s !! pp_process pp) -> WebProcessProxy.isValidKey i = true ->
  inTransactions 0 (pageLoadState s) -> (forall m, mainFrame s = Some m -> (m < length (frames s))%nat) ->
  Forall (fun u => isLocalFile u = false) (u :: us) ->
  let n := pp_navigationID pp in
  let '(_, url0, _, unreachable0) := published s in
  let s1 := steps ([FromProvisionalProcess now (DidCreateMainFrame i);
                    FromProvisionalProcess now (DidStartProvisionalLoadForFrame i true n u un)] ++
                   map (fun u => FromProvisionalProcess now (DidReceiveServerRedirectForProvisionalLoadForFrame i n u)) us) s in
  let final := List.last us u in
  (published s1 = (PLS.Provisional, url0, final, un) /\ mainFrame s1 = mainFrame s /\ process s1 = process s) /\
  (forall now failed e (willContinueLoading : bool),
     let s' := step (FromProvisionalProcess now (DidFailProvisionalLoadForFrame i n failed e willContinueLoading)) s1 in
     published s' = (PLS.Finished, url0, None, unreachable0) /\ mainFrame s' = mainFrame s /\ process s' = process s /\
     (provisionalPage s' = None <-> willContinueLoading = false)) /\
  (forall now k, let s' := step (FromProvisionalProcess now (DidCommitLoadForFrame i n k)) s1 in
     published s' = (PLS.Committed, final, None, un) /\ process s' = pp_process pp /\ provisionalPage s' = None /\
     exists frame w, mainFrame s' = Some frame /\ frames s' !! frame = Some w /\ WebFrameProxy.frameID w = i /\
       FrameLoadState.url (WebFrameProxy.frameLoadState w) = final).
Proof.
  intros Ep Hr Hc Hn Hp Hi Ht Hm Hus. apply Forall_cons in Hus as [Hu Hus]. cbv zeta.
  destruct (pageView (pageLoadState s)) as [[[[st0 url0] prov0] un0] last0] eqn:Ev.
  rewrite (published_view s _ _ _ _ _ Ht Ev). rewrite <- (app_nil_l (map _ us)). unfold steps. rewrite app_nil_l, foldl_app. cbn [foldl].
  destruct (provisional_creates now i pp s Ep Hr Hn Hp Hi Ht) as [fc Hcr]. rewrite Ev in Hcr.
  set (f := length (frames s)) in *. set (pp' := pp <| pp_mainFrame := Some f |>) in *. set (q := pp_process pp) in *.
  assert (Hof : mainFrame s <> Some f) by (intros Em; apply Hm in Em; unfold f in Em; lia).
  assert (Hst := provisional_starts q i f (mainFrame s) (process s) pp' eq_refl eq_refl Hof Hr now u un _ _ _ _ Hu Hcr).
  assert (Hrd := provisional_redirected q i f _ _ pp' u us now (url0, un, un0) u fc _ eq_refl eq_refl Hus Hst).
  cbn [fst snd] in Hrd. set (s1 := foldl _ _ _). fold s1 in Hrd. change (steps _ _) with s1 in Hrd.
  assert (Hview : forall c v fu fc s' st u pv un l, at_ q i f c 0 v fu fc s' -> v = (st, u, pv, un, l) ->
    published s' = (st, u, pv, un) /\ charge s' = c).
  { intros c v fu fc' s' st u' pv un' l (Ec & Ht' & Ev' & _) ->. split; [by apply (published_view s' _ _ _ _ l)|done]. }
  split; [|split].
  - destruct (Hview _ _ _ _ s1 _ _ _ _ _ Hrd eq_refl) as [Ho Ec]. injection Ec as Em Epr _. done.
  - intros now' failed e goesOn. match goal with |- published ?x = _ /\ _ => set (s' := x) end.
    pose proof (provisional_fails q i f (mainFrame s) (process s) pp' eq_refl eq_refl Hof Hc now' u failed e goesOn _ _ _ _ Hrd) as Hfl.
    destruct (Hview _ _ _ _ _ _ _ _ _ _ Hfl eq_refl) as [Ho Ec]. apply (f_equal snd) in Ec as Epp. injection Ec as Em Epr _. cbn [charge snd] in Epp.
    split_and!; [done..|]. change (provisionalPage s' = if goesOn then Some (withURL pp' None) else None) in Epp.
    rewrite Epp. by destruct goesOn.
  - intros now' k.
    pose proof (provisional_commits q i f (mainFrame s) (process s) pp' eq_refl eq_refl now' u k _ _ _ _ Hrd) as Hcm.
    destruct (Hview _ _ _ _ _ _ _ _ _ _ Hcm eq_refl) as [Ho Ec]. injection Ec as Em Epr Epp.
    destruct Hcm as (_ & _ & _ & (w & Ew & Hw & _ & Eu) & _). split_and!; try done. by exists f, w.
Qed.

Definition swapOffered : WebPageProxy :=
  steps (H := someWebCore) (errorPageShown ++ [LoadRequestStep 1 (Some "http://a/"%string); ContinueNavigationInNewProcess 4 1 2 None])
    (create 1).

Lemma process_swap_outcome_witness :
  let s1 := steps (H := someWebCore)
    [FromProvisionalProcess 5 (DidCreateMainFrame 9);
     FromProvisionalProcess 5 (DidStartProvisionalLoadForFrame 9 true 1 (Some "http://a/"%string) None);
     FromProvisionalProcess 5 (DidReceiveServerRedirectForProvisionalLoadForFrame 9 1 (Some "http://b/"%string))] swapOffered in
  published (step (H := someWebCore) (FromProvisionalProcess 6 (DidCommitLoadForFrame 9 1 someCommit)) s1) =
    (PLS.Committed, Some "http://b/"%string, None, None) /\
  published (step (H := someWebCore) (FromProvisionalProcess 6 (DidFailProvisionalLoadForFrame 9 1 None (mkError General 1) false)) s1) =
    (PLS.Finished, Some "about:error"%string, None, Some "http://bad/"%string).
Proof.
  set (pp := mkProvisionalPageProxy 2 None 1 false (Some "http://a/"%string) None false).
  assert (Ho : published swapOffered = (PLS.Finished, Some "about:error"%string, None, Some "http://bad/"%string))
    by (vm_compute; reflexivity).
  assert (Ep : provisionalPage swapOffered = Some pp) by (vm_compute; reflexivity).
  assert (Hn : is_Some (navigations swapOffered !! pp_navigationID pp)) by (vm_compute; eexists; reflexivity).
  assert (Hp : is_Some (processes swapOffered !! pp_process pp)) by (vm_compute; eexists; reflexivity).
  assert (Ht : inTransactions 0 (pageLoadState swapOffered)) by (vm_compute; split_and!; done).
  assert (Hm : forall m, mainFrame swapOffered = Some m -> (m < length (frames swapOffered))%nat).
  { intros m Hm. assert (Em : mainFrame swapOffered = Some 0%nat) by (vm_compute; reflexivity).
    assert (El : length (frames swapOffered) = 1%nat) by (vm_compute; reflexivity). rewrite Em in Hm. rewrite El.
    apply (inj Some) in Hm. lia. }
  assert (Hu : Forall (fun u => isLocalFile (WebCore := someWebCore) u = false) [Some "http://a/"%string; Some "http://b/"%string])
    by (repeat constructor).
  pose proof (@process_swap_outcome someWebCore swapOffered pp 9 (Some "http://a/"%string) None [Some "http://b/"%string] 5
    Ep eq_refl eq_refl Hn Hp eq_refl Ht Hm Hu) as Hswap.
  rewrite Ho in Hswap. destruct Hswap as (_ & Hfail & Hcommit).
  split; [apply (Hcommit 6 someCommit)|apply (Hfail 6 None (mkError General 1) false)].
Defined.
