(* ===== verification/Responsiveness.v ===== *)
(** * UIProcess: is a web process responsive?

    ResponsivenessTimer.cpp, BackgroundProcessResponsivenessTimer.cpp and the part of
    WebProcessProxy.cpp that owns both timers, answers [isResponsive] and pings the web
    process.  Times are integers of any unit of which a second has [sec]; a one-shot
    [RunLoop::Timer] is the time it is set to, and the run loop may fire it any time from
    then on.  Pages and their clients only listen: what they are told is recorded. *)

From S2P Require Import Prelude.

(** The unit of time is the millisecond. *)
Definition sec : Z := 1000.

(** What a timer tells its client, [ResponsivenessTimer::Client]. *)
Inductive ClientCall := WillChangeIsResponsive | DidChangeIsResponsive | DidBecomeUnresponsive | DidBecomeResponsive.

(** ** ResponsivenessTimer.cpp *)
Module ResponsivenessTimer.

Definition responsivenessTimeout : Z := 3 * sec.

Record ResponsivenessTimer := mkResponsivenessTimer {
  m_timer : option Z;
  (* 0 is [MonotonicTime()], no time *)
  m_restartFireTime : Z;
  m_isResponsive : bool;
  m_waitingForTimer : bool;
  m_useLazyStop : bool
}.
#[global] Instance eta_ResponsivenessTimer : Eta ResponsivenessTimer := fun r =>
  mkResponsivenessTimer (m_timer r) (m_restartFireTime r) (m_isResponsive r) (m_waitingForTimer r) (m_useLazyStop r).

Definition create : ResponsivenessTimer := mkResponsivenessTimer None 0 true false false.

Definition hasActiveTimer (t : ResponsivenessTimer) : bool := m_waitingForTimer t.

Definition invalidate (t : ResponsivenessTimer) : ResponsivenessTimer :=
  t <| m_timer := None |> <| m_restartFireTime := 0 |> <| m_waitingForTimer := false |> <| m_useLazyStop := false |>.

(** The last part of [timerFired]: the wait is over. *)
Definition waitIsOver (now : Z) (mayBecomeUnresponsive : bool) (t : ResponsivenessTimer) : ResponsivenessTimer * list ClientCall :=
  let t := t <| m_waitingForTimer := false |> <| m_useLazyStop := false |> in
  if negb (m_isResponsive t) then (t, [])
  else if negb mayBecomeUnresponsive then
    (t <| m_waitingForTimer := true |> <| m_timer := Some (now + responsivenessTimeout) |>, [])
  else (t <| m_isResponsive := false |>, [WillChangeIsResponsive; DidChangeIsResponsive; DidBecomeUnresponsive]).

(** The run loop calls it at [now] after taking the one-shot timer off. *)
Definition timerFired (now : Z) (mayBecomeUnresponsive : bool) (t : ResponsivenessTimer) : ResponsivenessTimer * list ClientCall :=
  if negb (m_waitingForTimer t) then (t, [])
  else if decide (m_restartFireTime t <> 0) then
    let restartFireTime := m_restartFireTime t in
    let t := t <| m_restartFireTime := 0 |> in
    if now <? restartFireTime then (t <| m_timer := Some (now + (restartFireTime - now)) |>, [])
    else waitIsOver now mayBecomeUnresponsive t
  else waitIsOver now mayBecomeUnresponsive t.

Definition start (now : Z) (t : ResponsivenessTimer) : ResponsivenessTimer :=
  if m_waitingForTimer t then t
  else
    let t := t <| m_waitingForTimer := true |> <| m_useLazyStop := false |> in
    match m_timer t with
    | Some _ => t <| m_restartFireTime := now + responsivenessTimeout |>
    | None => t <| m_restartFireTime := 0 |> <| m_timer := Some (now + responsivenessTimeout) |>
    end.

Definition startWithLazyStop (now : Z) (t : ResponsivenessTimer) : ResponsivenessTimer :=
  if m_waitingForTimer t then t else (start now t) <| m_useLazyStop := true |>.

Definition stop (t : ResponsivenessTimer) : ResponsivenessTimer * list ClientCall :=
  let '(t, calls) :=
    if m_isResponsive t then (t, [])
    else (t <| m_isResponsive := true |>, [WillChangeIsResponsive; DidChangeIsResponsive; DidBecomeResponsive]) in
  let t := t <| m_waitingForTimer := false |> in
  (if m_useLazyStop t then t <| m_useLazyStop := false |> else t <| m_timer := None |>, calls).

Definition processTerminated (t : ResponsivenessTimer) : ResponsivenessTimer := invalidate t.

(** *** Histories of a timer *)

Inductive Event := Start | StartWithLazyStop | Stop | ProcessTerminated | TimerFires (mayBecomeUnresponsive : bool).

(** What happens at time [now]; [None] when the run loop has no timer to fire. *)
Definition handle (now : Z) (e : Event) (t : ResponsivenessTimer) : option (ResponsivenessTimer * list ClientCall) :=
  match e with
  | Start => Some (start now t, [])
  | StartWithLazyStop => Some (startWithLazyStop now t, [])
  | Stop => Some (stop t)
  | ProcessTerminated => Some (processTerminated t, [])
  | TimerFires may =>
      match m_timer t with
      | Some fireTime => if fireTime <=? now then Some (timerFired now may (t <| m_timer := None |>)) else None
      | None => None
      end
  end.

(** The client calls of a history, with their times. *)
Fixpoint run (h : list (Z * Event)) (t : ResponsivenessTimer) : option (ResponsivenessTimer * list (Z * ClientCall)) :=
  match h with
  | [] => Some (t, [])
  | (now, e) :: h =>
      '(t, calls) ← handle now e t; '(t, later) ← run h t; Some (t, map (pair now) calls ++ later)
  end.

(** *** What the timer promises

    The reference: one deadline, set three seconds after the first [start] and given up by
    [stop].  It needs no system timer to be reset; whenever it is asked at or after the
    deadline it reports. *)
Record Deadline := mkDeadline { deadline : option Z; isResponsive : bool }.
#[global] Instance eta_Deadline : Eta Deadline := fun r => mkDeadline (deadline r) (isResponsive r).

Definition reference : Deadline := mkDeadline None true.

Definition reference_start (now : Z) (d : Deadline) : Deadline :=
  match deadline d with Some _ => d | None => d <| deadline := Some (now + responsivenessTimeout) |> end.

Definition reference_handle (now : Z) (e : Event) (d : Deadline) : Deadline * list ClientCall :=
  match e with
  | Start | StartWithLazyStop => (reference_start now d, [])
  | Stop => (mkDeadline None true,
             if isResponsive d then [] else [WillChangeIsResponsive; DidChangeIsResponsive; DidBecomeResponsive])
  | ProcessTerminated => (d <| deadline := None |>, [])
  | TimerFires may =>
      match deadline d with
      | Some time =>
          if now <? time then (d, [])
          else if negb (isResponsive d) then (d <| deadline := None |>, [])
          else if may then (mkDeadline None false, [WillChangeIsResponsive; DidChangeIsResponsive; DidBecomeUnresponsive])
          else (d <| deadline := Some (now + responsivenessTimeout) |>, [])
      | None => (d, [])
      end
  end.

Fixpoint reference_run (h : list (Z * Event)) (d : Deadline) : Deadline * list (Z * ClientCall) :=
  match h with
  | [] => (d, [])
  | (now, e) :: h =>
      let '(d, calls) := reference_handle now e d in
      let '(d, later) := reference_run h d in
      (d, map (pair now) calls ++ later)
  end.

(** The clock of a history starts after the epoch and does not run backwards. *)
Fixpoint clocked (now : Z) (h : list (Z * Event)) : Prop :=
  match h with [] => True | (time, _) :: h => now <= time /\ clocked time h end.

(** A set timer is not later than a full timeout from now; while waiting, the timer is set,
    and either to the deadline, or to an earlier time after which it is set to the
    deadline. *)
Record represents (now : Z) (t : ResponsivenessTimer) (d : Deadline) : Prop := {
  rep_responsive : m_isResponsive t = isResponsive d;
  rep_soon : forall f, m_timer t = Some f -> f <= now + responsivenessTimeout;
  rep_waiting : match deadline d with
                | None => m_waitingForTimer t = false
                | Some time => m_waitingForTimer t = true /\ time <= now + responsivenessTimeout /\
                    exists f, m_timer t = Some f /\
                      ((m_restartFireTime t = 0 /\ f = time) \/ (0 < m_restartFireTime t /\ m_restartFireTime t = time /\ f <= time))
                end }.

(** Linear arithmetic with the timeout unfolded. *)
Ltac timeout_lia := unfold responsivenessTimeout, sec in *; lia.

Lemma represents_later now now' t d : now <= now' -> represents now t d -> represents now' t d.
Proof.
  intros Hle [? Hsoon Hw]. split; [done | intros f Hf; specialize (Hsoon f Hf); lia | ].
  destruct (deadline d) as [time|]; [|done]. destruct Hw as (? & ? & Hf). repeat split; [done | lia | done].
Qed.

Lemma start_represents now t d :
  0 < now -> represents now t d -> forall lazy, represents now ((start now t) <| m_useLazyStop := lazy |>) (reference_start now d).
Proof.
  intros Hpos [Hr Hsoon Hw] lazy. unfold start, reference_start in *.
  destruct t as [timer restart resp wait lz]; cbn in *. destruct (deadline d) as [time|] eqn:Hd.
  - destruct Hw as (-> & Hle & Hf). split; cbn; [done | done |]. by rewrite Hd.
  - subst wait. destruct timer as [f|]; cbn; split; cbn; try done.
    + specialize (Hsoon f eq_refl). split; [done|]. split; [timeout_lia|]. exists f. split; [done|]. right. timeout_lia.
    + intros f [= <-]. timeout_lia.
    + split; [done|]. split; [timeout_lia|]. eexists. split; [done|]. by left.
Qed.

Lemma stop_represents now t d :
  represents now t d ->
  represents now (fst (stop t)) (fst (reference_handle now Stop d)) /\ snd (stop t) = snd (reference_handle now Stop d).
Proof.
  intros [Hr Hsoon Hw]. unfold stop. cbn. rewrite <- Hr.
  destruct t as [timer restart resp wait lz]; cbn in *.
  destruct resp, lz; cbn; (split; [split; cbn; try done|done]).
Qed.

Lemma fire_represents now t d f may :
  0 < now -> represents now t d -> m_timer t = Some f -> f <= now ->
  represents now (fst (timerFired now may (t <| m_timer := None |>))) (fst (reference_handle now (TimerFires may) d)) /\
  snd (timerFired now may (t <| m_timer := None |>)) = snd (reference_handle now (TimerFires may) d).
Proof.
  intros Hpos [Hr Hsoon Hw] Hf Hnow. unfold timerFired, waitIsOver in *.
  destruct t as [timer restart resp wait lz]; cbn in *. subst timer.
  destruct d as [dl dr]; cbn in *; subst dr. destruct dl as [time|]; cycle 1.
  { subst wait. cbn. split; [|done]. by split. }
  destruct Hw as (-> & Hle & f' & [= <-] & [[-> ->] | (Hrp & -> & Hfle)]); cbn.
  - destruct (Z.ltb_spec now time); [timeout_lia|].
    destruct resp, may; cbn; (split; [split; cbn; try done|done]).
    + intros f' [= <-]. timeout_lia.
    + split; [done|]. split; [timeout_lia|]. eexists. split; [done|]. by left.
  - rewrite decide_True by timeout_lia. destruct (Z.ltb_spec now time); cbn.
    + split; [|done]. split; cbn; [done | intros f' [= <-]; timeout_lia |].
      split; [done|]. split; [timeout_lia|]. eexists. split; [done|]. left. split; [done|timeout_lia].
    + destruct resp, may; cbn; (split; [split; cbn; try done|done]).
      * intros f' [= <-]. timeout_lia.
      * split; [done|]. split; [timeout_lia|]. eexists. split; [done|]. by left.
Qed.

Lemma handle_represents now e t d t' calls :
  0 < now -> represents now t d -> handle now e t = Some (t', calls) ->
  represents now t' (fst (reference_handle now e d)) /\ calls = snd (reference_handle now e d).
Proof.
  intros Hpos Hrep Hh. destruct e as [| | | |may]; cbn in Hh.
  - injection Hh as <- <-. split; [|done].
    pose proof (start_represents now t d Hpos Hrep (m_useLazyStop (start now t))) as Hs.
    by destruct (start now t).
  - injection Hh as <- <-. split; [|done]. unfold startWithLazyStop. cbn [reference_handle fst].
    destruct (m_waitingForTimer t) eqn:Hwait; [|by apply start_represents].
    unfold reference_start. destruct (deadline d) eqn:Hd; [done|].
    destruct Hrep as [_ _ Hw]. rewrite Hd in Hw. congruence.
  - injection Hh as Hh. destruct (stop_represents now t d Hrep) as [H1 H2]. by rewrite Hh in H1, H2.
  - injection Hh as <- <-. split; [|done]. destruct Hrep. split; cbn; done.
  - destruct (m_timer t) as [f|] eqn:Hf; [|done]. destruct (Z.leb_spec f now); [|done].
    apply (inj Some) in Hh. change (timerFired now may (t <| m_timer := None |>) = (t', calls)) in Hh.
    destruct (fire_represents now t d f may Hpos Hrep Hf ltac:(done)) as [H1 H2]. by rewrite Hh in H1, H2.
Qed.

Lemma run_represents h : forall now t d t' calls,
  0 < now -> clocked now h -> represents now t d -> run h t = Some (t', calls) ->
  (exists now', represents now' t' (fst (reference_run h d))) /\ calls = snd (reference_run h d).
Proof.
  induction h as [|[time e] h IH]; intros now t d t' calls Hpos Hc Hrep Hrun; cbn in Hrun.
  { injection Hrun as <- <-. split; [by exists now|done]. }
  destruct Hc as [Hle Hc]. apply (represents_later now time) in Hrep; [|done].
  destruct (handle time e t) as [[t1 c1]|] eqn:Hh; cbn in Hrun; [|done].
  destruct (run h t1) as [[t2 c2]|] eqn:Hr; cbn in Hrun; [|done]. injection Hrun as <- <-.
  destruct (handle_represents time e t d t1 c1 ltac:(lia) Hrep Hh) as [Hrep1 ->].
  destruct (IH time t1 _ t2 c2 ltac:(lia) Hc Hrep1 Hr) as [Hrep2 ->].
  cbn. destruct (reference_handle time e d) as [d1 k1]; cbn in *.
  by destruct (reference_run h d1) as [d2 k2].
Qed.

(** C26: The timer with lazy stops, which leaves system timers running and sets them again only
    when they fire, tells its client exactly what the reference with a single deadline
    tells, at the same times: that the web process is unresponsive at the first firing no
    earlier than three seconds after a [start] that no [stop] followed, and that it is
    responsive at the next [stop].  While it waits, a system timer is set, not after the
    deadline, so the report is not forgotten. *)
Theorem lazy_timer_refines_deadline h now t calls :
  0 < now -> clocked now h -> run h create = Some (t, calls) ->
  let r := reference_run h reference in
  calls = snd r /\ m_isResponsive t = isResponsive (fst r) /\
  match deadline (fst r) with
  | None => hasActiveTimer t = false
  | Some time => hasActiveTimer t = true /\ exists fireTime, m_timer t = Some fireTime /\ fireTime <= time
  end.
Proof.
  intros Hpos Hc Hrun r.
  destruct (run_represents h now create reference t calls Hpos Hc ltac:(by split) Hrun) as [[now' [Hr _ Hw]] ->].
  split; [done|]. split; [done|]. fold r in Hw. destruct (deadline (fst r)) as [time|]; [|done].
  destruct Hw as (Hwait & _ & f & Hf & Hcase). split; [done|]. exists f. split; [done|].
  destruct Hcase as [[_ ->]|(_ & _ & ?)]; lia.
Qed.

(** Started lazily, stopped after a second, started again: the system timer of the first
    start fires first and is set again, to three seconds after the second start. *)
Definition lazyHistory : list (Z * Event) :=
  [(1000, StartWithLazyStop); (2000, Stop); (2500, StartWithLazyStop); (4000, TimerFires true); (5600, TimerFires true); (7000, Stop)].

Lemma lazy_timer_refines_deadline_witness :
  let r := reference_run lazyHistory reference in
  [(5600, WillChangeIsResponsive); (5600, DidChangeIsResponsive); (5600, DidBecomeUnresponsive);
   (7000, WillChangeIsResponsive); (7000, DidChangeIsResponsive); (7000, DidBecomeResponsive)] = snd r.
Proof.
  refine (proj1 (lazy_timer_refines_deadline lazyHistory 1 _ _ _ _ _)); [lia | cbn; lia | vm_compute; reflexivity].
Defined.
End ResponsivenessTimer.

(** ** BackgroundProcessResponsivenessTimer.cpp *)
Module BackgroundTimer.

Definition initialCheckingInterval : Z := 20 * sec.
Definition maximumCheckingInterval : Z := 8 * 3600 * sec.
Definition responsivenessTimeout : Z := 90 * sec.

(** A system timer is the delay it was started with. *)
Record BackgroundProcessResponsivenessTimer := mkBackgroundTimer {
  m_checkingInterval : Z;
  m_responsivenessCheckTimer : option Z;
  m_timeoutTimer : option Z;
  m_isResponsive : bool
}.
#[global] Instance eta_BackgroundTimer : Eta BackgroundProcessResponsivenessTimer := fun r =>
  mkBackgroundTimer (m_checkingInterval r) (m_responsivenessCheckTimer r) (m_timeoutTimer r) (m_isResponsive r).

Definition create : BackgroundProcessResponsivenessTimer := mkBackgroundTimer initialCheckingInterval None None true.

Implicit Types t : BackgroundProcessResponsivenessTimer.

Definition timerIsActive (timer : option Z) : bool := match timer with Some _ => true | None => false end.
Definition isActive t : bool := timerIsActive (m_responsivenessCheckTimer t) || timerIsActive (m_timeoutTimer t).

Definition updateState (shouldBeActive : bool) t : BackgroundProcessResponsivenessTimer :=
  if negb shouldBeActive then
    let t := if timerIsActive (m_responsivenessCheckTimer t)
             then t <| m_checkingInterval := initialCheckingInterval |> <| m_responsivenessCheckTimer := None |> else t in
    t <| m_timeoutTimer := None |> <| m_isResponsive := true |>
  else if negb (isActive t) then t <| m_responsivenessCheckTimer := Some (m_checkingInterval t) |>
  else t.

Definition setResponsive (isResponsive : bool) t : BackgroundProcessResponsivenessTimer * list ClientCall :=
  if Bool.eqb (m_isResponsive t) isResponsive then (t, [])
  else (t <| m_isResponsive := isResponsive |>,
        [WillChangeIsResponsive; DidChangeIsResponsive; if isResponsive then DidBecomeResponsive else DidBecomeUnresponsive]).

Definition scheduleNextResponsivenessCheck t : BackgroundProcessResponsivenessTimer :=
  let interval := Z.min (m_checkingInterval t * 2) maximumCheckingInterval in
  t <| m_checkingInterval := interval |> <| m_responsivenessCheckTimer := Some interval |>.

Definition didReceiveBackgroundResponsivenessPong t : BackgroundProcessResponsivenessTimer * list ClientCall :=
  if negb (timerIsActive (m_timeoutTimer t)) then (t, [])
  else setResponsive true (scheduleNextResponsivenessCheck (t <| m_timeoutTimer := None |>)).

Definition invalidate t : BackgroundProcessResponsivenessTimer :=
  t <| m_timeoutTimer := None |> <| m_responsivenessCheckTimer := None |>.

Definition processTerminated t : BackgroundProcessResponsivenessTimer * list ClientCall := setResponsive true (invalidate t).

(** Also sends the ping; the one-shot timer that fired is off. *)
Definition responsivenessCheckTimerFired t : BackgroundProcessResponsivenessTimer :=
  t <| m_timeoutTimer := Some responsivenessTimeout |>.

Definition timeoutTimerFired (mayBecomeUnresponsive : bool) t : BackgroundProcessResponsivenessTimer * list ClientCall :=
  let t := scheduleNextResponsivenessCheck t in
  if negb (m_isResponsive t) then (t, [])
  else if negb mayBecomeUnresponsive then (t, [])
  else setResponsive false t.

(** At most one of the two timers is set, the interval is one of the doublings of twenty
    seconds capped at eight hours, and the timers have the delays they should. *)
Record wf t : Prop := {
  wf_one_timer : m_responsivenessCheckTimer t = None \/ m_timeoutTimer t = None;
  wf_interval : exists n, 0 <= n /\ m_checkingInterval t = Z.min (initialCheckingInterval * 2 ^ n) maximumCheckingInterval;
  wf_check : forall delay, m_responsivenessCheckTimer t = Some delay -> delay = m_checkingInterval t;
  wf_timeout : forall delay, m_timeoutTimer t = Some delay -> delay = responsivenessTimeout }.

Lemma create_wf : wf create.
Proof. split; try done; [by left|]. exists 0. split; [lia|]. reflexivity. Qed.

Lemma interval_doubles interval :
  (exists n, 0 <= n /\ interval = Z.min (initialCheckingInterval * 2 ^ n) maximumCheckingInterval) ->
  exists n, 0 <= n /\ Z.min (interval * 2) maximumCheckingInterval = Z.min (initialCheckingInterval * 2 ^ n) maximumCheckingInterval.
Proof.
  intros (n & Hn & ->). exists (n + 1). split; [lia|].
  rewrite Z.pow_add_r by lia. unfold maximumCheckingInterval, initialCheckingInterval, sec.
  pose proof (Z.pow_pos_nonneg 2 n ltac:(lia) Hn). lia.
Qed.

Lemma schedule_wf t : wf t -> m_timeoutTimer t = None -> wf (scheduleNextResponsivenessCheck t).
Proof.
  intros [] Ht. split; cbn; [by right | by apply interval_doubles | by intros ? [= <-] | by rewrite Ht].
Qed.

Lemma setResponsive_wf b t : wf t -> wf (fst (setResponsive b t)).
Proof. intros []. unfold setResponsive. destruct (Bool.eqb _ _); split; cbn; auto. Qed.

Lemma updateState_wf b t : wf t -> wf (updateState b t).
Proof.
  intros [H1 H2 H3 H4]. unfold updateState, isActive. destruct t as [i c o r]; cbn in *.
  destruct b; cbn.
  - destruct c, o; cbn; split; cbn; auto; try (by left); try (by right). by intros ? [= <-].
  - destruct c; cbn; split; cbn; auto; try done. exists 0. split; [lia|]. reflexivity.
Qed.

Lemma pong_wf t : wf t -> wf (fst (didReceiveBackgroundResponsivenessPong t)).
Proof.
  intros Hwf. unfold didReceiveBackgroundResponsivenessPong. destruct (m_timeoutTimer t) eqn:Ht; cbn [timerIsActive negb]; [|done].
  apply setResponsive_wf, schedule_wf; [|done]. destruct Hwf; split; cbn; auto; done.
Qed.

Lemma invalidate_wf t : wf t -> wf (invalidate t).
Proof. intros []. split; cbn; auto; done. Qed.

Lemma checkFired_wf t : wf t -> wf (responsivenessCheckTimerFired (t <| m_responsivenessCheckTimer := None |>)).
Proof. intros []. split; cbn; auto; [done|]. by intros ? [= <-]. Qed.

Lemma timeoutFired_wf may t : wf t -> wf (fst (timeoutTimerFired may (t <| m_timeoutTimer := None |>))).
Proof.
  intros Hwf. unfold timeoutTimerFired.
  assert (Hs : wf (scheduleNextResponsivenessCheck (t <| m_timeoutTimer := None |>))).
  { apply schedule_wf; [|done]. destruct Hwf. split; cbn; auto. done. }
  destruct (negb _); [done|]. destruct (negb _); [done|]. by apply setResponsive_wf.
Qed.
End BackgroundTimer.

(** ** WebProcessProxy.cpp: who asks, and who answers *)
Module WebProcess.
Import ResponsivenessTimer(ResponsivenessTimer).
Import BackgroundTimer(BackgroundProcessResponsivenessTimer).

Inductive NoOrMaybe := No | Maybe.
#[global] Instance NoOrMaybe_eq_decision : EqDecision NoOrMaybe.
Proof. solve_decision. Defined.

(** What leaves the process proxy, oldest first. *)
Inductive Output :=
  (* a page is told: [will/didChangeProcessIsResponsive], [processDidBecome(Un)Responsive] *)
| PagesTold (call : ClientCall)
| Answer (callback : nat) (isWebProcessResponsive : bool)
| SendMainThreadPing
| SendBackgroundResponsivenessPing
| DisableServiceWorkers
| Terminate.

Record WebProcess := mkWebProcess {
  m_responsivenessTimer : ResponsivenessTimer;
  m_backgroundResponsivenessTimer : BackgroundProcessResponsivenessTimer;
  m_isResponsive : NoOrMaybe;
  m_isResponsiveCallbacks : list nat;
  (* callbacks handed to the run loop, to be answered with [false] *)
  dispatched : list nat;
  m_shouldStartResponsivenessTimerWhenLaunched : option bool;
  isLaunching : bool;
  pageCount : nat;
  visiblePageCount : nat;
  isRunningServiceWorkers : bool;
  output : list Output
}.
#[global] Instance eta_WebProcess : Eta WebProcess := fun r =>
  mkWebProcess (m_responsivenessTimer r) (m_backgroundResponsivenessTimer r) (m_isResponsive r) (m_isResponsiveCallbacks r)
    (dispatched r) (m_shouldStartResponsivenessTimerWhenLaunched r) (isLaunching r) (pageCount r) (visiblePageCount r)
    (isRunningServiceWorkers r) (output r).

Definition create : WebProcess :=
  mkWebProcess ResponsivenessTimer.create BackgroundTimer.create Maybe [] [] None true 0 0 false [].

Implicit Types p : WebProcess.

Definition emit (l : list Output) p : WebProcess := p <| output := output p ++ l |>.
Definition setTimer (t : ResponsivenessTimer) p : WebProcess := p <| m_responsivenessTimer := t |>.
Definition setBackgroundTimer (t : BackgroundProcessResponsivenessTimer) p : WebProcess := p <| m_backgroundResponsivenessTimer := t |>.

(** [BackgroundProcessResponsivenessTimer::shouldBeActive], away from iOS. *)
Definition shouldBeActive p : bool :=
  if bool_decide (visiblePageCount p <> 0%nat) then false
  else if isRunningServiceWorkers p && bool_decide (pageCount p = 0%nat) then true
  else bool_decide (pageCount p <> 0%nat).

Definition updateBackgroundResponsivenessTimer p : WebProcess :=
  setBackgroundTimer (BackgroundTimer.updateState (shouldBeActive p) (m_backgroundResponsivenessTimer p)) p.

(** [auto callbacks = WTFMove(m_isResponsiveCallbacks)] and the loop over them. *)
Definition answerCallbacks (isWebProcessResponsive : bool) p : WebProcess :=
  emit (map (fun c => Answer c isWebProcessResponsive) (m_isResponsiveCallbacks p)) (p <| m_isResponsiveCallbacks := [] |>).

Definition disableServiceWorkers p : WebProcess :=
  if negb (isRunningServiceWorkers p) then p
  else emit [DisableServiceWorkers] (updateBackgroundResponsivenessTimer (p <| isRunningServiceWorkers := false |>)).

Definition didBecomeUnresponsive p : WebProcess :=
  let p := emit [PagesTold DidBecomeUnresponsive] (p <| m_isResponsive := No |>) in
  let p := answerCallbacks false p in
  if isRunningServiceWorkers p && bool_decide (pageCount p = 0%nat)
  then emit [Terminate] (disableServiceWorkers p) else p.

Definition didBecomeResponsive p : WebProcess := emit [PagesTold DidBecomeResponsive] (p <| m_isResponsive := Maybe |>).

(** The client side of a timer's call. *)
Definition clientCall p (call : ClientCall) : WebProcess :=
  match call with
  | WillChangeIsResponsive | DidChangeIsResponsive => emit [PagesTold call] p
  | DidBecomeUnresponsive => didBecomeUnresponsive p
  | DidBecomeResponsive => didBecomeResponsive p
  end.
Definition clientCalls (calls : list ClientCall) p : WebProcess := fold_left clientCall calls p.

Definition stopResponsivenessTimer p : WebProcess :=
  let '(t, calls) := ResponsivenessTimer.stop (m_responsivenessTimer p) in clientCalls calls (setTimer t p).

Definition startResponsivenessTimer (now : Z) (useLazyStop : bool) p : WebProcess :=
  if isLaunching p then p <| m_shouldStartResponsivenessTimerWhenLaunched := Some useLazyStop |>
  else if useLazyStop then setTimer (ResponsivenessTimer.startWithLazyStop now (m_responsivenessTimer p)) p
  else setTimer (ResponsivenessTimer.start now (m_responsivenessTimer p)) p.

(** [isResponsive(callback)]. *)
Definition isResponsive (now : Z) (callback : option nat) p : WebProcess :=
  if decide (m_isResponsive p = No) then
    match callback with Some c => p <| dispatched := dispatched p ++ [c] |> | None => p end
  else
    let p := match callback with Some c => p <| m_isResponsiveCallbacks := m_isResponsiveCallbacks p ++ [c] |> | None => p end in
    emit [SendMainThreadPing] (startResponsivenessTimer now false p).

Definition isResponsiveWithLazyStop (now : Z) p : WebProcess :=
  if decide (m_isResponsive p = No) then p
  else if negb (ResponsivenessTimer.hasActiveTimer (m_responsivenessTimer p)) then
    emit [SendMainThreadPing] (setTimer (ResponsivenessTimer.startWithLazyStop now (m_responsivenessTimer p)) p)
  else p.

Definition didReceiveMainThreadPing p : WebProcess := answerCallbacks true (stopResponsivenessTimer p).

Definition didReceiveBackgroundResponsivenessPing p : WebProcess :=
  let '(t, calls) := BackgroundTimer.didReceiveBackgroundResponsivenessPong (m_backgroundResponsivenessTimer p) in
  clientCalls calls (setBackgroundTimer t p).

Definition processTerminated p : WebProcess :=
  let p := setTimer (ResponsivenessTimer.processTerminated (m_responsivenessTimer p)) p in
  let '(t, calls) := BackgroundTimer.processTerminated (m_backgroundResponsivenessTimer p) in
  clientCalls calls (setBackgroundTimer t p).

(** The timers in [shutDown]. *)
Definition shutDown p : WebProcess :=
  setBackgroundTimer (BackgroundTimer.invalidate (m_backgroundResponsivenessTimer p))
    (setTimer (ResponsivenessTimer.invalidate (m_responsivenessTimer p)) p).

(** The callbacks and timers in [processDidTerminateOrFailedToLaunch]; the pages reset
    themselves and end in [processTerminated]. *)
Definition processDidTerminateOrFailedToLaunch p : WebProcess :=
  let p := shutDown (answerCallbacks false p) in
  if bool_decide (pageCount p = 0%nat) then p else processTerminated p.

(** The timers in [didFinishLaunching]. *)
Definition didFinishLaunching (now : Z) p : WebProcess :=
  let p := updateBackgroundResponsivenessTimer (p <| isLaunching := false |>) in
  match m_shouldStartResponsivenessTimerWhenLaunched p with
  | Some useLazyStop => startResponsivenessTimer now useLazyStop (p <| m_shouldStartResponsivenessTimerWhenLaunched := None |>)
  | None => p
  end.

Definition timerFired (now : Z) (may : bool) p : WebProcess :=
  let '(t, calls) := ResponsivenessTimer.timerFired now may ((m_responsivenessTimer p) <| ResponsivenessTimer.m_timer := None |>) in
  clientCalls calls (setTimer t p).
Definition responsivenessCheckTimerFired p : WebProcess :=
  emit [SendBackgroundResponsivenessPing]
    (setBackgroundTimer (BackgroundTimer.responsivenessCheckTimerFired
      ((m_backgroundResponsivenessTimer p) <| BackgroundTimer.m_responsivenessCheckTimer := None |>)) p).
Definition timeoutTimerFired (may : bool) p : WebProcess :=
  let '(t, calls) := BackgroundTimer.timeoutTimerFired may ((m_backgroundResponsivenessTimer p) <| BackgroundTimer.m_timeoutTimer := None |>) in
  clientCalls calls (setBackgroundTimer t p).

(** *** Runs *)

Inductive Event :=
| FinishLaunching
| AskIsResponsive (callback : option nat)
| AskWithLazyStop
| StartTimer (useLazyStop : bool)
| StopTimer
| MainThreadPing
| BackgroundPing
| ForegroundTimerFires (may : bool)
| CheckTimerFires
| TimeoutTimerFires (may : bool)
  (* pages are added, removed, shown or hidden, or service workers enabled or disabled; the
     code calls [updateBackgroundResponsivenessTimer] after each *)
| PagesChange (pages visible : nat) (serviceWorkers : bool)
| ProcessDies
  (* the run loop runs a dispatched answer *)
| RunDispatched.

Inductive step (now : Z) : Event -> WebProcess -> WebProcess -> Prop :=
| step_launch p : isLaunching p = true -> step now FinishLaunching p (didFinishLaunching now p)
| step_ask c p : step now (AskIsResponsive c) p (isResponsive now c p)
| step_askLazy p : step now AskWithLazyStop p (isResponsiveWithLazyStop now p)
| step_start l p : step now (StartTimer l) p (startResponsivenessTimer now l p)
| step_stop p : step now StopTimer p (stopResponsivenessTimer p)
| step_ping p : step now MainThreadPing p (didReceiveMainThreadPing p)
| step_pong p : step now BackgroundPing p (didReceiveBackgroundResponsivenessPing p)
| step_fire may f p : ResponsivenessTimer.m_timer (m_responsivenessTimer p) = Some f -> f <= now ->
    step now (ForegroundTimerFires may) p (timerFired now may p)
| step_check d p : BackgroundTimer.m_responsivenessCheckTimer (m_backgroundResponsivenessTimer p) = Some d ->
    step now CheckTimerFires p (responsivenessCheckTimerFired p)
| step_timeout may d p : BackgroundTimer.m_timeoutTimer (m_backgroundResponsivenessTimer p) = Some d ->
    step now (TimeoutTimerFires may) p (timeoutTimerFired may p)
| step_pages n v sw p : step now (PagesChange n v sw) p
    (updateBackgroundResponsivenessTimer (p <| pageCount := n |> <| visiblePageCount := v |> <| isRunningServiceWorkers := sw |>))
| step_dies p : step now ProcessDies p (processDidTerminateOrFailedToLaunch p)
| step_dispatched c l p : dispatched p = c :: l -> step now RunDispatched p (emit [Answer c false] (p <| dispatched := l |>)).

Inductive steps : list (Z * Event) -> WebProcess -> WebProcess -> Prop :=
| steps_nil p : steps [] p p
| steps_cons now e h p p1 p2 : step now e p p1 -> steps h p1 p2 -> steps ((now, e) :: h) p p2.

(** *** Every question is answered once *)

Definition asked (h : list (Z * Event)) : list nat := omap (fun e => match snd e with AskIsResponsive c => c | _ => None end) h.
Definition answered (o : list Output) : list nat := omap (fun x => match x with Answer c _ => Some c | _ => None end) o.
(** The callbacks the process holds or has called. *)
Definition held p : list nat := answered (output p) ++ dispatched p ++ m_isResponsiveCallbacks p.

Definition quiet (x : Output) : bool := match x with Answer _ _ => false | _ => true end.

Lemma held_emit l p : forallb quiet l = true -> held (emit l p) = held p.
Proof.
  intros Hq. unfold held, emit, answered. cbn. rewrite omap_app.
  assert (omap (fun x => match x with Answer c _ => Some c | _ => None end) l = []) as ->; [|by rewrite app_nil_r].
  induction l as [|[] l IH]; cbn in *; auto. done.
Qed.

Lemma held_answerCallbacks b p : held (answerCallbacks b p) ≡ₚ held p.
Proof.
  unfold held, answerCallbacks, emit, answered. cbn. rewrite omap_app.
  assert (forall l, omap (fun x => match x with Answer c _ => Some c | _ => None end) (map (fun c => Answer c b) l) = l) as Hl.
  { intros l. induction l as [|c l IH]; cbn; [done|]. f_equal. exact IH. }
  rewrite Hl, app_nil_r, <- app_assoc. apply Permutation_app_head, Permutation_app_comm.
Qed.

Lemma held_didBecomeUnresponsive p : held (didBecomeUnresponsive p) ≡ₚ held p.
Proof.
  unfold didBecomeUnresponsive. set (p1 := answerCallbacks _ _).
  assert (held p1 ≡ₚ held p) as <-.
  { subst p1. rewrite held_answerCallbacks. by rewrite held_emit. }
  destruct (_ && _); [|done]. rewrite held_emit by done. unfold disableServiceWorkers.
  destruct (negb _); [done|]. by rewrite held_emit.
Qed.

Lemma held_clientCalls calls p : held (clientCalls calls p) ≡ₚ held p.
Proof.
  unfold clientCalls. revert p. induction calls as [|c calls IH]; intros p; [done|]. cbn. rewrite IH.
  destruct c; cbn [clientCall]; [by rewrite held_emit | by rewrite held_emit | apply held_didBecomeUnresponsive |].
  unfold didBecomeResponsive. by rewrite held_emit.
Qed.

Lemma held_stop p : held (stopResponsivenessTimer p) ≡ₚ held p.
Proof. unfold stopResponsivenessTimer. destruct (ResponsivenessTimer.stop _). by rewrite held_clientCalls. Qed.

Lemma held_start now l p : held (startResponsivenessTimer now l p) = held p.
Proof. unfold startResponsivenessTimer. by destruct (isLaunching p), l. Qed.

Lemma held_processTerminated p : held (processTerminated p) ≡ₚ held p.
Proof. unfold processTerminated. destruct (BackgroundTimer.processTerminated _). by rewrite held_clientCalls. Qed.

(** What a step asks, it holds or answers. *)
Lemma held_step now e p p' : step now e p p' -> held p' ≡ₚ held p ++ asked [(now, e)].
Proof.
  destruct 1; cbn [asked omap list_omap snd]; rewrite ?app_nil_r.
  - unfold didFinishLaunching. destruct (m_shouldStartResponsivenessTimerWhenLaunched _); [by rewrite held_start|done].
  - unfold isResponsive. destruct (decide _), c as [c|]; rewrite ?held_emit, ?held_start, ?app_nil_r by done;
      try done; unfold held; cbn; [|by rewrite !app_assoc].
    rewrite <- !app_assoc. do 2 apply Permutation_app_head. apply Permutation_app_comm.
  - unfold isResponsiveWithLazyStop. destruct (decide _); [done|]. destruct (negb _); [|done]. by rewrite held_emit.
  - by rewrite held_start.
  - apply held_stop.
  - unfold didReceiveMainThreadPing. by rewrite held_answerCallbacks, held_stop.
  - unfold didReceiveBackgroundResponsivenessPing. destruct (BackgroundTimer.didReceiveBackgroundResponsivenessPong _).
    by rewrite held_clientCalls.
  - unfold timerFired. destruct (ResponsivenessTimer.timerFired _ _ _). by rewrite held_clientCalls.
  - unfold responsivenessCheckTimerFired. by rewrite held_emit.
  - unfold timeoutTimerFired. destruct (BackgroundTimer.timeoutTimerFired _ _). by rewrite held_clientCalls.
  - done.
  - unfold processDidTerminateOrFailedToLaunch. destruct (bool_decide _); rewrite ?held_processTerminated;
      exact (held_answerCallbacks false p).
  - unfold held, emit, answered. cbn. rewrite omap_app, H. cbn. by rewrite <- app_assoc.
Qed.

(** Whatever the web process does, hangs, answers late, or dies, each completion handler
    passed to [isResponsive] is, at any time, called exactly once or still held: waiting
    for the ping, or in the run loop with the answer no. *)
Theorem responsiveness_questions_conserved h p :
  steps h create p -> answered (output p) ++ dispatched p ++ m_isResponsiveCallbacks p ≡ₚ asked h.
Proof.
  intros Hsteps. enough (H : forall p0, steps h p0 p -> held p ≡ₚ held p0 ++ asked h) by exact (H create Hsteps).
  clear Hsteps. induction h as [|[now e] h IH]; intros p0 Hs;
    inversion Hs as [|? ? ? ? p1]; subst; [by rewrite app_nil_r|].
  rewrite (IH p1) by done. rewrite (held_step now e p0 p1) by done. rewrite <- app_assoc. f_equiv.
  change ((now, e) :: h) with ([(now, e)] ++ h). unfold asked. by rewrite omap_app.
Qed.

(** *** The background timer in its process *)

Definition background_ok p : Prop :=
  BackgroundTimer.wf (m_backgroundResponsivenessTimer p) /\
  (BackgroundTimer.isActive (m_backgroundResponsivenessTimer p) = true -> shouldBeActive p = true).

Lemma updateState_active b t : BackgroundTimer.isActive (BackgroundTimer.updateState b t) = true -> b = true.
Proof. destruct t as [i [] [] r], b; done. Qed.

Lemma update_background_ok p : BackgroundTimer.wf (m_backgroundResponsivenessTimer p) -> background_ok (updateBackgroundResponsivenessTimer p).
Proof. intros Hwf. split; cbn; [by apply BackgroundTimer.updateState_wf | apply updateState_active]. Qed.

Lemma background_ok_didBecomeUnresponsive p : background_ok p -> background_ok (didBecomeUnresponsive p).
Proof.
  intros [Hwf Ha]. unfold didBecomeUnresponsive. destruct (_ && _) eqn:Hsw; [|done].
  unfold disableServiceWorkers. destruct (negb _); [done|].
  apply update_background_ok in Hwf as Hok. apply (update_background_ok (_ <| isRunningServiceWorkers := false |>)). exact Hwf.
Qed.

Lemma background_ok_clientCalls calls p : background_ok p -> background_ok (clientCalls calls p).
Proof.
  unfold clientCalls. revert p. induction calls as [|c calls IH]; intros p Hp; [done|]. cbn. apply IH.
  destruct c; try exact Hp. by apply background_ok_didBecomeUnresponsive.
Qed.

(** A background timer that was active is replaced by another. *)
Lemma background_ok_set t p :
  background_ok p -> BackgroundTimer.wf t ->
  (BackgroundTimer.isActive t = true -> BackgroundTimer.isActive (m_backgroundResponsivenessTimer p) = true) ->
  background_ok (setBackgroundTimer t p).
Proof. intros [_ Ha] Hwf Hact. split; [done|]. intros H. exact (Ha (Hact H)). Qed.

Lemma background_ok_step now e p p' : background_ok p -> step now e p p' -> background_ok p'.
Proof.
  intros Hok Hs. pose proof (proj1 Hok) as Hwf. destruct Hs.
  - unfold didFinishLaunching. destruct (m_shouldStartResponsivenessTimerWhenLaunched _) as [[]|];
      refine (update_background_ok (p <| isLaunching := false |>) _); exact Hwf.
  - unfold isResponsive, startResponsivenessTimer.
    destruct (decide _), c; cbn; try exact Hok; destruct (isLaunching p); exact Hok.
  - unfold isResponsiveWithLazyStop. destruct (decide _); [done|]. destruct (negb _); exact Hok.
  - unfold startResponsivenessTimer. destruct (isLaunching p), l; exact Hok.
  - unfold stopResponsivenessTimer. destruct (ResponsivenessTimer.stop _). apply background_ok_clientCalls. exact Hok.
  - unfold didReceiveMainThreadPing, stopResponsivenessTimer. destruct (ResponsivenessTimer.stop _) as [t calls].
    exact (background_ok_clientCalls calls (setTimer t p) Hok).
  - unfold didReceiveBackgroundResponsivenessPing. destruct (BackgroundTimer.didReceiveBackgroundResponsivenessPong _) as [t calls] eqn:Ht.
    apply background_ok_clientCalls, background_ok_set; [done | |].
    + change t with (fst (t, calls)). rewrite <- Ht. by apply BackgroundTimer.pong_wf.
    + unfold BackgroundTimer.didReceiveBackgroundResponsivenessPong, BackgroundTimer.isActive in *.
      destruct (BackgroundTimer.m_timeoutTimer (m_backgroundResponsivenessTimer p)) eqn:Hm; cbn in *.
      * intros _. apply orb_true_r.
      * injection Ht as <- <-. by rewrite Hm.
  - unfold timerFired. destruct (ResponsivenessTimer.timerFired _ _ _). apply background_ok_clientCalls. exact Hok.
  - apply background_ok_set; [done | by apply BackgroundTimer.checkFired_wf |].
    intros _. unfold BackgroundTimer.isActive. by rewrite H.
  - unfold timeoutTimerFired. destruct (BackgroundTimer.timeoutTimerFired _ _) as [t calls] eqn:Ht.
    apply background_ok_clientCalls, background_ok_set; [done | |].
    + change t with (fst (t, calls)). rewrite <- Ht. by apply BackgroundTimer.timeoutFired_wf.
    + intros _. unfold BackgroundTimer.isActive. rewrite H. apply orb_true_r.
  - apply (update_background_ok (p <| pageCount := n |> <| visiblePageCount := v |> <| isRunningServiceWorkers := sw |>)). exact Hwf.
  - unfold processDidTerminateOrFailedToLaunch.
    assert (Hs : background_ok (shutDown (answerCallbacks false p))).
    { split; [by apply BackgroundTimer.invalidate_wf | done]. }
    destruct (bool_decide _); [exact Hs|]. unfold processTerminated.
    destruct (BackgroundTimer.processTerminated _) as [t calls] eqn:Ht.
    apply background_ok_clientCalls, (background_ok_set _ (setTimer _ _)); [exact Hs | |].
    + change t with (fst (t, calls)). rewrite <- Ht. by apply BackgroundTimer.setResponsive_wf, BackgroundTimer.invalidate_wf, Hs.
    + unfold BackgroundTimer.processTerminated, BackgroundTimer.setResponsive in Ht.
      destruct (Bool.eqb _ _); injection Ht as <- _; done.
  - exact Hok.
Qed.

(** In every reachable state the background check of a process has at most one of its two
    timers set, one is set only while the process should be checked (so the assertions of
    the timer handlers hold), the checking interval lies between twenty seconds and eight
    hours, and a ping is given ninety seconds. *)
Theorem background_checks_back_off h p :
  steps h create p ->
  let t := m_backgroundResponsivenessTimer p in
  (BackgroundTimer.m_responsivenessCheckTimer t = None \/ BackgroundTimer.m_timeoutTimer t = None) /\
  (BackgroundTimer.isActive t = true -> shouldBeActive p = true) /\
  (forall delay, BackgroundTimer.m_responsivenessCheckTimer t = Some delay -> 20 * sec <= delay <= 28800 * sec) /\
  (forall delay, BackgroundTimer.m_timeoutTimer t = Some delay -> delay = 90 * sec).
Proof.
  intros Hsteps t. assert (Hok : background_ok p).
  { assert (H0 : background_ok create) by (split; [apply BackgroundTimer.create_wf | done]).
    revert H0. induction Hsteps; eauto using background_ok_step. }
  destruct Hok as [[H1 (n & Hn & Hi) H3 H4] Ha]. fold t in H1, Hi, H3, H4, Ha.
  split; [done|]. split; [done|]. split; [|done]. intros delay Hd. rewrite (H3 delay Hd), Hi.
  unfold BackgroundTimer.initialCheckingInterval, BackgroundTimer.maximumCheckingInterval, sec.
  pose proof (Z.pow_pos_nonneg 2 n ltac:(lia) Hn). lia.
Qed.

(** *** A process that stays marked *)

(** Both timers say the process is responsive, the process proxy says it is not. *)
Definition marked p : Prop :=
  ResponsivenessTimer.m_isResponsive (m_responsivenessTimer p) = true /\
  BackgroundTimer.m_isResponsive (m_backgroundResponsivenessTimer p) = true /\ m_isResponsive p = No.

Definition finds_unresponsive (e : Event) : bool :=
  match e with ForegroundTimerFires may | TimeoutTimerFires may => may | _ => false end.

Lemma updateState_responsive b t :
  BackgroundTimer.m_isResponsive t = true -> BackgroundTimer.m_isResponsive (BackgroundTimer.updateState b t) = true.
Proof. destruct t as [i [] [] r], b; done. Qed.

Lemma start_responsive now t :
  ResponsivenessTimer.m_isResponsive (ResponsivenessTimer.start now t) = ResponsivenessTimer.m_isResponsive t /\
  ResponsivenessTimer.m_isResponsive (ResponsivenessTimer.startWithLazyStop now t) = ResponsivenessTimer.m_isResponsive t.
Proof. by destruct t as [[] ? ? [] ?]. Qed.

Lemma marked_step now e p p' : marked p -> finds_unresponsive e = false -> step now e p p' -> marked p'.
Proof.
  intros (Hf & Hb & Hn) He Hs. unfold marked. destruct Hs; cbn in He; subst.
  - unfold didFinishLaunching, startResponsivenessTimer. cbn.
    destruct (m_shouldStartResponsivenessTimerWhenLaunched p) as [[]|]; cbn; rewrite ?updateState_responsive by done;
      rewrite ?(proj1 (start_responsive _ _)), ?(proj2 (start_responsive _ _)); done.
  - unfold isResponsive. rewrite decide_True by done. by destruct c.
  - unfold isResponsiveWithLazyStop. by rewrite decide_True by done.
  - unfold startResponsivenessTimer. destruct (isLaunching p), l; cbn;
      rewrite ?(proj1 (start_responsive _ _)), ?(proj2 (start_responsive _ _)); done.
  - unfold stopResponsivenessTimer, ResponsivenessTimer.stop. rewrite Hf. cbn. by destruct (ResponsivenessTimer.m_useLazyStop _).
  - unfold didReceiveMainThreadPing, stopResponsivenessTimer, ResponsivenessTimer.stop. rewrite Hf. cbn.
    by destruct (ResponsivenessTimer.m_useLazyStop _).
  - unfold didReceiveBackgroundResponsivenessPing, BackgroundTimer.didReceiveBackgroundResponsivenessPong, BackgroundTimer.setResponsive.
    destruct (negb _); cbn; rewrite ?Hb; done.
  - unfold timerFired, ResponsivenessTimer.timerFired, ResponsivenessTimer.waitIsOver. cbn. rewrite Hf. cbn.
    destruct (negb _); [done|]. destruct (decide _); [destruct (_ <? _)|]; done.
  - done.
  - unfold timeoutTimerFired, BackgroundTimer.timeoutTimerFired. cbn. rewrite Hb. done.
  - cbn. by rewrite updateState_responsive.
  - unfold processDidTerminateOrFailedToLaunch. cbn. destruct (bool_decide _); [done|].
    unfold processTerminated, BackgroundTimer.processTerminated, BackgroundTimer.setResponsive. cbn. rewrite Hb. done.
  - done.
Qed.

Lemma marked_steps h p p' :
  marked p -> forallb (fun e => negb (finds_unresponsive (snd e))) h = true -> steps h p p' -> marked p'.
Proof.
  intros Hm Hh Hs. induction Hs; [done|]. cbn in Hh. apply andb_prop in Hh as [He Hh].
  apply IHHs; [|done]. eapply marked_step; [exact Hm | by apply negb_true_iff in He | done].
Qed.

(** A web process that missed a background ping is reported unresponsive; when one of its
    pages is then shown, the background timer silently calls it responsive again.  From
    then on, until the process misses another deadline, the public answer is "responsive",
    but no page was told, every question is answered no without asking the process,
    however often it answers pings, and scrolling never checks it. *)
Theorem shown_process_stays_marked_unresponsive now p n v sw h p' :
  ResponsivenessTimer.m_isResponsive (m_responsivenessTimer p) = true ->
  BackgroundTimer.m_isResponsive (m_backgroundResponsivenessTimer p) = false -> m_isResponsive p = No ->
  v <> 0%nat -> forallb (fun e => negb (finds_unresponsive (snd e))) h = true ->
  steps ((now, PagesChange n v sw) :: h) p p' ->
  (exists shown, step now (PagesChange n v sw) p shown /\ output shown = output p /\ steps h shown p') /\
  marked p' /\
  (forall time, isResponsiveWithLazyStop time p' = p') /\
  (forall time c, isResponsive time (Some c) p' = p' <| dispatched := dispatched p' ++ [c] |>).
Proof.
  intros Hf Hb Hn Hv Hh Hs. inversion Hs as [|? ? ? ? p1 ? Hstep Hrest]; subst. inversion Hstep; subst.
  assert (Hm : marked p').
  { eapply marked_steps; [|exact Hh|exact Hrest]. repeat split; cbn; try done.
    unfold shouldBeActive. cbn. by rewrite bool_decide_true. }
  split; [by eexists|]. split; [done|]. destruct Hm as (_ & _ & Hno).
  unfold isResponsiveWithLazyStop, isResponsive. split; intros; by rewrite decide_True.
Qed.

Lemma steps_end p p' : p = p' -> steps [] p p'.
Proof. intros ->. apply steps_nil. Qed.

(** *** A hidden page whose process misses a ping *)

Definition hiddenPage : WebProcess :=
  let p := isResponsive 1000 (Some 7%nat) create in
  updateBackgroundResponsivenessTimer ((didFinishLaunching 2000 p) <| pageCount := 1%nat |> <| visiblePageCount := 0%nat |> <| isRunningServiceWorkers := false |>).
Definition answeringPage : WebProcess := isResponsive 3000 (Some 8%nat) (didReceiveMainThreadPing hiddenPage).
Definition hungPage : WebProcess := timeoutTimerFired true (responsivenessCheckTimerFired answeringPage).
Definition hungHistory : list (Z * Event) :=
  [(1000, AskIsResponsive (Some 7%nat)); (2000, FinishLaunching); (2000, PagesChange 1 0 false); (2500, MainThreadPing);
   (3000, AskIsResponsive (Some 8%nat)); (22000, CheckTimerFires); (112000, TimeoutTimerFires true)].

Lemma hungHistory_steps : steps hungHistory create hungPage.
Proof.
  repeat (eapply steps_cons; [first [by econstructor | econstructor; vm_compute; reflexivity]|]).
  apply steps_end. vm_compute. reflexivity.
Qed.

Lemma responsiveness_questions_conserved_witness :
  answered (output hungPage) ++ dispatched hungPage ++ m_isResponsiveCallbacks hungPage ≡ₚ [7; 8]%nat /\ answered (output hungPage) = [7; 8]%nat.
Proof. split; [exact (responsiveness_questions_conserved hungHistory hungPage hungHistory_steps) | reflexivity]. Defined.

Lemma background_checks_back_off_witness :
  BackgroundTimer.isActive (m_backgroundResponsivenessTimer hungPage) = true /\ shouldBeActive hungPage = true.
Proof.
  split; [reflexivity|]. destruct (background_checks_back_off hungHistory hungPage hungHistory_steps) as (_ & Ha & _).
  apply Ha. reflexivity.
Defined.

(** The page is shown, the process answers pings, and is asked. *)
Definition shownHung : WebProcess :=
  didReceiveMainThreadPing (updateBackgroundResponsivenessTimer (hungPage <| pageCount := 1%nat |> <| visiblePageCount := 1%nat |> <| isRunningServiceWorkers := false |>)).

Lemma shown_process_stays_marked_unresponsive_witness :
  marked shownHung /\ isResponsiveWithLazyStop 120000 shownHung = shownHung.
Proof.
  destruct (shown_process_stays_marked_unresponsive 115000 hungPage 1 1 false [(116000, MainThreadPing)] shownHung)
    as (_ & Hm & Hl & _); try reflexivity; [done | | by split].
  eapply steps_cons; [apply step_pages|]. eapply steps_cons; [apply step_ping|]. apply steps_end. vm_compute. reflexivity.
Defined.
End WebProcess.
