(* ===== verification/InputEvents.v ===== *)
(** * Input events between the UI process and a web process

    WebWheelEventCoalescer.cpp; the queues of mouse, key, wheel, gesture and touch events of
    WebPageProxy.cpp and its [didReceiveEvent]; and the other end, EventDispatcher.cpp and
    the event handlers of WebPage.cpp.  [TOUCH_EVENTS] (as on GTK) and [MAC_GESTURE_EVENTS]
    are both compiled in, [SCROLLING_THREAD] is not.  What the page does to other objects is
    recorded; page and UI clients only listen. *)

From S2P Require Import Prelude.

(** [WebCore::FloatSize] and its addition. *)
Class FloatArithmetic := { FloatSize : Type; add : FloatSize -> FloatSize -> FloatSize }.

(** ** WebEvent.h *)

Inductive EventType :=
| NoType
| MouseDown | MouseUp | MouseMove | MouseForceChanged | MouseForceDown | MouseForceUp
| Wheel
| KeyDown | KeyUp | RawKeyDown | Char
| TouchStart | TouchMove | TouchEnd | TouchCancel
| GestureStart | GestureChange | GestureEnd.
#[global] Instance EventType_eq_decision : EqDecision EventType.
Proof. solve_decision. Defined.

Inductive Phase := PhaseNone | PhaseBegan | PhaseStationary | PhaseChanged | PhaseEnded | PhaseCancelled | PhaseMayBegin.
#[global] Instance Phase_eq_decision : EqDecision Phase.
Proof. solve_decision. Defined.

Inductive Granularity := ScrollByPageWheelEvent | ScrollByPixelWheelEvent.
#[global] Instance Granularity_eq_decision : EqDecision Granularity.
Proof. solve_decision. Defined.

(** Mouse, key and gesture events: their type and the native event they come from. *)
Record NativeEvent := mkNativeEvent { type : EventType; native : nat }.
#[global] Instance NativeEvent_eq_decision : EqDecision NativeEvent.
Proof. solve_decision. Defined.

Inductive TouchPointState := TouchReleased | TouchPressed | TouchMoved | TouchStationary | TouchCancelled.
#[global] Instance TouchPointState_eq_decision : EqDecision TouchPointState.
Proof. solve_decision. Defined.

Record TouchEvent := mkTouchEvent { touchType : EventType; touchPoints : list TouchPointState; touchNative : nat }.

Definition allTouchPointsAreReleased (e : TouchEvent) : bool :=
  forallb (fun state => bool_decide (state = TouchReleased) || bool_decide (state = TouchCancelled)) (touchPoints e).

Record WebWheelEvent `{FloatArithmetic} := mkWebWheelEvent {
  position : Z * Z;
  globalPosition : Z * Z;
  delta : FloatSize;
  wheelTicks : FloatSize;
  phase : Phase;
  momentumPhase : Phase;
  granularity : Granularity;
  hasPreciseScrollingDeltas : bool;
  modifiers : Z;
  timestamp : Z
}.
Arguments mkWebWheelEvent {H} _ _ _ _ _ _ _ _ _ _.
(** A [NativeWebWheelEvent] is a [WebWheelEvent] with the event it was made from. *)
Record NativeWebWheelEvent `{FloatArithmetic} := mkNativeWebWheelEvent { webEvent :> WebWheelEvent; nativeWheel : nat }.

Arguments mkNativeWebWheelEvent {H} _ _.

(** ** WebWheelEventCoalescer.cpp *)
Module WebWheelEventCoalescer.
Section with_floats.
Context {floats : FloatArithmetic}.
(** Is this the GTK port? *)
Context (platformGTK : bool).

Definition wheelEventQueueSizeThreshold : nat := 10.

Record WebWheelEventCoalescer := mkCoalescer {
  m_wheelEventQueue : list NativeWebWheelEvent;
  m_eventsBeingProcessed : list (list NativeWebWheelEvent)
}.
#[global] Instance eta_Coalescer : Eta WebWheelEventCoalescer := fun r => mkCoalescer (m_wheelEventQueue r) (m_eventsBeingProcessed r).

Definition create : WebWheelEventCoalescer := mkCoalescer [] [].

Implicit Types c : WebWheelEventCoalescer.

Definition canCoalesce (a b : WebWheelEvent) : bool :=
  bool_decide (position a = position b) && bool_decide (globalPosition a = globalPosition b) &&
  bool_decide (modifiers a = modifiers b) && bool_decide (granularity a = granularity b) &&
  Bool.eqb (hasPreciseScrollingDeltas a) (hasPreciseScrollingDeltas b).

Definition coalesce (a b : WebWheelEvent) : WebWheelEvent :=
  mkWebWheelEvent (position b) (globalPosition b) (add (delta a) (delta b)) (add (wheelTicks a) (wheelTicks b))
    (phase b) (momentumPhase b) (granularity b) (hasPreciseScrollingDeltas b) (modifiers b) (timestamp b).

Definition shouldDispatchEventNow (event : WebWheelEvent) c : bool :=
  if platformGTK &&
     (bool_decide (phase event = PhaseNone) || bool_decide (phase event = PhaseChanged) ||
      bool_decide (momentumPhase event = PhaseNone) || bool_decide (momentumPhase event = PhaseChanged))
  then true
  else bool_decide (wheelEventQueueSizeThreshold <= length (m_wheelEventQueue c))%nat.

(** The loop of [nextEventToDispatch]: the merged event, its sequence, the rest. *)
Fixpoint coalesceQueue (merged : WebWheelEvent) (sequence queue : list NativeWebWheelEvent)
    : WebWheelEvent * list NativeWebWheelEvent * list NativeWebWheelEvent :=
  match queue with
  | first :: rest =>
      if canCoalesce merged first then coalesceQueue (coalesce merged first) (sequence ++ [first]) rest
      else (merged, sequence, queue)
  | [] => (merged, sequence, [])
  end.

Definition nextEventToDispatch c : WebWheelEventCoalescer * option WebWheelEvent :=
  match m_wheelEventQueue c with
  | [] => (c, None)
  | coalescedEvent :: queue =>
      let '(merged, sequence, queue) := coalesceQueue coalescedEvent [coalescedEvent] queue in
      (c <| m_wheelEventQueue := queue |> <| m_eventsBeingProcessed := m_eventsBeingProcessed c ++ [sequence] |>, Some merged)
  end.

Definition hasEventsBeingProcessed c : bool := match m_eventsBeingProcessed c with [] => false | _ => true end.

Definition shouldDispatchEvent (event : NativeWebWheelEvent) c : WebWheelEventCoalescer * bool :=
  let c := c <| m_wheelEventQueue := m_wheelEventQueue c ++ [event] |> in
  if hasEventsBeingProcessed c && negb (shouldDispatchEventNow event c) then (c, false) else (c, true).

(** [oldestSequence->last()]; [None] where the code asserts that there is one. *)
Definition takeOldestEventBeingProcessed c : WebWheelEventCoalescer * option NativeWebWheelEvent :=
  match m_eventsBeingProcessed c with
  | oldestSequence :: rest => (c <| m_eventsBeingProcessed := rest |>, last oldestSequence)
  | [] => (c, None)
  end.

Definition clear c : WebWheelEventCoalescer := create.

(** *** What a sequence becomes *)

(** The single event a sequence is merged into. *)
Definition mergeSequence (sequence : list NativeWebWheelEvent) : option WebWheelEvent :=
  match sequence with
  | [] => None
  | first :: rest => Some (fold_left (fun merged e => coalesce merged (webEvent e)) rest (webEvent first))
  end.

Lemma coalesceQueue_spec queue : forall merged sequence merged' sequence' queue',
  coalesceQueue merged sequence queue = (merged', sequence', queue') ->
  exists taken, queue = taken ++ queue' /\ sequence' = sequence ++ taken /\
    merged' = fold_left (fun m e => coalesce m (webEvent e)) taken merged.
Proof.
  induction queue as [|e queue IH]; intros merged sequence merged' sequence' queue' Hq; cbn in Hq.
  - injection Hq as <- <- <-. exists []. by rewrite !app_nil_r.
  - destruct (canCoalesce merged e).
    + destruct (IH _ _ _ _ _ Hq) as (taken & -> & -> & ->). exists (e :: taken). by rewrite <- app_assoc.
    + injection Hq as <- <- <-. exists []. by rewrite !app_nil_r.
Qed.

Lemma nextEventToDispatch_spec c c' o :
  nextEventToDispatch c = (c', o) ->
  match o with
  | None => m_wheelEventQueue c = [] /\ c' = c
  | Some event => exists sequence, m_wheelEventQueue c = sequence ++ m_wheelEventQueue c' /\ sequence <> [] /\
      mergeSequence sequence = Some event /\ m_eventsBeingProcessed c' = m_eventsBeingProcessed c ++ [sequence]
  end.
Proof.
  unfold nextEventToDispatch. destruct (m_wheelEventQueue c) as [|e queue] eqn:Hq; intros Hn.
  { injection Hn as <- <-. done. }
  destruct (coalesceQueue _ _ _) as [[merged sequence] rest] eqn:Hc. injection Hn as <- <-.
  destruct (coalesceQueue_spec _ _ _ _ _ _ Hc) as (taken & -> & -> & ->).
  exists (e :: taken). by cbn.
Qed.
End with_floats.
End WebWheelEventCoalescer.
Import WebWheelEventCoalescer(WebWheelEventCoalescer).

(** ** WebPageProxy.cpp: the event queues of a page *)
Module PageEvents.
Section with_floats.
Context {floats : FloatArithmetic}.
Context (platformGTK : bool).
(** [PageClient::windowIsFrontWindowUnderMouse]. *)
Context (windowIsFrontWindowUnderMouse : NativeEvent -> bool).

Inductive TrackingType := NotTracking | Asynchronous | Synchronous.
#[global] Instance TrackingType_eq_decision : EqDecision TrackingType.
Proof. solve_decision. Defined.

Record TouchEventTracking := mkTracking {
  touchForceChangedTracking : TrackingType;
  touchStartTracking : TrackingType;
  touchMoveTracking : TrackingType;
  touchEndTracking : TrackingType
}.
Definition noTracking : TouchEventTracking := mkTracking NotTracking NotTracking NotTracking NotTracking.
Definition isTrackingAnything (t : TouchEventTracking) : bool :=
  bool_decide (touchForceChangedTracking t <> NotTracking) || bool_decide (touchStartTracking t <> NotTracking) ||
  bool_decide (touchMoveTracking t <> NotTracking) || bool_decide (touchEndTracking t <> NotTracking).

Record QueuedTouchEvents := mkQueuedTouchEvents { forwardedEvent : TouchEvent; deferredTouchEvents : list TouchEvent }.

(** What the web process is sent. *)
Inductive ToWeb :=
| SendMouse (e : NativeEvent) | SendKey (e : NativeEvent) | SendTouch (e : TouchEvent)
| SendWheel (e : WebWheelEvent) | SendGesture (e : NativeEvent).

Inductive Output :=
| Send (m : ToWeb)
| StartResponsivenessTimer (useLazyStop : bool)
| StopResponsivenessTimer
| IsResponsiveWithLazyStop
| ClearToolTip
| CloseOverlayedViews
| LaunchProcess
| RunCallback (action : nat)
| DidNotHandleWheelEvent (e : NativeWebWheelEvent)
| DoneWithKeyEvent (e : NativeEvent) (handled : bool)
| DidNotHandleKeyEvent (e : NativeEvent)
| GestureEventWasNotHandled (e : NativeEvent)
| DoneWithTouchEvent (e : TouchEvent) (handled : bool)
| EventsFlushed (t : EventType)
  (* the queued events that [discardQueuedMouseEvents] drops *)
| Discarded (events : list NativeEvent)
  (* a [MESSAGE_CHECK] failed: the web process is terminated *)
| InvalidMessage.

Record Page := mkPage {
  hasRunningProcess : bool;
  isDummyProcess : bool;
  m_isPageSuspended : bool;
  m_wheelEventCoalescer : option WebWheelEventCoalescer;
  m_mouseEventQueue : list NativeEvent;
  m_keyEventQueue : list NativeEvent;
  m_gestureEventQueue : list NativeEvent;
  m_touchEventQueue : list QueuedTouchEvents;
  m_touchAndPointerEventTracking : TouchEventTracking;
  m_callbackHandlersAfterProcessingPendingMouseEvents : list nat;
  output : list Output
}.
#[global] Instance eta_Page : Eta Page := fun r =>
  mkPage (hasRunningProcess r) (isDummyProcess r) (m_isPageSuspended r) (m_wheelEventCoalescer r) (m_mouseEventQueue r)
    (m_keyEventQueue r) (m_gestureEventQueue r) (m_touchEventQueue r) (m_touchAndPointerEventTracking r)
    (m_callbackHandlersAfterProcessingPendingMouseEvents r) (output r).

Definition create : Page := mkPage false true false None [] [] [] [] noTracking [] [].

Implicit Types p : Page.

Definition emit (l : list Output) p : Page := p <| output := output p ++ l |>.

Definition launchInitialProcessIfNecessary p : Page :=
  if isDummyProcess p then emit [LaunchProcess] (p <| isDummyProcess := false |> <| hasRunningProcess := true |>) else p.

(** *** Mouse events *)

Definition isMoveOrForce (t : EventType) : bool := bool_decide (t = MouseMove) || bool_decide (t = MouseForceChanged).

(** The loop of [removeOldRedundantEvent], from the back of the queue. *)
Fixpoint removeNewest (incoming : EventType) (reversed : list NativeEvent) : option (list NativeEvent) :=
  match reversed with
  | [] => None
  | e :: rest =>
      if bool_decide (type e = incoming) then Some rest
      else if negb (isMoveOrForce (type e)) then None
      else (e ::.) <$> removeNewest incoming rest
  end.

Definition removeOldRedundantEvent (incoming : EventType) (queue : list NativeEvent) : list NativeEvent :=
  if negb (isMoveOrForce incoming) then queue
  else match queue with
       | [] => []
       | first :: rest => match removeNewest incoming (rev rest) with Some kept => first :: rev kept | None => queue end
       end.

Definition processNextQueuedMouseEvent p : Page :=
  if negb (hasRunningProcess p) then p
  else match m_mouseEventQueue p with
       | [] => p
       | event :: _ =>
           let t := type event in
           let p := if windowIsFrontWindowUnderMouse event then emit [ClearToolTip] p else p in
           let p :=
             if bool_decide (t = MouseDown) || bool_decide (t = MouseForceChanged) || bool_decide (t = MouseForceDown)
             then emit [StartResponsivenessTimer true] p
             else if bool_decide (t <> MouseMove) then emit [StartResponsivenessTimer false] p
             else p in
           emit [Send (SendMouse event)] p
       end.

Definition handleMouseEvent (event : NativeEvent) p : Page :=
  let p := if bool_decide (type event = MouseDown) then launchInitialProcessIfNecessary p else p in
  if negb (hasRunningProcess p) then p
  else
    let p := p <| m_mouseEventQueue := removeOldRedundantEvent (type event) (m_mouseEventQueue p) ++ [event] |> in
    if bool_decide (length (m_mouseEventQueue p) = 1%nat) then processNextQueuedMouseEvent p else p.

Definition isProcessingMouseEvents p : bool := match m_mouseEventQueue p with [] => false | _ => true end.

Definition doAfterProcessingAllPendingMouseEvents (action : nat) p : Page :=
  if negb (isProcessingMouseEvents p) then emit [RunCallback action] p
  else p <| m_callbackHandlersAfterProcessingPendingMouseEvents := m_callbackHandlersAfterProcessingPendingMouseEvents p ++ [action] |>.

Definition flushPendingMouseEventCallbacks p : Page :=
  (emit (map RunCallback (m_callbackHandlersAfterProcessingPendingMouseEvents p)) p)
    <| m_callbackHandlersAfterProcessingPendingMouseEvents := [] |>.

(** The loop that removes the last event while there is more than one. *)
Definition discardQueuedMouseEvents p : Page :=
  emit [Discarded (drop 1 (m_mouseEventQueue p))] (p <| m_mouseEventQueue := take 1 (m_mouseEventQueue p) |>).

(** [didStartDrag] and [showContextMenu]: the page is told by its web process.  [automated]:
    it is controlled by an automation session that simulates the user. *)
Definition didStartDrag p : Page := if negb (hasRunningProcess p) then p else discardQueuedMouseEvents p.
Definition showContextMenu (automated : bool) p : Page := if automated then p else discardQueuedMouseEvents p.

(** *** Wheel, key, gesture and touch events *)

Definition wheelEventCoalescer p : WebWheelEventCoalescer :=
  match m_wheelEventCoalescer p with Some c => c | None => WebWheelEventCoalescer.create end.

Definition sendWheelEvent (event : WebWheelEvent) p : Page := emit [Send (SendWheel event); IsResponsiveWithLazyStop] p.

Definition handleWheelEvent (event : NativeWebWheelEvent) p : Page :=
  if negb (hasRunningProcess p) then p
  else
    let p := emit [CloseOverlayedViews] p in
    let '(c, dispatch) := WebWheelEventCoalescer.shouldDispatchEvent platformGTK event (wheelEventCoalescer p) in
    if dispatch then
      let '(c, next) := WebWheelEventCoalescer.nextEventToDispatch c in
      let p := p <| m_wheelEventCoalescer := Some c |> in
      match next with Some e => sendWheelEvent e p | None => p end
    else p <| m_wheelEventCoalescer := Some c |>.

Definition handleKeyboardEvent (event : NativeEvent) p : Page :=
  if negb (hasRunningProcess p) then p
  else
    let p := p <| m_keyEventQueue := m_keyEventQueue p ++ [event] |> in
    let p := emit [StartResponsivenessTimer (bool_decide (type event = KeyDown))] p in
    if bool_decide (length (m_keyEventQueue p) = 1%nat) then emit [Send (SendKey event)] p else p.

Definition handleGestureEvent (event : NativeEvent) p : Page :=
  if negb (hasRunningProcess p) then p
  else emit [StartResponsivenessTimer (bool_decide (type event = GestureStart) || bool_decide (type event = GestureChange));
             Send (SendGesture event)]
         (p <| m_gestureEventQueue := m_gestureEventQueue p ++ [event] |>).

Definition trackingRank (t : TrackingType) : nat := match t with NotTracking => 0 | Asynchronous => 1 | Synchronous => 2 end.
Definition mergeTrackingTypes (a b : TrackingType) : TrackingType :=
  if bool_decide (trackingRank a < trackingRank b)%nat then b else a.

(** Without [ASYNC_SCROLLING] every touch is tracked. *)
Definition updateTouchEventTracking p : Page :=
  p <| m_touchAndPointerEventTracking := mkTracking Synchronous Synchronous Synchronous Synchronous |>.

Definition touchEventTrackingType (event : TouchEvent) p : TrackingType :=
  let t := m_touchAndPointerEventTracking p in
  let global := if isTrackingAnything t then Asynchronous else NotTracking in
  let global := mergeTrackingTypes global (touchForceChangedTracking t) in
  fold_left (fun global state =>
    mergeTrackingTypes global
      match state with
      | TouchReleased => touchEndTracking t
      | TouchPressed => touchStartTracking t
      | TouchMoved | TouchStationary => touchMoveTracking t
      | TouchCancelled => Asynchronous
      end) (touchPoints event) global.

(** The newest queued event takes the deferred one. *)
Fixpoint deferToLast (event : TouchEvent) (queue : list QueuedTouchEvents) : list QueuedTouchEvents :=
  match queue with
  | [] => []
  | [q] => [mkQueuedTouchEvents (forwardedEvent q) (deferredTouchEvents q ++ [event])]
  | q :: queue => q :: deferToLast event queue
  end.

Definition handleTouchEvent (event : TouchEvent) p : Page :=
  if negb (hasRunningProcess p) then p
  else
    let p := updateTouchEventTracking p in
    if bool_decide (touchEventTrackingType event p = NotTracking) then p
    else
      let p :=
        if negb (m_isPageSuspended p) then
          emit [StartResponsivenessTimer false; Send (SendTouch event)]
            (p <| m_touchEventQueue := m_touchEventQueue p ++ [mkQueuedTouchEvents event []] |>)
        else
          match m_touchEventQueue p with
          | [] => emit [DoneWithTouchEvent event false] p
          | _ => p <| m_touchEventQueue := deferToLast event (m_touchEventQueue p) |>
          end in
      if allTouchPointsAreReleased event then p <| m_touchAndPointerEventTracking := noTracking |> else p.

Definition suspendActiveDOMObjectsAndAnimations p : Page :=
  if negb (hasRunningProcess p) || m_isPageSuspended p then p else p <| m_isPageSuspended := true |>.
Definition resumeActiveDOMObjectsAndAnimations p : Page :=
  if negb (hasRunningProcess p) || negb (m_isPageSuspended p) then p else p <| m_isPageSuspended := false |>.

(** *** The answers of the web process *)

Inductive Kind := NoKind | MouseKind | WheelKind | KeyKind | TouchKind | GestureKind.
#[global] Instance Kind_eq_decision : EqDecision Kind.
Proof. solve_decision. Defined.

(** The cases of the second [switch] of [didReceiveEvent]. *)
Definition kind (t : EventType) : Kind :=
  match t with
  | NoType => NoKind
  | MouseDown | MouseUp | MouseMove | MouseForceChanged | MouseForceDown | MouseForceUp => MouseKind
  | Wheel => WheelKind
  | KeyDown | KeyUp | RawKeyDown | Char => KeyKind
  | TouchStart | TouchMove | TouchEnd | TouchCancel => TouchKind
  | GestureStart | GestureChange | GestureEnd => GestureKind
  end.

(** Its first [switch]. *)
Definition stopsTimer (t : EventType) : bool := match t with NoType | MouseMove | Wheel => false | _ => true end.

Definition invalid p : Page := emit [InvalidMessage] p.

Definition didReceiveMouse (t : EventType) p : Page :=
  match m_mouseEventQueue p with
  | [] => invalid p
  | event :: queue =>
      let p := p <| m_mouseEventQueue := queue |> in
      if bool_decide (t <> type event) then invalid p
      else match queue with
           | [] => flushPendingMouseEventCallbacks (emit [EventsFlushed MouseDown] p)
           | _ => processNextQueuedMouseEvent p
           end
  end.

Definition didReceiveWheel (handled : bool) p : Page :=
  let p := p <| m_wheelEventCoalescer := Some (wheelEventCoalescer p) |> in
  if negb (WebWheelEventCoalescer.hasEventsBeingProcessed (wheelEventCoalescer p)) then invalid p
  else
    let '(c, oldest) := WebWheelEventCoalescer.takeOldestEventBeingProcessed (wheelEventCoalescer p) in
    let p := p <| m_wheelEventCoalescer := Some c |> in
    let p := match oldest with Some e => if handled then p else emit [DidNotHandleWheelEvent e] p | None => p end in
    let '(c, next) := WebWheelEventCoalescer.nextEventToDispatch c in
    let p := p <| m_wheelEventCoalescer := Some c |> in
    match next with Some e => sendWheelEvent e p | None => emit [EventsFlushed Wheel] p end.

Definition didReceiveKey (t : EventType) (handled : bool) p : Page :=
  match m_keyEventQueue p with
  | [] => invalid p
  | event :: queue =>
      let p := p <| m_keyEventQueue := queue |> in
      if bool_decide (t <> type event) then invalid p
      else
        let p := match queue with first :: _ => emit [Send (SendKey first)] p | [] => p end in
        let p := emit [DoneWithKeyEvent event handled] p in
        let p := if handled then p else emit [DidNotHandleKeyEvent event] p in
        match queue with [] => emit [EventsFlushed KeyDown] p | _ => p end
  end.

Definition didReceiveGesture (t : EventType) (handled : bool) p : Page :=
  match m_gestureEventQueue p with
  | [] => invalid p
  | event :: queue =>
      let p := p <| m_gestureEventQueue := queue |> in
      if bool_decide (t <> type event) then invalid p
      else if handled then p else emit [GestureEventWasNotHandled event] p
  end.

Definition didReceiveTouch (t : EventType) (handled : bool) p : Page :=
  match m_touchEventQueue p with
  | [] => invalid p
  | queuedEvents :: queue =>
      let p := p <| m_touchEventQueue := queue |> in
      if bool_decide (t <> touchType (forwardedEvent queuedEvents)) then invalid p
      else emit (DoneWithTouchEvent (forwardedEvent queuedEvents) handled :: map (fun e => DoneWithTouchEvent e false) (deferredTouchEvents queuedEvents)) p
  end.

Definition didReceiveEvent (t : EventType) (handled : bool) p : Page :=
  let p := if stopsTimer t then emit [StopResponsivenessTimer] p else p in
  match kind t with
  | NoKind => p
  | MouseKind => didReceiveMouse t p
  | WheelKind => didReceiveWheel handled p
  | KeyKind => didReceiveKey t handled p
  | GestureKind => didReceiveGesture t handled p
  | TouchKind => didReceiveTouch t handled p
  end.

(** The input state in [resetStateAfterProcessExited]; [resetState] does not touch it. *)
Definition resetStateAfterProcessExited p : Page :=
  if negb (hasRunningProcess p) then p
  else p <| hasRunningProcess := false |> <| m_isPageSuspended := false |> <| m_mouseEventQueue := [] |> <| m_keyEventQueue := [] |>
         <| m_wheelEventCoalescer := WebWheelEventCoalescer.clear <$> m_wheelEventCoalescer p |> <| m_touchEventQueue := [] |>.

(** A new process is launched for the page. *)
Definition launchProcess p : Page := p <| isDummyProcess := false |> <| hasRunningProcess := true |>.
End with_floats.
End PageEvents.

(** ** EventDispatcher.cpp and WebPage.cpp: the web process *)
Module WebPageEvents.
Section with_floats.
Context {floats : FloatArithmetic}.
Import PageEvents.

Definition typeOf (m : ToWeb) : EventType :=
  match m with SendMouse e | SendKey e | SendGesture e => type e | SendTouch e => touchType e | SendWheel _ => Wheel end.

(** Events to the [EventDispatcher] arrive on its work queue; the others, to [WebPage], on
    the main thread in the order sent.  [mainTasks] is what the work queue dispatched to the
    main run loop; [replies] are the sent [DidReceiveEvent] messages. *)
Record Web := mkWeb {
  workQueue : list ToWeb;
  connectionQueue : list ToWeb;
  mainTasks : list ToWeb;
  m_isShowingContextMenu : bool;
  m_isStartingDrag : bool;
  replies : list (EventType * bool)
}.
#[global] Instance eta_Web : Eta Web := fun r =>
  mkWeb (workQueue r) (connectionQueue r) (mainTasks r) (m_isShowingContextMenu r) (m_isStartingDrag r) (replies r).
Definition emptyWeb : Web := mkWeb [] [] [] false false [].

Definition didReceive (t : EventType) (handled : bool) (w : Web) : Web := w <| replies := replies w ++ [(t, handled)] |>.

(** [WebPage::mouseEvent]; [banners] and [core] are what the banners and WebCore answer. *)
Definition mouseEvent (e : NativeEvent) (banners core : bool) (w : Web) : Web :=
  if m_isShowingContextMenu w || m_isStartingDrag w then didReceive (type e) false w
  else didReceive (type e) (banners || core) w.
(** [WebPage::keyEvent]. *)
Definition keyEvent (e : NativeEvent) (defaultBehavior core : bool) (w : Web) : Web := didReceive (type e) (core || defaultBehavior) w.
(** [WebPage::touchEvent]. *)
Definition touchEvent (e : TouchEvent) (core : bool) (w : Web) : Web := didReceive (touchType e) core w.
(** [WebPage::wheelEvent], with [MainThreadForScrolling] among the steps. *)
Definition wheelEvent (e : WebWheelEvent) (core : bool) (w : Web) : Web := didReceive Wheel core w.
(** [WebPage::gestureEvent]. *)
Definition gestureEvent (e : NativeEvent) (core : bool) (w : Web) : Web := didReceive (type e) core w.

(** [EventDispatcher::wheelEvent] and [gestureEvent]: on to the main run loop. *)
Definition dispatchViaMainThread (m : ToWeb) (w : Web) : Web := w <| mainTasks := mainTasks w ++ [m] |>.

(** [dispatchWheelEvent] and [dispatchGestureEvent]: nothing happens when the page is gone. *)
Definition runTask (m : ToWeb) (pageExists core : bool) (w : Web) : Web :=
  if negb pageExists then w
  else match m with
       | SendWheel e => wheelEvent e core w
       | SendGesture e => gestureEvent e core w
       | _ => w
       end.

Definition runMessage (m : ToWeb) (other core : bool) (w : Web) : Web :=
  match m with
  | SendMouse e => mouseEvent e other core w
  | SendKey e => keyEvent e other core w
  | SendTouch e => touchEvent e core w
  | _ => w
  end.

Definition deliver (w : Web) (m : ToWeb) : Web :=
  match m with
  | SendWheel _ | SendGesture _ => w <| workQueue := workQueue w ++ [m] |>
  | _ => w <| connectionQueue := connectionQueue w ++ [m] |>
  end.
End with_floats.
End WebPageEvents.

(** ** Both processes *)
Module InputSystem.
Section with_floats.
Context {floats : FloatArithmetic}.
Context (platformGTK : bool) (windowIsFrontWindowUnderMouse : NativeEvent -> bool).
Import PageEvents WebPageEvents.

(** The messages among the outputs. *)
Definition sends (l : list Output) : list ToWeb := omap (fun o => match o with Send m => Some m | _ => None end) l.

Record System := mkSystem { page : Page; web : Web }.

(** The page does something; what it sends goes to the web process. *)
Definition perform (f : Page -> Page) (s : System) : System :=
  let p := f (page s) in
  mkSystem p (fold_left deliver (sends (drop (length (output (page s))) (output p))) (web s)).

Inductive Event :=
| MouseInput (e : NativeEvent) | KeyInput (e : NativeEvent) | GestureInput (e : NativeEvent)
| WheelInput (e : NativeWebWheelEvent) | TouchInput (e : TouchEvent)
| Suspend | Resume | DoAfterMouseEvents (action : nat)
| Launch
| WorkQueueRuns | MainRunsTask (core : bool) | MainRunsMessage (other core : bool)
| MenuOrDrag (menu drag : bool)
| DidStartDrag | ShowContextMenu (automated : bool)
| PageReceives
| ProcessExits.

(** Input events come with the types of their classes (the constructors assert it).  The web
    process may show a menu and start or end a drag at any time ([MenuOrDrag]: its flags),
    and the page be told ([DidStartDrag], [ShowContextMenu]). *)
Inductive step : Event -> System -> System -> Prop :=
| step_mouse e s : kind (type e) = MouseKind -> step (MouseInput e) s (perform (handleMouseEvent windowIsFrontWindowUnderMouse e) s)
| step_key e s : kind (type e) = KeyKind -> step (KeyInput e) s (perform (handleKeyboardEvent e) s)
| step_gesture e s : kind (type e) = GestureKind -> step (GestureInput e) s (perform (handleGestureEvent e) s)
| step_wheel e s : step (WheelInput e) s (perform (handleWheelEvent platformGTK e) s)
| step_touch e s : kind (touchType e) = TouchKind -> step (TouchInput e) s (perform (handleTouchEvent e) s)
| step_suspend s : step Suspend s (perform suspendActiveDOMObjectsAndAnimations s)
| step_resume s : step Resume s (perform resumeActiveDOMObjectsAndAnimations s)
| step_doAfter a s : step (DoAfterMouseEvents a) s (perform (doAfterProcessingAllPendingMouseEvents a) s)
| step_launch s : hasRunningProcess (page s) = false -> step Launch s (perform launchProcess s)
| step_work m q s : workQueue (web s) = m :: q ->
    step WorkQueueRuns s (mkSystem (page s) (dispatchViaMainThread m ((web s) <| workQueue := q |>)))
| step_task m q core s : mainTasks (web s) = m :: q ->
    step (MainRunsTask core) s (mkSystem (page s) (runTask m true core ((web s) <| mainTasks := q |>)))
| step_message m q other core s : connectionQueue (web s) = m :: q ->
    step (MainRunsMessage other core) s (mkSystem (page s) (runMessage m other core ((web s) <| connectionQueue := q |>)))
| step_menuOrDrag menu drag s :
    step (MenuOrDrag menu drag) s (mkSystem (page s) ((web s) <| m_isShowingContextMenu := menu |> <| m_isStartingDrag := drag |>))
| step_didStartDrag s : step DidStartDrag s (perform didStartDrag s)
| step_showContextMenu automated s : step (ShowContextMenu automated) s (perform (showContextMenu automated) s)
| step_receive t handled q s : replies (web s) = (t, handled) :: q ->
    step PageReceives s (perform (didReceiveEvent windowIsFrontWindowUnderMouse t handled) (mkSystem (page s) ((web s) <| replies := q |>)))
| step_exit s : step ProcessExits s (mkSystem (resetStateAfterProcessExited (page s)) emptyWeb).

Inductive steps : list Event -> System -> System -> Prop :=
| steps_nil s : steps [] s s
| steps_cons e h s s1 s2 : step e s s1 -> steps h s1 s2 -> steps (e :: h) s s2.

Definition initial : System := mkSystem create emptyWeb.

(** *** What is under way *)

(** The events of a kind the page waits for, oldest first. *)
Definition expected (k : Kind) (p : Page) : list EventType :=
  match k with
  | NoKind => []
  | MouseKind => take 1 (map type (m_mouseEventQueue p))
  | KeyKind => take 1 (map type (m_keyEventQueue p))
  | WheelKind => map (fun _ => Wheel) (WebWheelEventCoalescer.m_eventsBeingProcessed (wheelEventCoalescer p))
  | TouchKind => map (fun q => touchType (forwardedEvent q)) (m_touchEventQueue p)
  | GestureKind => map type (m_gestureEventQueue p)
  end.

Definition ofKind (k : Kind) (l : list EventType) : list EventType := filter (fun t => kind t = k) l.

Arguments ofKind : simpl never.

(** The events of a kind between the page and its own messages: answered, being handled,
    or on their way. *)
Definition inflight (k : Kind) (w : Web) : list EventType :=
  ofKind k (map fst (replies w) ++ map typeOf (connectionQueue w) ++ map typeOf (mainTasks w) ++ map typeOf (workQueue w)).

Definition toDispatcher (m : ToWeb) : bool := match m with SendWheel _ | SendGesture _ => true | _ => false end.
Definition wellTyped (m : ToWeb) : Prop :=
  match m with
  | SendMouse e => kind (type e) = MouseKind | SendKey e => kind (type e) = KeyKind
  | SendGesture e => kind (type e) = GestureKind | SendTouch e => kind (touchType e) = TouchKind | SendWheel _ => True
  end.

Record routed (w : Web) : Prop := {
  routed_connection : Forall (fun m => toDispatcher m = false /\ wellTyped m) (connectionQueue w);
  routed_tasks : Forall (fun m => toDispatcher m = true /\ wellTyped m) (mainTasks w);
  routed_work : Forall (fun m => toDispatcher m = true /\ wellTyped m) (workQueue w) }.

(** The queues of a page hold events of their own kinds, and none without a process. *)
Record queues_ok (p : Page) : Prop := {
  mouse_ok : Forall (fun e => kind (type e) = MouseKind) (m_mouseEventQueue p);
  key_ok : Forall (fun e => kind (type e) = KeyKind) (m_keyEventQueue p);
  gesture_ok : Forall (fun e => kind (type e) = GestureKind) (m_gestureEventQueue p);
  touch_ok : Forall (fun q => kind (touchType (forwardedEvent q)) = TouchKind) (m_touchEventQueue p);
  stopped_ok : hasRunningProcess p = false -> forall k, k <> GestureKind -> expected k p = [] }.

(** No message of the web process was found invalid. *)
Definition accepted (l : list Output) : bool := forallb (fun o => match o with InvalidMessage => false | _ => true end) l.

(** [p'] comes from [p] by sending [l]: the page waits for what it sent, and no message was
    invalid. *)
Definition sends_what_it_expects (p p' : Page) (l : list Output) : Prop :=
  output p' = output p ++ l /\ accepted l = true /\ Forall wellTyped (sends l) /\
  forall k, expected k p' = expected k p ++ ofKind k (map typeOf (sends l)).

(** *** The page's operations *)

Lemma swe_refl p : sends_what_it_expects p p [].
Proof. split; [by rewrite app_nil_r|]. split; [done|]. split; [done|]. intros k. cbn. by rewrite app_nil_r. Qed.

Lemma swe_trans p1 p2 p3 l1 l2 :
  sends_what_it_expects p1 p2 l1 -> sends_what_it_expects p2 p3 l2 -> sends_what_it_expects p1 p3 (l1 ++ l2).
Proof.
  intros (Ho1 & Hi1 & Hw1 & He1) (Ho2 & Hi2 & Hw2 & He2). split; [by rewrite Ho2, Ho1, app_assoc|].
  split; [unfold accepted in *; by rewrite forallb_app, Hi1, Hi2|]. unfold sends in *. rewrite omap_app. split; [by apply Forall_app|].
  intros k. rewrite He2, He1, map_app, <- app_assoc. f_equal. unfold ofKind. by rewrite filter_app.
Qed.

(** Outputs that send nothing, with nothing more to wait for. *)
Lemma swe_quiet p p' l :
  output p' = output p ++ l -> accepted l = true -> sends l = [] -> (forall k, expected k p' = expected k p) ->
  sends_what_it_expects p p' l.
Proof. intros Ho Hi Hs He. split; [done|]. split; [done|]. rewrite Hs. split; [done|]. intros k. cbn. by rewrite app_nil_r. Qed.

Lemma ofKind_single k t : ofKind k [t] = if decide (kind t = k) then [t] else [].
Proof. unfold ofKind. rewrite filter_cons. by destruct (decide _). Qed.

(** One message is sent, and its event is waited for. *)
Lemma swe_one p p' l m :
  output p' = output p ++ l -> accepted l = true -> sends l = [m] -> wellTyped m ->
  expected (kind (typeOf m)) p' = expected (kind (typeOf m)) p ++ [typeOf m] ->
  (forall k, k <> kind (typeOf m) -> expected k p' = expected k p) ->
  sends_what_it_expects p p' l.
Proof.
  intros Ho Hi Hs Hw He Hother. split; [done|]. split; [done|]. rewrite Hs. split; [by constructor|].
  intros k. cbn. rewrite ofKind_single. destruct (decide _) as [<-|Hk]; [done|]. rewrite app_nil_r. by apply Hother.
Qed.

Lemma sublist_rev {A} (l1 l2 : list A) : sublist l1 l2 -> sublist (rev l1) (rev l2).
Proof.
  induction 1 as [|x l1 l2 _ IH|x l1 l2 _ IH]; cbn; [done | by apply sublist_app |].
  rewrite <- (app_nil_r (rev l1)). apply sublist_app; [done|]. apply sublist_nil_l.
Qed.

Lemma sublist_same_length {A} (l1 l2 : list A) : sublist l1 l2 -> length l1 = length l2 -> l1 = l2.
Proof.
  induction 1 as [|x l1 l2 _ IH|x l1 l2 Hs _]; cbn; intros Hl; [done | f_equal; apply IH; lia |].
  apply sublist_length in Hs. lia.
Qed.

Lemma Forall_sublist {A} (P : A -> Prop) (l1 l2 : list A) : sublist l1 l2 -> Forall P l2 -> Forall P l1.
Proof. induction 1; rewrite ?Forall_cons; [done | intros []; auto..]. Qed.

Lemma removeNewest_sublist t l l' : removeNewest t l = Some l' -> sublist l' l.
Proof.
  revert l'. induction l as [|e l IH]; intros l' Hr; cbn in Hr; [done|].
  destruct (bool_decide _); [injection Hr as <-; by constructor|]. destruct (negb _); [done|].
  destruct (removeNewest t l); [|done]. injection Hr as <-. constructor. by apply IH.
Qed.

(** The event being handled stays, the rest of the queue only loses events. *)
Lemma removeOldRedundantEvent_shape t q :
  match q with
  | [] => removeOldRedundantEvent t q = []
  | first :: rest => exists kept, removeOldRedundantEvent t q = first :: kept /\ sublist kept rest
  end.
Proof.
  destruct q as [|first rest]; unfold removeOldRedundantEvent; destruct (negb _); try done; [by exists rest|].
  destruct (removeNewest t (rev rest)) as [kept|] eqn:Hr; [|by exists rest].
  exists (rev kept). split; [done|]. apply removeNewest_sublist in Hr.
  rewrite <- (rev_involutive rest). by apply sublist_rev.
Qed.

Lemma processNext_sends p first rest :
  hasRunningProcess p = true -> m_mouseEventQueue p = first :: rest ->
  exists l, processNextQueuedMouseEvent windowIsFrontWindowUnderMouse p = emit l p /\ sends l = [SendMouse first] /\ accepted l = true.
Proof.
  intros Hr Hq. unfold processNextQueuedMouseEvent. rewrite Hr, Hq. cbn.
  set (tip := windowIsFrontWindowUnderMouse first). set (lazy := bool_decide (type first = MouseDown) || _ || _).
  set (moves := bool_decide (type first <> MouseMove)).
  exists ((if tip then [ClearToolTip] else []) ++ (if lazy then [StartResponsivenessTimer true] else if moves then [StartResponsivenessTimer false] else []) ++ [Send (SendMouse first)]).
  unfold emit. destruct p; cbn. destruct tip, lazy, moves; cbn; rewrite <- ?app_assoc; repeat split; done.
Qed.

(** A page whose queues are as before keeps its invariant. *)
Lemma queues_ok_launch p : queues_ok p -> queues_ok (launchInitialProcessIfNecessary p) /\
  exists l, sends_what_it_expects p (launchInitialProcessIfNecessary p) l.
Proof.
  intros [Hm Hk Hg Ht Hs]. unfold launchInitialProcessIfNecessary. destruct (isDummyProcess p) eqn:Hd.
  - split; [by split|]. exists [LaunchProcess]. by apply swe_quiet; [..|intros []].
  - split; [by split|]. exists []. apply swe_refl.
Qed.

Lemma handleMouse_sends e p :
  queues_ok p -> kind (type e) = MouseKind ->
  queues_ok (handleMouseEvent windowIsFrontWindowUnderMouse e p) /\
  exists l, sends_what_it_expects p (handleMouseEvent windowIsFrontWindowUnderMouse e p) l.
Proof.
  intros Hok Hk. unfold handleMouseEvent. set (p1 := if bool_decide _ then _ else p).
  assert (queues_ok p1 /\ exists l, sends_what_it_expects p p1 l) as [Hok1 [l1 Hl1]].
  { subst p1. destruct (bool_decide _); [by apply queues_ok_launch|]. split; [done|]. exists []. apply swe_refl. }
  clearbody p1. destruct (hasRunningProcess p1) eqn:Hr; cbn [negb]; [|by split; [|exists l1]].
  destruct Hok1 as [Hm Hk1 Hg Ht Hs]. pose proof (removeOldRedundantEvent_shape (type e) (m_mouseEventQueue p1)) as Hshape.
  destruct (m_mouseEventQueue p1) as [|first rest] eqn:Hq.
  - rewrite Hshape. cbn [app length]. rewrite bool_decide_true by done.
    pose proof (processNext_sends (p1 <| m_mouseEventQueue := [e] |>) e []) as Hn.
    destruct (Hn Hr eq_refl) as (l2 & Hl2 & Hsend & Hi).
    cbn in Hl2. cbn. rewrite Hl2. split; [split; cbn; try done; [by constructor | by rewrite Hr]|].
    exists (l1 ++ l2). apply (swe_trans _ p1); [done|]. apply (swe_one _ _ _ (SendMouse e)); try done; cbn; rewrite Hk; cbn.
    + by rewrite Hq.
    + by intros [].
  - destruct Hshape as (kept & Hkept & Hsub). rewrite Hkept. rewrite bool_decide_false by (cbn; rewrite length_app; cbn; lia).
    split.
    + split; cbn; try done; [|by rewrite Hr]. apply Forall_cons in Hm as [Hf Hrest]. constructor; [done|].
      apply Forall_app. split; [|by constructor]. by eapply Forall_sublist.
    + exists (l1 ++ []). apply (swe_trans _ p1); [done|]. split; [cbn; by rewrite app_nil_r|]. split; [done|].
      split; [done|]. intros []; cbn; rewrite ?Hq, ?app_nil_r; done.
Qed.

Lemma handleKey_sends e p :
  queues_ok p -> kind (type e) = KeyKind ->
  queues_ok (handleKeyboardEvent e p) /\ exists l, sends_what_it_expects p (handleKeyboardEvent e p) l.
Proof.
  intros Hok Hk. unfold handleKeyboardEvent. destruct (hasRunningProcess p) eqn:Hr; cbn [negb]; [|by split; [|exists []; apply swe_refl]].
  destruct Hok as [Hm Hk1 Hg Ht Hs]. split.
  - destruct (bool_decide _); split; cbn; try done; try (apply Forall_app; split; [done|by constructor]); by rewrite Hr.
  - destruct (m_keyEventQueue p) as [|first rest] eqn:Hq; cbn.
    + rewrite bool_decide_true by done. eexists. apply (swe_one _ _ _ (SendKey e)); cbn; [by rewrite <- app_assoc | done.. | |];
        rewrite Hk; cbn; [by rewrite Hq | by intros []].
    + rewrite bool_decide_false by (rewrite length_app; cbn; lia). eexists. apply swe_quiet; try done.
      intros []; cbn; rewrite ?Hq; done.
Qed.

Lemma handleGesture_sends e p :
  queues_ok p -> kind (type e) = GestureKind ->
  queues_ok (handleGestureEvent e p) /\ exists l, sends_what_it_expects p (handleGestureEvent e p) l.
Proof.
  intros Hok Hk. unfold handleGestureEvent. destruct (hasRunningProcess p) eqn:Hr; cbn [negb]; [|by split; [|exists []; apply swe_refl]].
  destruct Hok as [Hm Hk1 Hg Ht Hs]. split.
  - split; cbn; try done; [|by rewrite Hr]. apply Forall_app. split; [done|by constructor].
  - eexists. apply (swe_one _ _ _ (SendGesture e)); try done; cbn; rewrite Hk; cbn; [by rewrite map_app | by intros []].
Qed.

Lemma handleTouch_sends e p :
  queues_ok p -> kind (touchType e) = TouchKind ->
  queues_ok (handleTouchEvent e p) /\ exists l, sends_what_it_expects p (handleTouchEvent e p) l.
Proof.
  intros Hok Hk. unfold handleTouchEvent. destruct (hasRunningProcess p) eqn:Hr; cbn [negb]; [|by split; [|exists []; apply swe_refl]].
  destruct Hok as [Hm Hk1 Hg Ht Hs].
  destruct (bool_decide _).
  { split; [split; cbn; try done; by rewrite Hr|]. exists []. apply swe_quiet; [by rewrite app_nil_r | done.. |]. by intros []. }
  cbn. destruct (m_isPageSuspended p); cbn.
  - assert (Hd : forall q, map (fun q => touchType (forwardedEvent q)) (deferToLast e q) = map (fun q => touchType (forwardedEvent q)) q).
    { intros q. induction q as [|q1 [|q2 q] IH]; [done..|]. cbn [deferToLast map] in *. by rewrite IH. }
    assert (Hf : forall q, Forall (fun q => kind (touchType (forwardedEvent q)) = TouchKind) q ->
      Forall (fun q => kind (touchType (forwardedEvent q)) = TouchKind) (deferToLast e q)).
    { intros q. induction q as [|q1 [|q2 q] IH]; intros Hq; [done | by repeat constructor; inversion Hq |].
      inversion Hq; subst. constructor; auto. }
    destruct (m_touchEventQueue p) as [|q1 q] eqn:Hq.
    + destruct (allTouchPointsAreReleased e); (split; [split; cbn; rewrite ?Hq, ?Hr; done|]);
        eexists; apply swe_quiet; try done; by intros [].
    + destruct (allTouchPointsAreReleased e); (split; [split; cbn -[deferToLast]; try done; [by apply Hf | by rewrite Hr]|]);
        exists []; (apply swe_quiet; [by rewrite app_nil_r | done.. |]); intros []; cbn -[deferToLast]; rewrite ?Hd, ?Hq; done.
  - destruct (allTouchPointsAreReleased e); (split; [split; cbn; try done; [apply Forall_app; split; [done|by constructor] | by rewrite Hr]|]);
      eexists; (apply (swe_one _ _ _ (SendTouch e)); try done; cbn; rewrite Hk; cbn; [by rewrite map_app | by intros []]).
Qed.

Lemma dispatchNext_sends p c :
  hasRunningProcess p = true -> queues_ok p ->
  forall p', p' = (let '(c, next) := WebWheelEventCoalescer.nextEventToDispatch c in
                   let p := p <| m_wheelEventCoalescer := Some c |> in
                   match next with Some e => sendWheelEvent e p | None => emit [EventsFlushed Wheel] p end) \/
             p' = (let '(c, next) := WebWheelEventCoalescer.nextEventToDispatch c in
                   let p := p <| m_wheelEventCoalescer := Some c |> in
                   match next with Some e => sendWheelEvent e p | None => p end) ->
  queues_ok p' /\ exists l, sends_what_it_expects (p <| m_wheelEventCoalescer := Some c |>) p' l.
Proof.
  intros Hr [Hm Hk1 Hg Ht Hs] p' Hp'.
  destruct (WebWheelEventCoalescer.nextEventToDispatch c) as [c' next] eqn:Hn.
  apply WebWheelEventCoalescer.nextEventToDispatch_spec in Hn. destruct next as [e|].
  - destruct Hn as (sequence & Hq & Hne & Hmerge & Hproc). destruct Hp' as [-> | ->];
      (split; [split; cbn; try done; by rewrite Hr|]);
      eexists; (apply (swe_one _ _ _ (SendWheel e)); try done; [|by intros []]); cbn; by rewrite Hproc, map_app.
  - destruct Hn as [Hq ->]. destruct Hp' as [-> | ->]; (split; [split; cbn; try done; by rewrite Hr|]).
    + eexists. by apply swe_quiet; [..|intros []].
    + exists []. apply swe_refl.
Qed.

Lemma handleWheel_sends e p :
  queues_ok p -> queues_ok (handleWheelEvent platformGTK e p) /\ exists l, sends_what_it_expects p (handleWheelEvent platformGTK e p) l.
Proof.
  intros Hok. unfold handleWheelEvent. destruct (hasRunningProcess p) eqn:Hr; cbn [negb]; [|by split; [|exists []; apply swe_refl]].
  set (p1 := emit _ p). destruct (WebWheelEventCoalescer.shouldDispatchEvent _ _ _) as [c dispatch] eqn:Hc.
  assert (Hproc : WebWheelEventCoalescer.m_eventsBeingProcessed c = WebWheelEventCoalescer.m_eventsBeingProcessed (wheelEventCoalescer p)).
  { unfold WebWheelEventCoalescer.shouldDispatchEvent in Hc. destruct (_ && _); by injection Hc as <- <-. }
  assert (Hok1 : queues_ok p1) by (destruct Hok; split; cbn; try done; by rewrite Hr).
  assert (Hswe : exists l, sends_what_it_expects p (p1 <| m_wheelEventCoalescer := Some c |>) l).
  { eexists. apply swe_quiet; try done. intros []; cbn; try done. by rewrite Hproc. }
  destruct Hswe as [l1 Hswe]. destruct dispatch.
  - destruct (dispatchNext_sends p1 c Hr Hok1 _ (or_intror eq_refl)) as [Hok2 [l2 Hl2]].
    split; [done|]. exists (l1 ++ l2). by apply (swe_trans _ (p1 <| m_wheelEventCoalescer := Some c |>)).
  - split; [destruct Hok1; split; cbn; try done; by rewrite Hr|]. by exists l1.
Qed.

(** The event being handled is not discarded. *)
Lemma discard_sends p :
  queues_ok p -> queues_ok (discardQueuedMouseEvents p) /\ exists l, sends_what_it_expects p (discardQueuedMouseEvents p) l.
Proof.
  intros [Hm Hk Hg Ht Hs].
  assert (He : forall k, expected k (discardQueuedMouseEvents p) = expected k p).
  { intros []; try done. unfold expected, discardQueuedMouseEvents. cbn. by destruct (m_mouseEventQueue p). }
  split.
  - split; try done; [by apply Forall_take|]. intros Hf k Hne. by rewrite He, (Hs Hf k Hne).
  - eexists. by apply swe_quiet.
Qed.

(** An awaited answer is taken and the next event sent. *)
Definition answers (t : EventType) (p p' : Page) (l : list Output) : Prop :=
  output p' = output p ++ l /\ accepted l = true /\ Forall wellTyped (sends l) /\
  forall k, (if decide (k = kind t) then t :: expected k p' else expected k p') =
    expected k p ++ ofKind k (map typeOf (sends l)).

Lemma swe_answers t p p1 p2 l1 l2 :
  sends_what_it_expects p p1 l1 -> answers t p1 p2 l2 -> answers t p p2 (l1 ++ l2).
Proof.
  intros (Ho1 & Hi1 & Hw1 & He1) (Ho2 & Hi2 & Hw2 & He2). split; [by rewrite Ho2, Ho1, app_assoc|].
  split; [unfold accepted in *; by rewrite forallb_app, Hi1, Hi2|]. unfold sends in *. rewrite omap_app. split; [by apply Forall_app|].
  intros k. rewrite He2, He1, map_app, <- app_assoc. f_equal. unfold ofKind. by rewrite filter_app.
Qed.

Lemma answers_swe t p p1 p2 l1 l2 :
  answers t p p1 l1 -> sends_what_it_expects p1 p2 l2 -> answers t p p2 (l1 ++ l2).
Proof.
  intros (Ho1 & Hi1 & Hw1 & He1) (Ho2 & Hi2 & Hw2 & He2). split; [by rewrite Ho2, Ho1, app_assoc|].
  split; [unfold accepted in *; by rewrite forallb_app, Hi1, Hi2|]. unfold sends in *. rewrite omap_app. split; [by apply Forall_app|].
  intros k. specialize (He1 k). rewrite He2, map_app. unfold ofKind in *. rewrite filter_app, app_assoc, <- He1.
  by destruct (decide _).
Qed.

(** The answer is taken, and at most one more event of the same kind is sent. *)
Lemma answers_next t p p' l next :
  output p' = output p ++ l -> accepted l = true -> sends l = next -> Forall wellTyped next ->
  ofKind (kind t) (map typeOf next) = map typeOf next ->
  t :: expected (kind t) p' = expected (kind t) p ++ map typeOf next ->
  (forall k, k <> kind t -> expected k p' = expected k p /\ ofKind k (map typeOf next) = []) ->
  answers t p p' l.
Proof.
  intros Ho Hi Hs Hw Hsame He Hother. split; [done|]. split; [done|]. rewrite Hs. split; [done|].
  intros k. destruct (decide (k = kind t)) as [->|Hk]; [by rewrite Hsame|].
  destruct (Hother k Hk) as [-> ->]. by rewrite app_nil_r.
Qed.

Lemma didReceiveMouse_answers t p rest :
  queues_ok p -> hasRunningProcess p = true -> kind t = MouseKind -> expected MouseKind p = t :: rest ->
  queues_ok (didReceiveMouse windowIsFrontWindowUnderMouse t p) /\
  exists l, answers t p (didReceiveMouse windowIsFrontWindowUnderMouse t p) l.
Proof.
  intros [Hm Hk1 Hg Ht Hs] Hr Hk He. unfold didReceiveMouse. cbn in He.
  destruct (m_mouseEventQueue p) as [|event queue] eqn:Hq; [done|]. injection He as <- _.
  rewrite bool_decide_false by congruence. apply Forall_cons in Hm as [Hm1 Hm2].
  destruct queue as [|second queue].
  - split; [split; cbn; try done; by rewrite Hr|]. eexists.
    apply (answers_next _ _ _ ([EventsFlushed MouseDown] ++ map RunCallback (m_callbackHandlersAfterProcessingPendingMouseEvents p)) []);
      [| | |done|done| |].
    + cbn. by rewrite <- app_assoc.
    + cbn. unfold accepted. by rewrite forallb_forall; intros x Hx; apply in_map_iff in Hx as (? & <- & _).
    + cbn. by induction (m_callbackHandlersAfterProcessingPendingMouseEvents p).
    + rewrite Hk. cbn. by rewrite Hq.
    + rewrite Hk. by intros [].
  - pose proof (processNext_sends (p <| m_mouseEventQueue := second :: queue |>) second queue) as Hn.
    destruct (Hn Hr eq_refl) as (l & Hl & Hsend & Hi). cbn in Hl. cbn. rewrite Hl. apply Forall_cons in Hm2 as [Hm2 Hm3].
    split; [split; cbn; try done; [by constructor | by rewrite Hr]|]. exists l.
    apply (answers_next _ _ _ _ [SendMouse second]); try done; cbn.
    + by constructor.
    + rewrite ofKind_single, decide_True; [done|congruence].
    + rewrite Hk. cbn. by rewrite Hq.
    + rewrite Hk. intros k Hne. rewrite ofKind_single, decide_False by congruence. by destruct k.
Qed.

Lemma didReceiveKey_answers t handled p rest :
  queues_ok p -> hasRunningProcess p = true -> kind t = KeyKind -> expected KeyKind p = t :: rest ->
  queues_ok (didReceiveKey t handled p) /\ exists l, answers t p (didReceiveKey t handled p) l.
Proof.
  intros [Hm Hk1 Hg Ht Hs] Hr Hk He. unfold didReceiveKey. cbn in He.
  destruct (m_keyEventQueue p) as [|event queue] eqn:Hq; [done|]. injection He as <- _.
  rewrite bool_decide_false by congruence. apply Forall_cons in Hk1 as [Hk1 Hk2].
  destruct queue as [|second queue].
  - destruct handled; (split; [split; cbn; try done; by rewrite Hr|]); eexists;
      (apply (answers_next _ _ _ _ []); [cbn; by rewrite <- ?app_assoc | done.. | rewrite Hk; cbn; by rewrite Hq | rewrite Hk; by intros []]).
  - apply Forall_cons in Hk2 as [Hk2 Hk3].
    destruct handled; (split; [split; cbn; try done; [by constructor | by rewrite Hr]|]); eexists;
      (apply (answers_next _ _ _ _ [SendKey second]); [cbn; by rewrite <- ?app_assoc | done | done | by constructor | | |]; cbn;
       [rewrite ofKind_single, decide_True; [done|congruence] | rewrite Hk; cbn; by rewrite Hq |
        rewrite Hk; intros k Hne; rewrite ofKind_single, decide_False by congruence; by destruct k]).
Qed.

Lemma didReceiveGesture_answers t handled p rest :
  queues_ok p -> kind t = GestureKind -> expected GestureKind p = t :: rest ->
  queues_ok (didReceiveGesture t handled p) /\ exists l, answers t p (didReceiveGesture t handled p) l.
Proof.
  intros [Hm Hk1 Hg Ht Hs] Hk He. unfold didReceiveGesture. cbn in He.
  destruct (m_gestureEventQueue p) as [|event queue] eqn:Hq; [done|]. injection He as <- _.
  rewrite bool_decide_false by congruence. apply Forall_cons in Hg as [_ Hg2].
  assert (Hstop : hasRunningProcess p = false -> forall k, k <> GestureKind -> expected k (p <| m_gestureEventQueue := queue |>) = []).
  { intros Hf [] Hne; try done; exact (Hs Hf _ Hne). }
  destruct handled; (split; [by split|]); [exists []|eexists];
    (apply (answers_next _ _ _ _ []); [first [done | by rewrite app_nil_r] | done.. | rewrite Hk; cbn; by rewrite Hq, app_nil_r | rewrite Hk; by intros []]).
Qed.

Lemma didReceiveTouch_answers t handled p rest :
  queues_ok p -> hasRunningProcess p = true -> kind t = TouchKind -> expected TouchKind p = t :: rest ->
  queues_ok (didReceiveTouch t handled p) /\ exists l, answers t p (didReceiveTouch t handled p) l.
Proof.
  intros [Hm Hk1 Hg Ht Hs] Hr Hk He. unfold didReceiveTouch. cbn in He.
  destruct (m_touchEventQueue p) as [|event queue] eqn:Hq; [done|]. injection He as <- _.
  rewrite bool_decide_false by congruence. apply Forall_cons in Ht as [_ Ht2].
  split; [split; cbn; try done; by rewrite Hr|]. eexists.
  apply (answers_next _ _ _ _ []); [done | | |done|done| |]; cbn.
  - unfold accepted. by rewrite forallb_forall; intros x Hx; apply in_map_iff in Hx as (? & <- & _).
  - by induction (deferredTouchEvents event).
  - rewrite Hk. cbn. by rewrite Hq, app_nil_r.
  - rewrite Hk. by intros [].
Qed.

Lemma didReceiveWheel_answers handled p rest :
  queues_ok p -> hasRunningProcess p = true -> expected WheelKind p = Wheel :: rest ->
  queues_ok (didReceiveWheel handled p) /\ exists l, answers Wheel p (didReceiveWheel handled p) l.
Proof.
  intros [Hm Hk1 Hg Ht Hs] Hr He. unfold didReceiveWheel. cbn in He. set (c := wheelEventCoalescer p) in *.
  change (wheelEventCoalescer (p <| m_wheelEventCoalescer := Some c |>)) with c.
  unfold WebWheelEventCoalescer.hasEventsBeingProcessed, WebWheelEventCoalescer.takeOldestEventBeingProcessed.
  destruct (WebWheelEventCoalescer.m_eventsBeingProcessed c) as [|sequence sequences] eqn:Hc; [done|]. cbn [negb].
  set (c1 := c <| WebWheelEventCoalescer.m_eventsBeingProcessed := sequences |>).
  set (p1 := match last sequence with Some e => _ | None => _ end).
  assert (Hp1 : queues_ok p1 /\ hasRunningProcess p1 = true /\ m_wheelEventCoalescer p1 = Some c1 /\ exists l, answers Wheel p p1 l).
  { assert (Ha : forall l (p1 : Page), output p1 = output p ++ l -> accepted l = true -> sends l = [] ->
      expected WheelKind p1 = rest -> (forall k, k <> WheelKind -> expected k p1 = expected k p) -> answers Wheel p p1 l).
    { intros l p' Ho Hi Hsend Hw Hother. apply (answers_next _ _ _ _ []); try done; cbn [kind].
      - rewrite Hw, app_nil_r. unfold expected. fold c. by rewrite Hc.
      - intros k Hk. split; [by apply Hother|done]. }
    injection He as He. destruct p; cbn in Hr; subst.
    subst p1. destruct (last sequence), handled; cbn; (split; [by split|]); (split; [done|]); (split; [done|]);
      [exists [] | eexists | exists [] | exists []]; (apply Ha; [first [done | by rewrite app_nil_r] | done.. | by intros []]). }
  clearbody p1. destruct Hp1 as (Hok1 & Hr1 & Hc1 & l1 & Hl1).
  destruct (dispatchNext_sends p1 c1 Hr1 Hok1 _ (or_introl eq_refl)) as [Hok2 [l2 Hl2]].
  split; [done|]. exists (l1 ++ l2). eapply answers_swe; [exact Hl1|].
  assert (p1 <| m_wheelEventCoalescer := Some c1 |> = p1) as Heq by (destruct p1; cbn in *; by subst).
  by rewrite Heq in Hl2.
Qed.


Lemma queues_ok_emit l p : queues_ok p -> queues_ok (emit l p).
Proof. intros [Hm Hk Hg Ht Hs]. split; [done..|]. intros Hf k Hne. rewrite <- (Hs Hf k Hne). by destruct k. Qed.

Lemma didReceiveEvent_answers t handled p rest :
  queues_ok p -> expected (kind t) p = t :: rest ->
  queues_ok (didReceiveEvent windowIsFrontWindowUnderMouse t handled p) /\
  exists l, answers t p (didReceiveEvent windowIsFrontWindowUnderMouse t handled p) l.
Proof.
  intros Hok He. unfold didReceiveEvent. set (p1 := if stopsTimer t then _ else p).
  assert (Hp1 : queues_ok p1 /\ expected (kind t) p1 = t :: rest /\ exists l, sends_what_it_expects p p1 l).
  { subst p1. destruct (stopsTimer t); [|by split; [done|]; split; [done|]; exists []; apply swe_refl].
    split; [by apply queues_ok_emit|]. split; [by rewrite <- He; destruct (kind t)|].
    eexists. by apply swe_quiet; [..|intros []]. }
  clearbody p1. destruct Hp1 as (Hok1 & He1 & l1 & Hl1).
  assert (Hr1 : kind t <> GestureKind -> hasRunningProcess p1 = true).
  { intros Hne. destruct (hasRunningProcess p1) eqn:Hr; [done|]. by rewrite (stopped_ok p1 Hok1 Hr) in He1. }
  enough (Hgoal : forall p', queues_ok p' /\ (exists l, answers t p1 p' l) -> queues_ok p' /\ exists l, answers t p p' l).
  { destruct (kind t) eqn:Hk; [done| | | | |]; apply Hgoal.
    - eapply didReceiveMouse_answers; eauto.
    - destruct t; try done. eapply didReceiveWheel_answers; eauto.
    - eapply didReceiveKey_answers; eauto.
    - eapply didReceiveTouch_answers; eauto.
    - eapply didReceiveGesture_answers; eauto. }
  intros p' [Hok' [l Hl]]. split; [done|]. exists (l1 ++ l). by eapply swe_answers.
Qed.

(** *** The web process *)

Definition dispatcherKind (k : Kind) : bool := match k with WheelKind | GestureKind => true | _ => false end.

Lemma wellTyped_kind m : wellTyped m -> dispatcherKind (kind (typeOf m)) = toDispatcher m.
Proof. destruct m; cbn; intros Hm; rewrite ?Hm; done. Qed.

Lemma ofKind_app k l1 l2 : ofKind k (l1 ++ l2) = ofKind k l1 ++ ofKind k l2.
Proof. unfold ofKind. by rewrite filter_app. Qed.

Lemma ofKind_cons k t l : ofKind k (t :: l) = ofKind k [t] ++ ofKind k l.
Proof. by rewrite <- ofKind_app. Qed.

(** Messages on the wrong queue are of other kinds. *)
Lemma ofKind_other k b l :
  Forall (fun m => toDispatcher m = b /\ wellTyped m) l -> dispatcherKind k <> b -> ofKind k (map typeOf l) = [].
Proof.
  intros Hl Hk. induction Hl as [|m l [Hm Hw] _ IH]; [done|]. cbn.
  rewrite ofKind_cons, IH, app_nil_r, ofKind_single. destruct (decide _) as [<-|]; [|done].
  by rewrite (wellTyped_kind m Hw) in Hk.
Qed.

Lemma inflight_deliver k w m :
  routed w -> wellTyped m -> routed (deliver w m) /\ inflight k (deliver w m) = inflight k w ++ ofKind k [typeOf m].
Proof.
  intros [Hc Ht Hw] Hm. destruct (toDispatcher m) eqn:Hd.
  - assert (deliver w m = w <| workQueue := workQueue w ++ [m] |>) as -> by (by destruct m).
    split; [split; cbn; try done; by apply Forall_app; split; [|constructor]|].
    unfold inflight. cbn. rewrite !map_app, !ofKind_app. cbn. by rewrite !app_assoc.
  - assert (deliver w m = w <| connectionQueue := connectionQueue w ++ [m] |>) as -> by (by destruct m).
    split; [split; cbn; try done; by apply Forall_app; split; [|constructor]|].
    unfold inflight. cbn. rewrite !map_app, !ofKind_app, !app_assoc. cbn. rewrite <- !app_assoc. do 2 f_equal.
    rewrite ofKind_single. destruct (decide _) as [<-|]; [|by rewrite !app_nil_r].
    assert (Hk : dispatcherKind (kind (typeOf m)) <> true) by (rewrite (wellTyped_kind m Hm); congruence).
    by rewrite (ofKind_other _ true (mainTasks w)), (ofKind_other _ true (workQueue w)).
Qed.

Lemma inflight_delivers ms : forall w,
  routed w -> Forall wellTyped ms ->
  routed (fold_left deliver ms w) /\ forall k, inflight k (fold_left deliver ms w) = inflight k w ++ ofKind k (map typeOf ms).
Proof.
  induction ms as [|m ms IH]; intros w Hw Hms; [split; [done|]; intros k; by rewrite app_nil_r|].
  apply Forall_cons in Hms as [Hm Hms]. cbn [fold_left map].
  destruct (IH (deliver w m) (proj1 (inflight_deliver NoKind w m Hw Hm)) Hms) as [Hr Hk]. split; [done|]. intros k.
  rewrite Hk, (proj2 (inflight_deliver k w m Hw Hm)), <- app_assoc, <- ofKind_app. done.
Qed.

(** *** The invariant

    What the page waits for is what is under way. *)
Record awaited (s : System) : Prop := {
  aw_queues : queues_ok (page s);
  aw_routed : routed (web s);
  aw_accepted : accepted (output (page s)) = true;
  aw_expected : forall k, expected k (page s) = inflight k (web s) }.

Lemma drop_output {A} (l l' : list A) : drop (length l) (l ++ l') = l'.
Proof. apply drop_app_length. Qed.

Lemma awaited_perform f s :
  awaited s -> queues_ok (f (page s)) -> (exists l, sends_what_it_expects (page s) (f (page s)) l) -> awaited (perform f s).
Proof.
  intros [Hq Hr Ha He] Hq' (l & Ho & Hi & Hw & Hl). unfold perform. rewrite Ho, drop_output.
  destruct (inflight_delivers (sends l) (web s) Hr Hw) as [Hr' Hk]. split; cbn; try done.
  - rewrite Ho. unfold accepted in *. by rewrite forallb_app, Ha, Hi.
  - intros k. by rewrite Hk, Hl, He.
Qed.

Lemma awaited_web s w :
  awaited s -> routed w -> (forall k, inflight k w = inflight k (web s)) -> awaited (mkSystem (page s) w).
Proof. intros [Hq Hr Ha He] Hw Hk. split; cbn; try done. intros k. by rewrite Hk, He. Qed.

Lemma awaited_task s m q core :
  awaited s -> mainTasks (web s) = m :: q ->
  awaited (mkSystem (page s) (runTask m true core ((web s) <| mainTasks := q |>))).
Proof.
  intros Haw Hm. destruct (aw_routed s Haw) as [Hc Ht Hw]. rewrite Hm in Ht. apply Forall_cons in Ht as [[Hd Hwt] Ht].
  assert (runTask m true core ((web s) <| mainTasks := q |>) = (web s) <| mainTasks := q |> <| replies := replies (web s) ++ [(typeOf m, core)] |>) as ->
    by (by destruct m).
  apply awaited_web; [done | by split |]. intros k. unfold inflight. cbn. rewrite Hm. cbn.
  rewrite !map_app, !ofKind_app, <- !app_assoc. f_equal. cbn. rewrite (ofKind_cons k (typeOf m) (_ ++ _)), ofKind_app.
  rewrite ofKind_single. destruct (decide _) as [<-|]; [|done].
  assert (Hk : dispatcherKind (kind (typeOf m)) <> false) by (rewrite (wellTyped_kind m Hwt); congruence).
  by rewrite (ofKind_other _ false (connectionQueue (web s))).
Qed.

Lemma awaited_message s m q other core :
  awaited s -> connectionQueue (web s) = m :: q ->
  awaited (mkSystem (page s) (runMessage m other core ((web s) <| connectionQueue := q |>))).
Proof.
  intros Haw Hm. destruct (aw_routed s Haw) as [Hc Ht Hw]. rewrite Hm in Hc. apply Forall_cons in Hc as [[Hd Hwt] Hc].
  assert (exists handled, runMessage m other core ((web s) <| connectionQueue := q |>) =
    (web s) <| connectionQueue := q |> <| replies := replies (web s) ++ [(typeOf m, handled)] |>) as [handled ->].
  { destruct m; cbn; try done; [unfold mouseEvent; cbn; destruct (_ || _)| |]; by eexists. }
  apply awaited_web; [done | by split |]. intros k. unfold inflight. cbn. rewrite Hm. cbn.
  rewrite map_app, <- app_assoc. done.
Qed.

Lemma awaited_work s m q :
  awaited s -> workQueue (web s) = m :: q ->
  awaited (mkSystem (page s) (dispatchViaMainThread m ((web s) <| workQueue := q |>))).
Proof.
  intros Haw Hm. destruct (aw_routed s Haw) as [Hc Ht Hw]. rewrite Hm in Hw. apply Forall_cons in Hw as [Hm' Hw].
  apply awaited_web; [done | split; cbn; try done; apply Forall_app; split; [done|by constructor] |].
  intros k. unfold inflight. cbn. rewrite Hm, map_app, <- app_assoc. done.
Qed.

(** A reply the page waits for keeps everything in step. *)
Lemma awaited_receive s t handled q :
  awaited s -> replies (web s) = (t, handled) :: q ->
  awaited (perform (didReceiveEvent windowIsFrontWindowUnderMouse t handled) (mkSystem (page s) ((web s) <| replies := q |>))).
Proof.
  intros [Hq Hr Ha He] Hrep.
  assert (Hin : forall k, inflight k (web s) = ofKind k [t] ++ inflight k ((web s) <| replies := q |>)).
  { intros k. unfold inflight. rewrite Hrep. cbn [map fst app]. by rewrite <- ofKind_app. }
  destruct (didReceiveEvent_answers t handled (page s) (inflight (kind t) ((web s) <| replies := q |>)) Hq) as [Hq' (l & Ho & Hi & Hw & Hl)].
  { rewrite He, Hin, ofKind_single, decide_True; done. }
  unfold perform. cbn [page web]. rewrite Ho, drop_output.
  destruct (inflight_delivers (sends l) ((web s) <| replies := q |>)) as [Hr' Hk]; [by destruct Hr|done|].
  split; cbn [page web]; try done.
  - rewrite Ho. unfold accepted in *. by rewrite forallb_app, Ha, Hi.
  - intros k. rewrite Hk. specialize (Hl k). rewrite He, Hin, ofKind_single in Hl.
    destruct (decide (k = kind t)) as [->|Hne].
    + rewrite decide_True in Hl by done. by injection Hl.
    + rewrite decide_False in Hl by congruence. done.
Qed.

Definition isGesture (e : Event) : bool := match e with GestureInput _ => true | _ => false end.
Definition isExit (e : Event) : bool := match e with ProcessExits => true | _ => false end.

Lemma awaited_initial : awaited initial.
Proof. split; [by split; try done; intros _ [] | by split | done | by intros []]. Qed.

(** The process exits; the page keeps its gesture events. *)
Lemma awaited_exit s :
  awaited s -> m_gestureEventQueue (page s) = [] -> awaited (mkSystem (resetStateAfterProcessExited (page s)) emptyWeb).
Proof.
  intros [[Hm Hk Hg Ht Hs] Hr Ha He] Hge. unfold resetStateAfterProcessExited.
  destruct (hasRunningProcess (page s)) eqn:Hrun; cbn [negb].
  - assert (Hn : forall k, expected k ((page s) <| hasRunningProcess := false |> <| m_isPageSuspended := false |> <| m_mouseEventQueue := [] |>
      <| m_keyEventQueue := [] |> <| m_wheelEventCoalescer := WebWheelEventCoalescer.clear <$> m_wheelEventCoalescer (page s) |> <| m_touchEventQueue := [] |>) = []).
    { intros []; cbn; try done; [|by rewrite Hge]. by destruct (m_wheelEventCoalescer (page s)). }
    split; cbn [page web]; [split; cbn; try done; intros _ k _; apply Hn | by split | done | intros k; rewrite Hn; by destruct k].
  - split; cbn [page web]; [by split; auto | by split | done |]. intros k.
    destruct (decide (k = GestureKind)) as [->|Hne]; [cbn; by rewrite Hge | by rewrite (Hs eq_refl)].
Qed.

Lemma awaited_step e s s' :
  awaited s -> (isExit e = true -> m_gestureEventQueue (page s) = []) -> step e s s' -> awaited s'.
Proof.
  intros Haw Hexit Hs. pose proof (aw_queues s Haw) as Hq. destruct Hs; cbn in Hexit.
  - destruct (handleMouse_sends e (page s) Hq) as [? ?]; [done|]. by apply awaited_perform.
  - destruct (handleKey_sends e (page s) Hq) as [? ?]; [done|]. by apply awaited_perform.
  - destruct (handleGesture_sends e (page s) Hq) as [? ?]; [done|]. by apply awaited_perform.
  - destruct (handleWheel_sends e (page s) Hq) as [? ?]. by apply awaited_perform.
  - destruct (handleTouch_sends e (page s) Hq) as [? ?]; [done|]. by apply awaited_perform.
  - apply awaited_perform; [done | |]; unfold suspendActiveDOMObjectsAndAnimations; destruct (_ || _); try done.
    + destruct Hq as [? ? ? ? Hs]. split; [done..|]. intros Hf k Hne. rewrite <- (Hs Hf k Hne). by destruct k.
    + exists []. apply swe_refl.
    + exists []. apply swe_quiet; [by rewrite app_nil_r | done.. | by intros []].
  - apply awaited_perform; [done | |]; unfold resumeActiveDOMObjectsAndAnimations; destruct (_ || _); try done.
    + destruct Hq as [? ? ? ? Hs]. split; [done..|]. intros Hf k Hne. rewrite <- (Hs Hf k Hne). by destruct k.
    + exists []. apply swe_refl.
    + exists []. apply swe_quiet; [by rewrite app_nil_r | done.. | by intros []].
  - apply awaited_perform; [done | |]; unfold doAfterProcessingAllPendingMouseEvents; destruct (negb _).
    + by apply queues_ok_emit.
    + destruct Hq as [? ? ? ? Hs]. split; [done..|]. intros Hf k Hne. rewrite <- (Hs Hf k Hne). by destruct k.
    + eexists. by apply swe_quiet; [..|intros []].
    + exists []. apply swe_quiet; [by rewrite app_nil_r | done.. | by intros []].
  - apply awaited_perform; [done | |].
    + destruct Hq. by split.
    + exists []. apply swe_quiet; [by rewrite app_nil_r | done.. | by intros []].
  - by apply awaited_work.
  - by apply awaited_task.
  - by apply awaited_message.
  - apply awaited_web; [done | by destruct (aw_routed s Haw) |]. done.
  - unfold didStartDrag. destruct (discard_sends (page s) Hq) as [? ?].
    apply awaited_perform; [done | |]; destruct (negb _); try done. exists []. apply swe_refl.
  - unfold showContextMenu. destruct (discard_sends (page s) Hq) as [? ?].
    apply awaited_perform; [done | |]; destruct automated; try done. exists []. apply swe_refl.
  - by apply awaited_receive.
  - apply awaited_exit; auto.
Qed.

(** *** What an operation leaves alone *)

Definition sentMouse (o : list Output) : list NativeEvent := omap (fun o => match o with Send (SendMouse e) => Some e | _ => None end) o.
Definition discardedMouse (o : list Output) : list NativeEvent := concat (omap (fun o => match o with Discarded l => Some l | _ => None end) o).
Definition sentWheel (o : list Output) : list WebWheelEvent := omap (fun o => match o with Send (SendWheel e) => Some e | _ => None end) o.

Lemma sentMouse_app l1 l2 : sentMouse (l1 ++ l2) = sentMouse l1 ++ sentMouse l2.
Proof. apply omap_app. Qed.
Lemma discardedMouse_app l1 l2 : discardedMouse (l1 ++ l2) = discardedMouse l1 ++ discardedMouse l2.
Proof. unfold discardedMouse. by rewrite omap_app, concat_app. Qed.
Lemma sentWheel_app l1 l2 : sentWheel (l1 ++ l2) = sentWheel l1 ++ sentWheel l2.
Proof. apply omap_app. Qed.

(** The page has a process, not the placeholder of a page that was never used. *)
Definition live (p : Page) : Prop := hasRunningProcess p = true /\ isDummyProcess p = false.

(** Only the events of one kind are touched. *)
Record only (k : Kind) (p p' : Page) : Prop := {
  only_mouse : k <> MouseKind -> m_mouseEventQueue p' = m_mouseEventQueue p /\ sentMouse (output p') = sentMouse (output p) /\
    discardedMouse (output p') = discardedMouse (output p);
  only_wheel : k <> WheelKind -> m_wheelEventCoalescer p' = m_wheelEventCoalescer p /\ sentWheel (output p') = sentWheel (output p);
  only_gesture : k <> GestureKind -> m_gestureEventQueue p' = m_gestureEventQueue p;
  only_live : live p -> live p' }.

Lemma only_refl k p : only k p p.
Proof. by split. Qed.
Lemma only_trans k p1 p2 p3 : only k p1 p2 -> only k p2 p3 -> only k p1 p3.
Proof.
  intros [H1 H2 H3 H7] [H4 H5 H6 H8]. split; [| | |by auto]; intros Hk;
    [destruct (H1 Hk) as (? & ? & ?), (H4 Hk) as (? & ? & ?) | destruct (H2 Hk), (H5 Hk) | rewrite H6, H3 by done]; split_and?; congruence.
Qed.
Lemma only_any k p p' : only NoKind p p' -> only k p p'.
Proof. intros [H1 H2 H3 H4]. split; auto. Qed.

(** Outputs of other sorts, with the queues unchanged. *)
Lemma only_emit k l p p' :
  output p' = output p ++ l ->
  (k <> MouseKind -> m_mouseEventQueue p' = m_mouseEventQueue p /\ sentMouse l = [] /\ discardedMouse l = []) ->
  (k <> WheelKind -> m_wheelEventCoalescer p' = m_wheelEventCoalescer p /\ sentWheel l = []) ->
  (k <> GestureKind -> m_gestureEventQueue p' = m_gestureEventQueue p) -> (live p -> live p') -> only k p p'.
Proof.
  intros Ho H1 H2 H3 H4. split; [| | |done]; intros Hk; [destruct (H1 Hk) as (-> & Hl & Hd) | destruct (H2 Hk) as [-> Hl] | by apply H3].
  - by rewrite Ho, sentMouse_app, discardedMouse_app, Hl, Hd, !app_nil_r.
  - by rewrite Ho, sentWheel_app, Hl, app_nil_r.
Qed.

Lemma only_processNext p : only MouseKind p (processNextQueuedMouseEvent windowIsFrontWindowUnderMouse p).
Proof.
  destruct (hasRunningProcess p) eqn:Hr; [|unfold processNextQueuedMouseEvent; rewrite Hr; apply only_refl].
  destruct (m_mouseEventQueue p) as [|e q] eqn:Hq; [unfold processNextQueuedMouseEvent; rewrite Hr, Hq; apply only_refl|].
  destruct (processNext_sends p e q Hr Hq) as (l & -> & Hs & _). apply (only_emit _ l); try done. intros _. split; [done|].
  assert (sentWheel l = omap (fun m => match m with SendWheel e => Some e | _ => None end) (sends l)) as ->; [|by rewrite Hs].
  clear. unfold sentWheel, sends. induction l as [|[[]| | | | | | | | | | | | | | | ] l IH]; cbn; try rewrite IH; done.
Qed.

Lemma only_handleMouse e p : only MouseKind p (handleMouseEvent windowIsFrontWindowUnderMouse e p).
Proof.
  unfold handleMouseEvent. set (p1 := if bool_decide _ then _ else p). apply (only_trans _ _ p1).
  { subst p1. unfold launchInitialProcessIfNecessary. destruct (bool_decide _), (isDummyProcess p); try apply only_refl.
    by apply (only_emit _ [LaunchProcess]). }
  clearbody p1. destruct (negb _); [apply only_refl|]. set (p2 := p1 <| m_mouseEventQueue := _ |>).
  apply (only_trans _ _ p2); [by split|]. clearbody p2. destruct (bool_decide _); [apply only_processNext | apply only_refl].
Qed.

Lemma only_discard p : only MouseKind p (discardQueuedMouseEvents p).
Proof. by eapply only_emit. Qed.

Lemma only_handleKey e p : only KeyKind p (handleKeyboardEvent e p).
Proof.
  unfold handleKeyboardEvent. destruct (negb _); [apply only_refl|]. destruct (bool_decide (length _ = _)); [|by eapply only_emit].
  eapply only_emit; [cbn; by rewrite <- app_assoc | done..].
Qed.

Lemma only_handleGesture e p : only GestureKind p (handleGestureEvent e p).
Proof. unfold handleGestureEvent. destruct (negb _); [apply only_refl|]. by eapply only_emit. Qed.

Lemma only_handleWheel e p : only WheelKind p (handleWheelEvent platformGTK e p).
Proof.
  unfold handleWheelEvent. destruct (negb _); [apply only_refl|].
  destruct (WebWheelEventCoalescer.shouldDispatchEvent _ _ _) as [c []]; [|by eapply only_emit].
  destruct (WebWheelEventCoalescer.nextEventToDispatch c) as [c' []]; [|by eapply only_emit].
  eapply only_emit; [cbn; by rewrite <- app_assoc | done..].
Qed.

Lemma only_handleTouch e p : only TouchKind p (handleTouchEvent e p).
Proof.
  unfold handleTouchEvent. destruct (negb _); [apply only_refl|]. destruct (bool_decide _); [by split|].
  destruct (negb _), (allTouchPointsAreReleased e), (m_touchEventQueue _); first [by split | by eapply only_emit].
Qed.

Lemma only_didReceive t handled p : only (kind t) p (didReceiveEvent windowIsFrontWindowUnderMouse t handled p).
Proof.
  unfold didReceiveEvent. set (p1 := if stopsTimer t then _ else p). apply (only_trans _ _ p1).
  { subst p1. destruct (stopsTimer t); [by eapply only_emit | apply only_refl]. }
  clearbody p1. destruct (kind t).
  - apply only_refl.
  - unfold didReceiveMouse. destruct (m_mouseEventQueue p1) as [|e [|e' q]]; [by eapply only_emit | |].
    + destruct (bool_decide _); [by eapply only_emit|].
      apply (only_emit _ ([EventsFlushed MouseDown] ++ map RunCallback (m_callbackHandlersAfterProcessingPendingMouseEvents p1)));
        [cbn; by rewrite <- app_assoc | done | | done | done].
      intros _. split; [done|]. cbn. by induction (m_callbackHandlersAfterProcessingPendingMouseEvents p1).
    + destruct (bool_decide _); [by eapply only_emit|]. eapply only_trans; [|apply only_processNext]. by split.
  - unfold didReceiveWheel. destruct (negb _); [by eapply only_emit|]. destruct (WebWheelEventCoalescer.takeOldestEventBeingProcessed _) as [c o].
    destruct (WebWheelEventCoalescer.nextEventToDispatch c) as [c' next].
    destruct o, handled, next; first [by eapply only_emit | eapply only_emit; [cbn; by rewrite <- app_assoc | done..]].
  - unfold didReceiveKey. destruct (m_keyEventQueue p1) as [|e [|e' q]]; [by eapply only_emit | |];
      (destruct (bool_decide _); [by eapply only_emit|]); destruct handled; (eapply only_emit; [cbn; by rewrite <- ?app_assoc | done..]).
  - unfold didReceiveTouch. destruct (m_touchEventQueue p1) as [|e q]; [by eapply only_emit|].
    destruct (bool_decide _); [by eapply only_emit|]. eapply only_emit; [done | | | done | done]; intros _; (split; [done|]); cbn;
      by induction (deferredTouchEvents e).
  - unfold didReceiveGesture. destruct (m_gestureEventQueue p1) as [|e q]; [by eapply only_emit|].
    destruct (bool_decide _); [by eapply only_emit|]. destruct handled; [by split | by eapply only_emit].
Qed.

(** The kind of events a step of the whole system is about. *)
Definition about (e : Event) (s : System) : Kind :=
  match e with
  | MouseInput _ | DidStartDrag | ShowContextMenu _ => MouseKind | KeyInput _ => KeyKind | GestureInput _ => GestureKind | WheelInput _ => WheelKind | TouchInput _ => TouchKind
  | PageReceives => match replies (web s) with (t, _) :: _ => kind t | [] => NoKind end
  | _ => NoKind
  end.

Lemma only_step e s s' : isExit e = false -> step e s s' -> only (about e s) (page s) (page s').
Proof.
  intros He Hs. destruct Hs; cbn in He; try done; cbn [perform page about].
  - apply only_handleMouse.
  - apply only_handleKey.
  - apply only_handleGesture.
  - apply only_handleWheel.
  - apply only_handleTouch.
  - unfold suspendActiveDOMObjectsAndAnimations. destruct (_ || _); by split.
  - unfold resumeActiveDOMObjectsAndAnimations. destruct (_ || _); by split.
  - unfold doAfterProcessingAllPendingMouseEvents. destruct (negb _); [by eapply only_emit | by split].
  - unfold didStartDrag. destruct (negb _); [apply only_refl | apply only_discard].
  - unfold showContextMenu. destruct automated; [apply only_refl | apply only_discard].
  - rewrite H. apply only_didReceive.
Qed.

Lemma gestures_step e s s' :
  awaited s -> m_gestureEventQueue (page s) = [] -> isGesture e = false -> step e s s' -> m_gestureEventQueue (page s') = [].
Proof.
  intros Haw Hg He Hs. destruct (isExit e) eqn:Hx.
  { destruct Hs; try done. cbn. unfold resetStateAfterProcessExited. by destruct (negb _). }
  rewrite (only_gesture _ _ _ (only_step e s s' Hx Hs)); [done|]. destruct Hs; cbn in *; try done. rewrite H.
  intros Hk. pose proof (aw_expected s Haw GestureKind) as Hin. cbn in Hin. rewrite Hg in Hin.
  unfold inflight in Hin. rewrite H in Hin. cbn in Hin. by rewrite ofKind_cons, ofKind_single, decide_True in Hin.
Qed.

Lemma awaited_steps h s s' :
  awaited s ->
  (m_gestureEventQueue (page s) = [] /\ forallb (fun e => negb (isGesture e)) h = true) \/ forallb (fun e => negb (isExit e)) h = true ->
  steps h s s' -> awaited s'.
Proof.
  intros Haw Hh Hs. induction Hs as [|e h s s1 s2 Hstep Hs IH]; [done|]. cbn in Hh. rewrite !andb_true_iff, !negb_true_iff in Hh.
  apply IH; destruct Hh as [(Hg & He & Hh)|[He Hh]]; auto.
  - by eapply awaited_step.
  - eapply awaited_step; [done | by rewrite He | done].
  - left. split; [by eapply gestures_step|done].
Qed.

(** C27: While a web process answers every event it is sent, in any order of its threads, no
    answer fails a check: the page terminates no process over input, whatever the user
    does, however often processes exit.  What the page waits for is what is under way, at
    most one mouse and one key event at a time.  Gestures are the exception: with them, only
    while no process exits. *)
Theorem conforming_process_not_terminated h s :
  forallb (fun e => negb (isGesture e)) h = true \/ forallb (fun e => negb (isExit e)) h = true ->
  steps h initial s ->
  (InvalidMessage ∉ output (page s)) /\ (forall k, expected k (page s) = inflight k (web s)) /\
  (length (inflight MouseKind (web s)) <= 1)%nat /\ (length (inflight KeyKind (web s)) <= 1)%nat.
Proof.
  intros Hh Hs. assert (Haw : awaited s).
  { apply (awaited_steps h initial s); [apply awaited_initial | | done]. destruct Hh; [by left|by right]. }
  destruct Haw as [Hq Hr Ha He]. split; [|split; [done|]].
  - intros Hin. unfold accepted in Ha. rewrite forallb_forall in Ha. by specialize (Ha _ (proj1 (list_elem_of_In _ _) Hin)).
  - rewrite <- !He. cbn. rewrite !length_take. lia.
Qed.

(** *** Nothing the user did is lost *)

(** A page whose process has just been launched. *)
Definition started : System := perform launchProcess initial.

Lemma awaited_started : awaited started.
Proof. split; [by split; try done; intros _ [] | by split | done | by intros []]. Qed.

Definition mouseInputs (h : list Event) : list NativeEvent := omap (fun e => match e with MouseInput e => Some e | _ => None end) h.
Definition wheelInputs (h : list Event) : list NativeWebWheelEvent := omap (fun e => match e with WheelInput e => Some e | _ => None end) h.

(** The mouse events that were sent or still will be. *)
Definition keptMouse (p : Page) : list NativeEvent := sentMouse (output p) ++ tail (m_mouseEventQueue p).
Definition decisive (l : list NativeEvent) : list NativeEvent := filter (fun e => isMoveOrForce (type e) = false) l.

Record mouse_inv (received : list NativeEvent) (p : Page) : Prop := {
  mi_sublist : sublist (keptMouse p) received;
  mi_submseteq : keptMouse p ++ discardedMouse (output p) ⊆+ received;
  mi_decisive : decisive (keptMouse p) ++ decisive (discardedMouse (output p)) ≡ₚ decisive received;
  mi_last : last (keptMouse p) = last received \/ (tail (m_mouseEventQueue p) = [] /\ last (discardedMouse (output p)) = last received) }.

Lemma decisive_app l1 l2 : decisive (l1 ++ l2) = decisive l1 ++ decisive l2.
Proof. apply filter_app. Qed.

Lemma removeNewest_decisive t l l' : isMoveOrForce t = true -> removeNewest t l = Some l' -> decisive l' = decisive l.
Proof.
  intros Ht. revert l'. induction l as [|e l IH]; intros l' Hr; cbn in Hr; [done|]. unfold decisive in *. rewrite filter_cons.
  destruct (bool_decide _) eqn:He.
  - injection Hr as <-. apply bool_decide_eq_true in He. rewrite decide_False; [done|]. by rewrite He, Ht.
  - destruct (isMoveOrForce (type e)) eqn:Hm; cbn in Hr; [|done]. rewrite decide_False by done.
    destruct (removeNewest t l) as [l0|] eqn:Hl; [|done]. injection Hr as <-. rewrite filter_cons, decide_False by (by rewrite Hm).
    by apply IH.
Qed.

Lemma decisive_rev l : decisive (rev l) = rev (decisive l).
Proof.
  induction l as [|e l IH]; [done|]. cbn. rewrite decisive_app, IH. unfold decisive. rewrite !filter_cons.
  by destruct (decide _); cbn; rewrite ?app_nil_r.
Qed.

Lemma removeOld_decisive t first rest kept :
  removeOldRedundantEvent t (first :: rest) = first :: kept -> decisive kept = decisive rest.
Proof.
  unfold removeOldRedundantEvent. destruct (isMoveOrForce t) eqn:Ht; cbn; [|by intros [= ->]].
  destruct (removeNewest t (rev rest)) as [l|] eqn:Hr; intros [= <-]; [|done].
  by rewrite decisive_rev, (removeNewest_decisive t _ _ Ht Hr), decisive_rev, rev_involutive.
Qed.

(** What the invariant speaks of is as before. *)
Lemma mouse_inv_kept received p p' :
  keptMouse p' = keptMouse p -> discardedMouse (output p') = discardedMouse (output p) ->
  (tail (m_mouseEventQueue p) = [] -> tail (m_mouseEventQueue p') = []) -> mouse_inv received p -> mouse_inv received p'.
Proof. intros Hk Hd Ht [H1 H2 H3 H4]. split; rewrite ?Hk, ?Hd; [done..|]. destruct H4 as [H4|[H4 H5]]; auto. Qed.

Lemma mouse_inv_same received p p' : only NoKind p p' \/ (exists k, k <> MouseKind /\ only k p p') -> mouse_inv received p -> mouse_inv received p'.
Proof.
  intros Ho. assert (m_mouseEventQueue p' = m_mouseEventQueue p /\ sentMouse (output p') = sentMouse (output p) /\
    discardedMouse (output p') = discardedMouse (output p)) as (Hq & Hs & Hd).
  { destruct Ho as [Ho|(k & Hk & Ho)]; [by apply (only_mouse _ _ _ Ho) | by apply (only_mouse _ _ _ Ho)]. }
  apply mouse_inv_kept; [unfold keptMouse; by rewrite Hq, Hs | done | by rewrite Hq].
Qed.

Lemma sentMouse_sends l : sentMouse l = omap (fun m => match m with SendMouse e => Some e | _ => None end) (sends l).
Proof. unfold sentMouse, sends. induction l as [|[[]| | | | | | | | | | | | | | | ] l IH]; cbn; try rewrite IH; done. Qed.

Lemma processNext_kept p first rest :
  hasRunningProcess p = true -> m_mouseEventQueue p = first :: rest ->
  let p' := processNextQueuedMouseEvent windowIsFrontWindowUnderMouse p in
  m_mouseEventQueue p' = first :: rest /\ sentMouse (output p') = sentMouse (output p) ++ [first] /\
  discardedMouse (output p') = discardedMouse (output p).
Proof.
  intros Hr Hq. unfold processNextQueuedMouseEvent. rewrite Hr, Hq. cbv zeta. cbn [negb].
  destruct (windowIsFrontWindowUnderMouse first), (bool_decide (type first = MouseDown) || _ || _), (bool_decide (type first <> MouseMove));
    cbn [emit output m_mouseEventQueue]; (split; [done|]); cbn -[sentMouse discardedMouse];
    rewrite <- ?app_assoc, ?sentMouse_app, ?discardedMouse_app; cbn; by rewrite ?app_nil_r.
Qed.

(** A new event takes the place of moves that are not sent yet. *)
Lemma handleMouse_kept e p :
  live p -> let p' := handleMouseEvent windowIsFrontWindowUnderMouse e p in
  discardedMouse (output p') = discardedMouse (output p) /\
  exists kept, sublist kept (keptMouse p) /\ decisive kept = decisive (keptMouse p) /\ keptMouse p' = kept ++ [e].
Proof.
  intros [Hr Hd]. unfold handleMouseEvent, launchInitialProcessIfNecessary. rewrite Hd.
  assert ((if bool_decide (type e = MouseDown) then p else p) = p) as -> by (by destruct (bool_decide _)).
  rewrite Hr. cbn [negb]. pose proof (removeOldRedundantEvent_shape (type e) (m_mouseEventQueue p)) as Hshape.
  destruct (m_mouseEventQueue p) as [|first rest] eqn:Hq.
  - rewrite Hshape. cbn [app]. rewrite bool_decide_true by done.
    pose proof (processNext_kept (p <| m_mouseEventQueue := [e] |>) e []) as Hn. destruct (Hn Hr eq_refl) as (Hq' & Hs & Hds).
    split; [exact Hds|]. exists (keptMouse p). split; [done|]. split; [done|]. unfold keptMouse. rewrite Hq', Hs. cbn.
    by rewrite Hq, !app_nil_r.
  - destruct Hshape as (kept & Hkept & Hsub). rewrite Hkept, bool_decide_false by (cbn; rewrite length_app; cbn; lia).
    split; [done|]. exists (sentMouse (output p) ++ kept). unfold keptMouse. rewrite Hq. cbn [tail].
    split; [by apply sublist_app|]. split; [by rewrite !decisive_app, (removeOld_decisive _ _ _ _ Hkept)|]. cbn. by rewrite app_assoc.
Qed.

Lemma mouse_inv_input received e p :
  live p -> mouse_inv received p -> mouse_inv (received ++ [e]) (handleMouseEvent windowIsFrontWindowUnderMouse e p).
Proof.
  intros Hl [H1 H2 H3 H4]. destruct (handleMouse_kept e p Hl) as (Hd & kept & Hs & Hdec & Hk). split; rewrite Hk, ?Hd.
  - apply sublist_app; [by transitivity (keptMouse p) | done].
  - rewrite <- app_assoc, (Permutation_app_comm [e]), app_assoc. apply submseteq_app; [|done].
    transitivity (keptMouse p ++ discardedMouse (output p)); [|done]. apply submseteq_app; [by apply sublist_submseteq | done].
  - rewrite !decisive_app, Hdec, <- H3, <- !app_assoc. apply Permutation_app_head, Permutation_app_comm.
  - left. by rewrite !last_snoc.
Qed.

(** The discarded events were the newest. *)
Lemma mouse_inv_discard received p : mouse_inv received p -> mouse_inv received (discardQueuedMouseEvents p).
Proof.
  intros [H1 H2 H3 H4].
  assert (Hk : keptMouse (discardQueuedMouseEvents p) = sentMouse (output p)).
  { unfold keptMouse. cbn -[sentMouse]. rewrite sentMouse_app, app_nil_r. destruct (m_mouseEventQueue p); cbn; apply app_nil_r. }
  assert (Hd : discardedMouse (output (discardQueuedMouseEvents p)) = discardedMouse (output p) ++ tail (m_mouseEventQueue p)).
  { cbn -[discardedMouse]. rewrite discardedMouse_app. destruct (m_mouseEventQueue p); cbn; by rewrite ?app_nil_r. }
  assert (Ht : tail (m_mouseEventQueue (discardQueuedMouseEvents p)) = []) by (cbn; by destruct (m_mouseEventQueue p)).
  unfold keptMouse in *. rewrite decisive_app in H3.
  split; unfold keptMouse in *; rewrite ?Hk, ?Hd, ?Ht.
  - rewrite <- (app_nil_r (sentMouse _)). etransitivity; [|exact H1]. apply sublist_app; [done | apply sublist_nil_l].
  - by rewrite (Permutation_app_comm (discardedMouse _)), app_assoc.
  - by rewrite decisive_app, (Permutation_app_comm (decisive (discardedMouse _))), app_assoc.
  - destruct (tail (m_mouseEventQueue p)) as [|r rest]; [by rewrite !app_nil_r in *; destruct H4 as [|[]]; auto|].
    right. split; [done|]. destruct H4 as [H4|[H4 _]]; [|done]. rewrite <- H4.
    destruct (exists_last (l := r :: rest) ltac:(done)) as (l & x & ->). by rewrite !app_assoc, !last_snoc.
Qed.

Lemma mouse_inv_receive received t handled p rest :
  hasRunningProcess p = true -> kind t = MouseKind -> expected MouseKind p = t :: rest -> mouse_inv received p ->
  mouse_inv received (didReceiveEvent windowIsFrontWindowUnderMouse t handled p).
Proof.
  intros Hr Hk He Hinv. unfold didReceiveEvent. rewrite Hk. set (p1 := if stopsTimer t then _ else p).
  assert (Hp1 : hasRunningProcess p1 = true /\ m_mouseEventQueue p1 = m_mouseEventQueue p /\ mouse_inv received p1).
  { subst p1. destruct (stopsTimer t); [|done]. split; [done|]. split; [done|]. eapply mouse_inv_same; [|exact Hinv]. left. by eapply only_emit. }
  clearbody p1. destruct Hp1 as (Hr1 & Hq1 & Hinv1). cbn in He. rewrite <- Hq1 in He. clear Hinv Hq1.
  revert Hinv1. unfold didReceiveMouse. destruct (m_mouseEventQueue p1) as [|event queue] eqn:Hq; [done|]. injection He as <- _.
  rewrite bool_decide_false by congruence. destruct queue as [|second queue].
  - assert (Hf : forall l, sentMouse (map RunCallback l) = [] /\ discardedMouse (map RunCallback l) = []) by (intros l; by induction l).
    apply mouse_inv_kept; unfold keptMouse; cbn -[sentMouse discardedMouse app]; rewrite ?Hq, <- ?app_assoc, ?sentMouse_app, ?discardedMouse_app; try done.
    + rewrite (proj1 (Hf _)). cbn. by rewrite !app_nil_r.
    + rewrite (proj2 (Hf _)). cbn. by rewrite app_nil_r.
  - pose proof (processNext_kept (p1 <| m_mouseEventQueue := second :: queue |>) second queue) as Hn.
    destruct (Hn Hr1 eq_refl) as (Hq' & Hs & Hd).
    apply mouse_inv_kept; [|exact Hd | by rewrite Hq]. unfold keptMouse. rewrite Hq', Hs, Hq. cbn. by rewrite <- app_assoc.
Qed.

(** *** Wheel events *)

Record wheel_inv (received : list NativeWebWheelEvent) (p : Page) : Prop := {
  wi_sequences : exists answered, let c := wheelEventCoalescer p in
    let sequences := answered ++ WebWheelEventCoalescer.m_eventsBeingProcessed c in
    received = concat sequences ++ WebWheelEventCoalescer.m_wheelEventQueue c /\
    map WebWheelEventCoalescer.mergeSequence sequences = map Some (sentWheel (output p));
  wi_progress : WebWheelEventCoalescer.m_wheelEventQueue (wheelEventCoalescer p) <> [] ->
    WebWheelEventCoalescer.m_eventsBeingProcessed (wheelEventCoalescer p) <> [];
  wi_bound : (length (WebWheelEventCoalescer.m_wheelEventQueue (wheelEventCoalescer p)) < WebWheelEventCoalescer.wheelEventQueueSizeThreshold)%nat }.

Lemma wheel_inv_same received p p' k : k <> WheelKind -> only k p p' -> wheel_inv received p -> wheel_inv received p'.
Proof.
  intros Hk Ho [H1 H2 H3]. destruct (only_wheel _ _ _ Ho Hk) as [Hc Hs].
  assert (wheelEventCoalescer p' = wheelEventCoalescer p) as He by (unfold wheelEventCoalescer; by rewrite Hc).
  split; rewrite He; try done. by rewrite Hs.
Qed.

(** The next sequence is taken off a queue; [c] is the coalescer before, [flush] what is
    done when there is nothing left. *)
Lemma wheel_inv_next received answered p c (flush : Page -> Page) :
  (forall p, wheelEventCoalescer (flush p) = wheelEventCoalescer p /\ sentWheel (output (flush p)) = sentWheel (output p)) ->
  received = concat (answered ++ WebWheelEventCoalescer.m_eventsBeingProcessed c) ++ WebWheelEventCoalescer.m_wheelEventQueue c ->
  map WebWheelEventCoalescer.mergeSequence (answered ++ WebWheelEventCoalescer.m_eventsBeingProcessed c) = map Some (sentWheel (output p)) ->
  (length (WebWheelEventCoalescer.m_wheelEventQueue c) <= WebWheelEventCoalescer.wheelEventQueueSizeThreshold)%nat ->
  wheel_inv received (let '(c, next) := WebWheelEventCoalescer.nextEventToDispatch c in
    let p := p <| m_wheelEventCoalescer := Some c |> in match next with Some e => sendWheelEvent e p | None => flush p end).
Proof.
  intros Hflush Hrec Hmerge Hlen. destruct (WebWheelEventCoalescer.nextEventToDispatch c) as [c' next] eqn:Hn.
  apply WebWheelEventCoalescer.nextEventToDispatch_spec in Hn. destruct next as [e|].
  - destruct Hn as (sequence & Hq & Hne & Hm & Hproc). rewrite Hq in Hrec, Hlen. split; cbn.
    + exists answered. rewrite Hproc, app_assoc, concat_app, map_app, Hmerge, sentWheel_app, map_app. cbn.
      rewrite app_nil_r, Hm. split; [|done]. by rewrite <- app_assoc.
    + rewrite Hproc. by destruct (WebWheelEventCoalescer.m_eventsBeingProcessed c).
    + rewrite length_app in Hlen. destruct sequence; [done|]. cbn in Hlen. lia.
  - destruct Hn as [Hq ->]. cbv zeta. specialize (Hflush (p <| m_wheelEventCoalescer := Some c |>)) as [Hc Hs]. split; rewrite Hc.
    + exists answered. rewrite Hs. by cbn.
    + cbn. by rewrite Hq.
    + cbn. rewrite Hq. cbn. unfold WebWheelEventCoalescer.wheelEventQueueSizeThreshold. lia.
Qed.

Lemma wheel_inv_input received e p :
  hasRunningProcess p = true -> wheel_inv received p -> wheel_inv (received ++ [e]) (handleWheelEvent platformGTK e p).
Proof.
  intros Hr [(answered & Hrec & Hmerge) Hprog Hb]. unfold handleWheelEvent. rewrite Hr. cbn [negb]. set (p1 := emit _ p).
  change (wheelEventCoalescer p1) with (wheelEventCoalescer p). set (c := wheelEventCoalescer p) in *.
  unfold WebWheelEventCoalescer.shouldDispatchEvent. set (c1 := c <| WebWheelEventCoalescer.m_wheelEventQueue := _ |>).
  assert (Hs : sentWheel (output p1) = sentWheel (output p)) by (cbn; by rewrite sentWheel_app, app_nil_r).
  destruct (_ && _) eqn:Hd.
  - apply andb_prop in Hd as [Hp Hn]. split; cbn.
    + exists answered. rewrite sentWheel_app, app_nil_r. split; [|done]. by rewrite Hrec, app_assoc.
    + intros _. unfold WebWheelEventCoalescer.hasEventsBeingProcessed in Hp. cbn in Hp.
      by destruct (WebWheelEventCoalescer.m_eventsBeingProcessed c).
    + unfold WebWheelEventCoalescer.shouldDispatchEventNow in Hn. destruct (platformGTK && _); [done|].
      apply negb_true_iff, bool_decide_eq_false in Hn. cbn in Hn. lia.
  - apply (wheel_inv_next _ answered p1 c1 (fun p => p)); [done | | by rewrite Hs |]; cbn.
    + by rewrite Hrec, app_assoc.
    + rewrite length_app. cbn. lia.
Qed.

Lemma wheel_inv_receive received handled p rest :
  expected WheelKind p = Wheel :: rest -> wheel_inv received p ->
  wheel_inv received (didReceiveEvent windowIsFrontWindowUnderMouse Wheel handled p).
Proof.
  intros He [(answered & Hrec & Hmerge) Hprog Hb]. cbn [didReceiveEvent stopsTimer kind]. unfold didReceiveWheel. cbn in He.
  set (c := wheelEventCoalescer p) in *. change (wheelEventCoalescer (p <| m_wheelEventCoalescer := Some c |>)) with c.
  unfold WebWheelEventCoalescer.hasEventsBeingProcessed, WebWheelEventCoalescer.takeOldestEventBeingProcessed.
  destruct (WebWheelEventCoalescer.m_eventsBeingProcessed c) as [|sequence sequences] eqn:Hc; [done|]. cbn [negb].
  set (p1 := match last sequence with Some e => _ | None => _ end).
  assert (Hs : sentWheel (output p1) = sentWheel (output p)).
  { subst p1. destruct (last sequence), handled; cbn; try done. by rewrite sentWheel_app, app_nil_r. }
  apply (wheel_inv_next _ (answered ++ [sequence]) p1 _ (emit [EventsFlushed Wheel])).
  - intros p0. split; [done|]. cbn. by rewrite sentWheel_app, app_nil_r.
  - cbn. by rewrite <- app_assoc.
  - cbn. by rewrite <- app_assoc, Hs.
  - cbn. lia.
Qed.

(** *** Runs *)

Lemma received_kind s t handled q :
  awaited s -> replies (web s) = (t, handled) :: q -> expected (kind t) (page s) = t :: inflight (kind t) ((web s) <| replies := q |>).
Proof.
  intros Haw Hr. rewrite (aw_expected s Haw). unfold inflight. rewrite Hr. cbn. by rewrite ofKind_cons, ofKind_single, decide_True.
Qed.

Lemma inv_step e s s' received wheels :
  awaited s -> live (page s) -> isExit e = false -> step e s s' -> mouse_inv received (page s) -> wheel_inv wheels (page s) ->
  mouse_inv (received ++ mouseInputs [e]) (page s') /\ wheel_inv (wheels ++ wheelInputs [e]) (page s').
Proof.
  intros Haw [Hr Hd] He Hs Hm Hw. pose proof (only_step e s s' He Hs) as Ho.
  assert (Hsame : about e s <> MouseKind -> mouse_inv received (page s')).
  { intros Hk. eapply mouse_inv_same; [|exact Hm]. right. by exists (about e s). }
  assert (Hwsame : about e s <> WheelKind -> wheel_inv wheels (page s')).
  { intros Hk. by eapply wheel_inv_same. }
  destruct Hs; cbn [mouseInputs wheelInputs omap list_omap] in *; rewrite ?app_nil_r; try (split; [by apply Hsame | by apply Hwsame]).
  - split; [by apply mouse_inv_input; [split|] | by apply Hwsame].
  - split; [by apply Hsame | by apply wheel_inv_input].
  - split; [|by apply Hwsame]. cbn [perform page]. unfold didStartDrag. destruct (negb _); [done | by apply mouse_inv_discard].
  - split; [|by apply Hwsame]. cbn [perform page]. unfold showContextMenu. destruct automated; [done | by apply mouse_inv_discard].
  - clear Ho. cbn [about] in Hsame, Hwsame. rewrite H in Hsame, Hwsame. pose proof (received_kind _ _ _ _ Haw H) as Hexp. split.
    + destruct (decide (kind t = MouseKind)) as [Hk|Hk]; [|by apply Hsame]. rewrite Hk in Hexp. by eapply mouse_inv_receive.
    + destruct (decide (kind t = WheelKind)) as [Hk|Hk]; [|by apply Hwsame]. rewrite Hk in Hexp. destruct t; try done. by eapply wheel_inv_receive.
Qed.

Lemma inv_steps h : forall s s' received wheels,
  forallb (fun e => negb (isExit e)) h = true -> steps h s s' -> awaited s -> live (page s) ->
  mouse_inv received (page s) -> wheel_inv wheels (page s) ->
  mouse_inv (received ++ mouseInputs h) (page s') /\ wheel_inv (wheels ++ wheelInputs h) (page s').
Proof.
  induction h as [|e h IH]; intros s s' received wheels Hh Hs Haw Hl Hm Hw; inversion Hs as [|? ? ? s1 ? Hstep Hrest]; subst.
  { by rewrite !app_nil_r. }
  cbn in Hh. apply andb_prop in Hh as [He Hh]. apply negb_true_iff in He.
  destruct (inv_step e s s1 received wheels Haw Hl He Hstep Hm Hw) as [Hm1 Hw1].
  assert (mouseInputs (e :: h) = mouseInputs [e] ++ mouseInputs h) as -> by (unfold mouseInputs; by rewrite <- omap_app).
  assert (wheelInputs (e :: h) = wheelInputs [e] ++ wheelInputs h) as -> by (unfold wheelInputs; by rewrite <- omap_app).
  rewrite !app_assoc. apply (IH s1); try done.
  - eapply awaited_step; [done | by rewrite He | done].
  - exact (only_live _ _ _ (only_step e s s1 He Hstep) Hl).
Qed.

(** Nothing is discarded but when a drag starts or a menu is shown. *)
Definition discards (e : Event) : bool := match e with DidStartDrag | ShowContextMenu false => true | _ => false end.

Lemma discards_processNext p :
  discardedMouse (output (processNextQueuedMouseEvent windowIsFrontWindowUnderMouse p)) = discardedMouse (output p).
Proof.
  destruct (hasRunningProcess p) eqn:Hr; [|unfold processNextQueuedMouseEvent; by rewrite Hr].
  destruct (m_mouseEventQueue p) as [|first rest] eqn:Hq; [unfold processNextQueuedMouseEvent; by rewrite Hr, Hq|].
  by apply (processNext_kept p first rest).
Qed.

Lemma discards_emit l p : discardedMouse l = [] -> discardedMouse (output (emit l p)) = discardedMouse (output p).
Proof. intros Hl. cbn -[discardedMouse]. by rewrite discardedMouse_app, Hl, app_nil_r. Qed.

Lemma discards_handleMouse e p :
  discardedMouse (output (handleMouseEvent windowIsFrontWindowUnderMouse e p)) = discardedMouse (output p).
Proof.
  unfold handleMouseEvent, launchInitialProcessIfNecessary. set (p1 := if bool_decide _ then _ else p).
  transitivity (discardedMouse (output p1)).
  - clearbody p1. destruct (negb _); [done|]. case_match; [|done]. by rewrite discards_processNext.
  - subst p1. destruct (bool_decide _), (isDummyProcess p); try done. by rewrite discards_emit.
Qed.

Lemma discards_receiveMouse t handled p :
  kind t = MouseKind ->
  discardedMouse (output (didReceiveEvent windowIsFrontWindowUnderMouse t handled p)) = discardedMouse (output p).
Proof.
  intros Hk. unfold didReceiveEvent. rewrite Hk. set (p1 := if stopsTimer t then _ else p).
  transitivity (discardedMouse (output p1)); [|subst p1; destruct (stopsTimer t); [by apply discards_emit | done]].
  unfold didReceiveMouse, invalid, flushPendingMouseEventCallbacks.
  destruct (m_mouseEventQueue p1) as [|e [|e' q]]; [by apply discards_emit| |]; (destruct (bool_decide _); [by rewrite discards_emit|]).
  - cbn -[discardedMouse]. rewrite !discardedMouse_app. cbn. rewrite !app_nil_r.
    by induction (m_callbackHandlersAfterProcessingPendingMouseEvents p1); cbn; rewrite ?app_nil_r.
  - by rewrite discards_processNext.
Qed.

Lemma discards_step e s s' :
  isExit e = false -> discards e = false -> step e s s' -> discardedMouse (output (page s')) = discardedMouse (output (page s)).
Proof.
  intros He Hd Hs. pose proof (only_step e s s' He Hs) as Ho.
  destruct (decide (about e s = MouseKind)) as [Hk|Hk]; [|by apply (only_mouse _ _ _ Ho)]. clear Ho.
  destruct Hs; try done.
  - apply discards_handleMouse.
  - by destruct automated.
  - cbn [about] in Hk. rewrite H in Hk. by apply discards_receiveMouse.
Qed.

Lemma discards_steps h s s' :
  forallb (fun e => negb (isExit e)) h = true -> forallb (fun e => negb (discards e)) h = true -> steps h s s' ->
  discardedMouse (output (page s')) = discardedMouse (output (page s)).
Proof.
  intros Hh Hd Hs. induction Hs as [|e h s s1 s2 Hstep Hs IH]; [done|]. cbn in Hh, Hd. rewrite !andb_true_iff, !negb_true_iff in Hh, Hd.
  destruct Hh as [He Hh], Hd as [Hde Hd]. rewrite IH by done. by eapply discards_step.
Qed.

(** Without discarded events the mouse events kept are all but moves. *)
Lemma mouse_inv_nothing_discarded received p :
  mouse_inv received p -> discardedMouse (output p) = [] -> decisive (keptMouse p) = decisive received /\ last (keptMouse p) = last received.
Proof.
  intros [H1 H2 H3 H4] Hd. rewrite Hd, app_nil_r in H3. rewrite Hd in H4. split.
  - assert (Hs : sublist (decisive (keptMouse p)) (decisive received)).
    { clear - H1. induction H1; unfold decisive in *; rewrite ?filter_cons; [done| |]; destruct (decide _); auto using sublist. }
    apply Permutation_length in H3. by apply sublist_same_length.
  - destruct H4 as [H4|[_ H4]]; [done|]. symmetry in H4. apply last_None in H4. subst. by inversion H1.
Qed.

(** C28: While its process lives, a page loses mouse input only in two ways.  Of the events
    kept, that is sent or still queued, moves and force changes may be missing because newer
    ones took their place; and events that were queued behind the one being handled are
    discarded when a drag starts or a context menu is shown.  What is kept is in order, every
    click is kept or discarded, not both, and so is the newest event; without drags and menus
    every click and the newest event are kept.  Wheel events are sent in sequences, each
    merged into one event with the deltas added up; the sequences sent, in order, followed by
    the queue, are exactly the events received; while events are queued an answer is awaited
    that will send them, and at most nine are queued. *)
Theorem input_events_kept h s :
  forallb (fun e => negb (isExit e)) h = true -> steps h started s ->
  let p := page s in
  let kept := sentMouse (output p) ++ tail (m_mouseEventQueue p) in
  let discarded := discardedMouse (output p) in
  let c := wheelEventCoalescer p in
  (sublist kept (mouseInputs h) /\ kept ++ discarded ⊆+ mouseInputs h /\
   decisive kept ++ decisive discarded ≡ₚ decisive (mouseInputs h) /\
   (last kept = last (mouseInputs h) \/ last discarded = last (mouseInputs h)) /\
   (forallb (fun e => negb (discards e)) h = true ->
    discarded = [] /\ decisive kept = decisive (mouseInputs h) /\ last kept = last (mouseInputs h))) /\
  (exists answered, let sequences := answered ++ WebWheelEventCoalescer.m_eventsBeingProcessed c in
    wheelInputs h = concat sequences ++ WebWheelEventCoalescer.m_wheelEventQueue c /\
    map WebWheelEventCoalescer.mergeSequence sequences = map Some (sentWheel (output p))) /\
  (WebWheelEventCoalescer.m_wheelEventQueue c <> [] -> inflight WheelKind (web s) <> []) /\
  (length (WebWheelEventCoalescer.m_wheelEventQueue c) <= 9)%nat.
Proof.
  intros Hh Hs p kept discarded c.
  destruct (inv_steps h started s [] [] Hh Hs awaited_started) as [Hm [Hw1 Hw2 Hw3]]; [by split | split; try done; by left | |].
  { split; [by exists [] | done |]. cbn. unfold WebWheelEventCoalescer.wheelEventQueueSizeThreshold. lia. }
  assert (Haw : awaited s) by (apply (awaited_steps h started s); [apply awaited_started | by right | done]).
  split; [|split; [done|split]].
  - destruct (Hm) as [H1 H2 H3 H4]. split; [done|]. split; [done|]. split; [done|]. split; [destruct H4 as [|[]]; auto|].
    intros Hd. assert (Hn : discarded = []) by exact (discards_steps h started s Hh Hd Hs).
    split; [done | by apply mouse_inv_nothing_discarded].
  - intros Hq. rewrite <- (aw_expected s Haw). cbn. apply Hw2 in Hq. unfold p in Hq.
    by destruct (WebWheelEventCoalescer.m_eventsBeingProcessed (wheelEventCoalescer (page s))).
  - fold p c in Hw3. unfold WebWheelEventCoalescer.wheelEventQueueSizeThreshold in Hw3. lia.
Qed.

(** *** What an exit leaves behind *)

Lemma perform_output f s l :
  output (f (page s)) = output (page s) ++ l -> perform f s = mkSystem (f (page s)) (fold_left deliver (sends l) (web s)).
Proof. intros Ho. unfold perform. by rewrite Ho, drop_output. Qed.

Lemma handleGesture_runs e p :
  hasRunningProcess p = true -> exists l, sends l = [SendGesture e] /\
    handleGestureEvent e p = emit l (p <| m_gestureEventQueue := m_gestureEventQueue p ++ [e] |>).
Proof.
  intros Hr. unfold handleGestureEvent. rewrite Hr. cbn [negb].
  exists [StartResponsivenessTimer (bool_decide (type e = GestureStart) || bool_decide (type e = GestureChange)); Send (SendGesture e)]. done.
Qed.

Lemma didReceiveGesture_mismatch t handled p e q :
  kind t = GestureKind -> m_gestureEventQueue p = e :: q -> t <> type e ->
  InvalidMessage ∈ output (didReceiveEvent windowIsFrontWindowUnderMouse t handled p).
Proof.
  intros Hk Hq Hne. unfold didReceiveEvent. rewrite Hk. set (p1 := if stopsTimer t then _ else p).
  assert (m_gestureEventQueue p1 = e :: q) as Hq1 by (subst p1; by destruct (stopsTimer t)).
  unfold didReceiveGesture. rewrite Hq1, bool_decide_true by done. cbn. apply elem_of_app. right. by apply list_elem_of_singleton.
Qed.

(** When a process exits the queues of mouse, key, wheel and touch events are cleared, the
    queue of gesture events is not: the first gesture of another type that the next process
    answers is taken for the answer to the old one, and that process is terminated.  Actions
    waiting for the mouse events of the old process are not run either, though no mouse event
    is being handled any more. *)
Theorem exit_keeps_gestures e q e' core s :
  hasRunningProcess (page s) = true -> m_gestureEventQueue (page s) = e :: q -> kind (type e') = GestureKind -> type e' <> type e ->
  exists s1 s2, step ProcessExits s s1 /\
    steps [Launch; GestureInput e'; WorkQueueRuns; MainRunsTask core; PageReceives] s1 s2 /\ (InvalidMessage ∈ output (page s2)) /\
    isProcessingMouseEvents (page s1) = false /\ output (page s1) = output (page s) /\
    m_callbackHandlersAfterProcessingPendingMouseEvents (page s1) = m_callbackHandlersAfterProcessingPendingMouseEvents (page s).
Proof.
  intros Hr Hq Hk Hne. set (p1 := resetStateAfterProcessExited (page s)). exists (mkSystem p1 emptyWeb).
  assert (Hp1 : hasRunningProcess p1 = false /\ m_gestureEventQueue p1 = e :: q /\ isProcessingMouseEvents p1 = false /\ output p1 = output (page s) /\
    m_callbackHandlersAfterProcessingPendingMouseEvents p1 = m_callbackHandlersAfterProcessingPendingMouseEvents (page s)).
  { subst p1. unfold resetStateAfterProcessExited. rewrite Hr. by cbn. }
  destruct Hp1 as (Hr1 & Hq1 & Hi1 & Ho1 & Hc1). destruct (handleGesture_runs e' (launchProcess p1) eq_refl) as (l & Hl & Hg).
  eexists. split; [apply step_exit|]. split.
  { eapply steps_cons; [by apply step_launch|]. rewrite (perform_output _ _ []) by (by rewrite app_nil_r).
  eapply steps_cons; [by apply step_gesture|]. rewrite (perform_output _ _ l) by (cbn [page]; by rewrite Hg).
  rewrite Hl. cbn [page web sends omap list_omap fold_left deliver]. rewrite Hg.
  eapply steps_cons; [by eapply step_work|]. eapply steps_cons; [by eapply step_task|].
  eapply steps_cons; [by eapply step_receive|]. apply steps_nil. }
  split; [|done]. cbn [perform page]. eapply (didReceiveGesture_mismatch (type e') core); [done | cbn; by rewrite Hq1 | done].
Qed.

(** *** Running the system *)

Definition exec (e : Event) (s : System) : option System :=
  match e with
  | MouseInput e => if decide (kind (type e) = MouseKind) then Some (perform (handleMouseEvent windowIsFrontWindowUnderMouse e) s) else None
  | KeyInput e => if decide (kind (type e) = KeyKind) then Some (perform (handleKeyboardEvent e) s) else None
  | GestureInput e => if decide (kind (type e) = GestureKind) then Some (perform (handleGestureEvent e) s) else None
  | WheelInput e => Some (perform (handleWheelEvent platformGTK e) s)
  | TouchInput e => if decide (kind (touchType e) = TouchKind) then Some (perform (handleTouchEvent e) s) else None
  | Suspend => Some (perform suspendActiveDOMObjectsAndAnimations s)
  | Resume => Some (perform resumeActiveDOMObjectsAndAnimations s)
  | DoAfterMouseEvents a => Some (perform (doAfterProcessingAllPendingMouseEvents a) s)
  | Launch => if hasRunningProcess (page s) then None else Some (perform launchProcess s)
  | WorkQueueRuns =>
      match workQueue (web s) with
      | m :: q => Some (mkSystem (page s) (dispatchViaMainThread m ((web s) <| workQueue := q |>)))
      | [] => None
      end
  | MainRunsTask core =>
      match mainTasks (web s) with
      | m :: q => Some (mkSystem (page s) (runTask m true core ((web s) <| mainTasks := q |>)))
      | [] => None
      end
  | MainRunsMessage other core =>
      match connectionQueue (web s) with
      | m :: q => Some (mkSystem (page s) (runMessage m other core ((web s) <| connectionQueue := q |>)))
      | [] => None
      end
  | MenuOrDrag menu drag => Some (mkSystem (page s) ((web s) <| m_isShowingContextMenu := menu |> <| m_isStartingDrag := drag |>))
  | DidStartDrag => Some (perform didStartDrag s)
  | ShowContextMenu automated => Some (perform (showContextMenu automated) s)
  | PageReceives =>
      match replies (web s) with
      | (t, handled) :: q =>
          Some (perform (didReceiveEvent windowIsFrontWindowUnderMouse t handled) (mkSystem (page s) ((web s) <| replies := q |>)))
      | [] => None
      end
  | ProcessExits => Some (mkSystem (resetStateAfterProcessExited (page s)) emptyWeb)
  end.

Fixpoint execs (h : list Event) (s : System) : option System :=
  match h with [] => Some s | e :: h => s' ← exec e s; execs h s' end.

Lemma exec_step e s s' : exec e s = Some s' -> step e s s'.
Proof.
  intros He. destruct e; cbn [exec] in He; repeat case_match; try done; apply (inj Some) in He; subst s'; by econstructor.
Qed.

Lemma execs_steps h : forall s s', execs h s = Some s' -> steps h s s'.
Proof.
  induction h as [|e h IH]; intros s s' He; cbn in He; [injection He as <-; apply steps_nil|].
  destruct (exec e s) as [s1|] eqn:Hs; [|done]. eapply steps_cons; [by apply exec_step | by apply IH].
Qed.
End with_floats.

(** *** Examples *)
Import PageEvents WebPageEvents.

Definition integers : FloatArithmetic := {| FloatSize := Z; add := Z.add |}.
#[local] Existing Instance integers.

Definition move (n : nat) : NativeEvent := mkNativeEvent MouseMove n.
Definition scroll (dy : Z) (n : nat) : NativeWebWheelEvent :=
  mkNativeWebWheelEvent (mkWebWheelEvent (10, 10) (10, 10) dy dy PhaseChanged PhaseBegan ScrollByPixelWheelEvent true 0 (Z.of_nat n)) n.

(** Moves replaced while a click is handled, and three scrolls merged into two. *)
Definition busyInput : list Event :=
  [MouseInput (mkNativeEvent MouseDown 1); MouseInput (move 2); MouseInput (move 3); WheelInput (scroll 5 4); WheelInput (scroll 7 5);
   WheelInput (scroll 2 6); MainRunsMessage false true; WorkQueueRuns; MainRunsTask false; PageReceives; PageReceives;
   MouseInput (mkNativeEvent MouseUp 7)].
Definition afterBusyInput : System := default initial (execs false (fun _ => true) busyInput started).

(** A menu opens while the button is released. *)
Definition menuInput : list Event :=
  [MouseInput (mkNativeEvent MouseDown 1); MouseInput (move 2); MouseInput (mkNativeEvent MouseUp 3); MenuOrDrag true false;
   ShowContextMenu false; MainRunsMessage false true; PageReceives].
Definition afterMenuInput : System := default initial (execs false (fun _ => true) menuInput started).

Lemma input_events_kept_witness :
  sentMouse (output (page afterBusyInput)) ++ tail (m_mouseEventQueue (page afterBusyInput)) =
    [mkNativeEvent MouseDown 1; move 3; mkNativeEvent MouseUp 7] /\
  map delta (sentWheel (output (page afterBusyInput))) = [5; 9] /\
  decisive [mkNativeEvent MouseDown 1; move 3; mkNativeEvent MouseUp 7] = decisive (mouseInputs busyInput) /\
  discardedMouse (output (page afterMenuInput)) = [move 2; mkNativeEvent MouseUp 3] /\
  decisive [mkNativeEvent MouseDown 1] ++ decisive [move 2; mkNativeEvent MouseUp 3] ≡ₚ decisive (mouseInputs menuInput).
Proof.
  split; [vm_compute; reflexivity|]. split; [vm_compute; reflexivity|]. split; [|split; [vm_compute; reflexivity|]].
  - destruct (input_events_kept false (fun _ => true) busyInput afterBusyInput) as ((_ & _ & _ & _ & H) & _);
      [reflexivity | apply execs_steps; vm_compute; reflexivity | exact (proj1 (proj2 (H eq_refl)))].
  - destruct (input_events_kept false (fun _ => true) menuInput afterMenuInput) as ((_ & _ & H & _) & _);
      [reflexivity | apply execs_steps; vm_compute; reflexivity | exact H].
Defined.

Definition crashAndTyping : list Event :=
  Launch :: busyInput ++ [ProcessExits; Launch; KeyInput (mkNativeEvent KeyDown 8); MainRunsMessage false false; PageReceives].

Lemma conforming_process_not_terminated_witness :
  exists s, execs true (fun _ => false) crashAndTyping initial = Some s /\
    InvalidMessage ∉ output (page s).
Proof.
  destruct (execs true (fun _ => false) crashAndTyping initial) as [s|] eqn:Hs; [|by vm_compute in Hs].
  exists s. split; [reflexivity|].
  apply execs_steps in Hs. destruct (conforming_process_not_terminated true (fun _ => false) crashAndTyping s ltac:(left; reflexivity) Hs) as [H _]. exact H.
Defined.

(** A pinch is under way when the process exits. *)
Definition pinching : System := default initial (execs false (fun _ => true) [GestureInput (mkNativeEvent GestureStart 1); GestureInput (mkNativeEvent GestureChange 2)] started).

Lemma exit_keeps_gestures_witness :
  exists s1 s2, step false (fun _ => true) ProcessExits pinching s1 /\
    steps false (fun _ => true) [Launch; GestureInput (mkNativeEvent GestureEnd 3); WorkQueueRuns; MainRunsTask true; PageReceives] s1 s2 /\
    InvalidMessage ∈ output (page s2).
Proof.
  destruct (exit_keeps_gestures false (fun _ => true) (mkNativeEvent GestureStart 1) [mkNativeEvent GestureChange 2] (mkNativeEvent GestureEnd 3) true pinching)
    as (s1 & s2 & H1 & H2 & H3 & _); [reflexivity.. | discriminate |]. by exists s1, s2.
Defined.

(** On GTK "events representing a non-trivial scrolling phase" are the ones that may be
    queued; events without a phase, or inside a scroll, never are. *)
Lemma gtk_queues_only_nontrivial_phases `{floats : FloatArithmetic} event c :
  WebWheelEventCoalescer.shouldDispatchEventNow true event c = false ->
  phase event <> PhaseNone /\ phase event <> PhaseChanged /\ momentumPhase event <> PhaseNone /\ momentumPhase event <> PhaseChanged.
Proof.
  unfold WebWheelEventCoalescer.shouldDispatchEventNow. rewrite andb_true_l. destruct (_ || _) eqn:Hp; [done|]. intros _.
  rewrite !orb_false_iff, !bool_decide_eq_false in Hp. by destruct Hp as [[[? ?] ?] ?].
Qed.
End InputSystem.
