(* ===== verification/ProcessThrottler.v ===== *)
(** * UIProcess: keeping processes awake

    ProcessThrottler.cpp: activities keep a process runnable through a process assertion;
    when the last ends the process is asked to prepare for suspension, and is suspended when
    it answers or after a timeout.  An operation returns [None] where a [RELEASE_ASSERT] of
    the code would end the UI process.  The system behind a [ProcessAssertion] is the
    environment: it may invalidate an assertion or announce that the UI process's own
    assertion expires. *)

From S2P Require Import Prelude.

Module ProcessThrottler.

Inductive ActivityType := BackgroundActivity | ForegroundActivity.
#[global] Instance ActivityType_eq_decision : EqDecision ActivityType.
Proof. solve_decision. Defined.

(** The types of [ProcessAssertionType] a throttler uses. *)
Inductive ProcessAssertionType := Suspended | Background | Foreground.
#[global] Instance ProcessAssertionType_eq_decision : EqDecision ProcessAssertionType.
Proof. solve_decision. Defined.

Record ProcessAssertion := mkProcessAssertion { type : ProcessAssertionType; isValid : bool }.

(** What the throttler tells its client, oldest first. *)
Inductive Output :=
| SendProcessDidResume
| SendPrepareToSuspend (isSuspensionImminent : bool) (requestToSuspendID : nat)
| DidSetAssertionType (t : ProcessAssertionType).

(** An activity is a number; a [HashSet] of activities is listed in iteration order. *)
Record ProcessThrottler := mkProcessThrottler {
  m_assertion : option ProcessAssertion;
  m_prepareToSuspendTimeoutTimer : bool;
  m_foregroundActivities : list nat;
  m_backgroundActivities : list nat;
  m_pendingRequestToSuspendID : option nat;
  (* the counter of [generatePrepareToSuspendRequestID] *)
  prepareToSuspendRequestID : nat;
  output : list Output
}.
#[global] Instance eta_ProcessThrottler : Eta ProcessThrottler := fun r =>
  mkProcessThrottler (m_assertion r) (m_prepareToSuspendTimeoutTimer r) (m_foregroundActivities r) (m_backgroundActivities r)
    (m_pendingRequestToSuspendID r) (prepareToSuspendRequestID r) (output r).

Definition create : ProcessThrottler := mkProcessThrottler None false [] [] None 0 [].

Implicit Types t : ProcessThrottler.

Definition emit (o : Output) t : ProcessThrottler := t <| output := output t ++ [o] |>.

Definition shouldBeRunnable t : bool := match m_foregroundActivities t, m_backgroundActivities t with [], [] => false | _, _ => true end.

Definition expectedAssertionType t : ProcessAssertionType :=
  match m_foregroundActivities t, m_backgroundActivities t with
  | _ :: _, _ => Foreground
  | [], _ :: _ => Background
  | [], [] => Suspended
  end.

(** The new assertion is created before the previous one is dropped. *)
Definition setAssertionType (newType : ProcessAssertionType) t : ProcessThrottler :=
  match m_assertion t with
  | Some a => if isValid a && bool_decide (type a = newType) then t
              else emit (DidSetAssertionType newType) (t <| m_assertion := Some (mkProcessAssertion newType true) |>)
  | None => emit (DidSetAssertionType newType) (t <| m_assertion := Some (mkProcessAssertion newType true) |>)
  end.

Definition updateAssertionTypeNow t : ProcessThrottler := setAssertionType (expectedAssertionType t) t.

Definition clearPendingRequestToSuspend t : ProcessThrottler :=
  t <| m_prepareToSuspendTimeoutTimer := false |> <| m_pendingRequestToSuspendID := None |>.

Definition sendPrepareToSuspendIPC (isSuspensionImminent : bool) t : option ProcessThrottler :=
  let newType := if isSuspensionImminent then Suspended else Background in
  match m_pendingRequestToSuspendID t with
  | Some _ => if isSuspensionImminent then Some (setAssertionType newType t) else None
  | None =>
      let id := S (prepareToSuspendRequestID t) in
      let t := t <| prepareToSuspendRequestID := id |> <| m_pendingRequestToSuspendID := Some id |> in
      Some (setAssertionType newType (emit (SendPrepareToSuspend isSuspensionImminent id) t))
  end.

Definition updateAssertionIfNeeded t : option ProcessThrottler :=
  match m_assertion t with
  | None => Some t
  | Some a =>
      if shouldBeRunnable t then
        let pending := match m_pendingRequestToSuspendID t with Some _ => true | None => false end in
        let t := if bool_decide (type a = Suspended) || pending
                 then clearPendingRequestToSuspend (emit SendProcessDidResume t) else t in
        Some (updateAssertionTypeNow t)
      else if bool_decide (type a <> Suspended) then
        sendPrepareToSuspendIPC false (t <| m_prepareToSuspendTimeoutTimer := true |>)
      else Some (updateAssertionTypeNow t)
  end.

Definition hashSetAdd (x : nat) (l : list nat) : list nat := if decide (x ∈ l) then l else l ++ [x].
Definition hashSetRemove (x : nat) (l : list nat) : list nat := filter (fun y => y <> x) l.

(** The constructor and the destructor of an activity call these. *)
Definition addActivity (k : ActivityType) (activity : nat) t : option ProcessThrottler :=
  updateAssertionIfNeeded
    match k with
    | ForegroundActivity => t <| m_foregroundActivities := hashSetAdd activity (m_foregroundActivities t) |>
    | BackgroundActivity => t <| m_backgroundActivities := hashSetAdd activity (m_backgroundActivities t) |>
    end.
Definition removeActivity (k : ActivityType) (activity : nat) t : option ProcessThrottler :=
  updateAssertionIfNeeded
    match k with
    | ForegroundActivity => t <| m_foregroundActivities := hashSetRemove activity (m_foregroundActivities t) |>
    | BackgroundActivity => t <| m_backgroundActivities := hashSetRemove activity (m_backgroundActivities t) |>
    end.

(** The two loops of [invalidateAllActivities], over the activities present at the start:
    nothing adds activities meanwhile. *)
Fixpoint invalidateActivities (k : ActivityType) (l : list nat) t : option ProcessThrottler :=
  match l with
  | [] => Some t
  | a :: l => t ← removeActivity k a t; invalidateActivities k l t
  end.
Definition invalidateAllActivities t : option ProcessThrottler :=
  t ← invalidateActivities ForegroundActivity (m_foregroundActivities t) t;
  invalidateActivities BackgroundActivity (m_backgroundActivities t) t.

Definition didConnectToProcess t : option ProcessThrottler :=
  match m_assertion t with
  | Some _ => None
  | None => let t := setAssertionType (expectedAssertionType t) t in
            match m_assertion t with Some _ => Some t | None => None end
  end.

(** The one-shot timer is off when it fires. *)
Definition prepareToSuspendTimeoutTimerFired t : option ProcessThrottler :=
  match m_pendingRequestToSuspendID t with
  | None => None
  | Some _ => Some (updateAssertionTypeNow t)
  end.

Definition processReadyToSuspend t : option ProcessThrottler :=
  match m_pendingRequestToSuspendID t with
  | None => None
  | Some _ =>
      let t := clearPendingRequestToSuspend t in
      match m_assertion t with
      | Some a => Some (if bool_decide (type a <> Suspended) then updateAssertionTypeNow t else t)
      | None => None (* a null dereference *)
      end
  end.

(** The completion handler of [sendPrepareToSuspend]. *)
Definition prepareToSuspendReply (requestToSuspendID : nat) t : option ProcessThrottler :=
  if decide (m_pendingRequestToSuspendID t = Some requestToSuspendID) then processReadyToSuspend t else Some t.

Definition uiAssertionWillExpireImminently t : option ProcessThrottler :=
  t ← sendPrepareToSuspendIPC true t;
  t ← invalidateAllActivities t;
  Some (t <| m_prepareToSuspendTimeoutTimer := false |>).

Definition assertionWasInvalidated t : option ProcessThrottler := invalidateAllActivities t.

(** *** Activities that end by themselves *)

Record TimedActivity := mkTimedActivity { m_activity : option (ActivityType * nat); m_timer : bool }.

(** [operator=]: the old activity is destroyed, the new one exists already. *)
Definition timedActivityAssign (activity : option (ActivityType * nat)) (ta : TimedActivity) t : option (TimedActivity * ProcessThrottler) :=
  t ← match m_activity ta with Some (k, old) => removeActivity k old t | None => Some t end;
  Some (mkTimedActivity activity match activity with Some _ => true | None => false end, t).
Definition activityTimedOut (ta : TimedActivity) t : option (TimedActivity * ProcessThrottler) :=
  t ← match m_activity ta with Some (k, old) => removeActivity k old t | None => Some t end;
  Some (mkTimedActivity None false, t).

(** *** Runs *)

Inductive Event :=
| AddActivity (k : ActivityType) (activity : nat)
| RemoveActivity (k : ActivityType) (activity : nat)
| ConnectToProcess
| TimerFires
| Reply (requestToSuspendID : nat)
| UIAssertionExpires
| AssertionInvalidated
| Destroy.

#[global] Instance Event_eq_decision : EqDecision Event.
Proof. solve_decision. Defined.

Definition activities (k : ActivityType) t : list nat :=
  match k with ForegroundActivity => m_foregroundActivities t | BackgroundActivity => m_backgroundActivities t end.

(** Activities are created once and removed while they are valid, timers fire while set,
    and the system acts on the assertion in place. *)
Definition enabled (e : Event) t : Prop :=
  match e with
  | AddActivity k a => a ∉ activities k t
  | RemoveActivity k a => a ∈ activities k t
  | ConnectToProcess => m_assertion t = None
  | TimerFires => m_prepareToSuspendTimeoutTimer t = true
  | Reply _ | Destroy => True
  | UIAssertionExpires | AssertionInvalidated => m_assertion t <> None
  end.

Definition exec (e : Event) t : option ProcessThrottler :=
  match e with
  | AddActivity k a => addActivity k a t
  | RemoveActivity k a => removeActivity k a t
  | ConnectToProcess => didConnectToProcess t
  | TimerFires => prepareToSuspendTimeoutTimerFired (t <| m_prepareToSuspendTimeoutTimer := false |>)
  | Reply id => prepareToSuspendReply id t
  | UIAssertionExpires => uiAssertionWillExpireImminently t
  | AssertionInvalidated =>
      assertionWasInvalidated (t <| m_assertion := (fun a => mkProcessAssertion (type a) false) <$> m_assertion t |>)
  | Destroy => invalidateAllActivities t
  end.

Fixpoint execs (h : list Event) t : option ProcessThrottler :=
  match h with [] => Some t | e :: h => t ← exec e t; execs h t end.

(** Each event of the history can happen when it does. *)
Fixpoint happens (h : list Event) t : Prop :=
  match h with
  | [] => True
  | e :: h => enabled e t /\ match exec e t with Some t' => happens h t' | None => True end
  end.

#[global] Instance ProcessAssertion_eq_decision : EqDecision ProcessAssertion.
Proof. solve_decision. Defined.
#[global] Instance enabled_decision e t : Decision (enabled e t).
Proof. destruct e; cbn; apply _. Defined.
#[global] Instance happens_decision h t : Decision (happens h t).
Proof. revert t. induction h as [|e h IH]; intros t; cbn; [apply _|]. destruct (exec e t); apply _. Defined.

(** *** What holds between two calls, also inside the loops over activities *)

Record core t : Prop := {
  core_unconnected : m_assertion t = None -> m_pendingRequestToSuspendID t = None /\ m_prepareToSuspendTimeoutTimer t = false;
  core_timer : m_prepareToSuspendTimeoutTimer t = true -> m_pendingRequestToSuspendID t <> None;
  core_pending : forall a, m_assertion t = Some a -> m_pendingRequestToSuspendID t <> None -> shouldBeRunnable t = true -> type a = Suspended;
  core_idle : forall a, m_assertion t = Some a -> shouldBeRunnable t = false ->
    type a = Suspended \/ (type a = Background /\ m_pendingRequestToSuspendID t <> None);
  core_foreground : NoDup (m_foregroundActivities t);
  core_background : NoDup (m_backgroundActivities t) }.

(** What holds between events: a process with activities has exactly the assertion they ask
    for, in force, and is not being asked to suspend. *)
Definition awake t : Prop :=
  forall a, m_assertion t = Some a -> shouldBeRunnable t = true ->
    m_pendingRequestToSuspendID t = None /\ type a = expectedAssertionType t /\ isValid a = true.

Definition sameActivities t t' : Prop :=
  m_foregroundActivities t' = m_foregroundActivities t /\ m_backgroundActivities t' = m_backgroundActivities t.

Lemma expected_runnable t : expectedAssertionType t = Suspended <-> shouldBeRunnable t = false.
Proof. unfold expectedAssertionType, shouldBeRunnable. by destruct (m_foregroundActivities t), (m_backgroundActivities t). Qed.

Lemma same_expected t t' : sameActivities t t' -> expectedAssertionType t' = expectedAssertionType t /\ shouldBeRunnable t' = shouldBeRunnable t.
Proof. intros [H1 H2]. unfold expectedAssertionType, shouldBeRunnable. by rewrite H1, H2. Qed.

Lemma setAssertionType_spec n t :
  let t' := setAssertionType n t in
  sameActivities t t' /\ (exists a, m_assertion t' = Some a /\ type a = n /\ isValid a = true) /\
  m_pendingRequestToSuspendID t' = m_pendingRequestToSuspendID t /\
  m_prepareToSuspendTimeoutTimer t' = m_prepareToSuspendTimeoutTimer t /\
  prepareToSuspendRequestID t' = prepareToSuspendRequestID t.
Proof.
  unfold setAssertionType. destruct (m_assertion t) as [a|] eqn:Ha; [destruct (isValid a && bool_decide (type a = n)) eqn:Hv|].
  - apply andb_prop in Hv as [Hv Ht%bool_decide_eq_true]. repeat split; try done. by exists a.
  - repeat split; try done. by eexists.
  - repeat split; try done. by eexists.
Qed.

(** The heart of the throttler: the update always returns, and leaves things in order. *)
Lemma updateAssertionIfNeeded_ok t :
  (m_assertion t = None -> m_pendingRequestToSuspendID t = None /\ m_prepareToSuspendTimeoutTimer t = false) ->
  (m_prepareToSuspendTimeoutTimer t = true -> m_pendingRequestToSuspendID t <> None) ->
  (forall a, m_assertion t = Some a -> shouldBeRunnable t = false -> type a <> Suspended -> m_pendingRequestToSuspendID t = None) ->
  NoDup (m_foregroundActivities t) -> NoDup (m_backgroundActivities t) ->
  exists t', updateAssertionIfNeeded t = Some t' /\ core t' /\ awake t' /\ sameActivities t t'.
Proof.
  intros H1 H2 H3 Hf Hb. unfold updateAssertionIfNeeded. destruct (m_assertion t) as [a|] eqn:Ha; cycle 1.
  { exists t. split; [done|]. split; [split; try done; by rewrite Ha|]. split; [intros a; by rewrite Ha|done]. }
  clear H1. destruct (shouldBeRunnable t) eqn:Hr.
  - set (t1 := if _ || _ then _ else t).
    assert (Ht1 : sameActivities t t1 /\ m_pendingRequestToSuspendID t1 = None /\ m_prepareToSuspendTimeoutTimer t1 = false).
    { subst t1. destruct (bool_decide _); cbn; [done|]. destruct (m_pendingRequestToSuspendID t) eqn:Hp; cbn; [done|].
      repeat split; try done. destruct (m_prepareToSuspendTimeoutTimer t); [by destruct H2|done]. }
    clearbody t1. destruct Ht1 as (Hs1 & Hp1 & Htimer). unfold updateAssertionTypeNow.
    destruct (setAssertionType_spec (expectedAssertionType t1) t1) as (Hs2 & (a' & Ha' & Ht' & Hv') & Hp2 & Ht2 & _).
    set (t2 := setAssertionType _ t1) in *. exists t2. split; [done|].
    assert (Hs : sameActivities t t2) by (destruct Hs1, Hs2; split; congruence).
    destruct (same_expected t t2 Hs) as [He2 Hr2]. destruct (same_expected t t1 Hs1) as [He1 Hr1].
    split; [split|split; [|done]].
    + by rewrite Ha'.
    + by rewrite Ht2, Htimer.
    + by rewrite Hp2, Hp1.
    + intros b. by rewrite Hr2, Hr.
    + destruct Hs as [-> _]. done.
    + destruct Hs as [_ ->]. done.
    + intros b Hb' _. rewrite Ha' in Hb'. injection Hb' as <-. by rewrite Hp2, Hp1, He2, <- He1.
  - destruct (bool_decide (type a <> Suspended)) eqn:Ht.
    + apply bool_decide_eq_true in Ht. pose proof (H3 a eq_refl eq_refl Ht) as Hp. unfold sendPrepareToSuspendIPC. cbn. rewrite Hp.
      set (t1 := emit _ _). destruct (setAssertionType_spec Background t1) as (Hs2 & (a' & Ha' & Ht' & Hv') & Hp2 & Ht2 & _).
      set (t2 := setAssertionType _ t1) in *. exists t2. split; [done|].
      assert (Hs : sameActivities t t2) by exact Hs2. destruct (same_expected t t2 Hs) as [He2 Hr2].
      split; [split|split; [|done]].
      * by rewrite Ha'.
      * by rewrite Hp2.
      * intros b _ _. by rewrite Hr2, Hr.
      * intros b Hb' _. rewrite Ha' in Hb'. injection Hb' as <-. right. split; [done|]. by rewrite Hp2.
      * by destruct Hs as [-> _].
      * by destruct Hs as [_ ->].
      * intros b _. by rewrite Hr2, Hr.
    + apply bool_decide_eq_false, dec_stable in Ht. unfold updateAssertionTypeNow.
      destruct (setAssertionType_spec (expectedAssertionType t) t) as (Hs & (a' & Ha' & Ht' & Hv') & Hp2 & Ht2 & _).
      set (t2 := setAssertionType _ t) in *. exists t2. split; [done|]. destruct (same_expected t t2 Hs) as [He2 Hr2].
      apply expected_runnable in Hr as He. split; [split|split; [|done]].
      * by rewrite Ha'.
      * by rewrite Ht2, Hp2.
      * intros b Hb' _ _. rewrite Ha' in Hb'. injection Hb' as <-. congruence.
      * intros b Hb' _. rewrite Ha' in Hb'. injection Hb' as <-. left. congruence.
      * by destruct Hs as [-> _].
      * by destruct Hs as [_ ->].
      * intros b _. by rewrite Hr2, Hr.
Qed.

Lemma hashSetRemove_absent x l : x ∉ l -> hashSetRemove x l = l.
Proof.
  unfold hashSetRemove. induction l as [|y l IH]; [done|]. rewrite not_elem_of_cons. intros [Hne Hl].
  rewrite filter_cons, decide_True by done. f_equal. by apply IH.
Qed.

Lemma removeActivity_ok k x t :
  core t -> x ∈ activities k t ->
  exists t', removeActivity k x t = Some t' /\ core t' /\ awake t' /\
    activities k t' = hashSetRemove x (activities k t) /\ (forall k', k' <> k -> activities k' t' = activities k' t).
Proof.
  intros [H1 H2 H3 H4 Hf Hb] Hx. unfold removeActivity. set (t1 := match k with ForegroundActivity => _ | BackgroundActivity => _ end).
  assert (Hrun : shouldBeRunnable t = true).
  { unfold shouldBeRunnable. destruct k; cbn in Hx; destruct (m_foregroundActivities t), (m_backgroundActivities t); try done; set_solver. }
  assert (Ht1 : m_assertion t1 = m_assertion t /\ m_pendingRequestToSuspendID t1 = m_pendingRequestToSuspendID t /\
    m_prepareToSuspendTimeoutTimer t1 = m_prepareToSuspendTimeoutTimer t /\ NoDup (m_foregroundActivities t1) /\ NoDup (m_backgroundActivities t1) /\
    activities k t1 = hashSetRemove x (activities k t) /\ (forall k', k' <> k -> activities k' t1 = activities k' t)).
  { subst t1. unfold hashSetRemove. destruct k; cbn; repeat split; try done; try (by apply NoDup_filter); by intros []. }
  clearbody t1. destruct Ht1 as (Ha & Hp & Ht & Hf1 & Hb1 & Hk & Ho).
  destruct (updateAssertionIfNeeded_ok t1) as (t' & Hu & Hc & Hw & [Hs1 Hs2]).
  - by rewrite Ha, Hp, Ht.
  - by rewrite Hp, Ht.
  - intros a Ha1 _ Hne. rewrite Ha in Ha1. rewrite Hp. destruct (m_pendingRequestToSuspendID t) eqn:Hpt; [|done].
    exfalso. apply Hne, (H3 a); done.
  - done.
  - done.
  - exists t'. split; [done|]. split; [done|]. split; [done|].
    assert (forall k, activities k t' = activities k t1) as Hact by (by intros []). rewrite Hact. split; [done|].
    intros k' Hk'. rewrite Hact. by apply Ho.
Qed.

Lemma invalidateActivities_ok k l : forall t,
  core t -> activities k t = l ->
  exists t', invalidateActivities k l t = Some t' /\ core t' /\ activities k t' = [] /\ (forall k', k' <> k -> activities k' t' = activities k' t).
Proof.
  induction l as [|x l IH]; intros t Hc Hl; [by exists t|]. cbn.
  assert (Hnd : NoDup (x :: l)) by (rewrite <- Hl; destruct Hc, k; done).
  destruct (removeActivity_ok k x t Hc) as (t1 & -> & Hc1 & Hw1 & Hk1 & Ho1); [rewrite Hl; by constructor|]. cbn.
  assert (Hrest : activities k t1 = l).
  { rewrite Hk1, Hl. unfold hashSetRemove. rewrite filter_cons, decide_False by auto. apply NoDup_cons in Hnd as [Hx _].
    by apply hashSetRemove_absent. }
  destruct (IH t1 Hc1 Hrest) as (t' & -> & Hc' & Hk' & Ho'). exists t'. split; [done|]. split; [done|].
  split; [done|]. intros k' Hne. rewrite Ho', Ho1; done.
Qed.

Lemma invalidateAllActivities_ok t :
  core t -> exists t', invalidateAllActivities t = Some t' /\ core t' /\ awake t' /\ shouldBeRunnable t' = false.
Proof.
  intros Hc. unfold invalidateAllActivities.
  destruct (invalidateActivities_ok ForegroundActivity _ t Hc eq_refl) as (t1 & Ht1 & Hc1 & Hf1 & Ho1). cbn in Ht1. rewrite Ht1. cbn.
  destruct (invalidateActivities_ok BackgroundActivity _ t1 Hc1 eq_refl) as (t2 & Ht2 & Hc2 & Hb2 & Ho2). cbn in Ht2. rewrite Ht2.
  exists t2. split; [done|]. split; [done|].
  assert (Hn : shouldBeRunnable t2 = false).
  { specialize (Ho2 ForegroundActivity ltac:(done)). cbn in *. unfold shouldBeRunnable. by rewrite Ho2, Hf1, Hb2. }
  split; [|done]. intros a _. by rewrite Hn.
Qed.

Record inv t : Prop := { inv_core : core t; inv_awake : awake t }.

Lemma addActivity_ok k x t : inv t -> x ∉ activities k t -> exists t', addActivity k x t = Some t' /\ inv t'.
Proof.
  intros [[H1 H2 H3 H4 Hf Hb] Haw] Hx. unfold addActivity. set (t1 := match k with ForegroundActivity => _ | BackgroundActivity => _ end).
  assert (Ht1 : m_assertion t1 = m_assertion t /\ m_pendingRequestToSuspendID t1 = m_pendingRequestToSuspendID t /\
    m_prepareToSuspendTimeoutTimer t1 = m_prepareToSuspendTimeoutTimer t /\ NoDup (m_foregroundActivities t1) /\ NoDup (m_backgroundActivities t1) /\
    shouldBeRunnable t1 = true).
  { assert (Hadd : forall l, x ∉ l -> NoDup l -> hashSetAdd x l = l ++ [x] /\ NoDup (l ++ [x])).
    { intros l Hl Hnd. unfold hashSetAdd. rewrite decide_False by done. split; [done|]. apply NoDup_app. split; [done|].
      split; [by intros y Hy ->%list_elem_of_singleton | apply NoDup_singleton]. }
    subst t1. destruct k; cbn in *; [destruct (Hadd _ Hx Hb) as [-> ?] | destruct (Hadd _ Hx Hf) as [-> ?]]; repeat split; try done;
      unfold shouldBeRunnable; cbn; by destruct (m_foregroundActivities t), (m_backgroundActivities t). }
  clearbody t1. destruct Ht1 as (Ha & Hp & Ht & Hf1 & Hb1 & Hr).
  destruct (updateAssertionIfNeeded_ok t1) as (t' & Hu & Hc & Hw & _);
    [by rewrite Ha, Hp, Ht | by rewrite Hp, Ht | by rewrite Hr | done | done |]. exists t'. by split.
Qed.

(** A process that is being asked to suspend has no activities. *)
Lemma pending_idle t : inv t -> m_pendingRequestToSuspendID t <> None ->
  shouldBeRunnable t = false /\ exists a, m_assertion t = Some a.
Proof.
  intros [Hc Hw] Hp. destruct (m_assertion t) as [a|] eqn:Ha; [|by destruct (core_unconnected t Hc Ha)].
  split; [|by exists a]. destruct (shouldBeRunnable t) eqn:Hr; [|done]. by destruct (Hw a Ha Hr).
Qed.

(** A suspended process without activities is in order. *)
Lemma suspended_inv t a :
  shouldBeRunnable t = false -> m_assertion t = Some a -> type a = Suspended ->
  (m_prepareToSuspendTimeoutTimer t = true -> m_pendingRequestToSuspendID t <> None) ->
  NoDup (m_foregroundActivities t) -> NoDup (m_backgroundActivities t) -> inv t.
Proof.
  intros Hr Ha Ht Htimer Hf Hb. split; [split; try done|].
  - by rewrite Ha.
  - intros b Hb' _. rewrite Hr. done.
  - intros b Hb' _. left. rewrite Ha in Hb'. by injection Hb' as <-.
  - intros b _. by rewrite Hr.
Qed.

Lemma suspendNow_inv t :
  shouldBeRunnable t = false -> (m_prepareToSuspendTimeoutTimer t = true -> m_pendingRequestToSuspendID t <> None) ->
  NoDup (m_foregroundActivities t) -> NoDup (m_backgroundActivities t) -> inv (updateAssertionTypeNow t).
Proof.
  intros Hr Htimer Hf Hb. unfold updateAssertionTypeNow. rewrite (proj2 (expected_runnable t) Hr).
  destruct (setAssertionType_spec Suspended t) as (Hs & (a & Ha & Ht & Hv) & Hp & Htm & _).
  destruct (same_expected _ _ Hs) as [_ Hr']. destruct Hs as [Hs1 Hs2].
  apply (suspended_inv _ a); rewrite ?Hr', ?Hs1, ?Hs2, ?Hp, ?Htm; done.
Qed.

Lemma expire_core t : core t -> m_assertion t <> None ->
  exists t', sendPrepareToSuspendIPC true t = Some t' /\ core t' /\ m_pendingRequestToSuspendID t' <> None /\ sameActivities t t' /\
    exists a, m_assertion t' = Some a /\ type a = Suspended.
Proof.
  intros Hc Ha. unfold sendPrepareToSuspendIPC.
  assert (Hset : forall t1, core t1 \/ (NoDup (m_foregroundActivities t1) /\ NoDup (m_backgroundActivities t1)) -> m_pendingRequestToSuspendID t1 <> None ->
    sameActivities t t1 ->
    exists t', Some (setAssertionType Suspended t1) = Some t' /\ core t' /\ m_pendingRequestToSuspendID t' <> None /\ sameActivities t t' /\
      exists a, m_assertion t' = Some a /\ type a = Suspended).
  { intros t1 Hc1 Hp1 Hs1. destruct (setAssertionType_spec Suspended t1) as (Hs & (a' & Ha' & Ht' & Hv') & Hp2 & Ht2 & _).
    set (t2 := setAssertionType _ t1) in *. exists t2. split; [done|].
    assert (NoDup (m_foregroundActivities t1) /\ NoDup (m_backgroundActivities t1)) as [Hf Hb] by (destruct Hc1 as [[]|[]]; done).
    split; [split|].
    - by rewrite Ha'.
    - by rewrite Hp2.
    - intros b Hb' _ _. rewrite Ha' in Hb'. by injection Hb' as <-.
    - intros b Hb' _. left. rewrite Ha' in Hb'. by injection Hb' as <-.
    - by destruct Hs as [-> _].
    - by destruct Hs as [_ ->].
    - split; [by rewrite Hp2|]. split; [destruct Hs, Hs1; split; congruence|]. by exists a'. }
  destruct (m_pendingRequestToSuspendID t) eqn:Hp; apply Hset; try done; [by left | by rewrite Hp |].
  right. split; cbn; apply Hc.
Qed.

Lemma exec_ok e t : inv t -> enabled e t -> exists t', exec e t = Some t' /\ inv t'.
Proof.
  intros Hi He. pose proof Hi as [Hc Hw]. pose proof Hc as [H1 H2 H3 H4 Hf Hb]. destruct e; cbn [exec enabled] in *.
  - by apply addActivity_ok.
  - destruct (removeActivity_ok k activity t Hc He) as (t' & ? & ? & ? & _). exists t'. by split.
  - unfold didConnectToProcess. rewrite He.
    destruct (setAssertionType_spec (expectedAssertionType t) t) as (Hs & (a' & Ha' & Ht' & Hv') & Hp2 & Ht2 & _).
    set (t2 := setAssertionType _ t) in *. rewrite Ha'. exists t2. split; [done|]. destruct (H1 He) as [Hpn Htn].
    destruct (same_expected t t2 Hs) as [He2 Hr2]. split; [split|].
    + by rewrite Ha'.
    + by rewrite Ht2, Htn.
    + by rewrite Hp2, Hpn.
    + intros b Hb' Hr. rewrite Ha' in Hb'. injection Hb' as <-. left. rewrite Ht'. apply expected_runnable. congruence.
    + by destruct Hs as [-> _].
    + by destruct Hs as [_ ->].
    + intros b Hb' _. rewrite Ha' in Hb'. injection Hb' as <-. by rewrite Hp2, Hpn, He2.
  - destruct (pending_idle t Hi (H2 He)) as [Hr _]. unfold prepareToSuspendTimeoutTimerFired. cbn.
    destruct (m_pendingRequestToSuspendID t) eqn:Hp; [|by destruct H2]. eexists. split; [done|]. by apply suspendNow_inv.
  - unfold prepareToSuspendReply. destruct (decide _) as [Hp|]; [|by exists t].
    destruct (pending_idle t Hi) as [Hr [a Ha]]; [by rewrite Hp|]. unfold processReadyToSuspend. rewrite Hp. cbn. rewrite Ha. cbn.
    destruct (bool_decide (type a <> Suspended)) eqn:Ht; (eexists; split; [done|]).
    + by apply suspendNow_inv.
    + apply bool_decide_eq_false, dec_stable in Ht. by apply (suspended_inv _ a).
  - destruct (expire_core t Hc He) as (t1 & Ht1 & Hc1 & Hp1 & Hs1 & _). unfold uiAssertionWillExpireImminently. rewrite Ht1. cbn.
    destruct (invalidateAllActivities_ok t1 Hc1) as (t2 & -> & [G1 G2 G3 G4 G5 G6] & Hw2 & Hr2). cbn. eexists. split; [done|].
    split; [split; cbn; try done|exact Hw2]. intros Hn. by destruct (G1 Hn).
  - unfold assertionWasInvalidated. destruct (m_assertion t) as [a|] eqn:Ha; [|done]. cbn.
    destruct (invalidateAllActivities_ok (t <| m_assertion := Some (mkProcessAssertion (type a) false) |>)) as (t' & Ht' & ? & ? & _).
    { split; cbn; try done; [intros b [= <-]; by apply (H3 a) | intros b [= <-]; by apply (H4 a)]. }
    exists t'. by split.
  - destruct (invalidateAllActivities_ok t Hc) as (t' & ? & ? & ? & _). exists t'. by split.
Qed.

Lemma create_inv : inv create.
Proof. split; [split; try done; constructor|done]. Qed.

Lemma execs_ok h : forall t, inv t -> happens h t -> exists t', execs h t = Some t' /\ inv t'.
Proof.
  induction h as [|e h IH]; intros t Hi Hh; [by exists t|]. destruct Hh as [He Hh]. cbn.
  destruct (exec_ok e t Hi He) as (t1 & Ht1 & Hi1). rewrite Ht1 in *. cbn. by apply IH.
Qed.

(** C29: Whatever activities come and go, timers fire, processes answer late or never, and the
    system takes assertions away, no [RELEASE_ASSERT] of the throttler fails.  While a
    connected process has activities it holds a valid assertion of exactly the type they ask
    for and is not being asked to suspend; without activities it is suspended, or in the
    background with a request to suspend outstanding. *)
Theorem throttler_keeps_needed_process_awake h :
  happens h create ->
  exists t, execs h create = Some t /\
    forall a, m_assertion t = Some a ->
      if shouldBeRunnable t
      then type a = expectedAssertionType t /\ isValid a = true /\ m_pendingRequestToSuspendID t = None
      else type a = Suspended \/ (type a = Background /\ m_pendingRequestToSuspendID t <> None).
Proof.
  intros Hh. destruct (execs_ok h create create_inv Hh) as (t & Ht & [Hc Hw]). exists t. split; [done|]. intros a Ha.
  destruct (shouldBeRunnable t) eqn:Hr; [by destruct (Hw a Ha Hr) as (? & ? & ?)|]. by apply (core_idle t Hc).
Qed.

(** *** Processes nobody needs are suspended *)

(** Away from expiring assertions, a process on its way to suspension has the timer running. *)
Definition armed t : Prop :=
  forall a, m_assertion t = Some a -> shouldBeRunnable t = false -> type a <> Suspended -> m_prepareToSuspendTimeoutTimer t = true.

Lemma updateNow_armed t : armed (updateAssertionTypeNow t).
Proof.
  unfold updateAssertionTypeNow. destruct (setAssertionType_spec (expectedAssertionType t) t) as (Hs & (a & Ha & Ht & _) & _).
  destruct (same_expected _ _ Hs) as [_ Hr]. intros b Hb Hidle Hne. rewrite Ha in Hb. injection Hb as <-.
  rewrite Ht in Hne. destruct Hne. apply expected_runnable. congruence.
Qed.

Lemma updateIfNeeded_armed t t' : updateAssertionIfNeeded t = Some t' -> armed t'.
Proof.
  unfold updateAssertionIfNeeded. destruct (m_assertion t) as [a|] eqn:Ha.
  - destruct (shouldBeRunnable t); [intros [= <-]; apply updateNow_armed|].
    destruct (bool_decide _); [|intros [= <-]; apply updateNow_armed].
    unfold sendPrepareToSuspendIPC. cbn. destruct (m_pendingRequestToSuspendID t); [done|]. intros [= <-] b _ _ _.
    match goal with |- m_prepareToSuspendTimeoutTimer (setAssertionType Background ?t1) = _ =>
      by destruct (setAssertionType_spec Background t1) as (_ & _ & _ & -> & _) end.
  - intros [= <-] b. by rewrite Ha.
Qed.

Lemma invalidate_armed k l : forall t t', armed t -> invalidateActivities k l t = Some t' -> armed t'.
Proof.
  induction l as [|x l IH]; intros t t' Ha Ht; cbn in Ht; [by injection Ht as <-|].
  destruct (removeActivity k x t) as [t1|] eqn:Hr; [|done]. cbn in Ht. eapply IH; [|exact Ht]. by eapply updateIfNeeded_armed.
Qed.

Lemma invalidateAll_armed t t' : armed t -> invalidateAllActivities t = Some t' -> armed t'.
Proof.
  unfold invalidateAllActivities. intros Ha Ht. destruct (invalidateActivities ForegroundActivity _ t) as [t1|] eqn:H1; [|done].
  eapply invalidate_armed; [|exact Ht]. by eapply invalidate_armed.
Qed.

Lemma exec_armed e t t' : e <> UIAssertionExpires -> armed t -> exec e t = Some t' -> armed t'.
Proof.
  intros Hne Ha He. destruct e; cbn [exec] in He; try done.
  - by eapply updateIfNeeded_armed.
  - by eapply updateIfNeeded_armed.
  - unfold didConnectToProcess in He. destruct (m_assertion t); [done|]. change (setAssertionType _ t) with (updateAssertionTypeNow t) in He.
    destruct (m_assertion (updateAssertionTypeNow t)); [|done]. injection He as <-. apply updateNow_armed.
  - unfold prepareToSuspendTimeoutTimerFired in He. destruct (m_pendingRequestToSuspendID _); [|done]. injection He as <-. apply updateNow_armed.
  - unfold prepareToSuspendReply, processReadyToSuspend in He. destruct (decide _); [|by injection He as <-].
    destruct (m_pendingRequestToSuspendID t); [|done]. destruct (m_assertion _) as [a|] eqn:Has; [|done]. injection He as <-.
    destruct (bool_decide _) eqn:Hb; [apply updateNow_armed|]. apply bool_decide_eq_false, dec_stable in Hb.
    intros b Hb' _ Hn. cbn in Has, Hb'. rewrite Has in Hb'. by injection Hb' as <-.
  - eapply invalidateAll_armed; [|exact He]. intros b Hb Hr Hn. cbn in *. destruct (m_assertion t) as [a|] eqn:Has; [|done].
    injection Hb as <-. by apply (Ha a).
  - by eapply invalidateAll_armed.
Qed.

(** C30: As long as the UI process's own assertion does not expire, a connected process without
    activities that is not yet suspended has a timer running and a request outstanding, and
    both the timer and the answer suspend it. *)
Theorem idle_process_gets_suspended h t a :
  UIAssertionExpires ∉ h -> happens h create -> execs h create = Some t ->
  m_assertion t = Some a -> shouldBeRunnable t = false -> type a <> Suspended ->
  m_prepareToSuspendTimeoutTimer t = true /\ exists id, m_pendingRequestToSuspendID t = Some id /\
    forall e, e = TimerFires \/ e = Reply id -> exists t' a', exec e t = Some t' /\ m_assertion t' = Some a' /\ type a' = Suspended.
Proof.
  intros Hex Hh Ht Ha Hr Hne. destruct (execs_ok h create create_inv Hh) as (t1 & Ht1 & [Hc Hw]). rewrite Ht in Ht1. injection Ht1 as <-.
  assert (Harm : armed t).
  { assert (H0 : armed create) by done. revert H0 Ht. generalize create. clear -Hex. induction h as [|e h IH]; intros t0 H0 Ht; cbn in Ht; [by injection Ht as <-|].
    rewrite not_elem_of_cons in Hex. destruct Hex as [Hne Hex]. destruct (exec e t0) as [t1|] eqn:He; [|done]. apply (IH Hex t1); [|done].
    by eapply exec_armed. }
  split; [by apply (Harm a)|]. destruct (core_idle t Hc a Ha Hr) as [|[_ Hp]]; [done|].
  destruct (m_pendingRequestToSuspendID t) as [id|] eqn:Hpid; [|done]. exists id. split; [done|].
  assert (Hnow : forall t1, shouldBeRunnable t1 = false -> exists a', m_assertion (updateAssertionTypeNow t1) = Some a' /\ type a' = Suspended).
  { intros t1 Hr1. unfold updateAssertionTypeNow. rewrite (proj2 (expected_runnable t1) Hr1).
    destruct (setAssertionType_spec Suspended t1) as (_ & (a' & ? & ? & _) & _). by exists a'. }
  intros e [-> | ->]; cbn [exec].
  - set (t1 := t <| m_prepareToSuspendTimeoutTimer := false |>). destruct (Hnow t1 Hr) as (a' & ? & ?).
    exists (updateAssertionTypeNow t1), a'. split; [|done].
    unfold prepareToSuspendTimeoutTimerFired. change (m_pendingRequestToSuspendID t1) with (m_pendingRequestToSuspendID t). by rewrite Hpid.
  - destruct (Hnow (clearPendingRequestToSuspend t) Hr) as (a' & ? & ?). exists (updateAssertionTypeNow (clearPendingRequestToSuspend t)), a'.
    split; [|done]. unfold prepareToSuspendReply. rewrite decide_True by done. unfold processReadyToSuspend. rewrite Hpid.
    change (m_assertion (clearPendingRequestToSuspend t)) with (m_assertion t). by rewrite Ha, bool_decide_true.
Qed.

(** *** An expiring assertion *)

(** Ending an activity of a process that is awake and has no other starts its suspension. *)
Lemma removeLast_background k x t t' a :
  inv t -> m_assertion t = Some a -> x ∈ activities k t -> removeActivity k x t = Some t' -> shouldBeRunnable t' = false ->
  (exists a', m_assertion t' = Some a' /\ type a' = Background) /\
  m_pendingRequestToSuspendID t' = Some (S (prepareToSuspendRequestID t)).
Proof.
  intros Hi Ha Hx Ht Hr'. assert (Hrun : shouldBeRunnable t = true).
  { unfold shouldBeRunnable. destruct k; cbn in Hx; destruct (m_foregroundActivities t), (m_backgroundActivities t); try done; by apply not_elem_of_nil in Hx. }
  destruct (inv_awake t Hi a Ha Hrun) as (Hp & Hty & _).
  assert (Hne : type a <> Suspended) by (rewrite Hty, expected_runnable; congruence).
  unfold removeActivity in Ht. set (t1 := match k with ForegroundActivity => _ | BackgroundActivity => _ end) in Ht.
  assert (Ht1 : m_assertion t1 = Some a /\ m_pendingRequestToSuspendID t1 = None /\ prepareToSuspendRequestID t1 = prepareToSuspendRequestID t)
    by (subst t1; by destruct k).
  clearbody t1. destruct Ht1 as (Ha1 & Hp1 & Hid1). unfold updateAssertionIfNeeded in Ht. rewrite Ha1 in Ht.
  destruct (shouldBeRunnable t1) eqn:Hr1.
  - injection Ht as <-. exfalso. set (t2 := if _ || _ then _ else t1) in Hr'. unfold updateAssertionTypeNow in Hr'.
    destruct (setAssertionType_spec (expectedAssertionType t2) t2) as (Hs & _). destruct (same_expected _ _ Hs) as [_ Hx2]. rewrite Hx2 in Hr'.
    assert (shouldBeRunnable t2 = shouldBeRunnable t1) by (subst t2; by destruct (_ || _)). congruence.
  - rewrite bool_decide_true in Ht by done. unfold sendPrepareToSuspendIPC in Ht. cbn in Ht. rewrite Hp1 in Ht. injection Ht as <-.
    match goal with |- context [setAssertionType Background ?t2] => destruct (setAssertionType_spec Background t2) as (_ & (a' & ? & ? & _) & -> & _) end.
    split; [by exists a'|]. cbn. by rewrite Hid1.
Qed.

(** An activity ends and others remain: no request is made. *)
Lemma removeSome_id k x t t' :
  core t -> removeActivity k x t = Some t' -> shouldBeRunnable t' = true -> prepareToSuspendRequestID t' = prepareToSuspendRequestID t.
Proof.
  intros Hc Ht Hr'. unfold removeActivity in Ht. set (t1 := match k with ForegroundActivity => _ | BackgroundActivity => _ end) in Ht.
  assert (Hid1 : prepareToSuspendRequestID t1 = prepareToSuspendRequestID t) by (subst t1; by destruct k).
  clearbody t1. unfold updateAssertionIfNeeded in Ht. destruct (m_assertion t1) as [a|]; [|by injection Ht as <-].
  assert (Hnow : forall t2, prepareToSuspendRequestID (updateAssertionTypeNow t2) = prepareToSuspendRequestID t2).
  { intros t2. unfold updateAssertionTypeNow. by destruct (setAssertionType_spec (expectedAssertionType t2) t2) as (_ & _ & _ & _ & ?). }
  destruct (shouldBeRunnable t1) eqn:Hr1.
  - injection Ht as <-. rewrite Hnow. by destruct (_ || _).
  - destruct (bool_decide _); [|by injection Ht as <-; rewrite Hnow].
    unfold sendPrepareToSuspendIPC in Ht. cbn in Ht. destruct (m_pendingRequestToSuspendID t1); [done|]. injection Ht as <-. exfalso.
    match type of Hr' with shouldBeRunnable (setAssertionType Background ?t2) = _ =>
      destruct (setAssertionType_spec Background t2) as (Hs & _); destruct (same_expected _ _ Hs) as [_ Hx] end.
    rewrite Hx in Hr'. unfold shouldBeRunnable in *. cbn in Hr'. congruence.
Qed.

Definition activityCount t : nat := length (m_foregroundActivities t) + length (m_backgroundActivities t).

Lemma activityCount_runnable t : shouldBeRunnable t = true <-> activityCount t <> 0%nat.
Proof. unfold shouldBeRunnable, activityCount. destruct (m_foregroundActivities t), (m_backgroundActivities t); cbn; split; done || lia. Qed.

Lemma removeActivity_connected k x t t' a : m_assertion t = Some a -> removeActivity k x t = Some t' -> exists a', m_assertion t' = Some a'.
Proof.
  intros Ha Ht. unfold removeActivity in Ht. set (t1 := match k with ForegroundActivity => _ | BackgroundActivity => _ end) in Ht.
  assert (Ha1 : m_assertion t1 = Some a) by (subst t1; by destruct k). clearbody t1.
  assert (Hset : forall n t2, exists a', m_assertion (setAssertionType n t2) = Some a').
  { intros n t2. destruct (setAssertionType_spec n t2) as (_ & (a' & ? & _) & _). by exists a'. }
  unfold updateAssertionIfNeeded, updateAssertionTypeNow, sendPrepareToSuspendIPC in Ht. rewrite Ha1 in Ht.
  destruct (shouldBeRunnable t1); [injection Ht as <-; apply Hset|]. destruct (bool_decide _); [|injection Ht as <-; apply Hset].
  destruct (m_pendingRequestToSuspendID _); [done|]. injection Ht as <-. apply Hset.
Qed.

(** The next activity the two loops end. *)
Lemma invalidateAll_unfold t :
  core t -> shouldBeRunnable t = true ->
  exists k x t1, x ∈ activities k t /\ removeActivity k x t = Some t1 /\ core t1 /\ awake t1 /\
    activityCount t = S (activityCount t1) /\ invalidateAllActivities t = invalidateAllActivities t1.
Proof.
  intros Hc Hr. unfold invalidateAllActivities, activityCount.
  assert (Hstep : forall k x l, activities k t = x :: l -> exists t1, x ∈ activities k t /\ removeActivity k x t = Some t1 /\ core t1 /\ awake t1 /\
    activities k t1 = l /\ forall k', k' <> k -> activities k' t1 = activities k' t).
  { intros k x l Hl. assert (Hx : x ∈ activities k t) by (rewrite Hl; by constructor).
    destruct (removeActivity_ok k x t Hc Hx) as (t1 & Ht1 & Hc1 & Hw1 & Hk1 & Ho1). exists t1. split_and!; try done.
    rewrite Hk1, Hl. unfold hashSetRemove. rewrite filter_cons, decide_False by auto. apply hashSetRemove_absent.
    assert (Hnd : NoDup (x :: l)) by (rewrite <- Hl; destruct Hc, k; done). by apply NoDup_cons in Hnd as []. }
  destruct (m_foregroundActivities t) as [|x l] eqn:Hf; [destruct (m_backgroundActivities t) as [|x l] eqn:Hb|].
  - unfold shouldBeRunnable in Hr. by rewrite Hf, Hb in Hr.
  - destruct (Hstep BackgroundActivity x l Hb) as (t1 & Hx & Ht1 & Hc1 & Hw1 & Hk1 & Ho1). exists BackgroundActivity, x, t1.
    specialize (Ho1 ForegroundActivity ltac:(done)). cbn in Hk1, Ho1. rewrite Hf in Ho1. split_and!; try done; cbn; rewrite ?Ho1, ?Hk1; cbn; [done|].
    rewrite Hb. cbn. by rewrite Ht1, <- Hk1.
  - destruct (Hstep ForegroundActivity x l Hf) as (t1 & Hx & Ht1 & Hc1 & Hw1 & Hk1 & Ho1). exists ForegroundActivity, x, t1.
    specialize (Ho1 BackgroundActivity ltac:(done)). cbn in Hk1, Ho1. split_and!; try done; cbn; rewrite ?Ho1, ?Hk1; cbn; [lia|]. by rewrite Ht1.
Qed.

(** All activities of a process that is awake end: its suspension starts, with one request. *)
Lemma invalidateAll_background n : forall t a, activityCount t = S n -> inv t -> m_assertion t = Some a ->
  exists t', invalidateAllActivities t = Some t' /\ (exists a', m_assertion t' = Some a' /\ type a' = Background) /\
    m_pendingRequestToSuspendID t' = Some (S (prepareToSuspendRequestID t)).
Proof.
  induction n as [|n IH]; intros t a Hn Hi Ha.
  all: destruct (invalidateAll_unfold t (inv_core t Hi)) as (k & x & t1 & Hx & Ht1 & Hc1 & Hw1 & Hcount & ->); [apply activityCount_runnable; lia|].
  - assert (Hr1 : shouldBeRunnable t1 = false).
    { destruct (shouldBeRunnable t1) eqn:Hr; [|done]. apply activityCount_runnable in Hr. lia. }
    destruct (removeLast_background k x t t1 a Hi Ha Hx Ht1 Hr1) as [Hb Hp]. exists t1. split; [|done].
    unfold invalidateAllActivities, shouldBeRunnable in *. destruct (m_foregroundActivities t1) eqn:Hf; [|done]. cbn.
    by destruct (m_backgroundActivities t1) eqn:Hbg.
  - assert (Hr1 : shouldBeRunnable t1 = true) by (apply activityCount_runnable; lia).
    rewrite <- (removeSome_id k x t t1 (inv_core t Hi) Ht1 Hr1).
    destruct (removeActivity_connected k x t t1 a Ha Ht1) as [a1 Ha1]. apply (IH t1 a1); [lia | by split | done].
Qed.

(** The system announces that the UI process's assertion is about to expire, and the process
    has two or more activities.  The assertion is dropped to suspended, but ending the first
    activity while another remains resumes the process and takes a full assertion again; at
    the end the process is in the background, with a second, ordinary request outstanding
    and the timeout stopped: it is not suspended, and nothing but its answer suspends it. *)
Theorem expiry_undone_by_second_activity h t :
  happens h create -> execs h create = Some t -> m_assertion t <> None -> (2 <= activityCount t)%nat ->
  exists t' a, uiAssertionWillExpireImminently t = Some t' /\ m_assertion t' = Some a /\ type a = Background /\
    m_prepareToSuspendTimeoutTimer t' = false /\
    m_pendingRequestToSuspendID t' = Some (2 + prepareToSuspendRequestID t)%nat /\
    prepareToSuspendReply (1 + prepareToSuspendRequestID t) t' = Some t'.
Proof.
  intros Hh Ht Hne Hcount. destruct (execs_ok h create create_inv Hh) as (t0 & Ht0 & Hi). rewrite Ht in Ht0. injection Ht0 as <-.
  assert (Hr : shouldBeRunnable t = true) by (apply activityCount_runnable; lia).
  destruct (m_assertion t) as [a|] eqn:Ha; [|done]. destruct (inv_awake t Hi a Ha Hr) as (Hp & _).
  unfold uiAssertionWillExpireImminently. destruct (expire_core t (inv_core t Hi)) as (t1 & Ht1 & Hc1 & Hp1 & Hs1 & a1 & Ha1 & Hty1); [congruence|].
  rewrite Ht1. cbn.
  assert (Hid1 : prepareToSuspendRequestID t1 = S (prepareToSuspendRequestID t)).
  { unfold sendPrepareToSuspendIPC in Ht1. rewrite Hp in Ht1. injection Ht1 as <-.
    match goal with |- prepareToSuspendRequestID (setAssertionType Suspended ?t2) = _ => by destruct (setAssertionType_spec Suspended t2) as (_ & _ & _ & _ & ->) end. }
  assert (Hc : activityCount t1 = activityCount t) by (unfold activityCount; destruct Hs1 as [-> ->]; done).
  destruct (invalidateAll_unfold t1 Hc1) as (k & x & t2 & Hx & Ht2 & Hc2 & Hw2 & Hcount2 & ->); [apply activityCount_runnable; lia|].
  assert (Hr2 : shouldBeRunnable t2 = true) by (apply activityCount_runnable; lia).
  destruct (removeActivity_connected k x t1 t2 a1 Ha1 Ht2) as [a2 Ha2].
  destruct (invalidateAll_background (activityCount t2 - 1) t2 a2) as (t3 & -> & (a3 & Ha3 & Hb3) & Hp3); [lia | by split | done |].
  cbn. eexists _, a3. split; [done|]. rewrite (removeSome_id k x t1 t2 Hc1 Ht2 Hr2), Hid1 in Hp3.
  split; [done|]. split; [done|]. split; [done|]. split; [done|].
  unfold prepareToSuspendReply. cbn. rewrite Hp3, decide_False; [done|]. intros [= ?]. lia.
Qed.

(** *** Examples *)

Definition history : list Event :=
  [AddActivity ForegroundActivity 1; ConnectToProcess; AddActivity BackgroundActivity 2; RemoveActivity ForegroundActivity 1;
   RemoveActivity BackgroundActivity 2; AddActivity BackgroundActivity 3; Reply 1; AddActivity ForegroundActivity 4].

Lemma history_happens : happens history create.
Proof. apply (bool_decide_unpack _). vm_compute. exact I. Qed.

Lemma throttler_keeps_needed_process_awake_witness :
  exists t, execs history create = Some t /\ (type <$> m_assertion t) = Some Foreground /\ m_pendingRequestToSuspendID t = None.
Proof.
  destruct (throttler_keeps_needed_process_awake history history_happens) as (t & Ht & H). exists t. split; [exact Ht|].
  vm_compute in Ht. injection Ht as <-. split; [reflexivity|]. destruct (H _ eq_refl) as (_ & _ & Hp). exact Hp.
Defined.

Lemma idle_process_gets_suspended_witness :
  let h := take 5 history in
  exists t, execs h create = Some t /\ m_prepareToSuspendTimeoutTimer t = true.
Proof.
  intros h. eexists. split; [vm_compute; reflexivity|].
  refine (proj1 (idle_process_gets_suspended h _ (mkProcessAssertion Background true) _ _ _ _ _ _)).
  - apply (bool_decide_unpack _). vm_compute. exact I.
  - apply (bool_decide_unpack _). vm_compute. exact I.
  - vm_compute. reflexivity.
  - reflexivity.
  - reflexivity.
  - discriminate.
Defined.

Definition busyProcess : ProcessThrottler := default create (execs history create).

Lemma expiry_undone_by_second_activity_witness :
  exists t' a, uiAssertionWillExpireImminently busyProcess = Some t' /\ m_assertion t' = Some a /\ type a = Background.
Proof.
  destruct (expiry_undone_by_second_activity history busyProcess history_happens) as (t' & a & H1 & H2 & H3 & _).
  - vm_compute. reflexivity.
  - vm_compute. discriminate.
  - vm_compute. lia.
  - exact (ex_intro _ t' (ex_intro _ a (conj H1 (conj H2 H3)))).
Defined.
End ProcessThrottler.
