(* ===== verification/AuxiliaryProcess.v ===== *)
(** * UIProcess: auxiliary processes and their messages

    AuxiliaryProcessProxy.cpp: messages wait while the process is launched, replies are
    delivered to completion handlers, and a background activity of the process throttler
    ([ProcessThrottler]) lasts as long as a reply is outstanding.  The handlers live in the
    map of Connection.cpp; the parts of WebProcessProxy.cpp that override the launch are
    included. *)

From S2P Require Import Prelude ProcessThrottler.

Module AuxiliaryProcess.
Section with_platform.
(** The pages that exist when the process has been launched, and whether the throttler is
    connected to the process then, which only iOS does. *)
Context (pageExists : nat -> bool) (connectsThrottler : bool).

Inductive State := Launching | Running | Terminated.
#[global] Instance State_eq_decision : EqDecision State.
Proof. solve_decision. Defined.

Inductive Message :=
| OtherMessage (n : nat)
| LoadRequestWaitingForProcessLaunch (page load : nat)
| LoadRequest (page load : nat)
| PrepareToSuspend (isSuspensionImminent : bool)
| ProcessDidResume
| ShutDown.

(** What a completion handler does: call the caller back, or the throttler. *)
Inductive Callback := ClientReply (n : nat) | SuspendReply (requestToSuspendID : nat).

(** [protects]: the caller's handler holds a reference to the proxy. *)
Record Handler := mkHandler { callback : Callback; activity : option nat; protects : bool }.

Record PendingMessage := mkPendingMessage { encoder : Message; asyncReplyInfo : option (nat * Handler) }.

Record Proxy := mkProxy {
  (* [m_processLauncher], if there is one: [isLaunching] *)
  m_processLauncher : option bool;
  (* [m_connection], if there is one: [isValid] *)
  m_connection : option bool;
  m_pendingMessages : list PendingMessage;
  (* the messages given to the connection, and its entry of [asyncReplyHandlerMap] *)
  outgoing : list Message;
  asyncReplyHandlers : list (nat * Handler);
  throttler : ProcessThrottler.ProcessThrottler;
  (* handlers the run loop will call with null *)
  runLoop : list Handler;
  nextAsyncReplyHandlerID : nat;
  nextActivity : nat;
  alive : bool;
  (* the handlers called so far, and whether with a reply *)
  called : list (Handler * bool)
}.
#[global] Instance eta_Proxy : Eta Proxy := fun r =>
  mkProxy (m_processLauncher r) (m_connection r) (m_pendingMessages r) (outgoing r) (asyncReplyHandlers r) (throttler r) (runLoop r)
    (nextAsyncReplyHandlerID r) (nextActivity r) (alive r) (called r).

(** A proxy whose launcher was just created by [connect]. *)
Definition connect : Proxy := mkProxy (Some true) None [] [] [] ProcessThrottler.create [] 0 0 true [].

Implicit Types p : Proxy.

Definition state p : State :=
  match m_processLauncher p with
  | Some true => Launching
  | _ => match m_connection p with None => Terminated | Some _ => Running end
  end.
Definition canSendMessage p : bool := bool_decide (state p <> Terminated).

Definition optionList {A} (o : option A) : list A := match o with Some x => [x] | None => [] end.

(** [HashMap::add]: a handler under an identifier that is there already is lost. *)
Definition addAsyncReplyHandler (info : option (nat * Handler)) (l : list (nat * Handler)) : list (nat * Handler) :=
  match info with
  | Some (id, h) => if decide (id ∈ map fst l) then l else l ++ [(id, h)]
  | None => l
  end.

(** [addAsyncReplyHandler] and [Connection::sendMessage]. *)
Definition connectionSend (m : Message) (info : option (nat * Handler)) p : Proxy * bool :=
  let p := p <| asyncReplyHandlers := addAsyncReplyHandler info (asyncReplyHandlers p) |> in
  match m_connection p with
  | Some true => (p <| outgoing := outgoing p ++ [m] |>, true)
  | _ => (p, false)
  end.

(** [sendMessage] from the switch on. *)
Definition sendNow (m : Message) (info : option (nat * Handler)) p : Proxy * bool :=
  match state p with
  | Launching => (p <| m_pendingMessages := m_pendingMessages p ++ [mkPendingMessage m info] |>, true)
  | Running => connectionSend m info p
  | Terminated => (p <| runLoop := runLoop p ++ optionList (snd <$> info) |>, false)
  end.

Definition newListenerID p : Proxy * nat :=
  let id := S (nextAsyncReplyHandlerID p) in (p <| nextAsyncReplyHandlerID := id |>, id).

(** What the throttler asks of the proxy: [sendPrepareToSuspend], [sendProcessDidResume]. *)
Definition sendForThrottler p (o : ProcessThrottler.Output) : Proxy :=
  match o with
  | ProcessThrottler.SendPrepareToSuspend imminent request =>
      let '(p, id) := newListenerID p in
      fst (sendNow (PrepareToSuspend imminent) (Some (id, mkHandler (SuspendReply request) None false)) p)
  | ProcessThrottler.SendProcessDidResume => if canSendMessage p then fst (sendNow ProcessDidResume None p) else p
  | ProcessThrottler.DidSetAssertionType _ => p
  end.

(** A call to the throttler, which is gone with the proxy, and what it sends. *)
Definition throttle (e : ProcessThrottler.Event) p : option Proxy :=
  if alive p then
    t ← ProcessThrottler.exec e (throttler p);
    Some (fold_left sendForThrottler (drop (length (ProcessThrottler.output (throttler p))) (ProcessThrottler.output t)) (p <| throttler := t |>))
  else Some p.

Definition startActivity (k : ProcessThrottler.ActivityType) p : option Proxy :=
  throttle (ProcessThrottler.AddActivity k (nextActivity p)) (p <| nextActivity := S (nextActivity p) |>).

Definition send (m : Message) p : Proxy * bool := sendNow m None p.

(** [sendWithAsyncReply] and the head of [sendMessage]. *)
Definition sendWithAsyncReply (m : Message) (n : nat) (protects shouldStartProcessThrottlerActivity : bool) p : option (Proxy * bool) :=
  let '(p, id) := newListenerID p in
  if canSendMessage p && shouldStartProcessThrottlerActivity then
    let a := nextActivity p in
    p ← startActivity ProcessThrottler.BackgroundActivity p;
    Some (sendNow m (Some (id, mkHandler (ClientReply n) (Some a) protects)) p)
  else Some (sendNow m (Some (id, mkHandler (ClientReply n) None protects)) p).

(** A handler is called, and its activity ends with it. *)
Definition callHandler (h : Handler) (reply : bool) p : option Proxy :=
  let p := p <| called := called p ++ [(h, reply)] |> in
  p ← match callback h with SuspendReply request => throttle (ProcessThrottler.Reply request) p | ClientReply _ => Some p end;
  match activity h with
  | Some a => if decide (a ∈ ProcessThrottler.m_backgroundActivities (throttler p))
              then throttle (ProcessThrottler.RemoveActivity ProcessThrottler.BackgroundActivity a) p else Some p
  | None => Some p
  end.

Fixpoint callHandlers (l : list Handler) (reply : bool) p : option Proxy :=
  match l with [] => Some p | h :: l => p ← callHandler h reply p; callHandlers l reply p end.

(** [WebProcessProxy::shouldSendPendingMessage] and the loop of [didFinishLaunching]. *)
Definition sendPendingMessage p (m : PendingMessage) : Proxy :=
  match encoder m with
  | LoadRequestWaitingForProcessLaunch page load => if pageExists page then fst (send (LoadRequest page load) p) else p
  | message => fst (connectionSend message (asyncReplyInfo m) p)
  end.

(** [didFinishLaunching] of both classes, with a valid connection identifier. *)
Definition didFinishLaunching p : option Proxy :=
  let p := p <| m_processLauncher := Some false |> <| m_connection := Some true |> in
  let pending := m_pendingMessages p in
  let p := fold_left sendPendingMessage pending (p <| m_pendingMessages := [] |>) in
  if connectsThrottler then throttle ProcessThrottler.ConnectToProcess p else Some p.

Definition shutDownProcess p : Proxy :=
  match state p with
  | Launching => p <| m_processLauncher := None |>
  | Running => let p := if canSendMessage p then fst (send ShutDown p) else p in p <| m_connection := None |>
  | Terminated => p
  end.

(** [didFinishLaunching] with an invalid identifier. *)
Definition didFailToLaunch p : Proxy := shutDownProcess (p <| m_processLauncher := Some false |>).

(** [Connection::connectionDidClose] on the main thread, up to [clearAsyncReplyHandlers]. *)
Definition didClose p : Proxy := shutDownProcess (p <| m_connection := Some false |>).

(** [clearAsyncReplyHandlers], when a connection has closed or is destroyed; [order] is the
    iteration order of the map. *)
Definition clearAsyncReplyHandlers (order : list (nat * Handler)) p : option Proxy :=
  callHandlers (map snd order) false (p <| asyncReplyHandlers := [] |>).

(** [dispatchMessage] of a reply. *)
Definition takeHandler (id : nat) p : option (Handler * Proxy) :=
  match list_find (fun x => fst x = id) (asyncReplyHandlers p) with
  | Some (i, (_, h)) => Some (h, p <| asyncReplyHandlers := delete i (asyncReplyHandlers p) |>)
  | None => None
  end.

(** The destructors: the throttler's, then [~AuxiliaryProcessProxy]. *)
Definition destroy p : option Proxy :=
  p ← throttle ProcessThrottler.Destroy p;
  let p := p <| alive := false |> <| m_connection := None |> <| m_processLauncher := None |> in
  callHandlers (map snd (omap asyncReplyInfo (m_pendingMessages p))) false (p <| m_pendingMessages := [] |>).

(** *** Runs *)

Inductive Event :=
| Send (m : Message)
| SendWithAsyncReply (m : Message) (n : nat) (protects shouldStart : bool)
| LaunchSucceeds | LaunchFails | ShutDownProcess | ConnectionCloses
| ReplyArrives (id : nat)
| ClearHandlers (order : list (nat * Handler))
| RunLoopTurn
| StartActivity (k : ProcessThrottler.ActivityType)
| ThrottlerEvent (e : ProcessThrottler.Event)
| Destroy.

Definition handlers p : list (nat * Handler) := omap asyncReplyInfo (m_pendingMessages p) ++ asyncReplyHandlers p.

Definition isClientMessage (m : Message) : bool := match m with OtherMessage _ | LoadRequest _ _ | LoadRequestWaitingForProcessLaunch _ _ => true | _ => false end.
Definition isWaitingLoad (m : Message) : bool := match m with LoadRequestWaitingForProcessLaunch _ _ => true | _ => false end.

(** Loads that wait for the launch are sent while launching, without a reply; handlers
    protect the proxy from its destruction; activities of handlers end with them. *)
Definition enabled (e : Event) p : Prop :=
  match e with
  | Send m => alive p = true /\ isClientMessage m = true /\ (isWaitingLoad m = true -> state p = Launching)
  | SendWithAsyncReply m _ _ _ => alive p = true /\ isClientMessage m = true /\ isWaitingLoad m = false
  | LaunchSucceeds | LaunchFails => alive p = true /\ m_processLauncher p = Some true
  | ShutDownProcess => alive p = true
  | ConnectionCloses => alive p = true /\ m_connection p = Some true
  | ReplyArrives id => m_connection p = Some true /\ id ∈ map fst (asyncReplyHandlers p)
  | ClearHandlers order => m_connection p = None /\ order ≡ₚ asyncReplyHandlers p
  | RunLoopTurn => runLoop p <> []
  | StartActivity _ => alive p = true
  | ThrottlerEvent e => alive p = true /\ ProcessThrottler.enabled e (throttler p) /\
      match e with
      | ProcessThrottler.RemoveActivity k a => forall id h, (id, h) ∈ handlers p -> activity h <> Some a
      | ProcessThrottler.TimerFires | ProcessThrottler.UIAssertionExpires | ProcessThrottler.AssertionInvalidated => True
      | _ => False
      end
  | Destroy => alive p = true /\ forall id h, (id, h) ∈ handlers p -> protects h = false
  end.

Definition exec (e : Event) p : option Proxy :=
  match e with
  | Send m => Some (fst (send m p))
  | SendWithAsyncReply m n protects should => fst <$> sendWithAsyncReply m n protects should p
  | LaunchSucceeds => didFinishLaunching p
  | LaunchFails => Some (didFailToLaunch p)
  | ShutDownProcess => Some (shutDownProcess p)
  | ConnectionCloses => Some (didClose p)
  | ReplyArrives id => match takeHandler id p with Some (h, p) => callHandler h true p | None => Some p end
  | ClearHandlers order => clearAsyncReplyHandlers order p
  | RunLoopTurn => match runLoop p with h :: l => callHandler h false (p <| runLoop := l |>) | [] => Some p end
  | StartActivity k => startActivity k p
  | ThrottlerEvent e => throttle e p
  | Destroy => destroy p
  end.

(** What a sender is told. *)
Definition accepted (e : Event) p : bool :=
  match e with
  | Send m => snd (send m p)
  | SendWithAsyncReply m n protects should => match sendWithAsyncReply m n protects should p with Some (_, b) => b | None => false end
  | _ => false
  end.
Definition messageOf (e : Event) : option Message := match e with Send m | SendWithAsyncReply m _ _ _ => Some m | _ => None end.

Inductive run : list Event -> Proxy -> Proxy -> Prop :=
| run_nil p : run [] p p
| run_cons e h p p1 p' : enabled e p -> exec e p = Some p1 -> run h p1 p' -> run (e :: h) p p'.

(** *** The throttler's activities *)

Import ProcessThrottler (activities, BackgroundActivity, ForegroundActivity, AddActivity, RemoveActivity, sameActivities).

Lemma setAssertionType_same n t : sameActivities t (ProcessThrottler.setAssertionType n t).
Proof. apply ProcessThrottler.setAssertionType_spec. Qed.

Lemma updateAssertion_same t t' : ProcessThrottler.updateAssertionIfNeeded t = Some t' -> sameActivities t t'.
Proof.
  unfold ProcessThrottler.updateAssertionIfNeeded, ProcessThrottler.updateAssertionTypeNow, ProcessThrottler.sendPrepareToSuspendIPC.
  destruct (ProcessThrottler.m_assertion t); [|by intros [= <-]]. destruct (ProcessThrottler.shouldBeRunnable t).
  - intros [= <-]. destruct (_ || _);
      match goal with |- sameActivities t (ProcessThrottler.setAssertionType ?n ?t1) => exact (setAssertionType_same n t1) end.
  - destruct (bool_decide _); [|intros [= <-]; apply setAssertionType_same].
    cbn. destruct (ProcessThrottler.m_pendingRequestToSuspendID t); [done|]. intros [= <-].
    match goal with |- sameActivities t (ProcessThrottler.setAssertionType ?n ?t1) => exact (setAssertionType_same n t1) end.
Qed.

Lemma same_elem t t' k x : sameActivities t t' -> x ∈ activities k t' <-> x ∈ activities k t.
Proof. intros [Hf Hb]. destruct k; cbn; by rewrite ?Hf, ?Hb. Qed.

Lemma add_elem k a t t' : ProcessThrottler.addActivity k a t = Some t' ->
  forall k' x, x ∈ activities k' t' <-> x ∈ activities k' t \/ (k' = k /\ x = a).
Proof.
  unfold ProcessThrottler.addActivity. intros Ht k' x. rewrite (same_elem _ _ k' x (updateAssertion_same _ _ Ht)).
  assert (Hadd : forall l, x ∈ ProcessThrottler.hashSetAdd a l <-> x ∈ l \/ x = a).
  { intros l. unfold ProcessThrottler.hashSetAdd. destruct (decide (a ∈ l)); [intuition congruence|]. by rewrite elem_of_app, list_elem_of_singleton. }
  destruct k, k'; cbn; rewrite ?Hadd; intuition congruence.
Qed.

Lemma remove_elem k a t t' : ProcessThrottler.removeActivity k a t = Some t' ->
  forall k' x, x ∈ activities k' t' <-> x ∈ activities k' t /\ ~ (k' = k /\ x = a).
Proof.
  unfold ProcessThrottler.removeActivity. intros Ht k' x. rewrite (same_elem _ _ k' x (updateAssertion_same _ _ Ht)).
  assert (Hrem : forall l, x ∈ ProcessThrottler.hashSetRemove a l <-> x ∈ l /\ x <> a).
  { intros l. unfold ProcessThrottler.hashSetRemove. rewrite list_elem_of_filter. intuition congruence. }
  destruct k, k'; cbn; rewrite ?Hrem; intuition congruence.
Qed.

Lemma invalidate_elem k l : forall t t', ProcessThrottler.invalidateActivities k l t = Some t' ->
  forall k' x, x ∈ activities k' t' -> x ∈ activities k' t.
Proof.
  induction l as [|a l IH]; intros t t' Ht k' x Hx; [by injection Ht as <-|]. cbn in Ht.
  destruct (ProcessThrottler.removeActivity k a t) as [t1|] eqn:Hr; [|done]. apply (remove_elem _ _ _ _ Hr). by apply (IH t1 t').
Qed.

Lemma invalidateAll_elem t t' : ProcessThrottler.invalidateAllActivities t = Some t' -> forall k x, x ∈ activities k t' -> x ∈ activities k t.
Proof.
  unfold ProcessThrottler.invalidateAllActivities. intros Ht k x Hx.
  destruct (ProcessThrottler.invalidateActivities ForegroundActivity _ t) as [t1|] eqn:H1; [|done]. cbn in Ht.
  apply (invalidate_elem _ _ _ _ H1). by apply (invalidate_elem _ _ _ _ Ht).
Qed.

(** Which activities an event of the throttler may add or remove. *)
Definition addsActivity (e : ProcessThrottler.Event) (k : ProcessThrottler.ActivityType) (x : nat) : Prop := e = AddActivity k x.
Definition keepsActivity (e : ProcessThrottler.Event) (k : ProcessThrottler.ActivityType) (x : nat) : Prop :=
  match e with
  | RemoveActivity k' a => ~ (k = k' /\ x = a)
  | ProcessThrottler.UIAssertionExpires | ProcessThrottler.AssertionInvalidated | ProcessThrottler.Destroy => False
  | _ => True
  end.

Lemma exec_activities e t t' : ProcessThrottler.exec e t = Some t' ->
  forall k x, (x ∈ activities k t' -> x ∈ activities k t \/ addsActivity e k x) /\ (x ∈ activities k t -> keepsActivity e k x -> x ∈ activities k t') /\
    (addsActivity e k x -> x ∈ activities k t').
Proof.
  intros Ht k x. unfold addsActivity.
  assert (Hsame : sameActivities t t' -> (forall k' a, e <> AddActivity k' a) ->
    (x ∈ activities k t' -> x ∈ activities k t \/ e = AddActivity k x) /\ (x ∈ activities k t -> keepsActivity e k x -> x ∈ activities k t') /\
    (e = AddActivity k x -> x ∈ activities k t')).
  { intros Hs Hn. rewrite (same_elem _ _ k x Hs). specialize (Hn k x). intuition congruence. }
  destruct e; cbn [ProcessThrottler.exec keepsActivity] in *.
  - rewrite (add_elem _ _ _ _ Ht k x). intuition congruence.
  - rewrite (remove_elem _ _ _ _ Ht k x). intuition congruence.
  - apply Hsame; [|done]. unfold ProcessThrottler.didConnectToProcess in Ht. destruct (ProcessThrottler.m_assertion t); [done|].
    destruct (ProcessThrottler.m_assertion (ProcessThrottler.setAssertionType _ t)); [|done]. injection Ht as <-. apply setAssertionType_same.
  - apply Hsame; [|done]. unfold ProcessThrottler.prepareToSuspendTimeoutTimerFired in Ht. destruct (ProcessThrottler.m_pendingRequestToSuspendID _); [|done].
    injection Ht as <-. match goal with |- sameActivities t (ProcessThrottler.updateAssertionTypeNow ?t1) => exact (setAssertionType_same _ t1) end.
  - apply Hsame; [|done]. unfold ProcessThrottler.prepareToSuspendReply, ProcessThrottler.processReadyToSuspend in Ht. destruct (decide _); [|by injection Ht as <-].
    destruct (ProcessThrottler.m_pendingRequestToSuspendID t); [|done]. destruct (ProcessThrottler.m_assertion _); [|done]. injection Ht as <-.
    destruct (bool_decide _); [|done]. match goal with |- sameActivities t (ProcessThrottler.updateAssertionTypeNow ?t1) => exact (setAssertionType_same _ t1) end.
  - unfold ProcessThrottler.uiAssertionWillExpireImminently in Ht. destruct (ProcessThrottler.sendPrepareToSuspendIPC true t) as [t1|] eqn:H1; [|done]. cbn in Ht.
    destruct (ProcessThrottler.invalidateAllActivities t1) as [t2|] eqn:H2; [|done]. cbn in Ht. injection Ht as <-.
    split; [|split; [done|done]]. intros Hx. left. assert (Hx2 : x ∈ activities k t2) by (by destruct k).
    pose proof (invalidateAll_elem _ _ H2 k x Hx2) as Hx1. revert Hx1. unfold ProcessThrottler.sendPrepareToSuspendIPC in H1.
    destruct (ProcessThrottler.m_pendingRequestToSuspendID t); injection H1 as <-; rewrite (same_elem _ _ k x (setAssertionType_same _ _)); by destruct k.
  - split; [|done]. intros Hx. left. apply (invalidateAll_elem _ _ Ht) in Hx. by destruct k.
  - split; [|done]. intros Hx. left. by apply (invalidateAll_elem _ _ Ht).
Qed.

(** *** What the throttler's own messages leave alone *)

Definition clientsOf (l : list Handler) : list nat := omap (fun h => match callback h with ClientReply n => Some n | SuspendReply _ => None end) l.
Definition activitiesOf (l : list Handler) : list nat := omap activity l.
Definition clientMessages (l : list Message) : list Message := filter (fun m => isClientMessage m = true) l.
Arguments clientsOf : simpl never.
Arguments activitiesOf : simpl never.
Arguments clientMessages : simpl never.
Arguments handlers : simpl never.

(** The identifiers of the handlers that are held are distinct and were given out. *)
Definition identified p : Prop := NoDup (map fst (handlers p)) /\ Forall (fun id => (id <= nextAsyncReplyHandlerID p)%nat) (map fst (handlers p)).
Definition unused (info : option (nat * Handler)) p : Prop :=
  forall id h, info = Some (id, h) -> (id ∉ map fst (handlers p)) /\ (id <= nextAsyncReplyHandlerID p)%nat.

Lemma identified_add info p p' : identified p -> unused info p -> nextAsyncReplyHandlerID p' = nextAsyncReplyHandlerID p ->
  map fst (handlers p') ≡ₚ map fst (handlers p) ++ map fst (optionList info) -> identified p'.
Proof.
  intros [Hn Hb] Hu En Hp. unfold identified. rewrite En, Hp. destruct info as [[id h]|]; cbn; [|by rewrite app_nil_r]. destruct (Hu id h eq_refl) as [Hi Hle].
  split; [|apply Forall_app; split; [done|by constructor]]. apply NoDup_app. split; [done|]. split; [by intros x ? ->%list_elem_of_singleton|apply NoDup_singleton].
Qed.
Lemma identified_sub p p' l : identified p -> nextAsyncReplyHandlerID p' = nextAsyncReplyHandlerID p -> map fst (handlers p) ≡ₚ map fst (handlers p') ++ l -> identified p'.
Proof. intros [Hn Hb] En Hp. unfold identified. rewrite En. rewrite Hp in Hn, Hb. apply NoDup_app in Hn as (? & _ & _). by apply Forall_app in Hb as [? _]. Qed.
Lemma add_unused info p : unused info p -> addAsyncReplyHandler info (asyncReplyHandlers p) = asyncReplyHandlers p ++ optionList info.
Proof.
  intros Hu. destruct info as [[id h]|]; cbn; [|by rewrite app_nil_r]. rewrite decide_False; [done|]. intros Hin. destruct (Hu id h eq_refl) as [Hn _]. apply Hn. unfold handlers. rewrite map_app, elem_of_app. by right.
Qed.

Record throttledFrom (b : nat) p p' : Prop := {
  th_launcher : m_processLauncher p' = m_processLauncher p;
  th_connection : m_connection p' = m_connection p;
  th_alive : alive p' = alive p;
  th_called : called p' = called p;
  th_next : nextActivity p' = nextActivity p;
  th_clients : clientsOf (map snd (handlers p')) = clientsOf (map snd (handlers p));
  th_runLoop : clientsOf (runLoop p') = clientsOf (runLoop p) /\ activitiesOf (runLoop p') = activitiesOf (runLoop p);
  th_activities : activitiesOf (map snd (handlers p')) = activitiesOf (map snd (handlers p));
  th_wire : clientMessages (outgoing p') = clientMessages (outgoing p);
  th_pending : exists extra, m_pendingMessages p' = m_pendingMessages p ++ extra /\ clientMessages (map encoder extra) = [] /\ (state p <> Launching -> extra = []);
  th_launching : state p = Launching -> outgoing p' = outgoing p /\ asyncReplyHandlers p' = asyncReplyHandlers p;
  th_ids : identified p';
  th_next_id : (b <= nextAsyncReplyHandlerID p')%nat /\ forall id, id ∈ map fst (handlers p') -> id ∈ map fst (handlers p) \/ (b < id)%nat }.
Arguments th_launcher {b}. Arguments th_connection {b}. Arguments th_alive {b}. Arguments th_called {b}. Arguments th_next {b}. Arguments th_clients {b}. Arguments th_runLoop {b}.
Arguments th_activities {b}. Arguments th_wire {b}. Arguments th_pending {b}. Arguments th_launching {b}. Arguments th_ids {b}. Arguments th_next_id {b}.
#[local] Notation throttled p := (throttledFrom (nextAsyncReplyHandlerID p) p).

Lemma throttled_refl p : identified p -> throttled p p.
Proof. intros Hi. split; try done; [exists []; by rewrite app_nil_r|]. split; [lia|]. by left. Qed.

Lemma throttled_state b p p' : throttledFrom b p p' -> state p' = state p.
Proof. intros [H1 H2 _ _ _ _ _ _ _ _ _ _ _]. unfold state. by rewrite H1, H2. Qed.

Lemma throttled_trans p1 p2 p3 : throttled p1 p2 -> throttledFrom (nextAsyncReplyHandlerID p1) p2 p3 -> throttled p1 p3.
Proof.
  intros H12 H23. pose proof (throttled_state _ _ _ H12) as Hs. destruct H12 as [A1 A2 A3 A4 A5 A6 [A7 A7'] A8 A9 (x & A10 & A11 & A12) A13 A14 [A15 A16]].
  destruct H23 as [B1 B2 B3 B4 B5 B6 [B7 B7'] B8 B9 (y & B10 & B11 & B12) B13 B14 [B15 B16]]. split; try congruence; try done.
  - split; congruence.
  - exists (x ++ y). rewrite B10, A10, app_assoc. split; [done|]. split; [unfold clientMessages in *; by rewrite map_app, filter_app, A11, B11|].
    intros Hn. rewrite A12 by done. apply B12. by rewrite Hs.
  - intros Hl. destruct (A13 Hl) as [-> ->] || destruct (A13 Hl) as [<- <-]. apply B13. by rewrite Hs.
  - split; [lia|]. intros id Hid. destruct (B16 id Hid) as [Hid'|?]; [by apply A16|by right].
Qed.
Lemma throttledFrom_le b b' p p' : (b <= b')%nat -> throttledFrom b' p p' -> throttledFrom b p p'.
Proof. intros Hle [A1 A2 A3 A4 A5 A6 A7 A8 A9 A10 A11 A12 [A13 A14]]. split; try done. split; [lia|]. intros id Hid. destruct (A14 id Hid); [by left|right; lia]. Qed.
Lemma throttled_trans' p1 p2 p3 : throttled p1 p2 -> throttled p2 p3 -> throttled p1 p3.
Proof. intros H12 H23. eapply throttled_trans; [done|]. eapply throttledFrom_le; [|exact H23]. apply (th_next_id _ _ H12). Qed.

Lemma sendNow_throttled b m info p :
  (b <= nextAsyncReplyHandlerID p)%nat -> (forall id h, info = Some (id, h) -> (b < id)%nat) -> identified p -> unused info p -> isClientMessage m = false -> (forall x, info = Some x -> exists request, callback (snd x) = SuspendReply request /\ activity (snd x) = None) ->
  throttledFrom b p (fst (sendNow m info p)).
Proof.
  intros Hb1 Hb2 Hids Hun Hm Hi.
  assert (Hnew : forall p', nextAsyncReplyHandlerID p' = nextAsyncReplyHandlerID p -> (map fst (handlers p') ≡ₚ map fst (handlers p) ++ map fst (optionList info) \/ map fst (handlers p') = map fst (handlers p)) ->
    (b <= nextAsyncReplyHandlerID p')%nat /\ forall id, id ∈ map fst (handlers p') -> id ∈ map fst (handlers p) \/ (b < id)%nat).
  { intros p' En Hh. rewrite En. split; [done|]. intros id Hid. destruct Hh as [Hh|Hh]; [|left; by rewrite <- Hh]. rewrite Hh, elem_of_app in Hid. destruct Hid as [?|Hid]; [by left|]. destruct info as [[id' h]|]; [|by apply elem_of_nil in Hid].
    apply list_elem_of_singleton in Hid as ->. right. by eapply Hb2. }
  assert (Hc : forall l, clientsOf (l ++ map snd (optionList info)) = clientsOf l /\ activitiesOf (l ++ map snd (optionList info)) = activitiesOf l).
  { intros l. unfold clientsOf, activitiesOf. rewrite !omap_app. destruct info as [x|]; cbn; [|by rewrite !app_nil_r].
    destruct (Hi x eq_refl) as (r & -> & ->). by rewrite !app_nil_r. }
  assert (Hw : forall l, clientMessages (l ++ [m]) = clientMessages l).
  { intros l. unfold clientMessages. rewrite filter_app, filter_cons, decide_False by (by rewrite Hm). by rewrite app_nil_r. }
  unfold sendNow, connectionSend. rewrite add_unused by done. destruct (state p) eqn:Hs.
  - split; try done; cbn.
    + unfold handlers. cbn. rewrite omap_app, <- app_assoc, !map_app. unfold clientsOf. rewrite !omap_app. f_equal.
      destruct info as [x|]; cbn; [|done]. destruct (Hi x eq_refl) as (r & -> & _). done.
    + unfold handlers. cbn. rewrite omap_app, <- app_assoc, !map_app. unfold activitiesOf. rewrite !omap_app. f_equal.
      destruct info as [x|]; cbn; [|done]. destruct (Hi x eq_refl) as (r & _ & ->). done.
    + eexists. split; [done|]. split; [exact (Hw [])|by rewrite Hs].
    + apply (identified_add info p); [done..|]. unfold handlers. cbn. rewrite omap_app, !map_app, <- !app_assoc. apply Permutation_app_head. rewrite Permutation_app_comm. by destruct info.
    + match goal with |- _ /\ (forall id, id ∈ map fst (handlers ?q) -> _) => apply (Hnew q) end; [done|left]. unfold handlers. cbn. rewrite omap_app, !map_app, <- !app_assoc. apply Permutation_app_head. rewrite Permutation_app_comm. by destruct info.
  - assert (Hh : forall p', m_pendingMessages p' = m_pendingMessages p -> asyncReplyHandlers p' = asyncReplyHandlers p ++ optionList info ->
      clientsOf (map snd (handlers p')) = clientsOf (map snd (handlers p)) /\ activitiesOf (map snd (handlers p')) = activitiesOf (map snd (handlers p))).
    { intros p' Hp Ha. unfold handlers. rewrite Hp, Ha, app_assoc, map_app. apply Hc. }
    assert (Hid : forall p', m_pendingMessages p' = m_pendingMessages p -> asyncReplyHandlers p' = asyncReplyHandlers p ++ optionList info -> nextAsyncReplyHandlerID p' = nextAsyncReplyHandlerID p -> map fst (handlers p') = map fst (handlers p) ++ map fst (optionList info) /\ identified p').
    { intros p' Hp Ha En. assert (E : map fst (handlers p') = map fst (handlers p) ++ map fst (optionList info)) by (unfold handlers; by rewrite Hp, Ha, app_assoc, map_app). split; [done|]. apply (identified_add info p); [done..|by rewrite E]. }
    destruct (m_connection _) as [[|]|]; (split; try done; [by apply Hh | by apply Hh | .. | exists []; by rewrite app_nil_r | by rewrite Hs | by apply Hid | apply Hnew; [done|left]; match goal with |- map fst (handlers ?q) ≡ₚ _ => destruct (Hid q) as [-> _] end; done]); try by apply Hw.
  - assert (He : optionList (snd <$> info) = map snd (optionList info)) by (by destruct info).
    split; try done; cbn; [rewrite He; apply Hc | exists []; by rewrite app_nil_r | match goal with |- _ /\ (forall id, id ∈ map fst (handlers ?q) -> _) => apply (Hnew q) end; [done|by right]].
Qed.

Lemma identified_next p : identified p -> identified (p <| nextAsyncReplyHandlerID := S (nextAsyncReplyHandlerID p) |>).
Proof. intros [Hn Hb]. split; [done|]. eapply Forall_impl; [exact Hb|]. cbn. lia. Qed.
Lemma unused_next h p : identified p -> unused (Some (S (nextAsyncReplyHandlerID p), h)) (p <| nextAsyncReplyHandlerID := S (nextAsyncReplyHandlerID p) |>).
Proof.
  intros [_ Hb] id h' [= <- <-]. split; [|cbn; lia]. intros Hin. change (handlers (p <| nextAsyncReplyHandlerID := S (nextAsyncReplyHandlerID p) |>)) with (handlers p) in Hin.
  rewrite Forall_forall in Hb. specialize (Hb _ Hin). lia.
Qed.

Lemma sendForThrottler_throttled p o : identified p -> throttled p (sendForThrottler p o) /\ throttler (sendForThrottler p o) = throttler p.
Proof.
  intros Hids.
  assert (Ht : forall m info q, throttler (fst (sendNow m info q)) = throttler q).
  { intros m info q. unfold sendNow, connectionSend. destruct (state q); [done| |done]. by destruct (m_connection _) as [[|]|]. }
  unfold sendForThrottler, newListenerID. destruct o; [destruct (canSendMessage p)| |]; try (by split; [apply throttled_refl|]); (split; [|by rewrite Ht]).
  - by apply sendNow_throttled.
  - set (p1 := p <| nextAsyncReplyHandlerID := S (nextAsyncReplyHandlerID p) |>). apply (throttled_trans p p1).
    + split; try done; [exists []; by rewrite app_nil_r|by apply identified_next|]. split; [cbn; lia|]. by left.
    + apply sendNow_throttled; [cbn; lia|intros id h' [= <- _]; lia|by apply identified_next|by apply unused_next|done|]. intros x [= <-]. by eexists.
Qed.

Lemma throttle_spec e p p' :
  identified p -> throttle e p = Some p' -> throttled p p' /\
  if alive p then ProcessThrottler.exec e (throttler p) = Some (throttler p') else throttler p' = throttler p.
Proof.
  intros Hids. unfold throttle. destruct (alive p) eqn:Ha; [|intros [= <-]; by split; [apply throttled_refl|]].
  destruct (ProcessThrottler.exec e (throttler p)) as [t|] eqn:Ht; [|done]. intros Hp'. apply (inj Some) in Hp'. subst p'.
  assert (Hfold : forall l q, identified q -> throttled q (fold_left sendForThrottler l q) /\ throttler (fold_left sendForThrottler l q) = throttler q).
  { induction l as [|o l IH]; intros q Hq; cbn; [by split; [apply throttled_refl|]|].
    destruct (sendForThrottler_throttled q o Hq) as [H1 H2]. destruct (IH (sendForThrottler q o) (th_ids _ _ H1)) as [H3 H4].
    split; [by eapply throttled_trans'|congruence]. }
  set (l := drop _ _). set (p1 := p <| throttler := t |>). destruct (Hfold l p1 Hids) as [H1 H2]. split; [|by rewrite H2].
  apply (throttled_trans' p p1); [|done]. split; try done; [exists []; by rewrite app_nil_r|]. split; [done|]. by left.
Qed.

(** *** The invariant *)

Record ok p : Prop := {
  ok_throttler : alive p = true -> ProcessThrottler.inv (throttler p);
  ok_dead : alive p = false -> m_connection p = None /\ m_processLauncher p = None /\ m_pendingMessages p = [] /\ forall k x, x ∉ activities k (throttler p);
  ok_launching : state p = Launching ->
    m_connection p = None /\ outgoing p = [] /\ asyncReplyHandlers p = [] /\ ProcessThrottler.m_assertion (throttler p) = None;
  ok_connected : m_connection p <> None -> m_connection p = Some true /\ m_pendingMessages p = [];
  ok_fresh : forall k x, x ∈ activities k (throttler p) -> (x < nextActivity p)%nat;
  ok_handlers : forall x, x ∈ activitiesOf (map snd (handlers p)) -> (x < nextActivity p)%nat;
  ok_distinct : NoDup (activitiesOf (map snd (handlers p)));
  ok_runLoop : activitiesOf (runLoop p) = [];
  ok_loads : forall m, m ∈ m_pendingMessages p -> isWaitingLoad (encoder m) = true -> asyncReplyInfo m = None;
  ok_ids : identified p }.

Lemma exec_unconnected e t t' :
  ProcessThrottler.inv t -> ProcessThrottler.enabled e t -> e <> ProcessThrottler.ConnectToProcess ->
  ProcessThrottler.m_assertion t = None -> ProcessThrottler.exec e t = Some t' -> ProcessThrottler.m_assertion t' = None.
Proof.
  intros Hi He Hne Ha Ht. destruct (ProcessThrottler.core_unconnected t (ProcessThrottler.inv_core t Hi) Ha) as [Hp Htm].
  assert (Hup : forall t1 t2, ProcessThrottler.m_assertion t1 = None -> ProcessThrottler.updateAssertionIfNeeded t1 = Some t2 -> ProcessThrottler.m_assertion t2 = None).
  { intros t1 t2 H1 H2. unfold ProcessThrottler.updateAssertionIfNeeded in H2. rewrite H1 in H2. by injection H2 as <-. }
  assert (Hinv : forall k l t1 t2, ProcessThrottler.m_assertion t1 = None -> ProcessThrottler.invalidateActivities k l t1 = Some t2 -> ProcessThrottler.m_assertion t2 = None).
  { intros k l. induction l as [|x l IH]; intros t1 t2 H1 H2; cbn in H2; [by injection H2 as <-|].
    destruct (ProcessThrottler.removeActivity k x t1) as [t3|] eqn:Hr; [|done]. apply (IH t3); [|done]. eapply Hup; [|exact Hr]. by destruct k. }
  destruct e; cbn in He, Ht; try done.
  - eapply Hup; [|exact Ht]. by destruct k.
  - eapply Hup; [|exact Ht]. by destruct k.
  - by rewrite Htm in He.
  - unfold ProcessThrottler.prepareToSuspendReply in Ht. rewrite decide_False in Ht by (by rewrite Hp). by injection Ht as <-.
  - unfold ProcessThrottler.invalidateAllActivities in Ht. destruct (ProcessThrottler.invalidateActivities _ _ t) as [t1|] eqn:H1; [|done]. cbn in Ht.
    eapply Hinv; [|exact Ht]. by eapply Hinv.
Qed.

Lemma throttle_ok e p :
  ok p -> alive p = true -> ProcessThrottler.enabled e (throttler p) ->
  (e = ProcessThrottler.ConnectToProcess -> state p <> Launching) ->
  (forall k x, e = AddActivity k x -> (x < nextActivity p)%nat) ->
  exists p', throttle e p = Some p' /\ ok p' /\ throttled p p' /\ ProcessThrottler.exec e (throttler p) = Some (throttler p').
Proof.
  intros [K1 K2 K3 K4 K5 K6 K7 K8 K9 K10] Hal He Hconn Hadd. destruct (ProcessThrottler.exec_ok e (throttler p) (K1 Hal) He) as (t & Ht & Hinv).
  assert (Hex : exists p', throttle e p = Some p') by (unfold throttle; rewrite Hal, Ht; cbn; by eexists).
  destruct Hex as [p' Hp']. exists p'. split; [done|]. destruct (throttle_spec e p p' K10 Hp') as [Hth Hexec]. rewrite Hal, Ht in Hexec.
  apply (inj Some) in Hexec. split; [|by rewrite <- Hexec]. pose proof (throttled_state _ _ _ Hth) as Hst.
  destruct Hth as [T1 T2 T3 T4 T5 T6 [T7 T7'] T8 T9 (x & T10 & T11 & T12) T13 T14 T15]. split; [..|done].
  - intros _. by rewrite <- Hexec.
  - by rewrite T3, Hal.
  - rewrite Hst. intros Hl. destruct (K3 Hl) as (L1 & L2 & L3 & L4). destruct (T13 Hl) as [-> ->]. rewrite T2. split_and!; try done.
    rewrite <- Hexec. eapply exec_unconnected; [by apply K1 | exact He | | done | exact Ht]. intros ->. by apply Hconn.
  - rewrite T2. intros Hc. destruct (K4 Hc) as [-> Hn]. split; [done|]. rewrite T10, Hn, T12; [done|]. intros Hl. by destruct (K3 Hl).
  - intros k y Hy. rewrite T5. rewrite <- Hexec in Hy. destruct (exec_activities e _ _ Ht k y) as (Hfrom & _). destruct (Hfrom Hy); [by apply (K5 k)|by apply (Hadd k)].
  - rewrite T5, T8. done.
  - by rewrite T8.
  - by rewrite T7'.
  - intros m. rewrite T10, elem_of_app. intros [Hm|Hm]; [by apply K9|]. intros Hw. exfalso.
    assert (Hin : encoder m ∈ clientMessages (map encoder x)).
    { apply list_elem_of_filter. split; [by destruct (encoder m)|]. apply list_elem_of_In, in_map, list_elem_of_In, Hm. }
    rewrite T11 in Hin. by apply elem_of_nil in Hin.
Qed.

(** *** Conserved quantities *)

Definition answered p : list nat := clientsOf (map fst (called p)).
Definition waiting p : list nat := clientsOf (map snd (handlers p)) ++ clientsOf (runLoop p).

Definition resolve (m : Message) : list Message :=
  match m with
  | LoadRequestWaitingForProcessLaunch page load => if pageExists page then [LoadRequest page load] else []
  | m => [m]
  end.
Definition pendingClient p : list Message := flat_map resolve (clientMessages (map encoder (m_pendingMessages p))).
Definition flow p : list Message := clientMessages (outgoing p) ++ pendingClient p.
Definition held p : Prop :=
  alive p = true -> forall x, x ∈ activitiesOf (map snd (handlers p)) -> x ∈ activities BackgroundActivity (throttler p).

Lemma clientMessages_app l l' : clientMessages (l ++ l') = clientMessages l ++ clientMessages l'.
Proof. apply filter_app. Qed.
Lemma clientsOf_app l l' : clientsOf (l ++ l') = clientsOf l ++ clientsOf l'.
Proof. apply omap_app. Qed.
Lemma activitiesOf_app l l' : activitiesOf (l ++ l') = activitiesOf l ++ activitiesOf l'.
Proof. apply omap_app. Qed.

Lemma throttled_view p p' : throttled p p' -> answered p' = answered p /\ waiting p' = waiting p /\ flow p' = flow p.
Proof.
  intros [T1 T2 T3 T4 T5 T6 [T7 T7'] T8 T9 (x & T10 & T11 & T12) T13 T14 T15]. split; [unfold answered; by rewrite T4|]. split.
  - unfold waiting. by rewrite T6, T7.
  - unfold flow, pendingClient. by rewrite T9, T10, map_app, clientMessages_app, T11, app_nil_r.
Qed.

Lemma throttled_held e p p' :
  held p -> throttled p p' -> alive p = true -> ProcessThrottler.exec e (throttler p) = Some (throttler p') ->
  (forall x, x ∈ activitiesOf (map snd (handlers p)) -> keepsActivity e BackgroundActivity x) -> held p'.
Proof.
  intros Hh Hth Hal Hex Hk _ x Hx. rewrite (th_activities _ _ Hth) in Hx. destruct (exec_activities e _ _ Hex BackgroundActivity x) as (_ & Hkeep & _).
  apply Hkeep; auto.
Qed.

(** *** Handlers are called *)

Lemma ok_called l p : ok p -> ok (p <| called := l |>).
Proof. by intros []. Qed.

Lemma throttled_called l b p p' : throttledFrom b p p' -> throttledFrom b (p <| called := l |>) (p' <| called := l |>).
Proof. by intros []. Qed.

Lemma callHandler_ok h reply p :
  ok p -> exists p', callHandler h reply p = Some p' /\ ok p' /\ throttled (p <| called := called p ++ [(h, reply)] |>) p' /\
    (alive p = false -> outgoing p' = outgoing p) /\
    (held p -> (forall a, activity h = Some a -> a ∉ activitiesOf (map snd (handlers p))) -> held p').
Proof.
  intros Hok. unfold callHandler. set (p1 := p <| called := called p ++ [(h, reply)] |>). assert (Hok1 : ok p1) by (by apply ok_called).
  assert (H2 : exists p2, match callback h with SuspendReply request => throttle (ProcessThrottler.Reply request) p1 | ClientReply _ => Some p1 end = Some p2 /\
    ok p2 /\ throttled p1 p2 /\ (alive p = false -> outgoing p2 = outgoing p /\ throttler p2 = throttler p) /\ (held p1 -> held p2)).
  { destruct (callback h) as [n|request]; [exists p1; split_and!; try done; apply throttled_refl, Hok|].
    destruct (alive p1) eqn:Hal.
    - destruct (throttle_ok (ProcessThrottler.Reply request) p1 Hok1 Hal) as (p2 & E2 & O2 & T2 & X2); [done|done|done|].
      exists p2. split_and!; try done; [intros Hd; change (alive p1) with (alive p) in Hal; congruence|]. intros Hh. by eapply throttled_held.
    - exists p1. unfold throttle. rewrite Hal. split_and!; try done. apply throttled_refl, Hok. }
  destruct H2 as (p2 & -> & O2 & T2 & D2 & Hh2). cbn. destruct (activity h) as [a|]; cycle 1.
  { exists p2. split_and!; try done; [by intros Hd; destruct (D2 Hd)|]. intros Hh _. by apply Hh2. }
  destruct (decide (a ∈ ProcessThrottler.m_backgroundActivities (throttler p2))) as [Hin|Hin]; cycle 1.
  { exists p2. split_and!; try done; [by intros Hd; destruct (D2 Hd)|]. intros Hh _. by apply Hh2. }
  assert (Hal : alive p2 = true).
  { destruct (alive p2) eqn:Hal; [done|]. destruct (ok_dead p2 O2 Hal) as (_ & _ & _ & Hno). by destruct (Hno BackgroundActivity a). }
  destruct (throttle_ok (RemoveActivity BackgroundActivity a) p2 O2 Hal) as (p3 & E3 & O3 & T3 & X3); [done|done|done|].
  exists p3. split; [done|]. split; [done|]. split; [by apply (throttled_trans' p1 p2)|]. split.
  - intros Hd. pose proof (th_alive _ _ T2) as Ha. change (alive p1) with (alive p) in Ha. congruence.
  - intros Hh Hno. eapply throttled_held; [by apply Hh2 | done | done | done |]. intros x Hx [_ ->]. rewrite (th_activities _ _ T2) in Hx. by apply (Hno a).
Qed.

Lemma callHandlers_ok reply l : forall p,
  ok p -> exists p', callHandlers l reply p = Some p' /\ ok p' /\ throttled (p <| called := called p ++ map (., reply) l |>) p' /\
    (alive p = false -> outgoing p' = outgoing p) /\
    (held p -> (forall h a, h ∈ l -> activity h = Some a -> a ∉ activitiesOf (map snd (handlers p))) -> held p').
Proof.
  induction l as [|h l IH]; intros p Hok; cbn.
  - exists p. split_and!; try done. rewrite app_nil_r. destruct p. apply throttled_refl, Hok.
  - destruct (callHandler_ok h reply p Hok) as (p1 & -> & O1 & T1 & D1 & Hh1). cbn. destruct (IH p1 O1) as (p2 & E2 & O2 & T2 & D2 & Hh2).
    exists p2. split; [done|]. split; [done|]. split; [|split].
    + match goal with |- throttledFrom _ ?q p2 => apply (throttled_trans' q (p1 <| called := called p1 ++ map (., reply) l |>)) end; [|exact T2]. pose proof (th_called _ _ T1) as Hc. rewrite Hc. cbn.
      rewrite <- app_assoc. cbn. exact (throttled_called (called p ++ (h, reply) :: map (., reply) l) _ _ _ T1).
    + intros Hd. rewrite D2, D1; [done|done|]. rewrite (th_alive _ _ T1). done.
    + intros Hh Hno. apply Hh2; [apply Hh1; [done|]; intros a; apply (Hno h a); by left|].
      intros h' a Hin Ha. rewrite (th_activities _ _ T1). apply (Hno h' a); [by right|done].
Qed.

(** *** Messages are sent *)

Lemma sendNow_spec m info p :
  ok p -> unused info p -> isClientMessage m = true -> (isWaitingLoad m = true -> state p = Launching /\ info = None) ->
  (forall x, x ∈ activitiesOf (map snd (optionList info)) -> (x < nextActivity p)%nat /\ (x ∉ activitiesOf (map snd (handlers p))) /\ state p <> Terminated) ->
  NoDup (activitiesOf (map snd (optionList info))) ->
  let p' := fst (sendNow m info p) in
  ok p' /\ throttler p' = throttler p /\ called p' = called p /\ alive p' = alive p /\
  waiting p' ≡ₚ waiting p ++ clientsOf (map snd (optionList info)) /\
  activitiesOf (map snd (handlers p')) ≡ₚ activitiesOf (map snd (handlers p)) ++ activitiesOf (map snd (optionList info)) /\
  flow p' = flow p ++ (if snd (sendNow m info p) then resolve m else []).
Proof.
  intros Hok Hun Hm Hw Hfresh Hnd. pose proof Hok as [K1 K2 K3 K4 K5 K6 K7 K8 K9 K10].
  assert (Hcm : clientMessages [m] = [m]) by (unfold clientMessages; by rewrite filter_cons, decide_True by done).
  assert (Hadd : forall l, l ≡ₚ activitiesOf (map snd (handlers p)) ++ activitiesOf (map snd (optionList info)) ->
    NoDup l /\ forall x, x ∈ l -> (x < nextActivity p)%nat).
  { intros l Hl. split.
    - rewrite Hl. apply NoDup_app. split; [done|]. split; [|done]. intros x Hx1 Hx2. by destruct (Hfresh x Hx2) as (_ & ? & _).
    - intros x. rewrite Hl, elem_of_app. intros [Hx|Hx]; [by apply K6|by apply Hfresh]. }
  unfold sendNow. destruct (state p) eqn:Hs; cbn [fst snd].
  - set (p' := p <| m_pendingMessages := _ |>). destruct (K3 eq_refl) as (L1 & L2 & L3 & L4).
    assert (Hh0 : handlers p' = handlers p ++ optionList info).
    { unfold handlers. cbn. rewrite L3, !app_nil_r, omap_app. by destruct info. }
    assert (Hh : map snd (handlers p') = map snd (handlers p) ++ map snd (optionList info)) by (by rewrite Hh0, map_app).
    assert (Hf0 : map fst (handlers p') ≡ₚ map fst (handlers p) ++ map fst (optionList info)) by (by rewrite Hh0, map_app).
    assert (Ha : activitiesOf (map snd (handlers p')) = activitiesOf (map snd (handlers p)) ++ activitiesOf (map snd (optionList info))) by (by rewrite Hh, activitiesOf_app).
    destruct (Hadd _ (reflexivity _)) as [Hn Hf]. split_and!; try done.
    + split; try done; cbn; rewrite ?Ha; try done.
      * intros Hd. destruct (K2 Hd) as (_ & Hl & _). unfold state in Hs. by rewrite Hl, L1 in Hs.
      * intros m'. rewrite elem_of_app, list_elem_of_singleton. intros [Hin| ->]; [by apply K9|]. cbn. intros Hwl. by destruct (Hw Hwl).
      * by apply (identified_add info p).
    + unfold waiting. rewrite Hh, clientsOf_app. cbn. rewrite <- !app_assoc. f_equiv. apply Permutation_app_comm.
    + by rewrite Ha.
    + unfold flow, pendingClient. cbn. rewrite map_app, clientMessages_app, flat_map_app. change (map encoder [mkPendingMessage m info]) with [m]. rewrite Hcm. cbn. by rewrite app_nil_r, <- app_assoc.
  - assert (Hc : m_connection p = Some true).
    { unfold state in Hs. destruct (m_connection p) eqn:Hmc; [by destruct K4|]. destruct (m_processLauncher p) as [[|]|]; done. }
    destruct K4 as [_ Hpn]; [by rewrite Hc|]. unfold connectionSend. rewrite add_unused by done. cbn. rewrite Hc. cbn.
    set (p' := mkProxy _ _ _ _ _ _ _ _ _ _ _).
    assert (Hh0 : handlers p' = handlers p ++ optionList info) by (unfold handlers; cbn; by rewrite app_assoc).
    assert (Hh : map snd (handlers p') = map snd (handlers p) ++ map snd (optionList info)) by (by rewrite Hh0, map_app).
    assert (Hf0 : map fst (handlers p') ≡ₚ map fst (handlers p) ++ map fst (optionList info)) by (by rewrite Hh0, map_app).
    assert (Ha : activitiesOf (map snd (handlers p')) = activitiesOf (map snd (handlers p)) ++ activitiesOf (map snd (optionList info))) by (by rewrite Hh, activitiesOf_app).
    destruct (Hadd _ (reflexivity _)) as [Hn Hf]. split_and!; try done.
    + split; try done; cbn; rewrite ?Ha; try done; [intros Hd; destruct (K2 Hd) as (Hl & _); by rewrite Hl in Hc| |by apply (identified_add info p)].
      intros Hl. unfold state in Hl, Hs. cbn in Hl. rewrite Hc in Hs. congruence.
    + unfold waiting. rewrite Hh, clientsOf_app. cbn. rewrite <- !app_assoc. f_equiv. apply Permutation_app_comm.
    + by rewrite Ha.
    + unfold flow, pendingClient. cbn. rewrite clientMessages_app, Hcm, Hpn. cbn. rewrite !app_nil_r. f_equal.
      destruct m; try done. by destruct Hw.
  - set (p' := p <| runLoop := _ |>). assert (He : optionList (snd <$> info) = map snd (optionList info)) by (by destruct info).
    assert (Hi : activitiesOf (map snd (optionList info)) = []).
    { destruct (activitiesOf (map snd (optionList info))) as [|x l] eqn:Hx; [done|]. destruct (Hfresh x) as (_ & _ & ?); [by left|done]. }
    split_and!; try done.
    + split; try done; [intros Hl; change (state p') with (state p) in Hl; congruence|]. cbn. by rewrite He, activitiesOf_app, K8, Hi.
    + unfold waiting. cbn. by rewrite He, clientsOf_app, app_assoc.
    + change (handlers p') with (handlers p). by rewrite Hi, app_nil_r.
    + by rewrite app_nil_r.
Qed.

(** *** Every event *)

Definition askedBy (e : Event) : list nat := match e with SendWithAsyncReply _ n _ _ => [n] | _ => [] end.
Definition expires (e : Event) : bool :=
  match e with ThrottlerEvent (ProcessThrottler.UIAssertionExpires | ProcessThrottler.AssertionInvalidated) => true | _ => false end.
Definition acceptedMessage (e : Event) p : list Message := if accepted e p then optionList (messageOf e) else [].

Record leads (e : Event) p p' : Prop := {
  lead_ok : ok p';
  lead_replies : answered p' ++ waiting p' ≡ₚ (answered p ++ waiting p) ++ askedBy e;
  lead_flow : alive p' = true -> flow p' = flow p ++ flat_map resolve (acceptedMessage e p);
  lead_dead : alive p' = false -> clientMessages (outgoing p') = clientMessages (outgoing p) /\ acceptedMessage e p = [];
  lead_held : held p -> expires e = false -> held p' }.

Lemma send_leads m p : ok p -> enabled (Send m) p -> leads (Send m) p (fst (send m p)).
Proof.
  intros Hok (Hal & Hm & Hw). unfold send.
  destruct (sendNow_spec m None p Hok ltac:(done) Hm) as (O & E1 & E2 & E3 & E4 & E5 & E6); [by intros ?; split; auto | by intros x ?%elem_of_nil | by constructor |].
  cbn in E4, E5. rewrite app_nil_r in E4, E5. set (p' := fst (sendNow m None p)) in *. split; [done| | | |].
  - unfold answered. rewrite E2, E4. by rewrite app_nil_r.
  - intros _. rewrite E6. unfold acceptedMessage. cbn. unfold send. destruct (snd (sendNow m None p)); cbn; by rewrite ?app_nil_r.
  - rewrite E3, Hal. done.
  - intros Hh _ Hal' x Hx. rewrite E1. apply Hh; [done|]. by rewrite <- E5.
Qed.

Lemma ok_listener p : ok p -> ok (p <| nextAsyncReplyHandlerID := S (nextAsyncReplyHandlerID p) |>).
Proof. intros []. split; try done. by apply identified_next. Qed.
Lemma ok_nextActivity p : ok p -> ok (p <| nextActivity := S (nextActivity p) |>).
Proof. intros [K1 K2 K3 K4 K5 K6 K7 K8 K9 K10]. split; try done; cbn; [intros k x Hx; specialize (K5 k x Hx) | intros x Hx; specialize (K6 x Hx)]; lia. Qed.

(** A new activity of either kind. *)
Lemma startActivity_ok k p :
  ok p -> alive p = true -> exists p', startActivity k p = Some p' /\ ok p' /\ throttled (p <| nextActivity := S (nextActivity p) |>) p' /\
    (held p -> held p') /\ nextActivity p ∈ activities k (throttler p') /\ (nextActivity p ∉ activitiesOf (map snd (handlers p'))).
Proof.
  intros Hok Hal. unfold startActivity. set (p1 := p <| nextActivity := _ |>). pose proof (ok_nextActivity p Hok) as Hok1.
  destruct (throttle_ok (AddActivity k (nextActivity p)) p1 Hok1 Hal) as (p2 & E & O & T & X).
  - cbn. intros Hin. pose proof (ok_fresh p Hok k _ Hin). lia.
  - done.
  - intros k' x [= -> <-]. cbn. lia.
  - exists p2. split_and!; try done.
    + intros Hh. by eapply (throttled_held _ p1).
    + destruct (exec_activities _ _ _ X k (nextActivity p)) as (_ & _ & Ha). by apply Ha.
    + rewrite (th_activities _ _ T). intros Hin. change (handlers p1) with (handlers p) in Hin. pose proof (ok_handlers p Hok _ Hin). lia.
Qed.

Lemma sendWithAsyncReply_leads m n prot should p :
  ok p -> enabled (SendWithAsyncReply m n prot should) p ->
  exists p', exec (SendWithAsyncReply m n prot should) p = Some p' /\ leads (SendWithAsyncReply m n prot should) p p'.
Proof.
  intros Hok (Hal & Hm & Hw). cbn [exec]. set (e := SendWithAsyncReply m n prot should).
  assert (Hacc : forall q b, sendWithAsyncReply m n prot should p = Some (q, b) -> acceptedMessage e p = if b then [m] else []).
  { intros q b Hq. unfold acceptedMessage, e. cbn [accepted messageOf]. by rewrite Hq. }
  unfold sendWithAsyncReply, newListenerID in *. set (p1 := p <| nextAsyncReplyHandlerID := _ |>) in *. pose proof (ok_listener p Hok) as Hok1.
  change (ok p1) in Hok1. set (id := S (nextAsyncReplyHandlerID p)) in *.
  destruct (canSendMessage p1 && should) eqn:Hc.
  - apply andb_prop in Hc as [Hc _]. apply bool_decide_eq_true in Hc.
    destruct (startActivity_ok BackgroundActivity p1 Hok1 Hal) as (p2 & E2 & O2 & T2 & H2 & A2 & N2). rewrite E2 in *. cbn [mbind option_bind] in *.
    set (info := Some (id, mkHandler (ClientReply n) (Some (nextActivity p1)) prot)) in *. pose proof (throttled_state _ _ _ T2) as Hst.
    assert (Hun : unused info p2).
    { intros id' h' [= <- <-]. destruct (th_next_id _ _ T2) as [Hle Hnew]. split; [|exact Hle]. intros Hin. destruct (unused_next (mkHandler (ClientReply n) None prot) p (ok_ids p Hok) _ _ eq_refl) as [Hn _].
      destruct (Hnew _ Hin) as [Hin'|Hlt]; [by apply Hn|]. cbn in Hlt. unfold id in Hlt. lia. }
    destruct (sendNow_spec m info p2 O2 Hun Hm) as (O & E1 & Ec & Ea & E4 & E5 & E6).
    { by rewrite Hw. }
    { intros x. cbn. intros ->%list_elem_of_singleton. split; [rewrite (th_next _ _ T2); cbn; lia|]. split; [done|]. by rewrite Hst. }
    { apply NoDup_singleton. }
    destruct (throttled_view _ _ T2) as (V1 & V2 & V3). rewrite (surjective_pairing (sendNow m info p2)) in Hacc. specialize (Hacc _ _ eq_refl).
    exists (fst (sendNow m info p2)). split; [done|]. split; [done| | | |].
    + unfold answered in *. rewrite Ec, V1, E4, V2. cbn. by rewrite app_assoc.
    + intros _. rewrite E6, V3, Hacc. destruct (snd _); cbn; by rewrite ?app_nil_r.
    + rewrite Ea, (th_alive _ _ T2). change (alive p = false -> clientMessages (outgoing (fst (sendNow m info p2))) = clientMessages (outgoing p) /\ acceptedMessage e p = []). by rewrite Hal.
    + intros Hh _ Hal' x Hx. rewrite E5, elem_of_app in Hx. rewrite E1. destruct Hx as [Hx|Hx]; [|cbn in Hx; by apply list_elem_of_singleton in Hx as ->].
      apply (H2 Hh); [|done]. by rewrite <- Ea.
  - set (info := Some (id, mkHandler (ClientReply n) None prot)) in *.
    destruct (sendNow_spec m info p1 Hok1 (unused_next _ p (ok_ids p Hok)) Hm) as (O & E1 & Ec & Ea & E4 & E5 & E6); [by rewrite Hw | by intros x ?%elem_of_nil | by constructor |].
    rewrite (surjective_pairing (sendNow m info p1)) in Hacc. specialize (Hacc _ _ eq_refl).
    exists (fst (sendNow m info p1)). split; [done|]. split; [done| | | |].
    + unfold answered in *. rewrite Ec, E4. cbn. by rewrite app_assoc.
    + intros _. rewrite E6, Hacc. change (flow p1) with (flow p). destruct (snd _); cbn; by rewrite ?app_nil_r.
    + rewrite Ea. change (alive p1) with (alive p). by rewrite Hal.
    + intros Hh _ Hal' x Hx. rewrite E5, app_nil_r in Hx. rewrite E1. apply Hh; [done|done].
Qed.

(** The proxy lets go of launcher and connection; nothing else changes. *)
Record released p p' : Prop := {
  rel_state : state p' <> Launching /\ m_connection p' = None;
  rel_pending : m_pendingMessages p' = m_pendingMessages p;
  rel_handlers : asyncReplyHandlers p' = asyncReplyHandlers p;
  rel_throttler : throttler p' = throttler p;
  rel_runLoop : runLoop p' = runLoop p;
  rel_next : nextActivity p' = nextActivity p /\ nextAsyncReplyHandlerID p' = nextAsyncReplyHandlerID p;
  rel_alive : alive p' = alive p;
  rel_called : called p' = called p;
  rel_wire : clientMessages (outgoing p') = clientMessages (outgoing p) }.

Lemma shutDown_released p : (state p = Launching -> m_connection p = None) -> released p (shutDownProcess p).
Proof.
  intros Hl. unfold shutDownProcess. destruct (state p) eqn:Hs.
  - split; try done. split; [|by apply Hl]. unfold state. cbn. by rewrite (Hl eq_refl).
  - unfold canSendMessage. rewrite bool_decide_true by (by rewrite Hs). unfold send, sendNow. rewrite Hs. unfold connectionSend.
    assert (Hn : m_processLauncher p <> Some true) by (intros Hp; unfold state in Hs; by rewrite Hp in Hs).
    destruct (m_connection _) as [[|]|]; cbn; (split; try done; cbn; [split; [unfold state; cbn; by destruct (m_processLauncher p) as [[|]|]|done] | ..]; try done).
    rewrite clientMessages_app. apply app_nil_r.
  - split; try done. split; [by rewrite Hs|]. unfold state in Hs. destruct (m_processLauncher p) as [[|]|], (m_connection p); done.
Qed.

Lemma released_leads e p p' :
  ok p -> released p p' -> alive p = true -> askedBy e = [] -> messageOf e = None -> leads e p p'.
Proof.
  intros [K1 K2 K3 K4 K5 K6 K7 K8 K9 K10] [[R1 R1'] R2 R3 R4 R5 [R6 R6'] R7 R8 R9] Hal Ha Hm.
  assert (Hh : handlers p' = handlers p) by (unfold handlers; by rewrite R2, R3).
  assert (Hacc : acceptedMessage e p = []) by (unfold acceptedMessage; rewrite Hm; by destruct (accepted e p)).
  split; [split| | | |]; rewrite ?R4, ?R6, ?Hh, ?R5, ?R7, ?R2, ?R1'; try done.
  - by rewrite Hal.
  - unfold identified. by rewrite Hh, R6'.
  - unfold answered, waiting. by rewrite R8, Hh, R5, Ha, app_nil_r.
  - intros _. rewrite Hacc. unfold flow, pendingClient. by rewrite R9, R2, app_nil_r.
  - intros Hhd _ Hal' x. rewrite Hh, R4. apply Hhd. congruence.
Qed.

Lemma shutDown_leads p : ok p -> alive p = true -> leads ShutDownProcess p (shutDownProcess p).
Proof. intros Hok Hal. apply released_leads; try done. apply shutDown_released. intros Hl. apply (ok_launching p Hok Hl). Qed.

Lemma launchFails_leads p : ok p -> enabled LaunchFails p -> leads LaunchFails p (didFailToLaunch p).
Proof.
  intros Hok [Hal Hl]. assert (Hs : state p = Launching) by (unfold state; by rewrite Hl). destruct (ok_launching p Hok Hs) as (Hc & _).
  apply released_leads; try done. unfold didFailToLaunch. set (p1 := p <| m_processLauncher := Some false |>).
  assert (Hs1 : state p1 = Terminated) by (unfold state; cbn; by rewrite Hc). unfold shutDownProcess. rewrite Hs1. split; try done. split; [by rewrite Hs1|done].
Qed.

Lemma connectionCloses_leads p : ok p -> enabled ConnectionCloses p -> leads ConnectionCloses p (didClose p).
Proof.
  intros Hok [Hal Hc]. assert (Hnl : m_processLauncher p <> Some true).
  { intros Hl. destruct (ok_launching p Hok) as (Hn & _); [unfold state; by rewrite Hl|congruence]. }
  apply released_leads; try done. unfold didClose. set (p1 := p <| m_connection := Some false |>).
  destruct (shutDown_released p1) as [R1 R2 R3 R4 R5 R6 R7 R8 R9]; [|by split].
  unfold state. cbn. destruct (m_processLauncher p) as [[|]|]; done.
Qed.

(** *** The launch *)

Lemma sendPending_fold L : forall q,
  state q = Running -> m_connection q = Some true -> NoDup (map fst (asyncReplyHandlers q ++ omap asyncReplyInfo L)) -> (forall m, m ∈ L -> isWaitingLoad (encoder m) = true -> asyncReplyInfo m = None) ->
  exists X, fold_left sendPendingMessage L q =
    q <| outgoing := outgoing q ++ X |> <| asyncReplyHandlers := asyncReplyHandlers q ++ omap asyncReplyInfo L |> /\
    clientMessages X = flat_map resolve (clientMessages (map encoder L)).
Proof.
  induction L as [|m L IH]; intros q Hs Hc Hnd Hload.
  - exists []. cbn. split; [|done]. rewrite !app_nil_r. by destruct q.
  - cbn [fold_left]. set (q1 := sendPendingMessage q m).
    assert (H1 : exists X1, q1 = q <| outgoing := outgoing q ++ X1 |> <| asyncReplyHandlers := asyncReplyHandlers q ++ optionList (asyncReplyInfo m) |> /\
      clientMessages X1 = flat_map resolve (clientMessages [encoder m])).
    { assert (Hsend : forall message info, info = asyncReplyInfo m \/ info = None -> fst (connectionSend message info q) =
        q <| outgoing := outgoing q ++ [message] |> <| asyncReplyHandlers := asyncReplyHandlers q ++ optionList info |>).
      { intros message info Hinfo. unfold connectionSend. assert (E : addAsyncReplyHandler info (asyncReplyHandlers q) = asyncReplyHandlers q ++ optionList info); [|rewrite E; cbn; by rewrite Hc].
        destruct info as [[id h]|]; [|cbn; by rewrite app_nil_r]. destruct Hinfo as [Hinfo|?]; [|done]. cbn. rewrite decide_False; [done|]. intros Hin.
        cbn in Hnd. rewrite <- Hinfo, map_app in Hnd. apply NoDup_app in Hnd as (_ & Hdis & _). apply (Hdis id Hin). cbn. by left. }
      subst q1. unfold sendPendingMessage. specialize (Hload m (list_elem_of_here _ _)). destruct (encoder m) eqn:Hm; try (exists [encoder m]; rewrite Hm; by rewrite Hsend by (by left)).
      rewrite (Hload eq_refl). unfold clientMessages at 2. rewrite filter_cons, decide_True, filter_nil by done. cbn [flat_map resolve]. rewrite app_nil_r. destruct (pageExists page).
      - exists [LoadRequest page load]. unfold send, sendNow. rewrite Hs, Hsend by (by right). split; [cbn; by rewrite app_nil_r|done].
      - exists []. split; [|done]. cbn. rewrite !app_nil_r. by destruct q. }
    destruct H1 as (X1 & Hq1 & Hx1). destruct (IH q1) as (X & Hq & Hx).
    + unfold state in *. rewrite Hq1. exact Hs.
    + rewrite Hq1. exact Hc.
    + rewrite Hq1. cbn in Hnd |- *. rewrite <- app_assoc. by destruct (asyncReplyInfo m).
    + intros m' Hm'. apply Hload. by right.
    + exists (X1 ++ X). rewrite Hq, Hq1. split.
      * cbn. rewrite <- !app_assoc. by destruct (asyncReplyInfo m).
      * rewrite clientMessages_app, Hx1, Hx, <- flat_map_app, <- clientMessages_app. done.
Qed.

Lemma launch_leads p : ok p -> enabled LaunchSucceeds p -> exists p', exec LaunchSucceeds p = Some p' /\ leads LaunchSucceeds p p'.
Proof.
  intros Hok [Hal Hl]. pose proof Hok as [K1 K2 K3 K4 K5 K6 K7 K8 K9 K10]. assert (Hs : state p = Launching) by (unfold state; by rewrite Hl).
  destruct (K3 Hs) as (L1 & L2 & L3 & L4). cbn [exec]. unfold didFinishLaunching.
  set (q := p <| m_processLauncher := Some false |> <| m_connection := Some true |> <| m_pendingMessages := [] |>).
  destruct (sendPending_fold (m_pendingMessages p) q) as (X & Hq & Hx); [done|done| |exact K9|].
  { cbn. rewrite L3. cbn. destruct K10 as [Hn _]. unfold handlers in Hn. by rewrite L3, app_nil_r in Hn. }
  change (m_pendingMessages (p <| m_processLauncher := Some false |> <| m_connection := Some true |>)) with (m_pendingMessages p). rewrite Hq.
  set (p1 := q <| outgoing := outgoing q ++ X |> <| asyncReplyHandlers := asyncReplyHandlers q ++ omap asyncReplyInfo (m_pendingMessages p) |>).
  assert (Hh : handlers p1 = handlers p) by (unfold handlers; cbn; by rewrite L3, app_nil_r).
  assert (Hok1 : ok p1).
  { split; rewrite ?Hh; try done; [cbn; by rewrite Hal | by intros m ?%elem_of_nil|]. unfold identified. by rewrite Hh. }
  assert (Hfl : flow p1 = flow p).
  { unfold flow, pendingClient. cbn. by rewrite clientMessages_app, Hx, L2, app_nil_r. }
  assert (Hld : leads LaunchSucceeds p p1).
  { split; try done.
    - unfold answered, waiting. rewrite Hh. cbn. by rewrite app_nil_r.
    - intros _. rewrite Hfl. cbn. by rewrite app_nil_r.
    - cbn. by rewrite Hal.
    - intros Hhd _ Hal' x. rewrite Hh. by apply Hhd. }
  destruct connectsThrottler; [|by exists p1].
  destruct (throttle_ok ProcessThrottler.ConnectToProcess p1 Hok1 Hal) as (p2 & E2 & O2 & T2 & X2); [exact L4|done|done|].
  exists p2. split; [done|]. destruct (throttled_view _ _ T2) as (V1 & V2 & V3). destruct Hld as [H1 H2 H3 H4 H5]. split; [done| | | |].
  - by rewrite V1, V2.
  - rewrite V3, (th_alive _ _ T2). done.
  - rewrite (th_alive _ _ T2). cbn. by rewrite Hal.
  - intros Hhd He. eapply throttled_held; [by apply H5 | done | done | exact X2 | done].
Qed.

(** *** Replies and ends *)

(** [taken] are handlers that were taken out of [p] to be called, which left [p0]. *)
Record takenOut p p0 (taken : list Handler) : Prop := {
  tk_ok : ok p0;
  tk_called : called p0 = called p;
  tk_waiting : waiting p ≡ₚ waiting p0 ++ clientsOf taken;
  tk_wire : clientMessages (outgoing p0) = clientMessages (outgoing p);
  tk_flow : alive p0 = true -> flow p0 = flow p;
  tk_held : held p -> held p0;
  tk_activities : forall h a, h ∈ taken -> activity h = Some a -> a ∉ activitiesOf (map snd (handlers p0)) }.

Lemma callHandlers_leads e taken reply p p0 :
  takenOut p p0 taken -> askedBy e = [] -> messageOf e = None -> exists p', callHandlers taken reply p0 = Some p' /\ leads e p p'.
Proof.
  intros [H1 H2 H3 H4 H5 H6 H7] Ha Hm. assert (Hacc : acceptedMessage e p = []) by (unfold acceptedMessage; rewrite Hm; by destruct (accepted e p)).
  destruct (callHandlers_ok reply taken p0 H1) as (p' & Hp' & O & T & D & Hh). exists p'. split; [done|].
  destruct (throttled_view _ _ T) as (V1 & V2 & V3). pose proof (th_alive _ _ T) as Hal. cbn in Hal. split; [done| | | |].
  - rewrite V1, V2, Ha, app_nil_r. unfold answered. cbn. rewrite H2, map_app, clientsOf_app, map_map, H3. cbn. rewrite map_id, <- app_assoc. f_equiv. apply Permutation_app_comm.
  - rewrite V3, Hal, Hacc. intros Hal0. cbn. rewrite app_nil_r. by apply H5.
  - intros Hd. rewrite Hal in Hd. by rewrite (D Hd), H4.
  - intros Hheld _. apply Hh; [by apply H6|done].
Qed.

Lemma fewerHandlers_ok l p :
  ok p -> (state p = Launching -> l = []) -> (forall x, x ∈ activitiesOf (map snd (handlers (p <| asyncReplyHandlers := l |>))) -> x ∈ activitiesOf (map snd (handlers p))) ->
  NoDup (activitiesOf (map snd (handlers (p <| asyncReplyHandlers := l |>)))) -> identified (p <| asyncReplyHandlers := l |>) -> ok (p <| asyncReplyHandlers := l |>).
Proof. intros [K1 K2 K3 K4 K5 K6 K7 K8 K9 K10] Hl Hsub Hnd Hid. split; try done; [|by intros x Hx; apply K6, Hsub]. intros Hs. destruct (K3 Hs) as (? & ? & _ & ?). by rewrite (Hl Hs). Qed.

Lemma handlers_takenOut l taken p :
  ok p -> asyncReplyHandlers p ≡ₚ l ++ taken -> takenOut p (p <| asyncReplyHandlers := l |>) (map snd taken).
Proof.
  intros Hok Hperm. set (p0 := p <| asyncReplyHandlers := l |>).
  assert (Hh : map snd (handlers p) ≡ₚ map snd (handlers p0) ++ map snd taken).
  { unfold handlers. cbn. rewrite <- map_app. apply Permutation_map. rewrite <- app_assoc. by rewrite <- Hperm. }
  assert (Ha : activitiesOf (map snd (handlers p)) ≡ₚ activitiesOf (map snd (handlers p0)) ++ activitiesOf (map snd taken)).
  { rewrite <- activitiesOf_app. unfold activitiesOf. by rewrite Hh. }
  pose proof (ok_distinct p Hok) as Hnd. rewrite Ha in Hnd. apply NoDup_app in Hnd as (Hnd1 & Hnd2 & Hnd3).
  split; try done.
  - apply fewerHandlers_ok; [done| | |done|].
    + intros Hs. destruct (ok_launching p Hok Hs) as (_ & _ & Hn & _). rewrite Hn in Hperm. apply Permutation_nil in Hperm. by apply app_eq_nil in Hperm as [-> _].
    + intros x Hx. rewrite Ha, elem_of_app. by left.
    + apply (identified_sub p p0 (map fst taken)); [apply Hok|done|]. unfold handlers. cbn. rewrite <- map_app. apply Permutation_map. rewrite <- app_assoc. by rewrite <- Hperm.
  - unfold waiting. cbn. change (handlers (p <| asyncReplyHandlers := l |>)) with (handlers p0). assert (Hc : clientsOf (map snd (handlers p)) ≡ₚ clientsOf (map snd (handlers p0) ++ map snd taken)) by (unfold clientsOf; by rewrite Hh).
    rewrite Hc, clientsOf_app, <- !app_assoc. f_equiv. apply Permutation_app_comm.
  - intros Hheld Hal x Hx. apply Hheld; [done|]. rewrite Ha, elem_of_app. by left.
  - intros h a Hin Hact Hx. apply (Hnd2 a Hx). unfold activitiesOf. apply list_elem_of_omap. by exists h.
Qed.

Lemma reply_leads id p : ok p -> enabled (ReplyArrives id) p -> exists p', exec (ReplyArrives id) p = Some p' /\ leads (ReplyArrives id) p p'.
Proof.
  intros Hok [_ Hin]. cbn [exec]. unfold takeHandler. destruct (list_find (fun x => fst x = id) (asyncReplyHandlers p)) as [[i [id' h]]|] eqn:Hf.
  - apply list_find_Some in Hf as (Hi & _ & _).
    destruct (callHandlers_leads (ReplyArrives id) (map snd [(id', h)]) true p (p <| asyncReplyHandlers := delete i (asyncReplyHandlers p) |>)) as (p' & Hp' & Hl); [|done|done|].
    + apply handlers_takenOut; [done|]. rewrite delete_take_drop, <- app_assoc, (Permutation_app_comm (drop _ _)). cbn. by rewrite (take_drop_middle _ _ _ Hi).
    + exists p'. split; [|done]. cbn [map snd callHandlers] in Hp'. by destruct (callHandler h true _).
  - apply list_find_None in Hf. rewrite Forall_forall in Hf. apply list_elem_of_In, in_map_iff in Hin as (x & Hx & Hin'). apply list_elem_of_In in Hin'. by destruct (Hf x Hin').
Qed.

Lemma clear_leads order p : ok p -> enabled (ClearHandlers order) p -> exists p', exec (ClearHandlers order) p = Some p' /\ leads (ClearHandlers order) p p'.
Proof.
  intros Hok [_ Hperm]. cbn [exec]. unfold clearAsyncReplyHandlers. apply callHandlers_leads; [|done|done]. by apply handlers_takenOut.
Qed.

Lemma runLoop_leads p : ok p -> enabled RunLoopTurn p -> exists p', exec RunLoopTurn p = Some p' /\ leads RunLoopTurn p p'.
Proof.
  intros Hok Hne. cbn in Hne. cbn [exec]. destruct (runLoop p) as [|h l] eqn:Hr; [done|]. pose proof Hok as [K1 K2 K3 K4 K5 K6 K7 K8 K9 K10].
  rewrite Hr in K8. unfold activitiesOf in K8. cbn in K8. destruct (activity h) eqn:Hact; [done|].
  destruct (callHandlers_leads RunLoopTurn [h] false p (p <| runLoop := l |>)) as (p' & Hp' & Hl); [|done|done|].
  - split; try done.
    + unfold waiting. cbn. rewrite Hr. change (h :: l) with ([h] ++ l). rewrite clientsOf_app, <- app_assoc. apply Permutation_app_head, Permutation_app_comm.
    + intros h' a ->%list_elem_of_singleton. by rewrite Hact.
  - exists p'. split; [|done]. cbn [callHandlers] in Hp'. by destruct (callHandler h false _).
Qed.

Lemma throttler_leads e p : ok p -> enabled (ThrottlerEvent e) p -> exists p', exec (ThrottlerEvent e) p = Some p' /\ leads (ThrottlerEvent e) p p'.
Proof.
  intros Hok (Hal & He & Hcase). destruct (throttle_ok e p Hok Hal He) as (p' & E & O & T & X); [by intros ->|by intros k x ->|].
  exists p'. split; [done|]. destruct (throttled_view _ _ T) as (V1 & V2 & V3). split; [done| | | |].
  - by rewrite V1, V2, app_nil_r.
  - intros _. rewrite V3. cbn. by rewrite app_nil_r.
  - by rewrite (th_alive _ _ T), Hal.
  - intros Hh Hx. eapply throttled_held; [done|done|done|exact X|]. intros x Hin. destruct e; try done. cbn. intros [_ ->].
    unfold activitiesOf in Hin. apply list_elem_of_omap in Hin as (h & Hin & Hact). apply list_elem_of_In, in_map_iff in Hin as ([id h'] & Heq & Hin).
    cbn in Heq. subst h'. apply list_elem_of_In in Hin. by apply (Hcase id h Hin).
Qed.

Lemma startActivity_leads k p : ok p -> enabled (StartActivity k) p -> exists p', exec (StartActivity k) p = Some p' /\ leads (StartActivity k) p p'.
Proof.
  intros Hok Hal. destruct (startActivity_ok k p Hok Hal) as (p' & E & O & T & H & _). exists p'. split; [done|].
  destruct (throttled_view _ _ T) as (V1 & V2 & V3). split; [done| | | |by auto].
  - rewrite V1, V2, app_nil_r. done.
  - intros _. rewrite V3. cbn. by rewrite app_nil_r.
  - rewrite (th_alive _ _ T). cbn in Hal |- *. by rewrite Hal.
Qed.

Lemma destroy_leads p : ok p -> enabled Destroy p -> exists p', exec Destroy p = Some p' /\ leads Destroy p p'.
Proof.
  intros Hok [Hal Hprot]. cbn [exec]. unfold destroy. destruct (throttle_ok ProcessThrottler.Destroy p Hok Hal) as (p1 & -> & O & T & X); [done|done|done|].
  cbn [mbind option_bind]. destruct (throttled_view _ _ T) as (V1 & V2 & V3). pose proof O as [K1 K2 K3 K4 K5 K6 K7 K8 K9 K10].
  destruct (ProcessThrottler.invalidateAllActivities_ok (throttler p)) as (t & Ht & _ & _ & Hidle); [apply ProcessThrottler.inv_core; by apply (ok_throttler p Hok)|].
  cbn [ProcessThrottler.exec] in X. rewrite Ht in X. apply (inj Some) in X.
  assert (Hno : forall k x, x ∉ activities k (throttler p1)).
  { intros k x Hx. rewrite <- X in Hx. unfold ProcessThrottler.shouldBeRunnable in Hidle.
    destruct k; cbn in Hx; destruct (ProcessThrottler.m_foregroundActivities t), (ProcessThrottler.m_backgroundActivities t); try done; by apply elem_of_nil in Hx. }
  set (p2 := p1 <| alive := false |> <| m_connection := None |> <| m_processLauncher := None |>).
  change (m_pendingMessages p2) with (m_pendingMessages p1). set (p3 := p2 <| m_pendingMessages := [] |>). set (pending := omap asyncReplyInfo (m_pendingMessages p1)).
  assert (Hh : handlers p1 = pending ++ handlers p3) by done. assert (Hdis := K7). rewrite Hh, map_app, activitiesOf_app in Hdis. apply NoDup_app in Hdis as (Hd1 & Hd2 & Hd3).
  destruct (callHandlers_leads Destroy (map snd pending) false p p3) as (p' & Hp' & Hl); [|done|done|by exists p'].
  split; try done.
  - split; try done.
    + intros x Hx. apply K6. rewrite Hh, map_app, activitiesOf_app, elem_of_app. by right.
    + by intros m ?%elem_of_nil.
    + apply (identified_sub p1 p3 (map fst pending)); [done..|]. rewrite Hh, map_app. apply Permutation_app_comm.
  - exact (th_called _ _ T).
  - rewrite <- V2. unfold waiting. rewrite Hh, map_app, clientsOf_app. change (runLoop p3) with (runLoop p1). rewrite <- app_assoc. apply Permutation_app_comm.
  - exact (th_wire _ _ T).
  - intros h a Hin Hact Hx. apply (Hd2 a); [|done]. unfold activitiesOf. apply list_elem_of_omap. by exists h.
Qed.

Lemma exec_leads e p : ok p -> enabled e p -> exists p', exec e p = Some p' /\ leads e p p'.
Proof.
  intros Hok He. destruct e.
  - eexists. split; [done|]. by apply send_leads.
  - by apply sendWithAsyncReply_leads.
  - by apply launch_leads.
  - eexists. split; [done|]. by apply launchFails_leads.
  - eexists. split; [done|]. by apply shutDown_leads.
  - eexists. split; [done|]. by apply connectionCloses_leads.
  - by apply reply_leads.
  - by apply clear_leads.
  - by apply runLoop_leads.
  - by apply startActivity_leads.
  - by apply throttler_leads.
  - by apply destroy_leads.
Qed.

Lemma launching_proxy_ok : ok connect.
Proof.
  split; try done; cbn.
  - intros _. exact ProcessThrottler.create_inv.
  - intros k x Hx. destruct k; by apply elem_of_nil in Hx.
  - intros x Hx. by apply elem_of_nil in Hx.
  - constructor.
  - intros m Hm. by apply elem_of_nil in Hm.
  - split; constructor.
Qed.

Definition asked (h : list Event) : list nat := flat_map askedBy h.
Fixpoint acceptedBy (h : list Event) p : list Message :=
  match h with [] => [] | e :: h => acceptedMessage e p ++ match exec e p with Some p' => acceptedBy h p' | None => [] end end.

Lemma run_leads h p p' :
  run h p p' -> ok p -> held p -> forallb (fun e => negb (expires e)) h = true -> ok p' /\ held p'.
Proof.
  induction 1 as [p|e h p p1 p' He Hx Hr IH]; [done|]. intros Hok Hh Hn. cbn in Hn. apply andb_prop in Hn as [Hn1 Hn2]. apply negb_true_iff in Hn1.
  destruct (exec_leads e p Hok He) as (p2 & Hx' & Hl). rewrite Hx in Hx'. apply (inj Some) in Hx'. subst p2.
  apply IH; [exact (lead_ok _ _ _ Hl) | by apply (lead_held _ _ _ Hl) | done].
Qed.

Lemma run_conserves h p p' : run h p p' -> ok p -> ok p' /\ answered p' ++ waiting p' ≡ₚ (answered p ++ waiting p) ++ asked h.
Proof.
  induction 1 as [p|e h p p1 p' He Hx Hr IH]; intros Hok; [by rewrite app_nil_r|].
  destruct (exec_leads e p Hok He) as (p2 & Hx' & Hl). rewrite Hx in Hx'. apply (inj Some) in Hx'. subst p2.
  destruct (IH (lead_ok _ _ _ Hl)) as [Hok' Hc]. split; [done|]. rewrite Hc, (lead_replies _ _ _ Hl). cbn. by rewrite <- app_assoc.
Qed.

(** Nothing revives a proxy, and a dead one accepts nothing. *)
Lemma exec_dead e p p' : ok p -> alive p = false -> enabled e p -> exec e p = Some p' ->
  alive p' = false /\ clientMessages (outgoing p') = clientMessages (outgoing p) /\ acceptedMessage e p = [].
Proof.
  intros Hok Hd He Hx. destruct (exec_leads e p Hok He) as (p2 & Hx' & Hl). rewrite Hx in Hx'. apply (inj Some) in Hx'. subst p2.
  assert (Hal : alive p' = false); [|split; [done|]; exact (lead_dead _ _ _ Hl Hal)].
  destruct (ok_dead p Hok Hd) as (Hc & Hla & Hp & _). destruct e; cbn in He; rewrite ?Hd, ?Hc in He; try (destruct He; done); try done.
  - destruct He as [_ Hperm]. cbn in Hx. unfold clearAsyncReplyHandlers in Hx.
    destruct (callHandlers_ok false (map snd order) _ (tk_ok _ _ _ (handlers_takenOut [] order p Hok (symmetry Hperm)))) as (p3 & Hx3 & _ & T & _).
    rewrite Hx in Hx3. apply (inj Some) in Hx3. subst p3. rewrite (th_alive _ _ T). exact Hd.
  - cbn [exec] in Hx. destruct (runLoop p) as [|h l] eqn:Hr; [by apply (inj Some) in Hx; subst|].
    assert (Hok1 : ok (p <| runLoop := l |>)).
    { destruct Hok as [K1 K2 K3 K4 K5 K6 K7 K8 K9 K10]. split; try done. cbn. rewrite Hr in K8. unfold activitiesOf in *. cbn in K8. by destruct (activity h). }
    destruct (callHandler_ok h false _ Hok1) as (p3 & Hx3 & _ & T & _). rewrite Hx in Hx3. apply (inj Some) in Hx3. subst p3. rewrite (th_alive _ _ T). exact Hd.
Qed.

Lemma run_flow h p p' : run h p p' -> ok p ->
  ok p' /\ (alive p' = true -> flow p' = flow p ++ flat_map resolve (acceptedBy h p)) /\
  (alive p = false -> acceptedBy h p = [] /\ clientMessages (outgoing p') = clientMessages (outgoing p) /\ alive p' = false) /\
  (clientMessages (outgoing p') `prefix_of` flow p ++ flat_map resolve (acceptedBy h p)).
Proof.
  induction 1 as [p|e h p p1 p' He Hx Hr IH]; intros Hok.
  - cbn. rewrite !app_nil_r. split_and!; try done. by exists (pendingClient p).
  - destruct (exec_leads e p Hok He) as (p2 & Hx' & Hl). rewrite Hx in Hx'. apply (inj Some) in Hx'. subst p2.
    destruct (IH (lead_ok _ _ _ Hl)) as (O & F & D & P). cbn [acceptedBy]. rewrite Hx, flat_map_app. split; [done|]. destruct (alive p1) eqn:Hal1.
    + rewrite (lead_flow _ _ _ Hl Hal1), <- !app_assoc in *. split_and!; try done. intros Hd. by destruct (exec_dead e p p1 Hok Hd He Hx) as (? & _); congruence.
    + destruct (D eq_refl) as (D1 & D2 & D3). destruct (lead_dead _ _ _ Hl Hal1) as [E1 E2]. rewrite D1, E2, D3. cbn. rewrite !app_nil_r. split_and!; try done.
      * intros _. by rewrite D2, E1.
      * rewrite D2, E1. by exists (pendingClient p).
Qed.

Lemma takeHandler_finds id handler p : NoDup (map fst (asyncReplyHandlers p)) -> (id, handler) ∈ asyncReplyHandlers p -> exists p', takeHandler id p = Some (handler, p').
Proof.
  intros Hn Hin. unfold takeHandler. destruct (list_find (fun x => fst x = id) (asyncReplyHandlers p)) as [[i [id' h]]|] eqn:Hf.
  - apply list_find_Some in Hf as (Hi & Hid & _). cbn in Hid. subst id'. apply list_elem_of_lookup in Hin as (j & Hj). eexists. do 2 f_equal.
    assert (E : i = j) by (eapply (NoDup_lookup (map fst (asyncReplyHandlers p))); [done|by rewrite list_lookup_fmap, Hi|by rewrite list_lookup_fmap, Hj]). subst j. congruence.
  - apply list_find_None in Hf. rewrite Forall_forall in Hf. by destruct (Hf _ Hin).
Qed.

(** C33: The messages of callers reach the connection in the order they were sent, each accepted
    one exactly once, whether they were sent while the process was launched or later.  Loads
    that waited for the launch are sent as ordinary loads in their place, or dropped when
    their page is gone.  Once the process runs nothing is held back. *)
Theorem launch_keeps_message_order h p :
  run h connect p ->
  (clientMessages (outgoing p) `prefix_of` flat_map resolve (acceptedBy h connect)) /\
  (alive p = true -> clientMessages (outgoing p) ++ pendingClient p = flat_map resolve (acceptedBy h connect)) /\
  (state p = Running -> m_pendingMessages p = []).
Proof.
  intros Hr. destruct (run_flow h connect p Hr launching_proxy_ok) as (Hok & F & _ & P). split; [exact P|]. split; [exact F|].
  intros Hs. apply (ok_connected p Hok). unfold state in Hs. destruct (m_processLauncher p) as [[|]|], (m_connection p); done.
Qed.

(** C34: Every completion handler passed with a message is, at any time, called exactly once or
    still held, by a pending message, by the connection or by the run loop.  The identifiers
    of the handlers that messages and the connection hold are distinct, so that none is lost
    when it is added to the connection's map, and a reply finds the handler that was registered
    for its identifier.  No step the proxy takes fails an assertion of the throttler. *)
Theorem async_replies_settled_once h p :
  run h connect p ->
  answered p ++ waiting p ≡ₚ asked h /\ NoDup (map fst (handlers p)) /\
  (forall id handler, (id, handler) ∈ asyncReplyHandlers p -> exists p', takeHandler id p = Some (handler, p')) /\
  (forall e, enabled e p -> exists p', exec e p = Some p').
Proof.
  intros Hr. destruct (run_conserves h connect p Hr launching_proxy_ok) as [Hok Hc]. destruct (ok_ids p Hok) as [Hn _]. split; [exact Hc|]. split; [exact Hn|]. split.
  - intros id handler. apply takeHandler_finds. unfold handlers in Hn. rewrite map_app in Hn. by apply NoDup_app in Hn as (_ & _ & ?).
  - intros e He. destruct (exec_leads e p Hok He) as (p' & Hx & _). by exists p'.
Qed.

(** Unless the system takes assertions away, a process that owes a reply which was asked for
    with an activity is kept awake: the throttler holds a valid assertion for it, does not
    let it be suspended and is not asking it to prepare for that. *)
Theorem outstanding_reply_keeps_process_awake h p id handler a assertion :
  forallb (fun e => negb (expires e)) h = true -> run h connect p -> alive p = true ->
  (id, handler) ∈ handlers p -> activity handler = Some a ->
  ProcessThrottler.m_assertion (throttler p) = Some assertion ->
  ProcessThrottler.type assertion <> ProcessThrottler.Suspended /\ ProcessThrottler.isValid assertion = true /\
  ProcessThrottler.m_pendingRequestToSuspendID (throttler p) = None.
Proof.
  intros Hn Hr Hal Hin Ha Has. destruct (run_leads h connect p Hr launching_proxy_ok) as [Hok Hh]; [by intros _ x Hx; apply elem_of_nil in Hx|done|].
  assert (Hact : a ∈ activities BackgroundActivity (throttler p)).
  { apply (Hh Hal). unfold activitiesOf. apply list_elem_of_omap. exists handler. split; [|done]. apply list_elem_of_In, in_map_iff. exists (id, handler). split; [done|]. by apply list_elem_of_In. }
  assert (Hrun : ProcessThrottler.shouldBeRunnable (throttler p) = true).
  { unfold ProcessThrottler.shouldBeRunnable. cbn in Hact. destruct (ProcessThrottler.m_foregroundActivities _), (ProcessThrottler.m_backgroundActivities _); try done. by apply elem_of_nil in Hact. }
  destruct (ProcessThrottler.inv_awake _ (ok_throttler p Hok Hal) assertion Has Hrun) as (H1 & H2 & H3). split_and!; try done.
  rewrite H2. intros Hs. apply ProcessThrottler.expected_runnable in Hs. congruence.
Qed.

(** *** A launch that fails *)

(** A pending message whose handler protects a proxy that has no process. *)
Record stranded (m : PendingMessage) p : Prop := {
  str_alive : alive p = true;
  str_state : state p = Terminated;
  str_pending : m ∈ m_pendingMessages p;
  str_protects : exists id h, asyncReplyInfo m = Some (id, h) /\ protects h = true }.

Lemma throttled_stranded m b p p' : throttledFrom b p p' -> stranded m p -> stranded m p'.
Proof.
  intros Hth [H1 H2 H3 H4]. split; [by rewrite (th_alive _ _ Hth) | by rewrite (throttled_state _ _ _ Hth) | | done].
  destruct (th_pending _ _ Hth) as (x & -> & _). apply elem_of_app. by left.
Qed.

Lemma stranded_frame m p p' :
  m_processLauncher p' = m_processLauncher p -> m_connection p' = m_connection p -> alive p' = alive p -> m_pendingMessages p' = m_pendingMessages p ->
  stranded m p -> stranded m p'.
Proof. intros E1 E2 E3 E4 [H1 H2 H3 H4]. split; [by rewrite E3 | unfold state in *; by rewrite E1, E2 | by rewrite E4 | done]. Qed.

Lemma exec_stranded m e p p' : ok p -> stranded m p -> enabled e p -> exec e p = Some p' -> stranded m p'.
Proof.
  intros Hok Hst He Hx. pose proof Hst as [H1 H2 H3 (id & h & H4 & H5)].
  assert (Hno : m_processLauncher p <> Some true /\ m_connection p = None).
  { unfold state in H2. destruct (m_processLauncher p) as [[|]|], (m_connection p); done. }
  destruct Hno as [Hno Hnc]. destruct e; cbn in He; try (destruct He; congruence).
  - apply (inj Some) in Hx. subst p'. unfold send, sendNow. rewrite H2. by apply (stranded_frame m p).
  - cbn [exec] in Hx. unfold sendWithAsyncReply, newListenerID in Hx. set (p1 := p <| nextAsyncReplyHandlerID := _ |>) in Hx.
    assert (Hs1 : state p1 = Terminated) by done. assert (Hc1 : canSendMessage p1 = false) by (unfold canSendMessage; rewrite bool_decide_false; [done|intros Hn; by apply Hn]).
    rewrite Hc1 in Hx. apply (inj Some) in Hx. subst p'. cbn [andb fst]. unfold sendNow. rewrite Hs1. by apply (stranded_frame m p).
  - apply (inj Some) in Hx. subst p'. unfold shutDownProcess. by rewrite H2.
  - cbn [exec] in Hx. unfold clearAsyncReplyHandlers in Hx. destruct He as [_ Hperm].
    destruct (callHandlers_ok false (map snd order) _ (tk_ok _ _ _ (handlers_takenOut [] order p Hok (symmetry Hperm)))) as (p3 & Hx3 & _ & T & _).
    rewrite Hx in Hx3. apply (inj Some) in Hx3. subst p3. eapply throttled_stranded; [exact T|]. by apply (stranded_frame m p).
  - cbn [exec] in Hx. destruct (runLoop p) as [|hd l] eqn:Hr; [done|].
    assert (Hok1 : ok (p <| runLoop := l |>)).
    { destruct Hok as [K1 K2 K3 K4 K5 K6 K7 K8 K9 K10]. split; try done. cbn. rewrite Hr in K8. unfold activitiesOf in *. cbn in K8. by destruct (activity hd). }
    destruct (callHandler_ok hd false _ Hok1) as (p3 & Hx3 & _ & T & _). rewrite Hx in Hx3. apply (inj Some) in Hx3. subst p3.
    eapply throttled_stranded; [exact T|]. by apply (stranded_frame m p).
  - cbn [exec] in Hx. destruct (startActivity_ok k p Hok H1) as (p3 & Hx3 & _ & T & _). rewrite Hx in Hx3. apply (inj Some) in Hx3. subst p3.
    eapply throttled_stranded; [exact T|]. by apply (stranded_frame m p).
  - cbn [exec] in Hx. destruct (throttle_spec _ _ _ (ok_ids p Hok) Hx) as [T _]. by eapply throttled_stranded.
  - destruct He as [_ He]. rewrite (He id h) in H5; [done|]. unfold handlers. apply elem_of_app. left. apply list_elem_of_omap. by exists m.
Qed.

(** When the process fails to launch, or is shut down before it was launched, the messages
    that waited for the launch keep their handlers.  A handler that holds a reference to the
    proxy, as those of website data requests do, is then never called, and the proxy is never
    destroyed, whatever happens later. *)
Theorem failed_launch_strands_handlers h p m id handler last h' p' :
  run h connect p -> m ∈ m_pendingMessages p -> asyncReplyInfo m = Some (id, handler) -> protects handler = true ->
  enabled last p -> last = LaunchFails \/ (last = ShutDownProcess /\ state p = Launching) ->
  run (last :: h') p p' ->
  alive p' = true /\ m ∈ m_pendingMessages p' /\ ~ enabled Destroy p'.
Proof.
  intros Hr Hin Hinfo Hprot He Hlast Hr'. destruct (run_conserves h connect p Hr launching_proxy_ok) as [Hok _].
  inversion Hr' as [|e h0 q p1 q' _ Hx Hrest]; subst. destruct (exec_leads last p Hok He) as (p2 & Hx' & Hl). rewrite Hx in Hx'. apply (inj Some) in Hx'. subst p2.
  assert (Hst : stranded m p1).
  { assert (Hrel : released p p1 /\ alive p = true).
    { destruct Hlast as [-> | [-> Hs]]; apply (inj Some) in Hx; subst p1.
      - destruct He as [Hal Hla]. split; [|done]. assert (Hs : state p = Launching) by (unfold state; by rewrite Hla). destruct (ok_launching p Hok Hs) as (Hc & _).
        unfold didFailToLaunch. set (p1 := p <| m_processLauncher := Some false |>). assert (Hs1 : state p1 = Terminated) by (unfold state; cbn; by rewrite Hc).
        unfold shutDownProcess. rewrite Hs1. split; try done. split; [by rewrite Hs1|done].
      - split; [|exact He]. apply shutDown_released. intros _. by apply (ok_launching p Hok Hs). }
    destruct Hrel as [[[R1 R1'] R2 R3 R4 R5 [R6 R6'] R7 R8 R9] Hal]. split; [by rewrite R7| | by rewrite R2 | by exists id, handler].
    unfold state in *. destruct (m_processLauncher p1) as [[|]|]; rewrite ?R1' in *; done. }
  assert (Hfin : stranded m p').
  { pose proof (lead_ok _ _ _ Hl) as Hok1. clear -Hrest Hst Hok1. induction Hrest as [|e h p1 p2 p3 He Hx Hr IH]; [done|].
    destruct (exec_leads e p1 Hok1 He) as (p4 & Hx' & Hl). rewrite Hx in Hx'. apply (inj Some) in Hx'. subst p4.
    apply IH; [|exact (lead_ok _ _ _ Hl)]. by eapply exec_stranded. }
  destruct Hfin as [F1 F2 F3 _]. split; [done|]. split; [done|]. intros [_ Hd]. rewrite (Hd id handler) in Hprot; [done|].
  unfold handlers. apply elem_of_app. left. apply list_elem_of_omap. by exists m.
Qed.
End with_platform.

(** *** Examples *)

#[global] Instance Message_eq_decision : EqDecision Message.
Proof. solve_decision. Defined.
#[global] Instance Callback_eq_decision : EqDecision Callback.
Proof. solve_decision. Defined.
#[global] Instance Handler_eq_decision : EqDecision Handler.
Proof. solve_decision. Defined.

Fixpoint execs (pages : nat -> bool) (connects : bool) (h : list Event) (p : Proxy) : option Proxy :=
  match h with [] => Some p | e :: h => p ← exec pages connects e p; execs pages connects h p end.
Fixpoint happens (pages : nat -> bool) (connects : bool) (h : list Event) (p : Proxy) : Prop :=
  match h with [] => True | e :: h => enabled e p /\ match exec pages connects e p with Some p' => happens pages connects h p' | None => False end end.
Lemma happens_run pages connects h : forall p, happens pages connects h p -> exists p', execs pages connects h p = Some p' /\ run pages connects h p p'.
Proof.
  induction h as [|e h IH]; intros p; cbn; [exists p; split; [done|apply run_nil]|]. intros [He Hh].
  destruct (exec pages connects e p) as [p1|] eqn:Hx; [|done]. destruct (IH p1 Hh) as (p' & Hp' & Hr). exists p'. split; [done|]. by eapply run_cons.
Qed.

Definition anyPage (n : nat) : bool := bool_decide (n <> 0%nat).

(** A process is launched with a load, a message that expects a reply and a load of a page
    that was closed meanwhile; then another reply is awaited while the first arrives. *)
Definition launchHistory : list Event :=
  [Send (LoadRequestWaitingForProcessLaunch 1 10); SendWithAsyncReply (OtherMessage 2) 7 false true; Send (LoadRequestWaitingForProcessLaunch 0 11);
   LaunchSucceeds; SendWithAsyncReply (OtherMessage 3) 8 true true; ReplyArrives 1].
Definition launched : Proxy := default connect (execs anyPage true launchHistory connect).

Lemma launched_run : run anyPage true launchHistory connect launched.
Proof.
  destruct (happens_run anyPage true launchHistory connect) as (p' & Hp' & Hr).
  - vm_compute. split_and!; try done. apply list_elem_of_In. vm_compute. auto.
  - unfold launched. by rewrite Hp'.
Qed.

Lemma launch_keeps_message_order_witness :
  clientMessages (outgoing launched) = [LoadRequest 1 10; OtherMessage 2; OtherMessage 3] /\
  clientMessages (outgoing launched) ++ pendingClient anyPage launched = flat_map (resolve anyPage) (acceptedBy anyPage true launchHistory connect).
Proof.
  split; [vm_compute; reflexivity|]. destruct (launch_keeps_message_order anyPage true launchHistory launched launched_run) as (_ & H & _).
  apply H. vm_compute. reflexivity.
Defined.

Lemma async_replies_settled_once_witness : answered launched = [7%nat] /\ waiting launched = [8%nat] /\ answered launched ++ waiting launched ≡ₚ asked launchHistory.
Proof.
  split; [vm_compute; reflexivity|]. split; [vm_compute; reflexivity|]. exact (proj1 (async_replies_settled_once anyPage true launchHistory launched launched_run)).
Defined.

Lemma outstanding_reply_keeps_process_awake_witness :
  exists assertion, ProcessThrottler.m_assertion (throttler launched) = Some assertion /\ ProcessThrottler.type assertion <> ProcessThrottler.Suspended.
Proof.
  exists (ProcessThrottler.mkProcessAssertion ProcessThrottler.Background true). split; [vm_compute; reflexivity|].
  apply (outstanding_reply_keeps_process_awake anyPage true launchHistory launched 2 (mkHandler (ClientReply 8) (Some 1%nat) true) 1
    (ProcessThrottler.mkProcessAssertion ProcessThrottler.Background true)); try (vm_compute; reflexivity).
  - exact launched_run.
  - vm_compute. left.
Defined.

Definition websiteDataRequest : PendingMessage := mkPendingMessage (OtherMessage 5) (Some (1%nat, mkHandler (ClientReply 9) (Some 0%nat) true)).
Definition launching : Proxy := default connect (execs anyPage true [SendWithAsyncReply (OtherMessage 5) 9 true true] connect).

Lemma failed_launch_strands_handlers_witness :
  alive (didFailToLaunch launching) = true /\ (websiteDataRequest ∈ m_pendingMessages (didFailToLaunch launching)) /\ ~ enabled Destroy (didFailToLaunch launching).
Proof.
  assert (Hr : run anyPage true [SendWithAsyncReply (OtherMessage 5) 9 true true] connect launching).
  { destruct (happens_run anyPage true [SendWithAsyncReply (OtherMessage 5) 9 true true] connect) as (p' & Hp' & Hr); [vm_compute; by split_and!|].
    unfold launching. rewrite Hp'. exact Hr. }
  assert (He : enabled LaunchFails launching) by (vm_compute; split; reflexivity).
  apply (failed_launch_strands_handlers anyPage true [SendWithAsyncReply (OtherMessage 5) 9 true true] launching websiteDataRequest 1
    (mkHandler (ClientReply 9) (Some 0%nat) true) LaunchFails [] (didFailToLaunch launching)); try done.
  - vm_compute. left.
  - by left.
  - eapply run_cons; [exact He | reflexivity | apply run_nil].
Defined.
End AuxiliaryProcess.
