(* ===== verification/BackForwardCache.v ===== *)
(** * UIProcess: the back/forward cache and suspended pages

    WebBackForwardCache.cpp, WebBackForwardCacheEntry.cpp, SuspendedPageProxy.cpp and the
    part of WebBackForwardListItem.cpp that owns the entry of an item.  Items, web pages,
    processes and completion handlers are numbers.  The shutdown of a process that lost its
    last suspended page is recorded; what it removes from the cache is a step of its own. *)

From S2P Require Import Prelude.

Module BackForwardCache.
Section with_items.
(** The page an item belongs to, and the session of a process: fixed when they are made. *)
Context (pageID : nat -> nat) (sessionID : nat -> nat).

Inductive SuspensionState := Suspending | FailedToSuspend | Suspended | Resumed.
#[global] Instance SuspensionState_eq_decision : EqDecision SuspensionState.
Proof. solve_decision. Defined.

Record SuspendedPageProxy := mkSuspendedPageProxy {
  m_webPageID : nat;
  m_process : nat;
  m_isClosed : bool;
  m_shouldDelayClosingUntilFirstLayerFlush : bool;
  m_shouldCloseWhenEnteringAcceleratedCompositingMode : bool;
  m_suspensionState : SuspensionState;
  m_readyToUnsuspendHandler : option nat;
  m_suspensionTimeoutTimer : bool
}.
#[global] Instance eta_SuspendedPageProxy : Eta SuspendedPageProxy := fun r =>
  mkSuspendedPageProxy (m_webPageID r) (m_process r) (m_isClosed r) (m_shouldDelayClosingUntilFirstLayerFlush r)
    (m_shouldCloseWhenEnteringAcceleratedCompositingMode r) (m_suspensionState r) (m_readyToUnsuspendHandler r) (m_suspensionTimeoutTimer r).

Record WebBackForwardCacheEntry := mkEntry {
  m_processIdentifier : nat;
  m_backForwardItemID : option nat;
  m_suspendedPage : option SuspendedPageProxy;
  m_expirationTimer : bool
}.
#[global] Instance eta_Entry : Eta WebBackForwardCacheEntry := fun r =>
  mkEntry (m_processIdentifier r) (m_backForwardItemID r) (m_suspendedPage r) (m_expirationTimer r).

(** What leaves the cache, oldest first. *)
Inductive Output :=
| ClearCachedPage (process item : nat)
| SetIsSuspended (webPage : nat) (suspended : bool)
| ClosePage (webPage : nat)
  (* a completion handler of [waitUntilReadyToUnsuspend]: called, or dispatched to the run
     loop, with the suspended page or null *)
| HandlerCalled (handler : nat) (ready : bool)
| HandlerDispatched (handler : nat)
| SetHasSuspendedPageProxy (process : nat) (b : bool)
| MaybeShutDown (process : nat)
| AddMessageReceiver (process webPage : nat)
| RemoveMessageReceiver (process webPage : nat)
| SetBackForwardCacheCapacity (capacity : nat).

Record Cache := mkCache {
  m_capacity : nat;
  m_itemsWithCachedPage : list nat;
  (* [m_backForwardCacheEntry] of the items that have one *)
  entryOf : gmap nat WebBackForwardCacheEntry;
  m_suspendedPageCount : gmap nat nat;
  output : list Output
}.
#[global] Instance eta_Cache : Eta Cache := fun r =>
  mkCache (m_capacity r) (m_itemsWithCachedPage r) (entryOf r) (m_suspendedPageCount r) (output r).

Definition create : Cache := mkCache 0 [] ∅ ∅ [].

Implicit Types c : Cache.

Definition emit (l : list Output) c : Cache := c <| output := output c ++ l |>.
Definition size c : nat := length (m_itemsWithCachedPage c).
Definition countOf (process : nat) c : nat := default 0%nat (m_suspendedPageCount c !! process).

(** ** WebProcessProxy: the count of suspended pages *)

Definition incrementSuspendedPageCount (process : nat) c : Cache :=
  let n := S (countOf process c) in
  let c := c <| m_suspendedPageCount := <[process := n]> (m_suspendedPageCount c) |> in
  if bool_decide (n = 1%nat) then emit [SetHasSuspendedPageProxy process true] c else c.

Definition decrementSuspendedPageCount (process : nat) c : Cache :=
  let n := pred (countOf process c) in
  let c := c <| m_suspendedPageCount := <[process := n]> (m_suspendedPageCount c) |> in
  if bool_decide (n = 0%nat) then emit [SetHasSuspendedPageProxy process false; MaybeShutDown process] c else c.

(** ** SuspendedPageProxy.cpp *)

Definition createSuspendedPage (webPage process : nat) (shouldDelay : bool) c : SuspendedPageProxy * Cache :=
  (mkSuspendedPageProxy webPage process false shouldDelay false Suspending None true,
   emit [AddMessageReceiver process webPage; SetIsSuspended webPage true] (incrementSuspendedPageCount process c)).

Definition close (p : SuspendedPageProxy) c : SuspendedPageProxy * Cache :=
  if m_isClosed p then (p, c) else (p <| m_isClosed := true |>, emit [ClosePage (m_webPageID p)] c).

Definition pageIsClosedOrClosing (p : SuspendedPageProxy) : bool := m_isClosed p || m_shouldCloseWhenEnteringAcceleratedCompositingMode p.

Definition closeWithoutFlashing (p : SuspendedPageProxy) c : SuspendedPageProxy * Cache :=
  if m_shouldDelayClosingUntilFirstLayerFlush p then (p <| m_shouldCloseWhenEnteringAcceleratedCompositingMode := true |>, c)
  else close p c.

Definition pageDidFirstLayerFlush (p : SuspendedPageProxy) c : SuspendedPageProxy * Cache :=
  let p := p <| m_shouldDelayClosingUntilFirstLayerFlush := false |> in
  if m_shouldCloseWhenEnteringAcceleratedCompositingMode p then close p c else (p, c).

Definition waitUntilReadyToUnsuspend (completionHandler : nat) (p : SuspendedPageProxy) c : SuspendedPageProxy * Cache :=
  let '(p, c) := match m_readyToUnsuspendHandler p with
                 | Some h => (p <| m_readyToUnsuspendHandler := None |>, emit [HandlerCalled h false] c)
                 | None => (p, c)
                 end in
  match m_suspensionState p with
  | Suspending => (p <| m_readyToUnsuspendHandler := Some completionHandler |>, c)
  | FailedToSuspend | Suspended => (p, emit [HandlerCalled completionHandler true] c)
  | Resumed => (p, emit [HandlerCalled completionHandler false] c)
  end.

Definition unsuspend (p : SuspendedPageProxy) c : SuspendedPageProxy * Cache :=
  (p <| m_suspensionState := Resumed |>, emit [SetIsSuspended (m_webPageID p) false] c).

Definition didProcessRequestToSuspend (newSuspensionState : SuspensionState) (p : SuspendedPageProxy) c : SuspendedPageProxy * Cache :=
  let p := p <| m_suspensionState := newSuspensionState |> <| m_suspensionTimeoutTimer := false |> in
  let c := emit [RemoveMessageReceiver (m_process p) (m_webPageID p)] c in
  let '(p, c) := if bool_decide (m_suspensionState p = FailedToSuspend) then closeWithoutFlashing p c else (p, c) in
  match m_readyToUnsuspendHandler p with
  | Some h => (p <| m_readyToUnsuspendHandler := None |>, emit [HandlerCalled h true] c)
  | None => (p, c)
  end.

(** [~SuspendedPageProxy]. *)
Definition destroySuspendedPage (p : SuspendedPageProxy) c : Cache :=
  let c := match m_readyToUnsuspendHandler p with Some h => emit [HandlerDispatched h] c | None => c end in
  let c := if bool_decide (m_suspensionState p <> Resumed) then
             let '(p, c) := close p c in
             if bool_decide (m_suspensionState p = Suspending) then emit [RemoveMessageReceiver (m_process p) (m_webPageID p)] c else c
           else c in
  decrementSuspendedPageCount (m_process p) c.

(** ** WebBackForwardCacheEntry.cpp *)

Definition createEntry (item process : nat) (p : option SuspendedPageProxy) : WebBackForwardCacheEntry :=
  mkEntry process (Some item) p true.

(** The destructor, then the destructors of the members. *)
Definition destroyEntry (e : WebBackForwardCacheEntry) c : Cache :=
  let c := match m_backForwardItemID e, m_suspendedPage e with
           | Some item, None => emit [ClearCachedPage (m_processIdentifier e) item] c
           | _, _ => c
           end in
  match m_suspendedPage e with Some p => destroySuspendedPage p c | None => c end.

Definition entryTakeSuspendedPage (e : WebBackForwardCacheEntry) : WebBackForwardCacheEntry * option SuspendedPageProxy :=
  (e <| m_backForwardItemID := None |> <| m_expirationTimer := false |> <| m_suspendedPage := None |>, m_suspendedPage e).

(** ** WebBackForwardListItem.cpp *)

(** [setBackForwardCacheEntry]: the previous entry is destroyed. *)
Definition setBackForwardCacheEntry (item : nat) (e : option WebBackForwardCacheEntry) c : Cache :=
  let old := entryOf c !! item in
  let c := c <| entryOf := partial_alter (fun _ => e) item (entryOf c) |> in
  match old with Some old => destroyEntry old c | None => c end.

(** ** WebBackForwardCache.cpp *)

Definition removeFirst (item : nat) (l : list nat) : list nat :=
  match list_find (fun x => x = item) l with Some (i, _) => delete i l | None => l end.

Definition removeEntry (item : nat) c : Cache :=
  setBackForwardCacheEntry item None (c <| m_itemsWithCachedPage := removeFirst item (m_itemsWithCachedPage c) |>).

Definition removeOldestEntry c : Cache :=
  match m_itemsWithCachedPage c with item :: _ => removeEntry item c | [] => c end.

(** [while (size() > n) removeOldestEntry()]; every turn shortens the list. *)
Fixpoint removeOldestLoop (fuel n : nat) c : Cache :=
  match fuel with
  | O => c
  | S fuel => if bool_decide (n < size c)%nat then removeOldestLoop fuel n (removeOldestEntry c) else c
  end.
Definition pruneToSize (newSize : nat) c : Cache := removeOldestLoop (size c) newSize c.

Definition setCapacity (capacity : nat) c : Cache :=
  if decide (m_capacity c = capacity) then c
  else emit [SetBackForwardCacheCapacity capacity] (pruneToSize capacity (c <| m_capacity := capacity |>)).

Definition addEntry (item : nat) (e : WebBackForwardCacheEntry) c : Cache :=
  let c := match entryOf c !! item with
           | Some _ => c <| m_itemsWithCachedPage := removeFirst item (m_itemsWithCachedPage c) |>
           | None => c
           end in
  let c := setBackForwardCacheEntry item (Some e) c in
  let c := c <| m_itemsWithCachedPage := m_itemsWithCachedPage c ++ [item] |> in
  if bool_decide (m_capacity c < size c)%nat then removeOldestEntry c else c.

(** [addEntry] with the suspended page made for it, as [suspendCurrentPageIfPossible] does. *)
Definition addEntryForSuspendedPage (item webPage process : nat) (shouldDelay : bool) c : Cache :=
  let '(p, c) := createSuspendedPage webPage process shouldDelay c in
  addEntry item (createEntry item process (Some p)) c.
Definition addEntryForProcess (item process : nat) c : Cache := addEntry item (createEntry item process None) c.

Definition takeSuspendedPage (item : nat) c : Cache * option SuspendedPageProxy :=
  match entryOf c !! item with
  | None => (c, None)
  | Some e =>
      let '(e, p) := entryTakeSuspendedPage e in
      (removeEntry item (c <| entryOf := <[item := e]> (entryOf c) |>), p)
  end.

Definition removeEntriesMatching (matches : nat -> bool) c : Cache :=
  let itemsWithEntriesToClear := filter (fun item => matches item = true) (m_itemsWithCachedPage c) in
  let c := c <| m_itemsWithCachedPage := filter (fun item => matches item = false) (m_itemsWithCachedPage c) |> in
  fold_left (fun c item => setBackForwardCacheEntry item None c) itemsWithEntriesToClear c.

Definition entryMatches (f : WebBackForwardCacheEntry -> bool) c (item : nat) : bool :=
  match entryOf c !! item with Some e => f e | None => false end.

(** The source compares the addresses of the pages; a web page has one suspended page at most. *)
Definition removeEntriesForSuspendedPage (webPage : nat) c : Cache :=
  removeEntriesMatching (entryMatches (fun e => match m_suspendedPage e with Some p => bool_decide (m_webPageID p = webPage) | None => false end) c) c.
Definition removeEntriesForProcess (process : nat) c : Cache :=
  removeEntriesMatching (entryMatches (fun e => bool_decide (m_processIdentifier e = process)) c) c.
Definition removeEntriesForSession (session : nat) c : Cache :=
  removeEntriesMatching (entryMatches (fun e => bool_decide (sessionID (m_processIdentifier e) = session)) c) c.
Definition removeEntriesForPage (page : nat) c : Cache :=
  removeEntriesMatching (fun item => bool_decide (pageID item = page)) c.
Definition removeEntriesForPageAndProcess (page process : nat) c : Cache :=
  removeEntriesMatching (fun item => bool_decide (pageID item = page) && entryMatches (fun e => bool_decide (m_processIdentifier e = process)) c item) c.

Definition clear c : Cache :=
  fold_left (fun c item => setBackForwardCacheEntry item None c) (m_itemsWithCachedPage c) (c <| m_itemsWithCachedPage := [] |>).

(** [WebBackForwardListItem::removeFromBackForwardCache], when an item leaves its list. *)
Definition removeFromBackForwardCache (item : nat) c : Cache :=
  match entryOf c !! item with Some _ => removeEntry item c | None => c end.

Definition expirationTimerFired (item : nat) c : Cache := removeEntry item c.
Definition suspensionTimedOut (webPage : nat) c : Cache := removeEntriesForSuspendedPage webPage c.

(** [WebProcessProxy::updateBackForwardItem], for an item the process may update. *)
Definition updateBackForwardItem (item process : nat) (hasCachedPage : bool) c : Cache :=
  let hasEntry := match entryOf c !! item with Some _ => true | None => false end in
  if Bool.eqb hasEntry hasCachedPage then c
  else if hasCachedPage then addEntryForProcess item process c
  else match entryOf c !! item with
       | Some e => match m_suspendedPage e with None => removeEntry item c | Some _ => c end
       | None => c
       end.

(** A navigation goes back to the suspended page of an item: it is taken out of the cache,
    and dropped when it is closed or closing, else resumed; the proxy is then destroyed. *)
Definition navigateToSuspendedPage (item : nat) c : Cache :=
  let '(c, p) := takeSuspendedPage item c in
  match p with
  | None => c
  | Some p => if pageIsClosedOrClosing p then destroySuspendedPage p c
              else let '(p, c) := unsuspend p c in destroySuspendedPage p c
  end.

(** A message or call to the suspended page of an item. *)
Definition onSuspendedPage (item : nat) (f : SuspendedPageProxy -> Cache -> SuspendedPageProxy * Cache) c : Cache :=
  match entryOf c !! item with
  | Some e => match m_suspendedPage e with
              | Some p => let '(p, c) := f p c in c <| entryOf := <[item := e <| m_suspendedPage := Some p |>]> (entryOf c) |>
              | None => c
              end
  | None => c
  end.

(** *** Runs *)

Inductive Event :=
| SetCapacity (n : nat)
| SuspendPage (item webPage process : nat) (shouldDelay : bool)
| UpdateItem (item process : nat) (hasCachedPage : bool)
| RemoveItem (item : nat)
| EntryExpires (item : nat)
| SuspensionTimesOut (webPage : nat)
| RemoveForProcess (process : nat) | RemoveForSession (session : nat) | RemoveForPage (page : nat) | RemoveForPageAndProcess (page process : nat)
| Clear
| Prune (n : nat)
| Navigate (item : nat)
| WaitUntilReady (item handler : nat)
| DidSuspend (item : nat) (success : bool)
| FirstLayerFlush (item : nat).

Definition suspendedPageOf (item : nat) c : option SuspendedPageProxy := e ← entryOf c !! item; m_suspendedPage e.

(** The answer to a request to suspend comes once, while it is awaited; a navigation takes
    a page that is ready; an entry expires while it exists. *)
Definition enabled (e : Event) c : Prop :=
  match e with
  | DidSuspend item _ => m_suspensionState <$> suspendedPageOf item c = Some Suspending
  | Navigate item => m_suspensionState <$> suspendedPageOf item c <> Some Suspending /\ suspendedPageOf item c <> None
  | EntryExpires item => is_Some (entryOf c !! item)
  | _ => True
  end.

Definition exec (e : Event) c : Cache :=
  match e with
  | SetCapacity n => setCapacity n c
  | SuspendPage item webPage process shouldDelay => addEntryForSuspendedPage item webPage process shouldDelay c
  | UpdateItem item process has => updateBackForwardItem item process has c
  | RemoveItem item => removeFromBackForwardCache item c
  | EntryExpires item => expirationTimerFired item c
  | SuspensionTimesOut webPage => suspensionTimedOut webPage c
  | RemoveForProcess process => removeEntriesForProcess process c
  | RemoveForSession session => removeEntriesForSession session c
  | RemoveForPage page => removeEntriesForPage page c
  | RemoveForPageAndProcess page process => removeEntriesForPageAndProcess page process c
  | Clear => clear c
  | Prune n => pruneToSize n c
  | Navigate item => navigateToSuspendedPage item c
  | WaitUntilReady item h => onSuspendedPage item (waitUntilReadyToUnsuspend h) c
  | DidSuspend item success => onSuspendedPage item (didProcessRequestToSuspend (if success then Suspended else FailedToSuspend)) c
  | FirstLayerFlush item => onSuspendedPage item pageDidFirstLayerFlush c
  end.

Inductive run : list Event -> Cache -> Cache -> Prop :=
| run_nil c : run [] c c
| run_cons e h c c' : enabled e c -> run h (exec e c) c' -> run (e :: h) c c'.

(** *** What is owed

    A suspended web page must be closed or resumed, a page cached by a process must be
    cleared there, a completion handler must be called: each is a token that lies in the
    cache until the output pays it. *)
Inductive Token := PageToken (webPage : nat) | ProcessToken (process item : nat) | HandlerToken (handler : nat).

Definition paid (o : Output) : list Token :=
  match o with
  | ClearCachedPage process item => [ProcessToken process item]
  | SetIsSuspended webPage false | ClosePage webPage => [PageToken webPage]
  | HandlerCalled h _ | HandlerDispatched h => [HandlerToken h]
  | _ => []
  end.
Definition owedByPage (p : SuspendedPageProxy) : list Token :=
  (if m_isClosed p || bool_decide (m_suspensionState p = Resumed) then [] else [PageToken (m_webPageID p)]) ++
  match m_readyToUnsuspendHandler p with Some h => [HandlerToken h] | None => [] end.
Definition owedByEntry (e : WebBackForwardCacheEntry) : list Token :=
  match m_suspendedPage e with
  | Some p => owedByPage p
  | None => match m_backForwardItemID e with Some item => [ProcessToken (m_processIdentifier e) item] | None => [] end
  end.
Definition paidSoFar c : list Token := concat (map paid (output c)).
Definition owed c : list Token := concat (map (fun kv => owedByEntry (snd kv)) (map_to_list (entryOf c))).
Definition ledger c : list Token := paidSoFar c ++ owed c.
Arguments paidSoFar : simpl never.
Arguments owed : simpl never.

(** The tokens an event adds. *)
Definition added (e : Event) c : list Token :=
  match e with
  | SuspendPage _ webPage _ _ => [PageToken webPage]
  | UpdateItem item process true => match entryOf c !! item with None => [ProcessToken process item] | Some _ => [] end
  | WaitUntilReady item h => match suspendedPageOf item c with Some _ => [HandlerToken h] | None => [] end
  | _ => []
  end.
Fixpoint addedBy (h : list Event) c : list Token :=
  match h with [] => [] | e :: h => added e c ++ addedBy h (exec e c) end.

(** Suspended pages of a process, by what the entries hold. *)
Definition processesOf c : list nat :=
  omap (fun kv => m_process <$> m_suspendedPage (snd kv)) (map_to_list (entryOf c)).

(** [extra] are the suspended pages that are not in an entry. *)
Definition balanced (extra : list nat) c : Prop :=
  forall q, Z.of_nat (countOf q c) = occ q (processesOf c) + occ q extra.

(** *** Tokens and counts through the operations *)

Lemma occ_perm {A} `{EqDecision A} (x : A) l l' : l ≡ₚ l' -> occ x l = occ x l'.
Proof. induction 1; cbn; lia. Qed.

Lemma paid_emit l c : paidSoFar (emit l c) = paidSoFar c ++ concat (map paid l).
Proof. unfold paidSoFar. cbn. by rewrite map_app, concat_app. Qed.

(** Only outputs and counts changed. *)
Record same c c' : Prop := {
  same_entries : entryOf c' = entryOf c;
  same_items : m_itemsWithCachedPage c' = m_itemsWithCachedPage c;
  same_capacity : m_capacity c' = m_capacity c }.

Lemma same_refl c : same c c.
Proof. done. Qed.
Lemma same_cache_trans c1 c2 c3 : same c1 c2 -> same c2 c3 -> same c1 c3.
Proof. intros [] []. split; congruence. Qed.
Lemma same_emit l c : same c (emit l c).
Proof. done. Qed.

Lemma close_spec p c :
  m_suspensionState p <> Resumed ->
  let '(p', c') := close p c in
  same c c' /\ m_suspendedPageCount c' = m_suspendedPageCount c /\ paidSoFar c' ++ owedByPage p' ≡ₚ paidSoFar c ++ owedByPage p /\
  m_isClosed p' = true /\ p' = p <| m_isClosed := true |>.
Proof.
  intros Hs. unfold close. destruct (m_isClosed p) eqn:Hc.
  - split_and!; try done. destruct p; cbn in *; by subst.
  - split; [done|]. split; [done|]. split; [|done]. rewrite paid_emit. unfold owedByPage. cbn. rewrite Hc, bool_decide_false by done. cbn.
    by rewrite <- app_assoc.
Qed.

Lemma countOf_decrement q process c :
  countOf q (decrementSuspendedPageCount process c) = if decide (q = process) then pred (countOf q c) else countOf q c.
Proof.
  unfold decrementSuspendedPageCount, countOf. cbn.
  destruct (bool_decide _); cbn; (destruct (decide (q = process)) as [->|]; [by rewrite lookup_insert_eq | by rewrite lookup_insert_ne]).
Qed.

Lemma countOf_increment q process c :
  countOf q (incrementSuspendedPageCount process c) = if decide (q = process) then S (countOf q c) else countOf q c.
Proof.
  unfold incrementSuspendedPageCount, countOf. cbn.
  destruct (bool_decide _); cbn; (destruct (decide (q = process)) as [->|]; [by rewrite lookup_insert_eq | by rewrite lookup_insert_ne]).
Qed.

Lemma decrement_spec process l c :
  same c (decrementSuspendedPageCount process c) /\ paidSoFar (decrementSuspendedPageCount process c) = paidSoFar c /\
  (balanced (process :: l) c -> balanced l (decrementSuspendedPageCount process c)).
Proof.
  assert (Hs : same c (decrementSuspendedPageCount process c)) by (unfold decrementSuspendedPageCount; by destruct (bool_decide _)).
  split; [done|]. split.
  - unfold decrementSuspendedPageCount. destruct (bool_decide _); [|done]. rewrite paid_emit. cbn. by rewrite app_nil_r.
  - intros Hb q. rewrite countOf_decrement. specialize (Hb q). cbn in Hb. unfold processesOf in *. rewrite (same_entries _ _ Hs).
    pose proof (occ_nonneg q l). pose proof (occ_nonneg q (omap (fun kv => m_process <$> m_suspendedPage (snd kv)) (map_to_list (entryOf c)))).
    destruct (decide (q = process)) as [->|Hne]; [rewrite decide_True in Hb by done; lia|]. rewrite decide_False in Hb by congruence. lia.
Qed.

Lemma balanced_frame l c c' : same c c' -> m_suspendedPageCount c' = m_suspendedPageCount c -> balanced l c -> balanced l c'.
Proof. intros Hs Hc Hb q. unfold countOf, processesOf in *. rewrite Hc, (same_entries _ _ Hs). apply Hb. Qed.

(** A suspended page is destroyed: what it owes is paid. *)
Lemma destroySuspendedPage_spec p l c :
  let c' := destroySuspendedPage p c in
  same c c' /\ paidSoFar c' ≡ₚ paidSoFar c ++ owedByPage p /\ (balanced (m_process p :: l) c -> balanced l c').
Proof.
  unfold destroySuspendedPage. set (c1 := match m_readyToUnsuspendHandler p with Some h => _ | None => c end).
  assert (H1 : same c c1 /\ m_suspendedPageCount c1 = m_suspendedPageCount c /\
    paidSoFar c1 = paidSoFar c ++ match m_readyToUnsuspendHandler p with Some h => [HandlerToken h] | None => [] end).
  { subst c1. destruct (m_readyToUnsuspendHandler p); [|by rewrite app_nil_r]. by rewrite paid_emit. }
  clearbody c1. destruct H1 as (Hs1 & Hc1 & Hp1).
  set (c2 := if bool_decide (m_suspensionState p <> Resumed) then _ else c1).
  assert (H2 : same c1 c2 /\ m_suspendedPageCount c2 = m_suspendedPageCount c1 /\
    paidSoFar c2 ≡ₚ paidSoFar c1 ++ (if m_isClosed p || bool_decide (m_suspensionState p = Resumed) then [] else [PageToken (m_webPageID p)])).
  { subst c2. destruct (bool_decide (m_suspensionState p <> Resumed)) eqn:Hr.
    - apply bool_decide_eq_true in Hr. rewrite (bool_decide_false (_ = Resumed)), orb_false_r by done. unfold close.
      destruct (m_isClosed p); cbn; destruct (bool_decide _); rewrite ?paid_emit; cbn; rewrite ?app_nil_r; done.
    - apply bool_decide_eq_false, dec_stable in Hr. rewrite Hr, orb_true_r, app_nil_r. done. }
  clearbody c2. destruct H2 as (Hs2 & Hc2 & Hp2). destruct (decrement_spec (m_process p) l c2) as (Hs3 & Hp3 & Hb3).
  split; [by eapply same_cache_trans; [eapply same_cache_trans|]|]. split.
  - rewrite Hp3, Hp2, Hp1. unfold owedByPage. rewrite <- app_assoc. apply Permutation_app_head, Permutation_app_comm.
  - intros Hb. apply Hb3. eapply balanced_frame; [exact (same_cache_trans _ _ _ Hs1 Hs2) | congruence | done].
Qed.

Definition processOfEntry (e : option WebBackForwardCacheEntry) : list nat :=
  match e with Some e => match m_suspendedPage e with Some p => [m_process p] | None => [] end | None => [] end.
Definition owedByOption (e : option WebBackForwardCacheEntry) : list Token := match e with Some e => owedByEntry e | None => [] end.

Lemma destroyEntry_spec e l c :
  let c' := destroyEntry e c in
  same c c' /\ paidSoFar c' ≡ₚ paidSoFar c ++ owedByEntry e /\ (balanced (processOfEntry (Some e) ++ l) c -> balanced l c').
Proof.
  unfold destroyEntry, owedByEntry, processOfEntry. destruct (m_suspendedPage e) as [p|].
  - destruct (m_backForwardItemID e); apply destroySuspendedPage_spec.
  - destruct (m_backForwardItemID e); cbn; (split; [done|]); [rewrite paid_emit|rewrite app_nil_r]; done.
Qed.

(** The entries after one was replaced. *)
Lemma entries_replaced (m : gmap nat WebBackForwardCacheEntry) item new :
  owedByOption (m !! item) ++ concat (map (fun kv => owedByEntry (snd kv)) (map_to_list (partial_alter (fun _ => new) item m))) ≡ₚ
    owedByOption new ++ concat (map (fun kv => owedByEntry (snd kv)) (map_to_list m)) /\
  processOfEntry (m !! item) ++ omap (fun kv => m_process <$> m_suspendedPage (snd kv)) (map_to_list (partial_alter (fun _ => new) item m)) ≡ₚ
    processOfEntry new ++ omap (fun kv => m_process <$> m_suspendedPage (snd kv)) (map_to_list m).
Proof.
  set (rest := delete item m).
  assert (Hnew : map_to_list (partial_alter (fun _ => new) item m) ≡ₚ option_list ((item,.) <$> new) ++ map_to_list rest).
  { destruct new as [e|]; cbn.
    - change (partial_alter (fun _ => Some e) item m) with (<[item := e]> m). rewrite <- insert_delete_eq. apply map_to_list_insert. apply lookup_delete_eq.
    - done. }
  assert (Hold : map_to_list m ≡ₚ option_list ((item,.) <$> (m !! item)) ++ map_to_list rest).
  { destruct (m !! item) as [e|] eqn:He; cbn; [by rewrite <- map_to_list_delete by exact He|]. unfold rest. by rewrite delete_id. }
  assert (Hf : forall (f : nat * WebBackForwardCacheEntry -> list Token) l l', l ≡ₚ l' -> concat (map f l) ≡ₚ concat (map f l')).
  { intros f l l' Hl. induction Hl; cbn; [done | by f_equiv | by rewrite !app_assoc, (Permutation_app_comm (f y)) | by etrans]. }
  assert (Hg : forall (f : nat * WebBackForwardCacheEntry -> option nat) l l', l ≡ₚ l' -> omap f l ≡ₚ omap f l').
  { intros f l l' Hl. by rewrite Hl. }
  split.
  - rewrite (Hf _ _ _ Hnew), (Hf _ _ _ Hold). rewrite !map_app, !concat_app, !app_assoc. f_equiv.
    destruct (m !! item), new; cbn; rewrite ?app_nil_r; try done. apply Permutation_app_comm.
  - rewrite (Hg _ _ _ Hnew), (Hg _ _ _ Hold), !omap_app, !app_assoc. f_equiv.
    assert (Ho : forall o, omap (fun kv => m_process <$> m_suspendedPage (snd kv)) (option_list ((item,.) <$> o)) = processOfEntry o).
    { intros [e|]; cbn; [|done]. by destruct (m_suspendedPage e). }
    rewrite !Ho. apply Permutation_app_comm.
Qed.

(** An item gets another entry, or none; the old entry pays what it owes. *)
Lemma setEntry_spec item new l c :
  let c' := setBackForwardCacheEntry item new c in
  entryOf c' = partial_alter (fun _ => new) item (entryOf c) /\ m_itemsWithCachedPage c' = m_itemsWithCachedPage c /\ m_capacity c' = m_capacity c /\
  ledger c' ≡ₚ ledger c ++ owedByOption new /\
  (balanced (processOfEntry new ++ l) c -> balanced l c').
Proof.
  unfold setBackForwardCacheEntry. set (c1 := c <| entryOf := partial_alter (fun _ => new) item (entryOf c) |>).
  destruct (entries_replaced (entryOf c) item new) as [Ho Hp].
  assert (Hb1 : balanced (processOfEntry new ++ l) c -> balanced (processOfEntry (entryOf c !! item) ++ l) c1).
  { intros Hb q. specialize (Hb q). unfold countOf, processesOf in *. cbn. rewrite Hb, !occ_app. apply (occ_perm q) in Hp. rewrite !occ_app in Hp. lia. }
  destruct (entryOf c !! item) as [old|] eqn:He.
  - destruct (destroyEntry_spec old l c1) as ([E1 E2 E3] & Hpaid & Hb). split; [done|]. split; [done|]. split; [done|]. split; [|by intros ?; apply Hb, Hb1].
    unfold ledger, owed. rewrite E1, Hpaid. cbn in Ho |- *. change (paidSoFar c1) with (paidSoFar c). rewrite <- !app_assoc. f_equiv. rewrite Ho. apply Permutation_app_comm.
  - split; [done|]. split; [done|]. split; [done|]. split; [|done]. unfold ledger, owed. cbn in Ho |- *.
    change (paidSoFar c1) with (paidSoFar c). rewrite <- app_assoc. f_equiv. rewrite Ho. apply Permutation_app_comm.
Qed.

(** *** The shape of the cache *)

(** The vector lists, once each, exactly the items that have an entry. *)
Record shape c : Prop := {
  shape_nodup : NoDup (m_itemsWithCachedPage c);
  shape_entries : forall item, item ∈ m_itemsWithCachedPage c <-> is_Some (entryOf c !! item) }.

Lemma removeFirst_split item l :
  item ∈ l -> exists l1 l2, l = l1 ++ item :: l2 /\ removeFirst item l = l1 ++ l2.
Proof.
  intros Hin. unfold removeFirst. destruct (list_find (fun x => x = item) l) as [[i x]|] eqn:Hf.
  - apply list_find_Some in Hf as (Hi & -> & _). exists (take i l), (drop (S i) l).
    rewrite take_drop_middle by done. by rewrite delete_take_drop.
  - apply list_find_None in Hf. rewrite Forall_forall in Hf. by destruct (Hf item Hin).
Qed.

(** Entries leave the cache: nothing is lost, counts stay right. *)
Record drops c c' : Prop := {
  drops_shape : shape c';
  drops_entries : entryOf c' ⊆ entryOf c;
  drops_size : (size c' <= size c)%nat;
  drops_capacity : m_capacity c' = m_capacity c;
  drops_ledger : ledger c' ≡ₚ ledger c;
  drops_balanced : forall l, balanced l c -> balanced l c' }.

Lemma drops_refl c : shape c -> drops c c.
Proof. by split. Qed.
Lemma drops_trans c1 c2 c3 : drops c1 c2 -> drops c2 c3 -> drops c1 c3.
Proof. intros [] []. split; try done; try congruence; try (by etrans); auto. Qed.

Lemma removeEntry_drops item c :
  shape c -> item ∈ m_itemsWithCachedPage c ->
  drops c (removeEntry item c) /\ size c = S (size (removeEntry item c)) /\ entryOf (removeEntry item c) = delete item (entryOf c).
Proof.
  intros [Hn He] Hin. destruct (removeFirst_split item _ Hin) as (l1 & l2 & Hl & Hr).
  unfold removeEntry. set (c1 := c <| m_itemsWithCachedPage := _ |>).
  destruct (setEntry_spec item None [] c1) as (E1 & E2 & E3 & E4 & _). set (c2 := setBackForwardCacheEntry item None c1) in *.
  assert (Hi : m_itemsWithCachedPage c2 = l1 ++ l2) by (rewrite E2; exact Hr).
  assert (Hd : entryOf c2 = delete item (entryOf c)) by exact E1.
  rewrite Hl in Hn. apply NoDup_app in Hn as (Hn1 & Hn2 & Hn3). apply NoDup_cons in Hn3 as [Hn3 Hn4].
  assert (Hsz : size c = S (size c2)) by (unfold size; rewrite Hi, Hl, !length_app; cbn; lia).
  split; [split|done].
  - split; rewrite Hi.
    + apply NoDup_app. split; [done|]. split; [|done]. intros x Hx1 Hx2. apply (Hn2 x Hx1). by right.
    + intros x. rewrite Hd. destruct (decide (x = item)) as [->|Hne].
      * rewrite lookup_delete_eq. split; [|by intros []]. rewrite elem_of_app. intros [Hx|Hx]; [|done]. destruct (Hn2 item Hx). by left.
      * rewrite lookup_delete_ne, <- He, Hl by done. rewrite !elem_of_app, elem_of_cons. intuition congruence.
  - rewrite Hd. apply delete_subseteq.
  - lia.
  - exact E3.
  - rewrite E4. cbn. by rewrite app_nil_r.
  - intros l Hb. by destruct (setEntry_spec item None l c1) as (_ & _ & _ & _ & ?); auto.
Qed.

Lemma removeOldest_drops c : shape c -> m_itemsWithCachedPage c <> [] -> drops c (removeOldestEntry c) /\ size c = S (size (removeOldestEntry c)).
Proof.
  intros Hs Hne. unfold removeOldestEntry. destruct (m_itemsWithCachedPage c) as [|item l] eqn:Hl; [done|].
  destruct (removeEntry_drops item c Hs) as (? & ? & _); [rewrite Hl; by left|done].
Qed.

Lemma removeOldestLoop_drops n fuel : forall c, shape c -> (size c <= fuel)%nat ->
  drops c (removeOldestLoop fuel n c) /\ (size (removeOldestLoop fuel n c) <= n)%nat.
Proof.
  induction fuel as [|fuel IH]; intros c Hs Hf; cbn; [split; [by apply drops_refl|lia]|].
  destruct (bool_decide (n < size c)%nat) eqn:Hb; [|apply bool_decide_eq_false in Hb; split; [by apply drops_refl|lia]].
  apply bool_decide_eq_true in Hb. destruct (removeOldest_drops c Hs) as [Hd Hsz]; [intros Hn; unfold size in Hb; rewrite Hn in Hb; cbn in Hb; lia|].
  destruct (IH (removeOldestEntry c) (drops_shape _ _ Hd)) as [Hd' Hsz']; [lia|]. split; [by eapply drops_trans|done].
Qed.

Lemma clearEntries_spec L : forall c,
  let c' := fold_left (fun c item => setBackForwardCacheEntry item None c) L c in
  m_itemsWithCachedPage c' = m_itemsWithCachedPage c /\ m_capacity c' = m_capacity c /\ ledger c' ≡ₚ ledger c /\
  (forall item, entryOf c' !! item = if decide (item ∈ L) then None else entryOf c !! item) /\ (forall l, balanced l c -> balanced l c').
Proof.
  induction L as [|x L IH]; intros c; cbn; [split_and!; try done; intros item; by rewrite decide_False by (by apply not_elem_of_nil)|].
  destruct (IH (setBackForwardCacheEntry x None c)) as (I1 & I2 & I3 & I4 & I5).
  destruct (setEntry_spec x None [] c) as (E1 & E2 & E3 & E4 & _). cbn in E4. rewrite app_nil_r in E4.
  split; [by rewrite I1|]. split; [by rewrite I2|]. split; [by rewrite I3|]. split.
  - intros item. rewrite I4, E1. change (partial_alter (fun _ => None) x (entryOf c)) with (delete x (entryOf c)).
    destruct (decide (item ∈ L)) as [Hin|Hin]; [rewrite decide_True by (by right); done|].
    destruct (decide (item = x)) as [->|Hne]; [rewrite lookup_delete_eq, decide_True by (by left); done|].
    rewrite lookup_delete_ne, decide_False; [done | rewrite elem_of_cons; intuition congruence | congruence].
  - intros l Hb. apply I5. by destruct (setEntry_spec x None l c) as (_ & _ & _ & _ & ?); auto.
Qed.

(** Removing all matching items at once. *)
Lemma removeItems_drops (keep : nat -> bool) c L :
  shape c -> L = filter (fun item => keep item = false) (m_itemsWithCachedPage c) ->
  drops c (fold_left (fun c item => setBackForwardCacheEntry item None c) L
    (c <| m_itemsWithCachedPage := filter (fun item => keep item = true) (m_itemsWithCachedPage c) |>)).
Proof.
  intros [Hn He] ->. set (c1 := c <| m_itemsWithCachedPage := _ |>).
  destruct (clearEntries_spec (filter (fun item => keep item = false) (m_itemsWithCachedPage c)) c1) as (I1 & I2 & I3 & I4 & I5).
  set (c2 := fold_left _ _ c1) in *. split.
  - split; rewrite I1; cbn; [by apply NoDup_filter|]. intros item. rewrite I4, list_elem_of_filter. cbn.
    destruct (decide _) as [Hin|Hin]; rewrite list_elem_of_filter in Hin.
    + split; [intros [? ?]; destruct Hin; congruence | by intros []].
    + rewrite <- He. destruct (keep item); intuition congruence.
  - apply map_subseteq_spec. intros item e. rewrite I4. by destruct (decide _).
  - unfold size. rewrite I1. cbn. apply length_filter.
  - exact I2.
  - exact I3.
  - exact I5.
Qed.

Lemma removeEntriesMatching_drops matches c : shape c -> drops c (removeEntriesMatching matches c).
Proof.
  intros Hs. unfold removeEntriesMatching.
  assert (Hk : forall l : list nat, filter (fun item => matches item = false) l = filter (fun item => negb (matches item) = true) l /\
    filter (fun item => matches item = true) l = filter (fun item => negb (matches item) = false) l).
  { intros l. split; apply list_filter_iff; intros x; by destruct (matches x). }
  destruct (Hk (m_itemsWithCachedPage c)) as [-> Hm]. by apply (removeItems_drops (fun item => negb (matches item))).
Qed.

Lemma clear_drops c : shape c -> drops c (clear c) /\ size (clear c) = 0%nat.
Proof.
  intros Hs. unfold clear.
  assert (Hk : filter (fun item => false = true) (m_itemsWithCachedPage c) = [] /\ filter (fun item => false = false) (m_itemsWithCachedPage c) = m_itemsWithCachedPage c).
  { induction (m_itemsWithCachedPage c) as [|x l [H1 H2]]; [done|]. rewrite !filter_cons, decide_False, decide_True by done. by rewrite H1, H2. }
  destruct Hk as [Hk1 Hk2]. pose proof (removeItems_drops (fun _ => false) c (m_itemsWithCachedPage c) Hs (eq_sym Hk2)) as Hd.
  cbv beta in Hd. rewrite Hk1 in Hd. split; [exact Hd|]. unfold size.
  destruct (clearEntries_spec (m_itemsWithCachedPage c) (c <| m_itemsWithCachedPage := [] |>)) as (-> & _). done.
Qed.

(** *** Entries come in *)

Lemma addEntry_spec item e l c :
  shape c -> (size c <= m_capacity c)%nat ->
  let c' := addEntry item e c in
  shape c' /\ (size c' <= m_capacity c')%nat /\ entryOf c' ⊆ <[item := e]> (entryOf c) /\ ledger c' ≡ₚ ledger c ++ owedByEntry e /\
  (balanced (processOfEntry (Some e) ++ l) c -> balanced l c').
Proof.
  intros Hsh Hsz. unfold addEntry. set (c1 := match entryOf c !! item with Some _ => _ | None => c end).
  assert (H1 : entryOf c1 = entryOf c /\ m_capacity c1 = m_capacity c /\ ledger c1 = ledger c /\ (forall l, balanced l c -> balanced l c1) /\
    NoDup (m_itemsWithCachedPage c1) /\ (size c1 <= m_capacity c)%nat /\
    (forall x, x ∈ m_itemsWithCachedPage c1 <-> x <> item /\ is_Some (entryOf c !! x))).
  { subst c1. destruct (entryOf c !! item) as [old|] eqn:Ho.
    - assert (Hin : item ∈ m_itemsWithCachedPage c) by (apply (shape_entries c Hsh); by exists old).
      destruct (removeFirst_split item _ Hin) as (l1 & l2 & Hl & Hr). destruct Hsh as [Hn He]. split_and!; try done; cbn; unfold size; cbn; rewrite Hr.
      + rewrite Hl in Hn. apply NoDup_app in Hn as (Hn1 & Hn2 & [Hn3 Hn4]%NoDup_cons). apply NoDup_app. split; [done|]. split; [|done].
        intros x Hx1 Hx2. apply (Hn2 x Hx1). by right.
      + unfold size in Hsz. rewrite Hl, length_app in Hsz. cbn in Hsz. rewrite length_app. lia.
      + intros x. rewrite <- He, Hl. rewrite Hl in Hn. apply NoDup_app in Hn as (Hn1 & Hn2 & [Hn3 Hn4]%NoDup_cons).
        rewrite !elem_of_app, elem_of_cons. specialize (Hn2 item). rewrite elem_of_cons in Hn2. destruct (decide (x = item)) as [->|]; intuition congruence.
    - destruct Hsh as [Hn He]. split_and!; try done. intros x. rewrite He. split; [|tauto]. intros Hx. split; [|done]. intros ->. rewrite Ho in Hx. by destruct Hx. }
  clearbody c1. destruct H1 as (E1 & C1 & L1 & B1 & N1 & S1 & I1).
  destruct (setEntry_spec item (Some e) l c1) as (E2 & I2 & C2 & L2 & B2). set (c2 := setBackForwardCacheEntry item (Some e) c1) in *.
  set (c3 := c2 <| m_itemsWithCachedPage := m_itemsWithCachedPage c2 ++ [item] |>).
  assert (Hsh3 : shape c3).
  { split; cbn; rewrite I2.
    - apply NoDup_app. split; [done|]. split; [|apply NoDup_singleton]. intros x Hx ->%list_elem_of_singleton. by apply I1 in Hx as [].
    - intros x. rewrite elem_of_app, list_elem_of_singleton, I1, E2, E1. change (partial_alter (fun _ => Some e) item (entryOf c)) with (<[item := e]> (entryOf c)).
      destruct (decide (x = item)) as [->|Hne]; [rewrite lookup_insert_eq; split; [by eexists|by right]|]. rewrite lookup_insert_ne by done. intuition congruence. }
  assert (Hsz3 : (size c3 <= S (m_capacity c3))%nat).
  { unfold size. cbn. rewrite I2, length_app, C2, C1. cbn. unfold size in S1. lia. }
  assert (Hed : entryOf c3 = <[item := e]> (entryOf c)) by (cbn; by rewrite E2, E1).
  assert (Hl3 : ledger c3 ≡ₚ ledger c ++ owedByEntry e) by (rewrite <- L1; exact L2).
  destruct (bool_decide (m_capacity c3 < size c3)%nat) eqn:Hb.
  - apply bool_decide_eq_true in Hb. destruct (removeOldest_drops c3 Hsh3) as [[D1 D2 D3 D4 D5 D6] Hd]; [cbn; by destruct (m_itemsWithCachedPage c2)|].
    split; [done|]. split; [lia|]. split; [by rewrite <- Hed|]. split; [by rewrite D5|]. intros Hbal. apply D6. apply B2. by apply B1.
  - apply bool_decide_eq_false in Hb. split; [done|]. split; [lia|]. split; [by rewrite <- Hed|]. split; [done|]. intros Hbal. apply B2. by apply B1.
Qed.

(** *** The pages in the entries *)

Record page_ok (p : SuspendedPageProxy) : Prop := {
  page_not_resumed : m_suspensionState p <> Resumed;
  page_failed_closes : m_suspensionState p = FailedToSuspend -> pageIsClosedOrClosing p = true;
  page_closing_failed : pageIsClosedOrClosing p = true -> m_suspensionState p = FailedToSuspend;
  page_timer : m_suspensionTimeoutTimer p = bool_decide (m_suspensionState p = Suspending);
  page_waiting : m_readyToUnsuspendHandler p <> None -> m_suspensionState p = Suspending }.

Definition entry_ok (item : nat) (e : WebBackForwardCacheEntry) : Prop :=
  m_backForwardItemID e = Some item /\
  match m_suspendedPage e with Some p => m_process p = m_processIdentifier e /\ page_ok p | None => True end.

(** A call to a suspended page, which may be given a handler to owe. *)
Definition page_step (tokens : list Token) (f : SuspendedPageProxy -> Cache -> SuspendedPageProxy * Cache) (p : SuspendedPageProxy) : Prop :=
  page_ok p -> forall c, let '(p', c') := f p c in
  same c c' /\ m_suspendedPageCount c' = m_suspendedPageCount c /\ m_process p' = m_process p /\ page_ok p' /\
  paidSoFar c' ++ owedByPage p' ≡ₚ (paidSoFar c ++ owedByPage p) ++ tokens.

Lemma firstLayerFlush_step p : page_step [] pageDidFirstLayerFlush p.
Proof.
  intros [H1 H2 H3 H4 H5] c. unfold pageDidFirstLayerFlush. set (p1 := p <| m_shouldDelayClosingUntilFirstLayerFlush := false |>).
  assert (Hok1 : page_ok p1) by (by split). change (owedByPage p) with (owedByPage p1). change (m_process p) with (m_process p1).
  destruct (m_shouldCloseWhenEnteringAcceleratedCompositingMode p1) eqn:Hc; [|rewrite app_nil_r; by split_and!].
  pose proof (close_spec p1 c H1) as Hs. destruct (close p1 c) as [p2 c2]. destruct Hs as (? & ? & ? & ? & ->).
  split_and!; try done; [|by rewrite app_nil_r]. assert (Hf : m_suspensionState p = FailedToSuspend) by (apply H3; unfold pageIsClosedOrClosing; cbn in Hc; by rewrite Hc, orb_true_r).
  by split.
Qed.

Lemma page_ok_handler p h : page_ok p -> (h <> None -> m_suspensionState p = Suspending) -> page_ok (p <| m_readyToUnsuspendHandler := h |>).
Proof. by intros [] ?. Qed.

Lemma wait_step h p : page_step [HandlerToken h] (waitUntilReadyToUnsuspend h) p.
Proof.
  intros Hok c. unfold waitUntilReadyToUnsuspend.
  pose proof (page_ok_handler p (Some h) Hok) as Hok'. pose proof (page_ok_handler p None Hok) as Hokn.
  destruct (m_readyToUnsuspendHandler p) as [old|] eqn:Hold.
  - assert (Hs : m_suspensionState p = Suspending) by (apply (page_waiting _ Hok); by rewrite Hold).
    change (m_suspensionState (p <| m_readyToUnsuspendHandler := None |>)) with (m_suspensionState p). rewrite Hs.
    split; [done|]. split; [done|]. split; [done|]. split; [by apply Hok'|]. rewrite paid_emit. unfold owedByPage. cbn. rewrite Hold.
    rewrite <- !app_assoc. f_equiv. rewrite (Permutation_app_comm [HandlerToken old]), <- app_assoc. f_equiv. apply perm_swap.
  - destruct (m_suspensionState p) eqn:Hs; (split; [done|]; split; [done|]; split; [done|]).
    1: split; [by apply Hok'|]; unfold owedByPage; cbn; rewrite Hold, app_nil_r; by rewrite <- app_assoc.
    all: split; [done|]; rewrite paid_emit; rewrite <- !app_assoc; f_equiv; apply Permutation_app_comm.
Qed.

Lemma didProcess_step (success : bool) p :
  m_suspensionState p = Suspending -> page_step [] (didProcessRequestToSuspend (if success then Suspended else FailedToSuspend)) p.
Proof.
  intros Hst [H1 H2 H3 H4 H5] c. unfold didProcessRequestToSuspend. rewrite app_nil_r.
  assert (Hno : pageIsClosedOrClosing p = false) by (destruct (pageIsClosedOrClosing p); [by rewrite H3 in Hst|done]).
  unfold pageIsClosedOrClosing in Hno. apply orb_false_iff in Hno as [Hnc Hns].
  set (new := if success then Suspended else FailedToSuspend).
  set (p1 := p <| m_suspensionState := new |> <| m_suspensionTimeoutTimer := false |>).
  set (c1 := emit _ c).
  assert (Hc1 : paidSoFar c1 = paidSoFar c) by (unfold c1; rewrite paid_emit; cbn; by rewrite app_nil_r).
  assert (Ho1 : owedByPage p1 = owedByPage p) by (unfold owedByPage; cbn; rewrite Hst, Hnc; by destruct success).
  set (pc := if bool_decide (m_suspensionState p1 = FailedToSuspend) then closeWithoutFlashing p1 c1 else (p1, c1)).
  assert (Hpc : let '(p2, c2) := pc in same c1 c2 /\ m_suspendedPageCount c2 = m_suspendedPageCount c1 /\ m_process p2 = m_process p /\
    page_ok (p2 <| m_readyToUnsuspendHandler := None |>) /\ m_readyToUnsuspendHandler p2 = m_readyToUnsuspendHandler p /\
    paidSoFar c2 ++ owedByPage p2 ≡ₚ paidSoFar c1 ++ owedByPage p1).
  { subst pc. destruct success; cbn.
    - split_and!; try done. split; cbn; try done. unfold pageIsClosedOrClosing. cbn. by rewrite Hnc, Hns.
    - unfold closeWithoutFlashing. destruct (m_shouldDelayClosingUntilFirstLayerFlush p1).
      + split_and!; try done. split; cbn; try done. unfold pageIsClosedOrClosing. cbn. by rewrite orb_true_r.
      + pose proof (close_spec p1 c1 ltac:(done)) as Hs. destruct (close p1 c1) as [p2 c2]. destruct Hs as (? & ? & ? & ? & ->).
        split_and!; try done. }
  destruct pc as [p2 c2]. destruct Hpc as (Hs2 & Hn2 & Hp2 & Hok2 & Hh2 & Hl2). rewrite Hc1, Ho1 in Hl2.
  destruct (m_readyToUnsuspendHandler p2) as [h|] eqn:Hh.
  - split; [by apply (same_cache_trans c c2); [apply (same_cache_trans c c1)|]|]. split; [done|]. split; [done|]. split; [done|].
    rewrite paid_emit, <- Hl2. unfold owedByPage. cbn. rewrite Hh, app_nil_r, <- app_assoc. f_equiv. apply Permutation_app_comm.
  - split; [by apply (same_cache_trans c c1)|]. split; [done|]. split; [done|]. split; [|done]. destruct p2; cbn in *; subst. exact Hok2.
Qed.

Record wf c : Prop := {
  wf_shape : shape c;
  wf_size : (size c <= m_capacity c)%nat;
  wf_entries : forall item e, entryOf c !! item = Some e -> entry_ok item e;
  wf_count : balanced [] c }.

Lemma drops_wf c c' : wf c -> drops c c' -> wf c'.
Proof.
  intros [Hs Hz He Hb] [D1 D2 D3 D4 D5 D6]. split; auto; [lia|]. intros item e Hi. apply He. by eapply lookup_weaken.
Qed.

Lemma ledger_exchange (A B P P' X X' T : list Token) :
  A ++ P' ≡ₚ (B ++ P) ++ T -> P ++ X' ≡ₚ P' ++ X -> A ++ X' ≡ₚ (B ++ X) ++ T.
Proof.
  intros H1 H2. apply (Permutation_app_inv_l P). rewrite Permutation_app_swap_app, H2, app_assoc, H1, <- !app_assoc, Permutation_app_swap_app.
  f_equiv. f_equiv. apply Permutation_app_comm.
Qed.

Lemma onSuspendedPage_spec item f tokens c :
  wf c -> (forall p, suspendedPageOf item c = Some p -> page_step tokens f p) ->
  wf (onSuspendedPage item f c) /\
  ledger (onSuspendedPage item f c) ≡ₚ ledger c ++ match suspendedPageOf item c with Some _ => tokens | None => [] end.
Proof.
  intros Hwf Hf. unfold onSuspendedPage, suspendedPageOf in *. destruct (entryOf c !! item) as [e|] eqn:He; cbn in *; [|by rewrite app_nil_r].
  destruct (m_suspendedPage e) as [p|] eqn:Hp; [|by rewrite app_nil_r]. destruct Hwf as [[Hn Hi] Hz Hok Hb].
  destruct (Hok item e He) as [Hid Hpage]. rewrite Hp in Hpage. destruct Hpage as [Hproc Hpok]. specialize (Hf p eq_refl Hpok c).
  destruct (f p c) as [p' c1]. destruct Hf as ([S1 S2 S3] & Hc & Hproc' & Hpok' & Hled).
  set (e' := e <| m_suspendedPage := Some p' |>). set (c2 := c1 <| entryOf := <[item := e']> (entryOf c1) |>).
  destruct (entries_replaced (entryOf c) item (Some e')) as [Ho Hpr]. rewrite He in Ho, Hpr. cbn in Ho, Hpr. unfold owedByEntry in Ho at 1 3. cbn in Ho. rewrite Hp in Ho, Hpr.
  rewrite Hproc' in Hpr. apply Permutation_cons_inv in Hpr. split; [split|].
  - split; cbn; rewrite S2; [done|]. intros x. rewrite S1, Hi. destruct (decide (x = item)) as [->|Hne]; [rewrite lookup_insert_eq, He; split; by eexists|].
    by rewrite lookup_insert_ne.
  - unfold size. cbn. by rewrite S2, S3.
  - intros x ex. cbn. rewrite S1. destruct (decide (x = item)) as [->|Hne]; [rewrite lookup_insert_eq|by rewrite lookup_insert_ne; auto].
    intros [= <-]. split; [done|]. cbn. split; [congruence|done].
  - intros q. specialize (Hb q). unfold countOf, processesOf in *. cbn. rewrite Hc, Hb, S1. cbn. rewrite !Z.add_0_r. symmetry. by apply occ_perm.
  - unfold ledger, owed. cbn. rewrite S1. change (paidSoFar c2) with (paidSoFar c1).
    exact (ledger_exchange _ _ _ _ _ _ _ Hled Ho).
Qed.

(** *** Taking a page out, putting one in *)

Lemma take_spec item e p c :
  wf c -> entryOf c !! item = Some e -> m_suspendedPage e = Some p ->
  exists c', takeSuspendedPage item c = (c', Some p) /\ shape c' /\ (size c' <= m_capacity c')%nat /\ entryOf c' ⊆ entryOf c /\
    ledger c' ++ owedByPage p ≡ₚ ledger c /\ balanced [m_process p] c'.
Proof.
  intros [Hs Hz He Hb] Hi Hp. unfold takeSuspendedPage. rewrite Hi. cbn. rewrite Hp.
  set (e0 := e <| m_backForwardItemID := None |> <| m_expirationTimer := false |> <| m_suspendedPage := None |>).
  set (c1 := c <| entryOf := <[item := e0]> (entryOf c) |>).
  destruct (entries_replaced (entryOf c) item (Some e0)) as [Ho Hpr]. rewrite Hi in Ho, Hpr. cbn in Ho, Hpr. unfold owedByEntry at 1 in Ho. rewrite Hp in Ho, Hpr.
  assert (Hs1 : shape c1).
  { destruct Hs as [Hn Hin]. split; [done|]. intros x. cbn. rewrite Hin. destruct (decide (x = item)) as [->|Hne]; [rewrite lookup_insert_eq, Hi; split; by eexists|by rewrite lookup_insert_ne]. }
  assert (Hl1 : ledger c1 ++ owedByPage p ≡ₚ ledger c).
  { unfold ledger, owed. cbn. change (paidSoFar c1) with (paidSoFar c). rewrite <- app_assoc. f_equiv. by rewrite (Permutation_app_comm _ (owedByPage p)). }
  assert (Hb1 : balanced [m_process p] c1).
  { intros q. specialize (Hb q). unfold countOf, processesOf in *. cbn [entryOf m_suspendedPageCount] in *. apply (occ_perm q) in Hpr. rewrite occ_app in Hpr.
    cbn in Hb |- *. rewrite Hb. change (partial_alter (fun _ => Some e0) item (entryOf c)) with (<[item := e0]> (entryOf c)) in Hpr. cbn in Hpr. lia. }
  destruct (removeEntry_drops item c1 Hs1) as ([D1 D2 D3 D4 D5 D6] & Hsz & Hdel).
  { apply (shape_entries _ Hs1). cbn. rewrite lookup_insert_eq. by eexists. }
  exists (removeEntry item c1). split; [done|]. split; [done|]. split; [change (m_capacity c1) with (m_capacity c) in D4; change (size c1) with (size c) in Hsz; lia|].
  split; [|split; [by rewrite D5|by apply D6]]. rewrite Hdel. cbn. rewrite delete_insert_eq. apply delete_subseteq.
Qed.

Lemma sub_wf c c1 c2 :
  wf c -> shape c1 -> (size c1 <= m_capacity c1)%nat -> entryOf c1 ⊆ entryOf c -> same c1 c2 -> balanced [] c2 -> wf c2.
Proof.
  intros [_ _ He _] [Hn Hi] Hz Hsub [S1 S2 S3] Hb. split.
  - split; [by rewrite S2|]. intros x. by rewrite S1, S2.
  - unfold size. by rewrite S2, S3.
  - intros item e. rewrite S1. intros Hl. apply He. by eapply lookup_weaken.
  - done.
Qed.

Lemma ledger_same c c' T : same c c' -> paidSoFar c' ≡ₚ paidSoFar c ++ T -> ledger c' ≡ₚ ledger c ++ T.
Proof.
  intros Hs Hp. unfold ledger, owed. rewrite (same_entries _ _ Hs), Hp, <- !app_assoc. f_equiv. apply Permutation_app_comm.
Qed.

Lemma navigate_spec item c :
  wf c -> enabled (Navigate item) c -> wf (navigateToSuspendedPage item c) /\ ledger (navigateToSuspendedPage item c) ≡ₚ ledger c.
Proof.
  intros Hwf [Hst Hsome]. unfold suspendedPageOf in *. destruct (entryOf c !! item) as [e|] eqn:Hi; cbn in *; [|done].
  destruct (m_suspendedPage e) as [p|] eqn:Hp; [|done]. destruct (take_spec item e p c Hwf Hi Hp) as (c1 & Ht & Hs1 & Hz1 & Hsub & Hl & Hb).
  destruct (wf_entries _ Hwf item e Hi) as [_ Hok]. rewrite Hp in Hok. destruct Hok as [_ [H1 H2 H3 H4 H5]].
  unfold navigateToSuspendedPage. rewrite Ht. destruct (pageIsClosedOrClosing p) eqn:Hc.
  - destruct (destroySuspendedPage_spec p [] c1) as (Hs & Hpaid & Hbal). split; [by eapply (sub_wf c c1); auto|].
    by rewrite (ledger_same _ _ _ Hs Hpaid).
  - cbn. set (p1 := p <| m_suspensionState := Resumed |>). set (c2 := emit [SetIsSuspended (m_webPageID p) false] c1).
    destruct (destroySuspendedPage_spec p1 [] c2) as (Hs & Hpaid & Hbal).
    assert (Hs2 : same c1 (destroySuspendedPage p1 c2)) by (by apply (same_cache_trans c1 c2)).
    split; [by eapply (sub_wf c c1); auto|]. rewrite <- Hl. apply ledger_same; [done|]. etrans; [exact Hpaid|]. unfold c2. rewrite paid_emit, <- app_assoc. f_equiv.
    unfold owedByPage. apply orb_false_iff in Hc as [Hc _]. cbn. rewrite Hc, orb_true_r, bool_decide_false by done. done.
Qed.

Lemma create_spec webPage process delay c :
  let '(p, c1) := createSuspendedPage webPage process delay c in
  same c c1 /\ paidSoFar c1 = paidSoFar c /\ m_process p = process /\ page_ok p /\ owedByPage p = [PageToken webPage] /\
  (balanced [] c -> balanced [process] c1).
Proof.
  unfold createSuspendedPage. set (c1 := incrementSuspendedPageCount process c).
  assert (Hs : same c c1 /\ paidSoFar c1 = paidSoFar c).
  { unfold c1, incrementSuspendedPageCount. destruct (bool_decide _); [|done]. split; [done|]. rewrite paid_emit. cbn. by rewrite app_nil_r. }
  destruct Hs as [Hs Hp]. split; [by apply (same_cache_trans c c1)|]. split; [rewrite paid_emit; cbn; by rewrite app_nil_r|]. split; [done|]. split; [by split|]. split; [done|].
  intros Hb q. specialize (Hb q). change (countOf q (emit _ c1)) with (countOf q c1). 
  change (processesOf (emit _ c1)) with (processesOf c1). unfold processesOf in *. rewrite (same_entries _ _ Hs). unfold c1. rewrite countOf_increment. cbn in Hb |- *. destruct (decide (q = process)) as [->|Hne]; [rewrite decide_True by done; lia|].
  rewrite decide_False by congruence. lia.
Qed.

(** An entry is added to a well-formed cache. *)
Lemma addEntry_wf item e c c1 :
  wf c -> same c c1 -> paidSoFar c1 = paidSoFar c -> balanced (processOfEntry (Some e)) c1 -> entry_ok item e ->
  wf (addEntry item e c1) /\ ledger (addEntry item e c1) ≡ₚ ledger c ++ owedByEntry e.
Proof.
  intros [Hs Hz He Hb] [S1 S2 S3] Hp Hbal Hok. assert (Hs1 : shape c1) by (destruct Hs; split; [by rewrite S2|intros x; by rewrite S1, S2]).
  assert (Hz1 : (size c1 <= m_capacity c1)%nat) by (unfold size; by rewrite S2, S3).
  destruct (addEntry_spec item e [] c1 Hs1 Hz1) as (A1 & A2 & A3 & A4 & A5). rewrite app_nil_r in A5. split.
  - split; auto. intros x ex Hx. eapply lookup_weaken in Hx; [|exact A3]. rewrite S1 in Hx.
    destruct (decide (x = item)) as [->|Hne]; [rewrite lookup_insert_eq in Hx; by injection Hx as <-|]. rewrite lookup_insert_ne in Hx by done. by apply He.
  - rewrite A4. unfold ledger, owed. by rewrite Hp, S1.
Qed.

(** *** Every step *)

Lemma drops_step c c' : wf c -> drops c c' -> wf c' /\ ledger c' ≡ₚ ledger c ++ [].
Proof. intros Hwf Hd. split; [by apply (drops_wf c)|]. rewrite app_nil_r. apply (drops_ledger _ _ Hd). Qed.

Lemma removeEntry_step item c : wf c -> is_Some (entryOf c !! item) -> wf (removeEntry item c) /\ ledger (removeEntry item c) ≡ₚ ledger c ++ [].
Proof.
  intros Hwf Hi. apply drops_step; [done|]. apply removeEntry_drops; [apply (wf_shape _ Hwf)|]. by apply (shape_entries _ (wf_shape _ Hwf)).
Qed.

Lemma nothing_step c : wf c -> wf c /\ ledger c ≡ₚ ledger c ++ [].
Proof. intros. by rewrite app_nil_r. Qed.

Lemma setCapacity_step n c : wf c -> wf (setCapacity n c) /\ ledger (setCapacity n c) ≡ₚ ledger c ++ [].
Proof.
  intros Hwf. unfold setCapacity. destruct (decide (m_capacity c = n)); [by apply nothing_step|]. unfold pruneToSize.
  set (c1 := c <| m_capacity := n |>). assert (Hs1 : shape c1) by (by destruct (wf_shape _ Hwf); split).
  destruct (removeOldestLoop_drops n (size c1) c1 Hs1) as [[D1 D2 D3 D4 D5 D6] Hn]; [lia|]. set (c2 := removeOldestLoop _ n c1) in *.
  split.
  - apply (sub_wf c c2); [done | done | by rewrite D4 | done | done |]. apply (balanced_frame [] c2); [done|done|]. apply D6. exact (wf_count _ Hwf).
  - rewrite (ledger_same c2 _ [] (same_emit _ _)); [by rewrite D5|]. rewrite paid_emit. cbn. by rewrite app_nil_r.
Qed.

Lemma updateItem_step item process has c :
  wf c -> wf (updateBackForwardItem item process has c) /\ ledger (updateBackForwardItem item process has c) ≡ₚ ledger c ++ added (UpdateItem item process has) c.
Proof.
  intros Hwf. unfold updateBackForwardItem. cbn. destruct (entryOf c !! item) as [e|] eqn:He, has; cbn; try (by apply nothing_step).
  - destruct (m_suspendedPage e); [by apply nothing_step|]. apply removeEntry_step; [done|]. rewrite He. by eexists.
  - unfold addEntryForProcess. apply (addEntry_wf item (createEntry item process None) c c); try done. exact (wf_count _ Hwf).
Qed.

Lemma cache_step e c : wf c -> enabled e c -> wf (exec e c) /\ ledger (exec e c) ≡ₚ ledger c ++ added e c.
Proof.
  intros Hwf Hen. pose proof (wf_shape _ Hwf) as Hsh. destruct e; cbn [exec added].
  - by apply setCapacity_step.
  - unfold addEntryForSuspendedPage. pose proof (create_spec webPage process shouldDelay c) as Hc.
    destruct (createSuspendedPage webPage process shouldDelay c) as [p c1]. destruct Hc as (C1 & C2 & C3 & C4 & C5 & C6). rewrite <- C5.
    apply (addEntry_wf item (createEntry item process (Some p)) c c1); try done. cbn. rewrite C3. apply C6. exact (wf_count _ Hwf).
  - by apply updateItem_step.
  - unfold removeFromBackForwardCache. destruct (entryOf c !! item) as [e|] eqn:He; [|by apply nothing_step].
    apply removeEntry_step; [done|]. rewrite He. by eexists.
  - by apply removeEntry_step.
  - by apply drops_step, removeEntriesMatching_drops.
  - by apply drops_step, removeEntriesMatching_drops.
  - by apply drops_step, removeEntriesMatching_drops.
  - by apply drops_step, removeEntriesMatching_drops.
  - by apply drops_step, removeEntriesMatching_drops.
  - by apply drops_step, clear_drops.
  - by apply drops_step, removeOldestLoop_drops.
  - rewrite app_nil_r. by apply navigate_spec.
  - apply (onSuspendedPage_spec item (waitUntilReadyToUnsuspend handler) [HandlerToken handler]); [done|]. intros p _. apply wait_step.
  - destruct (onSuspendedPage_spec item (didProcessRequestToSuspend (if success then Suspended else FailedToSuspend)) [] c Hwf) as [H1 H2].
    { intros p Hp. apply didProcess_step. cbn in Hen. rewrite Hp in Hen. by apply (inj Some) in Hen. }
    split; [done|]. by destruct (suspendedPageOf item c).
  - destruct (onSuspendedPage_spec item pageDidFirstLayerFlush [] c Hwf) as [H1 H2]; [intros p _; apply firstLayerFlush_step|].
    split; [done|]. by destruct (suspendedPageOf item c).
Qed.

Lemma run_step h c c' : run h c c' -> wf c -> wf c' /\ ledger c' ≡ₚ ledger c ++ addedBy h c.
Proof.
  induction 1 as [c|e h c c' Hen Hrun IH]; intros Hwf; cbn; [by rewrite app_nil_r|].
  destruct (cache_step e c Hwf Hen) as [Hwf' Hl]. destruct (IH Hwf') as [H1 H2]. split; [done|]. by rewrite H2, Hl, app_assoc.
Qed.

Lemma empty_cache_wf : wf create.
Proof. split; [|cbn; lia|by intros item e ?|by intros q]. split; [apply NoDup_nil_2|]. intros item. split; [by intros ?%elem_of_nil|by intros []]. Qed.

(** C31: In every state the cache reaches, [m_itemsWithCachedPage] lists
    each item that has an entry exactly once and no other item, the size stays within the
    capacity, the suspended page count of a process is the number of entries that hold a
    page of it, and a page in an entry was never resumed, counts its timeout exactly while
    the answer to the request to suspend is awaited, has a completion handler only then, and
    is closed or about to close exactly when its suspension failed. *)
Theorem back_forward_cache_invariant h c :
  run h create c ->
  NoDup (m_itemsWithCachedPage c) /\ (forall item, item ∈ m_itemsWithCachedPage c <-> is_Some (entryOf c !! item)) /\
  (size c <= m_capacity c)%nat /\
  (forall process, Z.of_nat (countOf process c) = occ process (processesOf c)) /\
  forall item p, suspendedPageOf item c = Some p ->
    m_suspensionState p <> Resumed /\
    m_suspensionTimeoutTimer p = bool_decide (m_suspensionState p = Suspending) /\
    (m_readyToUnsuspendHandler p <> None -> m_suspensionState p = Suspending) /\
    (m_suspensionState p = FailedToSuspend <-> pageIsClosedOrClosing p = true).
Proof.
  intros Hrun. destruct (run_step _ _ _ Hrun empty_cache_wf) as [[[Hn He] Hz Hok Hb] _]. split; [done|]. split; [done|]. split; [done|]. split.
  - intros q. specialize (Hb q). cbn in Hb. lia.
  - intros item p. unfold suspendedPageOf. destruct (entryOf c !! item) as [e|] eqn:Hi; [|done]. cbn. intros Hp.
    destruct (Hok item e Hi) as [_ Hpage]. rewrite Hp in Hpage. by destruct Hpage as [_ []].
Qed.

(** C32: Every web page that was suspended is closed or resumed exactly
    once, every page a process cached for an item is cleared there exactly once, and every
    completion handler that waits for a suspended page is answered exactly once: what the
    cache has output so far together with what its entries still hold is what came in, and
    clearing the cache settles all of it. *)
Theorem cached_pages_settled_once h c :
  run h create c ->
  paidSoFar c ++ owed c ≡ₚ addedBy h create /\ paidSoFar (clear c) ≡ₚ addedBy h create /\ size (clear c) = 0%nat.
Proof.
  intros Hrun. destruct (run_step _ _ _ Hrun empty_cache_wf) as [Hwf Hl]. split; [exact Hl|].
  destruct (clear_drops c (wf_shape _ Hwf)) as [Hd Hz]. split; [|done].
  assert (Hnone : entryOf (clear c) = ∅).
  { apply map_empty. intros item. destruct (entryOf (clear c) !! item) eqn:Hi; [|done].
    assert (Hin : item ∈ m_itemsWithCachedPage (clear c)) by (apply (shape_entries _ (drops_shape _ _ Hd)); by eexists).
    unfold size in Hz. destruct (m_itemsWithCachedPage (clear c)); [by apply elem_of_nil in Hin|done]. }
  pose proof (drops_ledger _ _ Hd) as Hlc. unfold ledger at 1 in Hlc. unfold owed at 1 in Hlc. rewrite Hnone, map_to_list_empty in Hlc. cbn in Hlc.
  rewrite app_nil_r in Hlc. by rewrite Hlc, Hl.
Qed.
End with_items.

(** Two pages are suspended and one page is cached by its process in a cache of two entries,
    the oldest is evicted, one is resumed. *)
Definition exampleEvents : list Event :=
  [SetCapacity 2; SuspendPage 1 11 101 true; WaitUntilReady 1 7; UpdateItem 2 102 true; DidSuspend 1 true; SuspendPage 3 13 101 false;
   WaitUntilReady 3 8; DidSuspend 3 false; UpdateItem 2 102 false; SuspendPage 4 14 104 false; WaitUntilReady 4 9; DidSuspend 4 true; Navigate 4].
Definition exampleFinal : Cache := fold_left (fun c e => exec id id e c) exampleEvents create.

Fixpoint allEnabled (pageID sessionID : nat -> nat) (h : list Event) (c : Cache) : Prop :=
  match h with [] => True | e :: h => enabled e c /\ allEnabled pageID sessionID h (exec pageID sessionID e c) end.
Lemma allEnabled_run pageID sessionID h : forall c,
  allEnabled pageID sessionID h c -> run pageID sessionID h c (fold_left (fun c e => exec pageID sessionID e c) h c).
Proof. induction h as [|e h IH]; intros c; cbn; [intros _; apply run_nil|]. intros [He Hh]. apply run_cons; auto. Qed.

Lemma example_run : run id id exampleEvents create exampleFinal.
Proof. apply allEnabled_run. vm_compute. repeat (split; [first [exact I | reflexivity | split; discriminate]|]). exact I. Qed.

Lemma back_forward_cache_invariant_witness : NoDup (m_itemsWithCachedPage exampleFinal) /\ (size exampleFinal <= m_capacity exampleFinal)%nat.
Proof.
  destruct (back_forward_cache_invariant id id exampleEvents exampleFinal example_run) as (H1 & _ & H2 & _). exact (conj H1 H2).
Defined.

Lemma cached_pages_settled_once_witness :
  addedBy id id exampleEvents create =
    [PageToken 11; HandlerToken 7; ProcessToken 102 2; PageToken 13; HandlerToken 8; PageToken 14; HandlerToken 9] /\
  paidSoFar exampleFinal ++ owed exampleFinal ≡ₚ addedBy id id exampleEvents create.
Proof.
  split; [vm_compute; reflexivity|]. exact (proj1 (cached_pages_settled_once id id exampleEvents exampleFinal example_run)).
Defined.
End BackForwardCache.
