(* ===== verification/WebProcessCache.v ===== *)
(** * UIProcess: the cache of web processes and the end of a web process

    WebProcessCache.cpp with the members of WebProcessProxy.cpp that decide when a process is
    shut down, kept for later or used again: the counts of its pages and its registration with
    the data store, its domain, [maybeShutDown], [shutDown], [setIsInProcessCache].  The pool
    is there throughout.  Processes, data stores (with their sessions), domains
    and pending requests are numbers. *)

From S2P Require Import Prelude.

(** [HashMap::random], which picks an entry of a map that is not empty. *)
Class RandomEntry := {
  random : gmap nat nat -> nat;
  random_in : forall m, m <> ∅ -> is_Some (m !! random m) }.

Module WebProcessCache.
Section with_pool.
Context `{RandomEntry}.
(** The configuration of the pool and the machine: whether processes may be terminated,
    whether this is the pool of the inspector, which data stores are ephemeral, the memory. *)
Context (processTerminationEnabled isInspectorProcessPool : bool) (isEphemeral : nat -> bool) (ramSize : Z).

(** A registrable domain is a number, [None] the empty one.  [isRegistered]: the process is in
    the [processes] of its data store.  [usable] is not in the source: the proxy was handed to
    a caller, which has not put a page in it yet, and the cache has not taken it since. *)
Record WebProcessProxy := mkProcess {
  m_registrableDomain : option (option nat);
  websiteDataStore : nat;
  isRegistered : bool;
  pageCount : nat;
  provisionalPageCount : nat;
  suspendedPageCount : nat;
  m_shutdownPreventingScopeCounter : nat;
  isRunningServiceWorkers : bool;
  m_isInProcessCache : bool;
  isTerminated : bool;
  (* requests of the cache among [m_isResponsiveCallbacks] *)
  m_isResponsiveCallbacks : list nat;
  usable : bool
}.
#[global] Instance eta_Process : Eta WebProcessProxy := fun r =>
  mkProcess (m_registrableDomain r) (websiteDataStore r) (isRegistered r) (pageCount r) (provisionalPageCount r) (suspendedPageCount r) (m_shutdownPreventingScopeCounter r)
    (isRunningServiceWorkers r) (m_isInProcessCache r) (isTerminated r) (m_isResponsiveCallbacks r) (usable r).

Definition registrableDomain (proc : WebProcessProxy) : option nat := default None (m_registrableDomain proc).

(** [updateRegistrationWithDataStore]; processes have their data store from the start. *)
Definition shouldBeRegistered (proc : WebProcessProxy) : bool :=
  negb (bool_decide (pageCount proc = 0%nat)) || negb (bool_decide (provisionalPageCount proc = 0%nat)).
Definition updateRegistrationWithDataStore (proc : WebProcessProxy) : WebProcessProxy := proc <| isRegistered := shouldBeRegistered proc |>.

Record Pool := mkPool {
  processes : gmap nat WebProcessProxy;
  m_capacity : Z;
  m_pendingAddRequests : gmap nat nat;
  m_processesPerRegistrableDomain : gmap nat nat;
  m_evictionTimer : bool;
  lastRequestIdentifier : nat;
  (* requests the run loop will answer with no *)
  dispatchedAnswers : list nat;
  (* calls of [disconnectProcess], oldest first *)
  disconnected : list nat
}.
#[global] Instance eta_Pool : Eta Pool := fun r =>
  mkPool (processes r) (m_capacity r) (m_pendingAddRequests r) (m_processesPerRegistrableDomain r) (m_evictionTimer r) (lastRequestIdentifier r)
    (dispatchedAnswers r) (disconnected r).

Implicit Types w : Pool.

(** What a call finds outside: memory pressure, the sessions that have pages, the processes
    that are marked unresponsive. *)
Record Environment := mkEnvironment { isUnderMemoryPressure : bool; hasPagesUsing : nat -> bool; markedUnresponsive : nat -> bool }.

Definition update (p : nat) (f : WebProcessProxy -> WebProcessProxy) w : Pool := w <| processes := alter f p (processes w) |>.

(** ** WebProcessProxy: leaving the pool *)

(** [setIsInProcessCache]; [None] is a failed release assertion.  That the process has a pool,
    which the code asserts when the flag is cleared, is so as long as there is a pool. *)
Definition setIsInProcessCache (value : bool) (p : nat) w : option Pool :=
  match processes w !! p with
  | Some proc =>
      if value && negb (bool_decide (pageCount proc = 0%nat /\ suspendedPageCount proc = 0%nat /\ provisionalPageCount proc = 0%nat)) then None
      else Some (update p (fun q => q <| m_isInProcessCache := value |>) w)
  | None => Some w
  end.

(** [shutDown] of a process that is not in the cache. *)
Definition shutDownNow (p : nat) w : Pool :=
  update p (fun q => q <| isTerminated := true |>) w <| disconnected := disconnected w ++ [p] |>.

(** ** CachedProcess *)

Definition makeCachedProcess (p : nat) w : option Pool :=
  match processes w !! p with
  | Some proc =>
      if negb (bool_decide (pageCount proc = 0%nat)) || isRegistered proc then None
      else w ← setIsInProcessCache true p w; Some (update p (fun q => q <| usable := false |>) w)
  | None => Some w
  end.
Definition destroyCachedProcess (p : nat) w : option Pool := w ← setIsInProcessCache false p w; Some (shutDownNow p w).
Definition takeCachedProcess (p : nat) w : option Pool :=
  w ← setIsInProcessCache false p w; Some (update p (fun q => q <| usable := true |>) w).

(** ** WebProcessCache *)

Definition size w : Z := Z.of_nat (base.size (m_processesPerRegistrableDomain w)).
Definition capacity w : Z := m_capacity w.

Definition canCacheProcess (env : Environment) (proc : WebProcessProxy) w : bool :=
  negb (bool_decide (capacity w = 0)) && bool_decide (registrableDomain proc <> None) && negb (isUnderMemoryPressure env) &&
  negb (isEphemeral (websiteDataStore proc) && negb (hasPagesUsing env (websiteDataStore proc))).

(** An entry is removed from its map and its [CachedProcess] destroyed. *)
Definition evictPending (request : nat) w : option Pool :=
  match m_pendingAddRequests w !! request with
  | Some p => destroyCachedProcess p (w <| m_pendingAddRequests := delete request (m_pendingAddRequests w) |>)
  | None => Some w
  end.
Definition evictDomain (domain : nat) w : option Pool :=
  match m_processesPerRegistrableDomain w !! domain with
  | Some p => destroyCachedProcess p (w <| m_processesPerRegistrableDomain := delete domain (m_processesPerRegistrableDomain w) |>)
  | None => Some w
  end.

(** [while (size() >= capacity())]; every turn removes an entry. *)
Fixpoint makeRoom (fuel : nat) w : option Pool :=
  match fuel with
  | O => Some w
  | S fuel => if capacity w <=? size w then w ← evictDomain (random (m_processesPerRegistrableDomain w)) w; makeRoom fuel w else Some w
  end.

Definition addProcess (env : Environment) (p : nat) w : option (Pool * bool) :=
  match processes w !! p with
  | None => Some (w, false)
  | Some proc =>
      match registrableDomain proc with
      | Some domain =>
          if canCacheProcess env proc w then
            w ← evictDomain domain w;
            w ← makeRoom (base.size (m_processesPerRegistrableDomain w)) w;
            Some (w <| m_processesPerRegistrableDomain := <[domain := p]> (m_processesPerRegistrableDomain w) |>, true)
          else w ← destroyCachedProcess p w; Some (w, false)
      | None => w ← destroyCachedProcess p w; Some (w, false)
      end
  end.

(** The completion handler of [addProcessIfPossible]. *)
Definition answerRequest (env : Environment) (isResponsive : bool) (request : nat) w : option Pool :=
  match m_pendingAddRequests w !! request with
  | None => Some w
  | Some p =>
      let w := w <| m_pendingAddRequests := delete request (m_pendingAddRequests w) |> in
      if isResponsive then fst <$> addProcess env p w else destroyCachedProcess p w
  end.

Definition addProcessIfPossible (env : Environment) (p : nat) w : option (Pool * bool) :=
  match processes w !! p with
  | None => Some (w, false)
  | Some proc =>
      if negb (canCacheProcess env proc w) then Some (w, false)
      else
        let request := S (lastRequestIdentifier w) in
        let w := w <| lastRequestIdentifier := request |> in
        w ← makeCachedProcess p w;
        let w := w <| m_pendingAddRequests := <[request := p]> (m_pendingAddRequests w) |> in
        Some (if markedUnresponsive env p then w <| dispatchedAnswers := dispatchedAnswers w ++ [request] |>
              else update p (fun q => q <| m_isResponsiveCallbacks := m_isResponsiveCallbacks q ++ [request] |>) w, true)
  end.

Definition takeProcess (domain store : nat) w : option (Pool * option nat) :=
  match m_processesPerRegistrableDomain w !! domain with
  | None => Some (w, None)
  | Some p =>
      match processes w !! p with
      | Some proc =>
          if bool_decide (websiteDataStore proc <> store) then Some (w, None)
          else
            w ← takeCachedProcess p w;
            Some (w <| m_processesPerRegistrableDomain := delete domain (m_processesPerRegistrableDomain w) |>, Some p)
      | None => Some (w, None)
      end
  end.

(** The pending request of a process, if there is one. *)
Definition pendingRequestOf (p : nat) w : option nat := fst <$> find (fun x => Nat.eqb (snd x) p) (map_to_list (m_pendingAddRequests w)).

Definition removeProcess (shouldShutDownProcess : bool) (p : nat) w : option Pool :=
  match processes w !! p with
  | None => Some w
  | Some proc =>
      match registrableDomain proc with
      | None => None
      | Some domain =>
          let finish := fun w : Pool => if shouldShutDownProcess then destroyCachedProcess p w else takeCachedProcess p w in
          if bool_decide (m_processesPerRegistrableDomain w !! domain = Some p)
          then finish (w <| m_processesPerRegistrableDomain := delete domain (m_processesPerRegistrableDomain w) |>)
          else match pendingRequestOf p w with
               | Some request => finish (w <| m_pendingAddRequests := delete request (m_pendingAddRequests w) |>)
               | None => Some w
               end
      end
  end.

Fixpoint evictAll (evict : nat -> Pool -> option Pool) (keys : list nat) w : option Pool :=
  match keys with [] => Some w | k :: keys => w ← evict k w; evictAll evict keys w end.

Definition clear w : option Pool :=
  w ← evictAll evictPending (map fst (map_to_list (m_pendingAddRequests w))) w;
  evictAll evictDomain (map fst (map_to_list (m_processesPerRegistrableDomain w))) w.

Definition ofSession (session : nat) w (x : nat * nat) : bool :=
  match processes w !! snd x with Some proc => bool_decide (websiteDataStore proc = session) | None => false end.
Definition clearAllProcessesForSession (session : nat) w : option Pool :=
  w ← evictAll evictDomain (map fst (filter (fun x => ofSession session w x = true) (map_to_list (m_processesPerRegistrableDomain w)))) w;
  evictAll evictPending (map fst (filter (fun x => ofSession session w x = true) (map_to_list (m_pendingAddRequests w)))) w.

Definition GB : Z := 1024 * 1024 * 1024.
Definition capacityForMemory : Z := let memorySize := ramSize / GB in if memorySize <? 3 then 0 else Z.min (wrap 32 (memorySize * 4)) 30.
(** [configured]: the cache model, the configuration of the pool and its settings allow it. *)
Definition updateCapacity (configured : bool) w : option Pool :=
  let w := w <| m_capacity := if negb configured then 0 else capacityForMemory |> in
  if bool_decide (m_capacity w = 0) then clear w else Some w.

Definition setApplicationIsActive (isActive : bool) w : Pool :=
  if isActive then w <| m_evictionTimer := false |>
  else if bool_decide (m_processesPerRegistrableDomain w = ∅) then w else w <| m_evictionTimer := true |>.

(** ** WebProcessProxy *)

(** [shutDown]. *)
Definition shutDown (p : nat) w : option Pool :=
  match processes w !! p with
  | None => Some w
  | Some proc => w ← (if m_isInProcessCache proc then removeProcess false p w else Some w); Some (shutDownNow p w)
  end.

Definition canBeAddedToWebProcessCache (proc : WebProcessProxy) : bool := negb (isRunningServiceWorkers proc) && negb isInspectorProcessPool.
Definition canTerminateAuxiliaryProcess (proc : WebProcessProxy) : bool :=
  bool_decide (pageCount proc = 0%nat) && bool_decide (suspendedPageCount proc = 0%nat) && bool_decide (provisionalPageCount proc = 0%nat) &&
  negb (m_isInProcessCache proc) && bool_decide (m_shutdownPreventingScopeCounter proc = 0%nat) && negb (isRunningServiceWorkers proc) && processTerminationEnabled.

Definition maybeShutDown (env : Environment) (p : nat) w : option Pool :=
  match processes w !! p with
  | None => Some w
  | Some proc =>
      if isTerminated proc || negb (canTerminateAuxiliaryProcess proc) then Some w
      else if canBeAddedToWebProcessCache proc then
        match addProcessIfPossible env p w with Some (w, true) => Some w | Some (w, false) => shutDown p w | None => None end
      else shutDown p w
  end.

(** Adding to the pages of a process; [addExistingWebPage] asserts it is not in the cache. *)
Definition addExistingWebPage (p : nat) w : option Pool :=
  match processes w !! p with
  | Some proc => if m_isInProcessCache proc then None else Some (update p (fun q => updateRegistrationWithDataStore (q <| pageCount := S (pageCount q) |> <| usable := false |>)) w)
  | None => Some w
  end.
Definition removeWebPage (env : Environment) (p : nat) w : option Pool :=
  maybeShutDown env p (update p (fun q => updateRegistrationWithDataStore (q <| pageCount := pred (pageCount q) |>)) w).
Definition addProvisionalPageProxy (p : nat) w : Pool :=
  update p (fun q => updateRegistrationWithDataStore (q <| provisionalPageCount := S (provisionalPageCount q) |> <| usable := false |>)) w.
Definition removeProvisionalPageProxy (env : Environment) (p : nat) w : option Pool :=
  let w := update p (fun q => updateRegistrationWithDataStore (q <| provisionalPageCount := pred (provisionalPageCount q) |>)) w in
  match processes w !! p with Some proc => if bool_decide (provisionalPageCount proc = 0%nat) then maybeShutDown env p w else Some w | None => Some w end.
Definition incrementSuspendedPageCount (p : nat) w : Pool :=
  update p (fun q => q <| suspendedPageCount := S (suspendedPageCount q) |>) w.
Definition decrementSuspendedPageCount (env : Environment) (p : nat) w : option Pool :=
  let w := update p (fun q => q <| suspendedPageCount := pred (suspendedPageCount q) |>) w in
  match processes w !! p with Some proc => if bool_decide (suspendedPageCount proc = 0%nat) then maybeShutDown env p w else Some w | None => Some w end.

(** The handlers are taken and called with no, then the process is shut down. *)
Fixpoint answerRequests (env : Environment) (isResponsive : bool) (requests : list nat) w : option Pool :=
  match requests with [] => Some w | r :: requests => w ← answerRequest env isResponsive r w; answerRequests env isResponsive requests w end.
Definition callResponsiveCallbacks (env : Environment) (isResponsive : bool) (p : nat) w : option Pool :=
  match processes w !! p with
  | Some proc => answerRequests env isResponsive (m_isResponsiveCallbacks proc) (update p (fun q => q <| m_isResponsiveCallbacks := [] |>) w)
  | None => Some w
  end.
Definition processDidTerminateOrFailedToLaunch (env : Environment) (p : nat) w : option Pool :=
  w ← callResponsiveCallbacks env false p w; shutDown p w.

(** A process the cache may hold is used again: for a service worker, or for the item of a
    back/forward list that was last shown in it. *)
Definition enableServiceWorkers (p : nat) w : option Pool :=
  let w := update p (fun q => q <| isRunningServiceWorkers := true |>) w in
  match processes w !! p with Some proc => if m_isInProcessCache proc then removeProcess false p w else Some w | None => Some w end.
Definition reuseProcess (p : nat) w : option Pool :=
  match processes w !! p with
  | Some proc => if isTerminated proc then Some w
                 else if m_isInProcessCache proc then removeProcess false p w
                 else Some (update p (fun q => q <| usable := true |>) w)
  | None => Some w
  end.
Definition disableServiceWorkers (env : Environment) (p : nat) w : option Pool :=
  match processes w !! p with
  | Some proc => if isRunningServiceWorkers proc then maybeShutDown env p (update p (fun q => q <| isRunningServiceWorkers := false |>) w) else Some w
  | None => Some w
  end.

(** [didStartProvisionalLoadForMainFrame] with the domain of the URL, [None] for [about:]; it
    asserts that the process is not in the cache. *)
Definition didStartProvisionalLoadForMainFrame (env : Environment) (p : nat) (url : option (option nat)) w : option Pool :=
  match processes w !! p with
  | Some proc =>
      if m_isInProcessCache proc then None
      else if bool_decide (m_registrableDomain proc = Some None) then Some w
      else match url with
           | None => Some w
           | Some domain =>
               if bool_decide (m_registrableDomain proc <> None /\ m_registrableDomain proc <> Some domain)
               then w ← disableServiceWorkers env p w; Some (update p (fun q => q <| m_registrableDomain := Some None |>) w)
               else Some (update p (fun q => q <| m_registrableDomain := Some domain |>) w)
           end
  | None => Some w
  end.

(** *** Runs *)

Inductive Event :=
| NewProcess (p store : nat) | NewServiceWorkerProcess (p store : nat) (domain : option nat)
| StartLoad (env : Environment) (p : nat) (url : option (option nat))
| AddPage (p : nat) | RemovePage (env : Environment) (p : nat)
| AddProvisionalPage (p : nat) | RemoveProvisionalPage (env : Environment) (p : nat)
| AddSuspendedPage (p : nat) | RemoveSuspendedPage (env : Environment) (p : nat)
| StartScope (p : nat) | EndScope (env : Environment) (p : nat)
| EnableServiceWorkers (p : nat) | DisableServiceWorkers (env : Environment) (p : nat)
| ReuseProcess (p : nat) | TakeProcess (domain store : nat)
| Answer (env : Environment) (isResponsive : bool) (p : nat)
| RunLoopTurn (env : Environment)
| Crash (env : Environment) (p : nat)
| ClearCache | ClearSession (session : nat) | UpdateCapacity (configured : bool)
| SetActive (isActive : bool) | CacheTimerFires | EvictionTimerFires (p : nat).

Definition inCache (p : nat) w : Prop := m_isInProcessCache <$> processes w !! p = Some true.
Definition outOfCache (p : nat) w : Prop := m_isInProcessCache <$> processes w !! p = Some false.

Definition countOf (f : WebProcessProxy -> nat) (p : nat) w : nat := match processes w !! p with Some proc => f proc | None => 0 end.

(** A caller may use the process: it was handed to it, or is in use. *)
Definition idle (proc : WebProcessProxy) : Prop :=
  pageCount proc = 0%nat /\ provisionalPageCount proc = 0%nat /\ suspendedPageCount proc = 0%nat /\ m_shutdownPreventingScopeCounter proc = 0%nat /\
  isRunningServiceWorkers proc = false.
Definition held (p : nat) w : Prop := match processes w !! p with Some proc => usable proc = true \/ ~ idle proc | None => False end.

(** Pages, provisional pages, suspended pages and scopes are put in processes that are held;
    loads start in processes with a page or a provisional page. *)
Definition enabled (e : Event) w : Prop :=
  match e with
  | NewProcess p _ | NewServiceWorkerProcess p _ _ => processes w !! p = None
  | StartLoad _ p _ => (countOf pageCount p w + countOf provisionalPageCount p w <> 0)%nat
  | AddPage p | AddProvisionalPage p | AddSuspendedPage p | StartScope p => held p w
  | RemovePage _ p => countOf pageCount p w <> 0%nat
  | RemoveProvisionalPage _ p => countOf provisionalPageCount p w <> 0%nat
  | RemoveSuspendedPage _ p => countOf suspendedPageCount p w <> 0%nat
  | EndScope _ p => countOf m_shutdownPreventingScopeCounter p w <> 0%nat
  | RunLoopTurn _ => dispatchedAnswers w <> []
  | CacheTimerFires => m_evictionTimer w = true
  | EvictionTimerFires p => inCache p w
  | _ => True
  end.

Definition exec (e : Event) w : option Pool :=
  match e with
  | NewProcess p store => Some (w <| processes := <[p := mkProcess None store false 0 0 0 0 false false false [] true]> (processes w) |>)
  | NewServiceWorkerProcess p store domain =>
      Some (w <| processes := <[p := mkProcess (Some domain) store false 0 0 0 0 true false false [] false]> (processes w) |>)
  | StartLoad env p url => didStartProvisionalLoadForMainFrame env p url w
  | AddPage p => addExistingWebPage p w
  | RemovePage env p => removeWebPage env p w
  | AddProvisionalPage p => Some (addProvisionalPageProxy p w)
  | RemoveProvisionalPage env p => removeProvisionalPageProxy env p w
  | AddSuspendedPage p => Some (incrementSuspendedPageCount p w)
  | RemoveSuspendedPage env p => decrementSuspendedPageCount env p w
  | StartScope p => Some (update p (fun q => q <| m_shutdownPreventingScopeCounter := S (m_shutdownPreventingScopeCounter q) |>) w)
  | EndScope env p => maybeShutDown env p (update p (fun q => q <| m_shutdownPreventingScopeCounter := pred (m_shutdownPreventingScopeCounter q) |>) w)
  | EnableServiceWorkers p => enableServiceWorkers p w
  | DisableServiceWorkers env p => disableServiceWorkers env p w
  | ReuseProcess p => reuseProcess p w
  | TakeProcess domain store => fst <$> takeProcess domain store w
  | Answer env isResponsive p => callResponsiveCallbacks env isResponsive p w
  | RunLoopTurn env => match dispatchedAnswers w with r :: l => answerRequest env false r (w <| dispatchedAnswers := l |>) | [] => Some w end
  | Crash env p => processDidTerminateOrFailedToLaunch env p w
  | ClearCache => clear w
  | ClearSession session => clearAllProcessesForSession session w
  | UpdateCapacity configured => updateCapacity configured w
  | SetActive isActive => Some (setApplicationIsActive isActive w)
  | CacheTimerFires => clear (w <| m_evictionTimer := false |>)
  | EvictionTimerFires p => removeProcess true p w
  end.

Definition create : Pool := mkPool ∅ 0 ∅ ∅ false 0 [] [].

Inductive run : list Event -> Pool -> Pool -> Prop :=
| run_nil w : run [] w w
| run_cons e h w w1 w' : enabled e w -> exec e w = Some w1 -> run h w1 w' -> run (e :: h) w w'.

(** *** The invariant *)

(** What the process is kept for. *)
Definition kept (proc : WebProcessProxy) : Prop :=
  isTerminated proc = true \/ ~ idle proc \/ m_isInProcessCache proc = true \/ usable proc = true \/ processTerminationEnabled = false.
Definition cacheable (proc : WebProcessProxy) : Prop :=
  idle proc /\ isTerminated proc = false /\ registrableDomain proc <> None /\ usable proc = false.

(** [holes] are processes whose [CachedProcess] is in no map at the moment; [exempt] is the
    process an operation is working on. *)
Record wf (holes : list nat) (exempt : option nat) w : Prop := {
  wf_pending : forall r p, m_pendingAddRequests w !! r = Some p -> is_Some (processes w !! p) /\ (p ∉ holes) /\ (r <= lastRequestIdentifier w)%nat;
  wf_injective : forall r r' p, m_pendingAddRequests w !! r = Some p -> m_pendingAddRequests w !! r' = Some p -> r = r';
  wf_domain : forall d p, m_processesPerRegistrableDomain w !! d = Some p -> registrableDomain <$> processes w !! p = Some (Some d) /\ p ∉ holes;
  wf_disjoint : forall r d p, m_pendingAddRequests w !! r = Some p -> m_processesPerRegistrableDomain w !! d <> Some p;
  wf_holes : NoDup holes /\ forall p, p ∈ holes -> is_Some (processes w !! p);
  wf_flag : forall p proc, processes w !! p = Some proc ->
    (m_isInProcessCache proc = true <->
     (exists r, m_pendingAddRequests w !! r = Some p) \/ (exists d, m_processesPerRegistrableDomain w !! d = Some p) \/ p ∈ holes);
  wf_cacheable : forall p proc, processes w !! p = Some proc -> Some p <> exempt -> m_isInProcessCache proc = true -> cacheable proc;
  wf_kept : forall p proc, processes w !! p = Some proc -> Some p <> exempt -> kept proc;
  wf_callbacks : forall p proc r q, processes w !! p = Some proc -> r ∈ m_isResponsiveCallbacks proc -> m_pendingAddRequests w !! r = Some q -> q = p;
  wf_requests : forall p proc r, processes w !! p = Some proc -> r ∈ m_isResponsiveCallbacks proc -> (r <= lastRequestIdentifier w)%nat }.

(** The data stores know the processes with pages, loading ones included. *)
Definition registration (proc : WebProcessProxy) : Prop := isRegistered proc = shouldBeRegistered proc.
Definition sized w : Prop :=
  size w <= capacity w /\ 0 <= capacity w /\ (capacity w = 0 \/ capacity w = capacityForMemory) /\
  map_Forall (fun _ proc => registration proc) (processes w).

(** What decides the registration of a process. *)
Definition registrationOf (proc : WebProcessProxy) : bool * bool := (isRegistered proc, shouldBeRegistered proc).
Lemma registration_same proc proc' : registrationOf proc' = registrationOf proc -> registration proc -> registration proc'.
Proof. unfold registration. by intros [= -> ->]. Qed.

Lemma lookup_update p f w q : processes (update p f w) !! q = if decide (q = p) then f <$> processes w !! q else processes w !! q.
Proof. unfold update. cbn. destruct (decide (q = p)) as [->|Hne]; [by rewrite lookup_alter_eq|by rewrite lookup_alter_ne]. Qed.

Lemma is_Some_update p f w q : is_Some (processes (update p f w) !! q) <-> is_Some (processes w !! q).
Proof. rewrite lookup_update. destruct (decide _) as [->|]; [|done]. by rewrite fmap_is_Some. Qed.

(** The process changes in ways the maps do not see. *)
Lemma update_wf holes exempt p f w :
  wf holes exempt w -> exempt = None \/ exempt = Some p ->
  (forall q, processes w !! p = Some q -> m_isInProcessCache (f q) = m_isInProcessCache q /\
    (registrableDomain (f q) = registrableDomain q \/ m_isInProcessCache q = false) /\
    (forall r, r ∈ m_isResponsiveCallbacks (f q) -> r ∈ m_isResponsiveCallbacks q)) ->
  wf holes (Some p) (update p f w).
Proof.
  intros [W1 W2 W3 W4 [W5 W5'] W6 W7 W8 W9 W10] Hx Hf.
  assert (Hcase : forall q proc, processes (update p f w) !! q = Some proc ->
    (q = p /\ exists old, processes w !! p = Some old /\ proc = f old) \/ (q <> p /\ processes w !! q = Some proc)).
  { intros q proc. rewrite lookup_update. destruct (decide (q = p)) as [->|Hne]; [|by right].
    intros Hq. apply fmap_Some in Hq as (old & Ho & ->). left. split; [done|]. by exists old. }
  split; try done.
  - intros r q Hr. rewrite is_Some_update. by apply W1.
  - intros d q Hd. destruct (W3 d q Hd) as [Hdom Hh]. split; [|done]. rewrite lookup_update. destruct (decide (q = p)) as [->|]; [|done].
    apply fmap_Some in Hdom as (old & Ho & Hdo). rewrite Ho. cbn. f_equal. destruct (Hf old Ho) as (Hf1 & [-> | Hfl] & _); [done|].
    exfalso. assert (m_isInProcessCache old = true) by (apply (W6 p old Ho); right; left; by exists d). congruence.
  - split; [done|]. intros q Hq. rewrite is_Some_update. by apply W5'.
  - intros q proc Hq. destruct (Hcase q proc Hq) as [(-> & old & Ho & ->)|[Hne Ho]]; [destruct (Hf old Ho) as (-> & _)|]; by apply W6.
  - intros q proc Hq Hne Hfl. destruct (Hcase q proc Hq) as [(-> & _)|[Hnp Ho]]; [done|]. apply (W7 q); try done. destruct Hx as [-> | ->]; congruence.
  - intros q proc Hq Hne. destruct (Hcase q proc Hq) as [(-> & _)|[Hnp Ho]]; [done|]. apply (W8 q); try done. destruct Hx as [-> | ->]; congruence.
  - intros q proc r q' Hq Hr. destruct (Hcase q proc Hq) as [(-> & old & Ho & ->)|[Hne Ho]]; [|by apply (W9 q proc)].
    apply (W9 p old); [done|]. by apply (Hf old Ho).
  - intros q proc r Hq Hr. destruct (Hcase q proc Hq) as [(-> & old & Ho & ->)|[Hne Ho]]; [|by apply (W10 q proc)].
    apply (W10 p old); [done|]. by apply (Hf old Ho).
Qed.

Lemma settle_wf holes p w :
  wf holes (Some p) w -> (forall proc, processes w !! p = Some proc -> kept proc /\ (m_isInProcessCache proc = true -> cacheable proc)) -> wf holes None w.
Proof.
  intros [W1 W2 W3 W4 W5 W6 W7 W8 W9 W10] Hp. split; try done.
  - intros q proc Hq _ Hf. destruct (decide (q = p)) as [->|Hne]; [by apply (Hp proc Hq)|]. apply (W7 q); try done. congruence.
  - intros q proc Hq _. destruct (decide (q = p)) as [->|Hne]; [by apply (Hp proc Hq)|]. apply (W8 q); try done. congruence.
Qed.

(** The flag of a hole is cleared, whatever else happens to the process. *)
Lemma fill_hole holes exempt p f w w' :
  wf (p :: holes) exempt w ->
  processes w' = alter f p (processes w) -> m_capacity w' = m_capacity w -> m_pendingAddRequests w' = m_pendingAddRequests w ->
  m_processesPerRegistrableDomain w' = m_processesPerRegistrableDomain w -> lastRequestIdentifier w' = lastRequestIdentifier w ->
  (forall q, m_isInProcessCache (f q) = false /\ kept (f q) /\ registrableDomain (f q) = registrableDomain q /\ m_isResponsiveCallbacks (f q) = m_isResponsiveCallbacks q) ->
  wf holes exempt w'.
Proof.
  intros [W1 W2 W3 W4 [W5 W5'] W6 W7 W8 W9 W10] E1 E2 E3 E4 E5 Hf. apply NoDup_cons in W5 as [Hnp Hnd].
  assert (Hcase : forall q proc, processes w' !! q = Some proc ->
    (q = p /\ exists old, processes w !! p = Some old /\ proc = f old) \/ (q <> p /\ processes w !! q = Some proc)).
  { intros q proc. rewrite E1. destruct (decide (q = p)) as [->|Hne]; [rewrite lookup_alter_eq|rewrite lookup_alter_ne by done; by right].
    intros Hq. apply fmap_Some in Hq as (old & Ho & ->). left. split; [done|]. by exists old. }
  assert (Hsome : forall q, is_Some (processes w !! q) -> is_Some (processes w' !! q)).
  { intros q. rewrite E1. destruct (decide (q = p)) as [->|Hne]; [rewrite lookup_alter_eq; by rewrite fmap_is_Some|by rewrite lookup_alter_ne]. }
  split; rewrite ?E3, ?E4, ?E5; try done.
  - intros r q Hr. destruct (W1 r q Hr) as (? & Hn & ?). rewrite not_elem_of_cons in Hn. split; [auto|]. tauto.
  - intros d q Hd. destruct (W3 d q Hd) as [Hdom Hn]. rewrite not_elem_of_cons in Hn. split; [|tauto]. rewrite E1, lookup_alter_ne by (intros ->; tauto). done.
  - split; [done|]. intros q Hq. apply Hsome, W5'. by right.
  - intros q proc Hq. destruct (Hcase q proc Hq) as [(-> & old & Ho & ->)|[Hne Ho]].
    + destruct (Hf old) as (-> & _). split; [done|]. intros [[r Hr]|[[d Hd]|Hin]]; [|..|done].
      * destruct (W1 r p Hr) as (_ & Hn & _). rewrite not_elem_of_cons in Hn. tauto.
      * destruct (W3 d p Hd) as [_ Hn]. rewrite not_elem_of_cons in Hn. tauto.
    + rewrite (W6 q proc Ho), elem_of_cons. tauto.
  - intros q proc Hq Hx Hfl. destruct (Hcase q proc Hq) as [(-> & old & Ho & ->)|[Hne Ho]]; [|by apply (W7 q)]. destruct (Hf old) as (Hff & _). congruence.
  - intros q proc Hq Hx. destruct (Hcase q proc Hq) as [(-> & old & Ho & ->)|[Hne Ho]]; [by apply Hf|by apply (W8 q)].
  - intros q proc r q' Hq Hr. destruct (Hcase q proc Hq) as [(-> & old & Ho & ->)|[Hne Ho]]; [|by apply (W9 q proc)].
    apply (W9 p old); [done|]. destruct (Hf old) as (_ & _ & _ & Hc). by rewrite <- Hc.
  - intros q proc r Hq Hr. destruct (Hcase q proc Hq) as [(-> & old & Ho & ->)|[Hne Ho]]; [|by apply (W10 q proc)].
    apply (W10 p old); [done|]. destruct (Hf old) as (_ & _ & _ & Hc). by rewrite <- Hc.
Qed.

(** *** Entries leave the maps *)

(** What a removal leaves alone. *)
Record removal (holes : list nat) w w' : Prop := {
  rm_capacity : m_capacity w' = m_capacity w;
  rm_pending : m_pendingAddRequests w' ⊆ m_pendingAddRequests w;
  rm_domain : m_processesPerRegistrableDomain w' ⊆ m_processesPerRegistrableDomain w;
  rm_last : lastRequestIdentifier w' = lastRequestIdentifier w;
  rm_dispatched : dispatchedAnswers w' = dispatchedAnswers w;
  rm_holes : forall q, q ∈ holes -> processes w' !! q = processes w !! q;
  rm_static : forall q, (fun proc => (websiteDataStore proc, registrableDomain proc, m_isResponsiveCallbacks proc, registrationOf proc)) <$> processes w' !! q =
    (fun proc => (websiteDataStore proc, registrableDomain proc, m_isResponsiveCallbacks proc, registrationOf proc)) <$> processes w !! q }.

Lemma removal_refl holes w : removal holes w w.
Proof. done. Qed.
Lemma removal_trans holes w1 w2 w3 : removal holes w1 w2 -> removal holes w2 w3 -> removal holes w1 w3.
Proof.
  intros [A1 A2 A3 A4 A5 A6 A7] [B1 B2 B3 B4 B5 B6 B7]. split; try congruence; try (by etrans). intros q Hq. by rewrite B6, A6.
Qed.

Lemma setFlag_false p w : setIsInProcessCache false p w = Some (match processes w !! p with Some _ => update p (fun q => q <| m_isInProcessCache := false |>) w | None => w end).
Proof. unfold setIsInProcessCache. by destruct (processes w !! p). Qed.

Lemma destroy_spec holes exempt p w :
  wf (p :: holes) exempt w ->
  exists w', destroyCachedProcess p w = Some w' /\ wf holes exempt w' /\ removal holes w w' /\
    m_pendingAddRequests w' = m_pendingAddRequests w /\ m_processesPerRegistrableDomain w' = m_processesPerRegistrableDomain w /\
    disconnected w' = disconnected w ++ [p] /\
    processes w' = alter (fun q => q <| m_isInProcessCache := false |> <| isTerminated := true |>) p (processes w).
Proof.
  intros Hwf. destruct (wf_holes _ _ _ Hwf) as [Hnd Hs]. apply NoDup_cons in Hnd as [Hnp _]. destruct (Hs p) as [proc Hp]; [by left|].
  unfold destroyCachedProcess. rewrite setFlag_false, Hp. cbn [mbind option_bind]. set (w' := shutDownNow p _).
  assert (Hproc : processes w' = alter (fun q => q <| m_isInProcessCache := false |> <| isTerminated := true |>) p (processes w)).
  { unfold w', shutDownNow, update. cbn. by rewrite alter_alter_eq. }
  exists w'. split; [done|]. split; [|split; [|done]].
  - eapply (fill_hole _ _ _ _ w); [exact Hwf | exact Hproc | done.. |]. intros q. split_and!; try done. by left.
  - split; try done; intros q; rewrite Hproc.
    + intros Hq. rewrite lookup_alter_ne; [done|]. by intros ->.
    + destruct (decide (q = p)) as [->|Hne]; [rewrite lookup_alter_eq|by rewrite lookup_alter_ne]. by rewrite Hp.
Qed.

Lemma takeCached_spec holes exempt p w :
  wf (p :: holes) exempt w ->
  exists w', takeCachedProcess p w = Some w' /\ wf holes exempt w' /\ removal holes w w' /\
    m_pendingAddRequests w' = m_pendingAddRequests w /\ m_processesPerRegistrableDomain w' = m_processesPerRegistrableDomain w /\
    disconnected w' = disconnected w /\
    processes w' = alter (fun q => q <| m_isInProcessCache := false |> <| usable := true |>) p (processes w).
Proof.
  intros Hwf. destruct (wf_holes _ _ _ Hwf) as [Hnd Hs]. apply NoDup_cons in Hnd as [Hnp _]. destruct (Hs p) as [proc Hp]; [by left|].
  unfold takeCachedProcess. rewrite setFlag_false, Hp. cbn [mbind option_bind]. set (w' := update p _ _).
  assert (Hproc : processes w' = alter (fun q => q <| m_isInProcessCache := false |> <| usable := true |>) p (processes w)).
  { unfold w', update. cbn. by rewrite alter_alter_eq. }
  exists w'. split; [done|]. split; [|split; [|done]].
  - eapply (fill_hole _ _ _ _ w); [exact Hwf | exact Hproc | done.. |]. intros q. split_and!; try done. by do 3 right; left.
  - split; try done; intros q; rewrite Hproc.
    + intros Hq. rewrite lookup_alter_ne; [done|]. by intros ->.
    + destruct (decide (q = p)) as [->|Hne]; [rewrite lookup_alter_eq|by rewrite lookup_alter_ne]. by rewrite Hp.
Qed.

Lemma deletePending_wf holes exempt r p w :
  wf holes exempt w -> m_pendingAddRequests w !! r = Some p ->
  wf (p :: holes) exempt (w <| m_pendingAddRequests := delete r (m_pendingAddRequests w) |>).
Proof.
  intros [W1 W2 W3 W4 [W5 W5'] W6 W7 W8 W9 W10] Hr. destruct (W1 r p Hr) as (Hsome & Hnp & _).
  assert (Hsub : forall r' q, delete r (m_pendingAddRequests w) !! r' = Some q -> m_pendingAddRequests w !! r' = Some q /\ r' <> r).
  { intros r' q Hq. apply lookup_delete_Some in Hq as [? ?]. split; [done|congruence]. }
  split; try done; cbn.
  - intros r' q Hq. destruct (Hsub r' q Hq) as [Hq' Hne]. destruct (W1 r' q Hq') as (? & ? & ?). split; [done|]. split; [|done].
    rewrite not_elem_of_cons. split; [|done]. intros ->. apply Hne. by apply (W2 r' r p).
  - intros r1 r2 q H1 H2. apply (W2 r1 r2 q); by apply Hsub.
  - intros d q Hd. destruct (W3 d q Hd) as [? ?]. split; [done|]. rewrite not_elem_of_cons. split; [|done]. intros ->. by apply (W4 r d p).
  - intros r' d q Hq. apply (W4 r' d q). by apply Hsub.
  - split; [by apply NoDup_cons|]. intros q [->|Hq]%elem_of_cons; auto.
  - intros q proc Hq. rewrite (W6 q proc Hq), elem_of_cons. split.
    + intros [[r' Hr']|[?|?]]; [|tauto..]. destruct (decide (r' = r)) as [->|Hne]; [right; right; left; congruence|]. left. exists r'. by rewrite lookup_delete_ne.
    + intros [[r' Hr']|[?|[->|?]]]; [left; exists r'; by apply Hsub|tauto|left; by exists r|tauto].
  - intros q proc r' q' Hq Hin Hl. apply (W9 q proc r' q' Hq Hin). by apply Hsub.
Qed.

Lemma deleteDomain_wf holes exempt d p w :
  wf holes exempt w -> m_processesPerRegistrableDomain w !! d = Some p ->
  wf (p :: holes) exempt (w <| m_processesPerRegistrableDomain := delete d (m_processesPerRegistrableDomain w) |>).
Proof.
  intros [W1 W2 W3 W4 [W5 W5'] W6 W7 W8 W9 W10] Hd. destruct (W3 d p Hd) as (Hdom & Hnp).
  assert (Hsub : forall d' q, delete d (m_processesPerRegistrableDomain w) !! d' = Some q -> m_processesPerRegistrableDomain w !! d' = Some q /\ d' <> d).
  { intros d' q Hq. apply lookup_delete_Some in Hq as [? ?]. split; [done|congruence]. }
  split; try done; cbn.
  - intros r q Hq. destruct (W1 r q Hq) as (? & ? & ?). split; [done|]. split; [|done]. rewrite not_elem_of_cons. split; [|done]. intros ->. by apply (W4 r d p).
  - intros d' q Hq. destruct (Hsub d' q Hq) as [Hq' Hne]. destruct (W3 d' q Hq') as [Hdom' ?]. split; [done|]. rewrite not_elem_of_cons. split; [|done].
    intros ->. rewrite Hdom in Hdom'. congruence.
  - intros r' d' q Hq Hdq. apply (W4 r' d' q Hq). by apply Hsub.
  - split; [by apply NoDup_cons|]. intros q [->|Hq]%elem_of_cons; [|auto]. apply fmap_Some in Hdom as (proc & -> & _). by eexists.
  - intros q proc Hq. rewrite (W6 q proc Hq), elem_of_cons. split.
    + intros [?|[[d' Hd']|?]]; [tauto| |tauto]. destruct (decide (d' = d)) as [->|Hne]; [right; right; left; congruence|]. right. left. exists d'. by rewrite lookup_delete_ne.
    + intros [?|[[d' Hd']|[->|?]]]; [tauto|right; left; exists d'; by apply Hsub|right; left; by exists d|tauto].
Qed.

Lemma removal_registered holes w w' :
  removal holes w w' -> map_Forall (fun _ proc => registration proc) (processes w) -> map_Forall (fun _ proc => registration proc) (processes w').
Proof.
  intros Hr H4 q proc Hq. pose proof (rm_static _ _ _ Hr q) as Hs. rewrite Hq in Hs. destruct (processes w !! q) as [old|] eqn:Ho; [|done].
  apply (inj Some) in Hs. eapply registration_same; [|exact (H4 q old Ho)]. congruence.
Qed.

Lemma removal_sized holes w w' : removal holes w w' -> sized w -> sized w'.
Proof.
  intros Hr (H1 & H2 & H3 & H4). unfold sized, size, capacity in *. rewrite (rm_capacity _ _ _ Hr).
  split_and!; [|done|done|by eapply removal_registered]. etrans; [|exact H1]. apply inj_le, map_subseteq_size, Hr.
Qed.

(** A process changes and is registered as it should be. *)
Lemma sized_update p f w w' :
  processes w' = alter f p (processes w) -> m_capacity w' = m_capacity w -> m_processesPerRegistrableDomain w' = m_processesPerRegistrableDomain w ->
  (forall q, processes w !! p = Some q -> registration q -> registration (f q)) -> sized w -> sized w'.
Proof.
  intros Ep Ec Ed Hf (H1 & H2 & H3 & H4). unfold sized, size, capacity in *. rewrite Ep, Ec, Ed. split_and!; try done.
  intros q proc. destruct (decide (q = p)) as [->|Hne]; [rewrite lookup_alter_eq|rewrite lookup_alter_ne by done; apply H4].
  intros Hq. apply fmap_Some in Hq as (old & Ho & ->). by apply (Hf old Ho), (H4 p old).
Qed.

Lemma removal_pending holes w m : m ⊆ m_pendingAddRequests w -> removal holes w (w <| m_pendingAddRequests := m |>).
Proof. by split. Qed.
Lemma removal_domain holes w m : m ⊆ m_processesPerRegistrableDomain w -> removal holes w (w <| m_processesPerRegistrableDomain := m |>).
Proof. by split. Qed.

Lemma evictPending_spec holes exempt r w :
  wf holes exempt w -> exists w', evictPending r w = Some w' /\ wf holes exempt w' /\ removal holes w w' /\
    m_pendingAddRequests w' = delete r (m_pendingAddRequests w) /\ m_processesPerRegistrableDomain w' = m_processesPerRegistrableDomain w.
Proof.
  intros Hwf. unfold evictPending. destruct (m_pendingAddRequests w !! r) as [p|] eqn:Hr; [|exists w; by rewrite delete_id].
  destruct (destroy_spec _ _ _ _ (deletePending_wf _ _ _ _ _ Hwf Hr)) as (w' & H1 & H2 & H3 & H4 & H5 & _). exists w'. split; [done|]. split; [done|]. split; [|done].
  eapply removal_trans; [|exact H3]. apply removal_pending, delete_subseteq.
Qed.

Lemma evictDomain_spec holes exempt d w :
  wf holes exempt w -> exists w', evictDomain d w = Some w' /\ wf holes exempt w' /\ removal holes w w' /\
    m_processesPerRegistrableDomain w' = delete d (m_processesPerRegistrableDomain w) /\ m_pendingAddRequests w' = m_pendingAddRequests w.
Proof.
  intros Hwf. unfold evictDomain. destruct (m_processesPerRegistrableDomain w !! d) as [p|] eqn:Hd; [|exists w; by rewrite delete_id].
  destruct (destroy_spec _ _ _ _ (deleteDomain_wf _ _ _ _ _ Hwf Hd)) as (w' & H1 & H2 & H3 & H4 & H5 & _). exists w'. split; [done|]. split; [done|]. split; [|done].
  eapply removal_trans; [|exact H3]. apply removal_domain, delete_subseteq.
Qed.

Lemma evictAllPending_spec holes exempt keys : forall w,
  wf holes exempt w -> exists w', evictAll evictPending keys w = Some w' /\ wf holes exempt w' /\ removal holes w w' /\
    m_processesPerRegistrableDomain w' = m_processesPerRegistrableDomain w /\ (forall r, r ∈ keys -> m_pendingAddRequests w' !! r = None).
Proof.
  induction keys as [|k keys IH]; intros w Hwf; cbn; [exists w; split_and!; try done; by intros r ?%elem_of_nil|].
  destruct (evictPending_spec holes exempt k w Hwf) as (w1 & -> & H1 & H2 & H3 & H4). cbn. destruct (IH w1 H1) as (w2 & E & G1 & G2 & G3 & G4).
  exists w2. split; [done|]. split; [done|]. split; [by eapply removal_trans|]. split; [congruence|]. intros r [->|Hr]%elem_of_cons; [|by apply G4].
  eapply lookup_weaken_None; [|apply G2]. rewrite H3. apply lookup_delete_eq.
Qed.

Lemma evictAllDomain_spec holes exempt keys : forall w,
  wf holes exempt w -> exists w', evictAll evictDomain keys w = Some w' /\ wf holes exempt w' /\ removal holes w w' /\
    m_pendingAddRequests w' = m_pendingAddRequests w /\ (forall d, d ∈ keys -> m_processesPerRegistrableDomain w' !! d = None).
Proof.
  induction keys as [|k keys IH]; intros w Hwf; cbn; [exists w; split_and!; try done; by intros r ?%elem_of_nil|].
  destruct (evictDomain_spec holes exempt k w Hwf) as (w1 & -> & H1 & H2 & H3 & H4). cbn. destruct (IH w1 H1) as (w2 & E & G1 & G2 & G3 & G4).
  exists w2. split; [done|]. split; [done|]. split; [by eapply removal_trans|]. split; [congruence|]. intros r [->|Hr]%elem_of_cons; [|by apply G4].
  eapply lookup_weaken_None; [|apply G2]. rewrite H3. apply lookup_delete_eq.
Qed.

Lemma clearCache_spec exempt w :
  wf [] exempt w -> exists w', clear w = Some w' /\ wf [] exempt w' /\ removal [] w w' /\ m_pendingAddRequests w' = ∅ /\ m_processesPerRegistrableDomain w' = ∅.
Proof.
  intros Hwf. unfold clear.
  destruct (evictAllPending_spec [] exempt (map fst (map_to_list (m_pendingAddRequests w))) w Hwf) as (w1 & -> & H1 & H2 & H3 & H4). cbn.
  destruct (evictAllDomain_spec [] exempt (map fst (map_to_list (m_processesPerRegistrableDomain w1))) w1 H1) as (w2 & -> & G1 & G2 & G3 & G4).
  assert (Hkey : forall (m : gmap nat nat) k v, m !! k = Some v -> k ∈ map fst (map_to_list m)).
  { intros m k v Hk. apply list_elem_of_In, in_map_iff. exists (k, v). split; [done|]. by apply list_elem_of_In, elem_of_map_to_list. }
  exists w2. split; [done|]. split; [done|]. split; [by eapply removal_trans|]. split.
  - rewrite G3. apply map_empty. intros r. destruct (m_pendingAddRequests w1 !! r) as [p|] eqn:Hr; [|done]. rewrite <- Hr. apply H4. eapply Hkey. eapply lookup_weaken; [exact Hr|apply H2].
  - apply map_empty. intros d. destruct (m_processesPerRegistrableDomain w2 !! d) as [p|] eqn:Hd; [|done]. rewrite <- Hd. apply G4. eapply Hkey. eapply lookup_weaken; [exact Hd|apply G2].
Qed.

Lemma key_of_session session w (m : gmap nat nat) k p proc :
  m !! k = Some p -> processes w !! p = Some proc -> websiteDataStore proc = session ->
  k ∈ map fst (filter (fun x => ofSession session w x = true) (map_to_list m)).
Proof.
  intros Hk Hp Hs. apply list_elem_of_In, in_map_iff. exists (k, p). split; [done|]. apply list_elem_of_In, list_elem_of_filter. split; [|by apply elem_of_map_to_list].
  unfold ofSession. cbn. rewrite Hp. by apply bool_decide_eq_true.
Qed.

(** The data store of a process does not change. *)
Lemma removal_store holes w w' q : removal holes w w' -> websiteDataStore <$> processes w' !! q = websiteDataStore <$> processes w !! q.
Proof. intros Hr. pose proof (rm_static _ _ _ Hr q) as Hs. destruct (processes w' !! q), (processes w !! q); cbn in *; congruence. Qed.

Lemma clearSession_spec exempt session w :
  wf [] exempt w -> exists w', clearAllProcessesForSession session w = Some w' /\ wf [] exempt w' /\ removal [] w w' /\
    (forall k p, m_processesPerRegistrableDomain w' !! k = Some p \/ m_pendingAddRequests w' !! k = Some p -> websiteDataStore <$> processes w' !! p <> Some session).
Proof.
  intros Hwf. unfold clearAllProcessesForSession.
  destruct (evictAllDomain_spec [] exempt (map fst (filter (fun x => ofSession session w x = true) (map_to_list (m_processesPerRegistrableDomain w)))) w Hwf) as (w1 & -> & H1 & H2 & H3 & H4).
  cbn [mbind option_bind].
  destruct (evictAllPending_spec [] exempt (map fst (filter (fun x => ofSession session w1 x = true) (map_to_list (m_pendingAddRequests w1)))) w1 H1) as (w2 & E & G1 & G2 & G3 & G4).
  exists w2. split; [exact E|]. split; [done|]. split; [by eapply removal_trans|]. intros k p Hk Hp. rewrite (removal_store _ _ _ p G2) in Hp. destruct Hk as [Hk|Hk].
  - rewrite G3 in Hk. rewrite (removal_store _ _ _ p H2) in Hp. apply fmap_Some in Hp as (proc & Hp & Hs). rewrite H4 in Hk; [done|].
    eapply key_of_session; [|exact Hp|done]. eapply lookup_weaken; [exact Hk|apply H2].
  - apply fmap_Some in Hp as (proc & Hp & Hs). rewrite G4 in Hk; [done|]. eapply key_of_session; [|exact Hp|done]. eapply lookup_weaken; [exact Hk|apply G2].
Qed.

(** *** Entries come in *)

Lemma evictForRoom_spec holes exempt fuel : forall w,
  wf holes exempt w -> 0 < capacity w -> (base.size (m_processesPerRegistrableDomain w) <= fuel)%nat ->
  exists w', makeRoom fuel w = Some w' /\ wf holes exempt w' /\ removal holes w w' /\ size w' < capacity w'.
Proof.
  induction fuel as [|fuel IH]; intros w Hwf Hcap Hf; cbn; [exists w; split_and!; try done; unfold size; lia|].
  destruct (capacity w <=? size w) eqn:Hc; [|exists w; split_and!; try done; lia]. apply Z.leb_le in Hc.
  assert (Hne : m_processesPerRegistrableDomain w <> ∅) by (intros He; unfold size in Hc; rewrite He, map_size_empty in Hc; lia).
  destruct (random_in _ Hne) as [p Hp]. destruct (evictDomain_spec holes exempt (random (m_processesPerRegistrableDomain w)) w Hwf) as (w1 & -> & H1 & H2 & H3 & H4). cbn.
  destruct (IH w1 H1) as (w2 & E & G1 & G2 & G3).
  - unfold capacity in *. by rewrite (rm_capacity _ _ _ H2).
  - rewrite H3, map_size_delete, Hp. cbn. lia.
  - exists w2. split_and!; try done. by eapply removal_trans.
Qed.

Lemma insertDomain_wf holes exempt p proc d w :
  wf (p :: holes) exempt w -> processes w !! p = Some proc -> registrableDomain proc = Some d -> m_processesPerRegistrableDomain w !! d = None ->
  wf holes exempt (w <| m_processesPerRegistrableDomain := <[d := p]> (m_processesPerRegistrableDomain w) |>).
Proof.
  intros [W1 W2 W3 W4 [W5 W5'] W6 W7 W8 W9 W10] Hp Hdom Hnone. apply NoDup_cons in W5 as [Hnp Hnd].
  assert (Hcase : forall d' q, <[d := p]> (m_processesPerRegistrableDomain w) !! d' = Some q -> (d' = d /\ q = p) \/ (d' <> d /\ m_processesPerRegistrableDomain w !! d' = Some q)).
  { intros d' q. destruct (decide (d' = d)) as [->|Hne]; [rewrite lookup_insert_eq; left; split; congruence|rewrite lookup_insert_ne by done; by right]. }
  split; try done; cbn.
  - intros r q Hq. destruct (W1 r q Hq) as (? & Hn & ?). rewrite not_elem_of_cons in Hn. tauto.
  - intros d' q Hq. destruct (Hcase d' q Hq) as [[-> ->]|[_ Hq']]; [rewrite Hp; cbn; by rewrite Hdom|]. destruct (W3 d' q Hq') as [? Hn]. rewrite not_elem_of_cons in Hn. tauto.
  - intros r d' q Hr Hq. destruct (Hcase d' q Hq) as [[-> ->]|[_ Hq']]; [|by apply (W4 r d' q)]. destruct (W1 r p Hr) as (_ & Hn & _). rewrite not_elem_of_cons in Hn. tauto.
  - split; [done|]. intros q Hq. apply W5'. by right.
  - intros q pr Hq. rewrite (W6 q pr Hq), elem_of_cons. split.
    + intros [?|[[d' Hd']|[->|?]]]; [tauto | | right; left; exists d; by rewrite lookup_insert_eq | tauto].
      right. left. exists d'. rewrite lookup_insert_ne; [done|]. intros ->. congruence.
    + intros [?|[[d' Hd']|?]]; [tauto| |tauto]. destruct (Hcase d' q Hd') as [[-> ->]|[_ Hq']]; [tauto|]. right. left. by exists d'.
Qed.

Lemma addProcess_spec exempt env p w :
  wf [p] exempt w -> sized w -> exists w' b, addProcess env p w = Some (w', b) /\ wf [] exempt w' /\ sized w'.
Proof.
  intros Hwf Hsz. destruct (wf_holes _ _ _ Hwf) as [_ Hs]. destruct (Hs p) as [proc Hp]; [by left|]. unfold addProcess. rewrite Hp.
  assert (Hdestroy : exists w', destroyCachedProcess p w = Some w' /\ wf [] exempt w' /\ sized w').
  { destruct (destroy_spec _ _ _ _ Hwf) as (w' & E & H1 & H2 & _). exists w'. split_and!; try done; by eapply removal_sized. }
  destruct (registrableDomain proc) as [d|] eqn:Hd; [|destruct Hdestroy as (w' & -> & ? & ?); by exists w', false].
  destruct (canCacheProcess env proc w) eqn:Hc; [|destruct Hdestroy as (w' & -> & ? & ?); by exists w', false].
  assert (Hcap : 0 < capacity w).
  { unfold canCacheProcess in Hc. rewrite !andb_true_iff, negb_true_iff in Hc. destruct Hc as [[[Hc _] _] _]. apply bool_decide_eq_false in Hc. destruct Hsz. lia. }
  destruct (evictDomain_spec _ _ d w Hwf) as (w1 & -> & H1 & H2 & H3 & _). cbn [mbind option_bind].
  destruct (evictForRoom_spec [p] exempt (base.size (m_processesPerRegistrableDomain w1)) w1 H1) as (w2 & -> & G1 & G2 & G3).
  { unfold capacity in *. by rewrite (rm_capacity _ _ _ H2). }
  { done. }
  cbn [mbind option_bind]. eexists _, true. split; [done|].
  assert (Hp2 : processes w2 !! p = Some proc) by (rewrite (rm_holes _ _ _ G2), (rm_holes _ _ _ H2); [done|by left|by left]).
  assert (Hn2 : m_processesPerRegistrableDomain w2 !! d = None) by (eapply lookup_weaken_None; [|apply G2]; rewrite H3; apply lookup_delete_eq).
  split; [by eapply insertDomain_wf|].
  destruct (removal_sized _ _ _ (removal_trans _ _ _ _ H2 G2) Hsz) as (_ & S2 & S3). split; [|done]. unfold size, capacity in *. cbn. rewrite map_size_insert_None by done. lia.
Qed.

Lemma answerRequest_spec exempt env isResponsive r w :
  wf [] exempt w -> sized w -> exists w', answerRequest env isResponsive r w = Some w' /\ wf [] exempt w' /\ sized w'.
Proof.
  intros Hwf Hsz. unfold answerRequest. destruct (m_pendingAddRequests w !! r) as [p|] eqn:Hr; [|by exists w].
  pose proof (deletePending_wf _ _ _ _ _ Hwf Hr) as Hwf1. set (w1 := w <| m_pendingAddRequests := _ |>) in *. destruct isResponsive.
  - destruct (addProcess_spec exempt env p w1 Hwf1 Hsz) as (w' & b & -> & ? & ?). by exists w'.
  - destruct (destroy_spec _ _ _ _ Hwf1) as (w' & E & H1 & H2 & _). exists w'. split_and!; try done; by eapply removal_sized.
Qed.

Lemma answerRequests_spec exempt env isResponsive requests : forall w,
  wf [] exempt w -> sized w -> exists w', answerRequests env isResponsive requests w = Some w' /\ wf [] exempt w' /\ sized w'.
Proof.
  induction requests as [|r requests IH]; intros w Hwf Hsz; cbn; [by exists w|].
  destruct (answerRequest_spec exempt env isResponsive r w Hwf Hsz) as (w1 & -> & H1 & H2). cbn. by apply IH.
Qed.

(** *** Processes leave the cache *)

Lemma pendingRequest_found exempt p w r : wf [] exempt w -> m_pendingAddRequests w !! r = Some p -> pendingRequestOf p w = Some r.
Proof.
  intros Hwf Hr. unfold pendingRequestOf. destruct (find _ _) as [[r' q]|] eqn:Hf; cbn.
  - apply find_some in Hf as [Hin Heq]. apply Nat.eqb_eq in Heq. cbn in Heq. subst q. apply list_elem_of_In, elem_of_map_to_list in Hin. f_equal. by apply (wf_injective _ _ _ Hwf r' r p).
  - eapply find_none in Hf; [|by apply list_elem_of_In, elem_of_map_to_list, Hr]. cbn in Hf. by rewrite Nat.eqb_refl in Hf.
Qed.

Lemma removeProcess_spec exempt (shouldShutDown : bool) p proc w :
  wf [] exempt w -> processes w !! p = Some proc -> m_isInProcessCache proc = true -> registrableDomain proc <> None ->
  exists w', removeProcess shouldShutDown p w = Some w' /\ wf [] exempt w' /\ removal [] w w' /\
    processes w' = alter (fun q => if shouldShutDown then q <| m_isInProcessCache := false |> <| isTerminated := true |>
                                   else q <| m_isInProcessCache := false |> <| usable := true |>) p (processes w).
Proof.
  intros Hwf Hp Hfl Hdom. unfold removeProcess. rewrite Hp. destruct (registrableDomain proc) as [d|] eqn:Hd; [|done].
  assert (Hfin : forall w1, removal [] w w1 -> processes w1 = processes w -> wf [p] exempt w1 ->
    exists w', (if shouldShutDown then destroyCachedProcess p w1 else takeCachedProcess p w1) = Some w' /\ wf [] exempt w' /\ removal [] w w' /\
    processes w' = alter (fun q => if shouldShutDown then q <| m_isInProcessCache := false |> <| isTerminated := true |>
                                   else q <| m_isInProcessCache := false |> <| usable := true |>) p (processes w)).
  { intros w1 Hr1 Hp1 Hwf1. rewrite <- Hp1. destruct shouldShutDown.
    - destruct (destroy_spec _ _ _ _ Hwf1) as (w' & -> & G1 & G2 & _ & _ & _ & G3). exists w'. split_and!; try done. by eapply removal_trans.
    - destruct (takeCached_spec _ _ _ _ Hwf1) as (w' & -> & G1 & G2 & _ & _ & _ & G3). exists w'. split_and!; try done. by eapply removal_trans. }
  case_bool_decide as Hin.
  - apply Hfin; [apply removal_domain, delete_subseteq | done | by eapply deleteDomain_wf].
  - apply (wf_flag _ _ _ Hwf p proc Hp) in Hfl as [[r Hr]|[[d' Hd']|Hh]]; [|exfalso; destruct (wf_domain _ _ _ Hwf d' p Hd') as [Hx _]; rewrite Hp in Hx; cbn in Hx; congruence|by apply elem_of_nil in Hh].
    rewrite (pendingRequest_found exempt p w r Hwf Hr). apply Hfin; [apply removal_pending, delete_subseteq | done | by eapply deletePending_wf].
Qed.

Lemma capacityForMemory_nonneg : 0 <= capacityForMemory.
Proof. unfold capacityForMemory. destruct (_ <? 3); [lia|]. unfold wrap. pose proof (Z.mod_pos_bound (ramSize / GB * 4) (2 ^ 32)). lia. Qed.

Lemma capacityForMemory_le : capacityForMemory <= 30.
Proof. unfold capacityForMemory. destruct (_ <? 3); lia. Qed.

Lemma shutDown_spec exempt p w :
  wf [] exempt w -> exempt = None \/ exempt = Some p -> sized w ->
  (forall proc, processes w !! p = Some proc -> m_isInProcessCache proc = true -> registrableDomain proc <> None) ->
  exists w', shutDown p w = Some w' /\ wf [] None w' /\ sized w'.
Proof.
  intros Hwf Hx Hsz Hdom. unfold shutDown. destruct (processes w !! p) as [proc|] eqn:Hp; cycle 1.
  { exists w. split_and!; try done. destruct Hx as [-> | ->]; [done|]. apply (settle_wf [] p); [done|]. by rewrite Hp. }
  assert (H1 : exists w1 proc1, (if m_isInProcessCache proc then removeProcess false p w else Some w) = Some w1 /\ wf [] exempt w1 /\ sized w1 /\
    processes w1 !! p = Some proc1 /\ m_isInProcessCache proc1 = false).
  { destruct (m_isInProcessCache proc) eqn:Hf; [|by exists w, proc].
    destruct (removeProcess_spec exempt false p proc w Hwf Hp Hf (Hdom proc eq_refl Hf)) as (w1 & -> & G1 & G2 & G3).
    eexists w1, _. split; [done|]. split; [done|]. split; [by eapply removal_sized|]. split; [by rewrite G3, lookup_alter_eq, Hp|done]. }
  destruct H1 as (w1 & proc1 & -> & Hwf1 & Hsz1 & Hp1 & Hf1). cbn [mbind option_bind]. exists (shutDownNow p w1). split; [done|]. split; [|by eapply (sized_update p _ w1)].
  assert (Hwf2 : wf [] (Some p) (update p (fun q => q <| isTerminated := true |>) w1)) by (eapply update_wf; [exact Hwf1|done|]; intros q _; split_and!; auto).
  apply (settle_wf [] p); [by destruct Hwf2|]. intros q Hq. unfold shutDownNow in Hq. cbn in Hq. rewrite lookup_alter_eq, Hp1 in Hq. apply (inj Some) in Hq. subst q.
  split; [by left|]. cbn. congruence.
Qed.

(** A process that may be cached gets its flag and a request. *)
Definition requested (p : nat) w : Pool :=
  let request := S (lastRequestIdentifier w) in
  update p (fun q => q <| m_isInProcessCache := true |> <| usable := false |>) (w <| lastRequestIdentifier := request |>) <| m_pendingAddRequests := <[request := p]> (m_pendingAddRequests w) |>.

Lemma requested_wf p proc w :
  wf [] (Some p) w -> processes w !! p = Some proc -> m_isInProcessCache proc = false -> cacheable (proc <| usable := false |>) ->
  wf [] None (requested p w).
Proof.
  intros [W1 W2 W3 W4 [W5 W5'] W6 W7 W8 W9 W10] Hp Hf Hca. set (request := S (lastRequestIdentifier w)). set (w3 := requested p w).
  assert (Hout : (forall r, m_pendingAddRequests w !! r <> Some p) /\ (forall d, m_processesPerRegistrableDomain w !! d <> Some p)).
  { split; intros k Hk; (assert (m_isInProcessCache proc = true); [apply (W6 p proc Hp)|congruence]); [left; by exists k|right; left; by exists k]. }
  destruct Hout as [Hout1 Hout2].
  assert (Hnew : m_pendingAddRequests w !! request = None).
  { destruct (m_pendingAddRequests w !! request) as [q|] eqn:Hq; [|done]. destruct (W1 _ _ Hq) as (_ & _ & Hle). unfold request in Hle. lia. }
  assert (Hcase : forall q pr, processes w3 !! q = Some pr -> (q = p /\ pr = proc <| m_isInProcessCache := true |> <| usable := false |>) \/ (q <> p /\ processes w !! q = Some pr)).
  { intros q pr. unfold w3, requested, update. cbn. destruct (decide (q = p)) as [->|Hne]; [rewrite lookup_alter_eq, Hp; cbn; intros [= <-]; by left|rewrite lookup_alter_ne by done; by right]. }
  assert (Hpend : forall r q, <[request := p]> (m_pendingAddRequests w) !! r = Some q -> (r = request /\ q = p) \/ (r <> request /\ m_pendingAddRequests w !! r = Some q)).
  { intros r q. destruct (decide (r = request)) as [->|Hne]; [rewrite lookup_insert_eq; left; split; congruence|rewrite lookup_insert_ne by done; by right]. }
  assert (Hs3 : forall q, is_Some (processes w !! q) -> is_Some (processes w3 !! q)) by (intros q Hq; by apply (is_Some_update p _ w)).
  assert (Hcb : forall q pr r, processes w3 !! q = Some pr -> r ∈ m_isResponsiveCallbacks pr ->
    exists pr', processes w !! q = Some pr' /\ (r ∈ m_isResponsiveCallbacks pr') /\ (r <= lastRequestIdentifier w)%nat).
  { intros q pr r Hq Hr. destruct (Hcase q pr Hq) as [[-> ->]|[Hne Hq']]; [exists proc|exists pr]; (split_and!; [done|done|]); [by apply (W10 p proc)|by apply (W10 q pr)]. }
  split; try done.
  - intros r q Hr. destruct (Hpend r q Hr) as [[-> ->]|[_ Hr']]; [split_and!; [apply Hs3; by eexists|by apply not_elem_of_nil|cbn; lia]|].
    destruct (W1 r q Hr') as (? & ? & ?). split_and!; [by apply Hs3|done|cbn; lia].
  - intros r r' q Hr Hr'. destruct (Hpend r q Hr) as [[-> ->]|[_ Hq]], (Hpend r' _ Hr') as [[-> Hq2]|[_ Hq']]; try done; [by destruct (Hout1 r')|subst q; by destruct (Hout1 r)|by apply (W2 r r' q)].
  - intros d q Hd. destruct (W3 d q Hd) as [Hdq Hh]. split; [|done]. unfold w3, requested, update. cbn. rewrite lookup_alter_ne; [done|]. intros <-. by apply (Hout2 d).
  - intros r d q Hr Hd. destruct (Hpend r q Hr) as [[-> ->]|[_ Hq]]; [by apply (Hout2 d)|by apply (W4 r d q)].
  - split; [constructor|]. by intros q ?%elem_of_nil.
  - intros q pr Hq. destruct (Hcase q pr Hq) as [[-> ->]|[Hne Hq']]; change (m_pendingAddRequests w3) with (<[request := p]> (m_pendingAddRequests w)).
    + cbn. split; [|done]. intros _. left. exists request. by rewrite lookup_insert_eq.
    + rewrite (W6 q pr Hq'). split; (intros [[r Hr]|?]; [left|by right]).
      * exists r. rewrite lookup_insert_ne; [done|]. intros <-. congruence.
      * destruct (Hpend r q Hr) as [[_ ->]|[_ Hr']]; [done|by exists r].
  - intros q pr Hq _ Hfl. destruct (Hcase q pr Hq) as [[-> ->]|[Hne Hq']]; [done|]. apply (W7 q); try done. congruence.
  - intros q pr Hq _. destruct (Hcase q pr Hq) as [[-> ->]|[Hne Hq']]; [by do 2 right; left|]. apply (W8 q); try done. congruence.
  - intros q pr r q' Hq Hr Hl. destruct (Hcb q pr r Hq Hr) as (pr' & Hq' & Hr' & Hle). destruct (Hpend r q' Hl) as [[-> _]|[_ Hl']]; [unfold request in Hle; lia|]. by apply (W9 q pr' r).
  - intros q pr r Hq Hr. destruct (Hcb q pr r Hq Hr) as (pr' & _ & _ & Hle). cbn. lia.
Qed.

Lemma addCallback_wf p r w :
  wf [] None w -> m_pendingAddRequests w !! r = Some p ->
  wf [] None (update p (fun q => q <| m_isResponsiveCallbacks := m_isResponsiveCallbacks q ++ [r] |>) w).
Proof.
  intros [W1 W2 W3 W4 [W5 W5'] W6 W7 W8 W9 W10] Hr. set (f := fun q => q <| m_isResponsiveCallbacks := m_isResponsiveCallbacks q ++ [r] |>).
  assert (Hcase : forall q pr, processes (update p f w) !! q = Some pr -> exists old, processes w !! q = Some old /\ (pr = old \/ (q = p /\ pr = f old))).
  { intros q pr. rewrite lookup_update. destruct (decide (q = p)) as [->|Hne]; [|exists pr; auto]. intros Hq. apply fmap_Some in Hq as (old & Ho & ->). exists old. auto. }
  assert (Hcb : forall q pr x, processes (update p f w) !! q = Some pr -> x ∈ m_isResponsiveCallbacks pr ->
    exists old, processes w !! q = Some old /\ (x ∈ m_isResponsiveCallbacks old \/ (x = r /\ q = p))).
  { intros q pr x Hq Hx. destruct (Hcase q pr Hq) as (old & Ho & [-> |[-> ->]]); exists old; (split; [done|]); [by left|].
    cbn in Hx. rewrite elem_of_app, list_elem_of_singleton in Hx. tauto. }
  split; try done.
  - intros r' q Hq. destruct (W1 r' q Hq) as (? & ? & ?). split_and!; [by apply is_Some_update|done|done].
  - intros d q Hd. destruct (W3 d q Hd) as [Hdq Hh]. split; [|done]. rewrite lookup_update. destruct (decide (q = p)) as [->|]; [|done]. by destruct (processes w !! p).
  - split; [done|]. by intros q ?%elem_of_nil.
  - intros q pr Hq. destruct (Hcase q pr Hq) as (old & Ho & [-> |[-> ->]]); exact (W6 _ _ Ho).
  - intros q pr Hq Hx Hfl. destruct (Hcase q pr Hq) as (old & Ho & [-> |[-> ->]]); exact (W7 _ _ Ho Hx Hfl).
  - intros q pr Hq Hx. destruct (Hcase q pr Hq) as (old & Ho & [-> |[-> ->]]); exact (W8 _ _ Ho Hx).
  - intros q pr x q' Hq Hx Hl. destruct (Hcb q pr x Hq Hx) as (old & Ho & [Hin|[-> ->]]); [by apply (W9 q old x)|]. change (m_pendingAddRequests (update p f w)) with (m_pendingAddRequests w) in Hl. congruence.
  - intros q pr x Hq Hx. destruct (Hcb q pr x Hq Hx) as (old & Ho & [Hin|[-> ->]]); [by apply (W10 q old x)|]. by apply (W1 r p).
Qed.

Lemma addIfPossible_spec env p proc w :
  wf [] (Some p) w -> sized w -> processes w !! p = Some proc -> idle proc -> isTerminated proc = false -> m_isInProcessCache proc = false ->
  (exists w', addProcessIfPossible env p w = Some (w', true) /\ wf [] None w' /\ sized w') \/ addProcessIfPossible env p w = Some (w, false).
Proof.
  intros Hwf Hsz Hp Hidle Ht Hf. unfold addProcessIfPossible. rewrite Hp. destruct (canCacheProcess env proc w) eqn:Hc; [left|by right]. cbn [negb].
  assert (Hdom : registrableDomain proc <> None).
  { unfold canCacheProcess in Hc. rewrite !andb_true_iff in Hc. destruct Hc as [[[_ Hd] _] _]. by apply bool_decide_eq_true in Hd. }
  set (request := S (lastRequestIdentifier w)). set (w1 := w <| lastRequestIdentifier := request |>).
  assert (Hset : (w2 ← makeCachedProcess p w1; Some (w2 <| m_pendingAddRequests := <[request := p]> (m_pendingAddRequests w2) |>)) = Some (requested p w)).
  { unfold makeCachedProcess, setIsInProcessCache. change (processes w1) with (processes w). rewrite Hp. destruct Hidle as (I1 & I2 & I3 & _), Hsz as (_ & _ & _ & Hreg).
    pose proof (Hreg p proc Hp) as Hr. unfold registration, shouldBeRegistered in Hr. rewrite Hr, !(bool_decide_true (_ = 0%nat)), !bool_decide_true by done.
    cbn. unfold requested, update. cbn. by rewrite alter_alter_eq. }
  assert (Hwf3 : wf [] None (requested p w)) by (by eapply requested_wf).
  assert (Hsz3 : sized (requested p w)).
  { by eapply (sized_update p _ w). }
  assert (Hr3 : m_pendingAddRequests (requested p w) !! request = Some p) by (unfold requested; cbn; by rewrite lookup_insert_eq).
  apply bind_Some in Hset as (w2 & E & E2). apply (inj Some) in E2. rewrite E. cbn [mbind option_bind]. rewrite E2.
  destruct (markedUnresponsive env p); eexists; (split; [done|]).
  - split; [by destruct Hwf3 | exact Hsz3].
  - split; [by apply addCallback_wf | by eapply (sized_update p _ (requested p w))].
Qed.

Lemma maybeShutDown_spec env p w :
  wf [] (Some p) w -> sized w -> (forall proc, processes w !! p = Some proc -> m_isInProcessCache proc = false) ->
  exists w', maybeShutDown env p w = Some w' /\ wf [] None w' /\ sized w'.
Proof.
  intros Hwf Hsz Hf. unfold maybeShutDown. destruct (processes w !! p) as [proc|] eqn:Hp; cycle 1.
  { exists w. split_and!; try done. apply (settle_wf [] p); [done|]. by rewrite Hp. }
  specialize (Hf proc eq_refl). destruct (isTerminated proc || negb (canTerminateAuxiliaryProcess proc)) eqn:Hc.
  - exists w. split_and!; try done. apply (settle_wf [] p); [done|]. intros q Hq. rewrite Hp in Hq. apply (inj Some) in Hq. subst q. split; [|congruence].
    apply orb_true_iff in Hc as [Hc|Hc]; [by left|]. apply negb_true_iff in Hc. unfold canTerminateAuxiliaryProcess in Hc. rewrite Hf in Hc. cbn in Hc.
    rewrite !andb_false_iff, !bool_decide_eq_false, !negb_false_iff in Hc. right. destruct Hc as [[[[[[Hc|Hc]|Hc]|Hc]|Hc]|Hc]|Hc]; try done; try (left; intros (? & ? & ? & ? & ?); congruence). by do 3 right.
  - apply orb_false_iff in Hc as [Ht Hc]. apply negb_false_iff in Hc. unfold canTerminateAuxiliaryProcess in Hc.
    rewrite !andb_true_iff, !bool_decide_eq_true, !negb_true_iff in Hc. destruct Hc as [[[[[[C1 C2] C3] C4] C5] C6] C7].
    assert (Hsd : forall exempt, exempt = Some p -> exists w', shutDown p w = Some w' /\ wf [] None w' /\ sized w').
    { intros x ->. apply (shutDown_spec (Some p)); auto. rewrite Hp. intros q Hq. apply (inj Some) in Hq. subst q. congruence. }
    destruct (canBeAddedToWebProcessCache proc); [|by eapply Hsd].
    destruct (addIfPossible_spec env p proc w Hwf Hsz Hp) as [(w' & -> & ? & ?)| ->]; [by unfold idle|done|done|by exists w'|by eapply Hsd].
Qed.

(** *** Every event *)

Lemma outOfCache_flag p w proc : outOfCache p w -> processes w !! p = Some proc -> m_isInProcessCache proc = false.
Proof. unfold outOfCache. intros Ho Hp. rewrite Hp in Ho. by apply (inj Some) in Ho. Qed.

(** A caller changes a process that is not in the cache, and it stays kept. *)
Lemma touch_ok p f w :
  wf [] None w -> sized w -> outOfCache p w ->
  (forall q, processes w !! p = Some q -> m_isInProcessCache (f q) = m_isInProcessCache q /\ m_isResponsiveCallbacks (f q) = m_isResponsiveCallbacks q /\
    (kept q -> kept (f q)) /\ (registration q -> registration (f q))) ->
  wf [] None (update p f w) /\ sized (update p f w).
Proof.
  intros Hwf Hsz Ho Hf. split; [|eapply (sized_update p f w); try done; intros q Hq; by apply Hf].
  assert (Hwf1 : wf [] (Some p) (update p f w)).
  { apply (update_wf [] None); [done|by left|]. intros q Hq. destruct (Hf q Hq) as (F1 & F2 & _). pose proof (outOfCache_flag p w q Ho Hq). rewrite F2. split_and!; auto. }
  apply (settle_wf [] p); [done|]. intros q. rewrite lookup_update, decide_True by done. intros Hq. apply fmap_Some in Hq as (old & Hold & ->).
  destruct (Hf old Hold) as (F1 & _ & F3 & _). pose proof (outOfCache_flag p w old Ho Hold). split; [apply F3; by apply (wf_kept _ _ _ Hwf p)|congruence].
Qed.

Lemma busy_kept q : ~ idle q -> kept q.
Proof. intros. by right; left. Qed.

(** A process loses one of the things it is used for. *)
Lemma release_ok env p f w :
  wf [] None w -> sized w -> (forall q, processes w !! p = Some q -> ~ idle q) ->
  (forall q, m_isInProcessCache (f q) = m_isInProcessCache q /\ registrableDomain (f q) = registrableDomain q /\ m_isResponsiveCallbacks (f q) = m_isResponsiveCallbacks q /\
    (registration q -> registration (f q))) ->
  wf [] (Some p) (update p f w) /\ sized (update p f w) /\ (forall q, processes (update p f w) !! p = Some q -> m_isInProcessCache q = false) /\
  exists w', maybeShutDown env p (update p f w) = Some w' /\ wf [] None w' /\ sized w'.
Proof.
  intros Hwf Hsz Hb Hf.
  assert (Hwf1 : wf [] (Some p) (update p f w)).
  { apply (update_wf [] None); [done|by left|]. intros q Hq. destruct (Hf q) as (F1 & F2 & F3 & _). rewrite F3. split_and!; auto. }
  assert (Hfl : forall q, processes (update p f w) !! p = Some q -> m_isInProcessCache q = false).
  { intros q. rewrite lookup_update, decide_True by done. intros Hq. apply fmap_Some in Hq as (old & Hold & ->). destruct (Hf old) as (-> & _).
    destruct (m_isInProcessCache old) eqn:Hfo; [|done]. destruct (Hb old Hold). by apply (wf_cacheable _ _ _ Hwf p). }
  assert (Hsz1 : sized (update p f w)) by (eapply (sized_update p f w); try done; intros q _; by apply Hf).
  split_and!; try done. by apply maybeShutDown_spec.
Qed.

Lemma count_busy (count : WebProcessProxy -> nat) p w :
  countOf count p w <> 0%nat -> (forall q, idle q -> count q = 0%nat) -> forall q, processes w !! p = Some q -> ~ idle q.
Proof. unfold countOf. intros Hc Hi q Hq Hid. rewrite Hq in Hc. by apply Hc, Hi. Qed.

(** The last of the things a counter counts is gone: the process may end. *)
Lemma releaseLast_ok env count p f w :
  wf [] None w -> sized w -> countOf count p w <> 0%nat -> (forall q, idle q -> count q = 0%nat) ->
  (forall q, m_isInProcessCache (f q) = m_isInProcessCache q /\ registrableDomain (f q) = registrableDomain q /\ m_isResponsiveCallbacks (f q) = m_isResponsiveCallbacks q /\
    (registration q -> registration (f q))) ->
  exists w', match processes (update p f w) !! p with
             | Some proc => if bool_decide (count proc = 0%nat) then maybeShutDown env p (update p f w) else Some (update p f w)
             | None => Some (update p f w)
             end = Some w' /\ wf [] None w' /\ sized w'.
Proof.
  intros Hwf Hsz Hc Hi Hf. destruct (release_ok env p f w Hwf Hsz) as (R1 & R2 & R3 & R4); [by eapply count_busy|done|].
  destruct (processes (update p f w) !! p) as [proc|] eqn:Hp; [case_bool_decide as Hz; [done|]|]; (eexists; split; [done|]; split; [|done]); (apply (settle_wf [] p); [done|]); rewrite Hp; [|done].
  intros q Hq. apply (inj Some) in Hq. subst q. split; [apply busy_kept; intros Hid; by apply Hz, Hi|]. by rewrite (R3 proc).
Qed.

Lemma enableServiceWorkers_ok p w :
  wf [] None w -> sized w -> exists w', enableServiceWorkers p w = Some w' /\ wf [] None w' /\ sized w'.
Proof.
  intros Hwf Hsz. unfold enableServiceWorkers. destruct (processes w !! p) as [proc|] eqn:Hp; cycle 1.
  { eexists. rewrite lookup_update, decide_True, Hp by done. cbn. split; [done|]. split; [|by eapply (sized_update p _ w)].
    apply (settle_wf [] p); [apply (update_wf [] None); [done|by left|]; intros q Hq; congruence|]. intros q. rewrite lookup_update, decide_True, Hp by done. done. }
  set (f := fun q => q <| isRunningServiceWorkers := true |>). set (w1 := update p f w).
  assert (Hwf1 : wf [] (Some p) w1) by (apply (update_wf [] None); [done|by left|]; intros q _; split_and!; auto).
  assert (Hsz1 : sized w1) by (by eapply (sized_update p f w)).
  assert (Hp1 : processes w1 !! p = Some (f proc)) by (unfold w1; by rewrite lookup_update, decide_True, Hp).
  assert (Hbusy : forall q, isRunningServiceWorkers q = true -> kept q) by (intros q Hq; apply busy_kept; intros (_ & _ & _ & _ & ?); congruence).
  rewrite Hp1. destruct (m_isInProcessCache (f proc)) eqn:Hf.
  - assert (Hd : registrableDomain (f proc) <> None) by (by apply (wf_cacheable _ _ _ Hwf p proc)).
    destruct (removeProcess_spec (Some p) false p (f proc) w1 Hwf1 Hp1 Hf Hd) as (w' & E & G1 & G2 & G3). exists w'. split; [done|]. split; [|by eapply removal_sized].
    apply (settle_wf [] p); [done|]. intros q Hq. rewrite G3, lookup_alter_eq, Hp1 in Hq. apply (inj Some) in Hq. subst q. split; [by apply Hbusy|done].
  - exists w1. split_and!; try done. apply (settle_wf [] p); [done|]. intros q Hq. rewrite Hp1 in Hq. apply (inj Some) in Hq. subst q. split; [by apply Hbusy|congruence].
Qed.

Lemma takeProcess_ok domain store w :
  wf [] None w -> sized w -> exists w' r, takeProcess domain store w = Some (w', r) /\ wf [] None w' /\ sized w' /\
    match r with
    | None => w' = w /\ forall p proc, m_processesPerRegistrableDomain w !! domain = Some p -> processes w !! p = Some proc -> websiteDataStore proc <> store
    | Some p => exists proc, processes w !! p = Some proc /\ m_processesPerRegistrableDomain w !! domain = Some p /\ websiteDataStore proc = store /\
        processes w' = alter (fun q => q <| m_isInProcessCache := false |> <| usable := true |>) p (processes w) /\
        m_processesPerRegistrableDomain w' = delete domain (m_processesPerRegistrableDomain w) /\ m_pendingAddRequests w' = m_pendingAddRequests w
    end.
Proof.
  intros Hwf Hsz. unfold takeProcess. destruct (m_processesPerRegistrableDomain w !! domain) as [p|] eqn:Hd; [|by exists w, None].
  destruct (processes w !! p) as [proc|] eqn:Hp; [|exists w, None; split_and!; try done; intros; congruence].
  case_bool_decide as Hst; [exists w, None; split_and!; try done; intros; congruence|].
  set (w1 := w <| m_processesPerRegistrableDomain := delete domain (m_processesPerRegistrableDomain w) |>).
  destruct (takeCached_spec _ _ _ _ (deleteDomain_wf _ _ _ _ _ Hwf Hd)) as (w' & E & G1 & G2 & G3 & G4 & _ & G5). change (takeCachedProcess p w1 = Some w') in E.
  assert (Hsame : (w2 ← takeCachedProcess p w; Some (w2 <| m_processesPerRegistrableDomain := delete domain (m_processesPerRegistrableDomain w2) |>, Some p)) = Some (w', Some p)).
  { unfold takeCachedProcess in E |- *. rewrite setFlag_false in E |- *. change (processes w1) with (processes w) in E. rewrite Hp in E |- *. cbn [mbind option_bind] in E |- *.
    apply (inj Some) in E. by rewrite <- E. }
  rewrite Hsame. exists w', (Some p). split; [done|]. split; [done|]. split.
  - eapply removal_sized; [|exact Hsz]. eapply removal_trans; [|exact G2]. apply removal_domain, delete_subseteq.
  - exists proc. by split_and!; try apply dec_stable in Hst.
Qed.

Lemma forget_callbacks_wf p w : wf [] None w -> wf [] None (update p (fun q => q <| m_isResponsiveCallbacks := [] |>) w).
Proof.
  intros Hwf. apply (settle_wf [] p).
  - apply (update_wf [] None); [done|by left|]. intros q _. split_and!; auto. by intros r ?%elem_of_nil.
  - intros q. rewrite lookup_update, decide_True by done. intros Hq. apply fmap_Some in Hq as (proc & Hp & ->). split; [exact (wf_kept _ _ _ Hwf p proc Hp ltac:(done))|].
    exact (wf_cacheable _ _ _ Hwf p proc Hp ltac:(done)).
Qed.

Lemma callbacks_ok env isResponsive p w :
  wf [] None w -> sized w -> exists w', callResponsiveCallbacks env isResponsive p w = Some w' /\ wf [] None w' /\ sized w'.
Proof.
  intros Hwf Hsz. unfold callResponsiveCallbacks. destruct (processes w !! p) as [proc|] eqn:Hp; [|by exists w]. apply answerRequests_spec; [by apply forget_callbacks_wf | by eapply (sized_update p _ w)].
Qed.

Lemma newProcess_ok p fresh w :
  wf [] None w -> sized w -> processes w !! p = None -> m_isInProcessCache fresh = false -> kept fresh -> m_isResponsiveCallbacks fresh = [] -> registration fresh ->
  exists w', Some (w <| processes := <[p := fresh]> (processes w) |>) = Some w' /\ wf [] None w' /\ sized w'.
Proof.
  intros [W1 W2 W3 W4 [W5 W5'] W6 W7 W8 W9 W10] Hsz Hnone Hfl0 Hkept Hcb Hreg. set (w' := w <| processes := _ |>).
  assert (Hcase : forall q pr, processes w' !! q = Some pr -> (q = p /\ pr = fresh) \/ (q <> p /\ processes w !! q = Some pr)).
  { intros q pr. unfold w'. cbn. destruct (decide (q = p)) as [->|Hne]; [rewrite lookup_insert_eq; intros [= <-]; by left|rewrite lookup_insert_ne by done; by right]. }
  assert (Hold : forall q, is_Some (processes w !! q) -> processes w' !! q = processes w !! q).
  { intros q [pr Hq]. unfold w'. cbn. rewrite lookup_insert_ne; [done|]. intros ->. congruence. }
  exists w'. split; [done|]. split; [|destruct Hsz as (S1 & S2 & S3 & S4); split_and!; try done; by apply map_Forall_insert_2]. split; try done.
  - intros r q Hr. destruct (W1 r q Hr) as (Hs & ? & ?). by rewrite Hold.
  - intros d q Hd. destruct (W3 d q Hd) as [Hs ?]. rewrite Hold; [done|]. apply fmap_Some in Hs as (? & -> & _). by eexists.
  - split; [done|]. by intros q ?%elem_of_nil.
  - intros q pr Hq. destruct (Hcase q pr Hq) as [[-> ->]|[Hne Hq']]; [|exact (W6 q pr Hq')]. rewrite Hfl0. split; [done|]. intros [[r Hr]|[[d Hd]|Hin]]; [..|by apply elem_of_nil in Hin].
    + destruct (W1 r p Hr) as ([? ?] & _). congruence.
    + destruct (W3 d p Hd) as [Hs _]. by rewrite Hnone in Hs.
  - intros q pr Hq Hx Hfl. destruct (Hcase q pr Hq) as [[-> ->]|[Hne Hq']]; [congruence|by apply (W7 q)].
  - intros q pr Hq Hx. destruct (Hcase q pr Hq) as [[-> ->]|[Hne Hq']]; [done|by apply (W8 q)].
  - intros q pr r q' Hq Hr. destruct (Hcase q pr Hq) as [[-> ->]|[Hne Hq']]; [rewrite Hcb in Hr; by apply elem_of_nil in Hr|by apply (W9 q pr)].
  - intros q pr r Hq Hr. destruct (Hcase q pr Hq) as [[-> ->]|[Hne Hq']]; [rewrite Hcb in Hr; by apply elem_of_nil in Hr|by apply (W10 q pr)].
Qed.

(** Callers use processes outside the cache: a cached process is idle and was handed to none. *)
Lemma held_outOfCache p w : wf [] None w -> held p w -> outOfCache p w.
Proof.
  unfold held, outOfCache. intros Hwf Hh. destruct (processes w !! p) as [proc|] eqn:Hp; [|done]. cbn. f_equal.
  destruct (m_isInProcessCache proc) eqn:Hf; [|done]. destruct (wf_cacheable _ _ _ Hwf p proc Hp ltac:(done) Hf) as (Hi & _ & _ & Hu).
  destruct Hh; [congruence|done].
Qed.

(** A process with a page or a provisional page goes on. *)
Lemma startLoad_ok env p url w :
  wf [] None w -> sized w -> (countOf pageCount p w + countOf provisionalPageCount p w <> 0)%nat ->
  exists w', didStartProvisionalLoadForMainFrame env p url w = Some w' /\ wf [] None w' /\ sized w'.
Proof.
  intros Hwf Hsz He. unfold didStartProvisionalLoadForMainFrame, countOf in *. destruct (processes w !! p) as [proc|] eqn:Hp; [|done].
  assert (Hbusy : forall q, pageCount q = pageCount proc -> provisionalPageCount q = provisionalPageCount proc -> ~ idle q) by (intros q E1 E2 (? & ? & _); lia).
  assert (Ho : outOfCache p w) by (apply held_outOfCache; [done|]; unfold held; rewrite Hp; right; by apply Hbusy).
  rewrite (outOfCache_flag p w proc Ho Hp).
  assert (Htouch : forall f, (forall q, m_isInProcessCache (f q) = m_isInProcessCache q /\ m_isResponsiveCallbacks (f q) = m_isResponsiveCallbacks q /\
      pageCount (f q) = pageCount q /\ provisionalPageCount (f q) = provisionalPageCount q /\ isRegistered (f q) = isRegistered q) ->
    wf [] None (update p f w) /\ sized (update p f w)).
  { intros f Hf. apply touch_ok; try done. intros q Hq. rewrite Hp in Hq. apply (inj Some) in Hq. subst q. destruct (Hf proc) as (F1 & F2 & F3 & F4 & F5).
    split_and!; try done; [intros _; apply busy_kept; by apply Hbusy|]. apply registration_same. unfold registrationOf, shouldBeRegistered. by rewrite F3, F4, F5. }
  case_bool_decide; [by exists w|]. destruct url as [domain|]; [|by exists w]. case_bool_decide; [|eexists; split; [done|]; by apply Htouch].
  unfold disableServiceWorkers. rewrite Hp. destruct (isRunningServiceWorkers proc) eqn:Hs; cbn [mbind option_bind]; [|eexists; split; [done|]; by apply Htouch].
  set (w1 := update p (fun q => q <| isRunningServiceWorkers := false |>) w).
  assert (Hm : maybeShutDown env p w1 = Some w1).
  { unfold maybeShutDown, w1. rewrite lookup_update, decide_True, Hp by done. cbn [fmap option_fmap option_map].
    assert (canTerminateAuxiliaryProcess (proc <| isRunningServiceWorkers := false |>) = false) as ->; [|by rewrite orb_true_r].
    unfold canTerminateAuxiliaryProcess. cbn. destruct (decide (pageCount proc = 0%nat)); [rewrite (bool_decide_false (provisionalPageCount _ = _)) by lia | by rewrite bool_decide_false].
    by rewrite !andb_false_r. }
  rewrite Hm. cbn [mbind option_bind]. eexists. split; [done|].
  destruct (Htouch (fun q => q <| isRunningServiceWorkers := false |> <| m_registrableDomain := Some None |>)) as [G1 G2]; [done|].
  assert (update p (fun q => q <| m_registrableDomain := Some None |>) w1 = update p (fun q => q <| isRunningServiceWorkers := false |> <| m_registrableDomain := Some None |>) w) as ->; [|done].
  unfold w1, update. cbn. by rewrite alter_alter_eq.
Qed.

Lemma updateCapacity_ok configured w :
  wf [] None w -> sized w -> exists w', updateCapacity configured w = Some w' /\ wf [] None w' /\ sized w'.
Proof.
  intros Hwf (S1 & S2 & S3 & S4). unfold updateCapacity. set (c := if negb configured then 0 else capacityForMemory). set (w1 := w <| m_capacity := c |>).
  assert (Hwf1 : wf [] None w1) by (by destruct Hwf). pose proof capacityForMemory_nonneg as Hn. case_bool_decide as Hc.
  - destruct (clearCache_spec None w1 Hwf1) as (w' & E & G1 & G2 & _ & G3). exists w'. split; [done|]. split; [done|].
    unfold sized, size, capacity. rewrite (rm_capacity _ _ _ G2), G3, Hc, map_size_empty. split_and!; [lia..|by left|]. by apply (removal_registered _ _ _ G2).
  - exists w1. split; [done|]. split; [done|]. assert (Hcap : capacity w1 = capacityForMemory) by (change (c <> 0) in Hc; change (c = capacityForMemory); unfold c in *; by destruct configured).
    unfold sized. rewrite Hcap. change (size w1) with (size w). split_and!; [|lia|by right|done]. destruct S3; lia.
Qed.

Lemma cacheEvent_ok e w : wf [] None w -> sized w -> enabled e w -> exists w', exec e w = Some w' /\ wf [] None w' /\ sized w'.
Proof.
  intros Hwf Hsz He.
  assert (Htouch : forall p f, held p w \/ outOfCache p w -> (forall q, m_isInProcessCache (f q) = m_isInProcessCache q /\ m_isResponsiveCallbacks (f q) = m_isResponsiveCallbacks q /\
      (kept q -> kept (f q)) /\ (registration q -> registration (f q))) ->
    exists w', Some (update p f w) = Some w' /\ wf [] None w' /\ sized w').
  { intros p f Ho Hf. assert (Ho' : outOfCache p w) by (destruct Ho; [by apply held_outOfCache|done]). destruct (touch_ok p f w Hwf Hsz Ho'); [auto|]. by eexists. }
  assert (Hfr : forall w', wf [] None w' -> removal [] w w' -> wf [] None w' /\ sized w') by (intros w' H1 H2; split; [done|by eapply removal_sized]).
  destruct e; cbn [exec enabled] in *.
  - apply newProcess_ok; try done. by do 3 right; left.
  - apply newProcess_ok; try done. apply busy_kept. by intros (_ & _ & _ & _ & ?).
  - by apply startLoad_ok.
  - unfold addExistingWebPage. pose proof (held_outOfCache p w Hwf He) as Ho. destruct (processes w !! p) as [proc|] eqn:Hp; [|by exists w].
    rewrite (outOfCache_flag p w proc Ho Hp). apply Htouch; [by right|]. intros q. split_and!; try done. intros _. apply busy_kept. intros (? & _). done.
  - by apply release_ok; [..|eapply count_busy; [exact He|by intros q []]|].
  - apply Htouch; [by left|]. intros q. split_and!; try done. intros _. apply busy_kept. intros (_ & ? & _). done.
  - by apply (releaseLast_ok env provisionalPageCount); [..|intros q (_ & ? & _)|].
  - apply Htouch; [by left|]. intros q. split_and!; try done. intros _. apply busy_kept. intros (_ & _ & ? & _). done.
  - by apply (releaseLast_ok env suspendedPageCount); [..|intros q (_ & _ & ? & _)|].
  - apply Htouch; [by left|]. intros q. split_and!; try done. intros _. apply busy_kept. intros (_ & _ & _ & ? & _). done.
  - by apply release_ok; [..|eapply count_busy; [exact He|by intros q (_ & _ & _ & ? & _)]|].
  - by apply enableServiceWorkers_ok.
  - unfold disableServiceWorkers. destruct (processes w !! p) as [proc|] eqn:Hp; [|by exists w]. destruct (isRunningServiceWorkers proc) eqn:Hs; [|by exists w].
    apply release_ok; try done. intros q Hq (_ & _ & _ & _ & ?). rewrite Hp in Hq. apply (inj Some) in Hq. congruence.
  - unfold reuseProcess. destruct (processes w !! p) as [proc|] eqn:Hp; [|by exists w]. destruct (isTerminated proc) eqn:Ht; [by exists w|].
    destruct (m_isInProcessCache proc) eqn:Hf.
    + destruct (removeProcess_spec None false p proc w Hwf Hp Hf) as (w' & E & G1 & G2 & _); [by apply (wf_cacheable _ _ _ Hwf p)|]. exists w'. split; [done|by apply Hfr].
    + apply Htouch; [right; unfold outOfCache; rewrite Hp; cbn; by rewrite Hf|]. intros q. split_and!; try done. intros _. by do 3 right; left.
  - destruct (takeProcess_ok domain store w Hwf Hsz) as (w' & r & -> & G1 & G2 & _). by exists w'.
  - by apply callbacks_ok.
  - destruct (dispatchedAnswers w) as [|r l]; [by exists w|]. apply answerRequest_spec; [by destruct Hwf|done].
  - unfold processDidTerminateOrFailedToLaunch. destruct (callbacks_ok env false p w Hwf Hsz) as (w1 & -> & G1 & G2). cbn [mbind option_bind].
    apply (shutDown_spec None); auto. intros proc Hp Hf. by apply (wf_cacheable _ _ _ G1 p).
  - destruct (clearCache_spec None w Hwf) as (w' & E & G1 & G2 & _). exists w'. split; [done|by apply Hfr].
  - destruct (clearSession_spec None session w Hwf) as (w' & E & G1 & G2 & _). exists w'. split; [done|by apply Hfr].
  - by apply updateCapacity_ok.
  - eexists. split; [done|]. unfold setApplicationIsActive. destruct isActive; [by destruct Hwf|]. destruct (bool_decide _); [done|by destruct Hwf].
  - destruct (clearCache_spec None (w <| m_evictionTimer := false |>)) as (w' & E & G1 & G2 & _); [by destruct Hwf|]. exists w'. split; [done|]. split; [done|]. eapply removal_sized; [exact G2|exact Hsz].
  - unfold inCache in He. destruct (processes w !! p) as [proc|] eqn:Hp; [|done]. cbn in He. apply (inj Some) in He.
    destruct (removeProcess_spec None true p proc w Hwf Hp He) as (w' & E & G1 & G2 & _); [by apply (wf_cacheable _ _ _ Hwf p)|]. exists w'. split; [done|by apply Hfr].
Qed.

(** An entry of the cache: a request that waits, or the process kept for a domain. *)
Definition entryOf (k : nat + nat) w : option nat :=
  match k with inl request => m_pendingAddRequests w !! request | inr domain => m_processesPerRegistrableDomain w !! domain end.

Lemma entry_flag p proc w : wf [] None w -> processes w !! p = Some proc -> m_isInProcessCache proc = true <-> exists k, entryOf k w = Some p.
Proof.
  intros Hwf Hp. rewrite (wf_flag _ _ _ Hwf p proc Hp). split.
  - intros [[r Hr]|[[d Hd]|Hin]]; [by exists (inl r)|by exists (inr d)|by apply elem_of_nil in Hin].
  - intros [[r|d] Hk]; [left; by exists r|right; left; by exists d].
Qed.

Lemma entry_unique k k' p w : wf [] None w -> entryOf k w = Some p -> entryOf k' w = Some p -> k = k'.
Proof.
  intros Hwf Hk Hk'. destruct k as [r|d], k' as [r'|d']; cbn in *.
  - f_equal. by apply (wf_injective _ _ _ Hwf r r' p).
  - by destruct (wf_disjoint _ _ _ Hwf r d' p Hk).
  - by destruct (wf_disjoint _ _ _ Hwf r' d p Hk').
  - destruct (wf_domain _ _ _ Hwf d p Hk) as [H1 _], (wf_domain _ _ _ Hwf d' p Hk') as [H2 _]. congruence.
Qed.

Lemma create_ok : wf [] None create /\ sized create.
Proof.
  split; [split; try done|by unfold sized; cbn; split_and!; [..|left|apply map_Forall_empty]].
  split; [constructor|]. by intros p ?%elem_of_nil.
Qed.

Lemma run_ok h w w' : run h w w' -> wf [] None w -> sized w -> wf [] None w' /\ sized w'.
Proof.
  induction 1 as [|e h w w1 w' He E Hrun IH]; [done|]. intros Hwf Hsz. destruct (cacheEvent_ok e w Hwf Hsz He) as (w2 & E2 & G1 & G2). rewrite E in E2. apply (inj Some) in E2. subst w2. by apply IH.
Qed.

Lemma reached_ok h w : run h create w -> wf [] None w /\ sized w.
Proof. intros Hr. destruct create_ok. by eapply run_ok. Qed.

(** *** A process that crashes while the cache waits for its answer *)

Lemma answerRequests_stale env isResponsive requests w :
  (forall r, r ∈ requests -> m_pendingAddRequests w !! r = None) -> answerRequests env isResponsive requests w = Some w.
Proof.
  induction requests as [|r requests IH]; intros Hn; [done|]. cbn. unfold answerRequest. rewrite (Hn r) by (by left). cbn. apply IH. intros x Hx. apply Hn. by right.
Qed.

Lemma answerRequests_no env p r requests w :
  wf [] None w -> is_Some (processes w !! p) -> r ∈ requests -> m_pendingAddRequests w !! r = Some p ->
  (forall x q, x ∈ requests -> m_pendingAddRequests w !! x = Some q -> q = p) ->
  exists w', answerRequests env false requests w = Some w' /\ disconnected w' = disconnected w ++ [p] /\ isTerminated <$> processes w' !! p = Some true /\
    m_isInProcessCache <$> processes w' !! p = Some false.
Proof.
  intros Hwf [proc Hproc]. induction requests as [|x requests IH]; intros Hin Hr Hall; [by apply elem_of_nil in Hin|]. cbn. unfold answerRequest at 1.
  destruct (m_pendingAddRequests w !! x) as [q|] eqn:Hx.
  - assert (q = p) as -> by (eapply Hall; [by left|done]). destruct (destroy_spec _ _ _ _ (deletePending_wf _ _ _ _ _ Hwf Hx)) as (w1 & -> & G1 & G2 & G3 & _ & G4 & G5). cbn [mbind option_bind].
    assert (Hproc1 : processes w1 !! p = Some (proc <| m_isInProcessCache := false |> <| isTerminated := true |>)) by (rewrite G5; cbn; by rewrite lookup_alter_eq, Hproc).
    exists w1. rewrite Hproc1. split_and!; try done. apply answerRequests_stale. intros y Hy. rewrite G3. destruct (_ !! y) as [q|] eqn:Hyq; [|done]. exfalso.
    assert (q = p) as ->. { apply (Hall y); [by right|]. cbn in Hyq. by apply lookup_delete_Some in Hyq as [_ ?]. }
    assert (Hf : m_isInProcessCache (proc <| m_isInProcessCache := false |> <| isTerminated := true |>) = true); [|done].
    apply (wf_flag _ _ _ G1 p _ Hproc1). left. exists y. by rewrite G3.
  - cbn [mbind option_bind]. apply elem_of_cons in Hin as [<-|Hin]; [congruence|]. apply IH; try done. intros y q Hy. apply Hall. by right.
Qed.

(** *** The theorems *)

(** C35: The cache and its processes agree in every state that is reached, as long as callers
    put pages, provisional or suspended pages and scopes only in processes that were handed to
    them since they last left the cache, or that are in use, and loads start in processes with
    a page.  A process has its flag exactly when it has an entry, and has one entry only; a
    cached process is unused, runs, is in the list of no data store and has a domain, under
    which it is kept; there are at most as many as the capacity, which is at most 30.  Then no
    operation fails the release assertions on pages, registration, domain and flag in
    [CachedProcess], [setIsInProcessCache], [addProcess], [removeProcess],
    [addExistingWebPage] and [didStartProvisionalLoadForMainFrame]. *)
Theorem process_cache_invariant h w :
  run h create w ->
  (forall p proc, processes w !! p = Some proc ->
     (m_isInProcessCache proc = true <-> exists k, entryOf k w = Some p) /\ (m_isInProcessCache proc = true -> cacheable proc /\ isRegistered proc = false)) /\
  (forall k k' p, entryOf k w = Some p -> entryOf k' w = Some p -> k = k') /\
  (forall domain p, entryOf (inr domain) w = Some p -> registrableDomain <$> processes w !! p = Some (Some domain)) /\
  size w <= capacity w <= 30 /\
  (forall e, enabled e w -> is_Some (exec e w)).
Proof.
  intros Hrun. destruct (reached_ok h w Hrun) as [Hwf Hsz]. split_and!.
  - intros p proc Hp. split; [by apply entry_flag|]. intros Hf. pose proof (wf_cacheable _ _ _ Hwf p proc Hp ltac:(done) Hf) as Hc. split; [done|].
    destruct Hc as ((E1 & E2 & _) & _), Hsz as (_ & _ & _ & Hreg). rewrite (Hreg p proc Hp). unfold shouldBeRegistered. by rewrite E1, E2.
  - intros k k' p. by apply entry_unique.
  - intros domain p Hd. by apply (wf_domain _ _ _ Hwf).
  - apply Hsz.
  - destruct Hsz as (_ & _ & [-> | ->] & _); [lia|apply capacityForMemory_le].
  - intros e He. destruct (cacheEvent_ok e w Hwf Hsz He) as (w' & -> & _). by eexists.
Qed.

(** No process is left over: where processes may be terminated, one that has no page, no
    load, no suspended page and no service worker, that nothing protects and no caller was
    handed, has been shut down or is in the cache. *)
Theorem unused_process_is_cached_or_shut_down h w p proc :
  run h create w -> processes w !! p = Some proc -> processTerminationEnabled = true -> idle proc -> usable proc = false ->
  isTerminated proc = true \/ exists k, entryOf k w = Some p.
Proof.
  intros Hrun Hp Hen Hid Hu. destruct (reached_ok h w Hrun) as [Hwf _].
  destruct (wf_kept _ _ _ Hwf p proc Hp ltac:(done)) as [?|[?|[Hf|[?|?]]]]; [by left|done| |congruence..]. right. by apply (entry_flag p proc).
Qed.

(** A process taken from the cache is one of the domain and the data store it is taken for,
    unused and running; it has left the cache and every other entry stays.  Nothing is taken
    exactly when the domain has no process, or one of another data store. *)
Theorem take_returns_matching_process h w domain store :
  run h create w ->
  exists w' r, takeProcess domain store w = Some (w', r) /\
    match r with
    | Some p => exists proc, processes w !! p = Some proc /\ registrableDomain proc = Some domain /\ websiteDataStore proc = store /\ cacheable proc /\
        outOfCache p w' /\ (forall k, entryOf k w' = if decide (k = inr domain) then None else entryOf k w)
    | None => w' = w /\ forall p proc, entryOf (inr domain) w = Some p -> processes w !! p = Some proc -> websiteDataStore proc <> store
    end.
Proof.
  intros Hrun. destruct (reached_ok h w Hrun) as [Hwf Hsz]. destruct (takeProcess_ok domain store w Hwf Hsz) as (w' & r & E & _ & _ & Hr).
  exists w', r. split; [done|]. destruct r as [p|]; [|done]. destruct Hr as (proc & Hp & Hd & Hst & G1 & G2 & G3). exists proc.
  destruct (wf_domain _ _ _ Hwf domain p Hd) as [Hdom _]. rewrite Hp in Hdom. cbn in Hdom. apply (inj Some) in Hdom. split_and!; try done.
  - apply (wf_cacheable _ _ _ Hwf p proc Hp); [done|]. apply (entry_flag p proc w Hwf Hp). by exists (inr domain).
  - unfold outOfCache. by rewrite G1, lookup_alter_eq, Hp.
  - intros [k|k]; cbn; [rewrite G3; by rewrite decide_False|]. rewrite G2. destruct (decide (k = domain)) as [->|Hne]; [by rewrite lookup_delete_eq, decide_True|].
    rewrite lookup_delete_ne by done. rewrite decide_False; [done|]. congruence.
Qed.

(** When a session ends no process of it stays in the cache or waits to enter it, and, the
    session being ephemeral, none of its processes is accepted from then on. *)
Theorem session_end_empties_cache h w session :
  run h create w ->
  exists w', clearAllProcessesForSession session w = Some w' /\
    forall p proc, processes w' !! p = Some proc -> websiteDataStore proc = session ->
      m_isInProcessCache proc = false /\ (forall k, entryOf k w' <> Some p) /\
      (forall env, isEphemeral session = true -> hasPagesUsing env session = false -> addProcessIfPossible env p w' = Some (w', false)).
Proof.
  intros Hrun. destruct (reached_ok h w Hrun) as [Hwf _]. destruct (clearSession_spec None session w Hwf) as (w' & E & G1 & _ & G3). exists w'. split; [done|].
  intros p proc Hp Hs. assert (Hno : forall k, entryOf k w' <> Some p).
  { intros k Hk. apply (G3 (match k with inl r => r | inr d => d end) p); [destruct k; auto|]. rewrite Hp. cbn. by f_equal. }
  split_and!; [|done|].
  - destruct (m_isInProcessCache proc) eqn:Hf; [|done]. apply (entry_flag p proc w' G1 Hp) in Hf as [k Hk]. by destruct (Hno k).
  - intros env He Hn. unfold addProcessIfPossible. rewrite Hp. unfold canCacheProcess. rewrite Hs, He, Hn. cbn. by rewrite andb_false_r.
Qed.

(** A process that crashes while the cache waits for its answer is shut down twice: by the
    entry that its answer destroys, and by the crash itself, so the pool is asked to
    disconnect a process it does not have any more. *)
Theorem crash_while_pending_disconnects_twice h w env p proc request :
  run h create w -> processes w !! p = Some proc -> entryOf (inl request) w = Some p -> request ∈ m_isResponsiveCallbacks proc ->
  exists w', exec (Crash env p) w = Some w' /\ disconnected w' = disconnected w ++ [p; p].
Proof.
  intros Hrun Hp Hr Hin. destruct (reached_ok h w Hrun) as [Hwf Hsz]. cbn [exec]. unfold processDidTerminateOrFailedToLaunch, callResponsiveCallbacks. rewrite Hp.
  set (w1 := update p _ w). assert (Hp1 : processes w1 !! p = Some (proc <| m_isResponsiveCallbacks := [] |>)) by (unfold w1; by rewrite lookup_update, decide_True, Hp).
  assert (Hwf1 : wf [] None w1) by (by apply forget_callbacks_wf).
  destruct (answerRequests_no env p request (m_isResponsiveCallbacks proc) w1 Hwf1) as (w2 & -> & G1 & _ & G3); [by eexists|done|done| |].
  { intros x q Hx Hq. by apply (wf_callbacks _ _ _ Hwf p proc x). }
  cbn [mbind option_bind]. unfold shutDown. apply fmap_Some in G3 as (proc2 & Hp2 & Hf2). rewrite Hp2, <- Hf2. cbn [mbind option_bind]. eexists. split; [done|].
  change (disconnected w2 ++ [p] = disconnected w ++ [p; p]). rewrite G1. by rewrite <- app_assoc.
Qed.
End with_pool.

(** The entry that comes first in the list of a map. *)
#[local] Instance firstEntry : RandomEntry.
Proof.
  refine {| random := fun m => match map_to_list m with x :: _ => fst x | [] => 0%nat end |}.
  intros m Hm. destruct (map_to_list m) as [|[k v] l] eqn:Hl; [by apply map_to_list_empty_iff in Hl|].
  exists v. apply elem_of_map_to_list. rewrite Hl. by left.
Defined.

(** A machine of 8 GB and a pool that terminates processes; session 2 is ephemeral. *)
Definition exec8 := (exec true false (Nat.eqb 2) (8 * GB)).
Definition run8 := (run true false (Nat.eqb 2) (8 * GB)).

Fixpoint execAll (h : list Event) (w : Pool) : option Pool := match h with [] => Some w | e :: h => w ← exec8 e w; execAll h w end.
Fixpoint allEnabled (h : list Event) (w : Pool) : Prop :=
  match h with [] => True | e :: h => enabled e w /\ match exec8 e w with Some w => allEnabled h w | None => False end end.
Lemma execAll_run h : forall w w', allEnabled h w -> execAll h w = Some w' -> run8 h w w'.
Proof.
  induction h as [|e h IH]; intros w w'; cbn; [intros _ [= <-]; apply run_nil|]. intros [He Hh]. destruct (exec8 e w) as [w1|] eqn:E; [|done].
  intros Hw. eapply run_cons; [exact He|exact E|]. by apply IH.
Qed.

Definition calm : Environment := mkEnvironment false (fun _ => false) (fun _ => false).
Definition openAndClose (p store domain : nat) : list Event := [NewProcess p store; AddPage p; StartLoad calm p (Some (Some domain)); RemovePage calm p].
(** Process 1 is cached for domain 7, process 2 waits for its answer, process 3 is of an
    ephemeral session that has ended, process 4 still has a page. *)
Definition exampleEvents : list Event :=
  [UpdateCapacity true] ++ openAndClose 1 1 7 ++ [Answer calm true 1] ++ openAndClose 2 1 8 ++ openAndClose 3 2 9 ++ [NewProcess 4 1; AddPage 4].
Definition exampleFinal : Pool := default create (execAll exampleEvents create).

Lemma cacheExample_run : run8 exampleEvents create exampleFinal.
Proof. apply execAll_run; vm_compute; [|reflexivity]. repeat (split; [first [exact I | reflexivity | discriminate | left; reflexivity]|]). exact I. Qed.

Lemma process_cache_invariant_witness :
  (entryOf (inr 7%nat) exampleFinal = Some 1%nat /\ entryOf (inl 2%nat) exampleFinal = Some 2%nat) /\ size exampleFinal <= capacity exampleFinal <= 30.
Proof.
  split; [split; vm_compute; reflexivity|]. destruct (process_cache_invariant true false (Nat.eqb 2) (8 * GB) exampleEvents exampleFinal cacheExample_run) as (_ & _ & _ & Hs & _). exact Hs.
Defined.

Lemma unused_process_is_cached_or_shut_down_witness :
  exists proc, processes exampleFinal !! 3%nat = Some proc /\ (isTerminated proc = true \/ exists k, entryOf k exampleFinal = Some 3%nat).
Proof.
  eexists. split; [vm_compute; reflexivity|].
  eapply (unused_process_is_cached_or_shut_down true false (Nat.eqb 2) (8 * GB) exampleEvents); [exact cacheExample_run|vm_compute; reflexivity|reflexivity|repeat split|reflexivity].
Defined.

Lemma take_returns_matching_process_witness :
  exists w' r, takeProcess 7 1 exampleFinal = Some (w', r) /\ r = Some 1%nat /\ match r with Some p => outOfCache p w' | None => False end.
Proof.
  destruct (take_returns_matching_process true false (Nat.eqb 2) (8 * GB) exampleEvents exampleFinal 7 1 cacheExample_run) as (w' & r & E & Hr).
  exists w', r. assert (r = Some 1%nat) as -> by (apply (f_equal (fmap snd)) in E; vm_compute in E; congruence).
  destruct Hr as (proc & _ & _ & _ & _ & Ho & _). split; [exact E|]. split; [reflexivity|exact Ho].
Defined.

Lemma session_end_empties_cache_witness :
  exists w', clearAllProcessesForSession 1 exampleFinal = Some w' /\ forall k, entryOf k w' <> Some 2%nat.
Proof.
  destruct (session_end_empties_cache true false (Nat.eqb 2) (8 * GB) exampleEvents exampleFinal 1 cacheExample_run) as (w' & E & Hw). exists w'. split; [exact E|].
  assert (exists proc, processes w' !! 2%nat = Some proc /\ websiteDataStore proc = 1%nat) as (proc & Hp & Hs).
  { apply (f_equal (fmap (fun w => processes w !! 2%nat))) in E. vm_compute in E. eexists. split; [symmetry; apply (inj Some); exact E|reflexivity]. }
  exact (proj1 (proj2 (Hw 2%nat proc Hp Hs))).
Defined.

Lemma crash_while_pending_disconnects_twice_witness :
  exists w', exec8 (Crash calm 2) exampleFinal = Some w' /\ disconnected w' = [3; 2; 2]%nat.
Proof.
  eapply (crash_while_pending_disconnects_twice true false (Nat.eqb 2) (8 * GB) exampleEvents exampleFinal calm 2 _ 2); [exact cacheExample_run|vm_compute; reflexivity|vm_compute; reflexivity|].
  apply list_elem_of_singleton. reflexivity.
Defined.
End WebProcessCache.
