(* ===== verification/UserMedia.v ===== *)
(** * UIProcess/UserMediaPermissionRequestManagerProxy.cpp: access to cameras and microphones

    The manager of the requests of one page for capture devices, with the request objects of
    UserMediaPermissionRequestProxy.cpp.  The requests are shared objects, kept in a store and
    named by numbers.  The application that is asked for permission, the storage of salts, the
    enumeration of devices and the messages that are answered are the environment: what the
    manager waits for is a list of tasks, completed in any order with any result. *)

From S2P Require Import Prelude.

Module UserMedia.

Inductive RequestType := UserMedia | DisplayMedia.
#[global] Instance RequestType_eq_decision : EqDecision RequestType.
Proof. solve_decision. Defined.
Inductive DenialReason := NoConstraints | UserMediaDisabled | NoCaptureDevices | InvalidConstraint | HardwareError | PermissionDenied | OtherFailure.
#[global] Instance DenialReason_eq_decision : EqDecision DenialReason.
Proof. solve_decision. Defined.
Inductive RequestAction := Deny | Grant | Prompt.
Inductive PermissionInfo := Error | Unknown | Granted.
Inductive DeviceType := Camera | Microphone | Speaker | OtherDevice.
#[global] Instance DeviceType_eq_decision : EqDecision DeviceType.
Proof. solve_decision. Defined.

Record CaptureDevice := mkDevice { persistentId : string; deviceType : DeviceType; label : string; groupId : string; enabled : bool }.

(** A [UserMediaPermissionRequestProxy]; [isPending] says that it has its manager. *)
Record Request := mkRequest {
  isPending : bool;
  userMediaID : nat;
  mainFrameID : nat;
  frameID : nat;
  documentOrigin : nat;
  topLevelOrigin : nat;
  eligibleVideo : list CaptureDevice;
  eligibleAudio : list CaptureDevice;
  requestType : RequestType;
  userGesture : bool;
  hasPersistentAccess : bool;
  handler : option nat
}.
#[global] Instance eta_Request : Eta Request := fun r =>
  mkRequest (isPending r) (userMediaID r) (mainFrameID r) (frameID r) (documentOrigin r) (topLevelOrigin r) (eligibleVideo r) (eligibleAudio r) (requestType r) (userGesture r) (hasPersistentAccess r) (handler r).

Record DeniedRequest := mkDenied { d_mainFrameID : nat; d_documentOrigin : nat; d_topLevelOrigin : nat; isAudioDenied : bool; isVideoDenied : bool; isScreenCaptureDenied : bool }.

(** What the manager asks of its page, its process and the preferences. *)
Record Page := mkPage {
  hasRunningProcess : bool;
  (* the main frame with the origin of its URL *)
  mainFrame : option (nat * nat);
  webFrames : list nat;
  activeOrigin : nat;
  isViewVisible : bool;
  isMediaStreamCaptureMuted : bool;
  (* the page is controlled by an automation session, with its decision *)
  automation : option bool;
  mockDevicesWithoutPrompt : bool
}.

(** Who waits for the answer of [checkUserMediaPermissionForOrigin]. *)
Inductive CheckThen := ForRequest (r : nat) | ForDevicesChanged | ForEnumeration (frame origin top callback : nat).
Inductive Task :=
| PermissionCheck (requestID : nat) (then_ : CheckThen)
| SaltForRequest (r : nat)
| Validation (r : nat)
| SaltForGrant (r : nat)
| StartCapture (r : nat)
| CaptureReply
| SaltForEnumeration (requestID frame origin top : nat) (persistent : bool) (callback : nat)
| DevicesForEnumeration (reveal : bool) (callback : nat).

(** Messages to the web process, answers to its requests and questions to the application. *)
Inductive Output :=
| UserMediaAccessWasDenied (id : nat) (reason : DenialReason) (constraint : option string)
| UserMediaAccessWasGranted (id : nat) (request : nat) (audio video : option CaptureDevice)
| CaptureDevicesChanged
| StopMediaCapture
| SpeechDecision (callback : nat) (granted : bool)
| Devices (callback : nat) (devices : list CaptureDevice).

(** What the user was asked, or what was decided without asking. *)
Record Consent := mkConsent { c_frame : nat; c_origin : nat; c_top : nat; c_audio : bool; c_video : bool; c_display : bool }.

Record Manager := mkManager {
  page : Page;
  captureEnabled : bool;
  requests : gmap nat Request;
  nextRequest : nat;
  m_currentUserMediaRequest : option nat;
  m_pendingUserMediaRequests : list nat;
  m_pendingDeviceRequests : list nat;
  (* [generateRequestID] *)
  uniqueRequestID : nat;
  m_rejectionTimer : bool;
  m_pendingRejections : list nat;
  m_pregrantedRequests : list nat;
  m_grantedRequests : list nat;
  m_deniedRequests : list DeniedRequest;
  m_hasFilteredDeviceList : bool;
  m_hasPendingCapture : Z;
  tasks : list Task;
  outputs : list Output;
  (* the questions the application was asked, with what they showed, and the consents given *)
  prompts : list (nat * Consent);
  consents : list Consent;
  crashed : bool
}.
#[global] Instance eta_Manager : Eta Manager := fun r =>
  mkManager (page r) (captureEnabled r) (requests r) (nextRequest r) (m_currentUserMediaRequest r) (m_pendingUserMediaRequests r) (m_pendingDeviceRequests r) (uniqueRequestID r)
    (m_rejectionTimer r) (m_pendingRejections r) (m_pregrantedRequests r) (m_grantedRequests r) (m_deniedRequests r) (m_hasFilteredDeviceList r) (m_hasPendingCapture r)
    (tasks r) (outputs r) (prompts r) (consents r) (crashed r).

Section manager.
Implicit Types w : Manager.
(** [SecurityOrigin::isSameSchemeHostPort]. *)
Context (sameOrigin : nat -> nat -> bool).
(** Whether a [CaptureDevice] is enabled when its constructor is not told. *)
Context (enabledByDefault : bool).

Definition start (t : Task) w : Manager := w <| tasks := tasks w ++ [t] |>.
Definition send (o : Output) w : Manager := w <| outputs := outputs w ++ [o] |>.
Definition crash w : Manager := w <| crashed := true |>.
Definition onRequest (r : nat) (f : Request -> Request) w : Manager := w <| requests := alter f r (requests w) |>.
Definition running w : bool := hasRunningProcess (page w).

(** ** Requests *)

Definition hasAudioDevice (q : Request) : bool := negb (bool_decide (length (eligibleAudio q) = 0%nat)).
Definition hasVideoDevice (q : Request) : bool := negb (bool_decide (length (eligibleVideo q) = 0%nat)).
Definition requiresDisplayCapture (q : Request) : bool := bool_decide (requestType q = DisplayMedia) && hasVideoDevice q.
Definition requiresVideoCapture (q : Request) : bool := negb (requiresDisplayCapture q) && hasVideoDevice q.
Definition requiresAudioCapture (q : Request) : bool := hasAudioDevice q.
Definition audioDevice (q : Request) : option CaptureDevice := head (eligibleAudio q).
Definition videoDevice (q : Request) : option CaptureDevice := head (eligibleVideo q).

(** [decisionCompletionHandler]: the handler is taken out. *)
Definition takeHandler (r : nat) w : option nat * Manager :=
  (requests w !! r ≫= handler, onRequest r (fun q => q <| handler := None |>) w).
Definition invalidate (r : nat) w : Manager :=
  let w := onRequest r (fun q => q <| isPending := false |>) w in
  match takeHandler r w with (Some n, w) => send (SpeechDecision n false) w | (None, _) => w end.

(** What a request asks for. *)
Definition question (q : Request) : Consent :=
  mkConsent (frameID q) (documentOrigin q) (topLevelOrigin q) (requiresAudioCapture q) (requiresVideoCapture q) (requiresDisplayCapture q).

(** ** Decisions that were made before *)

Fixpoint searchIn (w : Manager) (frame origin top : nat) (checkForAudio checkForVideo : bool) (l : list nat) : bool :=
  match l with
  | [] => false
  | g :: l =>
      match requests w !! g with
      | None => searchIn w frame origin top checkForAudio checkForVideo l
      | Some q =>
          if requiresDisplayCapture q || negb (sameOrigin (documentOrigin q) origin) || negb (sameOrigin (topLevelOrigin q) top) || negb (Nat.eqb (frameID q) frame)
          then searchIn w frame origin top checkForAudio checkForVideo l
          else
            let checkForVideo := checkForVideo && negb (requiresVideoCapture q) in
            let checkForAudio := checkForAudio && negb (requiresAudioCapture q) in
            if checkForVideo || checkForAudio then searchIn w frame origin top checkForAudio checkForVideo l else true
      end
  end.
Definition searchForGrantedRequest (frame origin top : nat) (needsAudio needsVideo : bool) w : bool :=
  if isMediaStreamCaptureMuted (page w) then false else searchIn w frame origin top needsAudio needsVideo (m_grantedRequests w).

Definition deniedBy (frame origin top : nat) (needsAudio needsVideo needsScreenCapture : bool) (d : DeniedRequest) : bool :=
  sameOrigin (d_documentOrigin d) origin && sameOrigin (d_topLevelOrigin d) top && Nat.eqb (d_mainFrameID d) frame &&
  (isScreenCaptureDenied d && needsScreenCapture ||
   (if isAudioDenied d && isVideoDenied d then needsAudio && needsVideo else isAudioDenied d && needsAudio || isVideoDenied d && needsVideo)).
Definition wasRequestDenied (frame origin top : nat) (needsAudio needsVideo needsScreenCapture : bool) w : bool :=
  existsb (deniedBy frame origin top needsAudio needsVideo needsScreenCapture) (m_deniedRequests w).

Definition wasGrantedVideoOrAudioAccess (frame origin top : nat) w : bool :=
  existsb (fun g => match requests w !! g with
                    | Some q => negb (requiresDisplayCapture q) && sameOrigin (documentOrigin q) origin && sameOrigin (topLevelOrigin q) top && Nat.eqb (frameID q) frame &&
                                (requiresVideoCapture q || requiresAudioCapture q)
                    | None => false end) (m_grantedRequests w).

Definition getRequestAction (q : Request) w : RequestAction :=
  let requestingScreenCapture := bool_decide (requestType q = DisplayMedia) in
  let requestingCamera := negb requestingScreenCapture && hasVideoDevice q in
  let requestingMicrophone := hasAudioDevice q in
  if negb (userGesture q) && wasRequestDenied (frameID q) (documentOrigin q) (topLevelOrigin q) requestingMicrophone requestingCamera requestingScreenCapture w then Deny
  else if requestingScreenCapture then Prompt
  else if searchForGrantedRequest (frameID q) (documentOrigin q) (topLevelOrigin q) requestingMicrophone requestingCamera w then Grant else Prompt.

(** ** The queue *)

(** The frame is there and the page still shows the document that asks. *)
Definition stillShown (frame top : nat) w : bool := bool_decide (frame ∈ webFrames (page w)) && sameOrigin (activeOrigin (page w)) top.

(** [getUserMediaPermissionInfo] when it asks the application. *)
Definition askPermissionInfo (then_ : CheckThen) w : Manager :=
  let id := uniqueRequestID w in
  start (PermissionCheck id then_) (w <| uniqueRequestID := S id |> <| m_pendingDeviceRequests := m_pendingDeviceRequests w ++ [id] |>).

(** [denyRequest] without its last line, and whether that is reached. *)
Definition denyOnly (r : nat) (reason : DenialReason) (constraint : option string) w : Manager * bool :=
  match requests w !! r with
  | None => (crash w, false)
  | Some q =>
      if negb (running w) then (w, false)
      else
        let w := if decide (reason = PermissionDenied)
                 then w <| m_deniedRequests := m_deniedRequests w ++
                        [mkDenied (mainFrameID q) (documentOrigin q) (topLevelOrigin q) (requiresAudioCapture q) (requiresVideoCapture q) (requiresDisplayCapture q)] |>
                 else w in
        match takeHandler r w with
        | (Some n, w) => (send (SpeechDecision n false) w, false)
        | (None, _) => (send (UserMediaAccessWasDenied (userMediaID q) reason constraint) w, true)
        end
  end.

(** [processNextUserMediaRequestIfNeeded] for a queue, with what
    [startProcessingUserMediaPermissionRequest] does when the application need not be asked:
    the request is denied and the next one is processed. *)
Fixpoint processQueue (l : list nat) w : Manager :=
  match l with
  | [] => w <| m_pendingUserMediaRequests := [] |> <| m_currentUserMediaRequest := None |>
  | r :: l =>
      let w := w <| m_pendingUserMediaRequests := l |> <| m_currentUserMediaRequest := Some r |> in
      match requests w !! r with
      | None => crash w
      | Some q =>
          if stillShown (frameID q) (topLevelOrigin q) w then askPermissionInfo (ForRequest r) w
          else if negb (isPending q) then w
          else match denyOnly r OtherFailure None w with (w, true) => processQueue l w | (w, false) => w end
      end
  end.
Definition processNextUserMediaRequestIfNeeded w : Manager := processQueue (m_pendingUserMediaRequests w) w.
Definition startProcessingUserMediaPermissionRequest (r : nat) w : Manager := processQueue (r :: m_pendingUserMediaRequests w) w.

Definition denyRequest (r : nat) (reason : DenialReason) (constraint : option string) w : Manager :=
  match denyOnly r reason constraint w with (w, true) => processNextUserMediaRequestIfNeeded w | (w, false) => w end.

(** The member functions that use the current request. *)
Definition withCurrent (f : nat -> Request -> Manager -> Manager) w : Manager :=
  match m_currentUserMediaRequest w with
  | None => crash w
  | Some r => match requests w !! r with Some q => f r q w | None => crash w end
  end.
Definition pendingRequest (r : nat) w : bool := match requests w !! r with Some q => isPending q | None => false end.

Definition grantRequest (r : nat) w : Manager :=
  if negb (running w) then w
  else match takeHandler r w with
       | (Some n, w) => send (SpeechDecision n true) (w <| m_grantedRequests := m_grantedRequests w ++ [r] |>)
       | (None, _) => start (SaltForGrant r) w
       end.

Definition captureDevicesChangedWith (info : PermissionInfo) w : Manager :=
  match info with
  | Error => w
  | Unknown => if bool_decide (length (m_grantedRequests w) = 0%nat) then w else if running w then send CaptureDevicesChanged w else w
  | Granted => if running w then send CaptureDevicesChanged w else w
  end.

(** The salt for a grant is there; [extended]: the sandbox could be extended. *)
Definition finishGrantingRequest (r : nat) (extended : bool) w : Manager :=
  if negb extended then denyRequest r OtherFailure (Some "Unable to extend sandbox.") w else start (StartCapture r) w.
Definition captureStarted (r : nat) w : Manager :=
  match requests w !! r with
  | None => crash w
  | Some q =>
      let w := if decide (requestType q = UserMedia) then w <| m_grantedRequests := m_grantedRequests w ++ [r] |> else w in
      let w := if m_hasFilteredDeviceList w then captureDevicesChangedWith Granted w else w in
      let w := w <| m_hasFilteredDeviceList := false |> <| m_hasPendingCapture := wrap 64 (m_hasPendingCapture w + 1) |> in
      processNextUserMediaRequestIfNeeded (start CaptureReply (send (UserMediaAccessWasGranted (userMediaID q) r (audioDevice q) (videoDevice q)) w))
  end.

(** ** One request *)

Definition processUserMediaPermissionRequest w : Manager := withCurrent (fun r _ w => start (SaltForRequest r) w) w.
Definition saltForRequest (r : nat) w : Manager :=
  if negb (pendingRequest r w) then w else withCurrent (fun _ _ w => start (Validation r) w) w.

Definition processUserMediaPermissionInvalidRequest (constraint : string) w : Manager :=
  withCurrent (fun r q w =>
    let filterConstraint := negb (hasPersistentAccess q) && negb (wasGrantedVideoOrAudioAccess (frameID q) (documentOrigin q) (topLevelOrigin q) w) in
    denyRequest r InvalidConstraint (if filterConstraint then None else Some constraint) w) w.

Definition decidePolicyForUserMediaPermissionRequest w : Manager :=
  match m_currentUserMediaRequest w with
  | None => w
  | Some _ =>
      withCurrent (fun r q w =>
        if negb (stillShown (frameID q) (topLevelOrigin q) w) then denyRequest r NoConstraints None w
        else w <| prompts := prompts w ++ [(r, question q)] |>) w
  end.

(** A decision that is made without the user. *)
Definition consent (q : Request) w : Manager := w <| consents := consents w ++ [question q] |>.

Definition processUserMediaPermissionValidRequest (audio video : list CaptureDevice) w : Manager :=
  withCurrent (fun r _ w =>
    if bool_decide (length video = 0%nat) && bool_decide (length audio = 0%nat) then denyRequest r NoConstraints None w
    else
      withCurrent (fun r q w =>
        match getRequestAction q w with
        | Deny => denyRequest r PermissionDenied None w
        | Grant =>
            if isViewVisible (page w) then grantRequest r w
            else w <| m_pregrantedRequests := m_pregrantedRequests w ++ [r] |> <| m_currentUserMediaRequest := None |>
        | Prompt =>
            match automation (page w) with
            | Some true => grantRequest r (consent q w)
            | Some false => denyRequest r PermissionDenied None w
            | None => if mockDevicesWithoutPrompt (page w) then grantRequest r (consent q w) else decidePolicyForUserMediaPermissionRequest w
            end
        end) (onRequest r (fun q => q <| eligibleVideo := video |> <| eligibleAudio := audio |>) w)) w.

(** The answer of the application to [checkUserMediaPermissionForOrigin]. *)
Definition permissionForRequest (r : nat) (info : PermissionInfo) w : Manager :=
  if negb (pendingRequest r w) then w
  else match info with
       | Error => withCurrent (fun c _ w => denyRequest c OtherFailure None w) w
       | Unknown => processUserMediaPermissionRequest w
       | Granted => processUserMediaPermissionRequest (withCurrent (fun c _ w => onRequest c (fun q => q <| hasPersistentAccess := true |>) w) w)
       end.

(** The constraints have been checked: the devices that satisfy them, or a constraint that
    none satisfies. *)
Definition validated (r : nat) (result : (list CaptureDevice * list CaptureDevice) + string) w : Manager :=
  if negb (pendingRequest r w) then w
  else match result with
       | inr constraint => if negb (running w) then w else processUserMediaPermissionInvalidRequest constraint w
       | inl (audio, video) => if negb (running w) || bool_decide (mainFrame (page w) = None) then w else processUserMediaPermissionValidRequest audio video w
       end.

(** ** The decision of the application *)

(** [setDeviceAsFirst]; the index of a device that is missing is out of range. *)
Fixpoint takeDevice (id : string) (l : list CaptureDevice) : option (CaptureDevice * list CaptureDevice) :=
  match l with
  | [] => None
  | d :: l => if bool_decide (persistentId d = id) then Some (d, l) else match takeDevice id l with Some (x, l) => Some (x, d :: l) | None => None end
  end.
Definition setDeviceAsFirst (id : string) (l : list CaptureDevice) : option (list CaptureDevice) :=
  match takeDevice id l with Some (d, l) => Some (d :: l) | None => None end.
Definition chooseDevice (id : string) (l : list CaptureDevice) : option (list CaptureDevice) := if bool_decide (id = "") then Some l else setDeviceAsFirst id l.

(** [asked]: the question the user agrees to. *)
Definition allow (r : nat) (asked : Consent) w : Manager :=
  if negb (pendingRequest r w) then w
  else invalidate r (grantRequest r (w <| consents := consents w ++ [asked] |>)).
Definition allowDevices (r : nat) (asked : Consent) (audioDeviceUID videoDeviceUID : string) w : Manager :=
  match requests w !! r with
  | None => w
  | Some q =>
      match chooseDevice audioDeviceUID (eligibleAudio q), chooseDevice videoDeviceUID (eligibleVideo q) with
      | Some audio, Some video => allow r asked (onRequest r (fun q => q <| eligibleAudio := audio |> <| eligibleVideo := video |>) w)
      | _, _ => crash w
      end
  end.
Definition deny (r : nat) (reason : DenialReason) w : Manager :=
  if negb (pendingRequest r w) then w else invalidate r (denyRequest r reason None w).

(** ** Requests of the web process *)

Definition scheduleNextRejection w : Manager := w <| m_rejectionTimer := true |>.
Definition rejectionTimerFired w : Manager :=
  match m_pendingRejections w with
  | [] => crash w
  | r :: l =>
      let w := denyRequest r PermissionDenied None (w <| m_rejectionTimer := false |> <| m_pendingRejections := l |>) in
      if bool_decide (length (m_pendingRejections w) = 0%nat) then w else scheduleNextRejection w
  end.

Definition newRequest (q : Request) w : nat * Manager :=
  (nextRequest w, w <| requests := <[nextRequest w := q]> (requests w) |> <| nextRequest := S (nextRequest w) |>).

(** With the check of [WebPageProxy] that the frame exists. *)
Definition requestUserMediaPermissionForFrame (id frame origin top : nat) (type : RequestType) (gesture : bool) w : Manager :=
  if negb (bool_decide (frame ∈ webFrames (page w))) || negb (running w) then w
  else match mainFrame (page w) with
       | None => crash w
       | Some (main, _) =>
           let '(r, w) := newRequest (mkRequest true id main frame origin top [] [] type gesture false None) w in
           match m_currentUserMediaRequest w with
           | Some _ => w <| m_pendingUserMediaRequests := m_pendingUserMediaRequests w ++ [r] |>
           | None =>
               if negb (captureEnabled w) then scheduleNextRejection (w <| m_pendingRejections := m_pendingRejections w ++ [r] |>)
               else startProcessingUserMediaPermissionRequest r w
           end
       end.

Definition checkUserMediaPermissionForSpeechRecognition (frame origin top : nat) (device : CaptureDevice) (callback : nat) w : Manager :=
  if negb (stillShown frame top w) then send (SpeechDecision callback false) w
  else
    let q := mkRequest true 0 frame frame origin top [] [device] UserMedia false false (Some callback) in
    let '(r, w) := newRequest q w in
    match getRequestAction q w with
    | Deny => send (SpeechDecision callback false) (snd (takeHandler r w))
    | Grant => send (SpeechDecision callback true) (snd (takeHandler r w))
    | Prompt => w <| prompts := prompts w ++ [(r, question q)] |>
    end.

(** *** Enumeration of devices *)

Definition haveMicrophoneDevice (l : list CaptureDevice) (id : string) : bool := existsb (fun d => bool_decide (persistentId d = id) && bool_decide (deviceType d = Microphone)) l.
Definition isCaptureType (t : DeviceType) : bool := match t with Camera | Microphone | Speaker => true | OtherDevice => false end.
Fixpoint filterDevices (revealIdsAndLabels : bool) (all : list CaptureDevice) (cameraCount microphoneCount : nat) (l : list CaptureDevice) : list CaptureDevice :=
  match l with
  | [] => []
  | d :: l =>
      if negb (enabled d) || negb (isCaptureType (deviceType d)) then filterDevices revealIdsAndLabels all cameraCount microphoneCount l
      else if negb revealIdsAndLabels then
        let shownDevice := mkDevice "" (deviceType d) "" "" enabledByDefault in
        match deviceType d with
        | Camera => if Nat.leb 1 cameraCount then filterDevices revealIdsAndLabels all (S cameraCount) microphoneCount l
                    else shownDevice :: filterDevices revealIdsAndLabels all (S cameraCount) microphoneCount l
        | Microphone => if Nat.leb 1 microphoneCount then filterDevices revealIdsAndLabels all cameraCount (S microphoneCount) l
                        else shownDevice :: filterDevices revealIdsAndLabels all cameraCount (S microphoneCount) l
        | _ => filterDevices revealIdsAndLabels all cameraCount microphoneCount l
        end
      else if bool_decide (deviceType d = Speaker) && negb (haveMicrophoneDevice all (groupId d)) then filterDevices revealIdsAndLabels all cameraCount microphoneCount l
      else d :: filterDevices revealIdsAndLabels all cameraCount microphoneCount l
  end.
Definition computeFilteredDeviceList (revealIdsAndLabels : bool) (devices : list CaptureDevice) : list CaptureDevice := filterDevices revealIdsAndLabels devices 0 0 devices.

Definition permissionForEnumeration (frame origin top callback : nat) (info : PermissionInfo) w : Manager :=
  match info with
  | Error => send (Devices callback []) w
  | _ =>
      if negb (running w) then send (Devices callback []) w
      else
        let id := uniqueRequestID w in
        start (SaltForEnumeration id frame origin top (match info with Granted => true | _ => false end) callback)
          (w <| uniqueRequestID := S id |> <| m_pendingDeviceRequests := m_pendingDeviceRequests w ++ [id] |>)
  end.
Definition enumerateMediaDevicesForFrame (frame origin top callback : nat) w : Manager :=
  if negb (bool_decide (frame ∈ webFrames (page w))) then w
  else if stillShown frame top w then askPermissionInfo (ForEnumeration frame origin top callback) w
  else permissionForEnumeration frame origin top callback Error w.

(** [m_pendingDeviceRequests.remove] *)
Definition takeDeviceRequest (id : nat) w : bool * Manager :=
  (bool_decide (id ∈ m_pendingDeviceRequests w), w <| m_pendingDeviceRequests := filter (fun x => (x <> id)) (m_pendingDeviceRequests w) |>).
Definition saltForEnumeration (id frame origin top : nat) (persistent : bool) (callback : nat) w : Manager :=
  match takeDeviceRequest id w with
  | (false, w) => send (Devices callback []) w
  | (true, w) =>
      if negb (running w) then send (Devices callback []) w
      else start (DevicesForEnumeration (persistent || wasGrantedVideoOrAudioAccess frame origin top w) callback) w
  end.
Definition devicesForEnumeration (reveal : bool) (callback : nat) (devices : list CaptureDevice) w : Manager :=
  send (Devices callback (computeFilteredDeviceList reveal devices)) (w <| m_hasFilteredDeviceList := negb reveal |>).

Definition captureDevicesChanged w : Manager :=
  if negb (running w) then w
  else match mainFrame (page w) with
       | None => w
       | Some (frame, origin) => if stillShown frame origin w then askPermissionInfo ForDevicesChanged w else captureDevicesChangedWith Error w
       end.

(** The handler given to [UserMediaPermissionCheckProxy]. *)
Definition permissionChecked (id : nat) (then_ : CheckThen) (info : PermissionInfo) w : Manager :=
  let '(known, w) := takeDeviceRequest id w in
  let info := if known then info else Error in
  match then_ with
  | ForRequest r => permissionForRequest r info w
  | ForDevicesChanged => captureDevicesChangedWith info w
  | ForEnumeration frame origin top callback => permissionForEnumeration frame origin top callback info w
  end.

(** ** The page *)

Definition resetAccess (frame : option nat) w : Manager :=
  let keeps := fun g => match requests w !! g, frame with Some q, Some f => negb (Nat.eqb (mainFrameID q) f) | _, _ => false end in
  w <| m_grantedRequests := List.filter keeps (m_grantedRequests w) |> <| m_pregrantedRequests := [] |> <| m_deniedRequests := [] |> <| m_hasFilteredDeviceList := false |>.

Definition invalidatePendingRequests w : Manager :=
  let w := match m_currentUserMediaRequest w with Some r => (invalidate r w) <| m_currentUserMediaRequest := None |> | None => w end in
  let pending := m_pendingUserMediaRequests w in
  let w := fold_left (fun w r => invalidate r w) pending (w <| m_pendingUserMediaRequests := [] |>) in
  let pregranted := m_pregrantedRequests w in
  let w := fold_left (fun w r => invalidate r w) pregranted (w <| m_pregrantedRequests := [] |>) in
  w <| m_pendingDeviceRequests := [] |>.
Definition stopMediaCapture w : Manager := if negb (running w) then w else send StopMediaCapture (resetAccess None w).
Definition stopCapture w : Manager := stopMediaCapture (invalidatePendingRequests w).
Definition clearCachedState w : Manager := invalidatePendingRequests w.
(** [UserMediaProcessManager::setCaptureEnabled]. *)
Definition setCaptureEnabled (b : bool) w : Manager :=
  if Bool.eqb b (captureEnabled w) then w
  else let w := w <| captureEnabled := b |> in if b then w else stopCapture w.

Definition viewIsBecomingVisible w : Manager :=
  fold_left (fun w r => grantRequest r w) (m_pregrantedRequests w) (w <| m_pregrantedRequests := [] |>).
Definition watchdogTimerFired w : Manager := w <| m_grantedRequests := [] |> <| m_pregrantedRequests := [] |> <| m_hasFilteredDeviceList := false |>.

(** ** Runs *)

Inductive Result :=
| Info (info : PermissionInfo)
| Validated (result : (list CaptureDevice * list CaptureDevice) + string)
| Extended (b : bool)
| DeviceList (l : list CaptureDevice)
| Done.
Definition complete (t : Task) (x : Result) w : Manager :=
  match t with
  | PermissionCheck id then_ => permissionChecked id then_ (match x with Info i => i | _ => Error end) w
  | SaltForRequest r => saltForRequest r w
  | Validation r => validated r (match x with Validated v => v | _ => inl ([], []) end) w
  | SaltForGrant r => finishGrantingRequest r (match x with Extended b => b | _ => true end) w
  | StartCapture r => captureStarted r w
  | CaptureReply => w <| m_hasPendingCapture := wrap 64 (m_hasPendingCapture w - 1) |>
  | SaltForEnumeration id frame origin top persistent callback => saltForEnumeration id frame origin top persistent callback w
  | DevicesForEnumeration reveal callback => devicesForEnumeration reveal callback (match x with DeviceList l => l | _ => [] end) w
  end.

Inductive Event :=
| RequestMedia (id frame origin top : nat) (type : RequestType) (gesture : bool)
| RequestSpeech (frame origin top : nat) (device : CaptureDevice) (callback : nat)
| Enumerate (frame origin top callback : nat)
| TaskDone (i : nat) (x : Result)
| Allow (prompt : nat) (audioDeviceUID videoDeviceUID : string)
| DenyPrompt (prompt : nat) (reason : DenialReason)
| RejectionTimer
| PageChanged (p : Page)
| BecomingVisible
| DevicesChanged
| MainDocumentChanged (frame : nat)
| StopMedia
| ClearState
| EnableCapture (b : bool)
| Watchdog.
Definition exec (e : Event) w : Manager :=
  match e with
  | RequestMedia id frame origin top type gesture => requestUserMediaPermissionForFrame id frame origin top type gesture w
  | RequestSpeech frame origin top device callback => checkUserMediaPermissionForSpeechRecognition frame origin top device callback w
  | Enumerate frame origin top callback => enumerateMediaDevicesForFrame frame origin top callback w
  | TaskDone i x => match tasks w !! i with Some t => complete t x (w <| tasks := delete i (tasks w) |>) | None => w end
  | Allow i audio video => match prompts w !! i with Some (r, asked) => allowDevices r asked audio video w | None => w end
  | DenyPrompt i reason => match prompts w !! i with Some (r, _) => deny r reason w | None => w end
  | RejectionTimer => if m_rejectionTimer w then rejectionTimerFired w else w
  | PageChanged p => w <| page := p |>
  | BecomingVisible => viewIsBecomingVisible w
  | DevicesChanged => captureDevicesChanged w
  | MainDocumentChanged frame => resetAccess (Some frame) w
  | StopMedia => stopMediaCapture w
  | ClearState => clearCachedState w
  | EnableCapture b => setCaptureEnabled b w
  | Watchdog => watchdogTimerFired w
  end.
Definition create (p : Page) : Manager := mkManager p true ∅ 0 None [] [] 1 false [] [] [] [] false 0 [] [] [] [] false.
Definition runs (p : Page) (h : list Event) : Manager := fold_left (fun w e => exec e w) h (create p).

(** ** Orderly runs

    The page has a main frame (its identifier is used without a check), the view stays visible,
    capture stays enabled, and the state is not cleared while a grant is under way; the
    application chooses devices it was offered. *)

Definition grantsRequest (t : Task) : option nat := match t with SaltForGrant r | StartCapture r => Some r | _ => None end.
Definition prepares (t : Task) : option nat := match t with PermissionCheck _ (ForRequest r) | SaltForRequest r | Validation r => Some r | _ => None end.
Definition about (t : Task) : option nat := match prepares t with Some r => Some r | None => grantsRequest t end.
Definition orderly w (e : Event) : Prop :=
  match e with
  | PageChanged p => isViewVisible p = true /\ is_Some (mainFrame p)
  | EnableCapture b => b = true
  | ClearState => Forall (fun t => grantsRequest t = None) (tasks w)
  | Allow i audio video =>
      forall r c q, prompts w !! i = Some (r, c) -> requests w !! r = Some q -> is_Some (chooseDevice audio (eligibleAudio q)) /\ is_Some (chooseDevice video (eligibleVideo q))
  | _ => True
  end.
Fixpoint orderlyFrom w (h : list Event) : Prop := match h with [] => True | e :: h => orderly w e /\ orderlyFrom (exec e w) h end.

(** ** Consent *)

Definition covers (a b : nat) : Prop := a = b \/ sameOrigin a b = true.
Definition agrees (c : Consent) (q : Request) : Prop := c_frame c = frameID q /\ covers (c_origin c) (documentOrigin q) /\ covers (c_top c) (topLevelOrigin q).
Definition authorized (cs : list Consent) (q : Request) : Prop :=
  (requiresAudioCapture q = true -> exists c, c ∈ cs /\ agrees c q /\ c_audio c = true) /\
  (requiresVideoCapture q = true -> exists c, c ∈ cs /\ agrees c q /\ c_video c = true) /\
  (requiresDisplayCapture q = true -> exists c, c ∈ cs /\ agrees c q /\ c_display c = true).
(** A grant that was sent: each device it names was agreed to, for the frame and the origins
    of the request. *)
Definition grantAgreed w (o : Output) : Prop :=
  match o with
  | UserMediaAccessWasGranted id r audio video =>
      exists q, requests w !! r = Some q /\ userMediaID q = id /\
        (is_Some audio -> exists c, c ∈ consents w /\ agrees c q /\ c_audio c = true) /\
        (is_Some video -> exists c, c ∈ consents w /\ agrees c q /\ (if decide (requestType q = DisplayMedia) then c_display c else c_video c) = true)
  | _ => True
  end.

Section consent.
Hypothesis sameOrigin_trans : forall a b c, sameOrigin a b = true -> sameOrigin b c = true -> sameOrigin a c = true.

Definition tcount (r : nat) (ts : list Task) : nat := length (List.filter (fun t => bool_decide (about t = Some r)) ts).
Definition pcount (r : nat) (ps : list (nat * Consent)) : nat := length (List.filter (fun p => Nat.eqb (fst p) r) ps).
Definition busy (r : nat) w : nat := (tcount r (tasks w) + pcount r (prompts w))%nat.
Definition lively (x : option nat) (r : nat) w : Prop := pendingRequest r w = true /\ x <> Some r.
Definition handlerless (r : nat) w : Prop := requests w !! r ≫= handler = None.

Record base (x : option nat) w : Prop := {
  b_flags : m_pregrantedRequests w = [] /\ m_pendingRejections w = [] /\ m_rejectionTimer w = false /\ captureEnabled w = true;
  b_page : isViewVisible (page w) = true /\ is_Some (mainFrame (page w));
  b_crashed : crashed w = false;
  b_busy : forall r, lively x r w -> handlerless r w -> (busy r w <= 1)%nat;
  b_queue : NoDup (m_pendingUserMediaRequests w) /\ forall r, r ∈ m_pendingUserMediaRequests w ->
            pendingRequest r w = true /\ handlerless r w /\ busy r w = 0%nat /\ (r ∉ m_grantedRequests w) /\ x <> Some r;
  b_granted : forall g, g ∈ m_grantedRequests w -> exists q, requests w !! g = Some q /\ authorized (consents w) q;
  b_fresh : forall r, (nextRequest w <= r)%nat -> requests w !! r = None /\ busy r w = 0%nat;
  b_prompts : forall r c, (r, c) ∈ prompts w -> lively x r w -> exists q, requests w !! r = Some q /\ question q = c;
  b_outputs : Forall (grantAgreed w) (outputs w) }.
Record safe (x : option nat) w : Prop := {
  s_base : base x w;
  s_prepares : forall t r, t ∈ tasks w -> prepares t = Some r -> lively x r w -> m_currentUserMediaRequest w = Some r;
  s_grants : forall t r, t ∈ tasks w -> grantsRequest t = Some r -> m_currentUserMediaRequest w = Some r /\ exists q, requests w !! r = Some q /\ authorized (consents w) q;
  s_once : (length (List.filter (fun t => bool_decide (is_Some (grantsRequest t))) (tasks w)) <= 1)%nat;
  s_prompts : forall r c, (r, c) ∈ prompts w -> lively x r w -> handlerless r w -> m_currentUserMediaRequest w = Some r;
  s_current : forall r, m_currentUserMediaRequest w = Some r -> is_Some (requests w !! r) /\ handlerless r w /\ (r ∉ m_grantedRequests w) /\ (r ∉ m_pendingUserMediaRequests w) }.
(** Nothing of a request that is still pending is under way. *)
Record idle (x : option nat) w : Prop := {
  i_base : base x w;
  i_prepares : forall t r, t ∈ tasks w -> prepares t = Some r -> lively x r w -> False;
  i_grants : Forall (fun t => grantsRequest t = None) (tasks w);
  i_prompts : forall r c, (r, c) ∈ prompts w -> lively x r w -> handlerless r w -> False }.
(** The work on the current request has come back to the manager. *)
Record focus (x : option nat) (r : nat) w : Prop := {
  f_idle : idle x w;
  f_current : m_currentUserMediaRequest w = Some r;
  f_request : is_Some (requests w !! r) /\ handlerless r w /\ (r ∉ m_grantedRequests w) /\ (r ∉ m_pendingUserMediaRequests w);
  f_tasks : lively x r w -> busy r w = 0%nat }.

#[local] Arguments tcount : simpl never.
#[local] Arguments pcount : simpl never.
Lemma tcount_app r l l' : tcount r (l ++ l') = (tcount r l + tcount r l')%nat.
Proof. unfold tcount. by rewrite List.filter_app, length_app. Qed.
Lemma pcount_app r l l' : pcount r (l ++ l') = (pcount r l + pcount r l')%nat.
Proof. unfold pcount. by rewrite List.filter_app, length_app. Qed.
Lemma tcount_in r t ts : t ∈ ts -> about t = Some r -> (1 <= tcount r ts)%nat.
Proof.
  intros Hin Ha. unfold tcount. induction ts as [|t' ts IH]; [by apply elem_of_nil in Hin|]. cbn. apply elem_of_cons in Hin as [<-|Hin]; [rewrite Ha, bool_decide_eq_true_2 by done; cbn; lia|].
  specialize (IH Hin). destruct (bool_decide _); cbn; lia.
Qed.
Lemma pcount_in r c ps : (r, c) ∈ ps -> (1 <= pcount r ps)%nat.
Proof.
  intros Hin. unfold pcount. induction ps as [|p ps IH]; [by apply elem_of_nil in Hin|]. cbn. apply elem_of_cons in Hin as [<-|Hin]; [cbn; rewrite Nat.eqb_refl; cbn; lia|].
  specialize (IH Hin). destruct (Nat.eqb _ _); cbn; lia.
Qed.
Lemma filter_delete (f : Task -> bool) t : forall ts i, ts !! i = Some t -> length (List.filter f ts) = (length (List.filter f (delete i ts)) + (if f t then 1 else 0))%nat.
Proof.
  induction ts as [|t' ts IH]; intros [|i] Hi; try done.
  - injection Hi as ->. cbn. destruct (f t); cbn; lia.
  - specialize (IH i Hi). change (delete (S i) (t' :: ts)) with (t' :: delete i ts). cbn [List.filter]. destruct (f t'); cbn [length]; lia.
Qed.
Lemma prepares_about t r : prepares t = Some r -> about t = Some r.
Proof. unfold about. by intros ->. Qed.
Lemma grants_about t r : grantsRequest t = Some r -> about t = Some r.
Proof. unfold about. by destruct t. Qed.

(** The state that the invariant is about. *)
Definition same w w' : Prop :=
  page w = page w' /\ captureEnabled w = captureEnabled w' /\ requests w = requests w' /\ nextRequest w = nextRequest w' /\
  m_currentUserMediaRequest w = m_currentUserMediaRequest w' /\ m_pendingUserMediaRequests w = m_pendingUserMediaRequests w' /\
  m_rejectionTimer w = m_rejectionTimer w' /\ m_pendingRejections w = m_pendingRejections w' /\ m_pregrantedRequests w = m_pregrantedRequests w' /\
  m_grantedRequests w = m_grantedRequests w' /\ tasks w = tasks w' /\ prompts w = prompts w' /\ consents w = consents w' /\ crashed w = crashed w' /\
  Forall (grantAgreed w) (outputs w').
Lemma base_same x w w' : same w w' -> base x w -> base x w'.
Proof.
  destruct w, w'. intros (E1 & E2 & E3 & E4 & E5 & E6 & E7 & E8 & E9 & E10 & E11 & E12 & E13 & E14 & E15) []. cbn in *. subst. by split.
Qed.
Lemma safe_same x w w' : same w w' -> safe x w -> safe x w'.
Proof.
  intros H [B]. pose proof (base_same x w w' H B) as B'. destruct w, w'. destruct H as (E1 & E2 & E3 & E4 & E5 & E6 & E7 & E8 & E9 & E10 & E11 & E12 & E13 & E14 & E15). cbn in *. subst. by split.
Qed.
Lemma idle_same x w w' : same w w' -> idle x w -> idle x w'.
Proof.
  intros H [B]. pose proof (base_same x w w' H B) as B'. destruct w, w'. destruct H as (E1 & E2 & E3 & E4 & E5 & E6 & E7 & E8 & E9 & E10 & E11 & E12 & E13 & E14 & E15). cbn in *. subst. by split.
Qed.
Lemma focus_same x r w w' : same w w' -> focus x r w -> focus x r w'.
Proof.
  intros H [B]. pose proof (idle_same x w w' H B) as B'. destruct w, w'. destruct H as (E1 & E2 & E3 & E4 & E5 & E6 & E7 & E8 & E9 & E10 & E11 & E12 & E13 & E14 & E15). cbn in *. subst. by split.
Qed.
Definition harmless (o : Output) : bool := match o with UserMediaAccessWasGranted _ _ _ _ => false | _ => true end.
Lemma same_send x o w : base x w -> harmless o = true -> same w (send o w).
Proof. intros B Ho. repeat split. cbn. apply Forall_app. split; [apply B|]. constructor; [by destruct o|done]. Qed.

(** Tasks that come and go. *)
Lemma tcount_other r ts t : about t <> Some r -> tcount r (ts ++ [t]) = tcount r ts.
Proof. intros Ht. rewrite tcount_app. unfold tcount at 2. cbn. rewrite bool_decide_eq_false_2 by done. cbn. lia. Qed.
Lemma base_tasks x w ts : (forall r, (tcount r ts <= tcount r (tasks w))%nat) -> base x w -> base x (w <| tasks := ts |>).
Proof.
  intros Hts [B1 B2 B3 B4 B5 B6 B7 B8 B9]. assert (Hb : forall r, (busy r (w <| tasks := ts |>) <= busy r w)%nat) by (intros r; specialize (Hts r); unfold busy; cbn; lia). split; try done.
  - intros r Hr Hh. etransitivity; [exact (Hb r)|by apply B4].
  - split; [apply B5|]. intros r Hr. destruct B5 as [_ B5]. specialize (B5 r Hr) as (? & ? & Hz & ? & ?). repeat split; try done. apply Nat.le_0_r. rewrite <- Hz. exact (Hb r).
  - intros r Hr. specialize (B7 r Hr) as [? Hz]. split; [done|]. apply Nat.le_0_r. rewrite <- Hz. exact (Hb r).
Qed.
Lemma safe_start x t w : about t = None -> safe x w -> safe x (start t w).
Proof.
  intros Ht [B P1 P2 P3 P4 P5]. assert (Hp : prepares t = None) by (unfold about in Ht; by destruct (prepares t)). assert (Hg : grantsRequest t = None) by (unfold about in Ht; rewrite Hp in Ht; done).
  split; try done; cbn.
  - apply base_tasks; [|done]. intros r. rewrite tcount_other by congruence. lia.
  - intros t' r [Hin| ->%list_elem_of_singleton]%elem_of_app ? ?; [by eapply P1|congruence].
  - intros t' r [Hin| ->%list_elem_of_singleton]%elem_of_app ?; [by eapply P2|congruence].
  - rewrite List.filter_app, length_app. cbn. rewrite Hg, bool_decide_eq_false_2 by (by intros []). cbn. lia.
Qed.
Lemma tcount_delete r t ts i : ts !! i = Some t -> tcount r ts = (tcount r (delete i ts) + (if bool_decide (about t = Some r) then 1 else 0))%nat.
Proof. intros Hi. unfold tcount. by rewrite (filter_delete _ t ts i Hi). Qed.
Lemma safe_delete x w i t : tasks w !! i = Some t -> safe x w -> safe x (w <| tasks := delete i (tasks w) |>).
Proof.
  intros Hi [B P1 P2 P3 P4 P5]. assert (Hin : forall t', t' ∈ delete i (tasks w) -> t' ∈ tasks w) by (intros t'; apply list_elem_of_delete_inv).
  split; try done; cbn.
  - apply base_tasks; [|done]. intros r. rewrite (tcount_delete r t _ i Hi). lia.
  - intros t' r ? ? ?. by apply (P1 t'); [apply Hin|..].
  - intros t' r ? ?. by apply (P2 t'); [apply Hin|].
  - rewrite (filter_delete _ t (tasks w) i Hi) in P3. lia.
Qed.

(** An excluded request, and an idle manager. *)
Lemma lively_none x r w : lively x r w -> lively None r w.
Proof. by intros []. Qed.
Lemma base_exclude r w : (r ∉ m_pendingUserMediaRequests w) -> base None w -> base (Some r) w.
Proof.
  intros Hr [B1 B2 B3 B4 B5 B6 B7 B8 B9]. split; try done.
  - intros r' Hl Hh. apply B4; [by eapply lively_none|done].
  - split; [apply B5|]. intros r' Hr'. destruct B5 as [_ B5]. destruct (B5 r' Hr') as (? & ? & ? & ? & ?). repeat split; try done. congruence.
  - intros r' c Hin Hl. apply B8; [done|]. by eapply lively_none.
Qed.
Lemma safe_exclude r w : (r ∉ m_pendingUserMediaRequests w) -> safe None w -> safe (Some r) w.
Proof.
  intros Hr [B P1 P2 P3 P4 P5]. split; try done; [by apply base_exclude|..].
  - intros t r' ? ? Hl. eapply P1; try done. by eapply lively_none.
  - intros r' c ? Hl ?. eapply P4; try done. by eapply lively_none.
Qed.
Lemma safe_idle x w : m_currentUserMediaRequest w = None -> safe x w -> idle x w.
Proof.
  intros Hc [B P1 P2 P3 P4 P5]. split; try done.
  - intros t r ? ? ?. specialize (P1 t r). rewrite Hc in P1. naive_solver.
  - apply Forall_forall. intros t Ht. destruct (grantsRequest t) as [r|] eqn:E; [|done]. destruct (P2 t r Ht E) as [E' _]. congruence.
  - intros r c ? ? ?. specialize (P4 r c). rewrite Hc in P4. naive_solver.
Qed.
Lemma idle_free x w : idle x w -> List.filter (fun t => bool_decide (is_Some (grantsRequest t))) (tasks w) = [].
Proof. intros [_ _ I2 _]. induction I2 as [|t ts Ht _ IH]; cbn; [done|]. rewrite Ht. rewrite bool_decide_eq_false_2 by (by intros []). exact IH. Qed.
Lemma idle_safe x w : idle x w -> (forall r, m_currentUserMediaRequest w = Some r -> is_Some (requests w !! r) /\ handlerless r w /\ (r ∉ m_grantedRequests w) /\ (r ∉ m_pendingUserMediaRequests w)) -> safe x w.
Proof.
  intros I Hc. pose proof (idle_free x w I) as E. destruct I as [B I1 I2 I3]. split; try done.
  - intros t r' ? ? ?. exfalso. by eapply I1.
  - intros t r' Hin Hg. rewrite Forall_forall in I2. rewrite (I2 t Hin) in Hg. done.
  - rewrite E. cbn. lia.
  - intros r' c ? ? ?. exfalso. by eapply I3.
Qed.
Lemma focus_safe x r w : focus x r w -> safe x w.
Proof. intros [I F1 F2 F3]. apply idle_safe; [done|]. intros r' Hr'. rewrite F1 in Hr'. by injection Hr' as <-. Qed.
(** The queue. *)
Definition waits (x : option nat) (r : nat) w : Prop := pendingRequest r w = true /\ handlerless r w /\ busy r w = 0%nat /\ (r ∉ m_grantedRequests w) /\ x <> Some r.
Lemma idle_queue x w l c : idle x w -> NoDup l -> (forall r, r ∈ l -> waits x r w) -> idle x (w <| m_pendingUserMediaRequests := l |> <| m_currentUserMediaRequest := c |>).
Proof. intros [[B1 B2 B3 B4 B5 B6 B7 B8 B9] I1 I2 I3] Hn Hl. split; done. Qed.
Lemma waits_request x r w : waits x r w -> exists q, requests w !! r = Some q /\ isPending q = true /\ handler q = None.
Proof. unfold waits, pendingRequest, handlerless. intros (Hp & Hh & _). destruct (requests w !! r) as [q|]; [|done]. by exists q. Qed.
Lemma idle_focus x r w l : idle x w -> NoDup (r :: l) -> (forall r', r' ∈ r :: l -> waits x r' w) -> focus x r (w <| m_pendingUserMediaRequests := l |> <| m_currentUserMediaRequest := Some r |>).
Proof.
  intros I [Hr Hn]%NoDup_cons Hl. pose proof (Hl r (list_elem_of_here _ _)) as Hw. destruct (waits_request x r w Hw) as (q & Hq & _ & Hh). destruct Hw as (_ & Hh' & Hb & Hg & _).
  split; try done.
  - apply idle_queue; [done..|]. intros r' Hr'. apply Hl. by right.
Qed.
Lemma busy_start r t w : busy r (start t w) = (busy r w + (if bool_decide (about t = Some r) then 1 else 0))%nat.
Proof. unfold busy, start. cbn. rewrite tcount_app. unfold tcount at 2. cbn. destruct (bool_decide _); cbn; lia. Qed.
Lemma base_start_about x r t w : base x w -> about t = Some r -> is_Some (requests w !! r) -> (r ∉ m_pendingUserMediaRequests w) -> (lively x r w -> busy r w = 0%nat) -> base x (start t w).
Proof.
  intros [B1 B2 B3 B4 B5 B6 B7 B8 B9] Ht Hs Hp Hb. split; try done.
  - intros r' Hl Hh. rewrite busy_start. destruct (bool_decide_reflect (about t = Some r')) as [E|E]; [|specialize (B4 r' Hl Hh); lia]. rewrite Ht in E. injection E as <-. rewrite Hb; [lia|done].
  - split; [apply B5|]. intros r' Hr'. destruct B5 as [_ B5]. destruct (B5 r' Hr') as (? & ? & Hz & ? & ?). rewrite busy_start. rewrite bool_decide_eq_false_2; [repeat split; try done; lia|]. rewrite Ht. by intros [= ->].
  - intros r' Hr'. destruct (B7 r' Hr') as [Hn Hz]. rewrite busy_start. rewrite bool_decide_eq_false_2; [split; [done|lia]|]. rewrite Ht. intros [= ->]. destruct Hs as [? Hs]. cbn in Hn. congruence.
Qed.
(** The current request is prepared further. *)
Lemma focus_prepare x r t w : focus x r w -> prepares t = Some r -> safe x (start t w).
Proof.
  intros F Ht. pose proof (focus_safe x r w F) as S. destruct F as [[B I1 I2 I3] F1 F2 F3]. destruct S as [_ P1 P2 P3 P4 P5].
  assert (Hg : grantsRequest t = None) by (by destruct t). split; try done; cbn.
  - apply (base_start_about x r); try done; [by apply prepares_about|apply F2..].
  - intros t' r' [Hin| ->%list_elem_of_singleton]%elem_of_app Hp ?; [by eapply P1|congruence].
  - intros t' r' [Hin| ->%list_elem_of_singleton]%elem_of_app ?; [by eapply P2|congruence].
  - rewrite List.filter_app, length_app. cbn. rewrite Hg, bool_decide_eq_false_2 by (by intros []). cbn. lia.
Qed.
(** The current request is granted. *)
Lemma focus_grants x r t w q : focus x r w -> grantsRequest t = Some r -> requests w !! r = Some q -> authorized (consents w) q -> safe x (start t w).
Proof.
  intros F Ht Hq Ha. pose proof (focus_safe x r w F) as S. pose proof (idle_free x w (f_idle x r w F)) as E. destruct F as [[B I1 I2 I3] F1 F2 F3]. destruct S as [_ P1 P2 P3 P4 P5].
  assert (Hp : prepares t = None) by (by destruct t). split; try done; cbn.
  - apply (base_start_about x r); try done; [by apply grants_about|apply F2..].
  - intros t' r' [Hin| ->%list_elem_of_singleton]%elem_of_app Hp' ?; [by eapply P1|congruence].
  - intros t' r' [Hin| ->%list_elem_of_singleton]%elem_of_app Hg; [by eapply P2|]. rewrite Ht in Hg. injection Hg as <-. split; [done|]. by exists q.
  - rewrite List.filter_app, length_app, E. cbn. destruct (bool_decide _); cbn; lia.
Qed.
Lemma same_self x w : base x w -> same w w.
Proof. intros B. repeat split. apply B. Qed.
Lemma processQueue_safe x l : forall w, idle x w -> NoDup l -> (forall r, r ∈ l -> waits x r w) -> safe x (processQueue l w).
Proof.
  induction l as [|r l IH]; intros w I Hn Hl; cbn [processQueue].
  - apply idle_safe; [|done]. by apply idle_queue.
  - pose proof (idle_focus x r w l I Hn Hl) as F. destruct (waits_request x r w (Hl r (list_elem_of_here _ _))) as (q & Hq & Hp & Hh). apply NoDup_cons in Hn as [Hr Hn].
    set (w1 := w <| m_pendingUserMediaRequests := l |> <| m_currentUserMediaRequest := Some r |>) in *. change (requests w1) with (requests w). rewrite Hq. destruct (stillShown _ _ _).
    + unfold askPermissionInfo. eapply focus_prepare; [|done]. eapply focus_same; [|exact F]. repeat split. apply F.
    + rewrite Hp. cbn [negb]. unfold denyOnly. change (requests w1) with (requests w). rewrite Hq. destruct (running w1); cbn [negb]; [|by eapply focus_safe].
      rewrite decide_False by done. unfold takeHandler. change (requests w1) with (requests w). rewrite Hq. cbn [mbind option_bind]. rewrite Hh.
      apply IH; [|done|intros r' Hr'; apply (Hl r'); by right].
      eapply idle_same; [|apply F]. apply (same_send x); [apply F|done].
Qed.
(** Changes of requests and consents. *)
Definition sameAsker (q q' : Request) : Prop :=
  userMediaID q = userMediaID q' /\ frameID q = frameID q' /\ documentOrigin q = documentOrigin q' /\ topLevelOrigin q = topLevelOrigin q' /\ requestType q = requestType q'.
Definition extends w w' : Prop :=
  (forall r q, requests w !! r = Some q -> exists q', requests w' !! r = Some q' /\ sameAsker q q') /\ (forall c, c ∈ consents w -> c ∈ consents w').
Lemma grantAgreed_extends w w' o : extends w w' -> grantAgreed w o -> grantAgreed w' o.
Proof.
  intros [Hq Hc]. destruct o; try done. cbn. intros (q & Hr & Hid & Ha & Hv). destruct (Hq _ _ Hr) as (q' & Hr' & E1 & E2 & E3 & E4 & E5). exists q'. unfold agrees in *. rewrite <- E1, <- E2, <- E3, <- E4, <- E5.
  repeat split; try done; [intros Hs; destruct (Ha Hs) as (c & ? & ?)|intros Hs; destruct (Hv Hs) as (c & ? & ?)]; exists c; naive_solver.
Qed.
Lemma outputs_extends w w' l : extends w w' -> Forall (grantAgreed w) l -> Forall (grantAgreed w') l.
Proof. intros E H. eapply Forall_impl; [exact H|]. intros o. by apply grantAgreed_extends. Qed.
Lemma authorized_question cs q q' : question q = question q' -> authorized cs q -> authorized cs q'.
Proof. unfold authorized, agrees, question. intros [= -> -> -> -> -> ->]. done. Qed.
Lemma authorized_more cs cs' q : (forall c, c ∈ cs -> c ∈ cs') -> authorized cs q -> authorized cs' q.
Proof. intros H (Ha & Hv & Hd). repeat split; intros E; [destruct (Ha E) as (c & ?)|destruct (Hv E) as (c & ?)|destruct (Hd E) as (c & ?)]; exists c; naive_solver. Qed.

Definition keepsAsker (f : Request -> Request) : Prop := forall q, sameAsker q (f q) /\ isPending (f q) = isPending q /\ handler (f q) = handler q.
Lemma onRequest_fields r f w r' : keepsAsker f -> pendingRequest r' (onRequest r f w) = pendingRequest r' w /\ (requests (onRequest r f w) !! r' ≫= handler) = (requests w !! r' ≫= handler).
Proof.
  intros Hf. unfold pendingRequest, onRequest. cbn. destruct (decide (r' = r)) as [->|]; [|by rewrite lookup_alter_ne].
  rewrite lookup_alter. case_decide; [|done]. destruct (requests w !! r) as [q|]; [|done]. cbn. by destruct (Hf q) as (_ & -> & ->).
Qed.
Lemma onRequest_lookup r f w r' q : requests w !! r' = Some q -> requests (onRequest r f w) !! r' = Some (if decide (r' = r) then f q else q).
Proof. intros H. unfold onRequest. cbn. case_decide; subst; [by rewrite lookup_alter_eq, H|by rewrite lookup_alter_ne]. Qed.
Lemma onRequest_extends r f w : keepsAsker f -> extends w (onRequest r f w).
Proof.
  intros Hf. split; [|done]. intros r' q Hq. exists (if decide (r' = r) then f q else q). split; [by apply onRequest_lookup|]. case_decide; [apply Hf|done].
Qed.
Definition changeable (x : option nat) (r : nat) (f : Request -> Request) w : Prop :=
  (forall q, requests w !! r = Some q -> question (f q) = question q) \/ ((r ∉ m_grantedRequests w) /\ (lively x r w -> forall c, (r, c) ∉ prompts w)).
Lemma base_onRequest x r f w : keepsAsker f -> changeable x r f w -> base x w -> base x (onRequest r f w).
Proof.
  intros Hf Hc [B1 B2 B3 B4 B5 B6 B7 B8 B9]. pose proof (fun r' => proj1 (onRequest_fields r f w r' Hf)) as Ep. pose proof (fun r' => proj2 (onRequest_fields r f w r' Hf)) as Eh.
  assert (El : forall r', lively x r' (onRequest r f w) -> lively x r' w) by (intros r' [H ?]; split; [by rewrite <- Ep|done]).
  split; try done.
  - intros r' Hl Hh. apply B4; [by apply El|]. unfold handlerless in *. by rewrite <- Eh.
  - split; [apply B5|]. intros r' Hr'. unfold handlerless. rewrite Ep, Eh. by apply B5.
  - intros g Hg. destruct (B6 g Hg) as (q & Hq & Ha). exists (if decide (g = r) then f q else q). split; [by apply onRequest_lookup|]. case_decide; [subst g|done].
    destruct Hc as [Hc|[Hc _]]; [|done]. eapply authorized_question; [symmetry; by apply Hc|done].
  - intros r' Hr'. destruct (B7 r' Hr') as [Hn Hz]. split; [|done]. cbn. destruct (decide (r' = r)) as [->|]; [by rewrite lookup_alter_eq, Hn|by rewrite lookup_alter_ne].
  - intros r' c Hin Hl. apply El in Hl. destruct (B8 r' c Hin Hl) as (q & Hq & E). exists (if decide (r' = r) then f q else q). split; [by apply onRequest_lookup|]. case_decide; [subst r'|done].
    destruct Hc as [Hc|[_ Hc]]; [by rewrite Hc|]. by destruct (Hc Hl c).
  - eapply outputs_extends; [by apply onRequest_extends|done].
Qed.
Lemma focus_onRequest x r f w : keepsAsker f -> changeable x r f w -> focus x r w -> focus x r (onRequest r f w).
Proof.
  intros Hf Hc [[B I1 I2 I3] F1 F2 F3]. pose proof (fun r' => proj1 (onRequest_fields r f w r' Hf)) as Ep. pose proof (fun r' => proj2 (onRequest_fields r f w r' Hf)) as Eh.
  assert (El : forall r', lively x r' (onRequest r f w) -> lively x r' w) by (intros r' [H ?]; split; [by rewrite <- Ep|done]).
  split; [split|..]; try done.
  - by apply base_onRequest.
  - intros t r' ? ? Hl. eapply I1; try done. by apply El.
  - intros r' c ? Hl Hh. eapply I3; try done; [by apply El|]. unfold handlerless in *. by rewrite <- Eh.
  - destruct F2 as ((q & Hq) & Hh & ? & ?). repeat split; try done; [exists (if decide (r = r) then f q else q); by apply onRequest_lookup|]. unfold handlerless in *. by rewrite Eh.
  - intros Hl. apply F3. by apply El.
Qed.
Lemma base_consent x c w : base x w -> base x (w <| consents := consents w ++ [c] |>).
Proof.
  intros [B1 B2 B3 B4 B5 B6 B7 B8 B9]. split; try done.
  - intros g Hg. destruct (B6 g Hg) as (q & Hq & Ha). exists q. split; [done|]. eapply authorized_more; [|done]. intros c' ?. cbn. apply elem_of_app. by left.
  - eapply outputs_extends; [|done]. split; [intros r q Hq; by exists q|]. intros c' ?. cbn. apply elem_of_app. by left.
Qed.
Lemma focus_consent x r c w : focus x r w -> focus x r (w <| consents := consents w ++ [c] |>).
Proof. intros [[B I1 I2 I3] F1 F2 F3]. split; [split|..]; try done. by apply base_consent. Qed.
Lemma authorized_own q cs : authorized (cs ++ [question q]) q.
Proof. assert (H : question q ∈ cs ++ [question q]) by (apply elem_of_app; right; by apply list_elem_of_singleton). repeat split; intros E; exists (question q); (split; [done|]); (split; [repeat split; by left|done]). Qed.
(** What was granted before is found only for the frame and the origins it was agreed to for. *)
Definition agreedFor (cs : list Consent) (frame origin top : nat) (kind : Consent -> bool) : Prop :=
  exists c, c ∈ cs /\ c_frame c = frame /\ covers (c_origin c) origin /\ covers (c_top c) top /\ kind c = true.
Lemma covers_trans a b c : covers a b -> sameOrigin b c = true -> covers a c.
Proof. intros [->|H] H'; right; [done|by eapply sameOrigin_trans]. Qed.
Lemma agreedFor_here cs q frame origin top kind :
  (exists c, c ∈ cs /\ agrees c q /\ kind c = true) -> sameOrigin (documentOrigin q) origin = true -> sameOrigin (topLevelOrigin q) top = true -> frameID q = frame -> agreedFor cs frame origin top kind.
Proof. intros (c & Hc & (E & Ho & Ht) & Hk) ? ? <-. exists c. repeat split; try done; by eapply covers_trans. Qed.
Lemma searchIn_agreed w frame origin top l : (forall g, g ∈ l -> exists q, requests w !! g = Some q /\ authorized (consents w) q) ->
  forall a v, searchIn w frame origin top a v l = true -> (a = true -> agreedFor (consents w) frame origin top c_audio) /\ (v = true -> agreedFor (consents w) frame origin top c_video).
Proof.
  induction l as [|g l IH]; intros Hl a v; cbn; [done|]. destruct (Hl g (list_elem_of_here _ _)) as (q & Hq & Ha & Hv & _). rewrite Hq.
  assert (Hl' : forall g', g' ∈ l -> exists q, requests w !! g' = Some q /\ authorized (consents w) q) by (intros g' ?; apply Hl; by right). specialize (IH Hl').
  destruct (requiresDisplayCapture q || _ || _ || _) eqn:E; [apply IH|]. apply orb_false_iff in E as [E E3]. apply orb_false_iff in E as [E E2]. apply orb_false_iff in E as [_ E1].
  apply negb_false_iff in E1, E2, E3. apply Nat.eqb_eq in E3. intros H.
  assert (H' : (a && negb (requiresAudioCapture q) = true -> agreedFor (consents w) frame origin top c_audio) /\ (v && negb (requiresVideoCapture q) = true -> agreedFor (consents w) frame origin top c_video)).
  { destruct (v && _), (a && _); cbn in H; by eauto. }
  destruct H' as [H1 H2]. split; intros ->; [clear H2 Hv|clear H1 Ha]; cbn in *.
  - destruct (requiresAudioCapture q); [by eapply agreedFor_here; eauto|by apply H1].
  - destruct (requiresVideoCapture q); [by eapply agreedFor_here; eauto|by apply H2].
Qed.
Lemma granted_before x w q : base x w -> getRequestAction q w = Grant -> authorized (consents w) q.
Proof.
  intros B. unfold getRequestAction. destruct (negb (userGesture q) && _); [done|]. destruct (bool_decide_reflect (requestType q = DisplayMedia)) as [|Ht]; [done|]. cbn.
  destruct (searchForGrantedRequest _ _ _ _ _ _) eqn:E; [intros _|done]. unfold searchForGrantedRequest in E. destruct (isMediaStreamCaptureMuted _); [done|].
  apply searchIn_agreed in E as [Ha Hv]; [|apply B]. repeat split; intros R.
  - destruct (Ha R) as (c & ? & ? & ? & ? & ?). exists c. by repeat split.
  - unfold requiresVideoCapture in R. apply andb_prop in R as [_ R]. destruct (Hv R) as (c & ? & ? & ? & ? & ?). exists c. by repeat split.
  - unfold requiresDisplayCapture in R. by rewrite bool_decide_eq_false_2 in R.
Qed.

(** The current request is answered. *)
Lemma focus_current x r w f : focus x r w -> exists q, requests w !! r = Some q /\ handler q = None /\ withCurrent f w = f r q w.
Proof. intros [_ F1 ((q & Hq) & Hh & _) _]. exists q. unfold handlerless in Hh. rewrite Hq in Hh. unfold withCurrent. by rewrite F1, Hq. Qed.
Lemma focus_withCurrent x r w f : focus x r w -> (forall q, requests w !! r = Some q -> safe x (f r q w)) -> safe x (withCurrent f w).
Proof. intros F H. destruct (focus_current x r w f F) as (q & Hq & _ & ->). by apply H. Qed.
Lemma next_safe x r w : focus x r w -> safe x (processNextUserMediaRequestIfNeeded w).
Proof. intros F. apply processQueue_safe; apply F. Qed.
Lemma denyRequest_safe x r reason constraint w : focus x r w -> safe x (denyRequest r reason constraint w).
Proof.
  intros F. destruct (focus_current x r w (fun _ _ w => w) F) as (q & Hq & Hh & _). unfold denyRequest, denyOnly. rewrite Hq. destruct (running w); cbn [negb]; [|by eapply focus_safe].
  set (w1 := if decide (reason = PermissionDenied) then _ else _). assert (F1 : focus x r w1) by (unfold w1; case_decide; [|done]; eapply focus_same; [|exact F]; repeat split; apply F).
  assert (Hq1 : requests w1 !! r = Some q) by (unfold w1; by case_decide). unfold takeHandler. rewrite Hq1. cbn [mbind option_bind]. rewrite Hh.
  apply (next_safe x r). eapply focus_same; [|exact F1]. apply (same_send x); [apply F1|done].
Qed.
Lemma grantRequest_safe x r w q : focus x r w -> requests w !! r = Some q -> authorized (consents w) q -> safe x (grantRequest r w).
Proof.
  intros F Hq Ha. destruct (focus_current x r w (fun _ _ w => w) F) as (q' & Hq' & Hh & _). simplify_eq. unfold grantRequest. destruct (running w); cbn [negb]; [|by eapply focus_safe].
  unfold takeHandler. rewrite Hq. cbn [mbind option_bind]. rewrite Hh. by eapply focus_grants.
Qed.
Lemma focus_prompt x r w q : focus x r w -> requests w !! r = Some q -> safe x (w <| prompts := prompts w ++ [(r, question q)] |>).
Proof.
  intros F Hq. pose proof (focus_safe x r w F) as S. destruct F as [[[B1 B2 B3 B4 B5 B6 B7 B8 B9] I1 I2 I3] F1 F2 F3]. destruct S as [_ P1 P2 P3 P4 P5].
  assert (Hb : forall r', busy r' (w <| prompts := prompts w ++ [(r, question q)] |>) = (busy r' w + (if Nat.eqb r r' then 1 else 0))%nat) by
    (intros r'; unfold busy; cbn; rewrite pcount_app; unfold pcount at 2; cbn; destruct (Nat.eqb r r'); cbn; lia).
  split; [split|..]; try done.
  - intros r' Hl Hh. rewrite Hb. destruct (Nat.eqb_spec r r') as [<-|]; [rewrite (F3 Hl); lia|specialize (B4 r' Hl Hh); lia].
  - split; [apply B5|]. intros r' Hr'. rewrite Hb. destruct B5 as [_ B5]. destruct (B5 r' Hr') as (? & ? & ? & ? & ?). destruct (Nat.eqb_spec r r') as [<-|]; [by destruct F2 as (_ & _ & _ & ?)|]. repeat split; try done. lia.
  - intros r' Hr'. rewrite Hb. destruct (B7 r' Hr') as [Hn ?]. destruct (Nat.eqb_spec r r') as [<-|]; [by cbn in Hn; rewrite Hq in Hn|]. split; [done|lia].
  - cbn. intros r' c [Hin|E%list_elem_of_singleton]%elem_of_app Hl; [by apply B8|]. injection E as -> ->. by exists q.
  - cbn. intros r' c [Hin|E%list_elem_of_singleton]%elem_of_app Hl Hh; [by eapply P4|]. by injection E as -> ->.
Qed.
(** What comes back belongs to the current request. *)
Lemma focus_done w i t r : safe None w -> tasks w !! i = Some t -> about t = Some r -> (grantsRequest t = Some r \/ (prepares t = Some r /\ lively None r w)) ->
  focus None r (w <| tasks := delete i (tasks w) |>).
Proof.
  intros S Hi Ht Hor. pose proof (safe_delete None w i t Hi S) as S'. pose proof (list_elem_of_lookup_2 _ _ _ Hi) as Hin. destruct S as [B P1 P2 P3 P4 P5].
  assert (Hc : m_currentUserMediaRequest w = Some r) by (destruct Hor as [?|[? ?]]; [by eapply P2|by eapply P1]). destruct (P5 r Hc) as (Hs & Hh & Hg & Hq).
  pose proof (tcount_delete r t _ i Hi) as Et. rewrite bool_decide_eq_true_2 in Et by done.
  assert (Hb : lively None r w -> (tcount r (delete i (tasks w)) + pcount r (prompts w) = 0)%nat) by (intros Hl; pose proof (b_busy _ _ B r Hl Hh) as Hb; unfold busy in Hb; lia).
  split; [split|..]; try done.
  - apply S'.
  - intros t' r' Hin' Hp Hl. change (t' ∈ delete i (tasks w)) in Hin'. pose proof (s_prepares _ _ S' t' r' Hin' Hp Hl) as E. cbn in E. rewrite Hc in E. injection E as <-.
    specialize (Hb Hl). pose proof (tcount_in r t' _ Hin' (prepares_about _ _ Hp)). lia.
  - apply Forall_forall. intros t' Hin'. change (t' ∈ delete i (tasks w)) in Hin'. destruct (grantsRequest t') as [r'|] eqn:E; [exfalso|done]. destruct (P2 t' r' (list_elem_of_delete_inv _ _ _ Hin') E) as [E' _]. rewrite Hc in E'. injection E' as <-.
    destruct Hor as [Hgr|[_ Hl]]; [|specialize (Hb Hl); pose proof (tcount_in r t' _ Hin' (grants_about _ _ E)); lia].
    rewrite (filter_delete _ t _ i Hi) in P3. rewrite bool_decide_eq_true_2 in P3 by (by exists r).
    assert (Hf : t' ∈ List.filter (fun t => bool_decide (is_Some (grantsRequest t))) (delete i (tasks w))) by (apply list_elem_of_In, List.filter_In; split; [by apply list_elem_of_In|by apply bool_decide_eq_true; exists r]).
    destruct (List.filter _ _); [by apply elem_of_nil in Hf|cbn in P3; lia].
  - intros r' c Hin' Hl Hh'. change ((r', c) ∈ prompts w) in Hin'. pose proof (P4 r' c Hin' Hl Hh') as E. rewrite Hc in E. injection E as <-. specialize (Hb Hl). pose proof (pcount_in r c _ Hin'). lia.
Qed.
Lemma focus_device x r w l : focus x r w -> focus x r (w <| m_pendingDeviceRequests := l |>).
Proof. intros F. eapply focus_same; [|exact F]. repeat split. apply F. Qed.
Lemma processRequest_safe r w : focus None r w -> safe None (processUserMediaPermissionRequest w).
Proof. intros F. apply (focus_withCurrent None r); [done|]. intros q _. by eapply focus_prepare. Qed.
Lemma permissionForRequest_safe r info w : focus None r w -> safe None (permissionForRequest r info w).
Proof.
  intros F. unfold permissionForRequest. destruct (pendingRequest r w); cbn [negb]; [|by eapply focus_safe]. destruct info.
  - apply (focus_withCurrent None r); [done|]. intros q _. by apply denyRequest_safe.
  - by apply (processRequest_safe r).
  - destruct (focus_current None r w (fun c _ w => onRequest c (fun q => q <| hasPersistentAccess := true |>) w) F) as (q & Hq & Hh & ->).
    apply (processRequest_safe r). apply focus_onRequest; [by intros ?|by left|done].
Qed.
Lemma saltForRequest_safe r w : focus None r w -> safe None (saltForRequest r w).
Proof.
  intros F. unfold saltForRequest. destruct (pendingRequest r w); cbn [negb]; [|by eapply focus_safe].
  apply (focus_withCurrent None r); [done|]. intros q _. by eapply focus_prepare.
Qed.
Lemma decidePolicy_safe r w : focus None r w -> safe None (decidePolicyForUserMediaPermissionRequest w).
Proof.
  intros F. unfold decidePolicyForUserMediaPermissionRequest. rewrite (f_current _ _ _ F). apply (focus_withCurrent None r); [done|]. intros q Hq.
  destruct (negb _); [by apply denyRequest_safe|by apply (focus_prompt None r)].
Qed.
Lemma validRequest_safe r audio video w : focus None r w -> lively None r w -> safe None (processUserMediaPermissionValidRequest audio video w).
Proof.
  intros F Hl. apply (focus_withCurrent None r); [done|]. intros q _. destruct (_ && _); [by apply denyRequest_safe|].
  set (f := fun q : Request => q <| eligibleVideo := video |> <| eligibleAudio := audio |>).
  assert (F' : focus None r (onRequest r f w)).
  { apply focus_onRequest; [by intros ?| |done]. right. destruct (f_request _ _ _ F) as (_ & _ & Hg & _). split; [done|]. intros _ c Hc. pose proof (pcount_in r c _ Hc). pose proof (f_tasks _ _ _ F Hl) as Hb. unfold busy in Hb. lia. }
  clear F Hl q. apply (focus_withCurrent None r); [done|]. generalize (onRequest r f w), F'. clear F'. intros w1 F q Hq.
  assert (B : base None w1) by apply F. destruct (getRequestAction q w1) eqn:E.
  - by apply denyRequest_safe.
  - rewrite (proj1 (b_page _ _ B)). eapply grantRequest_safe; [done..|]. by eapply granted_before.
  - assert (G : safe None (grantRequest r (consent q w1))) by (eapply grantRequest_safe; [by apply focus_consent|done|apply authorized_own]).
    destruct (automation _) as [[]|]; [done|by apply denyRequest_safe|]. destruct (mockDevicesWithoutPrompt _); [done|by eapply decidePolicy_safe].
Qed.
Lemma validated_safe r result w : focus None r w -> safe None (validated r result w).
Proof.
  intros F. unfold validated. destruct (pendingRequest r w) eqn:Hp; cbn [negb]; [|by eapply focus_safe]. destruct result as [[audio video]|constraint].
  - destruct (_ || _); [by eapply focus_safe|]. by eapply validRequest_safe.
  - destruct (negb _); [by eapply focus_safe|]. apply (focus_withCurrent None r); [done|]. intros q _. by apply denyRequest_safe.
Qed.
Lemma finishGranting_safe r extended w q : focus None r w -> requests w !! r = Some q -> authorized (consents w) q -> safe None (finishGrantingRequest r extended w).
Proof. intros F Hq Ha. unfold finishGrantingRequest. destruct (negb extended); [by apply denyRequest_safe|by eapply focus_grants]. Qed.
Lemma idle_start x t w : about t = None -> idle x w -> idle x (start t w).
Proof.
  intros Ht [B I1 I2 I3]. assert (Hp : prepares t = None) by (unfold about in Ht; by destruct (prepares t)). assert (Hg : grantsRequest t = None) by (unfold about in Ht; rewrite Hp in Ht; done).
  split; try done; cbn.
  - apply base_tasks; [|done]. intros r. rewrite tcount_other by congruence. lia.
  - intros t' r [Hin| ->%list_elem_of_singleton]%elem_of_app ? ?; [by eapply I1|congruence].
  - apply Forall_app. split; [done|by constructor].
Qed.
Lemma base_granted x r w q : base x w -> requests w !! r = Some q -> authorized (consents w) q -> (r ∉ m_pendingUserMediaRequests w) -> base x (w <| m_grantedRequests := m_grantedRequests w ++ [r] |>).
Proof.
  intros [B1 B2 B3 B4 B5 B6 B7 B8 B9] Hq Ha Hp. split; try done.
  - split; [apply B5|]. intros r' Hr'. destruct B5 as [_ B5]. destruct (B5 r' Hr') as (? & ? & ? & ? & ?). repeat split; try done. cbn. rewrite elem_of_app. intros [?| ->%list_elem_of_singleton]; done.
  - cbn. intros g [Hg| ->%list_elem_of_singleton]%elem_of_app; [by apply B6|by exists q].
Qed.
Lemma is_Some_head {A} (l : list A) : is_Some (head l) -> negb (bool_decide (length l = 0%nat)) = true.
Proof. destruct l; [by intros []|done]. Qed.
Lemma granted_agreed w r q : requests w !! r = Some q -> authorized (consents w) q -> grantAgreed w (UserMediaAccessWasGranted (userMediaID q) r (audioDevice q) (videoDevice q)).
Proof.
  intros Hq (Ha & Hv & Hd). exists q. repeat split; try done; intros Hs%is_Some_head; [by apply Ha|]. unfold requiresVideoCapture, requiresDisplayCapture in *. change (hasVideoDevice q = true) in Hs. rewrite Hs in *.
  case_decide as E; [apply Hd|apply Hv]; by rewrite ?bool_decide_eq_true_2, ?bool_decide_eq_false_2 by done.
Qed.
Lemma captureDevicesChangedWith_same x info w : base x w -> same w (captureDevicesChangedWith info w).
Proof. intros B. pose proof (same_self x w B). pose proof (same_send x CaptureDevicesChanged w B eq_refl). unfold captureDevicesChangedWith. destruct info; repeat case_match; done. Qed.
Lemma captureStarted_safe r w q : focus None r w -> requests w !! r = Some q -> authorized (consents w) q -> safe None (captureStarted r w).
Proof.
  intros F Hq Ha. unfold captureStarted. rewrite Hq. set (w1 := if decide (requestType q = UserMedia) then _ else _).
  assert (I1 : idle None w1).
  { unfold w1. case_decide; [|apply F]. destruct F as [[B ? ? ?] _ (_ & _ & _ & ?) _]. split; try done. by eapply base_granted. }
  assert (Hq1 : requests w1 !! r = Some q /\ authorized (consents w1) q) by (unfold w1; by case_decide). set (w2 := if m_hasFilteredDeviceList w1 then _ else _).
  assert (E2 : same w1 w2) by (unfold w2; case_match; [apply (captureDevicesChangedWith_same None)|apply (same_self None)]; apply I1).
  assert (I2 : idle None w2) by (by eapply idle_same). assert (Hq2 : requests w2 !! r = Some q /\ authorized (consents w2) q) by (destruct E2 as (_ & _ & <- & _ & _ & _ & _ & _ & _ & _ & _ & _ & <- & _); done). clearbody w2.
  match goal with |- safe _ (processNextUserMediaRequestIfNeeded ?w') => assert (I3 : idle None w') end.
  { apply idle_start; [done|]. eapply idle_same; [|exact I2]. repeat split. cbn. apply Forall_app. split; [apply I2|]. constructor; [|done]. destruct Hq2. by apply granted_agreed. }
  apply processQueue_safe; apply I3.
Qed.
(** Requests that are decided: nothing about them counts any more. *)
Definition resets (f : Request -> Request) : Prop :=
  forall q, question (f q) = question q /\ sameAsker q (f q) /\ (handler q = None -> handler (f q) = None).
Lemma reset_other r f w r' : r' <> r -> pendingRequest r' (onRequest r f w) = pendingRequest r' w /\ (requests (onRequest r f w) !! r' ≫= handler) = (requests w !! r' ≫= handler).
Proof. intros H. unfold pendingRequest, onRequest. cbn. by rewrite lookup_alter_ne. Qed.
Lemma reset_lively r f w r' : lively (Some r) r' (onRequest r f w) -> lively (Some r) r' w /\ (handlerless r' (onRequest r f w) -> handlerless r' w).
Proof. intros [Hp Hx]. destruct (reset_other r f w r') as [E1 E2]; [congruence|]. unfold lively, handlerless. by rewrite <- E1, <- E2. Qed.
Lemma reset_extends r f w : resets f -> extends w (onRequest r f w).
Proof. intros Hf. split; [|done]. intros r' q Hq. exists (if decide (r' = r) then f q else q). split; [by apply onRequest_lookup|]. case_decide; [apply Hf|done]. Qed.
Lemma reset_authorized r f w g : resets f -> (exists q, requests w !! g = Some q /\ authorized (consents w) q) -> exists q, requests (onRequest r f w) !! g = Some q /\ authorized (consents (onRequest r f w)) q.
Proof.
  intros Hf (q & Hq & Ha). exists (if decide (g = r) then f q else q). split; [by apply onRequest_lookup|]. case_decide; [|done]. eapply authorized_question; [symmetry; apply Hf|done].
Qed.
Lemma base_reset r f w : resets f -> base (Some r) w -> base (Some r) (onRequest r f w).
Proof.
  intros Hf [B1 B2 B3 B4 B5 B6 B7 B8 B9]. split; try done.
  - intros r' [Hl Hh']%reset_lively Hh. by apply B4; [|apply Hh'].
  - split; [apply B5|]. intros r' Hr'. destruct B5 as [_ B5]. destruct (B5 r' Hr') as (? & ? & ? & ? & Hx). unfold handlerless. destruct (reset_other r f w r') as [-> ->]; [congruence|done].
  - intros g Hg. apply reset_authorized; [done|by apply B6].
  - intros r' Hr'. destruct (B7 r' Hr') as [Hn Hz]. split; [|done]. cbn. destruct (decide (r' = r)) as [->|]; [by rewrite lookup_alter_eq, Hn|by rewrite lookup_alter_ne].
  - intros r' c Hin [Hl _]%reset_lively. destruct (B8 r' c Hin Hl) as (q & Hq & E). destruct Hl as [_ Hx]. exists q. split; [|done]. rewrite (onRequest_lookup r f w r' q Hq), decide_False; congruence.
  - eapply outputs_extends; [by apply reset_extends|done].
Qed.
Lemma safe_reset r f w : resets f -> safe (Some r) w -> safe (Some r) (onRequest r f w).
Proof.
  intros Hf [B P1 P2 P3 P4 P5]. split; try done.
  - by apply base_reset.
  - intros t r' ? ? [? _]%reset_lively. by eapply P1.
  - intros t r' Hin Hg. destruct (P2 t r' Hin Hg) as [Hc Ha]. split; [done|by apply reset_authorized].
  - intros r' c ? [Hl Hh']%reset_lively Hh. eapply P4; [done..|by apply Hh'].
  - intros r' Hr'. destruct (P5 r' Hr') as ((q & Hq) & Hh & ? & ?). unfold handlerless in *. rewrite Hq in Hh. rewrite (onRequest_lookup r f w r' q Hq). repeat split; try done. cbn in *. case_decide; [by apply Hf|done].
Qed.
Lemma idle_reset r f w : resets f -> idle (Some r) w -> idle (Some r) (onRequest r f w).
Proof.
  intros Hf [B I1 I2 I3]. split; try done; [by apply base_reset|..].
  - intros t r' ? ? [? _]%reset_lively. by eapply I1.
  - intros r' c ? [Hl Hh']%reset_lively Hh. eapply I3; [done..|by apply Hh'].
Qed.
Lemma lively_include r r' w : pendingRequest r w = false -> lively None r' w -> lively (Some r) r' w.
Proof. intros Hp [Hp' _]. split; [done|]. intros [= ->]. congruence. Qed.
Lemma base_include r w : pendingRequest r w = false -> base (Some r) w -> base None w.
Proof.
  intros Hp [B1 B2 B3 B4 B5 B6 B7 B8 B9]. split; try done.
  - intros r' Hl%(lively_include r) ?; [by apply B4|done].
  - split; [apply B5|]. intros r' Hr'. destruct B5 as [_ B5]. destruct (B5 r' Hr') as (? & ? & ? & ? & ?). by repeat split.
  - intros r' c ? Hl%(lively_include r); [by apply B8|done].
Qed.
Lemma safe_include r w : pendingRequest r w = false -> safe (Some r) w -> safe None w.
Proof.
  intros Hp [B P1 P2 P3 P4 P5]. split; try done; [by eapply base_include|..].
  - intros t r' ? ? Hl%(lively_include r); [by eapply P1|done].
  - intros r' c ? Hl%(lively_include r) ?; [by eapply P4|done].
Qed.
Lemma idle_include r w : pendingRequest r w = false -> idle (Some r) w -> idle None w.
Proof.
  intros Hp [B I1 I2 I3]. split; try done; [by eapply base_include|..].
  - intros t r' ? ? Hl%(lively_include r); [by eapply I1|done].
  - intros r' c ? Hl%(lively_include r) ?; [by eapply I3|done].
Qed.
Lemma invalidated r w : pendingRequest r (invalidate r w) = false.
Proof.
  assert (H : pendingRequest r (onRequest r (fun q => q <| isPending := false |>) w) = false) by (unfold pendingRequest, onRequest; cbn; rewrite lookup_alter_eq; by destruct (requests w !! r)).
  unfold invalidate, takeHandler. destruct (_ ≫= handler); [|done]. unfold pendingRequest in *. cbn in *. rewrite lookup_alter_eq. by destruct (alter _ r (requests w) !! r).
Qed.
Lemma resets_pending : resets (fun q => q <| isPending := false |>).
Proof. by intros ?. Qed.
Lemma resets_handler : resets (fun q => q <| handler := None |>).
Proof. by intros ?. Qed.
Lemma invalidate_safe r w : safe (Some r) w -> safe None (invalidate r w).
Proof.
  intros S. apply (safe_include r); [apply invalidated|]. apply (safe_reset r _ _ resets_pending) in S. unfold invalidate, takeHandler. destruct (_ ≫= handler); [|done].
  apply (safe_reset r _ _ resets_handler) in S. eapply safe_same; [|exact S]. apply (same_send (Some r)); [apply S|done].
Qed.
Lemma invalidate_idle r w : idle (Some r) w -> idle None (invalidate r w).
Proof.
  intros S. apply (idle_include r); [apply invalidated|]. apply (idle_reset r _ _ resets_pending) in S. unfold invalidate, takeHandler. destruct (_ ≫= handler); [|done].
  apply (idle_reset r _ _ resets_handler) in S. eapply idle_same; [|exact S]. apply (same_send (Some r)); [apply S|done].
Qed.

(** The user decides. *)
Lemma focus_prompted r c w : safe None w -> (r, c) ∈ prompts w -> pendingRequest r w = true -> handlerless r w -> focus (Some r) r w.
Proof.
  intros S Hin Hp Hh. assert (Hl : lively None r w) by done. destruct S as [B P1 P2 P3 P4 P5]. pose proof (P4 r c Hin Hl Hh) as Hc. destruct (P5 r Hc) as (Hs & _ & Hg & Hq).
  split; [split|..]; try done.
  - by apply base_exclude.
  - intros t r' Ht Hpr [Hp' Hx]. assert (E : m_currentUserMediaRequest w = Some r') by (by eapply P1). congruence.
  - apply Forall_forall. intros t Ht. destruct (grantsRequest t) as [r'|] eqn:E; [exfalso|done]. destruct (P2 t r' Ht E) as [E' _]. rewrite Hc in E'. injection E' as <-.
    pose proof (b_busy _ _ B r Hl Hh) as Hb. unfold busy in Hb. pose proof (tcount_in r t _ Ht (grants_about _ _ E)). pose proof (pcount_in r c _ Hin). lia.
  - intros r' c' Hin' [Hp' Hx] Hh'. assert (E : m_currentUserMediaRequest w = Some r') by (by eapply P4). congruence.
  - by intros [_ ?].
Qed.
(** A request with a handler is not in the queue and not the current one. *)
Lemma handler_apart w r n : safe None w -> (requests w !! r ≫= handler) = Some n -> (r ∉ m_pendingUserMediaRequests w) /\ m_currentUserMediaRequest w <> Some r.
Proof.
  intros S Hn. split.
  - intros Hin. destruct (b_queue _ _ (s_base _ _ S)) as [_ Hq]. destruct (Hq r Hin) as (_ & Hh & _). unfold handlerless in Hh. congruence.
  - intros Hc. destruct (s_current _ _ S r Hc) as (_ & Hh & _). unfold handlerless in Hh. congruence.
Qed.
Lemma safe_consent x c w : safe x w -> safe x (w <| consents := consents w ++ [c] |>).
Proof.
  intros [B P1 P2 P3 P4 P5]. split; try done; [by apply base_consent|]. intros t r Hin Hg. destruct (P2 t r Hin Hg) as (Hc & q & Hq & Ha). split; [done|]. exists q. split; [done|]. eapply authorized_more; [|done].
  intros c' ?. cbn. apply elem_of_app. by left.
Qed.
Lemma safe_grantedRequest x r w q : safe x w -> requests w !! r = Some q -> authorized (consents w) q -> (r ∉ m_pendingUserMediaRequests w) -> m_currentUserMediaRequest w <> Some r -> safe x (w <| m_grantedRequests := m_grantedRequests w ++ [r] |>).
Proof.
  intros [B P1 P2 P3 P4 P5] Hq Ha Hp Hc. split; try done; [by eapply base_granted|]. intros r' Hr'. destruct (P5 r' Hr') as (? & ? & ? & ?). repeat split; try done. cbn. rewrite elem_of_app. intros [?| ->%list_elem_of_singleton]; done.
Qed.
Lemma allow_safe r c w : safe None w -> (r, c) ∈ prompts w -> safe None (allow r c w).
Proof.
  intros S Hin. unfold allow. destruct (pendingRequest r w) eqn:Hp; cbn [negb]; [|done]. apply invalidate_safe.
  destruct (b_prompts _ _ (s_base _ _ S) r c Hin) as (q & Hq & <-); [done|]. set (w1 := w <| consents := consents w ++ [question q] |>).
  assert (Ha : authorized (consents w1) q) by apply authorized_own. assert (S1 : safe None w1) by (by apply safe_consent). destruct (handler q) as [n|] eqn:Hh.
  - assert (Hn : (requests w1 !! r ≫= handler) = Some n) by (cbn; by rewrite Hq). destruct (handler_apart w1 r n S1 Hn) as [H1 H2]. pose proof (safe_exclude r w1 H1 S1) as S2.
    unfold grantRequest. destruct (running w1); cbn [negb]; [|done]. unfold takeHandler. rewrite Hn. pose proof (safe_reset r _ w1 resets_handler S2) as S3.
    set (w2 := onRequest r (fun q => q <| handler := None |>) w1) in *. assert (S4 : safe (Some r) (w2 <| m_grantedRequests := m_grantedRequests w2 ++ [r] |>)).
    { eapply (safe_grantedRequest (Some r) r w2); [exact S3|unfold w2; rewrite (onRequest_lookup r _ w1 r q Hq); by rewrite decide_True|by eapply authorized_question; [|exact Ha]|done..]. }
    eapply safe_same; [|exact S4]. apply (same_send (Some r)); [apply S4|done].
  - apply (grantRequest_safe _ r w1 q); [|done|done]. apply focus_consent. eapply focus_prompted; try done. unfold handlerless. by rewrite Hq.
Qed.
Lemma deny_safe r c reason w : safe None w -> (r, c) ∈ prompts w -> safe None (deny r reason w).
Proof.
  intros S Hin. unfold deny. destruct (pendingRequest r w) eqn:Hp; cbn [negb]; [|done]. apply invalidate_safe.
  destruct (b_prompts _ _ (s_base _ _ S) r c Hin) as (q & Hq & <-); [done|]. destruct (handler q) as [n|] eqn:Hh.
  - assert (Hn : (requests w !! r ≫= handler) = Some n) by (by rewrite Hq). destruct (handler_apart w r n S Hn) as [H1 H2]. pose proof (safe_exclude r w H1 S) as S2.
    unfold denyRequest, denyOnly. rewrite Hq. destruct (running w); cbn [negb]; [|done]. set (w1 := if decide (reason = PermissionDenied) then _ else _).
    assert (S3 : safe (Some r) w1) by (unfold w1; case_decide; [|done]; eapply safe_same; [|exact S2]; repeat split; apply S2).
    assert (Hn1 : (requests w1 !! r ≫= handler) = Some n) by (unfold w1; by case_decide). unfold takeHandler. rewrite Hn1. apply (safe_reset r _ _ resets_handler) in S3.
    eapply safe_same; [|exact S3]. apply (same_send (Some r)); [apply S3|done].
  - apply denyRequest_safe. eapply focus_prompted; try done. unfold handlerless. by rewrite Hq.
Qed.
(** The web process asks. *)
Lemma fresh_quiet x w r : base x w -> (nextRequest w <= r)%nat -> requests w !! r = None /\ (forall t, t ∈ tasks w -> about t <> Some r) /\ (forall c, (r, c) ∉ prompts w).
Proof.
  intros B Hr. destruct (b_fresh _ _ B r Hr) as [Hn Hz]. unfold busy in Hz. split; [done|split].
  - intros t Ht E. pose proof (tcount_in r t _ Ht E). lia.
  - intros c Hc. pose proof (pcount_in r c _ Hc). lia.
Qed.
Lemma newRequest_safe q w : safe None w -> safe None (snd (newRequest q w)).
Proof.
  intros [B P1 P2 P3 P4 P5]. destruct (fresh_quiet None w (nextRequest w) B (le_n _)) as (Hn & Ht & Hp). destruct (b_fresh _ _ B (nextRequest w) (le_n _)) as [_ Hz].
  unfold newRequest. cbn [snd]. set (r := nextRequest w) in *. set (w' := w <| requests := <[r := q]> (requests w) |> <| nextRequest := S r |>).
  assert (El : forall r', r' <> r -> requests w' !! r' = requests w !! r') by (intros; cbn; by apply lookup_insert_ne).
  assert (Er : forall r' q', requests w !! r' = Some q' -> requests w' !! r' = Some q') by (intros r' q' H; rewrite El; congruence).
  assert (Ev : forall r', r' <> r -> lively None r' w' -> lively None r' w) by (intros r' Hne [H ?]; split; [unfold pendingRequest in *; by rewrite El in H|done]).
  assert (Eh : forall r', r' <> r -> handlerless r' w' -> handlerless r' w) by (intros r' Hne; unfold handlerless; by rewrite El).
  assert (Ex : forall g, (exists q, requests w !! g = Some q /\ authorized (consents w) q) -> exists q, requests w' !! g = Some q /\ authorized (consents w') q) by (intros g (q' & ? & ?); exists q'; split; [by apply Er|done]).
  destruct B as [B1 B2 B3 B4 B5 B6 B7 B8 B9]. split; [split|..]; try done.
  - intros r' Hl Hh. destruct (decide (r' = r)) as [->|Hne]; [by change (busy r w' <= 1)%nat with (busy r w <= 1)%nat; rewrite Hz; lia|by apply B4; [apply Ev|apply Eh]].
  - split; [apply B5|]. intros r' Hr'. destruct B5 as [_ B5]. destruct (B5 r' Hr') as (H1 & H2 & ? & ? & ?). assert (Hne : r' <> r) by (intros ->; unfold pendingRequest in H1; by rewrite Hn in H1).
    unfold pendingRequest, handlerless in *. rewrite (El r' Hne). by repeat split.
  - intros g Hg. apply Ex. by apply B6.
  - intros r' Hr'. cbn in Hr'. destruct (B7 r' ltac:(lia)) as [? ?]. split; [rewrite El; [done|lia]|done].
  - intros r' c Hin Hl. assert (Hne : r' <> r) by (intros ->; by apply (Hp c)). destruct (B8 r' c Hin (Ev r' Hne Hl)) as (q' & ? & ?). exists q'. split; [by apply Er|done].
  - eapply outputs_extends; [|done]. split; [|done]. intros r' q' H. exists q'. split; [by apply Er|done].
  - intros t r' Hin Hpr Hl. assert (Hne : r' <> r) by (intros ->; by apply (Ht t Hin), prepares_about). eapply P1; [done..|by apply Ev].
  - intros t r' Hin Hg. destruct (P2 t r' Hin Hg) as [? ?]. split; [done|by apply Ex].
  - intros r' c Hin Hl Hh. assert (Hne : r' <> r) by (intros ->; by apply (Hp c)). eapply P4; [done|by apply Ev|by apply Eh].
  - intros r' Hr'. destruct (P5 r' Hr') as ((q' & Hq') & Hh & ? & ?). unfold handlerless in *. rewrite (Er r' q' Hq'), Hq' in *. by repeat split.
Qed.
Lemma newRequest_waits q w : safe None w -> isPending q = true -> handler q = None -> waits None (nextRequest w) (snd (newRequest q w)) /\ (nextRequest w ∉ m_pendingUserMediaRequests w) /\ m_currentUserMediaRequest w <> Some (nextRequest w).
Proof.
  intros S Hp Hh. destruct (b_fresh _ _ (s_base _ _ S) (nextRequest w) (le_n _)) as [Hn Hz]. unfold waits, pendingRequest, handlerless, newRequest. cbn. rewrite lookup_insert_eq. repeat split; try done.
  - intros Hg. destruct (b_granted _ _ (s_base _ _ S) _ Hg) as (q' & ? & _). congruence.
  - intros Hin. destruct (b_queue _ _ (s_base _ _ S)) as [_ Hq]. destruct (Hq _ Hin) as (H & _). unfold pendingRequest in H. by rewrite Hn in H.
  - intros Hc. destruct (s_current _ _ S _ Hc) as ([q' H] & _). congruence.
Qed.
Lemma safe_enqueue r w : safe None w -> waits None r w -> (r ∉ m_pendingUserMediaRequests w) -> m_currentUserMediaRequest w <> Some r -> safe None (w <| m_pendingUserMediaRequests := m_pendingUserMediaRequests w ++ [r] |>).
Proof.
  intros [B P1 P2 P3 P4 P5] Hw Hr Hc. destruct B as [B1 B2 B3 B4 [B5 B5'] B6 B7 B8 B9]. split; [split|..]; try done.
  - split; [cbn; apply NoDup_app; repeat split; [done| |apply NoDup_singleton]; by intros r' ? ->%list_elem_of_singleton|]. cbn. intros r' [Hr'| ->%list_elem_of_singleton]%elem_of_app; [by apply B5'|done].
  - intros r' Hr'. destruct (P5 r' Hr') as (? & ? & ? & ?). repeat split; try done. cbn. rewrite elem_of_app. intros [?| ->%list_elem_of_singleton]; done.
Qed.
Lemma requestMedia_safe id frame origin top type gesture w : safe None w -> safe None (requestUserMediaPermissionForFrame id frame origin top type gesture w).
Proof.
  intros S. unfold requestUserMediaPermissionForFrame. destruct (_ || _); [done|]. destruct (b_page _ _ (s_base _ _ S)) as [_ [[main o] Hm]]. rewrite Hm.
  set (q := mkRequest true id main frame origin top [] [] type gesture false None). pose proof (newRequest_safe q w S) as S'. destruct (newRequest_waits q w S eq_refl eq_refl) as (Hw & Hp & Hc).
  destruct (newRequest q w) as [r w'] eqn:E. injection E as <- E. cbn [snd] in *. assert (Ec : m_currentUserMediaRequest w' = m_currentUserMediaRequest w /\ m_pendingUserMediaRequests w' = m_pendingUserMediaRequests w) by (by subst w').
  destruct Ec as [Ec Ep]. destruct (m_currentUserMediaRequest w') eqn:Ew; [apply safe_enqueue; congruence|].
  destruct (b_flags _ _ (s_base _ _ S')) as (_ & _ & _ & ->). cbn [negb]. unfold startProcessingUserMediaPermissionRequest. destruct (b_queue _ _ (s_base _ _ S')) as [Hn Hq]. apply processQueue_safe.
  - by apply safe_idle.
  - apply NoDup_cons. split; [by rewrite Ep|done].
  - intros r' [->|Hr']%elem_of_cons; [done|by apply Hq].
Qed.
Lemma safe_speechPrompt r w q n : safe None w -> requests w !! r = Some q -> handler q = Some n -> safe None (w <| prompts := prompts w ++ [(r, question q)] |>).
Proof.
  intros S Hq Hn. destruct (handler_apart w r n S) as [Hr _]; [by rewrite Hq|]. destruct S as [[B1 B2 B3 B4 B5 B6 B7 B8 B9] P1 P2 P3 P4 P5].
  assert (Hb : forall r', r' <> r -> busy r' (w <| prompts := prompts w ++ [(r, question q)] |>) = busy r' w) by
    (intros r' Hne; unfold busy; cbn; rewrite pcount_app; unfold pcount at 2; cbn; destruct (Nat.eqb_spec r r'); [congruence|cbn; lia]).
  assert (Hh : ~ handlerless r w) by (unfold handlerless; rewrite Hq; cbn; congruence).
  split; [split|..]; try done.
  - intros r' Hl Hh'. rewrite Hb; [by apply B4|]. by intros ->.
  - split; [apply B5|]. intros r' Hr'. rewrite Hb; [by apply B5|]. by intros ->.
  - intros r' Hr'. rewrite Hb; [by apply B7|]. intros ->. destruct (B7 r Hr') as [? _]. congruence.
  - cbn. intros r' c [Hin|E%list_elem_of_singleton]%elem_of_app Hl; [by apply B8|]. injection E as -> ->. by exists q.
  - cbn. intros r' c [Hin|E%list_elem_of_singleton]%elem_of_app Hl Hh'; [by eapply P4|]. by injection E as -> ->.
Qed.
Lemma newRequest_taken q w : snd (takeHandler (nextRequest w) (snd (newRequest q w))) = snd (newRequest (q <| handler := None |>) w).
Proof. unfold takeHandler, newRequest, onRequest. cbn. by rewrite alter_insert_eq. Qed.
Lemma safe_send x o w : harmless o = true -> safe x w -> safe x (send o w).
Proof. intros Ho S. eapply safe_same; [|exact S]. apply (same_send x); [apply S|done]. Qed.
Lemma speech_safe frame origin top device callback w : safe None w -> safe None (checkUserMediaPermissionForSpeechRecognition frame origin top device callback w).
Proof.
  intros S. unfold checkUserMediaPermissionForSpeechRecognition. destruct (negb _); [by apply safe_send|].
  set (q := mkRequest true 0 frame frame origin top [] [device] UserMedia false false (Some callback)). pose proof (newRequest_safe q w S) as S'. pose proof (newRequest_safe (q <| handler := None |>) w S) as S''. rewrite <- newRequest_taken in S''.
  assert (Hq : requests (snd (newRequest q w)) !! nextRequest w = Some q) by (cbn; apply lookup_insert_eq).
  destruct (newRequest q w) as [r w'] eqn:E. assert (r = nextRequest w) as -> by (by injection E as <- _). cbn [snd] in *.
  destruct (getRequestAction q w'); [by apply safe_send..|by eapply safe_speechPrompt].
Qed.
(** Devices are listed, the page changes. *)
Lemma safe_device x w l u : safe x w -> safe x (w <| uniqueRequestID := u |> <| m_pendingDeviceRequests := l |>).
Proof. intros S. eapply safe_same; [|exact S]. repeat split. apply S. Qed.
Lemma askPermissionInfo_safe then_ w : (forall r, then_ <> ForRequest r) -> safe None w -> safe None (askPermissionInfo then_ w).
Proof. intros Ht S. apply safe_start; [destruct then_; [by edestruct Ht|done..]|by apply safe_device]. Qed.
Lemma permissionForEnumeration_safe frame origin top callback info w : safe None w -> safe None (permissionForEnumeration frame origin top callback info w).
Proof. intros S. unfold permissionForEnumeration. repeat case_match; try (by apply safe_send); by apply safe_start, safe_device. Qed.
Lemma captureDevicesChangedWith_safe info w : safe None w -> safe None (captureDevicesChangedWith info w).
Proof. intros S. eapply safe_same; [|exact S]. apply (captureDevicesChangedWith_same None), S. Qed.
Lemma takeDeviceRequest_safe id w : safe None w -> safe None (snd (takeDeviceRequest id w)).
Proof. intros S. eapply safe_same; [|exact S]. repeat split. apply S. Qed.
Lemma safe_granted_sub x w l p d f : (forall g, g ∈ l -> g ∈ m_grantedRequests w) -> p = [] -> safe x w ->
  safe x (w <| m_grantedRequests := l |> <| m_pregrantedRequests := p |> <| m_deniedRequests := d |> <| m_hasFilteredDeviceList := f |>).
Proof.
  intros Hl -> [[B1 B2 B3 B4 B5 B6 B7 B8 B9] P1 P2 P3 P4 P5]. split; [split|..]; try done.
  - split; [done|apply B1].
  - split; [apply B5|]. intros r Hr. destruct B5 as [_ B5]. destruct (B5 r Hr) as (? & ? & ? & Hg & ?). repeat split; try done. intros ?. by apply Hg, Hl.
  - intros g Hg. by apply B6, Hl.
  - intros r Hr. destruct (P5 r Hr) as (? & ? & Hg & ?). repeat split; try done. intros ?. by apply Hg, Hl.
Qed.
Lemma resetAccess_safe frame w : safe None w -> safe None (resetAccess frame w).
Proof. intros S. apply safe_granted_sub; [|done..]. intros g Hg%list_elem_of_In. apply list_elem_of_In. by apply List.filter_In in Hg as [? _]. Qed.
Lemma stopMedia_safe w : safe None w -> safe None (stopMediaCapture w).
Proof. intros S. unfold stopMediaCapture. destruct (negb _); [done|]. by apply safe_send, resetAccess_safe. Qed.
Lemma invalidate_fields r w : m_pendingUserMediaRequests (invalidate r w) = m_pendingUserMediaRequests w /\ m_currentUserMediaRequest (invalidate r w) = m_currentUserMediaRequest w /\ tasks (invalidate r w) = tasks w.
Proof. unfold invalidate, takeHandler. by destruct (_ ≫= handler). Qed.
Lemma idle_exclude r w : m_pendingUserMediaRequests w = [] -> idle None w -> idle (Some r) w.
Proof.
  intros Hp [B I1 I2 I3]. split; try done; [apply base_exclude; [rewrite Hp; apply not_elem_of_nil|done]|..].
  - intros t r' ? ? ?%lively_none. by eapply I1.
  - intros r' c ? ?%lively_none ?. by eapply I3.
Qed.
Lemma invalidateAll_idle l : forall w, m_pendingUserMediaRequests w = [] -> m_currentUserMediaRequest w = None -> idle None w ->
  let w' := fold_left (fun w r => invalidate r w) l w in m_currentUserMediaRequest w' = None /\ idle None w'.
Proof.
  induction l as [|r l IH]; intros w Hp Hc I; [done|]. cbn [fold_left]. destruct (invalidate_fields r w) as (E1 & E2 & _). apply IH; [congruence..|]. by apply invalidate_idle, idle_exclude.
Qed.
Lemma clear_safe w : safe None w -> Forall (fun t => grantsRequest t = None) (tasks w) -> safe None (clearCachedState w).
Proof.
  intros S Hg. unfold clearCachedState, invalidatePendingRequests. set (w1 := match m_currentUserMediaRequest w with Some r => _ | None => _ end).
  assert (H1 : m_currentUserMediaRequest w1 = None /\ idle None w1).
  { unfold w1. destruct (m_currentUserMediaRequest w) as [r|] eqn:Hc; [split; [done|]|split; [done|by apply safe_idle]].
    destruct (s_current _ _ S r Hc) as (_ & _ & _ & Hr). pose proof (invalidate_safe r w (safe_exclude r w Hr S)) as [B P1 P2 P3 P4 P5]. destruct (invalidate_fields r w) as (_ & E2 & E3). rewrite E2, Hc in *.
    destruct B. rewrite <- E3 in Hg. split; try done.
    - intros t r' Ht Hpr [Hl _]. assert (E : Some r = Some r') by (by eapply P1). injection E as <-. change (pendingRequest r (invalidate r w) = true) in Hl. by rewrite invalidated in Hl.
    - intros r' c Ht [Hl _] Hh. assert (E : Some r = Some r') by (by eapply P4). injection E as <-. change (pendingRequest r (invalidate r w) = true) in Hl. by rewrite invalidated in Hl. }
  destruct H1 as [C1 I1]. clearbody w1. assert (I1' : idle None (w1 <| m_pendingUserMediaRequests := [] |>)).
  { pose proof (idle_queue None w1 [] None I1 (NoDup_nil_2) (fun r H => match not_elem_of_nil r H with end)) as I. eapply idle_same; [|exact I]. repeat split; [by symmetry|apply I]. }
  assert (E1 : m_pendingUserMediaRequests (w1 <| m_pendingUserMediaRequests := [] |>) = []) by done.
  destruct (invalidateAll_idle (m_pendingUserMediaRequests w1) _ E1 C1 I1') as [C2 I2]. cbv zeta. set (w2 := fold_left _ _ _) in *. clearbody w2.
  rewrite (proj1 (b_flags _ _ (i_base _ _ I2))). cbn [fold_left]. apply idle_safe; [|cbn; congruence]. eapply idle_same; [|exact I2]. repeat split; [|apply I2]. apply (b_flags _ _ (i_base _ _ I2)).
Qed.

Lemma taskDone_safe i t x w : safe None w -> tasks w !! i = Some t -> safe None (complete t x (w <| tasks := delete i (tasks w) |>)).
Proof.
  intros S Hi. pose proof (safe_delete None w i t Hi S) as S'. pose proof (fun r => focus_done w i t r S Hi) as F. set (w1 := w <| tasks := delete i (tasks w) |>) in *.
  assert (Hgr : forall r, grantsRequest t = Some r -> exists q, requests w1 !! r = Some q /\ authorized (consents w1) q) by (intros r Hg; eapply (s_grants _ _ S t r); [by eapply list_elem_of_lookup_2|done]).
  assert (Hdead : forall r, prepares t = Some r -> pendingRequest r w1 = true -> focus None r w1) by (intros r Hp Hl; apply F; [by apply prepares_about|by right]).
  destruct t; cbn [complete].
  - unfold permissionChecked, takeDeviceRequest. cbv beta iota zeta. set (l := filter _ _). destruct then_.
    + destruct (pendingRequest r w1) eqn:Hl; [by apply permissionForRequest_safe, focus_device, Hdead|].
      unfold permissionForRequest. replace (pendingRequest r (w1 <| m_pendingDeviceRequests := l |>)) with false by done. by apply (takeDeviceRequest_safe requestID).
    + by apply captureDevicesChangedWith_safe, (takeDeviceRequest_safe requestID).
    + by apply permissionForEnumeration_safe, (takeDeviceRequest_safe requestID).
  - destruct (pendingRequest r w1) eqn:Hl; [by apply saltForRequest_safe, Hdead|]. unfold saltForRequest. by rewrite Hl.
  - destruct (pendingRequest r w1) eqn:Hl; [by apply validated_safe, Hdead|]. unfold validated. by rewrite Hl.
  - destruct (Hgr r eq_refl) as (q & Hq & Ha). eapply finishGranting_safe; [|done..]. apply F; [done|by left].
  - destruct (Hgr r eq_refl) as (q & Hq & Ha). eapply captureStarted_safe; [|done..]. apply F; [done|by left].
  - eapply safe_same; [|exact S']. repeat split. apply S'.
  - unfold saltForEnumeration. pose proof (takeDeviceRequest_safe requestID w1 S') as S2. destruct (takeDeviceRequest requestID w1) as [[] w2]; [|by apply safe_send]. destruct (negb _); [by apply safe_send|by apply safe_start].
  - unfold devicesForEnumeration. apply safe_send; [done|]. eapply safe_same; [|exact S']. repeat split. apply S'.
Qed.
Lemma takeDevice_length id l d l' : takeDevice id l = Some (d, l') -> length l = S (length l').
Proof.
  revert d l'. induction l as [|d0 l IH]; intros d l'; cbn; [done|]. destruct (bool_decide _); [by intros [= <- <-]|]. destruct (takeDevice id l) as [[d1 l1]|] eqn:E; [|done]. intros [= <- <-]. cbn. by rewrite (IH d1 l1).
Qed.
Lemma chooseDevice_length id l l' : chooseDevice id l = Some l' -> length l' = length l.
Proof. unfold chooseDevice, setDeviceAsFirst. destruct (bool_decide _); [by intros [= ->]|]. destruct (takeDevice id l) as [[d l1]|] eqn:E; [|done]. intros [= <-]. apply takeDevice_length in E. cbn. lia. Qed.
Lemma safe_chosen r w q audio video : safe None w -> requests w !! r = Some q -> length audio = length (eligibleAudio q) -> length video = length (eligibleVideo q) ->
  safe None (onRequest r (fun q => q <| eligibleAudio := audio |> <| eligibleVideo := video |>) w).
Proof.
  intros [B P1 P2 P3 P4 P5] Hq Ha Hv. set (f := fun q : Request => q <| eligibleAudio := audio |> <| eligibleVideo := video |>). assert (Hf : keepsAsker f) by (by intros ?).
  assert (Eq : question (f q) = question q) by (unfold question, requiresAudioCapture, requiresVideoCapture, requiresDisplayCapture, hasAudioDevice, hasVideoDevice; cbn; by rewrite Ha, Hv).
  pose proof (fun r' => proj1 (onRequest_fields r f w r' Hf)) as Ep. pose proof (fun r' => proj2 (onRequest_fields r f w r' Hf)) as Eh.
  assert (El : forall r', lively None r' (onRequest r f w) -> lively None r' w) by (intros r' [H ?]; split; [by rewrite <- Ep|done]).
  split; try done.
  - apply base_onRequest; [done| |done]. left. intros q' Hq'. rewrite Hq in Hq'. by injection Hq' as <-.
  - intros t r' ? ? Hl. eapply P1; [done..|by apply El].
  - intros t r' Hin Hg. destruct (P2 t r' Hin Hg) as (? & q' & Hq' & Ha'). split; [done|]. exists (if decide (r' = r) then f q' else q'). split; [by apply onRequest_lookup|]. case_decide; [subst r'|done].
    rewrite Hq in Hq'. injection Hq' as <-. by eapply authorized_question.
  - intros r' c ? Hl Hh. eapply P4; [done|by apply El|]. unfold handlerless in *. by rewrite <- Eh.
  - intros r' Hr'. destruct (P5 r' Hr') as ((q' & Hq') & Hh & ? & ?). unfold handlerless in *. rewrite Eh. repeat split; try done. exists (if decide (r' = r) then f q' else q'). by apply onRequest_lookup.
Qed.
Lemma exec_safe e w : orderly w e -> safe None w -> safe None (exec e w).
Proof.
  intros O S. destruct e; cbn [exec orderly] in *.
  - by apply requestMedia_safe.
  - by apply speech_safe.
  - unfold enumerateMediaDevicesForFrame. destruct (negb _); [done|]. destruct (stillShown _ _ _); [by apply askPermissionInfo_safe|by apply permissionForEnumeration_safe].
  - destruct (tasks w !! i) as [t|] eqn:Hi; [|done]. by apply taskDone_safe.
  - destruct (prompts w !! prompt) as [[r c]|] eqn:Hi; [|done]. unfold allowDevices. destruct (requests w !! r) as [q|] eqn:Hq; [|done]. destruct (O r c q eq_refl Hq) as [[audio Ha] [video Hv]]. rewrite Ha, Hv.
    apply allow_safe; [eapply safe_chosen; [done..|by eapply chooseDevice_length|by eapply chooseDevice_length]|by eapply list_elem_of_lookup_2].
  - destruct (prompts w !! prompt) as [[r c]|] eqn:Hi; [|done]. eapply deny_safe; [done|by eapply list_elem_of_lookup_2].
  - destruct (b_flags _ _ (s_base _ _ S)) as (_ & _ & -> & _). done.
  - destruct S as [[B1 B2 B3 B4 B5 B6 B7 B8 B9] P1 P2 P3 P4 P5]. split; [split|..]; done.
  - unfold viewIsBecomingVisible. destruct (b_flags _ _ (s_base _ _ S)) as (E & _). rewrite E. cbn. eapply safe_same; [|exact S]. repeat split; [done|apply S].
  - unfold captureDevicesChanged. destruct (negb _); [done|]. destruct (mainFrame _) as [[f o]|]; [|done]. destruct (stillShown _ _ _); [by apply askPermissionInfo_safe|by apply captureDevicesChangedWith_safe].
  - by apply resetAccess_safe.
  - by apply stopMedia_safe.
  - by apply clear_safe.
  - subst b. unfold setCaptureEnabled. destruct (b_flags _ _ (s_base _ _ S)) as (_ & _ & _ & ->). done.
  - unfold watchdogTimerFired. apply (safe_granted_sub None w [] [] (m_deniedRequests w) false) in S; [|by intros g ?%elem_of_nil|done]. eapply safe_same; [|exact S]. repeat split. apply S.
Qed.
Lemma create_safe p : isViewVisible p = true -> is_Some (mainFrame p) -> safe None (create p).
Proof.
  intros Hv Hm. split; [split|..]; try done; cbn.
  - intros r _ _. unfold busy, tcount, pcount. cbn. lia.
  - split; [constructor|]. by intros r ?%elem_of_nil.
  - by intros g ?%elem_of_nil.
  - by intros r c ?%elem_of_nil.
  - by intros t r ?%elem_of_nil.
  - by intros t r ?%elem_of_nil.
  - lia.
  - by intros r c ?%elem_of_nil.
Qed.
Lemma runs_safe h : forall w, orderlyFrom w h -> safe None w -> safe None (fold_left (fun w e => exec e w) h w).
Proof. induction h as [|e h IH]; intros w; [done|]. cbn. intros [O Os] S. apply IH; [done|by apply exec_safe]. Qed.
End consent.
End manager.

(** ** Theorems *)

Section properties.
Context (sameOrigin : nat -> nat -> bool) (enabledByDefault : bool).

(** C39: While the page has a main frame, the view is visible, capture is enabled, the state is
    not cleared in the middle of a grant and the application chooses devices it was offered, the
    manager never dereferences a missing request, and every device that a page is told it may
    capture was agreed to: the user, or the policy that answers in his place, consented to a
    request of the same frame, for the same document and top-level origins, that asked for a
    device of the same kind. *)
Theorem granted_devices_were_agreed_to (p : Page) (h : list Event)
  (same_trans : forall a b c, sameOrigin a b = true -> sameOrigin b c = true -> sameOrigin a c = true)
  (visible : isViewVisible p = true) (main : is_Some (mainFrame p)) (orderly_run : orderlyFrom sameOrigin enabledByDefault (create p) h) :
  let w := runs sameOrigin enabledByDefault p h in crashed w = false /\ Forall (grantAgreed sameOrigin w) (outputs w).
Proof. pose proof (runs_safe sameOrigin enabledByDefault same_trans h _ orderly_run (create_safe sameOrigin p visible main)) as S. split; apply S. Qed.

(** A page that has no access sees devices without names, one of a kind at most. *)
Definition anonymous (d : CaptureDevice) : Prop := persistentId d = "" /\ label d = "" /\ groupId d = "".
Definition ofType (t : DeviceType) (d : CaptureDevice) : bool := bool_decide (deviceType d = t).
Definition enabledOf (t : DeviceType) (d : CaptureDevice) : bool := enabled d && ofType t d.
Lemma filterDevices_anonymous all l : forall c m,
  let f := filterDevices enabledByDefault false all c m l in
  Forall anonymous f /\
  length (List.filter (ofType Camera) f) = (if Nat.leb 1 c then 0 else if existsb (enabledOf Camera) l then 1 else 0)%nat /\
  length (List.filter (ofType Microphone) f) = (if Nat.leb 1 m then 0 else if existsb (enabledOf Microphone) l then 1 else 0)%nat /\
  length f = (length (List.filter (ofType Camera) f) + length (List.filter (ofType Microphone) f))%nat.
Proof.
  induction l as [|d l IH]; intros c m; cbn zeta; [repeat split; [constructor|by case_match..]|]. cbn [filterDevices existsb].
  assert (Hc : enabledOf Camera d = enabled d && bool_decide (deviceType d = Camera)) by done. assert (Hm : enabledOf Microphone d = enabled d && bool_decide (deviceType d = Microphone)) by done.
  rewrite Hc, Hm. clear Hc Hm. destruct (enabled d) eqn:Ee; cbn [negb orb andb]; [|apply IH].
  destruct (deviceType d) eqn:Et; cbn [isCaptureType negb].
  - rewrite bool_decide_eq_true_2, bool_decide_eq_false_2 by done. cbn [orb]. destruct (IH (S c) m) as (I1 & I2 & I3 & I4). cbn [Nat.leb] in I2. destruct c as [|c]; cbn [Nat.leb]; [|by repeat split].
    set (s := mkDevice _ _ _ _ _). assert (Es : ofType Camera s = true /\ ofType Microphone s = false) by done. destruct Es as [E1 E2]. cbn [List.filter]. rewrite E1, E2. cbn [length]. rewrite I2 in *.
    repeat split; [by constructor|done|lia].
  - rewrite bool_decide_eq_false_2, bool_decide_eq_true_2 by done. cbn [orb]. destruct (IH c (S m)) as (I1 & I2 & I3 & I4). cbn [Nat.leb] in I3. destruct m as [|m]; cbn [Nat.leb]; [|by repeat split].
    set (s := mkDevice _ _ _ _ _). assert (Es : ofType Camera s = false /\ ofType Microphone s = true) by done. destruct Es as [E1 E2]. cbn [List.filter]. rewrite E1, E2. cbn [length]. rewrite I3 in *.
    repeat split; [by constructor|done|lia].
  - rewrite !bool_decide_eq_false_2 by done. apply IH.
  - rewrite !bool_decide_eq_false_2 by done. apply IH.
Qed.
(** C40: To a page without access, the list of devices says only whether there is a camera and
    whether there is a microphone: it has one nameless device of each of the two kinds of which
    some device is enabled, and nothing else. *)
Theorem devices_are_anonymous_without_access (devices : list CaptureDevice) :
  let l := computeFilteredDeviceList enabledByDefault false devices in
  Forall anonymous l /\
  length (List.filter (ofType Camera) l) = (if existsb (enabledOf Camera) devices then 1 else 0)%nat /\
  length (List.filter (ofType Microphone) l) = (if existsb (enabledOf Microphone) devices then 1 else 0)%nat /\
  length l = (length (List.filter (ofType Camera) l) + length (List.filter (ofType Microphone) l))%nat.
Proof. apply filterDevices_anonymous. Qed.
End properties.

(** ** Runs of a page with one frame and one origin *)

Definition camera : CaptureDevice := mkDevice "cam" Camera "Camera" "" true.
Definition microphone : CaptureDevice := mkDevice "mic" Microphone "Microphone" "" true.
Definition simplePage (visible : bool) : Page := mkPage true (Some (1%nat, 7%nat)) [1%nat; 2%nat] 7 visible false None false.
Definition simpleRun (h : list Event) : Manager := runs Nat.eqb false (simplePage true) h.
(** Request [id] is sent, and the questions about permission and salt are answered. *)
Definition ask (id frame : nat) : Event := RequestMedia id frame 7 7 UserMedia false.
Definition checked : list Event := [TaskDone 0 (Info Unknown); TaskDone 0 Done].
Definition microphoneFound : Event := TaskDone 0 (Validated (inl ([microphone], []))).
Definition captureDone : list Event := [TaskDone 0 (Extended true); TaskDone 0 Done; TaskDone 0 Done].
Definition microphoneGranted : list Event := [ask 1 1] ++ checked ++ [microphoneFound; Allow 0 "" ""] ++ captureDone.

Lemma granted_devices_were_agreed_to_witness :
  let w := simpleRun (microphoneGranted ++ [ask 2 1]) in
  isViewVisible (simplePage true) = true /\ length (outputs w) = 1%nat /\ crashed w = false /\ Forall (grantAgreed Nat.eqb w) (outputs w).
Proof.
  split; [done|split; [by vm_compute|]]. apply (granted_devices_were_agreed_to Nat.eqb false (simplePage true) (microphoneGranted ++ [ask 2 1])).
  - intros a b c. rewrite !Nat.eqb_eq. congruence.
  - done.
  - by exists (1%nat, 7%nat).
  - vm_compute. repeat split; repeat match goal with H : Some _ = Some _ |- _ => injection H as; subst end; eauto.
Defined.

(** The microphone was granted.  A request for it, made while the view is hidden, is granted
    once the view is visible; by then request 3 is under way and request 4 of another frame
    waits. *)
Definition grantedLater : list Event :=
  microphoneGranted ++ [PageChanged (simplePage false); ask 2 1] ++ checked ++ [microphoneFound] ++ [ask 3 1; TaskDone 0 (Info Unknown); TaskDone 0 Done].
Definition becomesVisible : list Event := [PageChanged (simplePage true); BecomingVisible; TaskDone 1 (Extended true); TaskDone 1 Done; TaskDone 1 Done].
Definition confused : list Event :=
  grantedLater ++ [ask 4 2] ++ becomesVisible ++
  [TaskDone 1 (Info Unknown); TaskDone 1 Done; TaskDone 1 (Validated (inl ([microphone], []))); TaskDone 0 (Validated (inl ([], [camera]))); Allow 1 "" ""] ++ captureDone.

(** When a request that waited for the view to be visible is granted while another request is
    under way, the manager goes on with the next request although the other one is not answered.
    What is then found out for request 3 is applied to request 4: the user agrees to the use of
    the microphone by a frame, and the frame is given the camera, which nobody agreed to. *)
Theorem late_grant_confuses_requests :
  let w := simpleRun confused in
  crashed w = false /\ last (outputs w) = Some (UserMediaAccessWasGranted 4 3 None (Some camera)) /\ Forall (fun c => c_video c = false) (consents w) /\
  Forall (fun o => forall reason constraint, o <> UserMediaAccessWasDenied 3 reason constraint) (outputs w) /\ tasks w = [].
Proof. vm_compute. repeat split; repeat constructor; discriminate. Qed.
(** Without a request that waits, the manager has no current request when the answer for request
    3 comes, and dereferences it. *)
Theorem late_grant_crashes : crashed (simpleRun (grantedLater ++ becomesVisible)) = false /\ crashed (simpleRun (grantedLater ++ becomesVisible ++ [TaskDone 0 (Validated (inl ([microphone], [])))])) = true.
Proof. by vm_compute. Qed.
(** A request that waits for the view to be visible is forgotten when the watchdog fires. *)
Theorem waiting_grant_is_forgotten :
  let h := microphoneGranted ++ [PageChanged (simplePage false); ask 2 1] ++ checked ++ [microphoneFound] in
  length (m_pregrantedRequests (simpleRun h)) = 1%nat /\
  let w := simpleRun (h ++ [Watchdog; PageChanged (simplePage true); BecomingVisible]) in
  length (outputs w) = 1%nat /\ tasks w = [] /\ m_currentUserMediaRequest w = None /\ m_pendingUserMediaRequests w = [].
Proof. by vm_compute. Qed.
(** A denial is recorded for the main frame and looked up for the frame that asks: the user is
    asked again and again by a subframe. *)
Definition denied (frame : nat) : list Event := [ask 1 frame] ++ checked ++ [microphoneFound; DenyPrompt 0 PermissionDenied; ask 2 frame] ++ checked ++ [microphoneFound].
Theorem denial_in_subframe_is_not_remembered :
  length (prompts (simpleRun (denied 1))) = 1%nat /\ length (outputs (simpleRun (denied 1))) = 2%nat /\
  length (prompts (simpleRun (denied 2))) = 2%nat /\ length (outputs (simpleRun (denied 2))) = 1%nat.
Proof. by vm_compute. Qed.
End UserMedia.
