(* ===== verification/OperatingDates.v ===== *)
(** * NetworkProcess/Classifier: operating dates

    A user interaction counts for a number of _operating dates_, the days on which the
    browser ran.  This file models [OperatingDate] (ResourceLoadStatisticsStore.cpp) and
    both implementations of the calendar of the last thirty operating dates: the vector
    of ResourceLoadStatisticsMemoryStore.cpp (module [Memory]) and the SQLite table of
    ResourceLoadStatisticsDatabaseStore.cpp (module [Database]).  The two are shown to
    agree on the long window and to differ on the short one. *)

From stdpp Require Import sorting.
From S2P Require Import Prelude.

(** ** WTF's date arithmetic

    [wtf/DateMath.h] is an interface.  A [WallTime] is a whole number of milliseconds. *)

Abbreviation WallTime := Z.
Definition msPerDay : Z := 86400000.
Definition secondsPerDay : Z := 86400.

Class DateMath := {
  msToYear : Z -> Z;
  dayInYear : Z -> Z -> Z;
  isLeapYear : Z -> bool;
  monthFromDayInYear : Z -> bool -> Z;
  dayInMonthFromDayInYear : Z -> bool -> Z;
  dateToDaysFrom1970 : Z -> Z -> Z -> Z
}.

(** ** ResourceLoadStatisticsStore.h: OperatingDate *)

Record OperatingDate := mkDate { m_year : Z; m_month : Z; m_monthDay : Z }.
#[global] Instance OperatingDate_eq_dec : EqDecision OperatingDate.
Proof. solve_decision. Defined.

Definition operatingDatesWindowLong : Z := 30.
Definition operatingDatesWindowShort : Z := 7.
Definition operatingTimeWindowForLiveOnTesting : Z := 3600000.   (* 1_h *)

Inductive OperatingDatesWindow := Long | Short | ForLiveOnTesting | ForReproTesting.
#[global] Instance OperatingDatesWindow_eq_dec : EqDecision OperatingDatesWindow.
Proof. solve_decision. Defined.

Section dates.
Context `{DateMath}.

Definition fromWallTime (time : WallTime) : OperatingDate :=
  let ms := time in
  let year := msToYear ms in
  let yearDay := dayInYear ms year in
  let month := monthFromDayInYear yearDay (isLeapYear year) in
  let monthDay := dayInMonthFromDayInYear yearDay (isLeapYear year) in
  mkDate year month monthDay.

Definition secondsSinceEpoch (d : OperatingDate) : Z :=
  dateToDaysFrom1970 (m_year d) (m_month d) (m_monthDay d) * secondsPerDay.

(** [operator==], [operator<] and [operator<=]. *)
Definition sameDate (d d' : OperatingDate) : bool :=
  (m_monthDay d =? m_monthDay d') && (m_month d =? m_month d') && (m_year d =? m_year d').
Definition dateBefore (d d' : OperatingDate) : bool := secondsSinceEpoch d <? secondsSinceEpoch d'.
Definition dateAtMost (d d' : OperatingDate) : bool := secondsSinceEpoch d <=? secondsSinceEpoch d'.

(** The order of the SQL queries: [ORDER BY year, month, monthDay]. *)
Definition rowAtMost (d d' : OperatingDate) : Prop :=
  m_year d < m_year d' \/ (m_year d = m_year d' /\
    (m_month d < m_month d' \/ (m_month d = m_month d' /\ m_monthDay d <= m_monthDay d'))).
#[global] Instance rowAtMost_dec d d' : Decision (rowAtMost d d').
Proof. unfold rowAtMost. apply _. Defined.

(** A date of the calendar. *)
Definition real_date (d : OperatingDate) : Prop := exists t, d = fromWallTime t.
End dates.

(** What the callers rely on: the date of an instant is the date of its day, and dates
    are ordered by year, month and day. *)
Class DateMathLaws `{DateMath} := {
  days_of_time t : secondsSinceEpoch (fromWallTime t) = t / msPerDay * secondsPerDay;
  date_order d d' : real_date d -> real_date d' -> (rowAtMost d d' <-> secondsSinceEpoch d <= secondsSinceEpoch d')
}.

(** ** ResourceLoadStatisticsMemoryStore.cpp: the vector of dates *)

Module Memory.
Section memory.
Context `{DateMath}.

Fixpoint dropFrontWhileLonger (n : nat) (fuel : nat) (dates : list OperatingDate) : list OperatingDate :=
  match fuel with
  | O => dates
  | S fuel' => if decide (n < length dates)%nat then dropFrontWhileLonger n fuel' (tail dates) else dates
  end.

Definition includeTodayAsOperatingDateIfNecessary (now : WallTime) (m_operatingDates : list OperatingDate) : list OperatingDate :=
  let today := fromWallTime now in
  match last m_operatingDates with
  | Some latest =>
      if dateAtMost today latest then m_operatingDates
      else dropFrontWhileLonger (Z.to_nat (operatingDatesWindowLong - 1)) (length m_operatingDates) m_operatingDates ++ [today]
  | None => dropFrontWhileLonger (Z.to_nat (operatingDatesWindowLong - 1)) (length m_operatingDates) m_operatingDates ++ [today]
  end.

(** [std::merge]: of two equal elements, the one of the first range first. *)
Fixpoint stdMerge (first : list OperatingDate) : list OperatingDate -> list OperatingDate :=
  match first with
  | [] => fun second => second
  | x :: first' =>
      fix go (second : list OperatingDate) : list OperatingDate :=
        match second with
        | [] => x :: first'
        | y :: second' => if dateBefore y x then y :: go second' else x :: stdMerge first' (y :: second')
        end
  end.

(** [removeRepeatedElements]: of each run of equal elements only one is kept. *)
Fixpoint removeRepeatedElements (dates : list OperatingDate) : list OperatingDate :=
  match dates with
  | [] => []
  | x :: rest =>
      match rest with
      | [] => [x]
      | y :: _ => if sameDate x y then removeRepeatedElements rest else x :: removeRepeatedElements rest
      end
  end.

Definition mergeOperatingDates (existingDates newDates : list OperatingDate) : list OperatingDate :=
  match existingDates with
  | [] => newDates
  | _ =>
      let mergedDates := removeRepeatedElements (stdMerge existingDates newDates) in
      dropFrontWhileLonger (Z.to_nat operatingDatesWindowLong) (length mergedDates) mergedDates
  end.

Definition hasStatisticsExpired (now : WallTime) (timeToLiveUserInteraction : option Z)
    (m_operatingDates : list OperatingDate) (mostRecentUserInteractionTime : WallTime) (window : OperatingDatesWindow) : bool :=
  let inDays operatingDatesWindowInDays :=
    if (operatingDatesWindowInDays <=? Z.of_nat (length m_operatingDates)) &&
       match m_operatingDates with
       | oldest :: _ => dateBefore (fromWallTime mostRecentUserInteractionTime) oldest
       | [] => false
       end
    then true
    else match timeToLiveUserInteraction with
         | Some ttl => mostRecentUserInteractionTime + ttl <? now
         | None => false
         end in
  match window with
  | Long => inDays operatingDatesWindowLong
  | Short => inDays operatingDatesWindowShort
  | ForLiveOnTesting => mostRecentUserInteractionTime + operatingTimeWindowForLiveOnTesting <? now
  | ForReproTesting => true
  end.

End memory.
End Memory.

(** ** ResourceLoadStatisticsDatabaseStore.cpp: the table of dates

    The table is the list of its rows; the two windows, the size and the latest date are
    cached in the store. *)

Module Database.
Record Dates := mkDates {
  rows : list OperatingDate;
  m_operatingDatesSize : Z;
  m_longWindowOperatingDate : option OperatingDate;
  m_shortWindowOperatingDate : option OperatingDate;
  m_mostRecentOperatingDate : OperatingDate
}.
#[global] Instance eta_Dates : Eta Dates := fun r =>
  mkDates (rows r) (m_operatingDatesSize r) (m_longWindowOperatingDate r) (m_shortWindowOperatingDate r) (m_mostRecentOperatingDate r).

Definition emptyDates : Dates := mkDates [] 0 None None (mkDate 0 0 0).

(** [SELECT * ... ORDER BY year DESC, month DESC, monthDay DESC LIMIT 1 OFFSET k]. *)
Definition selectFromLatest (k : nat) (table : list OperatingDate) : option OperatingDate :=
  merge_sort (flip rowAtMost) table !! k.

(** [DELETE ... ORDER BY year, month, monthDay LIMIT n]. *)
Definition deleteLeastRecent (n : nat) (table : list OperatingDate) : list OperatingDate :=
  drop n (merge_sort rowAtMost table).

(** [INSERT OR IGNORE]; the table has a unique index on the three columns. *)
Definition insertOrIgnore (d : OperatingDate) (table : list OperatingDate) : list OperatingDate :=
  if decide (d ∈ table) then table else table ++ [d].

Definition updateOperatingDatesParameters (s : Dates) : Dates :=
  let size := Z.of_nat (length (rows s)) in
  match selectFromLatest 0 (rows s) with
  | None => s <| m_operatingDatesSize := size |>           (* the statement yields no row *)
  | Some latest =>
      mkDates (rows s) size
        (if size <=? operatingDatesWindowLong - 1 then None
         else selectFromLatest (Z.to_nat (operatingDatesWindowLong - 1)) (rows s))
        (if size <=? operatingDatesWindowShort - 1 then None
         else selectFromLatest (Z.to_nat (operatingDatesWindowShort - 1)) (rows s))
        latest
  end.

(** Conversion of an [unsigned] to [int]. *)
Definition toInt (z : Z) : Z := if 2 ^ 31 <=? wrap 32 z then wrap 32 z - 2 ^ 32 else wrap 32 z.

Section database.
Context `{DateMath}.

Definition includeTodayAsOperatingDateIfNecessary (now : WallTime) (s : Dates) : Dates :=
  let today := fromWallTime now in
  if (0 <? m_operatingDatesSize s) && dateAtMost today (m_mostRecentOperatingDate s) then s
  else
    let rowsToPrune := toInt (wrap 32 (m_operatingDatesSize s - operatingDatesWindowLong) + 1) in
    let pruned := if 0 <? rowsToPrune then deleteLeastRecent (Z.to_nat rowsToPrune) (rows s) else rows s in
    updateOperatingDatesParameters (s <| rows := insertOrIgnore today pruned |>).

Definition hasStatisticsExpired (now : WallTime) (timeToLiveUserInteraction : option Z)
    (s : Dates) (mostRecentUserInteractionTime : WallTime) (window : OperatingDatesWindow) : bool :=
  let olderThan (windowDate : option OperatingDate) :=
    if match windowDate with
       | Some d => dateBefore (fromWallTime mostRecentUserInteractionTime) d
       | None => false
       end
    then true
    else match timeToLiveUserInteraction with
         | Some ttl => mostRecentUserInteractionTime + ttl <? now
         | None => false
         end in
  match window with
  | Long => olderThan (m_longWindowOperatingDate s)
  | Short => olderThan (m_shortWindowOperatingDate s)
  | ForLiveOnTesting => mostRecentUserInteractionTime + operatingTimeWindowForLiveOnTesting <? now
  | ForReproTesting => true
  end.

End database.
End Database.

(** ** The order of dates *)

#[global] Instance rowAtMost_trans : Transitive rowAtMost.
Proof. intros [] [] []; unfold rowAtMost; simpl; lia. Qed.
#[global] Instance rowAtMost_antisymm : AntiSymm (=) rowAtMost.
Proof. intros [y m d] [y' m' d']; unfold rowAtMost; simpl. intros. assert (y = y' /\ m = m' /\ d = d') by lia. naive_solver. Qed.
#[global] Instance rowAtMost_total : Total rowAtMost.
Proof. intros [] []; unfold rowAtMost; simpl; lia. Qed.
#[global] Instance rowAtMost_flip_total : Total (flip rowAtMost).
Proof. intros d d'. unfold flip. destruct (rowAtMost_total d d'); auto. Qed.
#[global] Instance rowAtMost_flip_trans : Transitive (flip rowAtMost).
Proof. intros a b c Hab Hbc. unfold flip in *. by transitivity b. Qed.
#[global] Instance rowAtMost_flip_antisymm : AntiSymm (=) (flip rowAtMost).
Proof. intros a b Hab Hba. unfold flip in *. by apply (anti_symm rowAtMost). Qed.

(** Dates in increasing order without repetition, each a date of the calendar. *)
Record ascending `{DateMath} (dates : list OperatingDate) : Prop := {
  ascending_sorted : StronglySorted rowAtMost dates;
  ascending_nodup : NoDup dates;
  ascending_real : Forall real_date dates
}.

(** Sorting the rows in any order gives back the dates. *)
Lemma merge_sort_ascending (dates table : list OperatingDate) :
  StronglySorted rowAtMost dates -> table ≡ₚ dates -> merge_sort rowAtMost table = dates.
Proof.
  intros Hs Hp. eapply (StronglySorted_unique rowAtMost); [apply StronglySorted_merge_sort; apply _|done|].
  by rewrite merge_sort_Permutation.
Qed.

Lemma StronglySorted_snoc {A} (R : relation A) l x :
  StronglySorted R l -> Forall (fun y => R y x) l -> StronglySorted R (l ++ [x]).
Proof.
  rewrite Forall_forall. intros Hl Hx. apply StronglySorted_app_2; [set_solver|done|by repeat constructor].
Qed.

Lemma StronglySorted_reverse {A} (R : relation A) l : StronglySorted R l -> StronglySorted (flip R) (reverse l).
Proof.
  induction 1 as [|x l Hl IH Hx]; [constructor|]. rewrite reverse_cons. apply StronglySorted_snoc; [done|].
  by apply Forall_reverse.
Qed.

Lemma merge_sort_descending (dates table : list OperatingDate) :
  StronglySorted rowAtMost dates -> table ≡ₚ dates -> merge_sort (flip rowAtMost) table = reverse dates.
Proof.
  intros Hs Hp. eapply (StronglySorted_unique (flip rowAtMost));
    [apply StronglySorted_merge_sort; apply _|by apply StronglySorted_reverse|].
  by rewrite merge_sort_Permutation, reverse_Permutation.
Qed.

Lemma StronglySorted_drop {A} (R : relation A) n l : StronglySorted R l -> StronglySorted R (drop n l).
Proof. rewrite <- (take_drop n l) at 1. apply StronglySorted_app_1_r. Qed.

Lemma dropFrontWhileLonger_drop n fuel dates : (length dates <= fuel)%nat ->
  Memory.dropFrontWhileLonger n fuel dates = drop (length dates - n) dates.
Proof.
  revert dates. induction fuel as [|fuel IH]; intros dates Hf; simpl.
  - destruct dates; [done|simpl in Hf; lia].
  - case_decide as Hn; [|by replace (length dates - n)%nat with 0%nat by lia].
    destruct dates as [|d dates]; [simpl in Hn; lia|]. cbn [tail length] in *. rewrite IH by lia.
    by replace (S (length dates) - n)%nat with (S (length dates - n)) by lia.
Qed.

Section order.
Context `{DateMath} `{!DateMathLaws}.

Lemma ascending_drop n dates : ascending dates -> ascending (drop n dates).
Proof.
  intros [Hs Hn Hr]. split; [by apply StronglySorted_drop| |by apply Forall_drop].
  rewrite <- (take_drop n dates) in Hn. by apply NoDup_app in Hn as (_ & _ & Hn).
Qed.

Lemma dateAtMost_row d d' : real_date d -> real_date d' -> dateAtMost d d' = true <-> rowAtMost d d'.
Proof. intros Hd Hd'. unfold dateAtMost. rewrite date_order by done. apply Z.leb_le. Qed.

Lemma dateBefore_row d d' : real_date d -> real_date d' -> dateBefore d d' = true <-> ~ rowAtMost d' d.
Proof. intros Hd Hd'. unfold dateBefore. rewrite date_order by done. rewrite Z.ltb_lt. lia. Qed.

Lemma real_fromWallTime t : real_date (fromWallTime t).
Proof. by exists t. Qed.

(** A date after the last one can be appended. *)
Lemma ascending_snoc dates d :
  ascending dates -> real_date d -> (forall latest, last dates = Some latest -> ~ rowAtMost d latest) ->
  ascending (dates ++ [d]).
Proof.
  intros [Hs Hn Hr] Hd Hlast.
  assert (Hall : Forall (fun y => ~ rowAtMost d y) dates).
  { destruct dates as [|x dates _] using rev_ind; [constructor|]. rewrite last_snoc in Hlast. specialize (Hlast x eq_refl).
    apply Forall_app; split; [|auto]. apply Forall_forall. intros y Hy Hdy. apply Hlast. transitivity y; [done|].
    eapply StronglySorted_app_1_elem_of; [done..|set_solver]. }
  rewrite Forall_forall in Hall. split.
  - apply StronglySorted_snoc; [done|]. apply Forall_forall. intros y Hy. destruct (total rowAtMost d y) as [Hdy|]; [|done].
    by destruct (Hall y Hy).
  - apply NoDup_app. split; [done|]. split; [|apply NoDup_singleton]. intros y Hy Hyd. apply list_elem_of_singleton in Hyd as ->.
    apply (Hall d Hy). destruct (total rowAtMost d d); done.
  - apply Forall_app; auto.
Qed.
End order.

(** ** Daily tasks

    Both stores add today to their dates when they are created and once a day after that. *)

Section daily.
Context `{DateMath} `{!DateMathLaws}.

Definition memoryAfter (days : list WallTime) : list OperatingDate :=
  foldl (fun dates now => Memory.includeTodayAsOperatingDateIfNecessary now dates) [] days.
Definition databaseAfter (days : list WallTime) : Database.Dates :=
  foldl (fun s now => Database.includeTodayAsOperatingDateIfNecessary now s) Database.emptyDates days.

(** The table and the vector hold the same dates and the cached columns are those of the table. *)
Record same_dates (dates : list OperatingDate) (s : Database.Dates) : Prop := {
  same_ascending : ascending dates;
  same_bounded : (length dates <= 30)%nat;
  same_rows : Database.rows s ≡ₚ dates;
  same_size : Database.m_operatingDatesSize s = Z.of_nat (length dates);
  same_latest : forall latest, last dates = Some latest -> Database.m_mostRecentOperatingDate s = latest;
  same_long : Database.m_longWindowOperatingDate s = reverse dates !! 29%nat;
  same_short : Database.m_shortWindowOperatingDate s = reverse dates !! 6%nat
}.

Definition notAfterLast (now : WallTime) (dates : list OperatingDate) : bool :=
  match last dates with Some latest => dateAtMost (fromWallTime now) latest | None => false end.

Lemma memory_include_eq now dates : Memory.includeTodayAsOperatingDateIfNecessary now dates =
  if notAfterLast now dates then dates else drop (length dates - 29) dates ++ [fromWallTime now].
Proof.
  unfold Memory.includeTodayAsOperatingDateIfNecessary, notAfterLast. rewrite dropFrontWhileLonger_drop by lia.
  by destruct (last dates).
Qed.

Lemma update_same dates s :
  ascending dates -> (length dates <= 30)%nat -> dates <> [] -> Database.rows s ≡ₚ dates ->
  same_dates dates (Database.updateOperatingDatesParameters s).
Proof.
  intros Ha Hl Hne Hp. unfold Database.updateOperatingDatesParameters, Database.selectFromLatest.
  rewrite (merge_sort_descending dates) by (apply Ha || done). rewrite (Permutation_length Hp).
  assert (Hlast : exists latest, reverse dates !! 0%nat = Some latest /\ last dates = Some latest).
  { destruct dates as [|d dates _] using rev_ind; [done|]. rewrite reverse_snoc, last_snoc. eauto. }
  destruct Hlast as (latest & -> & Hlast).
  split; cbn; try done; [by intros; simplify_eq|..].
  - case_match eqn:E; zbool; [|done]. symmetry. apply lookup_ge_None. rewrite length_reverse. unfold operatingDatesWindowLong in *. lia.
  - case_match eqn:E; zbool; [|done]. symmetry. apply lookup_ge_None. rewrite length_reverse. unfold operatingDatesWindowShort in *. lia.
Qed.

Lemma toInt_prune n : (n <= 30)%nat ->
  Database.toInt (wrap 32 (Z.of_nat n - operatingDatesWindowLong) + 1) = Z.of_nat n - 29.
Proof.
  intros Hn. unfold Database.toInt, operatingDatesWindowLong. rewrite wrap_add_l by lia. unfold wrap.
  destruct (decide (n <= 28)%nat).
  - replace (Z.of_nat n - 30 + 1) with (Z.of_nat n - 29 + 2 ^ 32 + (-1) * 2 ^ 32) by lia.
    rewrite Z.mod_add, Z.mod_small by lia. case_match; zbool; lia.
  - rewrite Z.mod_small by lia. case_match; zbool; lia.
Qed.

Lemma notAfterLast_row now dates : ascending dates -> notAfterLast now dates = false ->
  forall latest, last dates = Some latest -> ~ rowAtMost (fromWallTime now) latest.
Proof.
  intros [_ _ Hr] Hskip latest Hlast Hle. unfold notAfterLast in Hskip. rewrite Hlast in Hskip. apply not_true_iff_false in Hskip.
  apply Hskip, dateAtMost_row; [apply real_fromWallTime| |done]. rewrite Forall_forall in Hr. apply Hr. by apply last_Some_elem_of in Hlast.
Qed.

Lemma memory_include_ascending now dates :
  ascending dates -> (length dates <= 30)%nat ->
  ascending (Memory.includeTodayAsOperatingDateIfNecessary now dates) /\
  (length (Memory.includeTodayAsOperatingDateIfNecessary now dates) <= 30)%nat.
Proof.
  intros Ha Hl. rewrite memory_include_eq. destruct (notAfterLast now dates) eqn:Hskip; [done|].
  split; [|rewrite length_app, length_drop; simpl; lia].
  apply ascending_snoc; [by apply ascending_drop|apply real_fromWallTime|]. intros latest Hlast.
  apply (notAfterLast_row now dates Ha Hskip). rewrite <- (take_drop (length dates - 29) dates), last_app, Hlast. done.
Qed.

Lemma include_same now dates s :
  same_dates dates s ->
  same_dates (Memory.includeTodayAsOperatingDateIfNecessary now dates) (Database.includeTodayAsOperatingDateIfNecessary now s).
Proof.
  intros [Ha Hl Hrows Hsize Hlatest Hlong Hshort]. rewrite memory_include_eq.
  unfold Database.includeTodayAsOperatingDateIfNecessary. rewrite Hsize.
  replace ((0 <? Z.of_nat (length dates)) && dateAtMost (fromWallTime now) (Database.m_mostRecentOperatingDate s))
    with (notAfterLast now dates).
  2:{ unfold notAfterLast. destruct dates as [|d dates _] using rev_ind; [done|]. rewrite last_snoc in *.
      rewrite (Hlatest d eq_refl), length_app. simpl. by replace (0 <? _) with true by (symmetry; apply Z.ltb_lt; lia). }
  pose proof (memory_include_ascending now dates Ha Hl) as [Ha' Hl']. rewrite memory_include_eq in Ha', Hl'.
  destruct (notAfterLast now dates) eqn:Hskip; [done|].
  - apply update_same; [done|done|by destruct (drop _ dates)|]. cbn.
    rewrite toInt_prune by done.
    assert (Hpr : (if 0 <? Z.of_nat (length dates) - 29 then Database.deleteLeastRecent (Z.to_nat (Z.of_nat (length dates) - 29)) (Database.rows s)
                   else Database.rows s) ≡ₚ drop (length dates - 29) dates).
    { case_match eqn:E; zbool.
      - unfold Database.deleteLeastRecent. rewrite (merge_sort_ascending dates) by (apply Ha || done).
        by replace (Z.to_nat (Z.of_nat (length dates) - 29)) with (length dates - 29)%nat by lia.
      - by replace (length dates - 29)%nat with 0%nat by lia. }
    unfold Database.insertOrIgnore. rewrite decide_False; [by rewrite Hpr|]. rewrite Hpr.
    intros Hin. destruct Ha' as [_ Hn _]. apply NoDup_app in Hn as (_ & Hn & _). apply (Hn _ Hin). set_solver.
Qed.

Lemma same_after days : same_dates (memoryAfter days) (databaseAfter days).
Proof.
  unfold memoryAfter, databaseAfter.
  assert (Hstart : same_dates [] Database.emptyDates).
  { split; try done; [|simpl; lia]. split; constructor. }
  revert Hstart. generalize ([] : list OperatingDate) Database.emptyDates.
  induction days as [|now days IH]; intros dates s Hs; simpl; [done|]. apply IH. by apply include_same.
Qed.
End daily.

(** ** Merging dates *)

Section merging.
Context `{DateMath} `{!DateMathLaws}.

(** What the merge computes: the latest thirty of all the dates. *)
Definition latestDates (n : nat) (dates : list OperatingDate) : list OperatingDate :=
  let sorted := merge_sort rowAtMost (remove_dups dates) in drop (length sorted - n) sorted.

Lemma stdMerge_permutation first second : Memory.stdMerge first second ≡ₚ first ++ second.
Proof.
  revert second. induction first as [|x first IH]; [done|]. intros second. induction second as [|y second IH2]; [by rewrite app_nil_r|].
  cbn. destruct (dateBefore y x); [|by rewrite IH]. cbn in IH2. rewrite IH2, <- (Permutation_middle first). constructor.
Qed.

Lemma stdMerge_sorted first second :
  Forall real_date first -> Forall real_date second -> StronglySorted rowAtMost first -> StronglySorted rowAtMost second ->
  StronglySorted rowAtMost (Memory.stdMerge first second).
Proof.
  revert second. induction first as [|x first IH]; [done|]. intros second Hr1 Hr2 Hs1. induction second as [|y second IH2]; [done|].
  intros Hs2. pose proof Hr1 as Hr1'. pose proof Hr2 as Hr2'. pose proof Hs1 as Hs1'. pose proof Hs2 as Hs2'.
  apply Forall_cons in Hr1' as [Hx Hr1'], Hr2' as [Hy Hr2'].
  apply StronglySorted_cons in Hs1' as [Hax Hs1'], Hs2' as [Hay Hs2']. cbn.
  destruct (dateBefore y x) eqn:E.
  - assert (Hyx : rowAtMost y x). { apply dateBefore_row in E; [|done..]. by destruct (total rowAtMost y x). }
    specialize (IH2 Hr2' Hs2'). apply StronglySorted_cons. split; [|exact IH2].
    change (Forall (rowAtMost y) (Memory.stdMerge (x :: first) second)).
    rewrite stdMerge_permutation. simpl. constructor; [done|]. apply Forall_app. split; [|done].
    eapply Forall_impl; [exact Hax|]. intros z Hz. by transitivity x.
  - assert (Hxy : rowAtMost x y). { destruct (decide (rowAtMost x y)); [done|]. exfalso. apply not_true_iff_false in E. apply E. by apply dateBefore_row. }
    apply StronglySorted_cons. split; [|by apply IH]. rewrite stdMerge_permutation. apply Forall_app. split; [done|].
    constructor; [done|]. eapply Forall_impl; [exact Hay|]. intros z Hz. by transitivity y.
Qed.

Lemma sameDate_eq d d' : sameDate d d' = true <-> d = d'.
Proof. destruct d, d'. unfold sameDate. cbn. rewrite !andb_true_iff, !Z.eqb_eq. naive_solver. Qed.

Lemma removeRepeatedElements_elem d dates : d ∈ Memory.removeRepeatedElements dates <-> d ∈ dates.
Proof.
  induction dates as [|x dates IH]; [done|]. cbn. destruct dates as [|y dates]; [done|].
  destruct (sameDate x y) eqn:E; [apply sameDate_eq in E as ->|]; rewrite ?elem_of_cons, IH; set_solver.
Qed.

Lemma removeRepeatedElements_sorted dates : StronglySorted rowAtMost dates ->
  StronglySorted rowAtMost (Memory.removeRepeatedElements dates) /\ NoDup (Memory.removeRepeatedElements dates).
Proof.
  induction 1 as [|x dates Hs IH Hx]; [by repeat constructor|]. cbn. destruct dates as [|y dates]; [split; [repeat constructor|apply NoDup_singleton]|].
  destruct (sameDate x y) eqn:E; [exact IH|]. destruct IH as [IHs IHn]. split.
  - apply StronglySorted_cons. split; [|exact IHs]. apply Forall_forall. intros z Hz. apply (proj1 (removeRepeatedElements_elem _ _)) in Hz.
    rewrite Forall_forall in Hx. by apply Hx.
  - apply NoDup_cons. split; [|exact IHn]. intros Hin. apply (proj1 (removeRepeatedElements_elem _ _)) in Hin.
    apply not_true_iff_false in E. apply E, sameDate_eq. apply Forall_cons in Hx as [Hxy _].
    apply elem_of_cons in Hin as [->|Hin]; [done|]. apply (anti_symm rowAtMost); [done|].
    apply StronglySorted_cons in Hs as [Hy _]. rewrite Forall_forall in Hy. by apply Hy.
Qed.

Lemma merge_is_latest existing added :
  existing <> [] -> ascending existing -> Forall real_date added -> StronglySorted rowAtMost added ->
  Memory.mergeOperatingDates existing added = latestDates 30 (existing ++ added).
Proof.
  intros Hne [Hs Hn Hr] Hra Hsa. unfold Memory.mergeOperatingDates, latestDates. destruct existing as [|e existing']; [done|].
  set (existing := e :: existing') in *. rewrite dropFrontWhileLonger_drop by done.
  destruct (removeRepeatedElements_sorted (Memory.stdMerge existing added)) as [Hsm Hnm]; [by apply stdMerge_sorted|].
  rewrite (merge_sort_ascending (Memory.removeRepeatedElements (Memory.stdMerge existing added))); [done..|].
  apply NoDup_Permutation; [apply NoDup_remove_dups|done|]. intros d.
  rewrite elem_of_remove_dups, removeRepeatedElements_elem. by rewrite stdMerge_permutation.
Qed.

Lemma latestDates_ascending n dates : Forall real_date dates -> ascending (latestDates n dates) /\ (length (latestDates n dates) <= n)%nat.
Proof.
  intros Hr. unfold latestDates. split; [|rewrite length_drop; lia]. apply ascending_drop. split.
  - apply StronglySorted_merge_sort; apply _.
  - rewrite merge_sort_Permutation. apply NoDup_remove_dups.
  - rewrite merge_sort_Permutation. apply Forall_forall. intros d. rewrite elem_of_remove_dups. revert d. by apply Forall_forall.
Qed.

Lemma merge_ascending existing added :
  ascending existing -> ascending added -> (length added <= 30)%nat ->
  ascending (Memory.mergeOperatingDates existing added) /\ (length (Memory.mergeOperatingDates existing added) <= 30)%nat.
Proof.
  intros He Ha Hl. destruct (decide (existing = [])) as [->|Hne]; [done|].
  rewrite merge_is_latest by (done || apply Ha). apply latestDates_ascending. apply Forall_app. split; [apply He|apply Ha].
Qed.
End merging.

(** ** Properties *)

Section properties.
Context `{DateMath} `{!DateMathLaws}.

(** Merging the dates read from disk into a store that has some dates computes the thirty
    latest of all of them, in order and without repetition: the merge, the removal of
    repetitions and the loop that drops the oldest equal sorting the union and taking its end. *)
Theorem merge_keeps_latest_dates existing added :
  existing <> [] -> ascending existing -> Forall real_date added -> StronglySorted rowAtMost added ->
  Memory.mergeOperatingDates existing added = latestDates 30 (existing ++ added) /\
  ascending (Memory.mergeOperatingDates existing added) /\ (length (Memory.mergeOperatingDates existing added) <= 30)%nat.
Proof.
  intros Hne He Hra Hsa. rewrite merge_is_latest by done. split; [done|]. apply latestDates_ascending, Forall_app.
  split; [apply He|done].
Qed.

(** C20: The vector of the memory store and the table of the database store expire the same
    interactions under the long window, whatever days the browser ran on and whatever the
    order of the clock's readings. *)
Theorem stores_agree_on_long_window days now ttl interaction :
  Memory.hasStatisticsExpired now ttl (memoryAfter days) interaction Long =
  Database.hasStatisticsExpired now ttl (databaseAfter days) interaction Long.
Proof.
  destruct (same_after days) as [_ Hl _ _ _ Hlong _]. unfold Memory.hasStatisticsExpired, Database.hasStatisticsExpired.
  rewrite Hlong. unfold operatingDatesWindowLong.
  destruct (30 <=? Z.of_nat (length (memoryAfter days))) eqn:E; zbool; cbn [andb].
  - destruct (memoryAfter days) as [|oldest rest] eqn:Hm; [simpl in E; lia|].
    rewrite reverse_cons, lookup_app_r; [|rewrite length_reverse; simpl in *; lia].
    replace (29 - length (reverse rest))%nat with 0%nat; [done|]. rewrite length_reverse. simpl in *. lia.
  - rewrite (proj2 (lookup_ge_None _ _)); [done|]. rewrite length_reverse. lia.
Qed.

(** The short window of seven operating dates is not the one the memory store applies: an
    interaction older than the seventh latest date, but not older than the oldest of the
    dates kept, has expired for the database store and not for the memory store. *)
Theorem short_window_not_enforced_in_memory days now interaction oldest seventh :
  head (memoryAfter days) = Some oldest -> reverse (memoryAfter days) !! 6%nat = Some seventh ->
  rowAtMost oldest (fromWallTime interaction) -> ~ rowAtMost seventh (fromWallTime interaction) ->
  Database.hasStatisticsExpired now None (databaseAfter days) interaction Short = true /\
  Memory.hasStatisticsExpired now None (memoryAfter days) interaction Short = false.
Proof.
  intros Hhead Hseventh Hafter Hbefore. destruct (same_after days) as [[_ _ Hr] _ _ _ _ _ Hshort].
  rewrite Forall_forall in Hr. split.
  - unfold Database.hasStatisticsExpired. rewrite Hshort, Hseventh.
    replace (dateBefore _ _) with true; [done|]. symmetry. apply dateBefore_row; [apply real_fromWallTime| |done].
    apply Hr, elem_of_reverse, list_elem_of_lookup. by exists 6%nat.
  - unfold Memory.hasStatisticsExpired. destruct (memoryAfter days) as [|d rest] eqn:Hm; [done|]. simpl in Hhead. injection Hhead as ->.
    replace (dateBefore _ _) with false; [by rewrite andb_false_r|]. symmetry. apply not_true_iff_false. intros E.
    apply dateBefore_row in E; [done|apply real_fromWallTime|]. apply Hr. set_solver.
Qed.
End properties.

(** ** Witnesses: a calendar of twelve months of thirty-one days *)

#[local] Instance plainCalendar : DateMath := {|
  msToYear ms := 1970 + ms / msPerDay / 372;
  dayInYear ms _ := (ms / msPerDay) mod 372;
  isLeapYear _ := false;
  monthFromDayInYear d _ := d / 31;
  dayInMonthFromDayInYear d _ := d mod 31 + 1;
  dateToDaysFrom1970 y m d := (y - 1970) * 372 + m * 31 + d - 1
|}.

#[local] Instance plainCalendarLaws : DateMathLaws.
Proof.
  split.
  - intros t. unfold secondsSinceEpoch, fromWallTime. cbn. f_equal. generalize (t / msPerDay). intros d.
    pose proof (Z.div_mod d 372). pose proof (Z.div_mod (d mod 372) 31). lia.
  - intros d d' [t ->] [t' ->]. unfold rowAtMost, secondsSinceEpoch, fromWallTime. cbn.
    generalize (t / msPerDay) (t' / msPerDay). intros x x'. unfold secondsPerDay.
    Z.to_euclidean_division_equations. lia.
Qed.

Definition daysFrom (first : Z) (n : nat) : list WallTime := (fun i => (first + Z.of_nat i) * msPerDay) <$> seq 0 n.

Lemma ascending_after days : ascending (memoryAfter days).
Proof. apply (same_after days). Qed.

Lemma merge_keeps_latest_dates_witness :
  Memory.mergeOperatingDates (memoryAfter (daysFrom 100 20)) (memoryAfter (daysFrom 90 25)) =
  latestDates 30 (memoryAfter (daysFrom 100 20) ++ memoryAfter (daysFrom 90 25)) /\
  length (Memory.mergeOperatingDates (memoryAfter (daysFrom 100 20)) (memoryAfter (daysFrom 90 25))) = 30%nat.
Proof.
  refine (conj (proj1 (merge_keeps_latest_dates _ _ _ _ _ _)) _);
    [by vm_compute|apply ascending_after|apply ascending_after|apply ascending_after|vm_compute; reflexivity].
Defined.

Lemma stores_agree_on_long_window_witness :
  Memory.hasStatisticsExpired (140 * msPerDay) None (memoryAfter (daysFrom 100 40)) (105 * msPerDay) Long =
  Database.hasStatisticsExpired (140 * msPerDay) None (databaseAfter (daysFrom 100 40)) (105 * msPerDay) Long /\
  Memory.hasStatisticsExpired (140 * msPerDay) None (memoryAfter (daysFrom 100 40)) (105 * msPerDay) Long = true.
Proof. refine (conj (stores_agree_on_long_window _ _ _ _) _). vm_compute. reflexivity. Defined.

Lemma short_window_not_enforced_in_memory_witness :
  Memory.hasStatisticsExpired (120 * msPerDay) None (memoryAfter (daysFrom 100 20)) (105 * msPerDay) Short = false.
Proof.
  refine (proj2 (short_window_not_enforced_in_memory _ _ _ (fromWallTime (100 * msPerDay)) (fromWallTime (113 * msPerDay)) _ _ _ _)).
  - vm_compute. reflexivity.
  - vm_compute. reflexivity.
  - apply (bool_decide_unpack _). vm_compute. exact I.
  - apply (bool_decide_unpack _). vm_compute. exact I.
Defined.
