(* ===== verification/ResourceLoadStatistics.v ===== *)
(** * NetworkProcess/Classifier/ResourceLoadStatisticsMemoryStore.cpp

    The memory store of Intelligent Tracking Prevention: what is recorded about each
    registrable domain, how domains are classified as prevalent, which cookies are blocked
    and who may ask for storage access (ResourceLoadStatisticsMemoryStore.cpp with its base
    class ResourceLoadStatisticsStore.cpp, and Platform/classifier/
    ResourceLoadStatisticsClassifier.cpp).  The removal of website data, pruning and
    scheduling are in [StatisticsRemoval].

    The order in which WTF's hash tables are traversed is unspecified: it is an interface,
    and every theorem holds for every order. *)

From S2P Require Import Prelude OperatingDates.

Abbreviation RegistrableDomain := string.
Abbreviation DomainSet := (gset RegistrableDomain).

(** ** WebCore::ResourceLoadStatistics *)

Record Statistics := mkStatistics {
  registrableDomain : RegistrableDomain;
  lastSeen : WallTime;
  hadUserInteraction : bool;
  mostRecentUserInteractionTime : WallTime;
  grandfathered : bool;
  storageAccessUnderTopFrameDomains : DomainSet;
  topFrameUniqueRedirectsTo : DomainSet;
  topFrameUniqueRedirectsToSinceSameSiteStrictEnforcement : DomainSet;
  topFrameUniqueRedirectsFrom : DomainSet;
  topFrameLinkDecorationsFrom : DomainSet;
  gotLinkDecorationFromPrevalentResource : bool;
  topFrameLoadedThirdPartyScripts : DomainSet;
  subframeUnderTopFrameDomains : DomainSet;
  subresourceUnderTopFrameDomains : DomainSet;
  subresourceUniqueRedirectsTo : DomainSet;
  subresourceUniqueRedirectsFrom : DomainSet;
  isPrevalent : bool;                                    (* isPrevalentResource *)
  isVeryPrevalent : bool;                                (* isVeryPrevalentResource *)
  dataRecordsRemoved : Z;
  timesAccessedAsFirstPartyDueToStorageAccessAPI : Z
}.
#[global] Instance eta_Statistics : Eta Statistics := fun r =>
  mkStatistics (registrableDomain r) (lastSeen r) (hadUserInteraction r) (mostRecentUserInteractionTime r) (grandfathered r)
    (storageAccessUnderTopFrameDomains r) (topFrameUniqueRedirectsTo r) (topFrameUniqueRedirectsToSinceSameSiteStrictEnforcement r)
    (topFrameUniqueRedirectsFrom r) (topFrameLinkDecorationsFrom r) (gotLinkDecorationFromPrevalentResource r)
    (topFrameLoadedThirdPartyScripts r) (subframeUnderTopFrameDomains r) (subresourceUnderTopFrameDomains r)
    (subresourceUniqueRedirectsTo r) (subresourceUniqueRedirectsFrom r) (isPrevalent r) (isVeryPrevalent r)
    (dataRecordsRemoved r) (timesAccessedAsFirstPartyDueToStorageAccessAPI r).

(** [ResourceLoadStatistics(domain)]: nothing is known, [NoExistingTimestamp] is -1. *)
Definition newStatistics (domain : RegistrableDomain) : Statistics :=
  mkStatistics domain (-1) false (-1) false ∅ ∅ ∅ ∅ ∅ false ∅ ∅ ∅ ∅ ∅ false false 0 0.

Abbreviation StatisticsMap := (gmap RegistrableDomain Statistics).

(** WebCore and WTF as the store uses them. *)
Class Platform := {
  mergeStatistic : Statistics -> Statistics -> Statistics;   (* ResourceLoadStatistics::merge *)
  reduceTimeResolution : WallTime -> WallTime;
  mapOrder : StatisticsMap -> list RegistrableDomain;        (* traversal of a HashMap *)
  setOrder : DomainSet -> list RegistrableDomain             (* traversal of a HashSet *)
}.
Class PlatformLaws `{Platform} := {
  mergeStatistic_domain s s' : registrableDomain (mergeStatistic s s') = registrableDomain s;
  mergeStatistic_prevalent s s' : isPrevalent (mergeStatistic s s') = isPrevalent s || isPrevalent s';
  mergeStatistic_veryPrevalent s s' : isVeryPrevalent (mergeStatistic s s') = isVeryPrevalent s || isVeryPrevalent s';
  mapOrder_keys m : mapOrder m ≡ₚ (map_to_list m).*1;
  setOrder_elements s : setOrder s ≡ₚ elements s
}.

(** ** Platform/classifier/ResourceLoadStatisticsClassifier.cpp *)

Inductive ResourceLoadPrevalence := Low | High | VeryHigh.
#[global] Instance ResourceLoadPrevalence_eq_dec : EqDecision ResourceLoadPrevalence.
Proof. solve_decision. Defined.

Definition featureVectorLengthThresholdHigh : Z := 3.
Definition featureVectorLengthThresholdVeryHigh : Z := 30.

(** [vectorLength(a, b, c) > threshold], with the Euclidean length of [std::hypot]. *)
Definition vectorLongerThan (a b c threshold : Z) : bool := threshold * threshold <? a * a + b * b + c * c.

Definition classifyWithVectorThreshold (a b c : Z) : bool := vectorLongerThan a b c featureVectorLengthThresholdHigh.

Definition calculatePrevalenceOfCounts (subresourceUnderTopFrameDomainsCount subresourceUniqueRedirectsToCount
    subframeUnderTopFrameDomainsCount topFrameUniqueRedirectsToCount : Z) (currentPrevalence : ResourceLoadPrevalence) : ResourceLoadPrevalence :=
  if (subresourceUnderTopFrameDomainsCount =? 0) && (subresourceUniqueRedirectsToCount =? 0)
     && (subframeUnderTopFrameDomainsCount =? 0) && (topFrameUniqueRedirectsToCount =? 0)
  then Low
  else if vectorLongerThan subresourceUnderTopFrameDomainsCount subresourceUniqueRedirectsToCount
            subframeUnderTopFrameDomainsCount featureVectorLengthThresholdVeryHigh
  then VeryHigh
  else if bool_decide (currentPrevalence = High)
       || (featureVectorLengthThresholdHigh <? subresourceUnderTopFrameDomainsCount)
       || (featureVectorLengthThresholdHigh <? subresourceUniqueRedirectsToCount)
       || (featureVectorLengthThresholdHigh <? subframeUnderTopFrameDomainsCount)
       || (featureVectorLengthThresholdHigh <? topFrameUniqueRedirectsToCount)
       || classifyWithVectorThreshold subresourceUnderTopFrameDomainsCount subresourceUniqueRedirectsToCount subframeUnderTopFrameDomainsCount
  then High
  else Low.

Definition calculateResourcePrevalence (s : Statistics) (currentPrevalence : ResourceLoadPrevalence) : ResourceLoadPrevalence :=
  calculatePrevalenceOfCounts (Z.of_nat (size (subresourceUnderTopFrameDomains s))) (Z.of_nat (size (subresourceUniqueRedirectsTo s)))
    (Z.of_nat (size (subframeUnderTopFrameDomains s))) (Z.of_nat (size (topFrameUniqueRedirectsTo s))) currentPrevalence.

(** ** The store *)

Inductive ThirdPartyCookieBlockingMode := BlockAll | AllExceptBetweenAppBoundDomains | AllOnSitesWithoutUserInteraction | OnlyAccordingToPerDomainPolicy.
Inductive FirstPartyWebsiteDataRemovalMode := AllButCookies | RemoveNone | AllButCookiesLiveOnTestingTimeout | AllButCookiesReproTestingTimeout.
#[global] Instance ThirdPartyCookieBlockingMode_eq_dec : EqDecision ThirdPartyCookieBlockingMode.
Proof. solve_decision. Defined.
#[global] Instance FirstPartyWebsiteDataRemovalMode_eq_dec : EqDecision FirstPartyWebsiteDataRemovalMode.
Proof. solve_decision. Defined.

(** [Parameters]; times in milliseconds. *)
Record Parameters := mkParameters {
  pruneEntriesDownTo : nat;
  maxStatisticsEntries : nat;
  timeToLiveUserInteraction : option Z;
  minimumTimeBetweenDataRecordsRemoval : Z;
  grandfatheringTime : Z;
  cacheMaxAgeCapTime : Z;
  clientSideCookiesAgeCapTime : Z;
  minDelayAfterMainFrameDocumentLoadToNotBeARedirect : Z;
  shouldNotifyPagesWhenDataRecordsWereScanned : bool;
  shouldClassifyResourcesBeforeDataRecordsRemoval : bool;
  minimumTopFrameRedirectsForSameSiteStrictEnforcement : nat;
  isRunningTest : bool
}.
#[global] Instance eta_Parameters : Eta Parameters := fun r =>
  mkParameters (pruneEntriesDownTo r) (maxStatisticsEntries r) (timeToLiveUserInteraction r) (minimumTimeBetweenDataRecordsRemoval r)
    (grandfatheringTime r) (cacheMaxAgeCapTime r) (clientSideCookiesAgeCapTime r) (minDelayAfterMainFrameDocumentLoadToNotBeARedirect r)
    (shouldNotifyPagesWhenDataRecordsWereScanned r) (shouldClassifyResourcesBeforeDataRecordsRemoval r)
    (minimumTopFrameRedirectsForSameSiteStrictEnforcement r) (isRunningTest r).

Definition hours (n : Z) : Z := n * 3600000.
Definition defaultParameters : Parameters :=
  mkParameters 800 1000 None (hours 1) (hours (24 * 7)) (hours (24 * 7)) (hours (24 * 7)) 5000 false true 10 false.

Record DomainsToBlockCookiesFor := mkBlocking {
  domainsToBlockAndDeleteCookiesFor : list RegistrableDomain;
  domainsToBlockButKeepCookiesFor : list RegistrableDomain;
  domainsWithUserInteractionAsFirstParty : list RegistrableDomain
}.

Record DomainsToDeleteOrRestrict := mkDeletion {
  domainsToDeleteAllCookiesFor : list RegistrableDomain;
  domainsToDeleteAllButHttpOnlyCookiesFor : list RegistrableDomain;
  domainsToDeleteAllNonCookieWebsiteDataFor : list RegistrableDomain;
  domainsToEnforceSameSiteStrictFor : list RegistrableDomain
}.
#[global] Instance eta_DomainsToDeleteOrRestrict : Eta DomainsToDeleteOrRestrict := fun r =>
  mkDeletion (domainsToDeleteAllCookiesFor r) (domainsToDeleteAllButHttpOnlyCookiesFor r)
    (domainsToDeleteAllNonCookieWebsiteDataFor r) (domainsToEnforceSameSiteStrictFor r).

(** What the store asks of the main thread, in the order of the calls to [RunLoop::main().dispatch]. *)
Inductive MainThreadTask :=
| CallUpdatePrevalentDomainsToBlockCookiesForHandler (domainsToBlock : DomainsToBlockCookiesFor)
| HasCookies (subFrameDomain : RegistrableDomain)
| CallHasStorageAccessForFrameHandler (subFrameDomain topFrameDomain : RegistrableDomain)
| CallGrantStorageAccessHandler (subFrameDomain topFrameDomain : RegistrableDomain) (perPage : bool)
| RemoveAllStorageAccess
| DeleteAndRestrictWebsiteData (domains : DomainsToDeleteOrRestrict) (shouldNotify : bool)
| QueryDomainsWithWebsiteData (shouldNotify : bool)
| NotifyResourceLoadStatisticsProcessed
| LogTestingEvent (event : string)
| SetCacheMaxAgeCap (milliseconds : Z)
| SetAgeCapForClientSideCookies (milliseconds : Z).

Record Store := mkStore {
  m_resourceStatisticsMap : StatisticsMap;
  m_operatingDates : list OperatingDate;
  m_parameters : Parameters;
  m_endOfGrandfatheringTimestamp : WallTime;               (* 0 when cleared *)
  m_debugManualPrevalentResource : RegistrableDomain;
  m_lastTimeDataRecordsWereRemoved : Z;                    (* MonotonicTime, 0 at first *)
  m_lastStatisticsProcessingRequestIdentifier : Z;
  m_pendingStatisticsProcessingRequestIdentifier : option Z;
  m_debugModeEnabled : bool;
  m_thirdPartyCookieBlockingMode : ThirdPartyCookieBlockingMode;
  m_sameSiteStrictEnforcementEnabled : bool;
  m_dataRecordsBeingRemoved : bool;
  m_shouldIncludeLocalhost : bool;
  m_firstPartyWebsiteDataRemovalMode : FirstPartyWebsiteDataRemovalMode;
  m_standaloneApplicationDomain : RegistrableDomain;
  m_appBoundDomains : DomainSet;
  delayedRequests : list Z;                                (* dispatchAfter on the work queue *)
  mainThread : list MainThreadTask
}.
#[global] Instance eta_Store : Eta Store := fun r =>
  mkStore (m_resourceStatisticsMap r) (m_operatingDates r) (m_parameters r) (m_endOfGrandfatheringTimestamp r)
    (m_debugManualPrevalentResource r) (m_lastTimeDataRecordsWereRemoved r) (m_lastStatisticsProcessingRequestIdentifier r)
    (m_pendingStatisticsProcessingRequestIdentifier r) (m_debugModeEnabled r) (m_thirdPartyCookieBlockingMode r)
    (m_sameSiteStrictEnforcementEnabled r) (m_dataRecordsBeingRemoved r) (m_shouldIncludeLocalhost r)
    (m_firstPartyWebsiteDataRemovalMode r) (m_standaloneApplicationDomain r) (m_appBoundDomains r) (delayedRequests r) (mainThread r).

Definition debugStaticPrevalentResource : RegistrableDomain := "3rdpartytestwebkit.org".

(** The members' initial values, for a store that includes localhost or not. *)
Definition emptyStore (includeLocalhost : bool) : Store :=
  mkStore ∅ [] defaultParameters 0 "" 0 0 None false BlockAll false false includeLocalhost AllButCookies "" ∅ [] [].

Definition post (task : MainThreadTask) (s : Store) : Store := s <| mainThread := mainThread s ++ [task] |>.
Definition onMap (f : StatisticsMap -> StatisticsMap) (s : Store) : Store :=
  s <| m_resourceStatisticsMap := f (m_resourceStatisticsMap s) |>.

Module MemoryStore.

(** A reference into the map is the key of its entry. *)
Definition ensureResourceStatisticsForRegistrableDomain (domain : RegistrableDomain) (m : StatisticsMap) : StatisticsMap :=
  match m !! domain with
  | Some _ => m
  | None => <[domain := newStatistics domain]> m
  end.

(** [ensure(domain)] followed by a write through the reference. *)
Definition ensureAndUpdate (f : Statistics -> Statistics) (domain : RegistrableDomain) (m : StatisticsMap) : StatisticsMap :=
  alter f domain (ensureResourceStatisticsForRegistrableDomain domain m).

Definition shouldSkip (s : Store) (domain : RegistrableDomain) : bool :=
  negb (isRunningTest (m_parameters s)) && negb (m_shouldIncludeLocalhost s) && bool_decide (domain = "localhost").

Section store.
Context `{DateMath, Platform}.

(** *** Prevalence *)

Definition maxNumberOfRecursiveCallsInRedirectTraceBack : nat := 50.

(** The body of both loops of [recursivelyGetAllDomainsThatHaveRedirectedToThisDomain]: the
    domains found so far and the number of calls so far; [recurse] is the recursive call. *)
Definition visitRedirector (recurse : Statistics -> DomainSet -> nat -> option (DomainSet * nat)) (m : StatisticsMap)
    (state : option (DomainSet * nat)) (redirectFromDomain : RegistrableDomain) : option (DomainSet * nat) :=
  match state with
  | None => None
  | Some (found, calls) =>
      match m !! redirectFromDomain with
      | None => Some (found, calls)
      | Some entry =>
          if isPrevalent entry then Some (found, calls)
          else if decide (registrableDomain entry ∈ found) then Some (found, calls)
          else recurse entry ({[registrableDomain entry]} ∪ found) calls
      end
  end.

(** [recursivelyGetAllDomainsThatHaveRedirectedToThisDomain]; [None] when the fuel runs out. *)
Fixpoint recursivelyGetAllDomains (fuel : nat) (m : StatisticsMap) (resourceStatistic : Statistics)
    (domainsThatHaveRedirectedTo : DomainSet) (numberOfRecursiveCalls : nat) : option (DomainSet * nat) :=
  match fuel with
  | O => None
  | S fuel' =>
      if decide (maxNumberOfRecursiveCallsInRedirectTraceBack <= numberOfRecursiveCalls)%nat
      then Some (domainsThatHaveRedirectedTo, numberOfRecursiveCalls)
      else
        let visit := visitRedirector (recursivelyGetAllDomains fuel' m) m in
        foldl visit
          (foldl visit (Some (domainsThatHaveRedirectedTo, S numberOfRecursiveCalls)) (setOrder (subresourceUniqueRedirectsFrom resourceStatistic)))
          (setOrder (topFrameUniqueRedirectsFrom resourceStatistic))
  end.

(** One more than the number of calls made. *)
Definition traceBackFuel : nat := S maxNumberOfRecursiveCallsInRedirectTraceBack.

Definition markPrevalent (m : StatisticsMap) (domain : RegistrableDomain) : StatisticsMap :=
  alter (fun e => e <| isPrevalent := true |>) domain m.

(** [setPrevalentResource(ResourceLoadStatistics&, ResourceLoadPrevalence)], on the entry of [domain]. *)
Definition setPrevalence (s : Store) (domain : RegistrableDomain) (newPrevalence : ResourceLoadPrevalence) : Store :=
  match m_resourceStatisticsMap s !! domain with
  | None => s
  | Some resourceStatistic =>
      if shouldSkip s (registrableDomain resourceStatistic) then s
      else
        let marked := resourceStatistic <| isPrevalent := true |> <| isVeryPrevalent := bool_decide (newPrevalence = VeryHigh) |> in
        let m := <[domain := marked]> (m_resourceStatisticsMap s) in
        match recursivelyGetAllDomains traceBackFuel m marked ∅ 0 with
        | None => s <| m_resourceStatisticsMap := m |>
        | Some (domainsThatHaveRedirectedTo, _) => s <| m_resourceStatisticsMap := foldl markPrevalent m (setOrder domainsThatHaveRedirectedTo) |>
        end
  end.

Definition setPrevalentResource (domain : RegistrableDomain) (s : Store) : Store :=
  if shouldSkip s domain then s
  else setPrevalence (onMap (ensureResourceStatisticsForRegistrableDomain domain) s) domain High.

Definition setVeryPrevalentResource (domain : RegistrableDomain) (s : Store) : Store :=
  if shouldSkip s domain then s
  else setPrevalence (onMap (ensureResourceStatisticsForRegistrableDomain domain) s) domain VeryHigh.

Definition clearPrevalentResource (domain : RegistrableDomain) (s : Store) : Store :=
  onMap (ensureAndUpdate (fun e => e <| isPrevalent := false |> <| isVeryPrevalent := false |>) domain) s.

Definition isPrevalentDueToDebugMode (s : Store) (resourceStatistic : Statistics) : bool :=
  m_debugModeEnabled s && (bool_decide (registrableDomain resourceStatistic = debugStaticPrevalentResource)
                           || bool_decide (registrableDomain resourceStatistic = m_debugManualPrevalentResource s)).

Definition isPrevalentIn (m : StatisticsMap) (domain : RegistrableDomain) : bool :=
  match m !! domain with Some e => isPrevalent e | None => false end.

Definition markAsPrevalentIfHasRedirectedToPrevalent (s : Store) (domain : RegistrableDomain) : Store :=
  match m_resourceStatisticsMap s !! domain with
  | None => s
  | Some resourceStatistic =>
      if isPrevalent resourceStatistic then s
      else if existsb (isPrevalentIn (m_resourceStatisticsMap s)) (setOrder (subresourceUniqueRedirectsTo resourceStatistic))
      then setPrevalence s domain High
      else if existsb (isPrevalentIn (m_resourceStatisticsMap s)) (setOrder (topFrameUniqueRedirectsTo resourceStatistic))
      then setPrevalence s domain High
      else s
  end.

(** The body of the loop of [classifyPrevalentResources]. *)
Definition classifyResource (s : Store) (domain : RegistrableDomain) : Store :=
  match m_resourceStatisticsMap s !! domain with
  | None => s
  | Some resourceStatistic =>
      if shouldSkip s (registrableDomain resourceStatistic) then s
      else if isPrevalentDueToDebugMode s resourceStatistic then setPrevalence s domain High
      else if isVeryPrevalent resourceStatistic then s
      else
        let s' := markAsPrevalentIfHasRedirectedToPrevalent s domain in
        match m_resourceStatisticsMap s' !! domain with
        | None => s'
        | Some resourceStatistic' =>
            let currentPrevalence := if isPrevalent resourceStatistic' then High else Low in
            let newPrevalence := calculateResourcePrevalence resourceStatistic' currentPrevalence in
            if bool_decide (newPrevalence = currentPrevalence) then s' else setPrevalence s' domain newPrevalence
        end
  end.

Definition classifyPrevalentResources (s : Store) : Store :=
  foldl classifyResource s (mapOrder (m_resourceStatisticsMap s)).

Definition isPrevalentResource (domain : RegistrableDomain) (s : Store) : bool :=
  if shouldSkip s domain then false
  else match m_resourceStatisticsMap s !! domain with Some e => isPrevalent e | None => false end.

Definition isVeryPrevalentResource (domain : RegistrableDomain) (s : Store) : bool :=
  if shouldSkip s domain then false
  else match m_resourceStatisticsMap s !! domain with Some e => isPrevalent e && isVeryPrevalent e | None => false end.

Definition ensurePrevalentResourcesForDebugMode (s : Store) : list RegistrableDomain * Store :=
  if negb (m_debugModeEnabled s) then ([], s)
  else
    let s := setPrevalence (onMap (ensureResourceStatisticsForRegistrableDomain debugStaticPrevalentResource) s) debugStaticPrevalentResource High in
    let manual := m_debugManualPrevalentResource s in
    if bool_decide (manual = "") then ([debugStaticPrevalentResource], s)
    else ([debugStaticPrevalentResource; manual],
          setPrevalence (onMap (ensureResourceStatisticsForRegistrableDomain manual) s) manual High).

(** *** User interaction and cookies *)

Definition hasStatisticsExpired (now : WallTime) (s : Store) (e : Statistics) (window : OperatingDatesWindow) : bool :=
  Memory.hasStatisticsExpired now (timeToLiveUserInteraction (m_parameters s)) (m_operatingDates s) (mostRecentUserInteractionTime e) window.

(** [hasHadUnexpiredRecentUserInteraction]: the answer and the entry, which is reset when the
    interaction has expired under the long window. *)
Definition hasHadUnexpiredRecentUserInteraction (now : WallTime) (s : Store) (e : Statistics) (window : OperatingDatesWindow) : bool * Statistics :=
  if hadUserInteraction e && hasStatisticsExpired now s e window
  then (false, if bool_decide (window = Long)
               then e <| mostRecentUserInteractionTime := 0 |> <| storageAccessUnderTopFrameDomains := ∅ |> <| hadUserInteraction := false |>
               else e)
  else (hadUserInteraction e, e).

Definition hasHadUserInteraction (now : WallTime) (domain : RegistrableDomain) (window : OperatingDatesWindow) (s : Store) : bool * Store :=
  match m_resourceStatisticsMap s !! domain with
  | None => (false, s)
  | Some e => let '(result, e') := hasHadUnexpiredRecentUserInteraction now s e window in (result, onMap <[domain := e']> s)
  end.

(** One round of the loop of [updateCookieBlocking]. *)
Definition collectBlocking (now : WallTime) (state : DomainsToBlockCookiesFor * Store) (domain : RegistrableDomain) : DomainsToBlockCookiesFor * Store :=
  let '(lists, s) := state in
  match m_resourceStatisticsMap s !! domain with
  | None => (lists, s)
  | Some e =>
      let '(interacted, e') := hasHadUnexpiredRecentUserInteraction now s e Long in
      let s' := onMap <[domain := e']> s in
      if interacted
      then (mkBlocking (domainsToBlockAndDeleteCookiesFor lists)
              (if isPrevalent e' then domainsToBlockButKeepCookiesFor lists ++ [registrableDomain e'] else domainsToBlockButKeepCookiesFor lists)
              (domainsWithUserInteractionAsFirstParty lists ++ [registrableDomain e']), s')
      else if isPrevalent e'
      then (mkBlocking (domainsToBlockAndDeleteCookiesFor lists ++ [registrableDomain e'])
              (domainsToBlockButKeepCookiesFor lists) (domainsWithUserInteractionAsFirstParty lists), s')
      else (lists, s')
  end.

Definition nothingToBlock (lists : DomainsToBlockCookiesFor) : bool :=
  match domainsToBlockAndDeleteCookiesFor lists, domainsToBlockButKeepCookiesFor lists, domainsWithUserInteractionAsFirstParty lists with
  | [], [], [] => true
  | _, _, _ => false
  end.

Definition updateCookieBlocking (now : WallTime) (s : Store) : Store :=
  let '(lists, s') := foldl (collectBlocking now) (mkBlocking [] [] [], s) (mapOrder (m_resourceStatisticsMap s)) in
  if nothingToBlock lists && negb (m_debugModeEnabled s') then s'
  else post (CallUpdatePrevalentDomainsToBlockCookiesForHandler lists) s'.

Definition logUserInteraction (now : WallTime) (domain : RegistrableDomain) (s : Store) : Store :=
  let didHavePreviousUserInteraction :=
    match m_resourceStatisticsMap s !! domain with Some e => hadUserInteraction e | None => false end in
  let s' := onMap (ensureAndUpdate (fun e => e <| hadUserInteraction := true |> <| mostRecentUserInteractionTime := now |>) domain) s in
  if didHavePreviousUserInteraction then s' else updateCookieBlocking now s'.

Definition clearUserInteraction (now : WallTime) (domain : RegistrableDomain) (s : Store) : Store :=
  let didHavePreviousUserInteraction :=
    match m_resourceStatisticsMap s !! domain with Some e => hadUserInteraction e | None => false end in
  let s' := onMap (ensureAndUpdate (fun e => e <| hadUserInteraction := false |> <| mostRecentUserInteractionTime := 0 |>) domain) s in
  if negb didHavePreviousUserInteraction then s' else updateCookieBlocking now s'.

(** *** Storage access *)

Inductive CookieAccess := CannotRequest | BasedOnCookiePolicy | OnlyIfGranted.
Inductive StorageAccessStatus := CannotRequestAccess | RequiresUserPrompt | HasAccess.

Definition areAllThirdPartyCookiesBlockedUnder (now : WallTime) (topFrameDomain : RegistrableDomain) (s : Store) : bool * Store :=
  match m_thirdPartyCookieBlockingMode s with
  | BlockAll => (true, s)
  | AllOnSitesWithoutUserInteraction =>
      let '(interacted, s') := hasHadUserInteraction now topFrameDomain Long s in (negb interacted, s')
  | _ => (false, s)
  end.

(** [cookieAccess(resourceStatistic, topFrameDomain)]; the two flags are read before the top
    frame's entry is consulted. *)
Definition cookieAccess (now : WallTime) (resourceStatistic : Statistics) (topFrameDomain : RegistrableDomain) (s : Store) : CookieAccess * Store :=
  let '(blocked, s') := areAllThirdPartyCookiesBlockedUnder now topFrameDomain s in
  if negb blocked && negb (isPrevalent resourceStatistic) then (BasedOnCookiePolicy, s')
  else if negb (hadUserInteraction resourceStatistic) then (CannotRequest, s')
  else (OnlyIfGranted, s').

Definition statisticsOf (domain : RegistrableDomain) (s : Store) : Statistics :=
  match m_resourceStatisticsMap s !! domain with Some e => e | None => newStatistics domain end.

(** [hasStorageAccess]: [Some] answer of the completion handler, or [None] when the main
    thread is asked for it. *)
Definition hasStorageAccess (now : WallTime) (subFrameDomain topFrameDomain : RegistrableDomain) (s : Store) : option bool * Store :=
  let s := onMap (ensureResourceStatisticsForRegistrableDomain subFrameDomain) s in
  match cookieAccess now (statisticsOf subFrameDomain s) topFrameDomain s with
  | (CannotRequest, s) => (Some false, s)
  | (BasedOnCookiePolicy, s) => (None, post (HasCookies subFrameDomain) s)
  | (OnlyIfGranted, s) => (None, post (CallHasStorageAccessForFrameHandler subFrameDomain topFrameDomain) s)
  end.

(** [grantStorageAccessInternal]; [Some true] when granted at once. *)
Definition grantStorageAccessInternal (now : WallTime) (subFrameDomain topFrameDomain : RegistrableDomain)
    (promptWasShownNowOrEarlier perPage : bool) (s : Store) : option bool * Store :=
  if bool_decide (subFrameDomain = topFrameDomain) then (Some true, s)
  else
    let s := if promptWasShownNowOrEarlier
             then onMap (ensureAndUpdate (fun e => e <| mostRecentUserInteractionTime := now |>) subFrameDomain) s else s in
    (None, post (CallGrantStorageAccessHandler subFrameDomain topFrameDomain perPage) s).

(** The user's grant through the prompt. *)
Definition hasUserGrantedStorageAccessThroughPrompt (e : Statistics) (firstPartyDomain : RegistrableDomain) : bool :=
  bool_decide (firstPartyDomain ∈ storageAccessUnderTopFrameDomains e).

Definition requestStorageAccess (now : WallTime) (subFrameDomain topFrameDomain : RegistrableDomain) (perPage : bool) (s : Store)
    : option StorageAccessStatus * Store :=
  let s := onMap (ensureResourceStatisticsForRegistrableDomain subFrameDomain) s in
  match cookieAccess now (statisticsOf subFrameDomain s) topFrameDomain s with
  | (CannotRequest, s) => (Some CannotRequestAccess, s)
  | (BasedOnCookiePolicy, s) => (Some HasAccess, s)
  | (OnlyIfGranted, s) =>
      let userWasPromptedEarlier := hasUserGrantedStorageAccessThroughPrompt (statisticsOf subFrameDomain s) topFrameDomain in
      if negb userWasPromptedEarlier then (Some RequiresUserPrompt, s)
      else
        let s := onMap (alter (fun e => e <| timesAccessedAsFirstPartyDueToStorageAccessAPI :=
                                             wrap 32 (timesAccessedAsFirstPartyDueToStorageAccessAPI e + 1) |>) subFrameDomain) s in
        let '(granted, s) := grantStorageAccessInternal now subFrameDomain topFrameDomain userWasPromptedEarlier perPage s in
        ((fun wasGranted : bool => if wasGranted then HasAccess else CannotRequestAccess) <$> granted, s)
  end.

Definition requestStorageAccessUnderOpener (now : WallTime) (domainInNeedOfStorageAccess openerDomain : RegistrableDomain) (s : Store) : Store :=
  if bool_decide (domainInNeedOfStorageAccess = openerDomain) then s
  else snd (grantStorageAccessInternal now domainInNeedOfStorageAccess openerDomain false true s).

Definition grantStorageAccess (now : WallTime) (subFrameDomain topFrameDomain : RegistrableDomain) (promptWasShown perPage : bool) (s : Store)
    : option bool * Store :=
  let s := if promptWasShown
           then onMap (ensureAndUpdate (fun e => e <| storageAccessUnderTopFrameDomains :=
                                                    {[topFrameDomain]} ∪ storageAccessUnderTopFrameDomains e |>) subFrameDomain) s else s in
  grantStorageAccessInternal now subFrameDomain topFrameDomain promptWasShown perPage s.

(** *** Logging of loads *)

Definition scheduleStatisticsProcessingRequestIfNecessary (s : Store) : Store :=
  let identifier := wrap 64 (m_lastStatisticsProcessingRequestIdentifier s + 1) in
  s <| m_lastStatisticsProcessingRequestIdentifier := identifier |>
    <| m_pendingStatisticsProcessingRequestIdentifier := Some identifier |>
    <| delayedRequests := delayedRequests s ++ [identifier] |>.

(** Add a domain to a set of an entry, noting whether it is new. *)
Definition addTo (field : Statistics -> DomainSet) (write : DomainSet -> Statistics -> Statistics)
    (entry domain : RegistrableDomain) (state : bool * StatisticsMap) : bool * StatisticsMap :=
  let '(wereUpdated, m) := state in
  let m := ensureResourceStatisticsForRegistrableDomain entry m in
  let isNewEntry := match m !! entry with Some e => negb (bool_decide (domain ∈ field e)) | None => false end in
  (wereUpdated || isNewEntry, alter (fun e => write ({[domain]} ∪ field e) e) entry m).

Definition logFrameNavigation (now : WallTime) (targetDomain topFrameDomain sourceDomain : RegistrableDomain)
    (isRedirect isMainFrame : bool) (delayAfterMainFrameDocumentLoad : Z) (wasPotentiallyInitiatedByUser : bool) (s : Store) : Store :=
  let areTargetAndTopFrameDomainsSameSite := bool_decide (targetDomain = topFrameDomain) in
  let areTargetAndSourceDomainsSameSite := bool_decide (targetDomain = sourceDomain) in
  let state0 := (false, m_resourceStatisticsMap s) in
  let state1 :=
    if negb isMainFrame && negb (areTargetAndTopFrameDomainsSameSite || areTargetAndSourceDomainsSameSite)
    then addTo subframeUnderTopFrameDomains (fun v e => e <| subframeUnderTopFrameDomains := v |>) targetDomain topFrameDomain
           (fst state0, ensureAndUpdate (fun e => e <| lastSeen := reduceTimeResolution now |>) targetDomain (snd state0))
    else state0 in
  let state2 :=
    if negb areTargetAndSourceDomainsSameSite then
      if isMainFrame then
        let state := (fst state1, ensureResourceStatisticsForRegistrableDomain sourceDomain (snd state1)) in
        let wasNavigatedAfterShortDelayWithoutUserInteraction :=
          negb wasPotentiallyInitiatedByUser
          && (delayAfterMainFrameDocumentLoad <? minDelayAfterMainFrameDocumentLoadToNotBeARedirect (m_parameters s)) in
        if isRedirect || wasNavigatedAfterShortDelayWithoutUserInteraction then
          let state := addTo topFrameUniqueRedirectsTo (fun v e => e <| topFrameUniqueRedirectsTo := v |>) sourceDomain targetDomain state in
          let state := if isRedirect
                       then addTo topFrameUniqueRedirectsToSinceSameSiteStrictEnforcement
                              (fun v e => e <| topFrameUniqueRedirectsToSinceSameSiteStrictEnforcement := v |>) sourceDomain targetDomain state
                       else state in
          addTo topFrameUniqueRedirectsFrom (fun v e => e <| topFrameUniqueRedirectsFrom := v |>) targetDomain sourceDomain state
        else state
      else if isRedirect then
        let state := addTo subresourceUniqueRedirectsTo (fun v e => e <| subresourceUniqueRedirectsTo := v |>) sourceDomain targetDomain state1 in
        addTo subresourceUniqueRedirectsFrom (fun v e => e <| subresourceUniqueRedirectsFrom := v |>) targetDomain sourceDomain state
      else state1
    else state1 in
  let s' := s <| m_resourceStatisticsMap := snd state2 |> in
  if fst state2 then scheduleStatisticsProcessingRequestIfNecessary s' else s'.

(** [logCrossSiteLoadWithLinkDecoration]: the reference to the target's entry is held across
    the [ensure] of the source's entry, which may insert and so move the table's entries; a
    write through it after an insertion is undefined behaviour. *)
Definition logCrossSiteLoadWithLinkDecoration (fromDomain toDomain : RegistrableDomain) (s : Store) : outcome Store :=
  let m := ensureAndUpdate (fun e => e <| topFrameLinkDecorationsFrom := {[fromDomain]} ∪ topFrameLinkDecorationsFrom e |>) toDomain
             (m_resourceStatisticsMap s) in
  let inserted := match m !! fromDomain with Some _ => false | None => true end in
  let m := ensureResourceStatisticsForRegistrableDomain fromDomain m in
  if isPrevalentIn m fromDomain
  then if inserted then Undefined
       else Done (s <| m_resourceStatisticsMap := alter (fun e => e <| gotLinkDecorationFromPrevalentResource := true |>) toDomain m |>)
  else Done (s <| m_resourceStatisticsMap := m |>).

(** *** Setters and queries *)

Definition setGrandfathered (domain : RegistrableDomain) (value : bool) (s : Store) : Store :=
  onMap (ensureAndUpdate (fun e => e <| grandfathered := value |>) domain) s.

Definition isGrandfathered (domain : RegistrableDomain) (s : Store) : bool :=
  match m_resourceStatisticsMap s !! domain with Some e => grandfathered e | None => false end.

Definition grandfatherDataForDomains (domains : DomainSet) (s : Store) : Store :=
  foldl (fun s domain => setGrandfathered domain true s) s (setOrder domains).

Definition incrementRecordsDeletedCountForDomains (domains : DomainSet) (s : Store) : Store :=
  foldl (fun s domain => onMap (ensureAndUpdate (fun e => e <| dataRecordsRemoved := wrap 32 (dataRecordsRemoved e + 1) |>) domain) s)
    s (setOrder domains).

Definition setLastSeen (domain : RegistrableDomain) (time : WallTime) (s : Store) : Store :=
  onMap (ensureAndUpdate (fun e => e <| lastSeen := time |>) domain) s.

(** The setters of the relations also make sure the related domain has an entry. *)
Definition relate (write : Statistics -> Statistics) (domain related : RegistrableDomain) (s : Store) : Store :=
  onMap (fun m => ensureResourceStatisticsForRegistrableDomain related (ensureAndUpdate write domain m)) s.

Definition setSubframeUnderTopFrameDomain (subFrameDomain topFrameDomain : RegistrableDomain) : Store -> Store :=
  relate (fun e => e <| subframeUnderTopFrameDomains := {[topFrameDomain]} ∪ subframeUnderTopFrameDomains e |>) subFrameDomain topFrameDomain.
Definition setSubresourceUnderTopFrameDomain (subresourceDomain topFrameDomain : RegistrableDomain) : Store -> Store :=
  relate (fun e => e <| subresourceUnderTopFrameDomains := {[topFrameDomain]} ∪ subresourceUnderTopFrameDomains e |>) subresourceDomain topFrameDomain.
Definition setSubresourceUniqueRedirectTo (subresourceDomain redirectDomain : RegistrableDomain) : Store -> Store :=
  relate (fun e => e <| subresourceUniqueRedirectsTo := {[redirectDomain]} ∪ subresourceUniqueRedirectsTo e |>) subresourceDomain redirectDomain.
Definition setSubresourceUniqueRedirectFrom (subresourceDomain redirectDomain : RegistrableDomain) : Store -> Store :=
  relate (fun e => e <| subresourceUniqueRedirectsFrom := {[redirectDomain]} ∪ subresourceUniqueRedirectsFrom e |>) subresourceDomain redirectDomain.
Definition setTopFrameUniqueRedirectTo (topFrameDomain redirectDomain : RegistrableDomain) : Store -> Store :=
  relate (fun e => e <| topFrameUniqueRedirectsTo := {[redirectDomain]} ∪ topFrameUniqueRedirectsTo e |>
                     <| topFrameUniqueRedirectsToSinceSameSiteStrictEnforcement :=
                          {[redirectDomain]} ∪ topFrameUniqueRedirectsToSinceSameSiteStrictEnforcement e |>) topFrameDomain redirectDomain.
Definition setTopFrameUniqueRedirectFrom (topFrameDomain redirectDomain : RegistrableDomain) : Store -> Store :=
  relate (fun e => e <| topFrameUniqueRedirectsFrom := {[redirectDomain]} ∪ topFrameUniqueRedirectsFrom e |>) topFrameDomain redirectDomain.

Definition isRegisteredAsSubresourceUnder (subresourceDomain topFrameDomain : RegistrableDomain) (s : Store) : bool :=
  match m_resourceStatisticsMap s !! subresourceDomain with Some e => bool_decide (topFrameDomain ∈ subresourceUnderTopFrameDomains e) | None => false end.
Definition isRegisteredAsSubFrameUnder (subFrameDomain topFrameDomain : RegistrableDomain) (s : Store) : bool :=
  match m_resourceStatisticsMap s !! subFrameDomain with Some e => bool_decide (topFrameDomain ∈ subframeUnderTopFrameDomains e) | None => false end.
Definition isRegisteredAsRedirectingTo (redirectedFromDomain redirectedToDomain : RegistrableDomain) (s : Store) : bool :=
  match m_resourceStatisticsMap s !! redirectedFromDomain with Some e => bool_decide (redirectedToDomain ∈ subresourceUniqueRedirectsTo e) | None => false end.

Definition mergeStatistics (statistics : list Statistics) (s : Store) : Store :=
  foldl (fun s statistic =>
           onMap (fun m => match m !! registrableDomain statistic with
                           | None => <[registrableDomain statistic := statistic]> m
                           | Some e => <[registrableDomain statistic := mergeStatistic e statistic]> m
                           end) s) s statistics.

Definition removeRelations (domain : RegistrableDomain) (e : Statistics) : Statistics :=
  e <| topFrameUniqueRedirectsTo := topFrameUniqueRedirectsTo e ∖ {[domain]} |>
    <| topFrameUniqueRedirectsToSinceSameSiteStrictEnforcement := topFrameUniqueRedirectsToSinceSameSiteStrictEnforcement e ∖ {[domain]} |>
    <| topFrameUniqueRedirectsFrom := topFrameUniqueRedirectsFrom e ∖ {[domain]} |>
    <| topFrameLinkDecorationsFrom := topFrameLinkDecorationsFrom e ∖ {[domain]} |>
    <| topFrameLoadedThirdPartyScripts := topFrameLoadedThirdPartyScripts e ∖ {[domain]} |>
    <| subframeUnderTopFrameDomains := subframeUnderTopFrameDomains e ∖ {[domain]} |>
    <| subresourceUnderTopFrameDomains := subresourceUnderTopFrameDomains e ∖ {[domain]} |>
    <| subresourceUniqueRedirectsTo := subresourceUniqueRedirectsTo e ∖ {[domain]} |>
    <| subresourceUniqueRedirectsFrom := subresourceUniqueRedirectsFrom e ∖ {[domain]} |>.

Definition removeDataForDomain (domain : RegistrableDomain) (s : Store) : Store :=
  onMap (fun m => removeRelations domain <$> delete domain m) s.

Definition clear (s : Store) : Store :=
  let s := s <| m_resourceStatisticsMap := ∅ |> <| m_operatingDates := [] |> in
  let s := post RemoveAllStorageAccess s in
  let '(domains, s) := ensurePrevalentResourcesForDebugMode s in
  post (CallUpdatePrevalentDomainsToBlockCookiesForHandler (mkBlocking domains [] [])) s.

Definition includeTodayAsOperatingDateIfNecessary (now : WallTime) (s : Store) : Store :=
  s <| m_operatingDates := Memory.includeTodayAsOperatingDateIfNecessary now (m_operatingDates s) |>.

Definition mergeOperatingDates (newDates : list OperatingDate) (s : Store) : Store :=
  s <| m_operatingDates := Memory.mergeOperatingDates (m_operatingDates s) newDates |>.

Definition createStore (now : WallTime) (includeLocalhost : bool) : Store :=
  includeTodayAsOperatingDateIfNecessary now (emptyStore includeLocalhost).

(** [insertExpiredStatisticForTesting]: [clock i] is the time at turn [i] of its loop. *)
Definition daysAgo (clock : nat -> WallTime) (i : nat) : WallTime := clock i - msPerDay * Z.of_nat i.
Definition insertExpiredStatisticForTesting (clock : nat -> WallTime) (domain : RegistrableDomain) (numberOfOperatingDaysPassed : nat)
    (hasUserInteraction isScheduledForAllButCookieDataRemoval prevalent : bool) (s : Store) : Store :=
  let s := s <| m_operatingDates := m_operatingDates s ++ map (fun i => fromWallTime (daysAgo clock i)) (seq 1 numberOfOperatingDaysPassed) |> in
  let seen := (match numberOfOperatingDaysPassed with O => 0 | n => daysAgo clock n end) - msPerDay in
  let statistic := (newStatistics domain) <| lastSeen := seen |> <| hadUserInteraction := hasUserInteraction |> <| mostRecentUserInteractionTime := seen |>
    <| isPrevalent := prevalent |> <| gotLinkDecorationFromPrevalentResource := isScheduledForAllButCookieDataRemoval |> in
  onMap (fun m => match m !! domain with Some _ => m | None => <[domain := statistic]> m end) s.

Definition setResourceLoadStatisticsDebugMode (now : WallTime) (enable : bool) (s : Store) : Store :=
  if bool_decide (m_debugModeEnabled s = enable) then s
  else
    let s := snd (ensurePrevalentResourcesForDebugMode (s <| m_debugModeEnabled := enable |>)) in
    if enable then updateCookieBlocking now s else s.

(** *** Third-party data *)

Definition hasBeenThirdParty (e : Statistics) : bool :=
  negb (bool_decide (subframeUnderTopFrameDomains e = ∅)) || negb (bool_decide (subresourceUnderTopFrameDomains e = ∅))
  || negb (bool_decide (subresourceUniqueRedirectsTo e = ∅)).

(** [appendIfNotContains] of the first party and whether it granted storage access. *)
Definition ensureThirdPartyDataForSpecificFirstPartyDomain (e : Statistics) (data : list (RegistrableDomain * bool)) (firstParty : RegistrableDomain)
    : list (RegistrableDomain * bool) :=
  let datum := (firstParty, bool_decide (firstParty ∈ storageAccessUnderTopFrameDomains e)) in
  if decide (datum ∈ data) then data else data ++ [datum].

Definition getThirdPartyDataForSpecificFirstPartyDomains (e : Statistics) : list (RegistrableDomain * bool) :=
  foldl (ensureThirdPartyDataForSpecificFirstPartyDomain e) []
    (setOrder (subframeUnderTopFrameDomains e) ++ setOrder (subresourceUnderTopFrameDomains e) ++ setOrder (subresourceUniqueRedirectsTo e)).

End store.
End MemoryStore.

(** ** The trace back of redirects *)

Import MemoryStore.

(** Every entry is stored under its own domain. *)
Definition keyed (m : StatisticsMap) : Prop := forall d e, m !! d = Some e -> registrableDomain e = d.

(** [redirector m e d]: the entry [e] records a redirect from [d], which has an entry and is
    not prevalent. *)
Definition redirector (m : StatisticsMap) (e : Statistics) (d : RegistrableDomain) : Prop :=
  (d ∈ subresourceUniqueRedirectsFrom e \/ d ∈ topFrameUniqueRedirectsFrom e) /\
  exists e', m !! d = Some e' /\ isPrevalent e' = false.

(** [d] leads to the entry [e] through redirectors. *)
Inductive leads_to (m : StatisticsMap) (e : Statistics) : RegistrableDomain -> Prop :=
| leads_directly d : redirector m e d -> leads_to m e d
| leads_through d d' e' : leads_to m e d' -> m !! d' = Some e' -> redirector m e' d -> leads_to m e d.

Section traceBack.
Context `{Platform} `{!PlatformLaws}.
Variable m : StatisticsMap.
Hypothesis Hkeyed : keyed m.

Lemma leads_to_trans e d e' d' : leads_to m e d -> m !! d = Some e' -> leads_to m e' d' -> leads_to m e d'.
Proof. intros Hd Hm. induction 1 as [d' Hr|d' d'' e'' _ IH Hm' Hr]; [by eapply leads_through|by eapply leads_through]. Qed.

(** What a call ([k] = 1) or a part of its loops ([k] = 0) guarantees, when it starts with the
    domains [acc] and the count [n], has to look at the domains [todo] and ends with [acc'] and [n']. *)
Record traced (k : nat) (e : Statistics) (todo : list RegistrableDomain) (acc : DomainSet) (n : nat) (acc' : DomainSet) (n' : nat) : Prop := {
  traced_grows : acc ⊆ acc';
  traced_sound d : d ∈ acc' -> d ∉ acc -> leads_to m e d;
  traced_counts : (n <= n' <= Nat.max n 50 /\ n' + size acc <= n + k + size acc')%nat;
  traced_todo d e' : (n' < 50)%nat -> d ∈ todo -> m !! d = Some e' -> isPrevalent e' = false -> d ∈ acc';
  traced_closed d e' d' : (n' < 50)%nat -> d ∈ acc' -> d ∉ acc -> m !! d = Some e' -> redirector m e' d' -> d' ∈ acc'
}.

Definition redirectsInto (e : Statistics) : list RegistrableDomain :=
  setOrder (subresourceUniqueRedirectsFrom e) ++ setOrder (topFrameUniqueRedirectsFrom e).

Lemma redirectsInto_elem e d : d ∈ redirectsInto e <-> d ∈ subresourceUniqueRedirectsFrom e \/ d ∈ topFrameUniqueRedirectsFrom e.
Proof. unfold redirectsInto. rewrite !setOrder_elements. set_solver. Qed.

(** The recursive call does what it should when it starts with at least [n] calls. *)
Definition recurses_from (n : nat) (recurse : Statistics -> DomainSet -> nat -> option (DomainSet * nat)) : Prop :=
  forall e acc calls, (n <= calls)%nat -> exists acc' calls',
    recurse e acc calls = Some (acc', calls') /\ traced 1 e (redirectsInto e) acc calls acc' calls'.

Lemma traced_app e todo todo' acc n acc1 n1 acc2 n2 :
  traced 0 e todo acc n acc1 n1 -> traced 0 e todo' acc1 n1 acc2 n2 -> traced 0 e (todo ++ todo') acc n acc2 n2.
Proof.
  intros [Hg Hs Hc Ht Hcl] [Hg' Hs' Hc' Ht' Hcl']. split; [set_solver| |lia| |].
  - intros d Hd Hn. destruct (decide (d ∈ acc1)); auto.
  - intros d e' Hn [Hd|Hd]%elem_of_app He Hp; [apply Hg', (Ht d e'); auto; lia|eauto].
  - intros d e' d' Hn Hd Hnd He Hr. destruct (decide (d ∈ acc1)); [apply Hg', (Hcl d e'); auto; lia|eauto].
Qed.

(** A domain that is not followed leaves the state as it is. *)
Lemma traced_skip e d acc n : (d ∈ acc \/ forall e', m !! d = Some e' -> isPrevalent e' = true) -> traced 0 e [d] acc n acc n.
Proof.
  intros Hskip. split; [done|done|lia| |done]. intros d' e' _ Hd' He Hp. apply list_elem_of_singleton in Hd' as ->.
  destruct Hskip as [|Hskip]; [done|]. apply Hskip in He. congruence.
Qed.

Lemma visit_traced recurse n0 e d acc n :
  recurses_from n0 recurse -> (n0 <= n)%nat -> d ∈ redirectsInto e ->
  exists acc' n', visitRedirector recurse m (Some (acc, n)) d = Some (acc', n') /\ traced 0 e [d] acc n acc' n'.
Proof.
  intros Hrec Hn Hd. unfold visitRedirector. destruct (m !! d) as [entry|] eqn:Hm; [|eexists _, _; split; [done|apply traced_skip; naive_solver]].
  destruct (isPrevalent entry) eqn:Hp; [eexists _, _; split; [done|apply traced_skip; naive_solver]|].
  rewrite (Hkeyed _ _ Hm). case_decide as Hin; [eexists _, _; split; [done|apply traced_skip; auto]|].
  destruct (Hrec entry ({[d]} ∪ acc) n Hn) as (acc' & n' & -> & [Hg Hs Hc Ht Hcl]). eexists _, _; split; [done|].
  assert (Hred : redirector m e d). { split; [by apply redirectsInto_elem|eauto]. }
  assert (Hdin : d ∈ acc') by set_solver. split; [set_solver| | | |].
  - intros d' Hd' Hnd'. destruct (decide (d' = d)) as [->|]; [by apply leads_directly|].
    eapply leads_to_trans; [by apply leads_directly|done|]. apply Hs; set_solver.
  - rewrite size_union, size_singleton in Hc by set_solver. lia.
  - intros d' e' _ Hd' _ _. by apply list_elem_of_singleton in Hd' as ->.
  - intros d' e' d'' Hn' Hd' Hnd' He' Hr. destruct (decide (d' = d)) as [->|]; [|eapply Hcl; [done..| |done|done]; set_solver].
    simplify_eq. destruct Hr as [Hr (e'' & He'' & Hp'')]. eapply Ht; [done| |done..]. by apply redirectsInto_elem.
Qed.

Lemma visits_traced recurse n0 e todo acc n :
  recurses_from n0 recurse -> (n0 <= n)%nat -> todo ⊆ redirectsInto e ->
  exists acc' n', foldl (visitRedirector recurse m) (Some (acc, n)) todo = Some (acc', n') /\ traced 0 e todo acc n acc' n'.
Proof.
  intros Hrec. revert acc n. induction todo as [|d todo IH]; intros acc n Hn Hsub.
  - eexists _, _. split; [done|]. split; [done|done|lia|set_solver|done].
  - destruct (visit_traced recurse n0 e d acc n) as (acc1 & n1 & Hv & Ht1); [done..|set_solver|].
    destruct (IH acc1 n1) as (acc2 & n2 & Hvs & Ht2); [pose proof (traced_counts _ _ _ _ _ _ _ Ht1); lia|set_solver|].
    exists acc2, n2. split; [cbn [foldl]; by rewrite Hv|]. by apply (traced_app e [d] todo acc n acc1 n1).
Qed.

Lemma recursivelyGetAllDomains_traced fuel n : (50 - n < fuel)%nat -> recurses_from n (recursivelyGetAllDomains fuel m).
Proof.
  revert n. induction fuel as [|fuel IH]; intros n0 Hf e acc n Hn; [lia|]. cbn [recursivelyGetAllDomains].
  unfold maxNumberOfRecursiveCallsInRedirectTraceBack. case_decide as Hcase.
  1: eexists _, _; split; [done|]; split; [done|done|lia|lia|lia].
  destruct (visits_traced (recursivelyGetAllDomains fuel m) (S n) e (redirectsInto e) acc (S n)) as (acc' & n' & Hv & Ht); [apply IH; lia|done..|].
  rewrite <- foldl_app. exists acc', n'. split; [exact Hv|]. destruct Ht as [Hg Hs Hc Ht Hcl]. split; auto. lia.
Qed.
End traceBack.

(** ** Prevalence spreads to redirectors *)

Lemma markPrevalent_lookup l m d :
  foldl markPrevalent m l !! d = (fun e => if decide (d ∈ l) then e <| isPrevalent := true |> else e) <$> m !! d.
Proof.
  revert m. induction l as [|x l IH]; intros m; cbn [foldl].
  - destruct (m !! d); cbn; [|done]. by rewrite decide_False by (apply not_elem_of_nil).
  - rewrite IH. unfold markPrevalent. destruct (decide (d = x)) as [->|Hne].
    + rewrite lookup_alter_eq. destruct (m !! x); cbn; [|done]. f_equal. rewrite (decide_True (P := x ∈ x :: l)) by set_solver. by case_decide.
    + rewrite lookup_alter_ne by done. destruct (m !! d); cbn; [|done]. f_equal.
      destruct (decide (d ∈ l)); [by rewrite decide_True by set_solver|by rewrite decide_False by set_solver].
Qed.

(** An entry without its prevalence. *)
Definition shape (e : Statistics) : Statistics := e <| isPrevalent := false |> <| isVeryPrevalent := false |>.

Definition markedAs (newPrevalence : ResourceLoadPrevalence) (e : Statistics) : Statistics :=
  e <| isPrevalent := true |> <| isVeryPrevalent := bool_decide (newPrevalence = VeryHigh) |>.

Section spread.
Context `{Platform} `{!PlatformLaws}.

Lemma keyed_shape m m' : shape <$> m' = shape <$> m -> keyed m -> keyed m'.
Proof.
  intros Hs Hk d e He. apply (f_equal (lookup d)) in Hs. rewrite !lookup_fmap, He in Hs. destruct (m !! d) as [e0|] eqn:He0; [|done].
  cbn in Hs. apply Hk in He0. apply (f_equal (fmap registrableDomain)) in Hs. cbn in Hs. congruence.
Qed.

Lemma keyed_insert m d e : keyed m -> registrableDomain e = d -> keyed (<[d := e]> m).
Proof. intros Hk He d' e' [[<- <-]|[_ He']]%lookup_insert_Some; auto. Qed.

Lemma leads_to_not_prevalent m e d : leads_to m e d -> exists e', m !! d = Some e' /\ isPrevalent e' = false.
Proof. by destruct 1 as [? []|? ? ? ? ? []]. Qed.

(** What [setPrevalentResource] leaves in the map. *)
Lemma setPrevalence_eq s domain e newPrevalence :
  keyed (m_resourceStatisticsMap s) -> m_resourceStatisticsMap s !! domain = Some e -> shouldSkip s domain = false ->
  exists found calls,
    let m1 := <[domain := markedAs newPrevalence e]> (m_resourceStatisticsMap s) in
    traced m1 1 (markedAs newPrevalence e) (redirectsInto (markedAs newPrevalence e)) ∅ 0 found calls /\
    setPrevalence s domain newPrevalence = s <| m_resourceStatisticsMap := foldl markPrevalent m1 (setOrder found) |>.
Proof.
  intros Hk He Hskip. unfold setPrevalence. rewrite He, (Hk _ _ He), Hskip. fold (markedAs newPrevalence e).
  destruct (recursivelyGetAllDomains_traced (<[domain := markedAs newPrevalence e]> (m_resourceStatisticsMap s))
    ltac:(apply keyed_insert; [done|by apply (Hk _ _ He)]) traceBackFuel 0 ltac:(unfold traceBackFuel, maxNumberOfRecursiveCallsInRedirectTraceBack; lia)
    (markedAs newPrevalence e) ∅ 0%nat ltac:(lia)) as (found & calls & -> & Ht).
  by exists found, calls.
Qed.

Lemma isPrevalentIn_mark l m d :
  isPrevalentIn (foldl markPrevalent m l) d = isPrevalentIn m d || (bool_decide (d ∈ l) && bool_decide (is_Some (m !! d))).
Proof.
  unfold isPrevalentIn. rewrite markPrevalent_lookup. destruct (m !! d) as [e|]; cbn.
  - case_decide; [rewrite bool_decide_true by done; cbn; by rewrite orb_true_r|rewrite bool_decide_false by done; cbn; by rewrite orb_false_r].
  - by rewrite andb_false_r.
Qed.

(** The domains that become prevalent with a domain: those that lead to it through redirects,
    all of them if at most 48 domains are not prevalent. *)
Lemma setPrevalence_spreads s domain e newPrevalence :
  keyed (m_resourceStatisticsMap s) -> m_resourceStatisticsMap s !! domain = Some e -> shouldSkip s domain = false ->
  let m1 := <[domain := markedAs newPrevalence e]> (m_resourceStatisticsMap s) in
  let m' := m_resourceStatisticsMap (setPrevalence s domain newPrevalence) in
  (forall d, isPrevalentIn m' d = true -> isPrevalentIn m1 d = true \/ leads_to m1 (markedAs newPrevalence e) d) /\
  (forall d, isPrevalentIn m1 d = true -> isPrevalentIn m' d = true) /\
  ((size (filter (fun '(_, e') => isPrevalent e' = false) m1) < 49)%nat ->
   forall d, leads_to m1 (markedAs newPrevalence e) d -> isPrevalentIn m' d = true).
Proof.
  intros Hk He Hskip m1 m'. destruct (setPrevalence_eq s domain e newPrevalence Hk He Hskip) as (found & calls & Ht & Heq).
  fold m1 in Ht, Heq. assert (Hm' : m' = foldl markPrevalent m1 (setOrder found)) by (unfold m'; by rewrite Heq).
  rewrite Hm'. destruct Ht as [_ Hs Hc Htodo Hcl]. repeat split.
  - intros d. rewrite isPrevalentIn_mark. intros [?|[Hd _]%andb_true_iff]%orb_true_iff; [by left|right].
    apply bool_decide_eq_true in Hd. rewrite setOrder_elements, elem_of_elements in Hd. by apply Hs; [|set_solver].
  - intros d Hd. rewrite isPrevalentIn_mark, Hd. done.
  - intros Hsize. assert (Hcalls : (calls < 50)%nat).
    { rewrite size_empty in Hc. assert (size found <= size (filter (fun '(_, e') => isPrevalent e' = false) m1))%nat; [|lia].
      rewrite <- size_dom. apply subseteq_size. intros d Hd.
      destruct (leads_to_not_prevalent _ _ _ (Hs d Hd ltac:(set_solver))) as (e' & He' & Hp).
      apply elem_of_dom. exists e'. by apply map_lookup_filter_Some. }
    assert (Hfound : forall d, leads_to m1 (markedAs newPrevalence e) d -> d ∈ found).
    { induction 1 as [d [Hin (e' & He' & Hp)]|d d' e' _ IH He' Hr].
      - eapply Htodo; [done| |done|done]. by rewrite redirectsInto_elem.
      - eapply Hcl; [done|exact IH|set_solver|done|done]. }
    intros d Hd. rewrite isPrevalentIn_mark. destruct (leads_to_not_prevalent _ _ _ Hd) as (e' & He' & _).
    rewrite (bool_decide_true (d ∈ _)), (bool_decide_true (is_Some _)); [by rewrite orb_true_r|by eexists|].
    rewrite setOrder_elements, elem_of_elements. by apply Hfound.
Qed.
End spread.

(** ** Classification *)

(** [s'] is [s] with some entries promoted: only prevalence changed and nothing prevalent
    ceased to be. *)
Record promotes (s s' : Store) : Prop := {
  promotes_rest : s' = s <| m_resourceStatisticsMap := m_resourceStatisticsMap s' |>;
  promotes_shape : shape <$> m_resourceStatisticsMap s' = shape <$> m_resourceStatisticsMap s;
  promotes_mono d : isPrevalentIn (m_resourceStatisticsMap s) d = true -> isPrevalentIn (m_resourceStatisticsMap s') d = true
}.

#[global] Instance promotes_refl : Reflexive promotes.
Proof. intros s. split; auto. by destruct s. Qed.
#[global] Instance promotes_trans : Transitive promotes.
Proof.
  intros s1 s2 s3 [Hr Hs Hm] [Hr' Hs' Hm']. split; [|by rewrite Hs'|auto]. rewrite Hr'. rewrite Hr. done.
Qed.

Lemma promotes_lookup s s' d e : promotes s s' -> m_resourceStatisticsMap s' !! d = Some e ->
  exists e0, m_resourceStatisticsMap s !! d = Some e0 /\ shape e = shape e0.
Proof.
  intros [_ Hs _] He. apply (f_equal (lookup d)) in Hs. rewrite !lookup_fmap, He in Hs.
  destruct (m_resourceStatisticsMap s !! d) as [e0|]; [|done]. exists e0. split; [done|]. by apply (inj Some) in Hs.
Qed.

Lemma promotes_config s s' : promotes s s' -> shouldSkip s' = shouldSkip s /\ isPrevalentDueToDebugMode s' = isPrevalentDueToDebugMode s.
Proof. intros [-> _ _]. done. Qed.

(** What depends on an entry's shape only. *)
Lemma shape_domain e e0 : shape e = shape e0 -> registrableDomain e = registrableDomain e0.
Proof. intros Hs. exact (f_equal registrableDomain Hs). Qed.
Lemma shape_redirects e e0 : shape e = shape e0 ->
  subresourceUniqueRedirectsTo e = subresourceUniqueRedirectsTo e0 /\ topFrameUniqueRedirectsTo e = topFrameUniqueRedirectsTo e0 /\
  subresourceUniqueRedirectsFrom e = subresourceUniqueRedirectsFrom e0 /\ topFrameUniqueRedirectsFrom e = topFrameUniqueRedirectsFrom e0.
Proof.
  intros Hs. pose proof (f_equal subresourceUniqueRedirectsTo Hs). pose proof (f_equal topFrameUniqueRedirectsTo Hs).
  pose proof (f_equal subresourceUniqueRedirectsFrom Hs). pose proof (f_equal topFrameUniqueRedirectsFrom Hs). done.
Qed.
Lemma shape_prevalence e e0 p : shape e = shape e0 -> calculateResourcePrevalence e p = calculateResourcePrevalence e0 p.
Proof.
  intros Hs. unfold calculateResourcePrevalence. destruct (shape_redirects _ _ Hs) as (-> & -> & _ & _).
  pose proof (f_equal subresourceUnderTopFrameDomains Hs) as H1. pose proof (f_equal subframeUnderTopFrameDomains Hs) as H2.
  cbn in H1, H2. by rewrite H1, H2.
Qed.
Lemma shape_debug s e e0 : shape e = shape e0 -> isPrevalentDueToDebugMode s e = isPrevalentDueToDebugMode s e0.
Proof. intros Hs. unfold isPrevalentDueToDebugMode. by rewrite (shape_domain _ _ Hs). Qed.

(** Why a domain may be prevalent after a classification of [s]: it was before, the debug mode
    or the classifier says so, it has redirected to such a domain or has been seen redirecting to one. *)
Inductive justified (s : Store) : RegistrableDomain -> Prop :=
| justified_before d : isPrevalentIn (m_resourceStatisticsMap s) d = true -> justified s d
| justified_by_debug_mode d e : m_resourceStatisticsMap s !! d = Some e -> isPrevalentDueToDebugMode s e = true -> justified s d
| justified_by_classifier d e : m_resourceStatisticsMap s !! d = Some e -> calculateResourcePrevalence e Low <> Low -> justified s d
| justified_redirects_to d d' e : m_resourceStatisticsMap s !! d = Some e ->
    d' ∈ subresourceUniqueRedirectsTo e \/ d' ∈ topFrameUniqueRedirectsTo e -> justified s d' -> justified s d
| justified_redirected_from d d' e' : m_resourceStatisticsMap s !! d' = Some e' ->
    d ∈ subresourceUniqueRedirectsFrom e' \/ d ∈ topFrameUniqueRedirectsFrom e' -> justified s d' -> justified s d.

(** A very prevalent domain is prevalent. *)
Definition consistent (m : StatisticsMap) : Prop := forall d e, m !! d = Some e -> isVeryPrevalent e = true -> isPrevalent e = true.

Section classification.
Context `{Platform} `{!PlatformLaws}.

Lemma isPrevalentIn_lookup m d e : m !! d = Some e -> isPrevalentIn m d = isPrevalent e.
Proof. unfold isPrevalentIn. by intros ->. Qed.

Lemma isPrevalentIn_marked m d e p d' : m !! d = Some e ->
  isPrevalentIn (<[d := markedAs p e]> m) d' = true <-> d' = d \/ isPrevalentIn m d' = true.
Proof.
  intros He. unfold isPrevalentIn. destruct (decide (d' = d)) as [->|]; [rewrite lookup_insert_eq; naive_solver|].
  rewrite lookup_insert_ne by done. naive_solver.
Qed.

Lemma shape_marked_map m d e p l : m !! d = Some e ->
  shape <$> foldl markPrevalent (<[d := markedAs p e]> m) l = shape <$> m.
Proof.
  intros He. apply map_eq. intros d'. rewrite !lookup_fmap, markPrevalent_lookup.
  destruct (decide (d' = d)) as [->|]; [rewrite lookup_insert_eq, He|rewrite lookup_insert_ne by done];
    [|destruct (m !! d')]; cbn; try case_decide; done.
Qed.

(** Setting the prevalence of a domain promotes it and spares the rest. *)
Lemma setPrevalence_promotes s d p : keyed (m_resourceStatisticsMap s) -> promotes s (setPrevalence s d p).
Proof.
  intros Hk. destruct (m_resourceStatisticsMap s !! d) as [e|] eqn:He; [|unfold setPrevalence; by rewrite He].
  destruct (shouldSkip s d) eqn:Hskip; [unfold setPrevalence; by rewrite He, (Hk _ _ He), Hskip|].
  destruct (setPrevalence_spreads s d e p Hk He Hskip) as (_ & Hmono & _).
  destruct (setPrevalence_eq s d e p Hk He Hskip) as (found & calls & _ & Heq). split.
  - by rewrite Heq.
  - rewrite Heq. cbn. by apply shape_marked_map.
  - intros d' Hd'. apply Hmono, isPrevalentIn_marked; auto.
Qed.

Lemma setPrevalence_marks s d e p :
  keyed (m_resourceStatisticsMap s) -> m_resourceStatisticsMap s !! d = Some e -> shouldSkip s d = false ->
  isPrevalentIn (m_resourceStatisticsMap (setPrevalence s d p)) d = true.
Proof.
  intros Hk He Hskip. destruct (setPrevalence_spreads s d e p Hk He Hskip) as (_ & Hmono & _). apply Hmono, isPrevalentIn_marked; auto.
Qed.

(** All that is prevalent in [s] is justified by [s0]. *)
Definition all_justified (s0 s : Store) : Prop := forall d, isPrevalentIn (m_resourceStatisticsMap s) d = true -> justified s0 d.

Lemma leads_to_justified s0 s d e p d' :
  promotes s0 s -> m_resourceStatisticsMap s !! d = Some e -> justified s0 d ->
  leads_to (<[d := markedAs p e]> (m_resourceStatisticsMap s)) (markedAs p e) d' -> justified s0 d'.
Proof.
  intros Hpr He Hd. destruct (promotes_lookup _ _ _ _ Hpr He) as (e0 & He0 & Hsh).
  assert (Hsh' : shape (markedAs p e) = shape e0) by done. destruct (shape_redirects _ _ Hsh') as (_ & _ & Hf & Hf').
  induction 1 as [d' [Hin _]|d' d'' e'' _ IH He'' [Hin _]].
  - rewrite Hf, Hf' in Hin. by eapply justified_redirected_from.
  - apply lookup_insert_Some in He'' as [[<- <-]|[_ He'']]; [rewrite Hf, Hf' in Hin; by eapply justified_redirected_from|].
    destruct (promotes_lookup _ _ _ _ Hpr He'') as (e0' & He0' & Hsh''). destruct (shape_redirects _ _ Hsh'') as (_ & _ & Hg & Hg').
    rewrite Hg, Hg' in Hin. by eapply justified_redirected_from.
Qed.

Lemma setPrevalence_justified s0 s d p :
  keyed (m_resourceStatisticsMap s) -> promotes s0 s -> all_justified s0 s -> justified s0 d -> all_justified s0 (setPrevalence s d p).
Proof.
  intros Hk Hpr Hall Hd. destruct (m_resourceStatisticsMap s !! d) as [e|] eqn:He; [|unfold setPrevalence; by rewrite He].
  destruct (shouldSkip s d) eqn:Hskip; [unfold setPrevalence; by rewrite He, (Hk _ _ He), Hskip|].
  destruct (setPrevalence_spreads s d e p Hk He Hskip) as (Honly & _ & _). intros d' [Hd'|Hd']%Honly.
  - apply (isPrevalentIn_marked _ _ e) in Hd' as [->|]; auto.
  - by eapply leads_to_justified.
Qed.

(** *** One entry *)

Lemma mark_redirector_cases s d e :
  m_resourceStatisticsMap s !! d = Some e ->
  markAsPrevalentIfHasRedirectedToPrevalent s d = s /\
    (isPrevalent e = true \/ forall d', d' ∈ subresourceUniqueRedirectsTo e \/ d' ∈ topFrameUniqueRedirectsTo e -> isPrevalentIn (m_resourceStatisticsMap s) d' = false) \/
  markAsPrevalentIfHasRedirectedToPrevalent s d = setPrevalence s d High /\
    exists d', (d' ∈ subresourceUniqueRedirectsTo e \/ d' ∈ topFrameUniqueRedirectsTo e) /\ isPrevalentIn (m_resourceStatisticsMap s) d' = true.
Proof.
  intros He. unfold markAsPrevalentIfHasRedirectedToPrevalent. rewrite He. destruct (isPrevalent e); [by left; auto|].
  assert (Hex : forall D : DomainSet, existsb (isPrevalentIn (m_resourceStatisticsMap s)) (setOrder D) = true <->
                          exists d', d' ∈ D /\ isPrevalentIn (m_resourceStatisticsMap s) d' = true).
  { intros D. rewrite existsb_exists. setoid_rewrite <- list_elem_of_In. setoid_rewrite setOrder_elements. by setoid_rewrite elem_of_elements. }
  destruct (existsb _ (setOrder (subresourceUniqueRedirectsTo e))) eqn:E1; [right; split; [done|]; apply Hex in E1; naive_solver|].
  destruct (existsb _ (setOrder (topFrameUniqueRedirectsTo e))) eqn:E2; [right; split; [done|]; apply Hex in E2; naive_solver|].
  left. split; [done|right]. intros d' Hd'. apply not_true_iff_false. intros Hp.
  apply not_true_iff_false in E1, E2. destruct Hd'; [apply E1|apply E2]; apply Hex; eauto.
Qed.

Lemma setPrevalence_consistent s d p :
  keyed (m_resourceStatisticsMap s) -> consistent (m_resourceStatisticsMap s) -> consistent (m_resourceStatisticsMap (setPrevalence s d p)).
Proof.
  intros Hk Hc. destruct (m_resourceStatisticsMap s !! d) as [e|] eqn:He; [|unfold setPrevalence; by rewrite He].
  destruct (shouldSkip s d) eqn:Hskip; [unfold setPrevalence; by rewrite He, (Hk _ _ He), Hskip|].
  destruct (setPrevalence_eq s d e p Hk He Hskip) as (found & calls & _ & Heq). rewrite Heq. cbn.
  intros d' e'. rewrite markPrevalent_lookup. destruct (decide (d' = d)) as [->|].
  - rewrite lookup_insert_eq. cbn. intros [= <-]. by case_decide.
  - rewrite lookup_insert_ne by done. destruct (m_resourceStatisticsMap s !! d') as [e''|] eqn:He''; [|done]. cbn. intros [= <-].
    case_decide; [done|]. by eapply Hc.
Qed.

(** The state of a classification of [s0] under way. *)
Record classifying (checked : bool) (s0 s : Store) : Prop := {
  classifying_keyed : keyed (m_resourceStatisticsMap s);
  classifying_consistent : checked = true -> consistent (m_resourceStatisticsMap s);
  classifying_promotes : promotes s0 s;
  classifying_justified : all_justified s0 s
}.

Lemma classifying_setPrevalence checked s0 s d p : classifying checked s0 s -> justified s0 d -> classifying checked s0 (setPrevalence s d p).
Proof.
  intros [Hk Hc Hpr Hj] Hd. pose proof (setPrevalence_promotes s d p Hk) as Hpr'. split.
  - eapply keyed_shape; [apply Hpr'|done].
  - intros Hch. apply setPrevalence_consistent; auto.
  - by transitivity s.
  - by apply setPrevalence_justified.
Qed.

Lemma classifying_mark_redirector checked s0 s d : classifying checked s0 s -> classifying checked s0 (markAsPrevalentIfHasRedirectedToPrevalent s d).
Proof.
  intros Hs. destruct (m_resourceStatisticsMap s !! d) as [e|] eqn:He.
  2:{ unfold markAsPrevalentIfHasRedirectedToPrevalent. by rewrite He. }
  destruct (mark_redirector_cases s d e He) as [[-> _]|[-> (d' & Hin & Hp)]]; [done|]. apply classifying_setPrevalence; [done|].
  destruct Hs as [_ _ Hpr Hj]. destruct (promotes_lookup _ _ _ _ Hpr He) as (e0 & He0 & Hsh).
  destruct (shape_redirects _ _ Hsh) as (Ht & Ht' & _). rewrite Ht, Ht' in Hin. eapply justified_redirects_to; [done..|]. by apply Hj.
Qed.

Lemma classifying_step checked s0 s d : classifying checked s0 s -> classifying checked s0 (classifyResource s d).
Proof.
  intros Hs. unfold classifyResource. destruct (m_resourceStatisticsMap s !! d) as [e|] eqn:He; [|done].
  destruct (shouldSkip s (registrableDomain e)); [done|].
  destruct (promotes_lookup _ _ _ _ (classifying_promotes _ _ _ Hs) He) as (e0 & He0 & Hsh).
  destruct (isPrevalentDueToDebugMode s e) eqn:Hdebug.
  { apply classifying_setPrevalence; [done|]. eapply justified_by_debug_mode; [done|].
    by rewrite <- (shape_debug _ _ _ Hsh), <- (proj2 (promotes_config _ _ (classifying_promotes _ _ _ Hs))). }
  destruct (isVeryPrevalent e); [done|]. pose proof (classifying_mark_redirector checked s0 s d Hs) as Hs'.
  set (s' := markAsPrevalentIfHasRedirectedToPrevalent s d) in *. destruct (m_resourceStatisticsMap s' !! d) as [e'|] eqn:He'; [|done].
  case_bool_decide as Hsame; [done|]. apply classifying_setPrevalence; [done|].
  destruct (isPrevalent e') eqn:Hp; [apply (classifying_justified _ _ _ Hs'); by rewrite (isPrevalentIn_lookup _ _ e')|].
  destruct (promotes_lookup _ _ _ _ (classifying_promotes _ _ _ Hs') He') as (e0' & He0' & Hsh').
  rewrite (shape_prevalence _ _ _ Hsh') in Hsame. by eapply justified_by_classifier.
Qed.

(** What makes the classification of [s0] mark the domain [d], whose entry is [e0]. *)
Definition to_be_marked (s0 : Store) (e0 : Statistics) : Prop :=
  isPrevalentDueToDebugMode s0 e0 = true \/ calculateResourcePrevalence e0 Low <> Low \/
  exists d', (d' ∈ subresourceUniqueRedirectsTo e0 \/ d' ∈ topFrameUniqueRedirectsTo e0) /\ isPrevalentIn (m_resourceStatisticsMap s0) d' = true.

Lemma classifyResource_marks s0 s d e0 :
  classifying true s0 s -> m_resourceStatisticsMap s0 !! d = Some e0 -> shouldSkip s0 d = false -> to_be_marked s0 e0 ->
  isPrevalentIn (m_resourceStatisticsMap (classifyResource s d)) d = true.
Proof.
  intros Hs He0 Hskip Hmark. pose proof Hs as [Hk Hc Hpr _]. destruct (promotes_config _ _ Hpr) as [Hcs Hcd].
  destruct (m_resourceStatisticsMap s !! d) as [e|] eqn:He.
  2:{ pose proof (f_equal (lookup d) (promotes_shape _ _ Hpr)) as Hx. rewrite !lookup_fmap, He, He0 in Hx. done. }
  destruct (promotes_lookup _ _ _ _ Hpr He) as (e0' & He0' & Hsh).
  rewrite He0 in He0'. apply (inj Some) in He0' as <-.
  unfold classifyResource. rewrite He, (Hk _ _ He), Hcs, Hskip, Hcd, (shape_debug _ _ _ Hsh).
  destruct (isPrevalentDueToDebugMode s0 e0) eqn:Hdebug; [eapply setPrevalence_marks; [done..|by rewrite Hcs]|].
  destruct Hmark as [Hmark|Hmark]; [congruence|].
  destruct (isVeryPrevalent e) eqn:Hv; [rewrite (isPrevalentIn_lookup _ _ e) by done; by eapply Hc|].
  pose proof (classifying_mark_redirector true s0 s d Hs) as Hs'. pose proof (mark_redirector_cases s d e He) as Hcases.
  set (s' := markAsPrevalentIfHasRedirectedToPrevalent s d) in *. pose proof Hs' as [Hk' _ Hpr' _].
  destruct (m_resourceStatisticsMap s' !! d) as [e'|] eqn:He'.
  2:{ pose proof (f_equal (lookup d) (promotes_shape _ _ Hpr')) as Hx. rewrite !lookup_fmap, He', He0 in Hx. done. }
  destruct (promotes_lookup _ _ _ _ Hpr' He') as (e0'' & He0'' & Hsh').
  rewrite He0 in He0''. apply (inj Some) in He0'' as <-.
  assert (Hset : forall p, isPrevalentIn (m_resourceStatisticsMap (setPrevalence s' d p)) d = true).
  { intros p. eapply setPrevalence_marks; [done..|]. by rewrite (proj1 (promotes_config _ _ Hpr')). }
  destruct (isPrevalent e') eqn:Hp'; case_bool_decide as Hsame; try apply Hset; [by rewrite (isPrevalentIn_lookup _ _ e')|].
  rewrite (shape_prevalence _ _ _ Hsh') in Hsame. destruct Hmark as [Hmark|(d' & Hin & Hd')]; [done|exfalso].
  destruct Hcases as [[Heq [Hpe|Hnone]]|[Heq _]].
  - rewrite Heq in He'. congruence.
  - destruct (shape_redirects _ _ Hsh) as (Ht & Ht' & _). rewrite Ht, Ht' in Hnone. apply (promotes_mono _ _ Hpr) in Hd'. rewrite Hnone in Hd'; done.
  - assert (isPrevalentIn (m_resourceStatisticsMap s') d = true) as Hx; [|rewrite (isPrevalentIn_lookup _ _ e') in Hx; congruence].
    rewrite Heq. eapply setPrevalence_marks; [done..|by rewrite Hcs].
Qed.

Lemma classifying_fold checked s0 s l : classifying checked s0 s -> classifying checked s0 (foldl classifyResource s l).
Proof. revert s. induction l as [|d l IH]; intros s Hs; [done|]. apply IH. by apply classifying_step. Qed.

(** A prevalent domain stays so while other entries are classified. *)
Lemma classify_promotes s l : keyed (m_resourceStatisticsMap s) -> promotes s (foldl classifyResource s l).
Proof.
  intros Hk. apply (classifying_fold false s s l). split; [done..|]. intros d Hd. by apply justified_before.
Qed.

Lemma classifies_all s0 s l d e0 :
  classifying true s0 s -> d ∈ l -> m_resourceStatisticsMap s0 !! d = Some e0 -> shouldSkip s0 d = false -> to_be_marked s0 e0 ->
  isPrevalentIn (m_resourceStatisticsMap (foldl classifyResource s l)) d = true.
Proof.
  revert s. induction l as [|x l IH]; intros s Hs Hd He0 Hskip Hmark; [set_solver|]. cbn [foldl].
  pose proof (classifying_step true s0 s x Hs) as Hs'. apply elem_of_cons in Hd as [->|Hd]; [|by apply IH].
  destruct Hs' as [Hk' _ _ _]. apply (classify_promotes _ l Hk'). by eapply classifyResource_marks.
Qed.
End classification.

(** ** The lists of updateCookieBlocking *)

Section blocking.
Context `{DateMath} `{Platform} `{!PlatformLaws}.

(** Whether the user has interacted with the domain within the long window. *)
Definition interacted (now : WallTime) (s : Store) (e : Statistics) : bool := fst (hasHadUnexpiredRecentUserInteraction now s e Long).

Lemma unexpired_keeps now s e window :
  let e' := snd (hasHadUnexpiredRecentUserInteraction now s e window) in
  registrableDomain e' = registrableDomain e /\ isPrevalent e' = isPrevalent e /\ isVeryPrevalent e' = isVeryPrevalent e.
Proof. unfold hasHadUnexpiredRecentUserInteraction. destruct (_ && _); [|done]. by case_bool_decide. Qed.

(** Looking at an entry again gives the same answer. *)
Lemma interacted_again now s e : interacted now s (snd (hasHadUnexpiredRecentUserInteraction now s e Long)) = interacted now s e.
Proof.
  unfold interacted, hasHadUnexpiredRecentUserInteraction. rewrite bool_decide_true by done.
  destruct (hadUserInteraction e) eqn:Hi; cbn [andb fst snd]; [|by rewrite Hi].
  destruct (hasStatisticsExpired now s e Long) eqn:Hx; cbn [andb fst snd]; [done|]. by rewrite Hi, Hx.
Qed.

(** The entries of [s'] answer as those of [s] do. *)
Definition answers_alike (now : WallTime) (s s' : Store) : Prop :=
  s' = s <| m_resourceStatisticsMap := m_resourceStatisticsMap s' |> /\
  forall d, (fun e => (registrableDomain e, isPrevalent e, interacted now s e)) <$> m_resourceStatisticsMap s' !! d =
            (fun e => (registrableDomain e, isPrevalent e, interacted now s e)) <$> m_resourceStatisticsMap s !! d.

(** The lists hold the right domains among those of [seen]. *)
Record collected (now : WallTime) (s : Store) (seen : list RegistrableDomain) (lists : DomainsToBlockCookiesFor) : Prop := {
  collected_delete d : d ∈ domainsToBlockAndDeleteCookiesFor lists <->
    d ∈ seen /\ exists e, m_resourceStatisticsMap s !! d = Some e /\ isPrevalent e = true /\ interacted now s e = false;
  collected_keep d : d ∈ domainsToBlockButKeepCookiesFor lists <->
    d ∈ seen /\ exists e, m_resourceStatisticsMap s !! d = Some e /\ isPrevalent e = true /\ interacted now s e = true;
  collected_interacted d : d ∈ domainsWithUserInteractionAsFirstParty lists <->
    d ∈ seen /\ exists e, m_resourceStatisticsMap s !! d = Some e /\ interacted now s e = true
}.

Lemma answers_alike_interacted now s s' e : answers_alike now s s' -> hasHadUnexpiredRecentUserInteraction now s' e = hasHadUnexpiredRecentUserInteraction now s e.
Proof. intros [-> _]. done. Qed.

(** A list of the seen domains whose entries satisfy [P], extended with one more domain. *)
Lemma extend_list (P : RegistrableDomain -> Statistics -> Prop) (m : StatisticsMap) seen (l : list RegistrableDomain) d0 e0 (b : bool) :
  (forall d, d ∈ l <-> d ∈ seen /\ exists e, m !! d = Some e /\ P d e) -> m !! d0 = Some e0 -> (b = true <-> P d0 e0) ->
  forall d, d ∈ (if b then l ++ [d0] else l) <-> d ∈ seen ++ [d0] /\ exists e, m !! d = Some e /\ P d e.
Proof.
  intros Hl He0 Hb d. rewrite elem_of_app, list_elem_of_singleton. destruct b.
  - rewrite elem_of_app, list_elem_of_singleton, Hl. split; [|tauto]. intros [[Hs He]| ->]; [auto|]. split; [auto|]. exists e0. split; [done|]. by apply Hb.
  - rewrite Hl. split; [tauto|]. intros [[Hs| ->] (e & He & HP)]; [eauto|]. rewrite He0 in He. apply (inj Some) in He as <-.
    apply Hb in HP. done.
Qed.

Lemma collect_step now s s' seen lists d :
  keyed (m_resourceStatisticsMap s) -> answers_alike now s s' -> collected now s seen lists -> d ∉ seen ->
  let '(lists', s'') := collectBlocking now (lists, s') d in answers_alike now s s'' /\ collected now s (seen ++ [d]) lists'.
Proof.
  intros Hk Ha [Hdel Hkeep Hint] Hnew. pose proof Ha as [Hs' Hsame]. unfold collectBlocking.
  pose proof (Hsame d) as Hd. destruct (m_resourceStatisticsMap s' !! d) as [e'|] eqn:He'.
  2:{ destruct (m_resourceStatisticsMap s !! d) as [e|] eqn:He; [done|]. split; [done|].
      split; intros x; rewrite ?Hdel, ?Hkeep, ?Hint, elem_of_app, list_elem_of_singleton; naive_solver. }
  destruct (m_resourceStatisticsMap s !! d) as [e|] eqn:He; [|done]. cbn in Hd. apply (inj Some) in Hd.
  pose proof (f_equal (fun x => fst (fst x)) Hd) as Hdom. pose proof (f_equal (fun x => snd (fst x)) Hd) as Hprev. pose proof (f_equal snd Hd) as Hinter.
  cbn in Hdom, Hprev, Hinter. clear Hd. rewrite (answers_alike_interacted _ _ _ _ Ha).
  pose proof (unexpired_keeps now s e' Long) as (Hdom' & Hprev' & _). pose proof (interacted_again now s e') as Hagain.
  unfold interacted in Hinter, Hagain at 2. destruct (hasHadUnexpiredRecentUserInteraction now s e' Long) as [b e''] eqn:Hb. cbn [fst snd] in *.
  assert (Hal : answers_alike now s (onMap <[d := e'']> s')).
  { split; [rewrite Hs'; done|]. intros x. cbn. destruct (decide (x = d)) as [->|]; [|by rewrite lookup_insert_ne].
    rewrite lookup_insert_eq, He. cbn. f_equal. unfold interacted. rewrite <- Hinter. f_equal; [congruence|done]. }
  assert (Hreg : registrableDomain e'' = d). { rewrite Hdom', Hdom. by apply Hk. }
  rewrite Hprev', Hprev, Hreg. fold (interacted now s e) in Hinter.
  destruct b; [|destruct (isPrevalent e) eqn:Hp]; (split; [exact Hal|]); split; cbn [domainsToBlockAndDeleteCookiesFor domainsToBlockButKeepCookiesFor domainsWithUserInteractionAsFirstParty].
  - apply (extend_list (fun _ e => isPrevalent e = true /\ interacted now s e = false) _ seen _ d e false Hdel He). split; [done|]. intros [_ Hf]. congruence.
  - apply (extend_list (fun _ e => isPrevalent e = true /\ interacted now s e = true) _ seen _ d e (isPrevalent e) Hkeep He). split; [auto|by intros [? _]].
  - by apply (extend_list (fun _ e => interacted now s e = true) _ seen _ d e true Hint He).
  - apply (extend_list (fun _ e => isPrevalent e = true /\ interacted now s e = false) _ seen _ d e true Hdel He). split; auto.
  - apply (extend_list (fun _ e => isPrevalent e = true /\ interacted now s e = true) _ seen _ d e false Hkeep He). split; [done|]. intros [_ Hf]. congruence.
  - apply (extend_list (fun _ e => interacted now s e = true) _ seen _ d e false Hint He). split; [done|]. congruence.
  - apply (extend_list (fun _ e => isPrevalent e = true /\ interacted now s e = false) _ seen _ d e false Hdel He). split; [done|]. intros [Hf _]. congruence.
  - apply (extend_list (fun _ e => isPrevalent e = true /\ interacted now s e = true) _ seen _ d e false Hkeep He). split; [done|]. intros [_ Hf]. congruence.
  - apply (extend_list (fun _ e => interacted now s e = true) _ seen _ d e false Hint He). split; [done|]. congruence.
Qed.

Lemma collect_all now s s' seen lists l :
  keyed (m_resourceStatisticsMap s) -> answers_alike now s s' -> collected now s seen lists -> NoDup (seen ++ l) ->
  let '(lists', s'') := foldl (collectBlocking now) (lists, s') l in answers_alike now s s'' /\ collected now s (seen ++ l) lists'.
Proof.
  intros Hk. revert s' seen lists. induction l as [|d l IH]; intros s' seen lists Ha Hc Hn; cbn [foldl]; [by rewrite app_nil_r|].
  pose proof (collect_step now s s' seen lists d Hk Ha Hc) as Hstep. destruct (collectBlocking now (lists, s') d) as [lists1 s1].
  destruct Hstep as [Ha1 Hc1]; [apply NoDup_app in Hn as (_ & Hn & _); intros Hin; apply (Hn d Hin); set_solver|].
  specialize (IH s1 (seen ++ [d]) lists1 Ha1 Hc1). rewrite <- app_assoc in IH. by apply IH.
Qed.

(** The lists computed for the whole map. *)
Lemma updateCookieBlocking_lists now s :
  keyed (m_resourceStatisticsMap s) ->
  exists lists s', answers_alike now s s' /\ collected now s (mapOrder (m_resourceStatisticsMap s)) lists /\
    updateCookieBlocking now s =
      if nothingToBlock lists && negb (m_debugModeEnabled s) then s' else post (CallUpdatePrevalentDomainsToBlockCookiesForHandler lists) s'.
Proof.
  intros Hk. unfold updateCookieBlocking.
  pose proof (collect_all now s s [] (mkBlocking [] [] []) (mapOrder (m_resourceStatisticsMap s)) Hk) as Hall. cbn [app] in Hall.
  destruct (foldl _ _ _) as [lists s']. exists lists, s'. destruct Hall as [Ha Hc].
  - split; [by destruct s|done].
  - split; intros d; cbn; split; [set_solver|intros [? _]; set_solver|set_solver|intros [? _]; set_solver|set_solver|intros [? _]; set_solver].
  - rewrite mapOrder_keys. apply NoDup_fst_map_to_list.
  - split; [done|]. split; [done|]. destruct Ha as [-> _]. done.
Qed.
End blocking.

(** ** The invariant of the store *)

(** An entry is stored under its own domain and, if what enters the store is [checked], is
    prevalent if it is very prevalent. *)
Definition good_entry (checked : bool) (d : RegistrableDomain) (e : Statistics) : Prop :=
  registrableDomain e = d /\ (checked = true -> isVeryPrevalent e = true -> isPrevalent e = true).
Definition good_map (checked : bool) (m : StatisticsMap) : Prop := map_Forall (good_entry checked) m.

Lemma good_keyed {checked} m : good_map checked m -> keyed m.
Proof. intros Hm d e He. apply (Hm d e He). Qed.
Lemma good_consistent {checked} m : good_map checked m -> checked = true -> consistent m.
Proof. intros Hm Hch d e He. by apply (Hm d e He). Qed.
Lemma good_intro {checked} m : keyed m -> (checked = true -> consistent m) -> good_map checked m.
Proof. intros Hk Hc d e He. split; [by apply Hk|]. intros Hch. by apply (Hc Hch d e). Qed.

Lemma good_ensure {checked} d m : good_map checked m -> good_map checked (ensureResourceStatisticsForRegistrableDomain d m).
Proof.
  intros Hm. unfold ensureResourceStatisticsForRegistrableDomain. destruct (m !! d); [done|]. apply map_Forall_insert_2; [|done]. by split.
Qed.
Lemma good_alter {checked} f d m : (forall d e, good_entry checked d e -> good_entry checked d (f e)) -> good_map checked m -> good_map checked (alter f d m).
Proof.
  intros Hf Hm x e He. destruct (decide (d = x)) as [->|]; [|rewrite lookup_alter_ne in He by done; by apply Hm].
  rewrite lookup_alter_eq in He. destruct (m !! x) as [e0|] eqn:He0; [|done]. apply (inj Some) in He as <-. by apply Hf, Hm.
Qed.
Lemma good_ensureAndUpdate {checked} f d m : (forall d e, good_entry checked d e -> good_entry checked d (f e)) -> good_map checked m -> good_map checked (ensureAndUpdate f d m).
Proof. intros Hf Hm. apply good_alter; [done|]. by apply good_ensure. Qed.
Lemma good_empty {checked} : good_map checked ∅.
Proof. apply map_Forall_empty. Qed.

Create HintDb itp.
#[export] Hint Resolve good_ensure good_ensureAndUpdate good_alter good_empty : itp.
#[export] Hint Extern 1 (forall d e, good_entry _ d e -> good_entry _ d _) => (intros ? ? [? ?]; split; done) : itp.

(** Loops of updates. *)
Lemma foldl_invariant {A B} (I : A -> Prop) (f : A -> B -> A) l a : (forall a b, I a -> I (f a b)) -> I a -> I (foldl f a l).
Proof. intros Hf. revert a. induction l as [|b l IH]; simpl; auto. Qed.

(** The map's entries are good, the operating dates in order and at most thirty. *)
Record store_ok `{DateMath} (checked : bool) (s : Store) : Prop := {
  store_map : good_map checked (m_resourceStatisticsMap s);
  store_dates : checked = true -> ascending (m_operatingDates s) /\ (length (m_operatingDates s) <= 30)%nat
}.
Arguments store_map {_ checked} _ _.

Section invariant.
Context `{DateMath} `{!DateMathLaws} `{Platform} `{!PlatformLaws} {checked : bool}.

Lemma store_ok_map s m : store_ok checked s -> good_map checked m -> store_ok checked (s <| m_resourceStatisticsMap := m |>).
Proof. intros [_ Hd] Hm. by split. Qed.
Lemma store_ok_onMap f s : store_ok checked s -> (good_map checked (m_resourceStatisticsMap s) -> good_map checked (f (m_resourceStatisticsMap s))) -> store_ok checked (onMap f s).
Proof. intros Hs Hf. apply store_ok_map; [done|]. apply Hf, Hs. Qed.
Lemma store_ok_post task s : store_ok checked s -> store_ok checked (post task s).
Proof. intros [Hm Hd]. by split. Qed.

Lemma store_ok_setPrevalence s d p : store_ok checked s -> store_ok checked (setPrevalence s d p).
Proof.
  intros Hs. pose proof (store_map _ Hs) as Hm. pose proof (setPrevalence_promotes s d p (good_keyed _ Hm)) as [Hrest Hshape _].
  rewrite Hrest. apply store_ok_map; [done|]. apply good_intro; [eapply keyed_shape; [done|by eapply good_keyed]|].
  intros Hch. apply setPrevalence_consistent; [by eapply good_keyed|by apply (good_consistent (checked := checked))].
Qed.

Lemma good_unexpired now s e window d : good_entry checked d e -> good_entry checked d (snd (hasHadUnexpiredRecentUserInteraction now s e window)).
Proof. intros [Hd Hv]. destruct (unexpired_keeps now s e window) as (E1 & E2 & E3). split; [by rewrite E1|by rewrite E2, E3]. Qed.

Lemma store_ok_hasHadUserInteraction now d w s : store_ok checked s -> store_ok checked (snd (hasHadUserInteraction now d w s)).
Proof.
  intros Hs. unfold hasHadUserInteraction. destruct (m_resourceStatisticsMap s !! d) as [e|] eqn:He; [|done].
  pose proof (good_unexpired now s e w d (store_map _ Hs d e He)). destruct (hasHadUnexpiredRecentUserInteraction _ _ _ _) as [b e'].
  apply store_ok_onMap; [done|]. intros. by apply map_Forall_insert_2.
Qed.

Lemma good_collect now lists s d : good_map checked (m_resourceStatisticsMap s) -> good_map checked (m_resourceStatisticsMap (snd (collectBlocking now (lists, s) d))).
Proof.
  intros Hm. unfold collectBlocking. destruct (m_resourceStatisticsMap s !! d) as [e|] eqn:He; [|done].
  pose proof (good_unexpired now s e Long d (Hm d e He)). destruct (hasHadUnexpiredRecentUserInteraction _ _ _ _) as [b e'].
  assert (good_map checked (m_resourceStatisticsMap (onMap <[d := e']> s))) by (by apply map_Forall_insert_2).
  destruct b; [done|]. by destruct (isPrevalent e').
Qed.

Lemma good_updateCookieBlocking now s : good_map checked (m_resourceStatisticsMap s) -> good_map checked (m_resourceStatisticsMap (updateCookieBlocking now s)).
Proof.
  intros Hs. unfold updateCookieBlocking.
  assert (Hf : good_map checked (m_resourceStatisticsMap (snd (foldl (collectBlocking now) (mkBlocking [] [] [], s) (mapOrder (m_resourceStatisticsMap s)))))).
  { apply (foldl_invariant (fun st => good_map checked (m_resourceStatisticsMap (snd st)))); [|done]. intros [lists s'] d. apply good_collect. }
  destruct (foldl _ _ _) as [lists s']. by destruct (_ && _).
Qed.

Lemma store_ok_updateCookieBlocking now s : store_ok checked s -> store_ok checked (updateCookieBlocking now s).
Proof.
  intros Hs. pose proof (good_updateCookieBlocking now s (store_map _ Hs)) as Hm.
  destruct (updateCookieBlocking_lists now s (good_keyed _ (store_map _ Hs))) as (lists & s' & [Hrest _] & _ & Heq).
  rewrite Heq in Hm |- *. destruct Hs as [_ Ha]. split; [exact Hm|destruct (_ && _); rewrite Hrest; exact Ha].
Qed.

Lemma store_ok_blockedUnder now d s : store_ok checked s -> store_ok checked (snd (areAllThirdPartyCookiesBlockedUnder now d s)).
Proof.
  intros Hs. unfold areAllThirdPartyCookiesBlockedUnder. pose proof (store_ok_hasHadUserInteraction now d Long s Hs).
  destruct (hasHadUserInteraction _ _ _ _). by destruct (m_thirdPartyCookieBlockingMode s).
Qed.
Lemma store_ok_cookieAccess now e d s : store_ok checked s -> store_ok checked (snd (cookieAccess now e d s)).
Proof.
  intros Hs. unfold cookieAccess. pose proof (store_ok_blockedUnder now d s Hs). destruct (areAllThirdPartyCookiesBlockedUnder _ _ _).
  destruct (_ && _); [done|]. by destruct (negb _).
Qed.
Lemma store_ok_grantInternal now sub top prompt perPage s : store_ok checked s -> store_ok checked (snd (grantStorageAccessInternal now sub top prompt perPage s)).
Proof.
  intros Hs. unfold grantStorageAccessInternal. case_bool_decide; [done|]. apply store_ok_post. destruct prompt; [|done].
  apply store_ok_onMap; auto with itp.
Qed.

Lemma good_addTo field write entry d state :
  (forall v d e, good_entry checked d e -> good_entry checked d (write v e)) -> good_map checked (snd state) -> good_map checked (snd (addTo field write entry d state)).
Proof. intros Hw. destruct state as [b m]. cbn. intros Hm. apply good_alter; auto with itp. Qed.

Lemma store_ok_logFrameNavigation now target top source redirect mainFrame delay user s :
  store_ok checked s -> store_ok checked (logFrameNavigation now target top source redirect mainFrame delay user s).
Proof.
  intros Hs. unfold logFrameNavigation.
  match goal with |- store_ok _ (if fst ?st then scheduleStatisticsProcessingRequestIfNecessary _ else _) => assert (good_map checked (snd st)) as Hm; [|set st in *] end.
  { pose proof (store_map _ Hs).
    destruct mainFrame, redirect, (bool_decide (target = top)), (bool_decide (target = source)), user; cbn [negb andb orb];
      try destruct (delay <? _); cbn [negb andb orb];
      repeat (apply good_addTo; [intros ? ? ? [? ?]; split; done|]); cbn [snd]; auto with itp. }
  assert (store_ok checked (s <| m_resourceStatisticsMap := snd p |>)) as Hp by by apply store_ok_map.
  destruct (fst p); [|done]. destruct Hp as [Ha Hb]. by split.
Qed.

Lemma store_ok_ensureDebug s : store_ok checked s -> store_ok checked (snd (ensurePrevalentResourcesForDebugMode s)).
Proof.
  intros Hs. unfold ensurePrevalentResourcesForDebugMode. destruct (negb _); [done|].
  set (s1 := setPrevalence _ _ _). assert (store_ok checked s1) by (apply store_ok_setPrevalence, store_ok_onMap; auto with itp).
  case_bool_decide; [done|]. apply store_ok_setPrevalence, store_ok_onMap; auto with itp.
Qed.
End invariant.

(** ** The operations of the store *)

Section operations.
Context `{DateMath} `{!DateMathLaws} `{Platform} `{!PlatformLaws} (checked : bool).

(** The statistics that are merged come from a file or a web process, the dates from the file,
    and are used as they are.  [checked]: they are as a store itself would write them, and
    expired statistics are not inserted for tests. *)
Inductive step (s : Store) : Store -> Prop :=
| step_setPrevalentResource d : step s (setPrevalentResource d s)
| step_setVeryPrevalentResource d : step s (setVeryPrevalentResource d s)
| step_clearPrevalentResource d : step s (clearPrevalentResource d s)
| step_classifyPrevalentResources : step s (classifyPrevalentResources s)
| step_updateCookieBlocking now : step s (updateCookieBlocking now s)
| step_logUserInteraction now d : step s (logUserInteraction now d s)
| step_clearUserInteraction now d : step s (clearUserInteraction now d s)
| step_hasHadUserInteraction now d w : step s (snd (hasHadUserInteraction now d w s))
| step_hasStorageAccess now sub top : step s (snd (hasStorageAccess now sub top s))
| step_requestStorageAccess now sub top perPage : step s (snd (requestStorageAccess now sub top perPage s))
| step_requestStorageAccessUnderOpener now d opener : step s (requestStorageAccessUnderOpener now d opener s)
| step_grantStorageAccess now sub top prompt perPage : step s (snd (grantStorageAccess now sub top prompt perPage s))
| step_logFrameNavigation now target top source redirect mainFrame delay user :
    step s (logFrameNavigation now target top source redirect mainFrame delay user s)
| step_logCrossSiteLoadWithLinkDecoration from to s' : logCrossSiteLoadWithLinkDecoration from to s = Done s' -> step s s'
| step_setGrandfathered d value : step s (setGrandfathered d value s)
| step_grandfatherDataForDomains ds : step s (grandfatherDataForDomains ds s)
| step_incrementRecordsDeletedCountForDomains ds : step s (incrementRecordsDeletedCountForDomains ds s)
| step_setLastSeen d t : step s (setLastSeen d t s)
| step_setSubframeUnderTopFrameDomain sub top : step s (setSubframeUnderTopFrameDomain sub top s)
| step_setSubresourceUnderTopFrameDomain sub top : step s (setSubresourceUnderTopFrameDomain sub top s)
| step_setSubresourceUniqueRedirectTo d r : step s (setSubresourceUniqueRedirectTo d r s)
| step_setSubresourceUniqueRedirectFrom d r : step s (setSubresourceUniqueRedirectFrom d r s)
| step_setTopFrameUniqueRedirectTo d r : step s (setTopFrameUniqueRedirectTo d r s)
| step_setTopFrameUniqueRedirectFrom d r : step s (setTopFrameUniqueRedirectFrom d r s)
| step_mergeStatistics l : (checked = true -> Forall (fun e => isVeryPrevalent e = true -> isPrevalent e = true) l) -> step s (mergeStatistics l s)
| step_removeDataForDomain d : step s (removeDataForDomain d s)
| step_clear : step s (clear s)
| step_includeToday now : step s (includeTodayAsOperatingDateIfNecessary now s)
| step_mergeOperatingDates ds : (checked = true -> ascending ds /\ (length ds <= 30)%nat) -> step s (mergeOperatingDates ds s)
| step_insertExpired clock d days interaction scheduled prevalent :
    checked = false -> step s (insertExpiredStatisticForTesting clock d days interaction scheduled prevalent s)
| step_setDebugMode now enable : step s (setResourceLoadStatisticsDebugMode now enable s).

Lemma store_ok_relate write d r s : (forall d e, good_entry checked d e -> good_entry checked d (write e)) -> store_ok checked s -> store_ok checked (relate write d r s).
Proof. intros Hw Hs. apply store_ok_onMap; auto with itp. Qed.

Lemma store_ok_mergeStatistics l s : (checked = true -> Forall (fun e => isVeryPrevalent e = true -> isPrevalent e = true) l) ->
  store_ok checked s -> store_ok checked (mergeStatistics l s).
Proof.
  revert s. unfold mergeStatistics. induction l as [|e l IH]; intros s Hl Hs; cbn [foldl]; [done|].
  assert (He : checked = true -> isVeryPrevalent e = true -> isPrevalent e = true) by (intros Hch; by apply Forall_cons in Hl as [? _]).
  apply IH; [intros Hch; by apply Forall_cons in Hl as [_ ?]|].
  apply store_ok_onMap; [done|]. intros Hm. destruct (_ !! registrableDomain e) as [e0|] eqn:He0; apply map_Forall_insert_2; try done.
  destruct (Hm _ _ He0) as [Hd Hv]. split; [by rewrite mergeStatistic_domain|].
  rewrite mergeStatistic_prevalent, mergeStatistic_veryPrevalent, !orb_true_iff. naive_solver.
Qed.

Lemma store_ok_classify s : store_ok checked s -> store_ok checked (classifyPrevalentResources s).
Proof.
  intros Hs. pose proof (store_map _ Hs) as Hm. unfold classifyPrevalentResources.
  destruct (classifying_fold checked s s (mapOrder (m_resourceStatisticsMap s))) as [Hk Hc Hp _].
  { split; [by eapply good_keyed|by eapply good_consistent|done|]. intros d. apply justified_before. }
  rewrite (promotes_rest _ _ Hp). apply store_ok_map; [done|by apply good_intro].
Qed.

Lemma store_ok_requestStorageAccess now sub top perPage s : store_ok checked s -> store_ok checked (snd (requestStorageAccess now sub top perPage s)).
Proof.
  intros Hs. unfold requestStorageAccess. set (s1 := onMap _ s). assert (Hs1 : store_ok checked s1) by (apply store_ok_onMap; auto with itp).
  pose proof (store_ok_cookieAccess now (statisticsOf sub s1) top s1 Hs1) as Hs2.
  destruct (cookieAccess _ _ _ _) as [[] s2]; [done..|]. cbn [snd] in Hs2. destruct (negb _); [done|]. set (s3 := onMap _ s2).
  assert (Hs3 : store_ok checked s3) by (apply store_ok_onMap; auto with itp).
  pose proof (store_ok_grantInternal now sub top (hasUserGrantedStorageAccessThroughPrompt (statisticsOf sub s2) top) perPage s3 Hs3).
  by destruct (grantStorageAccessInternal _ _ _ _ _ _).
Qed.

Lemma store_ok_hasStorageAccess now sub top s : store_ok checked s -> store_ok checked (snd (hasStorageAccess now sub top s)).
Proof.
  intros Hs. unfold hasStorageAccess. set (s1 := onMap _ s). assert (Hs1 : store_ok checked s1) by (apply store_ok_onMap; auto with itp).
  pose proof (store_ok_cookieAccess now (statisticsOf sub s1) top s1 Hs1) as Hs2.
  destruct (cookieAccess _ _ _ _) as [[] s2]; cbn [snd] in *; auto using store_ok_post.
Qed.

Lemma store_ok_linkDecoration from to s s' : store_ok checked s -> logCrossSiteLoadWithLinkDecoration from to s = Done s' -> store_ok checked s'.
Proof.
  intros Hs. pose proof (store_map _ Hs). unfold logCrossSiteLoadWithLinkDecoration.
  destruct (isPrevalentIn _ _); [case_match; [done|]|]; intros [= <-]; apply store_ok_map; auto with itp.
Qed.

Lemma store_ok_removeData d s : store_ok checked s -> store_ok checked (removeDataForDomain d s).
Proof.
  intros Hs. apply store_ok_onMap; [done|]. intros Hm x e. rewrite lookup_fmap.
  destruct (delete d (m_resourceStatisticsMap s) !! x) as [e0|] eqn:He0; [|done]. intros [= <-].
  apply lookup_delete_Some in He0 as [_ He0]. destruct (Hm x e0 He0). by split.
Qed.

Lemma store_ok_dates s ds : store_ok checked s -> (checked = true -> ascending ds /\ (length ds <= 30)%nat) -> store_ok checked (s <| m_operatingDates := ds |>).
Proof. intros [Hm _] Ha. by split. Qed.

Lemma ascending_nil : ascending [].
Proof. split; constructor. Qed.

Lemma store_ok_clear s : store_ok checked s -> store_ok checked (clear s).
Proof.
  intros Hs. unfold clear. set (s1 := post _ _).
  assert (Hs1 : store_ok checked s1). { apply store_ok_post, store_ok_dates; [apply store_ok_map; auto with itp|]. intros _. split; [apply ascending_nil|simpl; lia]. }
  pose proof (store_ok_ensureDebug s1 Hs1). destruct (ensurePrevalentResourcesForDebugMode s1). by apply store_ok_post.
Qed.

Lemma store_ok_step s s' : store_ok checked s -> step s s' -> store_ok checked s'.
Proof.
  intros Hs. destruct 1;
    auto using store_ok_classify, store_ok_updateCookieBlocking, store_ok_hasHadUserInteraction, store_ok_hasStorageAccess,
      store_ok_requestStorageAccess, store_ok_logFrameNavigation, store_ok_mergeStatistics, store_ok_removeData, store_ok_clear.
  - unfold setPrevalentResource. destruct (shouldSkip s d); [done|]. apply store_ok_setPrevalence, store_ok_onMap; auto with itp.
  - unfold setVeryPrevalentResource. destruct (shouldSkip s d); [done|]. apply store_ok_setPrevalence, store_ok_onMap; auto with itp.
  - apply store_ok_onMap; auto with itp.
  - unfold logUserInteraction. set (s1 := onMap _ s). assert (store_ok checked s1) by (apply store_ok_onMap; auto with itp).
    case_match; [case_match|]; auto using store_ok_updateCookieBlocking.
  - unfold clearUserInteraction. set (s1 := onMap _ s). assert (store_ok checked s1) by (apply store_ok_onMap; auto with itp).
    case_match; [case_match|]; auto using store_ok_updateCookieBlocking.
  - unfold requestStorageAccessUnderOpener. case_bool_decide; auto using store_ok_grantInternal.
  - apply store_ok_grantInternal. destruct prompt; [|done]. apply store_ok_onMap; auto with itp.
  - by eapply store_ok_linkDecoration.
  - apply store_ok_onMap; auto with itp.
  - unfold grandfatherDataForDomains. apply foldl_invariant; [|done]. intros s1 d Hs1. apply store_ok_onMap; auto with itp.
  - unfold incrementRecordsDeletedCountForDomains. apply foldl_invariant; [|done]. intros s1 d Hs1. apply store_ok_onMap; auto with itp.
  - apply store_ok_onMap; auto with itp.
  - apply store_ok_relate; auto with itp.
  - apply store_ok_relate; auto with itp.
  - apply store_ok_relate; auto with itp.
  - apply store_ok_relate; auto with itp.
  - apply store_ok_relate; auto with itp.
  - apply store_ok_relate; auto with itp.
  - apply store_ok_dates; [done|]. intros Hch. destruct Hs as [_ Hd]. destruct (Hd Hch) as [Ha Hl]. by apply memory_include_ascending.
  - apply store_ok_dates; [done|]. intros Hch. destruct Hs as [_ Hd]. destruct (Hd Hch) as [Ha Hl]. match goal with Hc : checked = true -> _ |- _ => destruct (Hc Hch) end. by apply merge_ascending.
  - unfold insertExpiredStatisticForTesting. apply store_ok_onMap; [apply store_ok_dates; [done|congruence]|]. cbn. intros Hm.
    destruct (m_resourceStatisticsMap s !! d); [done|]. apply map_Forall_insert_2; [|done]. split; [done|congruence].
  - unfold setResourceLoadStatisticsDebugMode. case_bool_decide; [done|]. set (s1 := snd _).
    assert (store_ok checked s1) by (apply store_ok_ensureDebug; destruct Hs; by split). destruct enable; auto using store_ok_updateCookieBlocking.
Qed.

Lemma store_ok_created now includeLocalhost : store_ok checked (createStore now includeLocalhost).
Proof.
  eapply store_ok_step; [|apply (step_includeToday _ now)].
  split; [apply good_empty|]. intros _. split; [apply ascending_nil|simpl; lia].
Qed.
End operations.

(** ** Requests for storage access *)

Section access.
Context `{DateMath} `{Platform}.

Lemma statisticsOf_ensure d s : statisticsOf d (onMap (ensureResourceStatisticsForRegistrableDomain d) s) = statisticsOf d s.
Proof.
  unfold statisticsOf, ensureResourceStatisticsForRegistrableDomain. cbn. destruct (m_resourceStatisticsMap s !! d) eqn:E; [by rewrite E|].
  by rewrite lookup_insert_eq.
Qed.

(** Looking at the first party neither depends on the third party's entry nor changes it. *)
Lemma blockedUnder_other now sub top s :
  sub <> top ->
  let s1 := onMap (ensureResourceStatisticsForRegistrableDomain sub) s in
  let '(blocked, s2) := areAllThirdPartyCookiesBlockedUnder now top s1 in
  blocked = fst (areAllThirdPartyCookiesBlockedUnder now top s) /\ mainThread s2 = mainThread s /\ statisticsOf sub s2 = statisticsOf sub s.
Proof.
  intros Hne s1. pose proof (statisticsOf_ensure sub s) as Hst. fold s1 in Hst. unfold areAllThirdPartyCookiesBlockedUnder.
  replace (m_thirdPartyCookieBlockingMode s1) with (m_thirdPartyCookieBlockingMode s) by done.
  destruct (m_thirdPartyCookieBlockingMode s); try done. unfold hasHadUserInteraction.
  assert (Htop : m_resourceStatisticsMap s1 !! top = m_resourceStatisticsMap s !! top).
  { unfold s1, ensureResourceStatisticsForRegistrableDomain. cbn. destruct (m_resourceStatisticsMap s !! sub); [done|]. by rewrite lookup_insert_ne. }
  rewrite Htop. destruct (m_resourceStatisticsMap s !! top) as [e|]; [|done].
  replace (hasHadUnexpiredRecentUserInteraction now s1 e Long) with (hasHadUnexpiredRecentUserInteraction now s e Long) by done.
  destruct (hasHadUnexpiredRecentUserInteraction now s e Long) as [b e']. split; [done|]. split; [done|].
  rewrite <- Hst. unfold statisticsOf. cbn. by rewrite lookup_insert_ne by done.
Qed.

Lemma cookieAccess_eq now sub top s :
  sub <> top ->
  let s1 := onMap (ensureResourceStatisticsForRegistrableDomain sub) s in
  let e := statisticsOf sub s in
  exists s2, cookieAccess now e top s1 =
    (if negb (fst (areAllThirdPartyCookiesBlockedUnder now top s)) && negb (isPrevalent e) then BasedOnCookiePolicy
     else if negb (hadUserInteraction e) then CannotRequest else OnlyIfGranted, s2) /\
    mainThread s2 = mainThread s /\ statisticsOf sub s2 = statisticsOf sub s.
Proof.
  intros Hne s1 e. pose proof (blockedUnder_other now sub top s Hne) as Hb. cbn zeta in Hb. unfold cookieAccess. fold s1 in Hb.
  destruct (areAllThirdPartyCookiesBlockedUnder now top s1) as [blocked s2]. destruct Hb as (-> & Hm & Hs). exists s2. split; [|done].
  destruct (_ && _); [done|]. by destruct (negb _).
Qed.
End access.

(** ** Properties *)

Section properties.
Context `{DateMath} `{!DateMathLaws} `{Platform} `{!PlatformLaws}.

(** C21: Whatever operations a memory store goes through, tests and files with any content
    included, every entry stays under its own domain.  If moreover the statistics and dates
    merged into it are as a store writes them (a very prevalent domain is prevalent, dates are
    increasing and at most thirty) and expired statistics are not inserted for tests, a very
    prevalent domain stays prevalent and the operating dates increasing and at most thirty. *)
Theorem memory_store_invariant checked now includeLocalhost s :
  rtc (step checked) (createStore now includeLocalhost) s ->
  keyed (m_resourceStatisticsMap s) /\
  (checked = true -> consistent (m_resourceStatisticsMap s) /\ ascending (m_operatingDates s) /\ (length (m_operatingDates s) <= 30)%nat).
Proof.
  intros Hr. assert (Hs : store_ok checked s).
  { eapply (rtc_invariant (step checked) (store_ok checked)); [apply store_ok_step|exact Hr|]. apply store_ok_created. }
  destruct Hs as [Hm Hd]. split; [by apply (good_keyed (checked := checked))|]. intros Hch.
  split; [by apply (good_consistent (checked := checked))|by apply Hd].
Qed.

(** Making a domain prevalent spreads to the domains that have redirected to it: only the
    domains that lead to it through redirects become prevalent with it, and all of them do when
    at most 48 domains are not prevalent (the trace back makes at most fifty calls); the
    domains that were prevalent still are. *)
Theorem prevalence_spreads_to_redirectors s domain :
  store_ok true s -> shouldSkip s domain = false ->
  let e := markedAs High (statisticsOf domain s) in
  let m := <[domain := e]> (m_resourceStatisticsMap s) in
  let m' := m_resourceStatisticsMap (setPrevalentResource domain s) in
  isPrevalentIn m' domain = true /\
  (forall d, isPrevalentIn m' d = true -> isPrevalentIn m d = true \/ leads_to m e d) /\
  (forall d, isPrevalentIn m d = true -> isPrevalentIn m' d = true) /\
  ((size (filter (fun '(_, e') => isPrevalent e' = false) m) < 49)%nat -> forall d, leads_to m e d -> isPrevalentIn m' d = true).
Proof.
  intros Hs Hskip e m m'. set (s1 := onMap (ensureResourceStatisticsForRegistrableDomain domain) s).
  assert (Hs1 : store_ok true s1) by (apply store_ok_onMap; auto with itp). pose proof (good_keyed _ (store_map _ Hs1)) as Hk.
  assert (He : m_resourceStatisticsMap s1 !! domain = Some (statisticsOf domain s) /\ m = <[domain := e]> (m_resourceStatisticsMap s1)).
  { unfold s1, m, onMap, ensureResourceStatisticsForRegistrableDomain, statisticsOf. cbn.
    destruct (m_resourceStatisticsMap s !! domain) eqn:Hd; [done|]. by rewrite lookup_insert_eq, insert_insert_eq. }
  destruct He as [He Hm].
  assert (Hm' : m' = m_resourceStatisticsMap (setPrevalence s1 domain High)) by (unfold m', setPrevalentResource; by rewrite Hskip).
  rewrite Hm, Hm'. split; [by eapply setPrevalence_marks|]. by apply setPrevalence_spreads.
Qed.

(** A classification makes prevalent every domain the classifier or the debug mode selects and
    every domain that had redirected to a prevalent one; no domain ceases to be prevalent, and
    each prevalent domain is connected by redirects to one that is so in its own right. *)
Theorem classification_marks_the_justified s :
  store_ok true s ->
  let m' := m_resourceStatisticsMap (classifyPrevalentResources s) in
  (forall d, isPrevalentIn (m_resourceStatisticsMap s) d = true -> isPrevalentIn m' d = true) /\
  (forall d, isPrevalentIn m' d = true -> justified s d) /\
  (forall d e, m_resourceStatisticsMap s !! d = Some e -> shouldSkip s d = false -> to_be_marked s e -> isPrevalentIn m' d = true).
Proof.
  intros Hs m'. pose proof (store_map _ Hs) as Hm.
  assert (Hc : classifying true s s).
  { split; [by eapply good_keyed|by eapply good_consistent|done|]. intros d. apply justified_before. }
  pose proof (classifying_fold true s s (mapOrder (m_resourceStatisticsMap s)) Hc) as [_ _ Hp Hj].
  split; [apply Hp|]. split; [exact Hj|]. intros d e He Hskip Hmark. eapply classifies_all; [done| |done..].
  rewrite mapOrder_keys. apply list_elem_of_fmap. exists (d, e). split; [done|]. by apply elem_of_map_to_list.
Qed.

(** The lists handed to the network layer: the cookies of a prevalent domain are blocked, and
    deleted unless the user interacted with it within the long window; the domains with such an
    interaction are listed as first parties. *)
Theorem cookie_blocking_lists now s :
  store_ok true s -> m_debugModeEnabled s = true ->
  exists lists, last (mainThread (updateCookieBlocking now s)) = Some (CallUpdatePrevalentDomainsToBlockCookiesForHandler lists) /\
  (forall d, d ∈ domainsToBlockAndDeleteCookiesFor lists <->
     exists e, m_resourceStatisticsMap s !! d = Some e /\ isPrevalent e = true /\ interacted now s e = false) /\
  (forall d, d ∈ domainsToBlockButKeepCookiesFor lists <->
     exists e, m_resourceStatisticsMap s !! d = Some e /\ isPrevalent e = true /\ interacted now s e = true) /\
  (forall d, d ∈ domainsWithUserInteractionAsFirstParty lists <->
     exists e, m_resourceStatisticsMap s !! d = Some e /\ interacted now s e = true).
Proof.
  intros Hs Hdebug. destruct (updateCookieBlocking_lists now s (good_keyed _ (store_map _ Hs))) as (lists & s' & _ & [Hd Hk Hi] & ->).
  rewrite Hdebug, andb_false_r. exists lists. split; [unfold post; cbn; by rewrite last_snoc|].
  assert (Hseen : forall d e, m_resourceStatisticsMap s !! d = Some e -> d ∈ mapOrder (m_resourceStatisticsMap s)).
  { intros d e He. rewrite mapOrder_keys. apply list_elem_of_fmap. exists (d, e). split; [done|]. by apply elem_of_map_to_list. }
  split; [|split]; intros d; [rewrite Hd|rewrite Hk|rewrite Hi]; (split; [by intros [_ ?]|]); intros (e & He & HP); eauto 10.
Qed.

(** The reference to the target's entry that [logCrossSiteLoadWithLinkDecoration] keeps while it
    looks up the source's entry is never written through after an insertion. *)
Theorem link_decoration_reference_is_live from to s :
  exists s', logCrossSiteLoadWithLinkDecoration from to s = Done s'.
Proof.
  unfold logCrossSiteLoadWithLinkDecoration. set (m := ensureAndUpdate _ _ _). unfold isPrevalentIn, ensureResourceStatisticsForRegistrableDomain.
  destruct (m !! from) as [e|] eqn:He; [rewrite He; destruct (isPrevalent e); eauto|]. rewrite lookup_insert_eq. cbn. eauto.
Qed.

(** The answer to a request for storage access and what it makes the main thread do: access is
    granted without asking the user only to a domain with user interaction that was granted
    access under the same first party through the prompt before; without interaction the request
    fails, and a domain whose cookies are not blocked needs no grant. *)
Theorem storage_access_decision now sub top perPage s :
  sub <> top ->
  let e := statisticsOf sub s in
  let blocked := fst (areAllThirdPartyCookiesBlockedUnder now top s) || isPrevalent e in
  let granted := blocked && hadUserInteraction e && hasUserGrantedStorageAccessThroughPrompt e top in
  let '(answer, s') := requestStorageAccess now sub top perPage s in
  mainThread s' = mainThread s ++ (if granted then [CallGrantStorageAccessHandler sub top perPage] else []) /\
  answer = (if granted then None
            else Some (if negb blocked then HasAccess else if hadUserInteraction e then RequiresUserPrompt else CannotRequestAccess)).
Proof.
  intros Hne. cbn zeta. unfold requestStorageAccess. rewrite (statisticsOf_ensure sub s).
  destruct (cookieAccess_eq now sub top s Hne) as (s2 & -> & Hmain & Hsub). rewrite <- Hmain.
  destruct (fst (areAllThirdPartyCookiesBlockedUnder now top s)), (isPrevalent (statisticsOf sub s)), (hadUserInteraction (statisticsOf sub s));
    cbn [negb andb orb]; rewrite ?Hsub, ?app_nil_r; try done;
    destruct (hasUserGrantedStorageAccessThroughPrompt (statisticsOf sub s) top); cbn [negb]; rewrite ?app_nil_r; try done;
    unfold grantStorageAccessInternal; rewrite bool_decide_false by done; done.
Qed.

(** Removing the data of a first party leaves the grants under it: a domain that was granted
    storage access under it gets access again without the user being asked. *)
Theorem grant_survives_removal_of_first_party now sub top perPage s e :
  sub <> top -> m_resourceStatisticsMap s !! sub = Some e -> hadUserInteraction e = true ->
  top ∈ storageAccessUnderTopFrameDomains e -> m_thirdPartyCookieBlockingMode s = BlockAll ->
  let '(answer, s') := requestStorageAccess now sub top perPage (removeDataForDomain top s) in
  m_resourceStatisticsMap (removeDataForDomain top s) !! top = None /\ answer = None /\
  mainThread s' = mainThread s ++ [CallGrantStorageAccessHandler sub top perPage].
Proof.
  intros Hne He Hint Hgrant Hmode. set (s1 := removeDataForDomain top s).
  assert (Htop : m_resourceStatisticsMap s1 !! top = None) by (unfold s1; cbn; by rewrite lookup_fmap, lookup_delete_eq).
  assert (Hsub : statisticsOf sub s1 = removeRelations top e).
  { unfold statisticsOf, s1. cbn. by rewrite lookup_fmap, lookup_delete_ne, He by done. }
  unfold requestStorageAccess. rewrite (statisticsOf_ensure sub s1).
  destruct (cookieAccess_eq now sub top s1 Hne) as (s2 & -> & Hmain & Hsub2). rewrite Hsub2, Hsub.
  unfold areAllThirdPartyCookiesBlockedUnder. replace (m_thirdPartyCookieBlockingMode s1) with BlockAll by done. cbn [fst negb andb].
  replace (hadUserInteraction (removeRelations top e)) with true by done. cbn [negb].
  replace (hasUserGrantedStorageAccessThroughPrompt (removeRelations top e) top) with true by (symmetry; by apply bool_decide_eq_true).
  cbn [negb]. unfold grantStorageAccessInternal. rewrite bool_decide_false by done. cbn. by rewrite Hmain.
Qed.
End properties.

(** ** Witnesses: hash tables traversed in the order of stdpp's maps *)

#[local] Existing Instance plainCalendar.
#[local] Existing Instance plainCalendarLaws.

Definition plainPlatform : Platform := {|
  mergeStatistic e e' := e <| isPrevalent := isPrevalent e || isPrevalent e' |> <| isVeryPrevalent := isVeryPrevalent e || isVeryPrevalent e' |>;
  reduceTimeResolution t := t / 300000 * 300000;
  mapOrder m := (map_to_list m).*1;
  setOrder s := elements s
|}.
#[local] Existing Instance plainPlatform.
Lemma plainPlatformLaws : PlatformLaws.
Proof. by split. Qed.
#[local] Existing Instance plainPlatformLaws.

(** A chain of redirects from a to b to c, and d unrelated. *)
Definition chainStore : Store :=
  setLastSeen "d" 7 (setTopFrameUniqueRedirectFrom "c" "b" (setSubresourceUniqueRedirectFrom "b" "a" (createStore (100 * msPerDay) true))).

Lemma chainStore_reached : rtc (step true) (createStore (100 * msPerDay) true) chainStore.
Proof.
  eapply rtc_l; [apply (step_setSubresourceUniqueRedirectFrom _ _ "b" "a")|].
  eapply rtc_l; [apply (step_setTopFrameUniqueRedirectFrom _ _ "c" "b")|].
  eapply rtc_l; [apply (step_setLastSeen _ _ "d" 7)|]. apply rtc_refl.
Qed.

(** A test inserts expired statistics; the dates are not in order any more, the entries are
    where they belong. *)
Definition testedStore : Store := insertExpiredStatisticForTesting (fun _ => 100 * msPerDay) "e" 3 true false false chainStore.

Lemma memory_store_invariant_witness :
  (keyed (m_resourceStatisticsMap (setPrevalentResource "c" chainStore)) /\ (length (m_operatingDates (setPrevalentResource "c" chainStore)) <= 30)%nat) /\
  keyed (m_resourceStatisticsMap testedStore) /\ map secondsSinceEpoch (m_operatingDates testedStore) = map (fun d => d * secondsPerDay) [100; 99; 98; 97].
Proof.
  split; [|split; [|vm_compute; reflexivity]].
  - destruct (memory_store_invariant true (100 * msPerDay) true (setPrevalentResource "c" chainStore)) as [Hk Hc];
      [eapply rtc_r; [exact chainStore_reached|apply step_setPrevalentResource]|]. split; [exact Hk|]. exact (proj2 (proj2 (Hc eq_refl))).
  - apply (memory_store_invariant false (100 * msPerDay) true). eapply rtc_l; [apply (step_setSubresourceUniqueRedirectFrom _ _ "b" "a")|].
    eapply rtc_l; [apply (step_setTopFrameUniqueRedirectFrom _ _ "c" "b")|]. eapply rtc_l; [apply (step_setLastSeen _ _ "d" 7)|].
    apply rtc_once. apply step_insertExpired. reflexivity.
Defined.

Lemma chainStore_ok : store_ok true chainStore.
Proof. eapply (rtc_invariant (step true) (store_ok true)); [apply store_ok_step|exact chainStore_reached|apply store_ok_created]. Qed.

Lemma prevalence_spreads_to_redirectors_witness :
  isPrevalentIn (m_resourceStatisticsMap (setPrevalentResource "c" chainStore)) "c" = true /\
  isPrevalentIn (m_resourceStatisticsMap (setPrevalentResource "c" chainStore)) "a" = true /\
  isPrevalentIn (m_resourceStatisticsMap (setPrevalentResource "c" chainStore)) "d" = false.
Proof.
  refine (conj (proj1 (prevalence_spreads_to_redirectors chainStore "c" chainStore_ok _)) (conj _ _)); vm_compute; reflexivity.
Defined.

(** A store in which c is seen under five sites and has redirected b. *)
Definition trackerStore : Store :=
  foldl (fun s top => setSubresourceUnderTopFrameDomain "c" top s) chainStore ["s1"; "s2"; "s3"; "s4"; "s5"].
Lemma trackerStore_ok : store_ok true trackerStore.
Proof.
  unfold trackerStore. apply foldl_invariant; [|exact chainStore_ok].
  intros s top Hs. eapply store_ok_step; [exact Hs|apply step_setSubresourceUnderTopFrameDomain].
Qed.

Lemma classification_marks_the_justified_witness :
  justified trackerStore "a" /\ isPrevalentIn (m_resourceStatisticsMap (classifyPrevalentResources trackerStore)) "d" = false.
Proof. refine (conj (proj1 (proj2 (classification_marks_the_justified trackerStore trackerStore_ok)) "a" _) _); vm_compute; reflexivity. Defined.

Definition debuggedStore : Store := setResourceLoadStatisticsDebugMode (101 * msPerDay) true trackerStore.
Lemma debuggedStore_ok : store_ok true debuggedStore.
Proof. eapply store_ok_step; [exact trackerStore_ok|apply step_setDebugMode]. Qed.

Lemma cookie_blocking_lists_witness :
  exists lists, last (mainThread (updateCookieBlocking (101 * msPerDay) debuggedStore)) = Some (CallUpdatePrevalentDomainsToBlockCookiesForHandler lists) /\
    debugStaticPrevalentResource ∈ domainsToBlockAndDeleteCookiesFor lists.
Proof.
  destruct (cookie_blocking_lists (101 * msPerDay) debuggedStore debuggedStore_ok ltac:(vm_compute; reflexivity)) as (lists & Hl & Hd & _).
  exists lists. split; [exact Hl|]. apply Hd. eexists. split; [vm_compute; reflexivity|]. split; vm_compute; reflexivity.
Defined.

(** The user has interacted with v and granted it access under n. *)
Definition grantedStore : Store :=
  snd (grantStorageAccess 200 "v" "n" true false (logUserInteraction 100 "v" (createStore (100 * msPerDay) true))).

Lemma storage_access_decision_witness :
  let '(answer, s') := requestStorageAccess 300 "v" "m" false grantedStore in answer = Some RequiresUserPrompt.
Proof. exact (proj2 (storage_access_decision 300 "v" "m" false grantedStore ltac:(discriminate))). Defined.

Lemma grant_survives_removal_of_first_party_witness :
  let '(answer, s') := requestStorageAccess 300 "v" "n" false (removeDataForDomain "n" grantedStore) in
  m_resourceStatisticsMap (removeDataForDomain "n" grantedStore) !! "n" = None /\ answer = None /\
  mainThread s' = mainThread grantedStore ++ [CallGrantStorageAccessHandler "v" "n" false].
Proof.
  refine (grant_survives_removal_of_first_party 300 "v" "n" false grantedStore (statisticsOf "v" grantedStore) _ _ _ _ _);
    [discriminate|vm_compute; reflexivity|vm_compute; reflexivity|apply (bool_decide_unpack _); vm_compute; exact I|vm_compute; reflexivity].
Defined.
