(* ===== verification/StatisticsRemoval.v ===== *)
(** * NetworkProcess/Classifier: removal of website data, pruning and scheduling

    The periodic work of the tracking-prevention store of [ResourceLoadStatistics]: which
    domains lose their cookies or other data ([registrableDomainsToDeleteOrRestrict-
    WebsiteDataFor]), which entries are pruned when there are too many, and how requests for
    this work are delayed, coalesced and kept from overlapping
    (ResourceLoadStatisticsMemoryStore.cpp and ResourceLoadStatisticsStore.cpp). *)

From stdpp Require Import sorting.
From S2P Require Import Prelude OperatingDates ResourceLoadStatistics.
Import MemoryStore.

(** [std::sort] by increasing [lastSeen]; the order of equal elements is unspecified. *)
Abbreviation StatisticsLastSeen := (RegistrableDomain * WallTime)%type.
Definition seenBefore (a b : StatisticsLastSeen) : Prop := snd a <= snd b.
Class StdSort := { stdSort : list StatisticsLastSeen -> list StatisticsLastSeen }.
Class StdSortLaws `{StdSort} := {
  stdSort_permutation l : stdSort l ≡ₚ l;
  stdSort_sorted l : StronglySorted seenBefore (stdSort l)
}.

Module Removal.

(** ** Pruning *)

Definition maxImportance : nat := 3.

Definition computeImportance (e : Statistics) : nat :=
  (maxImportance - (if isPrevalent e then 0 else 1) - (if hadUserInteraction e then 0 else 2))%nat.

Section removal.
Context `{DateMath, Platform, StdSort}.

(** [pruneResources]: the map and the number of entries left to prune, a [size_t]. *)
Definition pruneResources (statisticsToPrune : list StatisticsLastSeen) (state : StatisticsMap * nat) : StatisticsMap * nat :=
  let '(statisticsMap, numberOfEntriesToPrune) := state in
  let statisticsToPrune := if decide (numberOfEntriesToPrune < length statisticsToPrune)%nat then stdSort statisticsToPrune else statisticsToPrune in
  let count := Nat.min numberOfEntriesToPrune (length statisticsToPrune) in
  (foldl (fun m x => delete (fst x) m) statisticsMap (take count statisticsToPrune), (numberOfEntriesToPrune - count)%nat).

(** [resourcesToPrunePerImportance[importance]]. *)
Definition bucket (m : StatisticsMap) (importance : nat) : list StatisticsLastSeen :=
  omap (fun d => match m !! d with
                 | Some e => if decide (computeImportance e = importance) then Some (registrableDomain e, lastSeen e) else None
                 | None => None
                 end) (mapOrder m).

Fixpoint pruneBuckets (buckets : list (list StatisticsLastSeen)) (state : StatisticsMap * nat) : StatisticsMap * nat :=
  match buckets with
  | [] => state
  | b :: rest => if decide (snd state = 0%nat) then state else pruneBuckets rest (pruneResources b state)
  end.

Definition pruneStatisticsIfNeeded (s : Store) : Store :=
  let m := m_resourceStatisticsMap s in
  if decide (size m <= maxStatisticsEntries (m_parameters s))%nat then s
  else
    let numberOfEntriesLeftToPrune := wrap 64 (Z.of_nat (size m) - Z.of_nat (pruneEntriesDownTo (m_parameters s))) in
    s <| m_resourceStatisticsMap :=
           fst (pruneBuckets (bucket m <$> seq 0 (S maxImportance)) (m, Z.to_nat numberOfEntriesLeftToPrune)) |>.

(** ** Deciding what to delete *)

Definition shouldExemptFromWebsiteDataDeletion (s : Store) (domain : RegistrableDomain) : bool :=
  negb (bool_decide (domain = "")) &&
  (bool_decide (domain = m_standaloneApplicationDomain s) || bool_decide (domain ∈ m_appBoundDomains s)).

Definition shouldRemoveAllWebsiteDataFor (now : WallTime) (s : Store) (e : Statistics) (shouldCheckForGrandfathering : bool) : bool * Statistics :=
  if isPrevalent e then
    let '(unexpired, e') := hasHadUnexpiredRecentUserInteraction now s e Long in
    (negb unexpired && (negb shouldCheckForGrandfathering || negb (grandfathered e')), e')
  else (false, e).

Definition removalWindow (mode : FirstPartyWebsiteDataRemovalMode) : OperatingDatesWindow :=
  match mode with
  | AllButCookies | RemoveNone => Short
  | AllButCookiesLiveOnTestingTimeout => ForLiveOnTesting
  | AllButCookiesReproTestingTimeout => ForReproTesting
  end.

Definition shouldRemoveAllButCookiesFor (now : WallTime) (s : Store) (e : Statistics) (shouldCheckForGrandfathering : bool) : bool * Statistics :=
  let isRemovalEnabled := negb (bool_decide (m_firstPartyWebsiteDataRemovalMode s = RemoveNone)) || gotLinkDecorationFromPrevalentResource e in
  let isResourceGrandfathered := shouldCheckForGrandfathering && grandfathered e in
  let window := removalWindow (m_firstPartyWebsiteDataRemovalMode s) in
  if isRemovalEnabled && negb isResourceGrandfathered
  then let '(unexpired, e') := hasHadUnexpiredRecentUserInteraction now s e window in (negb unexpired, e')
  else (false, e).

Definition shouldEnforceSameSiteStrictForSpecificDomain (domain : RegistrableDomain) : bool := false.

Definition shouldEnforceSameSiteStrictFor (s : Store) (e : Statistics) (shouldCheckForGrandfathering : bool) : bool * Statistics :=
  if (negb (m_sameSiteStrictEnforcementEnabled s) && negb (shouldEnforceSameSiteStrictForSpecificDomain (registrableDomain e)))
     || (shouldCheckForGrandfathering && grandfathered e)
  then (false, e)
  else if decide (minimumTopFrameRedirectsForSameSiteStrictEnforcement (m_parameters s) < size (topFrameUniqueRedirectsToSinceSameSiteStrictEnforcement e))%nat
  then (true, e <| topFrameUniqueRedirectsToSinceSameSiteStrictEnforcement := ∅ |>)
  else (false, e).

Definition recordedInteractionTime (e : Statistics) : option WallTime :=
  if mostRecentUserInteractionTime e <=? 0 then None else Some (mostRecentUserInteractionTime e).

(** What the loop decides about one entry: delete everything, delete all but cookies, set its
    cookies to SameSite=strict; with the entry afterwards. *)
Definition decideForEntry (now : WallTime) (s : Store) (shouldCheckForGrandfathering shouldClearGrandfathering : bool) (e : Statistics)
    : (bool * bool * bool) * Statistics :=
  let '(verdict, e) :=
    let '(removeAll, e) := shouldRemoveAllWebsiteDataFor now s e shouldCheckForGrandfathering in
    if removeAll then ((true, true, false), e)
    else
      let '(removeAllButCookies, e) := shouldRemoveAllButCookiesFor now s e shouldCheckForGrandfathering in
      let e := if removeAllButCookies then e <| gotLinkDecorationFromPrevalentResource := false |> else e in
      let '(sameSiteStrict, e) := shouldEnforceSameSiteStrictFor s e shouldCheckForGrandfathering in
      ((false, removeAllButCookies, sameSiteStrict), e) in
  (verdict, if shouldClearGrandfathering && grandfathered e then e <| grandfathered := false |> else e).

Record Scan := mkScan { scanned : DomainsToDeleteOrRestrict; oldestUserInteraction : WallTime; scanStore : Store }.

(** One round of the loop of [registrableDomainsToDeleteOrRestrictWebsiteDataFor]. *)
Definition scanEntry (now : WallTime) (check_ clear_ : bool) (st : Scan) (domain : RegistrableDomain) : Scan :=
  let s := scanStore st in
  match m_resourceStatisticsMap s !! domain with
  | None => st
  | Some e =>
      if shouldExemptFromWebsiteDataDeletion s (registrableDomain e) then st
      else
        let oldest := match recordedInteractionTime e with
                      | Some t => Z.min (oldestUserInteraction st) t
                      | None => oldestUserInteraction st
                      end in
        let '((all_, nonCookie, strict), e') := decideForEntry now s check_ clear_ e in
        let r := registrableDomain e' in
        let lists := scanned st in
        mkScan (mkDeletion
                  (if all_ then domainsToDeleteAllCookiesFor lists ++ [r] else domainsToDeleteAllCookiesFor lists)
                  (domainsToDeleteAllButHttpOnlyCookiesFor lists)
                  (if nonCookie then domainsToDeleteAllNonCookieWebsiteDataFor lists ++ [r] else domainsToDeleteAllNonCookieWebsiteDataFor lists)
                  (if strict then domainsToEnforceSameSiteStrictFor lists ++ [r] else domainsToEnforceSameSiteStrictFor lists))
          oldest (onMap <[domain := e']> s)
  end.

Definition checkGrandfathering (now : WallTime) (s : Store) : bool := now <? m_endOfGrandfatheringTimestamp s.
Definition clearGrandfathering (now : WallTime) (s : Store) : bool :=
  negb (checkGrandfathering now s) && negb (m_endOfGrandfatheringTimestamp s =? 0).

Definition registrableDomainsToDeleteOrRestrictWebsiteDataFor (now : WallTime) (s : Store) : DomainsToDeleteOrRestrict * Store :=
  let shouldCheckForGrandfathering := checkGrandfathering now s in
  let shouldClearGrandfathering := clearGrandfathering now s in
  let s := if shouldClearGrandfathering then s <| m_endOfGrandfatheringTimestamp := 0 |> else s in
  let st := foldl (scanEntry now shouldCheckForGrandfathering shouldClearGrandfathering) (mkScan (mkDeletion [] [] [] []) now s)
              (mapOrder (m_resourceStatisticsMap s)) in
  (if negb (isRunningTest (m_parameters s)) && (now - oldestUserInteraction st <? minimumTimeBetweenDataRecordsRemoval (m_parameters s))
   then (scanned st) <| domainsToDeleteAllNonCookieWebsiteDataFor := [] |> else scanned st, scanStore st).

(** ** Processing *)

Definition nothingToDelete (lists : DomainsToDeleteOrRestrict) : bool :=
  match domainsToDeleteAllCookiesFor lists, domainsToDeleteAllButHttpOnlyCookiesFor lists,
        domainsToDeleteAllNonCookieWebsiteDataFor lists, domainsToEnforceSameSiteStrictFor lists with
  | [], [], [], [] => true
  | _, _, _, _ => false
  end.

(** [shouldRemoveDataRecords], without plug-ins; [monotonic] is [MonotonicTime::now()]. *)
Definition shouldRemoveDataRecords (monotonic : Z) (s : Store) : bool :=
  if m_dataRecordsBeingRemoved s then false
  else (m_lastTimeDataRecordsWereRemoved s =? 0)
       || (m_lastTimeDataRecordsWereRemoved s + minimumTimeBetweenDataRecordsRemoval (m_parameters s) <=? monotonic)
       || isRunningTest (m_parameters s).

Definition setDataRecordsBeingRemoved (monotonic : Z) (value : bool) (s : Store) : Store :=
  let s := s <| m_dataRecordsBeingRemoved := value |> in
  if value then s <| m_lastTimeDataRecordsWereRemoved := monotonic |> else s.

(** The completion handler that [processStatisticsAndDataRecords] passes on. *)
Definition didProcess (s : Store) : Store :=
  let s := pruneStatisticsIfNeeded s in
  let s := post (LogTestingEvent "Storage Synced") s in
  if negb (shouldNotifyPagesWhenDataRecordsWereScanned (m_parameters s)) then s
  else post NotifyResourceLoadStatisticsProcessed s.

Definition removeDataRecords (now monotonic : Z) (s : Store) : Store :=
  if negb (shouldRemoveDataRecords monotonic s) then didProcess s
  else
    let '(domains, s) := registrableDomainsToDeleteOrRestrictWebsiteDataFor now s in
    if nothingToDelete domains then didProcess s
    else
      let s := setDataRecordsBeingRemoved monotonic true s in
      post (DeleteAndRestrictWebsiteData domains (shouldNotifyPagesWhenDataRecordsWereScanned (m_parameters s))) s.

(** The main thread's answer, back on the work queue. *)
Definition didRemoveDataRecords (monotonic : Z) (domainsWithDeletedWebsiteData : DomainSet) (s : Store) : Store :=
  didProcess (setDataRecordsBeingRemoved monotonic false (incrementRecordsDeletedCountForDomains domainsWithDeletedWebsiteData s)).

Definition processStatisticsAndDataRecords (now monotonic : Z) (s : Store) : Store :=
  if isRunningTest (m_parameters s) && negb (shouldNotifyPagesWhenDataRecordsWereScanned (m_parameters s)) then s
  else
    let s := if shouldClassifyResourcesBeforeDataRecordsRemoval (m_parameters s) then classifyPrevalentResources s else s in
    removeDataRecords now monotonic s.

(** A request that was delayed by [scheduleStatisticsProcessingRequestIfNecessary] runs. *)
Definition runDelayedRequest (now monotonic : Z) (s : Store) (identifier : Z) : Store :=
  if bool_decide (m_pendingStatisticsProcessingRequestIdentifier s = Some identifier)
  then processStatisticsAndDataRecords now monotonic (updateCookieBlocking now s)
  else s.

Definition cancelPendingStatisticsProcessingRequest (s : Store) : Store := s <| m_pendingStatisticsProcessingRequestIdentifier := None |>.

(** [grandfatherExistingWebsiteData] and the main thread's answer to it. *)
Definition grandfatherExistingWebsiteData (s : Store) : Store :=
  post (QueryDomainsWithWebsiteData (shouldNotifyPagesWhenDataRecordsWereScanned (m_parameters s))) s.
Definition didQueryDomainsWithWebsiteData (now : WallTime) (domainsWithWebsiteData : DomainSet) (s : Store) : Store :=
  let s := grandfatherDataForDomains domainsWithWebsiteData s in
  post (LogTestingEvent "Grandfathered") (s <| m_endOfGrandfatheringTimestamp := now + grandfatheringTime (m_parameters s) |>).

(** ** Parameters *)

Definition setParameters (f : Parameters -> Parameters) (s : Store) : Store := s <| m_parameters := f (m_parameters s) |>.
Definition setMaxStatisticsEntries (n : nat) : Store -> Store := setParameters (fun p => p <| maxStatisticsEntries := n |>).
Definition setPruneEntriesDownTo (n : nat) : Store -> Store := setParameters (fun p => p <| pruneEntriesDownTo := n |>).
Definition setTimeToLiveUserInteraction (t : Z) : Store -> Store := setParameters (fun p => p <| timeToLiveUserInteraction := Some t |>).
Definition setMinimumTimeBetweenDataRecordsRemoval (t : Z) : Store -> Store := setParameters (fun p => p <| minimumTimeBetweenDataRecordsRemoval := t |>).
Definition setGrandfatheringTime (t : Z) : Store -> Store := setParameters (fun p => p <| grandfatheringTime := t |>).
Definition updateCacheMaxAgeCap (s : Store) : Store := post (SetCacheMaxAgeCap (cacheMaxAgeCapTime (m_parameters s))) s.
Definition setCacheMaxAgeCap (t : Z) (s : Store) : Store := updateCacheMaxAgeCap (setParameters (fun p => p <| cacheMaxAgeCapTime := t |>) s).
Definition updateClientSideCookiesAgeCap (s : Store) : Store := post (SetAgeCapForClientSideCookies (clientSideCookiesAgeCapTime (m_parameters s))) s.
Definition setAgeCapForClientSideCookies (t : Z) (s : Store) : Store :=
  updateClientSideCookiesAgeCap (setParameters (fun p => p <| clientSideCookiesAgeCapTime := t |>) s).
Definition resetParametersToDefaultValues (s : Store) : Store := s <| m_parameters := defaultParameters |> <| m_appBoundDomains := ∅ |>.
Definition didCreateNetworkProcess (now : WallTime) (s : Store) : Store :=
  updateClientSideCookiesAgeCap (updateCacheMaxAgeCap (updateCookieBlocking now s)).

End removal.
End Removal.
Import Removal.

(** ** Pruning keeps the most important entries *)

(** The map without the entries of a list. *)
Abbreviation deleteAll := (foldl (fun m x => delete (fst x) m)).

Section pruning.
Context `{Platform} `{!PlatformLaws} `{StdSort} `{!StdSortLaws}.

(** What is removed from the buckets when [n] entries are to go. *)
Fixpoint removedFrom (buckets : list (list StatisticsLastSeen)) (n : nat) : list StatisticsLastSeen :=
  match buckets with
  | [] => []
  | b :: rest => take n (if decide (n < length b)%nat then stdSort b else b) ++ removedFrom rest (n - length b)
  end.


Lemma removedFrom_0 buckets : removedFrom buckets 0 = [].
Proof. induction buckets as [|b rest IH]; [done|]. cbn [removedFrom]. by rewrite take_0, Nat.sub_0_l, IH. Qed.

Lemma pruneBuckets_removes buckets (m : StatisticsMap) n :
  fst (pruneBuckets buckets (m, n)) = deleteAll m (removedFrom buckets n).
Proof.
  revert m n. induction buckets as [|b rest IH]; intros m n; [done|]. cbn [pruneBuckets removedFrom snd].
  case_decide as Hn; [subst; cbn [fst]; by rewrite take_0, Nat.sub_0_l, removedFrom_0|]. unfold pruneResources.
  set (b' := if decide _ then stdSort b else b). assert (Hlen : length b' = length b).
  { unfold b'. case_decide; [|done]. apply Permutation_length, stdSort_permutation. }
  rewrite IH, foldl_app, Hlen. f_equal; [f_equal|f_equal; lia].
  destruct (decide (n <= length b)%nat); [by replace (n `min` length b)%nat with n by lia|].
  rewrite !take_ge by lia. done.
Qed.

Lemma removedFrom_length buckets n : length (removedFrom buckets n) = Nat.min n (length (concat buckets)).
Proof.
  revert n. induction buckets as [|b rest IH]; intros n; cbn [removedFrom concat]; [simpl; lia|].
  rewrite !length_app, IH, length_take. replace (length (if decide _ then stdSort b else b)) with (length b); [lia|].
  case_decide; [|done]. symmetry. apply Permutation_length, stdSort_permutation.
Qed.

(** Which entries go: a part of the buckets, and the rest. *)
Lemma removedFrom_split buckets n : exists kept, concat buckets ≡ₚ removedFrom buckets n ++ kept.
Proof.
  revert n. induction buckets as [|b rest IH]; intros n; cbn [removedFrom concat]; [by exists []|].
  destruct (IH (n - length b)%nat) as [kept Hkept]. set (b' := if decide _ then stdSort b else b).
  assert (Hb : b' ≡ₚ b) by (unfold b'; case_decide; [apply stdSort_permutation|done]).
  exists (drop n b' ++ kept). rewrite <- Hb at 1. rewrite <- (take_drop n b') at 1. rewrite Hkept. solve_Permutation.
Qed.

(** An entry that is removed is not more important than one that is kept, and of the same
    importance not seen later; [f] gives the importance of an element. *)
Lemma removedFrom_order (f : StatisticsLastSeen -> nat) buckets i n x y :
  (forall j b z, buckets !! j = Some b -> z ∈ b -> f z = (i + j)%nat) ->
  x ∈ removedFrom buckets n -> y ∈ concat buckets -> y ∉ removedFrom buckets n ->
  (f x < f y)%nat \/ (f x = f y /\ seenBefore x y).
Proof.
  revert i n. induction buckets as [|b rest IH]; intros i n Hf; cbn [removedFrom concat]; [set_solver|].
  set (b' := if decide _ then stdSort b else b).
  assert (Hb : b' ≡ₚ b) by (unfold b'; case_decide; [apply stdSort_permutation|done]).
  assert (Hhere : forall z, z ∈ b -> f z = i) by (intros z Hz; rewrite (Hf 0%nat b z) by done; lia).
  assert (Hrest : forall j c z, rest !! j = Some c -> z ∈ c -> f z = (S i + j)%nat) by (intros j c z Hj Hz; rewrite (Hf (S j) c z) by done; lia).
  assert (Hlater : forall z, z ∈ concat rest -> (i < f z)%nat).
  { intros z Hz. apply list_elem_of_In, in_concat in Hz as (c & Hc & Hz). apply list_elem_of_In in Hc, Hz.
    apply list_elem_of_lookup in Hc as [j Hj]. rewrite (Hrest j c z) by done. lia. }
  assert (Hsub : forall k z, z ∈ removedFrom rest k -> z ∈ concat rest).
  { intros k z Hz. destruct (removedFrom_split rest k) as [kept ->]. set_solver. }
  assert (Hin : forall z, z ∈ take n b' -> z ∈ b) by (intros z Hz; rewrite <- Hb; by apply (elem_of_take _ _ _) in Hz as (? & ? & _); eapply list_elem_of_lookup_2).
  intros Hx Hy Hny. apply not_elem_of_app in Hny as [Hny1 Hny2]. apply elem_of_app in Hx as [Hx|Hx]; apply elem_of_app in Hy as [Hy|Hy].
  - right. split; [by rewrite !Hhere by auto|]. destruct (decide (n < length b)%nat) as [Hlt|Hge].
    + pose proof (stdSort_sorted b) as Hs. subst b'. rewrite <- (take_drop n (stdSort b)) in Hs.
      eapply StronglySorted_app_1_elem_of; [exact Hs|done|]. rewrite <- Hb, <- (take_drop n (stdSort b)) in Hy. set_solver.
    + exfalso. apply Hny1. unfold b'. by rewrite take_ge by lia.
  - left. rewrite (Hhere x) by auto. by apply Hlater.
  - exfalso. destruct (decide (n < length b)%nat) as [Hlt|Hge].
    + replace (n - length b)%nat with 0%nat in Hx by lia. rewrite removedFrom_0 in Hx. set_solver.
    + apply Hny1. unfold b'. by rewrite take_ge by lia.
  - by eapply (IH (S i)).
Qed.

Definition seenIn (m : StatisticsMap) (d : RegistrableDomain) : StatisticsLastSeen :=
  (d, match m !! d with Some e => lastSeen e | None => 0 end).
Definition importanceIn (m : StatisticsMap) (x : StatisticsLastSeen) : nat :=
  match m !! fst x with Some e => computeImportance e | None => 0 end.

Lemma computeImportance_max e : (computeImportance e <= 3)%nat.
Proof. unfold computeImportance, maxImportance. lia. Qed.

Lemma bucket_elem m i x : good_map true m -> x ∈ bucket m i -> importanceIn m x = i.
Proof.
  intros Hm Hx. apply list_elem_of_omap in Hx as (d & _ & Hx). unfold importanceIn. destruct (m !! d) as [e|] eqn:He; [|done].
  case_decide as Hi; [|done]. apply (inj Some) in Hx as <-. cbn [fst]. by rewrite (good_keyed m Hm d e He), He.
Qed.

(** The buckets hold every entry once. *)
Lemma buckets_all m : good_map true m -> concat (bucket m <$> seq 0 (S maxImportance)) ≡ₚ seenIn m <$> mapOrder m.
Proof.
  intros Hm. unfold bucket, maxImportance.
  assert (Hl : Forall (fun d => is_Some (m !! d)) (mapOrder m)).
  { apply Forall_forall. intros d. rewrite mapOrder_keys. intros ((d' & e) & -> & He)%list_elem_of_fmap.
    apply elem_of_map_to_list in He. by eexists. }
  induction Hl as [|d l [e He] Hl IH]; [done|]. cbn [fmap list_fmap]. rewrite <- IH. unfold seenIn at 1. rewrite He.
  clear IH. cbn [seq fmap list_fmap concat omap list_omap]. rewrite He, (good_keyed m Hm d e He).
  pose proof (computeImportance_max e). destruct (computeImportance e) as [|[|[|[|k]]]]; [..|lia]; cbn [decide]; solve_Permutation.
Qed.

Lemma buckets_nodup m : good_map true m -> NoDup (concat (bucket m <$> seq 0 (S maxImportance))).*1.
Proof.
  intros Hm. rewrite buckets_all by done. rewrite <- list_fmap_compose. unfold compose. cbn [seenIn fst]. rewrite list_fmap_id.
  rewrite mapOrder_keys. apply NoDup_fst_map_to_list.
Qed.

Lemma buckets_elem m x : good_map true m ->
  x ∈ concat (bucket m <$> seq 0 (S maxImportance)) <-> exists e, m !! fst x = Some e /\ snd x = lastSeen e.
Proof.
  intros Hm. rewrite buckets_all, list_elem_of_fmap by done. setoid_rewrite mapOrder_keys. setoid_rewrite list_elem_of_fmap. unfold seenIn. split.
  - intros (d & -> & (d' & e) & -> & He%elem_of_map_to_list). exists e. cbn in *. by rewrite He.
  - intros (e & He & Hx). exists (fst x). rewrite He, <- Hx. split; [by destruct x|]. exists (fst x, e). split; [done|]. by apply elem_of_map_to_list.
Qed.

(** The entries that pruning removes. *)
Definition pruned (m : StatisticsMap) (n : nat) : list StatisticsLastSeen := removedFrom (bucket m <$> seq 0 (S maxImportance)) n.

Lemma pruneStatisticsIfNeeded_map s m : m = m_resourceStatisticsMap s ->
  in_width 64 (Z.of_nat (size m)) -> (pruneEntriesDownTo (m_parameters s) <= maxStatisticsEntries (m_parameters s) < size m)%nat ->
  m_resourceStatisticsMap (pruneStatisticsIfNeeded s) = deleteAll m (pruned m (size m - pruneEntriesDownTo (m_parameters s))).
Proof.
  intros Hm Hw Hp. unfold pruneStatisticsIfNeeded. rewrite <- Hm. rewrite decide_False by lia. unfold pruned. rewrite <- pruneBuckets_removes.
  rewrite wrap_small by (unfold in_width in *; lia).
  replace (Z.to_nat (Z.of_nat (size m) - Z.of_nat (pruneEntriesDownTo (m_parameters s)))) with (size m - pruneEntriesDownTo (m_parameters s))%nat by lia.
  reflexivity.
Qed.

Lemma pruned_domains m n : good_map true m ->
  NoDup (pruned m n).*1 /\ length (pruned m n) = Nat.min n (size m) /\ (forall x, x ∈ pruned m n -> exists e, m !! fst x = Some e /\ snd x = lastSeen e).
Proof.
  intros Hm. unfold pruned. destruct (removedFrom_split (bucket m <$> seq 0 (S maxImportance)) n) as [kept Hkept].
  pose proof (buckets_nodup m Hm) as Hnd. rewrite Hkept, fmap_app in Hnd. apply NoDup_app in Hnd as (Hnd & _ & _). split; [done|]. split.
  - rewrite removedFrom_length, buckets_all, length_fmap, mapOrder_keys, length_fmap, length_map_to_list by done. done.
  - intros x Hx. apply (buckets_elem m x Hm). rewrite Hkept. set_solver.
Qed.

Lemma deleteAll_lookup (l : list StatisticsLastSeen) (m : StatisticsMap) d :
  deleteAll m l !! d = if decide (d ∈ l.*1) then None else m !! d.
Proof.
  revert m. induction l as [|x l IH]; intros m; cbn [foldl]; [by rewrite decide_False by (apply not_elem_of_nil)|].
  rewrite IH. cbn [fmap list_fmap]. destruct (decide (d = fst x)) as [->|Hne].
  - rewrite lookup_delete_eq. rewrite (decide_True (P := fst x ∈ fst x :: _)) by set_solver. by case_decide.
  - rewrite lookup_delete_ne by done. destruct (decide (d ∈ l.*1)); [by rewrite decide_True by set_solver|by rewrite decide_False by set_solver].
Qed.

Lemma deleteAll_size (l : list StatisticsLastSeen) (m : StatisticsMap) :
  NoDup l.*1 -> (forall d, d ∈ l.*1 -> is_Some (m !! d)) -> (size (deleteAll m l) + length l = size m)%nat.
Proof.
  revert m. induction l as [|x l IH]; intros m Hn Hin; cbn [foldl length]; [lia|]. apply NoDup_cons in Hn as [Hx Hn].
  destruct (Hin (fst x)) as [e He]; [set_solver|]. assert (Hsize : size m = S (size (delete (fst x) m))).
  { rewrite <- (insert_delete_id m (fst x) e) at 1 by done. apply map_size_insert_None, lookup_delete_eq. }
  specialize (IH (delete (fst x) m) Hn). rewrite Hsize. rewrite <- IH; [lia|].
  intros d Hd. rewrite lookup_delete_ne by set_solver. apply Hin. set_solver.
Qed.
End pruning.

(** ** The scan for domains to delete *)

Section scanning.
Context `{DateMath} `{Platform} `{!PlatformLaws} `{StdSort}.

(** What the scan decides about an entry of [s]. *)
Definition verdict (now : WallTime) (s : Store) (e : Statistics) : bool * bool * bool :=
  fst (decideForEntry now s (checkGrandfathering now s) (clearGrandfathering now s) e).

(** The scan changes neither the domain nor the prevalence of an entry. *)
Definition same_identity (e e' : Statistics) : Prop :=
  registrableDomain e' = registrableDomain e /\ isPrevalent e' = isPrevalent e /\ isVeryPrevalent e' = isVeryPrevalent e.
#[global] Instance same_identity_trans : Transitive same_identity.
Proof. intros e1 e2 e3 (E1 & E2 & E3) (E4 & E5 & E6). unfold same_identity. by rewrite E4, E5, E6. Qed.

Lemma shouldRemoveAll_identity now s e c : same_identity e (snd (shouldRemoveAllWebsiteDataFor now s e c)).
Proof.
  unfold shouldRemoveAllWebsiteDataFor. destruct (isPrevalent e); [|done]. pose proof (unexpired_keeps now s e Long) as Hk.
  by destruct (hasHadUnexpiredRecentUserInteraction now s e Long).
Qed.
Lemma shouldRemoveAllButCookies_identity now s e c : same_identity e (snd (shouldRemoveAllButCookiesFor now s e c)).
Proof.
  unfold shouldRemoveAllButCookiesFor. destruct (_ && _); [|done].
  pose proof (unexpired_keeps now s e (removalWindow (m_firstPartyWebsiteDataRemovalMode s))) as Hk.
  by destruct (hasHadUnexpiredRecentUserInteraction now s e _).
Qed.
Lemma shouldEnforceStrict_identity s e c : same_identity e (snd (shouldEnforceSameSiteStrictFor s e c)).
Proof. unfold shouldEnforceSameSiteStrictFor. destruct (_ || _); [done|]. by case_decide. Qed.

Lemma decideForEntry_identity now s c c' e : same_identity e (snd (decideForEntry now s c c' e)).
Proof.
  unfold decideForEntry. pose proof (shouldRemoveAll_identity now s e c) as Hd.
  destruct (shouldRemoveAllWebsiteDataFor now s e c) as [[] e1]; cbn [snd] in Hd; [by destruct (_ && _)|].
  pose proof (shouldRemoveAllButCookies_identity now s e1 c) as Hd'. destruct (shouldRemoveAllButCookiesFor now s e1 c) as [b e2]. cbn [snd] in Hd'.
  set (e3 := if b then _ else _). assert (Hd3 : same_identity e2 e3) by (unfold e3; by destruct b).
  pose proof (shouldEnforceStrict_identity s e3 c) as Hd4. destruct (shouldEnforceSameSiteStrictFor s e3 c) as [b' e4]. cbn [snd] in Hd4.
  assert (Hall : same_identity e e4) by (etrans; [exact Hd|]; etrans; [exact Hd'|]; by etrans).
  by destruct (_ && _).
Qed.

(** The domain is not exempt and a part of the verdict on its entry holds. *)
Definition listed (now : WallTime) (s : Store) (part : bool * bool * bool -> bool) (d : RegistrableDomain) (e : Statistics) : Prop :=
  shouldExemptFromWebsiteDataDeletion s d = false /\ part (verdict now s e) = true.

(** The scan of [s], after the domains [seen]: the lists hold what the verdicts say about
    those; the other entries are as they were. *)
Record scanning (now : WallTime) (s s0 : Store) (seen : list RegistrableDomain) (st : Scan) : Prop := {
  scanning_rest : scanStore st = s0 <| m_resourceStatisticsMap := m_resourceStatisticsMap (scanStore st) |>;
  scanning_entry d : m_resourceStatisticsMap (scanStore st) !! d =
    (fun e => if decide (d ∈ seen /\ shouldExemptFromWebsiteDataDeletion s d = false)
              then snd (decideForEntry now s (checkGrandfathering now s) (clearGrandfathering now s) e) else e) <$> m_resourceStatisticsMap s !! d;
  scanning_all d : d ∈ domainsToDeleteAllCookiesFor (scanned st) <->
    d ∈ seen /\ exists e, m_resourceStatisticsMap s !! d = Some e /\ listed now s (fun v => fst (fst v)) d e;
  scanning_nonCookie d : d ∈ domainsToDeleteAllNonCookieWebsiteDataFor (scanned st) <->
    d ∈ seen /\ exists e, m_resourceStatisticsMap s !! d = Some e /\ listed now s (fun v => snd (fst v)) d e;
  scanning_strict d : d ∈ domainsToEnforceSameSiteStrictFor (scanned st) <->
    d ∈ seen /\ exists e, m_resourceStatisticsMap s !! d = Some e /\ listed now s snd d e
}.

(** The scan runs after the end of grandfathering was cleared, which no decision depends on. *)
Definition same_decisions (s s0 : Store) : Prop :=
  m_resourceStatisticsMap s0 = m_resourceStatisticsMap s /\
  (forall m now c c' e, decideForEntry now (s0 <| m_resourceStatisticsMap := m |>) c c' e = decideForEntry now s c c' e) /\
  (forall m d, shouldExemptFromWebsiteDataDeletion (s0 <| m_resourceStatisticsMap := m |>) d = shouldExemptFromWebsiteDataDeletion s d).

Lemma same_decisions_clear s (b : bool) : same_decisions s (if b then s <| m_endOfGrandfatheringTimestamp := 0 |> else s).
Proof. by destruct b. Qed.

Lemma scan_step now s s0 seen st d e :
  keyed (m_resourceStatisticsMap s) -> same_decisions s s0 -> scanning now s s0 seen st -> d ∉ seen -> m_resourceStatisticsMap s !! d = Some e ->
  scanning now s s0 (seen ++ [d]) (scanEntry now (checkGrandfathering now s) (clearGrandfathering now s) st d).
Proof.
  intros Hk (_ & Hdec & Hexm) [Hrest Hentry Hall Hnon Hstr] Hnew He. unfold scanEntry. rewrite Hentry, He. cbn [fmap option_fmap option_map].
  rewrite decide_False by (intros [? _]; done). rewrite (Hk d e He). rewrite Hrest at 1. rewrite Hexm.
  destruct (shouldExemptFromWebsiteDataDeletion s d) eqn:Hex.
  - assert (Hno : forall part, false = true <-> listed now s part d e) by (intros part; unfold listed; rewrite Hex; naive_solver).
    split; [done| |by apply (extend_list _ _ seen _ d e false Hall He)|by apply (extend_list _ _ seen _ d e false Hnon He)
           |by apply (extend_list _ _ seen _ d e false Hstr He)].
    intros x. rewrite Hentry. destruct (m_resourceStatisticsMap s !! x) as [e'|]; [|done]. cbn [fmap option_fmap option_map]. f_equal.
    destruct (decide (x ∈ seen /\ _)) as [[Hx Hx']|Hx]; [rewrite decide_True by (split; [set_solver|done]); done|].
    rewrite decide_False; [done|]. intros [[Hin| ->%list_elem_of_singleton]%elem_of_app Hf]; [auto|congruence].
  - rewrite Hrest at 1. rewrite Hdec. destruct (decideForEntry_identity now s (checkGrandfathering now s) (clearGrandfathering now s) e) as (Hdom & _).
    rewrite (Hk d e He) in Hdom.
    assert (Hyes : forall part, part (verdict now s e) = true <-> listed now s part d e) by (intros part; unfold listed; rewrite Hex; naive_solver).
    unfold verdict in Hyes. destruct (decideForEntry now s _ _ e) as [[[a n] t] e'] eqn:Hdecide. cbn [snd fst] in Hdom, Hyes. rewrite Hdom.
    split; cbn [scanStore scanned domainsToDeleteAllCookiesFor domainsToDeleteAllNonCookieWebsiteDataFor domainsToEnforceSameSiteStrictFor].
    + rewrite Hrest. done.
    + intros x. unfold onMap. cbn. destruct (decide (x = d)) as [->|Hne].
      * rewrite lookup_insert_eq, He. cbn [fmap option_fmap option_map]. rewrite decide_True by (split; [set_solver|done]). by rewrite Hdecide.
      * rewrite lookup_insert_ne, Hentry by done. destruct (m_resourceStatisticsMap s !! x); [|done]. cbn [fmap option_fmap option_map]. f_equal.
        destruct (decide (x ∈ seen /\ _)) as [[Hx Hx']|Hx]; [rewrite decide_True by (split; [set_solver|done]); done|].
        rewrite decide_False; [done|]. intros [[Hin| ->%list_elem_of_singleton]%elem_of_app Hf]; auto.
    + apply (extend_list _ _ seen _ d e a Hall He). apply (Hyes (fun v => fst (fst v))).
    + apply (extend_list _ _ seen _ d e n Hnon He). apply (Hyes (fun v => snd (fst v))).
    + apply (extend_list _ _ seen _ d e t Hstr He). apply (Hyes snd).
Qed.

Lemma scan_all now s s0 seen st l :
  keyed (m_resourceStatisticsMap s) -> same_decisions s s0 -> scanning now s s0 seen st -> NoDup (seen ++ l) ->
  Forall (fun d => is_Some (m_resourceStatisticsMap s !! d)) l ->
  scanning now s s0 (seen ++ l) (foldl (scanEntry now (checkGrandfathering now s) (clearGrandfathering now s)) st l).
Proof.
  intros Hk Hd. revert seen st. induction l as [|d l IH]; intros seen st Hs Hn Hl; cbn [foldl]; [by rewrite app_nil_r|].
  apply Forall_cons in Hl as [[e He] Hl]. rewrite cons_middle, app_assoc in Hn |- *. apply IH; [|done..].
  eapply scan_step; [done..| |done]. rewrite <- app_assoc in Hn. apply NoDup_app in Hn as (_ & Hn & _). intros Hin. apply (Hn d Hin). set_solver.
Qed.

(** The scan of the whole map. *)
Lemma scan_result now s :
  keyed (m_resourceStatisticsMap s) ->
  let s0 := if clearGrandfathering now s then s <| m_endOfGrandfatheringTimestamp := 0 |> else s in
  exists st, scanning now s s0 (mapOrder (m_resourceStatisticsMap s)) st /\
    registrableDomainsToDeleteOrRestrictWebsiteDataFor now s =
      (if negb (isRunningTest (m_parameters s)) && (now - oldestUserInteraction st <? minimumTimeBetweenDataRecordsRemoval (m_parameters s))
       then (scanned st) <| domainsToDeleteAllNonCookieWebsiteDataFor := [] |> else scanned st, scanStore st).
Proof.
  intros Hk s0. pose proof (same_decisions_clear s (clearGrandfathering now s)) as Hd. fold s0 in Hd. pose proof Hd as (Hmap & _ & _).
  exists (foldl (scanEntry now (checkGrandfathering now s) (clearGrandfathering now s)) (mkScan (mkDeletion [] [] [] []) now s0)
            (mapOrder (m_resourceStatisticsMap s))). split.
  - apply (scan_all now s s0 []); [done|done| |cbn [app]; rewrite mapOrder_keys; apply NoDup_fst_map_to_list|].
    + split; cbn [scanStore scanned domainsToDeleteAllCookiesFor domainsToDeleteAllNonCookieWebsiteDataFor domainsToEnforceSameSiteStrictFor].
      * by destruct s0.
      * intros d. rewrite Hmap. destruct (m_resourceStatisticsMap s !! d); [|done]. cbn. rewrite decide_False; [done|]. intros [Hin _]. set_solver.
      * split; [set_solver|intros [? _]; set_solver].
      * split; [set_solver|intros [? _]; set_solver].
      * split; [set_solver|intros [? _]; set_solver].
    + apply Forall_forall. intros d. rewrite mapOrder_keys. intros ((d' & e) & -> & He)%list_elem_of_fmap.
      apply elem_of_map_to_list in He. by eexists.
  - unfold registrableDomainsToDeleteOrRestrictWebsiteDataFor. fold s0. rewrite Hmap.
    replace (m_parameters s0) with (m_parameters s) by (unfold s0; by destruct (clearGrandfathering now s)). done.
Qed.

(** *** What the verdicts mean *)

Lemma verdict_all now s e :
  fst (fst (verdict now s e)) = isPrevalent e && negb (interacted now s e) && (negb (checkGrandfathering now s) || negb (grandfathered e)).
Proof.
  unfold verdict, decideForEntry, shouldRemoveAllWebsiteDataFor, interacted. destruct (isPrevalent e) eqn:Hp; cbn [andb].
  - assert (Hg : grandfathered (snd (hasHadUnexpiredRecentUserInteraction now s e Long)) = grandfathered e).
    { unfold hasHadUnexpiredRecentUserInteraction. destruct (_ && _); [|done]. by case_bool_decide. }
    destruct (hasHadUnexpiredRecentUserInteraction now s e Long) as [b e1]. cbn [fst snd] in *. rewrite Hg.
    destruct (negb b && _); [done|]. destruct (shouldRemoveAllButCookiesFor _ _ _ _) as [b1 e2]. by destruct (shouldEnforceSameSiteStrictFor _ _ _).
  - destruct (shouldRemoveAllButCookiesFor _ _ _ _) as [b1 e2]. by destruct (shouldEnforceSameSiteStrictFor _ _ _).
Qed.

(** Whether the user has interacted with the domain within the window for non-cookie data. *)
Definition interactedInRemovalWindow (now : WallTime) (s : Store) (e : Statistics) : bool :=
  fst (hasHadUnexpiredRecentUserInteraction now s e (removalWindow (m_firstPartyWebsiteDataRemovalMode s))).

Lemma verdict_nonCookie now s e :
  snd (fst (verdict now s e)) = true -> fst (fst (verdict now s e)) = false ->
  (m_firstPartyWebsiteDataRemovalMode s <> RemoveNone \/ gotLinkDecorationFromPrevalentResource e = true) /\
  (checkGrandfathering now s = true -> grandfathered e = false) /\ interactedInRemovalWindow now s e = false.
Proof.
  intros Hn Ha. rewrite verdict_all in Ha. unfold verdict, decideForEntry in Hn.
  assert (He1 : shouldRemoveAllWebsiteDataFor now s e (checkGrandfathering now s) = (false, e) \/
                (checkGrandfathering now s && grandfathered e = true /\
                 exists e1, shouldRemoveAllWebsiteDataFor now s e (checkGrandfathering now s) = (false, e1) /\ grandfathered e1 = true)).
  { unfold shouldRemoveAllWebsiteDataFor, interacted, hasHadUnexpiredRecentUserInteraction in *.
    destruct (isPrevalent e); [|by left]. cbn [andb] in Ha. destruct (hadUserInteraction e && hasStatisticsExpired now s e Long) eqn:Hx; cbn [fst negb andb] in Ha |- *.
    - right. destruct (checkGrandfathering now s), (grandfathered e) eqn:Hg; try done. split; [done|]. clear Hn. case_bool_decide; [|done].
      eexists. split; [cbn; rewrite Hg; reflexivity|reflexivity].
    - left. rewrite Ha. done. }
  destruct He1 as [He1|(Hcg & e1 & He1 & Hg)]; rewrite He1 in Hn; clear He1.
  - unfold shouldRemoveAllButCookiesFor in Hn. unfold interactedInRemovalWindow.
    destruct (_ && _) eqn:Hcond; [|by destruct (shouldEnforceSameSiteStrictFor _ _ _)]. apply andb_true_iff in Hcond as [Hen Hgr].
    destruct (hasHadUnexpiredRecentUserInteraction now s e _) as [b e2]. cbn [fst].
    split; [|split].
    + apply orb_true_iff in Hen as [Hen|Hen]; [left|by right]. apply negb_true_iff, bool_decide_eq_false in Hen. done.
    + intros Hc. rewrite Hc in Hgr. by apply negb_true_iff in Hgr.
    + destruct b; [|done]. cbn [negb] in Hn. by destruct (shouldEnforceSameSiteStrictFor _ _ _).
  - exfalso. apply andb_true_iff in Hcg as [Hcg _]. unfold shouldRemoveAllButCookiesFor in Hn. rewrite Hcg, Hg, andb_false_r in Hn.
    by destruct (shouldEnforceSameSiteStrictFor _ _ _).
Qed.

Lemma decideForEntry_clears now s c e : grandfathered (snd (decideForEntry now s c true e)) = false.
Proof.
  unfold decideForEntry. match goal with |- grandfathered (snd (let '(_, _) := ?X in _)) = _ => destruct X as [v e1] end.
  cbn [andb snd]. by destruct (grandfathered e1) eqn:Hg.
Qed.
End scanning.

(** ** Scheduling *)

Section scheduling.
Context `{DateMath} `{Platform} `{StdSort}.

(** [n] requests in a row. *)
Definition schedules (n : nat) (s : Store) : Store := Nat.iter n scheduleStatisticsProcessingRequestIfNecessary s.

Lemma schedules_state n s : (0 < n)%nat -> in_width 64 (m_lastStatisticsProcessingRequestIdentifier s) ->
  m_lastStatisticsProcessingRequestIdentifier (schedules n s) = wrap 64 (m_lastStatisticsProcessingRequestIdentifier s + Z.of_nat n) /\
  m_pendingStatisticsProcessingRequestIdentifier (schedules n s) = Some (wrap 64 (m_lastStatisticsProcessingRequestIdentifier s + Z.of_nat n)) /\
  delayedRequests (schedules n s) = delayedRequests s ++ ((fun i => wrap 64 (m_lastStatisticsProcessingRequestIdentifier s + Z.of_nat i)) <$> seq 1 n).
Proof.
  intros Hn Hw. induction n as [|n IH]; [lia|]. destruct n as [|n]; [done|]. destruct IH as (Hl & _ & Hd); [lia|].
  change (schedules (S (S n)) s) with (scheduleStatisticsProcessingRequestIfNecessary (schedules (S n) s)).
  set (s1 := schedules (S n) s) in *. clearbody s1. unfold scheduleStatisticsProcessingRequestIfNecessary. cbn -[seq wrap Z.of_nat].
  rewrite Hl, Hd, wrap_add_l by lia. rewrite (seq_S (S n) 1), fmap_app, app_assoc.
  replace (m_lastStatisticsProcessingRequestIdentifier s + Z.of_nat (S n) + 1) with (m_lastStatisticsProcessingRequestIdentifier s + Z.of_nat (S (S n))) by lia.
  done.
Qed.

(** Requests other than the pending one do nothing. *)
Lemma stale_requests now monotonic s ids pending :
  m_pendingStatisticsProcessingRequestIdentifier s = Some pending -> pending ∉ ids -> foldl (runDelayedRequest now monotonic) s ids = s.
Proof.
  intros Hp. induction ids as [|i ids IH]; intros Hin; [done|]. cbn [foldl]. unfold runDelayedRequest at 2. rewrite Hp.
  rewrite bool_decide_false by (intros [= ->]; set_solver). apply IH. set_solver.
Qed.

Lemma wrap_distinct a i j : 0 <= i < 2 ^ 64 -> 0 <= j < 2 ^ 64 -> wrap 64 (a + i) = wrap 64 (a + j) -> i = j.
Proof.
  intros Hi Hj Heq. unfold wrap in Heq.
  assert (((a + i) - (a + j)) mod 2 ^ 64 = 0) as Hz by (rewrite Zminus_mod, Heq, Z.sub_diag; done).
  apply Z.mod_divide in Hz as [k Hk]; [|lia]. assert (k = 0) by nia. lia.
Qed.
End scheduling.

(** ** Removals do not overlap *)

Section lifecycle.
Context `{DateMath} `{Platform} `{!PlatformLaws} `{StdSort}.

Definition isRemoval (t : MainThreadTask) : bool := match t with DeleteAndRestrictWebsiteData _ _ => true | _ => false end.
(** The removals asked of the main thread so far. *)
Definition removals (s : Store) : nat := length (filter (fun t => isRemoval t = true) (mainThread s)).

(** The store and the number of removals the main thread has answered.  [other] stands for the
    operations that neither ask for a removal nor note its end. *)
Inductive lifecycle : nat * Store -> nat * Store -> Prop :=
| lifecycle_process now monotonic answered s : lifecycle (answered, s) (answered, processStatisticsAndDataRecords now monotonic s)
| lifecycle_delayed now monotonic identifier answered s : lifecycle (answered, s) (answered, runDelayedRequest now monotonic s identifier)
| lifecycle_answer monotonic domains answered s : (answered < removals s)%nat -> lifecycle (answered, s) (S answered, didRemoveDataRecords monotonic domains s)
| lifecycle_other answered s s' : m_dataRecordsBeingRemoved s' = m_dataRecordsBeingRemoved s -> removals s' = removals s -> good_map true (m_resourceStatisticsMap s') ->
    lifecycle (answered, s) (answered, s').

(** At most the removal that is being carried out is unanswered. *)
Record one_removal (st : nat * Store) : Prop := {
  one_removal_count : removals (snd st) = (fst st + if m_dataRecordsBeingRemoved (snd st) then 1 else 0)%nat;
  one_removal_map : good_map true (m_resourceStatisticsMap (snd st))
}.

Lemma removals_post t s : removals (post t s) = (removals s + if isRemoval t then 1 else 0)%nat.
Proof.
  unfold removals, post. cbn. rewrite filter_app, length_app. f_equal. destruct (isRemoval t) eqn:E; [by rewrite filter_cons_True|by rewrite filter_cons_False by congruence].
Qed.

(** [didProcess] and the operations before it leave both numbers alone. *)
Definition same_removals (s s' : Store) : Prop :=
  m_dataRecordsBeingRemoved s' = m_dataRecordsBeingRemoved s /\ removals s' = removals s.

Lemma same_removals_post t s : isRemoval t = false -> same_removals s (post t s).
Proof. intros Ht. split; [done|]. rewrite removals_post, Ht. lia. Qed.

Lemma didProcess_same s : same_removals s (didProcess s).
Proof.
  unfold didProcess. assert (Hp : same_removals s (pruneStatisticsIfNeeded s)) by (unfold pruneStatisticsIfNeeded; case_decide; done).
  pose proof (same_removals_post (LogTestingEvent "Storage Synced") (pruneStatisticsIfNeeded s) eq_refl) as Hl.
  set (s1 := post _ _) in *. pose proof (same_removals_post NotifyResourceLoadStatisticsProcessed s1 eq_refl) as Hn.
  unfold same_removals in *. destruct (negb _); intuition congruence.
Qed.

Lemma pruneBuckets_sub buckets (m : StatisticsMap) n d e : fst (pruneBuckets buckets (m, n)) !! d = Some e -> m !! d = Some e.
Proof.
  revert m n. induction buckets as [|b rest IH]; intros m n; [done|]. cbn [pruneBuckets snd]. case_decide; [done|].
  unfold pruneResources. intros He%IH. set (l := take _ _) in He. clearbody l. revert m He.
  induction l as [|x l IHl]; intros m He; [done|]. cbn [foldl] in He. apply IHl in He. by apply lookup_delete_Some in He as [_ He].
Qed.

Lemma didProcess_map s : good_map true (m_resourceStatisticsMap s) -> good_map true (m_resourceStatisticsMap (didProcess s)).
Proof.
  intros Hm. replace (m_resourceStatisticsMap (didProcess s)) with (m_resourceStatisticsMap (pruneStatisticsIfNeeded s))
    by (unfold didProcess; by destruct (negb _)).
  unfold pruneStatisticsIfNeeded. case_decide; [done|]. intros d e He. apply pruneBuckets_sub in He. by apply Hm.
Qed.

Lemma same_removals_map s m : same_removals s (s <| m_resourceStatisticsMap := m |>).
Proof. done. Qed.

Lemma updateCookieBlocking_same now s : keyed (m_resourceStatisticsMap s) -> same_removals s (updateCookieBlocking now s).
Proof.
  intros Hk. destruct (updateCookieBlocking_lists now s Hk) as (lists & s' & [Hs' _] & _ & ->).
  assert (Hsame : same_removals s s') by (rewrite Hs'; apply same_removals_map).
  destruct (_ && _); [done|]. pose proof (same_removals_post (CallUpdatePrevalentDomainsToBlockCookiesForHandler lists) s' eq_refl).
  unfold same_removals in *. intuition congruence.
Qed.

Lemma classify_same s : keyed (m_resourceStatisticsMap s) -> same_removals s (classifyPrevalentResources s).
Proof.
  intros Hk. unfold classifyPrevalentResources. rewrite (promotes_rest _ _ (classify_promotes s (mapOrder (m_resourceStatisticsMap s)) Hk)).
  apply same_removals_map.
Qed.

Lemma scan_same now s : good_map true (m_resourceStatisticsMap s) ->
  let s' := snd (registrableDomainsToDeleteOrRestrictWebsiteDataFor now s) in same_removals s s' /\ good_map true (m_resourceStatisticsMap s').
Proof.
  intros Hm s'. unfold s'. destruct (scan_result now s (good_keyed _ Hm)) as (st & [Hrest Hentry _ _ _] & ->). cbn [snd]. split.
  - rewrite Hrest. by destruct (clearGrandfathering now s).
  - intros d e'. rewrite Hentry. destruct (m_resourceStatisticsMap s !! d) as [e|] eqn:He; [|done]. cbn [fmap option_fmap option_map].
    pose proof (Hm d e He) as [Hd Hv]. intros [= <-]. case_decide; [|done].
    destruct (decideForEntry_identity now s (checkGrandfathering now s) (clearGrandfathering now s) e) as (Hid & Hip & Hiv).
    split; [by rewrite Hid|by rewrite Hip, Hiv].
Qed.

Lemma removeDataRecords_one now monotonic answered s : one_removal (answered, s) -> one_removal (answered, removeDataRecords now monotonic s).
Proof.
  intros [Hc Hm]. cbn [fst snd] in *. unfold removeDataRecords.
  assert (Hdid : forall s', same_removals s s' -> good_map true (m_resourceStatisticsMap s') -> one_removal (answered, didProcess s')).
  { intros s' [Hf Hr] Hm'. destruct (didProcess_same s') as [Hf' Hr']. split; cbn [fst snd]; [rewrite Hf', Hr', Hf, Hr; done|by apply didProcess_map]. }
  destruct (negb (shouldRemoveDataRecords monotonic s)) eqn:Hshould; [by apply Hdid|].
  destruct (scan_same now s Hm) as [Hs Hm']. destruct (registrableDomainsToDeleteOrRestrictWebsiteDataFor now s) as [domains s']. cbn [snd] in *.
  destruct (nothingToDelete domains); [by apply Hdid|]. destruct Hs as [Hf Hr]. split; cbn [fst snd]; [|done].
  rewrite removals_post. cbn [isRemoval]. replace (removals (setDataRecordsBeingRemoved monotonic true s')) with (removals s') by done.
  rewrite Hr, Hc. unfold shouldRemoveDataRecords in Hshould. destruct (m_dataRecordsBeingRemoved s); [done|]. cbn. lia.
Qed.

Lemma process_one now monotonic answered s : one_removal (answered, s) -> one_removal (answered, processStatisticsAndDataRecords now monotonic s).
Proof.
  intros Ho. pose proof Ho as [Hc Hm]. cbn [fst snd] in *. unfold processStatisticsAndDataRecords. destruct (_ && _); [done|].
  apply removeDataRecords_one. destruct (shouldClassifyResourcesBeforeDataRecordsRemoval (m_parameters s)); [|done].
  destruct (classify_same s (good_keyed _ Hm)) as [Hf Hr]. split; cbn [fst snd]; [by rewrite Hf, Hr|].
  destruct (classifying_fold true s s (mapOrder (m_resourceStatisticsMap s))) as [Hk Hcons _ _]; [|by apply good_intro].
  split; [by eapply good_keyed|by eapply good_consistent|done|]. intros d. apply justified_before.
Qed.

Lemma increment_same ds s : same_removals s (incrementRecordsDeletedCountForDomains ds s).
Proof.
  unfold incrementRecordsDeletedCountForDomains. apply (foldl_invariant (same_removals s)); [|done].
  intros s' d Hs'. exact Hs'.
Qed.

Lemma increment_good ds s : good_map true (m_resourceStatisticsMap s) -> good_map true (m_resourceStatisticsMap (incrementRecordsDeletedCountForDomains ds s)).
Proof.
  intros Hm. unfold incrementRecordsDeletedCountForDomains. apply (foldl_invariant (fun s => good_map true (m_resourceStatisticsMap s))); [|done].
  intros s' d Hs'. apply good_ensureAndUpdate; auto with itp.
Qed.
End lifecycle.

(** ** Properties *)

Section properties.
Context `{DateMath} `{Platform} `{!PlatformLaws} `{StdSort}.

(** When there are more entries than allowed, pruning leaves exactly [pruneEntriesDownTo] of
    them, unchanged, and no entry that is dropped is more important than one that is kept, nor
    equally important and seen later. *)
Theorem pruning_keeps_the_most_important `{!StdSortLaws} s :
  good_map true (m_resourceStatisticsMap s) -> in_width 64 (Z.of_nat (size (m_resourceStatisticsMap s))) ->
  (pruneEntriesDownTo (m_parameters s) <= maxStatisticsEntries (m_parameters s) < size (m_resourceStatisticsMap s))%nat ->
  let m := m_resourceStatisticsMap s in
  let m' := m_resourceStatisticsMap (pruneStatisticsIfNeeded s) in
  size m' = pruneEntriesDownTo (m_parameters s) /\ m' ⊆ m /\
  (forall d e d' e', m !! d = Some e -> m' !! d = None -> m' !! d' = Some e' ->
     (computeImportance e < computeImportance e')%nat \/ (computeImportance e = computeImportance e' /\ lastSeen e <= lastSeen e')).
Proof.
  intros Hm Hw Hp m m'. assert (Hm' : m' = deleteAll m (pruned m (size m - pruneEntriesDownTo (m_parameters s)))) by by apply pruneStatisticsIfNeeded_map.
  set (n := (size m - _)%nat) in Hm'. destruct (pruned_domains m n Hm) as (Hnd & Hlen & Hin). rewrite Hm'. split; [|split].
  - pose proof (deleteAll_size (pruned m n) m Hnd) as Hsize. rewrite Hlen in Hsize.
    cut (size (deleteAll m (pruned m n)) + n `min` size m = size m)%nat; [unfold n, m; lia|].
    apply Hsize. intros d (x & -> & Hx)%list_elem_of_fmap. destruct (Hin x Hx) as (e & He & _). by eexists.
  - apply map_subseteq_spec. intros d e. rewrite deleteAll_lookup. by case_decide.
  - intros d e d' e' He Hgone Hkeep. rewrite deleteAll_lookup in Hgone, Hkeep.
    destruct (decide (d ∈ (pruned m n).*1)) as [Hd|]; [|congruence].
    destruct (decide (d' ∈ (pruned m n).*1)) as [|Hd']; [done|]. apply list_elem_of_fmap in Hd as (x & -> & Hx).
    assert (Hxs : snd x = lastSeen e). { destruct (Hin x Hx) as (e0 & He0 & Hs). rewrite He in He0. by apply (inj Some) in He0 as <-. }
    destruct (removedFrom_order (importanceIn m) (bucket m <$> seq 0 (S maxImportance)) 0 n x (d', lastSeen e')) as [Hlt|[Heq Hle]].
    + intros j b z Hj Hz. apply list_lookup_fmap_Some in Hj as (i & -> & Hi). apply lookup_seq in Hi as [-> _]. by apply bucket_elem.
    + exact Hx.
    + apply buckets_elem; [done|]. by exists e'.
    + intros Hbad. apply Hd'. apply list_elem_of_fmap. by exists (d', lastSeen e').
    + left. unfold importanceIn in Hlt. cbn [fst] in Hlt. by rewrite He, Hkeep in Hlt.
    + right. unfold importanceIn in Heq. cbn [fst] in Heq. rewrite He, Hkeep in Heq. split; [done|]. unfold seenBefore in Hle. cbn [snd] in Hle. by rewrite <- Hxs.
Qed.

(** C22: The domains whose cookies are deleted are the prevalent ones, not exempt, with which the
    user has not interacted within the long window and which are not grandfathered while
    grandfathering lasts; other data is deleted of these and only of domains without interaction
    in the removal window for which removal is enabled; when grandfathering has ended it is
    forgotten. *)
Theorem data_removal_decision now s :
  good_map true (m_resourceStatisticsMap s) ->
  let '(lists, s') := registrableDomainsToDeleteOrRestrictWebsiteDataFor now s in
  (forall d, d ∈ domainsToDeleteAllCookiesFor lists <->
     exists e, m_resourceStatisticsMap s !! d = Some e /\ shouldExemptFromWebsiteDataDeletion s d = false /\ isPrevalent e = true /\
       interacted now s e = false /\ (checkGrandfathering now s = true -> grandfathered e = false)) /\
  (forall d, d ∈ domainsToDeleteAllNonCookieWebsiteDataFor lists ->
     exists e, m_resourceStatisticsMap s !! d = Some e /\ shouldExemptFromWebsiteDataDeletion s d = false /\
       (d ∈ domainsToDeleteAllCookiesFor lists \/
        (m_firstPartyWebsiteDataRemovalMode s <> RemoveNone \/ gotLinkDecorationFromPrevalentResource e = true) /\
        (checkGrandfathering now s = true -> grandfathered e = false) /\ interactedInRemovalWindow now s e = false)) /\
  (clearGrandfathering now s = true -> m_endOfGrandfatheringTimestamp s' = 0 /\
     forall d e', m_resourceStatisticsMap s' !! d = Some e' -> shouldExemptFromWebsiteDataDeletion s d = false -> grandfathered e' = false).
Proof.
  intros Hm. destruct (scan_result now s (good_keyed _ Hm)) as (st & [Hrest Hentry Hall Hnon _] & ->).
  set (lists := if _ && _ then _ else _). assert (Hcookies : domainsToDeleteAllCookiesFor lists = domainsToDeleteAllCookiesFor (scanned st)) by (unfold lists; by destruct (_ && _)).
  assert (Hseen : forall d e, m_resourceStatisticsMap s !! d = Some e -> d ∈ mapOrder (m_resourceStatisticsMap s)).
  { intros d e He. rewrite mapOrder_keys. apply list_elem_of_fmap. exists (d, e). split; [done|]. by apply elem_of_map_to_list. }
  assert (Hiff : forall d, d ∈ domainsToDeleteAllCookiesFor lists <-> exists e, m_resourceStatisticsMap s !! d = Some e /\ listed now s (fun v => fst (fst v)) d e).
  { intros d. rewrite Hcookies, Hall. split; [by intros [_ ?]|]. intros (e & He & Hl). split; eauto. }
  split; [|split].
  - intros d. rewrite Hiff. apply exist_proper. intros e. unfold listed. rewrite verdict_all.
    rewrite !andb_true_iff, orb_true_iff, !negb_true_iff. destruct (checkGrandfathering now s), (grandfathered e); naive_solver.
  - intros d Hd. assert (Hd' : d ∈ domainsToDeleteAllNonCookieWebsiteDataFor (scanned st)) by (revert Hd; unfold lists; destruct (_ && _); [cbn; set_solver|done]).
    apply Hnon in Hd' as (_ & e & He & Hex & Hv). exists e. split; [done|]. split; [done|].
    destruct (fst (fst (verdict now s e))) eqn:Ha; [left; apply Hiff; exists e; done|right]. by apply verdict_nonCookie.
  - intros Hclear. rewrite Hclear in Hrest. split; [by rewrite Hrest|]. intros d e'. rewrite Hentry.
    destruct (m_resourceStatisticsMap s !! d) as [e|] eqn:He; [|done]. cbn [fmap option_fmap option_map]. intros Heq Hex. apply (inj Some) in Heq as <-.
    rewrite decide_True by eauto. rewrite Hclear. apply decideForEntry_clears.
Qed.

(** However many requests for processing are made before the first one runs, running them all
    in order processes the statistics once. *)
Theorem requests_are_coalesced now monotonic n s :
  (0 < n)%nat -> Z.of_nat n < 2 ^ 64 -> in_width 64 (m_lastStatisticsProcessingRequestIdentifier s) -> delayedRequests s = [] ->
  let s1 := schedules n s in
  length (delayedRequests s1) = n /\
  foldl (runDelayedRequest now monotonic) s1 (delayedRequests s1) = processStatisticsAndDataRecords now monotonic (updateCookieBlocking now s1).
Proof.
  intros Hn Hlt Hw Hnil s1. destruct (schedules_state n s Hn Hw) as (_ & Hpend & Hdel). fold s1 in Hpend, Hdel. rewrite Hnil in Hdel. cbn [app] in Hdel.
  split; [by rewrite Hdel, length_fmap, length_seq|]. rewrite Hdel. destruct n as [|n]; [lia|]. rewrite seq_S, fmap_app, foldl_app.
  rewrite (stale_requests now monotonic s1 _ _ Hpend).
  - cbn [fmap list_fmap foldl]. unfold runDelayedRequest. by rewrite Hpend, bool_decide_true.
  - intros (i & Heq & Hi)%list_elem_of_fmap. apply elem_of_seq in Hi. apply wrap_distinct in Heq; lia.
Qed.

(** The removals of website data do not overlap: at any time the main thread has at most one
    removal to answer, and there is one exactly while the store says so. *)
Theorem removals_do_not_overlap answered s includeLocalhost :
  rtc lifecycle (0%nat, emptyStore includeLocalhost) (answered, s) ->
  removals s = (answered + if m_dataRecordsBeingRemoved s then 1 else 0)%nat.
Proof.
  intros Hr. cut (one_removal (answered, s)); [by intros [? _]|].
  eapply (rtc_invariant lifecycle one_removal); [|exact Hr|split; [done|apply good_empty]].
  intros st st' Ho Hstep. destruct Hstep as [now monotonic k s0|now monotonic i k s0|monotonic ds k s0 Hk|k s0 s1 Hf Hc Hm].
  - by apply process_one.
  - unfold runDelayedRequest. case_bool_decide; [|done]. apply process_one. destruct Ho as [Hc Hm]. cbn [fst snd] in *.
    destruct (updateCookieBlocking_same now s0 (good_keyed _ Hm)) as [Hf Hrm]. split; cbn [fst snd]; [by rewrite Hf, Hrm|].
    by apply good_updateCookieBlocking.
  - destruct Ho as [Hc Hm]. cbn [fst snd] in *. unfold didRemoveDataRecords. set (s1 := setDataRecordsBeingRemoved _ _ _).
    destruct (didProcess_same s1) as [Hf Hrm]. destruct (increment_same ds s0) as [Hf' Hr']. split; cbn [fst snd].
    + rewrite Hrm, Hf. replace (removals s1) with (removals s0) by done. destruct (m_dataRecordsBeingRemoved s0); cbn; lia.
    + apply didProcess_map. by apply increment_good.
  - destruct Ho as [Hc0 Hm0]. cbn [fst snd] in *. split; cbn [fst snd]; [by rewrite Hc, Hf|done].
Qed.
End properties.

(** ** Witnesses *)

#[local] Existing Instance plainCalendar.
#[local] Existing Instance plainCalendarLaws.
#[local] Existing Instance plainPlatform.
#[local] Existing Instance plainPlatformLaws.

#[global] Instance seenBefore_dec a b : Decision (seenBefore a b).
Proof. unfold seenBefore. apply _. Defined.
Definition mergeSort : StdSort := {| stdSort := merge_sort seenBefore |}.
#[local] Existing Instance mergeSort.
Lemma mergeSortLaws : StdSortLaws.
Proof.
  split; [intros l; apply merge_sort_Permutation|]. intros l. apply StronglySorted_merge_sort.
  - intros a b c. unfold seenBefore. lia.
  - intros a b. unfold seenBefore. lia.
Qed.
#[local] Existing Instance mergeSortLaws.

(** Four domains, of which c has user interaction and p is prevalent. *)
Definition crowdedStore : Store :=
  setMaxStatisticsEntries 3 (setPruneEntriesDownTo 2
    (setLastSeen "d" 30 (setLastSeen "e" 20 (setPrevalentResource "p" (logUserInteraction (100 * msPerDay) "c" (createStore (100 * msPerDay) true)))))).

Lemma crowdedStore_good : good_map true (m_resourceStatisticsMap crowdedStore).
Proof.
  change (good_map true (m_resourceStatisticsMap (setLastSeen "d" 30 (setLastSeen "e" 20 (setPrevalentResource "p"
    (logUserInteraction (100 * msPerDay) "c" (createStore (100 * msPerDay) true))))))).
  apply store_map. eapply store_ok_step; [|apply step_setLastSeen]. eapply store_ok_step; [|apply step_setLastSeen].
  eapply store_ok_step; [|apply step_setPrevalentResource]. eapply store_ok_step; [apply store_ok_created|apply step_logUserInteraction].
Qed.

Lemma pruning_keeps_the_most_important_witness :
  size (m_resourceStatisticsMap (pruneStatisticsIfNeeded crowdedStore)) = 2%nat /\
  m_resourceStatisticsMap (pruneStatisticsIfNeeded crowdedStore) !! "d" = None.
Proof.
  refine (conj (proj1 (pruning_keeps_the_most_important crowdedStore crowdedStore_good _ _)) _);
    [apply (bool_decide_unpack _); vm_compute; exact I|apply (bool_decide_unpack _); vm_compute; exact I|vm_compute; reflexivity].
Defined.

Lemma data_removal_decision_witness :
  "p" ∈ domainsToDeleteAllCookiesFor (fst (registrableDomainsToDeleteOrRestrictWebsiteDataFor (101 * msPerDay) crowdedStore)).
Proof.
  pose proof (data_removal_decision (101 * msPerDay) crowdedStore crowdedStore_good) as Hd.
  destruct (registrableDomainsToDeleteOrRestrictWebsiteDataFor (101 * msPerDay) crowdedStore) as [lists s'].
  apply (proj1 Hd). exists (statisticsOf "p" crowdedStore).
  refine (conj _ (conj _ (conj _ (conj _ _)))); vm_compute; reflexivity.
Defined.

Lemma requests_are_coalesced_witness :
  length (delayedRequests (schedules 3 crowdedStore)) = 3%nat.
Proof.
  exact (proj1 (requests_are_coalesced (101 * msPerDay) 5 3 crowdedStore ltac:(lia) ltac:(lia)
    ltac:(apply (bool_decide_unpack _); vm_compute; exact I) ltac:(vm_compute; reflexivity))).
Defined.

Lemma removals_do_not_overlap_witness :
  removals (processStatisticsAndDataRecords (101 * msPerDay) 10 (processStatisticsAndDataRecords (101 * msPerDay) 5 crowdedStore)) = 1%nat.
Proof.
  refine (removals_do_not_overlap 0 _ true _).
  eapply rtc_l; [apply (lifecycle_other _ _ crowdedStore); [vm_compute; reflexivity|vm_compute; reflexivity|exact crowdedStore_good]|].
  eapply rtc_l; [apply (lifecycle_process (101 * msPerDay) 5)|]. eapply rtc_l; [apply (lifecycle_process (101 * msPerDay) 10)|]. apply rtc_refl.
Defined.
